(* ===== verification/_CoqProject ===== *)
-Q . S2P
Prelude.v
Kstate.v
Kstring.v
Spinlock.v
Kalloc.v
Vm.v
Sched.v
Sleeplock.v
Bio.v
Blocks.v
Log.v
Tx.v
Fs.v
FsAlloc.v
FsInode.v
FsDir.v
FsPath.v
FsLink.v
Footprint.v
Wal.v
Crash.v
Mkfs.v
Uart.v
Printf.v
Console.v
Pipe.v
ConsoleEdit.v
ConsoleWrite.v
File.v
FileWrite.v
Proc.v
Exec.v
Syscall.v
FileTable.v
Virtio.v
Trap.v
Boot.v
Umalloc.v
User.v
Grep.v
Utils.v
Primes.v
Sh.v
Grind.v
UtBase.v
UtFiles.v
UtProcs.v
UtMem.v
Usertests.v
