(* ===== verification/Prelude.v ===== *)
(** * A verification development of the xv6-riscv teaching kernel

    The program is the xv6 kernel for RISC-V, its user programs (with the
    additions of the "util" lab) and the program that builds the file-system
    image.  The development translates the C sources under src/ into Rocq
    definitions and proves what they promise.  Definitions keep the names of
    the C functions; a definition that is a loop or a part of a function has
    the function's name with a suffix ([bget_cached], [malloc_loop]).

    ** The parts of the program and where they are

    Foundations:
    - [Prelude]: integers at their width ([u8], [u32], [i32], ...), the monad
      [M] of stateful code that can panic or give up the CPU ([Ok], [Panic],
      [Susp]), its loops, the total-correctness assertion [wp] (the code
      returns, and the result and the new state satisfy the postcondition),
      shared list and arithmetic lemmas;
    - [Kstate]: the structures of the header files and the record [kernel] of
      all global variables, the physical memory, the disk and the registers
      of the running hart;
    - [Kstring]: kernel/string.c and the string routines of user/ulib.c.

    Concurrency:
    - [Spinlock]: kernel/spinlock.c on one hart, and the acquire/release
      protocol of any number of harts as a step relation, one memory access
      per step (module [Protocol]);
    - [Sched]: the part of kernel/proc.c that others build on (sched, yield,
      sleep, wakeup, kill, one visit of the scheduler); a thread that calls
      swtch ends its run with [Susp], and the [_return] definition is what it
      does when it is switched back to.  Module [NoLostWakeup] is the race of
      one sleeper with any number of wakers at the granularity of lock
      operations;
    - [Sleeplock]: kernel/sleeplock.c.

    Memory:
    - [Kalloc]: kernel/kalloc.c, the free list threaded through the pages;
    - [Vm]: kernel/vm.c, page tables stored in the modelled memory.

    Storage, from the bottom up:
    - [Bio]: kernel/bio.c; [Blocks]: the abstract store of blocks it refines;
    - [Log]: kernel/log.c, with the sequence of disk writes and crashes between
      them; [Tx]: the rules for code inside a transaction, proved from [Blocks]
      and [Log] and used by all of fs.c;
    - [Fs]: kernel/fs.c; [FsAlloc]: its bitmap; [FsInode]: inodes and file
      contents; [FsDir], [FsPath], [FsLink]: directories, path names, and
      entering a name in a directory;
    - [Footprint]: the class [Calm] of code that leaves the descriptors
      and the files' reference counts alone and, where it says so, the disk; [Wal]: the instance of
      it for write-ahead logging; [Crash]: operations under crashes;
    - [Mkfs]: mkfs/mkfs.c, which builds the image the kernel reads;
    - [Virtio]: kernel/virtio_disk.c with its descriptors and rings.  The
      device is a parameter; [Bio] uses the effect of a request
      ([Bio.virtio_disk_rw]), and [Virtio.disk_request] shows that the driver,
      the scheduler and the interrupt together have it.

    Devices and the rest of the kernel:
    - [Uart], [Printf], [Console]: kernel/uart.c, printf.c, console.c;
      [ConsoleEdit], [ConsoleWrite]: line editing and output of the console;
    - [Pipe], [File]: kernel/pipe.c, file.c; [FileWrite]: writes that take
      several transactions; [FileTable]: the reference counts of the file
      table across all system calls;
    - [Proc]: process creation, fork, exit and wait of kernel/proc.c;
    - [Exec]: kernel/exec.c; [Syscall]: kernel/syscall.c, sysproc.c, sysfile.c;
    - [Trap]: kernel/trap.c and plic.c; [Boot]: kernel/start.c and main.c.

    User programs:
    - [Umalloc]: user/umalloc.c on the process's memory;
    - [User]: the system calls as events of interaction trees, user/printf.c
      and the parts of user/ulib.c that make system calls;
    - [Grep], [Utils], [Primes], [Sh]: user/grep.c, the small programs,
      user/primes.c as concurrent processes, and the shell;
    - [Grind]: user/grind.c; [UtBase], [UtFiles], [UtProcs], [UtMem],
      [Usertests]: user/usertests.c, every test as a program and the runner.
      Addresses of a test's choice and its accesses to such memory are events
      of their own.

    ** What the theorems show

    - Locks: mutual exclusion in every interleaving, the contracts of acquire
      and release, no lost wakeup, sleep and wakeup as a cycle, sleep locks.
    - Storage: the buffer cache refines a store of blocks; commit is atomic
      under crashes and recovery is idempotent; begin_op, log_write and end_op
      keep the log within its size; balloc and bfree change exactly one bit;
      readi and writei read and write exactly the bytes of a file; an inode
      written back, dropped and loaded again is the same; the disk driver
      transfers exactly the block asked for; mkfs builds an image that satisfies the invariants
      the kernel's theorems assume.
    - Memory: the page allocator never loses or duplicates a page; mappages
      installs exactly the translations asked for; copyout and copyin are
      inverse across pages; malloc and free keep the user heap well-formed.
    - Files: paths are resolved component by component; dirlink enters a
      name; a write is cut into pieces that each fit a transaction and the file
      has all of them afterwards; a write in one transaction is atomic under
      crashes; every system call that returns keeps each file's reference count
      equal to the number of descriptors that refer to it (one that sleeps
      differs by what that call may hold, bounded per call, and a process that
      has exited has closed its files); of all calls of bio.c, log.c and fs.c
      only bwrite itself, recovery in fsinit and the end_op that commits
      change the disk.
    - Communication: pipes deliver bytes in order, with wrapping counters; the
      console edits lines as typed, gives them to readers, and sends its output
      in order, as a pure transmitter says (but a byte that finds the transmit
      ring full makes the kernel panic).
    - User level: the shell's parser terminates and inverts a printer, and its
      NUL-termination damages no word; grep's matcher decides the denotation
      of the patterns and prints exactly the matching lines; cat and wc are
      right however reads cut up their input; the prime sieve prints the
      primes in every interleaving and always ends; both printfs print
      integers that atoi reads back; the generator of grind is the one its
      comment names and never overflows; usertests reports each test by the
      status of its process, and passes exactly when all processes exited with
      0 and no page was lost, unless its own pipe, fork or read fails.

    ** Bounds and fuel

    Loops that are not structural take fuel; the theorems show that the fuel
    the definitions pass is enough.  The loops of readi and writei take
    n / BSIZE + 3 rounds (each round but the first and last moves a whole
    block), the scans over tables the length of the table, the list walks of
    umalloc the size of the heap (each block takes 16 bytes of it), the
    shell's parser four times the length of the line plus four.  A loop whose end depends on
    other threads ends in [Susp].

    ** Not modelled

    - entry.S, swtch.S, kernelvec.S, trampoline.S, initcode.S, usys.pl: they
      save and restore registers; the C code sees only the effect.
    - ramdisk.c: not compiled into the kernel, and uses fields [struct buf]
      does not have.
    - What the kernel does with each call of usertests.c and grind.c: the
      programs are modelled over the interface of the calls, and [Usertests]
      proves the runner right for every behaviour of the tests' processes.  The
      page fault of a program that has freed its own code is on the kernel's
      side of that interface.
    - The TLB (sfence_vma) and memory ordering beyond sequential consistency
      (the fences of spinlock.c order exactly the accesses the lock protects).
    - The build and grading scripts. *)

From stdpp Require Import base numbers list gmap strings.

#[global] Open Scope Z_scope.

(** ** Fixed-width integers

    A C integer of [w] bits is a [Z]; the wrap-around of each width is written
    out where the C code relies on it. *)

Definition u8 (x : Z) : Z := x mod 2 ^ 8.
Definition u16 (x : Z) : Z := x mod 2 ^ 16.
Definition u32 (x : Z) : Z := x mod 2 ^ 32.
Definition u64 (x : Z) : Z := x mod 2 ^ 64.

(** Conversion to a signed type of [w] bits (two's complement). *)
Definition sgn (w x : Z) : Z :=
  let y := x mod 2 ^ w in if y <? 2 ^ (w - 1) then y else y - 2 ^ w.
Definition i8 (x : Z) : Z := sgn 8 x.
Definition i16 (x : Z) : Z := sgn 16 x.
Definition i32 (x : Z) : Z := sgn 32 x.
Definition i64 (x : Z) : Z := sgn 64 x.

(** C truth value of an integer. *)
Definition nz (x : Z) : bool := negb (x =? 0).

Lemma u32_range x : 0 <= u32 x < 2 ^ 32.
Proof. apply Z.mod_pos_bound. lia. Qed.

Lemma u64_range x : 0 <= u64 x < 2 ^ 64.
Proof. apply Z.mod_pos_bound. lia. Qed.

Lemma u32_small x : 0 <= x < 2 ^ 32 -> u32 x = x.
Proof. apply Z.mod_small. Qed.

Lemma u64_small x : 0 <= x < 2 ^ 64 -> u64 x = x.
Proof. apply Z.mod_small. Qed.

Lemma u8_small x : 0 <= x < 256 -> u8 x = x.
Proof. apply Z.mod_small. Qed.

Lemma i32_small x : 0 <= x < 2 ^ 31 -> i32 x = x.
Proof.
  intros H. unfold i32, sgn. rewrite Z.mod_small by lia.
  destruct (Z.ltb_spec x (2 ^ (32 - 1))); simpl in *; lia.
Qed.

(** ** Little-endian encoding of integers in bytes *)

Fixpoint le_bytes (n : nat) (v : Z) : list Z :=
  match n with
  | O => []
  | S n' => v mod 256 :: le_bytes n' (v / 256)
  end.

Fixpoint le_val (bs : list Z) : Z :=
  match bs with
  | [] => 0
  | b :: t => b + 256 * le_val t
  end.

Lemma length_le_bytes n v : length (le_bytes n v) = n.
Proof. revert v. induction n; simpl; auto. Qed.

Lemma le_val_le_bytes n v : le_val (le_bytes n v) = v mod 2 ^ (8 * Z.of_nat n).
Proof.
  revert v. induction n as [|n IH]; intros v.
  - simpl. now rewrite Z.mod_1_r.
  - cbn [le_bytes le_val]. rewrite IH.
    replace (8 * Z.of_nat (S n)) with (8 + 8 * Z.of_nat n) by lia.
    rewrite Z.pow_add_r by lia. change (2 ^ 8) with 256.
    rewrite Z.rem_mul_r by lia. reflexivity.
Qed.

Definition is_byte (b : Z) : Prop := 0 <= b < 256.

Lemma le_bytes_are_bytes n v : Forall is_byte (le_bytes n v).
Proof.
  revert v. induction n; simpl; intros; constructor; auto.
  apply Z.mod_pos_bound. lia.
Qed.

Lemma le_val_range bs :
  Forall is_byte bs -> 0 <= le_val bs < 2 ^ (8 * Z.of_nat (length bs)).
Proof.
  induction 1 as [|b bs Hb _ IH]; simpl length; [simpl; lia|].
  cbn [le_val]. unfold is_byte in Hb.
  replace (8 * Z.of_nat (S (length bs))) with (8 + 8 * Z.of_nat (length bs)) by lia.
  rewrite Z.pow_add_r by lia. change (2 ^ 8) with 256. lia.
Qed.

Lemma le_bytes_le_val bs : Forall is_byte bs -> le_bytes (length bs) (le_val bs) = bs.
Proof.
  induction 1 as [|b bs Hb _ IH]; [done|].
  cbn [length le_val le_bytes]. unfold is_byte in Hb. f_equal.
  - rewrite Z.mul_comm, Z_mod_plus_full. apply Z.mod_small. lia.
  - rewrite Z.mul_comm, Z.div_add by lia. rewrite Z.div_small by lia. exact IH.
Qed.

(** ** Reading and writing a range of a byte array *)

(** [list_sub l i n] is [l[i .. i+n)]. *)
Definition list_sub {A} (l : list A) (i n : nat) : list A := take n (drop i l).

(** [list_put l i bs] overwrites [l[i .. i + length bs)] with [bs]. *)
Definition list_put {A} (l : list A) (i : nat) (bs : list A) : list A :=
  take i l ++ bs ++ drop (i + length bs) l.

Section list_ranges.
Context {A : Type}.
Implicit Types l bs : list A.

Lemma length_list_sub l i n :
  (i + n <= length l)%nat -> length (list_sub l i n) = n.
Proof. intros. unfold list_sub. rewrite length_take, length_drop. lia. Qed.

Lemma length_list_put l i bs :
  (i + length bs <= length l)%nat -> length (list_put l i bs) = length l.
Proof.
  intros. unfold list_put. rewrite !length_app, length_take, length_drop. lia.
Qed.

Lemma list_sub_put_eq l i bs :
  (i + length bs <= length l)%nat -> list_sub (list_put l i bs) i (length bs) = bs.
Proof.
  intros. unfold list_sub, list_put.
  rewrite drop_app_length' by (rewrite length_take; lia).
  now rewrite take_app_length.
Qed.

Lemma lookup_list_put l i bs j :
  (i + length bs <= length l)%nat ->
  list_put l i bs !! j =
    if decide (i <= j < i + length bs)%nat then bs !! (j - i)%nat else l !! j.
Proof.
  intros Hl. unfold list_put. case_decide.
  - rewrite lookup_app_r by (rewrite length_take; lia).
    rewrite length_take, lookup_app_l by lia. f_equal. lia.
  - destruct (decide (j < i)%nat).
    + rewrite lookup_app_l by (rewrite length_take; lia). now apply lookup_take_lt.
    + rewrite lookup_app_r by (rewrite length_take; lia).
      rewrite lookup_app_r by (rewrite length_take; lia).
      rewrite lookup_drop, length_take. f_equal. lia.
Qed.

Lemma lookup_list_sub l i n j :
  list_sub l i n !! j = if decide (j < n)%nat then l !! (i + j)%nat else None.
Proof.
  unfold list_sub. case_decide.
  - rewrite lookup_take_lt by lia. apply lookup_drop.
  - apply lookup_ge_None. rewrite length_take. lia.
Qed.

Lemma list_sub_put_ne l i bs j n :
  (i + length bs <= length l)%nat ->
  (j + n <= i \/ i + length bs <= j)%nat ->
  list_sub (list_put l i bs) j n = list_sub l j n.
Proof.
  intros Hl Hd. apply list_eq. intros k. rewrite !lookup_list_sub.
  case_decide; [|done]. rewrite lookup_list_put by done.
  rewrite decide_False; [done|lia].
Qed.

Lemma list_put_put l i bs1 bs2 :
  length bs1 = length bs2 -> (i + length bs1 <= length l)%nat ->
  list_put (list_put l i bs1) i bs2 = list_put l i bs2.
Proof.
  intros He Hl. apply list_eq. intros k.
  rewrite !lookup_list_put; rewrite ?length_list_put; rewrite <-?He; try lia.
  repeat case_decide; done.
Qed.
End list_ranges.

(** ** The execution monad

    Kernel code is a function from a state to an outcome.  A call can return,
    call [panic], or be suspended: the process gives up the CPU in [swtch],
    the hart spins on a lock another hart holds, control leaves for user mode,
    or the C code loops for ever. *)

Inductive suspend := Swtch | Spin | ToUser | Forever.

#[export] Instance suspend_eq_dec : EqDecision suspend.
Proof. solve_decision. Defined.

Inductive outcome (S A : Type) :=
  | Ok (a : A) (s : S)
  | Panic (msg : string) (s : S)
  | Susp (w : suspend) (s : S).
Arguments Ok {S A} a s.
Arguments Panic {S A} msg s.
Arguments Susp {S A} w s.

Definition M (S A : Type) : Type := S -> outcome S A.

Definition ret {S A} (a : A) : M S A := fun s => Ok a s.
Definition bind {S A B} (m : M S A) (f : A -> M S B) : M S B := fun s =>
  match m s with
  | Ok a s' => f a s'
  | Panic msg s' => Panic msg s'
  | Susp w s' => Susp w s'
  end.
Definition gets {S A} (f : S -> A) : M S A := fun s => Ok (f s) s.
Definition modify {S} (f : S -> S) : M S unit := fun s => Ok tt (f s).
Definition panic {S A} (msg : string) : M S A := fun s => Panic msg s.
Definition suspend_with {S A} (w : suspend) : M S A := fun s => Susp w s.

Declare Scope kernel_scope.
Delimit Scope kernel_scope with kernel.
Notation "'let*' x ':=' c 'in' k" := (bind c (fun x => k))
  (at level 10, x pattern, c at level 100, k at level 200) : kernel_scope.
Notation "c ';;;' k" := (bind c (fun _ => k))
  (at level 199, right associativity) : kernel_scope.
#[global] Open Scope kernel_scope.

Definition when {S} (b : bool) (m : M S unit) : M S unit := if b then m else ret tt.

(** [for_each l body]: a loop over [l] that runs to its end. *)
Fixpoint for_each {S B} (l : list B) (body : B -> M S unit) : M S unit :=
  match l with
  | [] => ret tt
  | x :: t => body x ;;; for_each t body
  end.

(** [for_ret l body]: a loop whose body may leave it with a value (a [return]
    or [break] inside the loop); [None] when the loop runs to its end. *)
Fixpoint for_ret {S B R} (l : list B) (body : B -> M S (option R)) : M S (option R) :=
  match l with
  | [] => ret None
  | x :: t =>
      let* r := body x in
      match r with
      | Some v => ret (Some v)
      | None => for_ret t body
      end
  end.

(** ** Total-correctness assertions

    [wp m Q s]: started in [s], [m] returns (no panic, no suspension), and
    the result and final state satisfy [Q]. *)
Definition wp {S A} (m : M S A) (Q : A -> S -> Prop) (s : S) : Prop :=
  match m s with Ok a s' => Q a s' | _ => False end.

(** [keeps I m]: [m] preserves [I], however it ends. *)
Definition keeps {S A} (I : S -> Prop) (m : M S A) : Prop :=
  forall s, I s -> match m s with Ok _ s' | Panic _ s' | Susp _ s' => I s' end.

Section wp_rules.
Context {S : Type}.

Lemma wp_ret {A} (a : A) Q (s : S) : Q a s -> wp (ret a) Q s.
Proof. done. Qed.

Lemma wp_gets {A} (f : S -> A) Q s : Q (f s) s -> wp (gets f) Q s.
Proof. done. Qed.

Lemma wp_modify (f : S -> S) Q s : Q tt (f s) -> wp (modify f) Q s.
Proof. done. Qed.

Lemma wp_bind {A B} (m : M S A) (f : A -> M S B) Q s :
  wp m (fun a => wp (f a) Q) s -> wp (bind m f) Q s.
Proof. unfold wp, bind. now destruct (m s). Qed.

Lemma wp_mono {A} (m : M S A) (Q Q' : A -> S -> Prop) s :
  wp m Q s -> (forall a s', Q a s' -> Q' a s') -> wp m Q' s.
Proof. unfold wp. destruct (m s); auto. Qed.

Lemma wp_ok {A} (m : M S A) (Q : A -> S -> Prop) s a s' : m s = Ok a s' -> Q a s' -> wp m Q s.
Proof. intros E H. unfold wp. now rewrite E. Qed.

(** The state a computation ends in. *)
Definition final {A} (m : M S A) (s : S) : S :=
  match m s with Ok _ s' | Panic _ s' | Susp _ s' => s' end.

Lemma wp_final {A} (m : M S A) (Q : A -> S -> Prop) s : wp m Q s -> exists a, Q a (final m s).
Proof. unfold wp, final. destruct (m s); [eauto|done..]. Qed.

Lemma wp_run {A} (m : M S A) (Q : A -> S -> Prop) s :
  wp m Q s <-> exists a s', m s = Ok a s' /\ Q a s'.
Proof.
  unfold wp. split.
  - destruct (m s); [eauto|done|done].
  - intros (a & s' & -> & HQ). exact HQ.
Qed.

Lemma bind_Ok {A B} (m : M S A) (f : A -> M S B) s a s' :
  m s = Ok a s' -> bind m f s = f a s'.
Proof. intros H. unfold bind. now rewrite H. Qed.

Lemma bind_Panic {A B} (m : M S A) (f : A -> M S B) s msg s' :
  m s = Panic msg s' -> bind m f s = Panic msg s'.
Proof. intros H. unfold bind. now rewrite H. Qed.

Lemma bind_Susp {A B} (m : M S A) (f : A -> M S B) s w s' :
  m s = Susp w s' -> bind m f s = Susp w s'.
Proof. intros H. unfold bind. now rewrite H. Qed.

Lemma keeps_ret {A} I (a : A) : keeps (S := S) I (ret a).
Proof. now intros s H. Qed.

Lemma keeps_gets {A} I (f : S -> A) : keeps I (gets f).
Proof. now intros s H. Qed.

Lemma keeps_panic {A} I msg : keeps (S := S) (A := A) I (panic msg).
Proof. now intros s H. Qed.

Lemma keeps_susp {A} I w : keeps (S := S) (A := A) I (suspend_with w).
Proof. now intros s H. Qed.

Lemma keeps_bind {A B} (I : S -> Prop) (m : M S A) (f : A -> M S B) :
  keeps I m -> (forall a, keeps I (f a)) -> keeps I (bind m f).
Proof.
  intros Hm Hf s Hs. specialize (Hm s Hs). unfold bind.
  destruct (m s); auto. now apply Hf.
Qed.

Lemma keeps_modify (I : S -> Prop) f :
  (forall s, I s -> I (f s)) -> keeps I (modify f).
Proof. intros H s Hs. now apply H. Qed.

Lemma keeps_for_each {B} (I : S -> Prop) (l : list B) body :
  (forall x, x ∈ l -> keeps I (body x)) -> keeps I (for_each l body).
Proof.
  induction l as [|x l IH]; intros H; [apply keeps_ret|].
  apply keeps_bind; [apply H; set_solver|]. intros _. apply IH. set_solver.
Qed.

Lemma keeps_for_ret {B R} (I : S -> Prop) (l : list B) (body : B -> M S (option R)) :
  (forall x, x ∈ l -> keeps I (body x)) -> keeps I (for_ret l body).
Proof.
  induction l as [|x l IH]; intros H; [apply keeps_ret|].
  apply keeps_bind; [apply H; set_solver|].
  intros [v|]; [apply keeps_ret|]. apply IH. set_solver.
Qed.

(** A loop over a list, with an invariant on the elements already seen. *)
Lemma wp_for_each {B} (I : list B -> S -> Prop) (l : list B) body s :
  I [] s ->
  (forall seen x rest s1, l = seen ++ x :: rest -> I seen s1 -> wp (body x) (fun _ s2 => I (seen ++ [x]) s2) s1) ->
  wp (for_each l body) (fun _ s' => I l s') s.
Proof.
  intros H0 Hb. enough (H : forall rest seen s1, l = seen ++ rest -> I seen s1 -> wp (for_each rest body) (fun _ s' => I l s') s1)
    by now apply (H l []).
  induction rest as [|x rest IH]; intros seen s1 El Hs.
  - rewrite app_nil_r in El. subst. now apply wp_ret.
  - apply wp_bind. eapply wp_mono; [now apply (Hb seen x rest)|]. intros u s2 H2.
    apply (IH (seen ++ [x])); [now rewrite <- app_assoc|done].
Qed.

(** A search that finds nothing, and one that stops at its first hit. *)
Lemma wp_for_ret_none {B R} (I : S -> Prop) (l : list B) (body : B -> M S (option R)) s :
  I s -> (forall x s1, x ∈ l -> I s1 -> wp (body x) (fun r s2 => r = None /\ I s2) s1) ->
  wp (for_ret l body) (fun r s' => r = None /\ I s') s.
Proof.
  revert s. induction l as [|x l IH]; intros s Hs Hb; [now apply wp_ret|].
  apply wp_bind. eapply wp_mono; [apply Hb; [left|done]|]. intros r s2 [-> H2]. apply IH; [done|].
  intros y s1 Hy. apply Hb. now right.
Qed.

Lemma wp_for_ret_hit {B R} (I : S -> Prop) (l1 l2 : list B) x (body : B -> M S (option R)) v Q s :
  I s -> (forall y s1, y ∈ l1 -> I s1 -> wp (body y) (fun r s2 => r = None /\ I s2) s1) ->
  (forall s1, I s1 -> wp (body x) (fun r s2 => r = Some v /\ Q s2) s1) ->
  wp (for_ret (l1 ++ x :: l2) body) (fun r s' => r = Some v /\ Q s') s.
Proof.
  revert s. induction l1 as [|y l1 IH]; intros s Hs Hb Hx.
  - apply wp_bind. eapply wp_mono; [now apply Hx|]. intros r s2 [-> H2]. now apply wp_ret.
  - apply wp_bind. eapply wp_mono; [apply Hb; [left|done]|]. intros r s2 [-> H2]. apply IH; [done| |done].
    intros z s1 Hz. apply Hb. now right.
Qed.
End wp_rules.

Create HintDb kernel.
#[export] Hint Resolve keeps_ret keeps_gets keeps_panic keeps_susp : kernel.
#[export] Hint Resolve keeps_bind keeps_for_each keeps_for_ret : kernel.

(** One symbolic step of a [bind] whose first command is known to return. *)
Ltac kstep H := rewrite (bind_Ok _ _ _ _ _ H).
(** Runs the administrative commands at the head of a monadic program. *)
Ltac krun :=
  repeat (unfold bind at 1; unfold ret, gets, modify, panic, suspend_with; cbn beta iota).

(** Linear arithmetic with division and modulo by constants. *)
Ltac zdiv := zify; Z.div_mod_to_equations; lia.

(** ** Integer fields of a byte buffer *)

Definition get16 (d : list Z) (off : nat) : Z := le_val (list_sub d off 2).
Definition get32 (d : list Z) (off : nat) : Z := le_val (list_sub d off 4).
Definition get64 (d : list Z) (off : nat) : Z := le_val (list_sub d off 8).
Definition put16 (d : list Z) (off : nat) (v : Z) : list Z := list_put d off (le_bytes 2 v).
Definition put32 (d : list Z) (off : nat) (v : Z) : list Z := list_put d off (le_bytes 4 v).
Definition put64 (d : list Z) (off : nat) (v : Z) : list Z := list_put d off (le_bytes 8 v).

Lemma length_put32 d off v : (off + 4 <= length d)%nat -> length (put32 d off v) = length d.
Proof. intros. apply length_list_put. rewrite length_le_bytes. lia. Qed.

Lemma get32_put32 d off v : (off + 4 <= length d)%nat -> get32 (put32 d off v) off = u32 v.
Proof.
  intros H. unfold get32, put32.
  pose proof (list_sub_put_eq d off (le_bytes 4 v)) as E. rewrite length_le_bytes in E.
  rewrite E, le_val_le_bytes by lia. done.
Qed.

Lemma get32_put32_ne d off v o :
  (off + 4 <= length d)%nat -> (o + 4 <= off \/ off + 4 <= o)%nat -> get32 (put32 d off v) o = get32 d o.
Proof.
  intros H Ho. unfold get32, put32. rewrite list_sub_put_ne; rewrite ?length_le_bytes; (done || lia).
Qed.

(** An access the C standard leaves undefined (outside an array, through a
    null pointer): no theorem relies on what it would do. *)
Definition undefined {S A} : M S A := panic "undefined behaviour".
