(* ===== verification/Kstate.v ===== *)
(** * The kernel's data structures and global state

    The structures of param.h, riscv.h, memlayout.h, proc.h, spinlock.h,
    sleeplock.h, buf.h, fs.h and file.h, and one record [kernel] that holds the
    kernel's global variables together with the physical memory, the disk and
    the registers of the hart that executes.  Each structure comes with one
    setter [set_<field>] per field that the kernel assigns. *)

From stdpp Require Import base numbers list gmap strings.
From S2P Require Import Prelude.

(** ** Constants (param.h, riscv.h, memlayout.h, fs.h, fcntl.h) *)

Definition NPROC : nat := 64.
Definition NCPU : Z := 8.
Definition NOFILE : nat := 16.
Definition NFILE : nat := 100.
Definition NINODE : nat := 50.
Definition NDEV : Z := 10.
Definition ROOTDEV : Z := 1.
Definition MAXARG : nat := 32.
Definition MAXOPBLOCKS : Z := 10.
Definition LOGSIZE : Z := MAXOPBLOCKS * 3.
Definition NBUF : nat := 30.
Definition FSSIZE : Z := 1000.
Definition MAXPATH : Z := 128.

Definition PGSIZE : Z := 4096.
Definition PGSHIFT : Z := 12.
Definition PGROUNDUP (sz : Z) : Z := Z.land (u64 (sz + PGSIZE - 1)) (u64 (Z.lnot (PGSIZE - 1))).
Definition PGROUNDDOWN (a : Z) : Z := Z.land (u64 a) (u64 (Z.lnot (PGSIZE - 1))).
Definition PTE_V : Z := Z.shiftl 1 0.
Definition PTE_R : Z := Z.shiftl 1 1.
Definition PTE_W : Z := Z.shiftl 1 2.
Definition PTE_X : Z := Z.shiftl 1 3.
Definition PTE_U : Z := Z.shiftl 1 4.
Definition PA2PTE (pa : Z) : Z := u64 (Z.shiftl (Z.shiftr pa 12) 10).
Definition PTE2PA (pte : Z) : Z := u64 (Z.shiftl (Z.shiftr pte 10) 12).
Definition PTE_FLAGS (pte : Z) : Z := Z.land pte 0x3FF.
Definition PXMASK : Z := 0x1FF.
Definition PXSHIFT (level : Z) : Z := PGSHIFT + 9 * level.
Definition PX (level va : Z) : Z := Z.land (Z.shiftr va (PXSHIFT level)) PXMASK.
Definition MAXVA : Z := Z.shiftl 1 (9 + 9 + 9 + 12 - 1).
Definition SATP_SV39 : Z := Z.shiftl 8 60.
Definition MAKE_SATP (pagetable : Z) : Z := Z.lor SATP_SV39 (Z.shiftr pagetable 12).

Definition SSTATUS_SPP : Z := Z.shiftl 1 8.
Definition SSTATUS_SPIE : Z := Z.shiftl 1 5.
Definition SSTATUS_SIE : Z := Z.shiftl 1 1.

Definition UART0 : Z := 0x10000000.
Definition UART0_IRQ : Z := 10.
Definition VIRTIO0 : Z := 0x10001000.
Definition VIRTIO0_IRQ : Z := 1.
Definition CLINT : Z := 0x2000000.
Definition PLIC : Z := 0x0c000000.
Definition KERNBASE : Z := 0x80000000.
Definition PHYSTOP : Z := KERNBASE + 128 * 1024 * 1024.
Definition TRAMPOLINE : Z := MAXVA - PGSIZE.
Definition KSTACK (p : Z) : Z := TRAMPOLINE - (p + 1) * 2 * PGSIZE.
Definition TRAPFRAME : Z := TRAMPOLINE - PGSIZE.

Definition ROOTINO : Z := 1.
Definition BSIZE : Z := 1024.
Definition FSMAGIC : Z := 0x10203040.
Definition NDIRECT : nat := 12.
Definition NINDIRECT : Z := BSIZE / 4.
Definition MAXFILE : Z := Z.of_nat NDIRECT + NINDIRECT.
(** [sizeof(struct dinode)] is 64, [sizeof(struct dirent)] is 16. *)
Definition sizeof_dinode : Z := 64.
Definition sizeof_dirent : Z := 16.
Definition IPB : Z := BSIZE / sizeof_dinode.
Definition BPB : Z := BSIZE * 8.
Definition DIRSIZ : nat := 14.
Definition T_DIR : Z := 1.
Definition T_FILE : Z := 2.
Definition T_DEVICE : Z := 3.
Definition O_RDONLY : Z := 0x000.
Definition O_WRONLY : Z := 0x001.
Definition O_RDWR : Z := 0x002.
Definition O_CREATE : Z := 0x200.
Definition O_TRUNC : Z := 0x400.
Definition CONSOLE : Z := 1.
Definition PIPESIZE : Z := 512.
Definition INPUT_BUF : Z := 128.
Definition UART_TX_BUF_SIZE : Z := 32.

(** ** Names of the kernel's objects

    A pointer to a kernel object is the object's name: an index in its table
    (processes, open files, inodes, buffers), a physical address (pages, pipes). *)

Inductive lockname :=
  | LK_kmem | LK_pid | LK_proc (p : nat) | LK_ticks | LK_bcache | LK_buf (b : nat)
  | LK_icache | LK_inode (i : nat) | LK_log | LK_ftable | LK_pipe (pi : Z)
  | LK_cons | LK_uart_tx | LK_pr | LK_vdisk.

#[export] Instance lockname_eq_dec : EqDecision lockname.
Proof. solve_decision. Defined.

(** The addresses processes sleep on; [CH_none] is the null pointer. *)
Inductive chan :=
  | CH_none | CH_proc (p : nat) | CH_ticks | CH_sleeplock (lk : lockname) | CH_log
  | CH_pipe_nread (pi : Z) | CH_pipe_nwrite (pi : Z) | CH_cons_r | CH_uart_tx_r
  | CH_vdisk_free | CH_buf (b : nat).

#[export] Instance chan_eq_dec : EqDecision chan.
Proof. solve_decision. Defined.

Inductive procstate := UNUSED | SLEEPING | RUNNABLE | RUNNING | ZOMBIE.

#[export] Instance procstate_eq_dec : EqDecision procstate.
Proof. solve_decision. Defined.

Inductive filetype := FD_NONE | FD_PIPE | FD_INODE | FD_DEVICE.

#[export] Instance filetype_eq_dec : EqDecision filetype.
Proof. solve_decision. Defined.

(** ** Structures *)

(** [struct spinlock]; [lk_cpu] is the hart that holds the lock. *)
Record spinlock := mk_spinlock {
  lk_locked : bool;
  lk_name : string;
  lk_cpu : option nat;
}.

Definition set_lk_locked (v : bool) (r : spinlock) : spinlock :=
  mk_spinlock v (lk_name r) (lk_cpu r).
Definition set_lk_name (v : string) (r : spinlock) : spinlock :=
  mk_spinlock (lk_locked r) v (lk_cpu r).
Definition set_lk_cpu (v : option nat) (r : spinlock) : spinlock :=
  mk_spinlock (lk_locked r) (lk_name r) v.

(** [struct sleeplock]; its spinlock is the lock named by the owner object. *)
Record sleeplock := mk_sleeplock {
  sl_locked : bool;
  sl_name : string;
  sl_pid : Z;
}.

Definition set_sl_locked (v : bool) (r : sleeplock) : sleeplock :=
  mk_sleeplock v (sl_name r) (sl_pid r).
Definition set_sl_name (v : string) (r : sleeplock) : sleeplock :=
  mk_sleeplock (sl_locked r) v (sl_pid r).
Definition set_sl_pid (v : Z) (r : sleeplock) : sleeplock :=
  mk_sleeplock (sl_locked r) (sl_name r) v.

(** The executing hart: [struct cpu] of proc.h and the control registers the kernel uses. *)
Record hart := mk_hart {
  h_id : nat;  (* tp *)
  h_proc : option nat;  (* c->proc *)
  h_noff : Z;  (* depth of push_off nesting *)
  h_intena : bool;  (* interrupts enabled before push_off? *)
  h_sstatus : Z;
  h_sepc : Z;
  h_scause : Z;
  h_stval : Z;
  h_sip : Z;
  h_stvec : Z;
  h_satp : Z;
}.

Definition set_h_id (v : nat) (r : hart) : hart :=
  mk_hart v (h_proc r) (h_noff r) (h_intena r) (h_sstatus r) (h_sepc r) (h_scause r) (h_stval r) (h_sip r) (h_stvec r) (h_satp r).
Definition set_h_proc (v : option nat) (r : hart) : hart :=
  mk_hart (h_id r) v (h_noff r) (h_intena r) (h_sstatus r) (h_sepc r) (h_scause r) (h_stval r) (h_sip r) (h_stvec r) (h_satp r).
Definition set_h_noff (v : Z) (r : hart) : hart :=
  mk_hart (h_id r) (h_proc r) v (h_intena r) (h_sstatus r) (h_sepc r) (h_scause r) (h_stval r) (h_sip r) (h_stvec r) (h_satp r).
Definition set_h_intena (v : bool) (r : hart) : hart :=
  mk_hart (h_id r) (h_proc r) (h_noff r) v (h_sstatus r) (h_sepc r) (h_scause r) (h_stval r) (h_sip r) (h_stvec r) (h_satp r).
Definition set_h_sstatus (v : Z) (r : hart) : hart :=
  mk_hart (h_id r) (h_proc r) (h_noff r) (h_intena r) v (h_sepc r) (h_scause r) (h_stval r) (h_sip r) (h_stvec r) (h_satp r).
Definition set_h_sepc (v : Z) (r : hart) : hart :=
  mk_hart (h_id r) (h_proc r) (h_noff r) (h_intena r) (h_sstatus r) v (h_scause r) (h_stval r) (h_sip r) (h_stvec r) (h_satp r).
Definition set_h_scause (v : Z) (r : hart) : hart :=
  mk_hart (h_id r) (h_proc r) (h_noff r) (h_intena r) (h_sstatus r) (h_sepc r) v (h_stval r) (h_sip r) (h_stvec r) (h_satp r).
Definition set_h_stval (v : Z) (r : hart) : hart :=
  mk_hart (h_id r) (h_proc r) (h_noff r) (h_intena r) (h_sstatus r) (h_sepc r) (h_scause r) v (h_sip r) (h_stvec r) (h_satp r).
Definition set_h_sip (v : Z) (r : hart) : hart :=
  mk_hart (h_id r) (h_proc r) (h_noff r) (h_intena r) (h_sstatus r) (h_sepc r) (h_scause r) (h_stval r) v (h_stvec r) (h_satp r).
Definition set_h_stvec (v : Z) (r : hart) : hart :=
  mk_hart (h_id r) (h_proc r) (h_noff r) (h_intena r) (h_sstatus r) (h_sepc r) (h_scause r) (h_stval r) (h_sip r) v (h_satp r).
Definition set_h_satp (v : Z) (r : hart) : hart :=
  mk_hart (h_id r) (h_proc r) (h_noff r) (h_intena r) (h_sstatus r) (h_sepc r) (h_scause r) (h_stval r) (h_sip r) (h_stvec r) v.

(** [struct context]: return address, stack pointer and the callee-saved registers s0-s11. *)
Record context := mk_context {
  cx_ra : Z;
  cx_sp : Z;
  cx_s : list Z;
}.


(** [struct proc]. *)
Record proc := mk_proc {
  p_state : procstate;
  p_parent : option nat;
  p_chan : chan;
  p_killed : Z;
  p_xstate : Z;
  p_pid : Z;
  p_kstack : Z;
  p_sz : Z;
  p_pagetable : Z;
  p_trapframe : Z;
  p_context : context;
  p_ofile : list (option nat);
  p_cwd : option nat;
  p_name : list Z;
}.

Definition set_p_state (v : procstate) (r : proc) : proc :=
  mk_proc v (p_parent r) (p_chan r) (p_killed r) (p_xstate r) (p_pid r) (p_kstack r) (p_sz r) (p_pagetable r) (p_trapframe r) (p_context r) (p_ofile r) (p_cwd r) (p_name r).
Definition set_p_parent (v : option nat) (r : proc) : proc :=
  mk_proc (p_state r) v (p_chan r) (p_killed r) (p_xstate r) (p_pid r) (p_kstack r) (p_sz r) (p_pagetable r) (p_trapframe r) (p_context r) (p_ofile r) (p_cwd r) (p_name r).
Definition set_p_chan (v : chan) (r : proc) : proc :=
  mk_proc (p_state r) (p_parent r) v (p_killed r) (p_xstate r) (p_pid r) (p_kstack r) (p_sz r) (p_pagetable r) (p_trapframe r) (p_context r) (p_ofile r) (p_cwd r) (p_name r).
Definition set_p_killed (v : Z) (r : proc) : proc :=
  mk_proc (p_state r) (p_parent r) (p_chan r) v (p_xstate r) (p_pid r) (p_kstack r) (p_sz r) (p_pagetable r) (p_trapframe r) (p_context r) (p_ofile r) (p_cwd r) (p_name r).
Definition set_p_xstate (v : Z) (r : proc) : proc :=
  mk_proc (p_state r) (p_parent r) (p_chan r) (p_killed r) v (p_pid r) (p_kstack r) (p_sz r) (p_pagetable r) (p_trapframe r) (p_context r) (p_ofile r) (p_cwd r) (p_name r).
Definition set_p_pid (v : Z) (r : proc) : proc :=
  mk_proc (p_state r) (p_parent r) (p_chan r) (p_killed r) (p_xstate r) v (p_kstack r) (p_sz r) (p_pagetable r) (p_trapframe r) (p_context r) (p_ofile r) (p_cwd r) (p_name r).
Definition set_p_kstack (v : Z) (r : proc) : proc :=
  mk_proc (p_state r) (p_parent r) (p_chan r) (p_killed r) (p_xstate r) (p_pid r) v (p_sz r) (p_pagetable r) (p_trapframe r) (p_context r) (p_ofile r) (p_cwd r) (p_name r).
Definition set_p_sz (v : Z) (r : proc) : proc :=
  mk_proc (p_state r) (p_parent r) (p_chan r) (p_killed r) (p_xstate r) (p_pid r) (p_kstack r) v (p_pagetable r) (p_trapframe r) (p_context r) (p_ofile r) (p_cwd r) (p_name r).
Definition set_p_pagetable (v : Z) (r : proc) : proc :=
  mk_proc (p_state r) (p_parent r) (p_chan r) (p_killed r) (p_xstate r) (p_pid r) (p_kstack r) (p_sz r) v (p_trapframe r) (p_context r) (p_ofile r) (p_cwd r) (p_name r).
Definition set_p_trapframe (v : Z) (r : proc) : proc :=
  mk_proc (p_state r) (p_parent r) (p_chan r) (p_killed r) (p_xstate r) (p_pid r) (p_kstack r) (p_sz r) (p_pagetable r) v (p_context r) (p_ofile r) (p_cwd r) (p_name r).
Definition set_p_context (v : context) (r : proc) : proc :=
  mk_proc (p_state r) (p_parent r) (p_chan r) (p_killed r) (p_xstate r) (p_pid r) (p_kstack r) (p_sz r) (p_pagetable r) (p_trapframe r) v (p_ofile r) (p_cwd r) (p_name r).
Definition set_p_ofile (v : list (option nat)) (r : proc) : proc :=
  mk_proc (p_state r) (p_parent r) (p_chan r) (p_killed r) (p_xstate r) (p_pid r) (p_kstack r) (p_sz r) (p_pagetable r) (p_trapframe r) (p_context r) v (p_cwd r) (p_name r).
Definition set_p_cwd (v : option nat) (r : proc) : proc :=
  mk_proc (p_state r) (p_parent r) (p_chan r) (p_killed r) (p_xstate r) (p_pid r) (p_kstack r) (p_sz r) (p_pagetable r) (p_trapframe r) (p_context r) (p_ofile r) v (p_name r).
Definition set_p_name (v : list Z) (r : proc) : proc :=
  mk_proc (p_state r) (p_parent r) (p_chan r) (p_killed r) (p_xstate r) (p_pid r) (p_kstack r) (p_sz r) (p_pagetable r) (p_trapframe r) (p_context r) (p_ofile r) (p_cwd r) v.

(** [struct buf]; [b_prev] and [b_next] are buffer indices, [NBUF] being the list head. *)
Record buf := mk_buf {
  b_valid : bool;
  b_disk : bool;
  b_dev : Z;
  b_blockno : Z;
  b_lock : sleeplock;
  b_refcnt : Z;
  b_prev : nat;
  b_next : nat;
  b_data : list Z;
}.

Definition set_b_valid (v : bool) (r : buf) : buf :=
  mk_buf v (b_disk r) (b_dev r) (b_blockno r) (b_lock r) (b_refcnt r) (b_prev r) (b_next r) (b_data r).
Definition set_b_disk (v : bool) (r : buf) : buf :=
  mk_buf (b_valid r) v (b_dev r) (b_blockno r) (b_lock r) (b_refcnt r) (b_prev r) (b_next r) (b_data r).
Definition set_b_dev (v : Z) (r : buf) : buf :=
  mk_buf (b_valid r) (b_disk r) v (b_blockno r) (b_lock r) (b_refcnt r) (b_prev r) (b_next r) (b_data r).
Definition set_b_blockno (v : Z) (r : buf) : buf :=
  mk_buf (b_valid r) (b_disk r) (b_dev r) v (b_lock r) (b_refcnt r) (b_prev r) (b_next r) (b_data r).
Definition set_b_lock (v : sleeplock) (r : buf) : buf :=
  mk_buf (b_valid r) (b_disk r) (b_dev r) (b_blockno r) v (b_refcnt r) (b_prev r) (b_next r) (b_data r).
Definition set_b_refcnt (v : Z) (r : buf) : buf :=
  mk_buf (b_valid r) (b_disk r) (b_dev r) (b_blockno r) (b_lock r) v (b_prev r) (b_next r) (b_data r).
Definition set_b_prev (v : nat) (r : buf) : buf :=
  mk_buf (b_valid r) (b_disk r) (b_dev r) (b_blockno r) (b_lock r) (b_refcnt r) v (b_next r) (b_data r).
Definition set_b_next (v : nat) (r : buf) : buf :=
  mk_buf (b_valid r) (b_disk r) (b_dev r) (b_blockno r) (b_lock r) (b_refcnt r) (b_prev r) v (b_data r).
Definition set_b_data (v : list Z) (r : buf) : buf :=
  mk_buf (b_valid r) (b_disk r) (b_dev r) (b_blockno r) (b_lock r) (b_refcnt r) (b_prev r) (b_next r) v.

(** [struct superblock]. *)
Record superblock := mk_superblock {
  sb_magic : Z;
  sb_size : Z;
  sb_nblocks : Z;
  sb_ninodes : Z;
  sb_nlog : Z;
  sb_logstart : Z;
  sb_inodestart : Z;
  sb_bmapstart : Z;
}.


(** [struct log] with its [struct logheader]. *)
Record logst := mk_logst {
  l_start : Z;
  l_size : Z;
  l_outstanding : Z;
  l_committing : bool;
  l_dev : Z;
  l_n : Z;  (* lh.n *)
  l_block : list Z;  (* lh.block *)
}.

Definition set_l_start (v : Z) (r : logst) : logst :=
  mk_logst v (l_size r) (l_outstanding r) (l_committing r) (l_dev r) (l_n r) (l_block r).
Definition set_l_size (v : Z) (r : logst) : logst :=
  mk_logst (l_start r) v (l_outstanding r) (l_committing r) (l_dev r) (l_n r) (l_block r).
Definition set_l_outstanding (v : Z) (r : logst) : logst :=
  mk_logst (l_start r) (l_size r) v (l_committing r) (l_dev r) (l_n r) (l_block r).
Definition set_l_committing (v : bool) (r : logst) : logst :=
  mk_logst (l_start r) (l_size r) (l_outstanding r) v (l_dev r) (l_n r) (l_block r).
Definition set_l_dev (v : Z) (r : logst) : logst :=
  mk_logst (l_start r) (l_size r) (l_outstanding r) (l_committing r) v (l_n r) (l_block r).
Definition set_l_n (v : Z) (r : logst) : logst :=
  mk_logst (l_start r) (l_size r) (l_outstanding r) (l_committing r) (l_dev r) v (l_block r).
Definition set_l_block (v : list Z) (r : logst) : logst :=
  mk_logst (l_start r) (l_size r) (l_outstanding r) (l_committing r) (l_dev r) (l_n r) v.

(** [struct inode], the in-memory copy of an inode. *)
Record inode := mk_inode {
  i_dev : Z;
  i_inum : Z;
  i_ref : Z;
  i_lock : sleeplock;
  i_valid : bool;
  i_type : Z;
  i_major : Z;
  i_minor : Z;
  i_nlink : Z;
  i_size : Z;
  i_addrs : list Z;
}.

Definition set_i_dev (v : Z) (r : inode) : inode :=
  mk_inode v (i_inum r) (i_ref r) (i_lock r) (i_valid r) (i_type r) (i_major r) (i_minor r) (i_nlink r) (i_size r) (i_addrs r).
Definition set_i_inum (v : Z) (r : inode) : inode :=
  mk_inode (i_dev r) v (i_ref r) (i_lock r) (i_valid r) (i_type r) (i_major r) (i_minor r) (i_nlink r) (i_size r) (i_addrs r).
Definition set_i_ref (v : Z) (r : inode) : inode :=
  mk_inode (i_dev r) (i_inum r) v (i_lock r) (i_valid r) (i_type r) (i_major r) (i_minor r) (i_nlink r) (i_size r) (i_addrs r).
Definition set_i_lock (v : sleeplock) (r : inode) : inode :=
  mk_inode (i_dev r) (i_inum r) (i_ref r) v (i_valid r) (i_type r) (i_major r) (i_minor r) (i_nlink r) (i_size r) (i_addrs r).
Definition set_i_valid (v : bool) (r : inode) : inode :=
  mk_inode (i_dev r) (i_inum r) (i_ref r) (i_lock r) v (i_type r) (i_major r) (i_minor r) (i_nlink r) (i_size r) (i_addrs r).
Definition set_i_type (v : Z) (r : inode) : inode :=
  mk_inode (i_dev r) (i_inum r) (i_ref r) (i_lock r) (i_valid r) v (i_major r) (i_minor r) (i_nlink r) (i_size r) (i_addrs r).
Definition set_i_major (v : Z) (r : inode) : inode :=
  mk_inode (i_dev r) (i_inum r) (i_ref r) (i_lock r) (i_valid r) (i_type r) v (i_minor r) (i_nlink r) (i_size r) (i_addrs r).
Definition set_i_minor (v : Z) (r : inode) : inode :=
  mk_inode (i_dev r) (i_inum r) (i_ref r) (i_lock r) (i_valid r) (i_type r) (i_major r) v (i_nlink r) (i_size r) (i_addrs r).
Definition set_i_nlink (v : Z) (r : inode) : inode :=
  mk_inode (i_dev r) (i_inum r) (i_ref r) (i_lock r) (i_valid r) (i_type r) (i_major r) (i_minor r) v (i_size r) (i_addrs r).
Definition set_i_size (v : Z) (r : inode) : inode :=
  mk_inode (i_dev r) (i_inum r) (i_ref r) (i_lock r) (i_valid r) (i_type r) (i_major r) (i_minor r) (i_nlink r) v (i_addrs r).
Definition set_i_addrs (v : list Z) (r : inode) : inode :=
  mk_inode (i_dev r) (i_inum r) (i_ref r) (i_lock r) (i_valid r) (i_type r) (i_major r) (i_minor r) (i_nlink r) (i_size r) v.

(** [struct file]. *)
Record file := mk_file {
  f_type : filetype;
  f_ref : Z;
  f_readable : bool;
  f_writable : bool;
  f_pipe : Z;
  f_ip : nat;
  f_off : Z;
  f_major : Z;
}.

Definition set_f_type (v : filetype) (r : file) : file :=
  mk_file v (f_ref r) (f_readable r) (f_writable r) (f_pipe r) (f_ip r) (f_off r) (f_major r).
Definition set_f_ref (v : Z) (r : file) : file :=
  mk_file (f_type r) v (f_readable r) (f_writable r) (f_pipe r) (f_ip r) (f_off r) (f_major r).
Definition set_f_readable (v : bool) (r : file) : file :=
  mk_file (f_type r) (f_ref r) v (f_writable r) (f_pipe r) (f_ip r) (f_off r) (f_major r).
Definition set_f_writable (v : bool) (r : file) : file :=
  mk_file (f_type r) (f_ref r) (f_readable r) v (f_pipe r) (f_ip r) (f_off r) (f_major r).
Definition set_f_pipe (v : Z) (r : file) : file :=
  mk_file (f_type r) (f_ref r) (f_readable r) (f_writable r) v (f_ip r) (f_off r) (f_major r).
Definition set_f_ip (v : nat) (r : file) : file :=
  mk_file (f_type r) (f_ref r) (f_readable r) (f_writable r) (f_pipe r) v (f_off r) (f_major r).
Definition set_f_off (v : Z) (r : file) : file :=
  mk_file (f_type r) (f_ref r) (f_readable r) (f_writable r) (f_pipe r) (f_ip r) v (f_major r).
Definition set_f_major (v : Z) (r : file) : file :=
  mk_file (f_type r) (f_ref r) (f_readable r) (f_writable r) (f_pipe r) (f_ip r) (f_off r) v.

(** [struct pipe]. *)
Record pipe := mk_pipe {
  pi_data : list Z;
  pi_nread : Z;
  pi_nwrite : Z;
  pi_readopen : bool;
  pi_writeopen : bool;
}.

Definition set_pi_data (v : list Z) (r : pipe) : pipe :=
  mk_pipe v (pi_nread r) (pi_nwrite r) (pi_readopen r) (pi_writeopen r).
Definition set_pi_nread (v : Z) (r : pipe) : pipe :=
  mk_pipe (pi_data r) v (pi_nwrite r) (pi_readopen r) (pi_writeopen r).
Definition set_pi_nwrite (v : Z) (r : pipe) : pipe :=
  mk_pipe (pi_data r) (pi_nread r) v (pi_readopen r) (pi_writeopen r).
Definition set_pi_readopen (v : bool) (r : pipe) : pipe :=
  mk_pipe (pi_data r) (pi_nread r) (pi_nwrite r) v (pi_writeopen r).
Definition set_pi_writeopen (v : bool) (r : pipe) : pipe :=
  mk_pipe (pi_data r) (pi_nread r) (pi_nwrite r) (pi_readopen r) v.

(** The console input buffer [cons] of console.c. *)
Record consst := mk_consst {
  c_buf : list Z;
  c_r : Z;
  c_w : Z;
  c_e : Z;
}.

Definition set_c_buf (v : list Z) (r : consst) : consst :=
  mk_consst v (c_r r) (c_w r) (c_e r).
Definition set_c_r (v : Z) (r : consst) : consst :=
  mk_consst (c_buf r) v (c_w r) (c_e r).
Definition set_c_w (v : Z) (r : consst) : consst :=
  mk_consst (c_buf r) (c_r r) v (c_e r).
Definition set_c_e (v : Z) (r : consst) : consst :=
  mk_consst (c_buf r) (c_r r) (c_w r) v.

(** The UART transmit buffer of uart.c and the device: the values the next reads of
    the line status register return, the input bytes, the bytes sent. *)
Record uartst := mk_uartst {
  ua_tx_buf : list Z;
  ua_tx_w : Z;
  ua_tx_r : Z;
  ua_lsr : list Z;  (* next values of LSR *)
  ua_rx : list Z;  (* next values of RHR *)
  ua_sent : list Z;  (* bytes written to THR *)
  ua_ctl : list (Z * Z);  (* writes to the control registers *)
}.

Definition set_ua_tx_buf (v : list Z) (r : uartst) : uartst :=
  mk_uartst v (ua_tx_w r) (ua_tx_r r) (ua_lsr r) (ua_rx r) (ua_sent r) (ua_ctl r).
Definition set_ua_tx_w (v : Z) (r : uartst) : uartst :=
  mk_uartst (ua_tx_buf r) v (ua_tx_r r) (ua_lsr r) (ua_rx r) (ua_sent r) (ua_ctl r).
Definition set_ua_tx_r (v : Z) (r : uartst) : uartst :=
  mk_uartst (ua_tx_buf r) (ua_tx_w r) v (ua_lsr r) (ua_rx r) (ua_sent r) (ua_ctl r).
Definition set_ua_lsr (v : list Z) (r : uartst) : uartst :=
  mk_uartst (ua_tx_buf r) (ua_tx_w r) (ua_tx_r r) v (ua_rx r) (ua_sent r) (ua_ctl r).
Definition set_ua_rx (v : list Z) (r : uartst) : uartst :=
  mk_uartst (ua_tx_buf r) (ua_tx_w r) (ua_tx_r r) (ua_lsr r) v (ua_sent r) (ua_ctl r).
Definition set_ua_sent (v : list Z) (r : uartst) : uartst :=
  mk_uartst (ua_tx_buf r) (ua_tx_w r) (ua_tx_r r) (ua_lsr r) (ua_rx r) v (ua_ctl r).
Definition set_ua_ctl (v : list (Z * Z)) (r : uartst) : uartst :=
  mk_uartst (ua_tx_buf r) (ua_tx_w r) (ua_tx_r r) (ua_lsr r) (ua_rx r) (ua_sent r) v.

(** The memory a virtio descriptor points to: nothing, the request header at a
    physical address, the data of a buffer, the status byte of a request. *)
Inductive vaddr := A_null | A_hdr (pa : Z) | A_data (b : nat) | A_status (i : nat).

(** [struct VRingDesc]. *)
Record vdesc := mk_vdesc {
  vd_addr : vaddr;
  vd_len : Z;
  vd_flags : Z;
  vd_next : Z;
}.

Definition set_vd_addr (v : vaddr) (r : vdesc) : vdesc :=
  mk_vdesc v (vd_len r) (vd_flags r) (vd_next r).
Definition set_vd_len (v : Z) (r : vdesc) : vdesc :=
  mk_vdesc (vd_addr r) v (vd_flags r) (vd_next r).
Definition set_vd_flags (v : Z) (r : vdesc) : vdesc :=
  mk_vdesc (vd_addr r) (vd_len r) v (vd_next r).
Definition set_vd_next (v : Z) (r : vdesc) : vdesc :=
  mk_vdesc (vd_addr r) (vd_len r) (vd_flags r) v.

(** [struct disk] of virtio_disk.c with the queue it shares with the device, and the device registers. *)
Record vdisk := mk_vdisk {
  v_desc : list vdesc;
  v_avail_idx : Z;  (* avail[1] *)
  v_avail : list Z;  (* avail[2...] *)
  v_used_id : Z;  (* used->id *)
  v_used : list Z;  (* used->elems[].id *)
  v_free : list bool;
  v_used_idx : Z;
  v_info_b : list (option nat);  (* info[].b *)
  v_info_status : list Z;  (* info[].status *)
  v_regs : Z -> Z;  (* values the device registers read as *)
  v_regw : list (Z * Z);  (* writes to the device registers *)
}.

Definition set_v_desc (v : list vdesc) (r : vdisk) : vdisk :=
  mk_vdisk v (v_avail_idx r) (v_avail r) (v_used_id r) (v_used r) (v_free r) (v_used_idx r) (v_info_b r) (v_info_status r) (v_regs r) (v_regw r).
Definition set_v_avail_idx (v : Z) (r : vdisk) : vdisk :=
  mk_vdisk (v_desc r) v (v_avail r) (v_used_id r) (v_used r) (v_free r) (v_used_idx r) (v_info_b r) (v_info_status r) (v_regs r) (v_regw r).
Definition set_v_avail (v : list Z) (r : vdisk) : vdisk :=
  mk_vdisk (v_desc r) (v_avail_idx r) v (v_used_id r) (v_used r) (v_free r) (v_used_idx r) (v_info_b r) (v_info_status r) (v_regs r) (v_regw r).
Definition set_v_used_id (v : Z) (r : vdisk) : vdisk :=
  mk_vdisk (v_desc r) (v_avail_idx r) (v_avail r) v (v_used r) (v_free r) (v_used_idx r) (v_info_b r) (v_info_status r) (v_regs r) (v_regw r).
Definition set_v_used (v : list Z) (r : vdisk) : vdisk :=
  mk_vdisk (v_desc r) (v_avail_idx r) (v_avail r) (v_used_id r) v (v_free r) (v_used_idx r) (v_info_b r) (v_info_status r) (v_regs r) (v_regw r).
Definition set_v_free (v : list bool) (r : vdisk) : vdisk :=
  mk_vdisk (v_desc r) (v_avail_idx r) (v_avail r) (v_used_id r) (v_used r) v (v_used_idx r) (v_info_b r) (v_info_status r) (v_regs r) (v_regw r).
Definition set_v_used_idx (v : Z) (r : vdisk) : vdisk :=
  mk_vdisk (v_desc r) (v_avail_idx r) (v_avail r) (v_used_id r) (v_used r) (v_free r) v (v_info_b r) (v_info_status r) (v_regs r) (v_regw r).
Definition set_v_info_b (v : list (option nat)) (r : vdisk) : vdisk :=
  mk_vdisk (v_desc r) (v_avail_idx r) (v_avail r) (v_used_id r) (v_used r) (v_free r) (v_used_idx r) v (v_info_status r) (v_regs r) (v_regw r).
Definition set_v_info_status (v : list Z) (r : vdisk) : vdisk :=
  mk_vdisk (v_desc r) (v_avail_idx r) (v_avail r) (v_used_id r) (v_used r) (v_free r) (v_used_idx r) (v_info_b r) v (v_regs r) (v_regw r).
Definition set_v_regs (v : Z -> Z) (r : vdisk) : vdisk :=
  mk_vdisk (v_desc r) (v_avail_idx r) (v_avail r) (v_used_id r) (v_used r) (v_free r) (v_used_idx r) (v_info_b r) (v_info_status r) v (v_regw r).
Definition set_v_regw (v : list (Z * Z)) (r : vdisk) : vdisk :=
  mk_vdisk (v_desc r) (v_avail_idx r) (v_avail r) (v_used_id r) (v_used r) (v_free r) (v_used_idx r) (v_info_b r) (v_info_status r) (v_regs r) v.

(** The interrupt controller: the values the next claims return, and the register writes. *)
Record plicst := mk_plicst {
  pl_claims : list Z;
  pl_writes : list (Z * Z);
}.

Definition set_pl_claims (v : list Z) (r : plicst) : plicst :=
  mk_plicst v (pl_writes r).
Definition set_pl_writes (v : list (Z * Z)) (r : plicst) : plicst :=
  mk_plicst (pl_claims r) v.

(** Addresses that kernel.ld and the assembler files define. *)
Record symbols := mk_symbols {
  sym_end : Z;
  sym_etext : Z;
  sym_trampoline : Z;
  sym_uservec : Z;
  sym_userret : Z;
  sym_forkret : Z;
  sym_usertrap : Z;
  sym_kernelvec : Z;
}.


(** The global state of the kernel as one hart sees it. *)
Record kernel := mk_kernel {
  k_sym : symbols;
  k_hart : hart;
  k_locks : lockname -> spinlock;
  k_mem : Z -> Z;  (* physical memory, byte-addressed *)
  k_freelist : Z;  (* kmem.freelist *)
  k_kpgtbl : Z;  (* kernel_pagetable *)
  k_procs : list proc;
  k_nextpid : Z;
  k_initproc : option nat;
  k_ticks : Z;
  k_bufs : list buf;  (* bcache.buf *)
  k_head : nat * nat;  (* bcache.head: prev, next *)
  k_disk : Z -> list Z;  (* blocks of the disk *)
  k_writes : list (Z * list Z);  (* history of the disk writes, oldest first *)
  k_sb : superblock;
  k_log : logst;
  k_inodes : list inode;  (* icache.inode *)
  k_files : list file;  (* ftable.file *)
  k_devsw : list bool;  (* devsw[i] connected *)
  k_pipes : Z -> pipe;  (* the struct pipe in a page *)
  k_cons : consst;
  k_uart : uartst;
  k_panicked : bool;
  k_prlocking : bool;  (* pr.locking *)
  k_first : bool;  (* static int first of forkret *)
  k_vdisk : vdisk;  (* disk *)
  k_plic : plicst;
  k_started : bool;  (* started of main.c *)
}.

Definition set_k_sym (v : symbols) (r : kernel) : kernel :=
  mk_kernel v (k_hart r) (k_locks r) (k_mem r) (k_freelist r) (k_kpgtbl r) (k_procs r) (k_nextpid r) (k_initproc r) (k_ticks r) (k_bufs r) (k_head r) (k_disk r) (k_writes r) (k_sb r) (k_log r) (k_inodes r) (k_files r) (k_devsw r) (k_pipes r) (k_cons r) (k_uart r) (k_panicked r) (k_prlocking r) (k_first r) (k_vdisk r) (k_plic r) (k_started r).
Definition set_k_hart (v : hart) (r : kernel) : kernel :=
  mk_kernel (k_sym r) v (k_locks r) (k_mem r) (k_freelist r) (k_kpgtbl r) (k_procs r) (k_nextpid r) (k_initproc r) (k_ticks r) (k_bufs r) (k_head r) (k_disk r) (k_writes r) (k_sb r) (k_log r) (k_inodes r) (k_files r) (k_devsw r) (k_pipes r) (k_cons r) (k_uart r) (k_panicked r) (k_prlocking r) (k_first r) (k_vdisk r) (k_plic r) (k_started r).
Definition set_k_locks (v : lockname -> spinlock) (r : kernel) : kernel :=
  mk_kernel (k_sym r) (k_hart r) v (k_mem r) (k_freelist r) (k_kpgtbl r) (k_procs r) (k_nextpid r) (k_initproc r) (k_ticks r) (k_bufs r) (k_head r) (k_disk r) (k_writes r) (k_sb r) (k_log r) (k_inodes r) (k_files r) (k_devsw r) (k_pipes r) (k_cons r) (k_uart r) (k_panicked r) (k_prlocking r) (k_first r) (k_vdisk r) (k_plic r) (k_started r).
Definition set_k_mem (v : Z -> Z) (r : kernel) : kernel :=
  mk_kernel (k_sym r) (k_hart r) (k_locks r) v (k_freelist r) (k_kpgtbl r) (k_procs r) (k_nextpid r) (k_initproc r) (k_ticks r) (k_bufs r) (k_head r) (k_disk r) (k_writes r) (k_sb r) (k_log r) (k_inodes r) (k_files r) (k_devsw r) (k_pipes r) (k_cons r) (k_uart r) (k_panicked r) (k_prlocking r) (k_first r) (k_vdisk r) (k_plic r) (k_started r).
Definition set_k_freelist (v : Z) (r : kernel) : kernel :=
  mk_kernel (k_sym r) (k_hart r) (k_locks r) (k_mem r) v (k_kpgtbl r) (k_procs r) (k_nextpid r) (k_initproc r) (k_ticks r) (k_bufs r) (k_head r) (k_disk r) (k_writes r) (k_sb r) (k_log r) (k_inodes r) (k_files r) (k_devsw r) (k_pipes r) (k_cons r) (k_uart r) (k_panicked r) (k_prlocking r) (k_first r) (k_vdisk r) (k_plic r) (k_started r).
Definition set_k_kpgtbl (v : Z) (r : kernel) : kernel :=
  mk_kernel (k_sym r) (k_hart r) (k_locks r) (k_mem r) (k_freelist r) v (k_procs r) (k_nextpid r) (k_initproc r) (k_ticks r) (k_bufs r) (k_head r) (k_disk r) (k_writes r) (k_sb r) (k_log r) (k_inodes r) (k_files r) (k_devsw r) (k_pipes r) (k_cons r) (k_uart r) (k_panicked r) (k_prlocking r) (k_first r) (k_vdisk r) (k_plic r) (k_started r).
Definition set_k_procs (v : list proc) (r : kernel) : kernel :=
  mk_kernel (k_sym r) (k_hart r) (k_locks r) (k_mem r) (k_freelist r) (k_kpgtbl r) v (k_nextpid r) (k_initproc r) (k_ticks r) (k_bufs r) (k_head r) (k_disk r) (k_writes r) (k_sb r) (k_log r) (k_inodes r) (k_files r) (k_devsw r) (k_pipes r) (k_cons r) (k_uart r) (k_panicked r) (k_prlocking r) (k_first r) (k_vdisk r) (k_plic r) (k_started r).
Definition set_k_nextpid (v : Z) (r : kernel) : kernel :=
  mk_kernel (k_sym r) (k_hart r) (k_locks r) (k_mem r) (k_freelist r) (k_kpgtbl r) (k_procs r) v (k_initproc r) (k_ticks r) (k_bufs r) (k_head r) (k_disk r) (k_writes r) (k_sb r) (k_log r) (k_inodes r) (k_files r) (k_devsw r) (k_pipes r) (k_cons r) (k_uart r) (k_panicked r) (k_prlocking r) (k_first r) (k_vdisk r) (k_plic r) (k_started r).
Definition set_k_initproc (v : option nat) (r : kernel) : kernel :=
  mk_kernel (k_sym r) (k_hart r) (k_locks r) (k_mem r) (k_freelist r) (k_kpgtbl r) (k_procs r) (k_nextpid r) v (k_ticks r) (k_bufs r) (k_head r) (k_disk r) (k_writes r) (k_sb r) (k_log r) (k_inodes r) (k_files r) (k_devsw r) (k_pipes r) (k_cons r) (k_uart r) (k_panicked r) (k_prlocking r) (k_first r) (k_vdisk r) (k_plic r) (k_started r).
Definition set_k_ticks (v : Z) (r : kernel) : kernel :=
  mk_kernel (k_sym r) (k_hart r) (k_locks r) (k_mem r) (k_freelist r) (k_kpgtbl r) (k_procs r) (k_nextpid r) (k_initproc r) v (k_bufs r) (k_head r) (k_disk r) (k_writes r) (k_sb r) (k_log r) (k_inodes r) (k_files r) (k_devsw r) (k_pipes r) (k_cons r) (k_uart r) (k_panicked r) (k_prlocking r) (k_first r) (k_vdisk r) (k_plic r) (k_started r).
Definition set_k_bufs (v : list buf) (r : kernel) : kernel :=
  mk_kernel (k_sym r) (k_hart r) (k_locks r) (k_mem r) (k_freelist r) (k_kpgtbl r) (k_procs r) (k_nextpid r) (k_initproc r) (k_ticks r) v (k_head r) (k_disk r) (k_writes r) (k_sb r) (k_log r) (k_inodes r) (k_files r) (k_devsw r) (k_pipes r) (k_cons r) (k_uart r) (k_panicked r) (k_prlocking r) (k_first r) (k_vdisk r) (k_plic r) (k_started r).
Definition set_k_head (v : nat * nat) (r : kernel) : kernel :=
  mk_kernel (k_sym r) (k_hart r) (k_locks r) (k_mem r) (k_freelist r) (k_kpgtbl r) (k_procs r) (k_nextpid r) (k_initproc r) (k_ticks r) (k_bufs r) v (k_disk r) (k_writes r) (k_sb r) (k_log r) (k_inodes r) (k_files r) (k_devsw r) (k_pipes r) (k_cons r) (k_uart r) (k_panicked r) (k_prlocking r) (k_first r) (k_vdisk r) (k_plic r) (k_started r).
Definition set_k_disk (v : Z -> list Z) (r : kernel) : kernel :=
  mk_kernel (k_sym r) (k_hart r) (k_locks r) (k_mem r) (k_freelist r) (k_kpgtbl r) (k_procs r) (k_nextpid r) (k_initproc r) (k_ticks r) (k_bufs r) (k_head r) v (k_writes r) (k_sb r) (k_log r) (k_inodes r) (k_files r) (k_devsw r) (k_pipes r) (k_cons r) (k_uart r) (k_panicked r) (k_prlocking r) (k_first r) (k_vdisk r) (k_plic r) (k_started r).
Definition set_k_writes (v : list (Z * list Z)) (r : kernel) : kernel :=
  mk_kernel (k_sym r) (k_hart r) (k_locks r) (k_mem r) (k_freelist r) (k_kpgtbl r) (k_procs r) (k_nextpid r) (k_initproc r) (k_ticks r) (k_bufs r) (k_head r) (k_disk r) v (k_sb r) (k_log r) (k_inodes r) (k_files r) (k_devsw r) (k_pipes r) (k_cons r) (k_uart r) (k_panicked r) (k_prlocking r) (k_first r) (k_vdisk r) (k_plic r) (k_started r).
Definition set_k_sb (v : superblock) (r : kernel) : kernel :=
  mk_kernel (k_sym r) (k_hart r) (k_locks r) (k_mem r) (k_freelist r) (k_kpgtbl r) (k_procs r) (k_nextpid r) (k_initproc r) (k_ticks r) (k_bufs r) (k_head r) (k_disk r) (k_writes r) v (k_log r) (k_inodes r) (k_files r) (k_devsw r) (k_pipes r) (k_cons r) (k_uart r) (k_panicked r) (k_prlocking r) (k_first r) (k_vdisk r) (k_plic r) (k_started r).
Definition set_k_log (v : logst) (r : kernel) : kernel :=
  mk_kernel (k_sym r) (k_hart r) (k_locks r) (k_mem r) (k_freelist r) (k_kpgtbl r) (k_procs r) (k_nextpid r) (k_initproc r) (k_ticks r) (k_bufs r) (k_head r) (k_disk r) (k_writes r) (k_sb r) v (k_inodes r) (k_files r) (k_devsw r) (k_pipes r) (k_cons r) (k_uart r) (k_panicked r) (k_prlocking r) (k_first r) (k_vdisk r) (k_plic r) (k_started r).
Definition set_k_inodes (v : list inode) (r : kernel) : kernel :=
  mk_kernel (k_sym r) (k_hart r) (k_locks r) (k_mem r) (k_freelist r) (k_kpgtbl r) (k_procs r) (k_nextpid r) (k_initproc r) (k_ticks r) (k_bufs r) (k_head r) (k_disk r) (k_writes r) (k_sb r) (k_log r) v (k_files r) (k_devsw r) (k_pipes r) (k_cons r) (k_uart r) (k_panicked r) (k_prlocking r) (k_first r) (k_vdisk r) (k_plic r) (k_started r).
Definition set_k_files (v : list file) (r : kernel) : kernel :=
  mk_kernel (k_sym r) (k_hart r) (k_locks r) (k_mem r) (k_freelist r) (k_kpgtbl r) (k_procs r) (k_nextpid r) (k_initproc r) (k_ticks r) (k_bufs r) (k_head r) (k_disk r) (k_writes r) (k_sb r) (k_log r) (k_inodes r) v (k_devsw r) (k_pipes r) (k_cons r) (k_uart r) (k_panicked r) (k_prlocking r) (k_first r) (k_vdisk r) (k_plic r) (k_started r).
Definition set_k_devsw (v : list bool) (r : kernel) : kernel :=
  mk_kernel (k_sym r) (k_hart r) (k_locks r) (k_mem r) (k_freelist r) (k_kpgtbl r) (k_procs r) (k_nextpid r) (k_initproc r) (k_ticks r) (k_bufs r) (k_head r) (k_disk r) (k_writes r) (k_sb r) (k_log r) (k_inodes r) (k_files r) v (k_pipes r) (k_cons r) (k_uart r) (k_panicked r) (k_prlocking r) (k_first r) (k_vdisk r) (k_plic r) (k_started r).
Definition set_k_pipes (v : Z -> pipe) (r : kernel) : kernel :=
  mk_kernel (k_sym r) (k_hart r) (k_locks r) (k_mem r) (k_freelist r) (k_kpgtbl r) (k_procs r) (k_nextpid r) (k_initproc r) (k_ticks r) (k_bufs r) (k_head r) (k_disk r) (k_writes r) (k_sb r) (k_log r) (k_inodes r) (k_files r) (k_devsw r) v (k_cons r) (k_uart r) (k_panicked r) (k_prlocking r) (k_first r) (k_vdisk r) (k_plic r) (k_started r).
Definition set_k_cons (v : consst) (r : kernel) : kernel :=
  mk_kernel (k_sym r) (k_hart r) (k_locks r) (k_mem r) (k_freelist r) (k_kpgtbl r) (k_procs r) (k_nextpid r) (k_initproc r) (k_ticks r) (k_bufs r) (k_head r) (k_disk r) (k_writes r) (k_sb r) (k_log r) (k_inodes r) (k_files r) (k_devsw r) (k_pipes r) v (k_uart r) (k_panicked r) (k_prlocking r) (k_first r) (k_vdisk r) (k_plic r) (k_started r).
Definition set_k_uart (v : uartst) (r : kernel) : kernel :=
  mk_kernel (k_sym r) (k_hart r) (k_locks r) (k_mem r) (k_freelist r) (k_kpgtbl r) (k_procs r) (k_nextpid r) (k_initproc r) (k_ticks r) (k_bufs r) (k_head r) (k_disk r) (k_writes r) (k_sb r) (k_log r) (k_inodes r) (k_files r) (k_devsw r) (k_pipes r) (k_cons r) v (k_panicked r) (k_prlocking r) (k_first r) (k_vdisk r) (k_plic r) (k_started r).
Definition set_k_panicked (v : bool) (r : kernel) : kernel :=
  mk_kernel (k_sym r) (k_hart r) (k_locks r) (k_mem r) (k_freelist r) (k_kpgtbl r) (k_procs r) (k_nextpid r) (k_initproc r) (k_ticks r) (k_bufs r) (k_head r) (k_disk r) (k_writes r) (k_sb r) (k_log r) (k_inodes r) (k_files r) (k_devsw r) (k_pipes r) (k_cons r) (k_uart r) v (k_prlocking r) (k_first r) (k_vdisk r) (k_plic r) (k_started r).
Definition set_k_prlocking (v : bool) (r : kernel) : kernel :=
  mk_kernel (k_sym r) (k_hart r) (k_locks r) (k_mem r) (k_freelist r) (k_kpgtbl r) (k_procs r) (k_nextpid r) (k_initproc r) (k_ticks r) (k_bufs r) (k_head r) (k_disk r) (k_writes r) (k_sb r) (k_log r) (k_inodes r) (k_files r) (k_devsw r) (k_pipes r) (k_cons r) (k_uart r) (k_panicked r) v (k_first r) (k_vdisk r) (k_plic r) (k_started r).
Definition set_k_first (v : bool) (r : kernel) : kernel :=
  mk_kernel (k_sym r) (k_hart r) (k_locks r) (k_mem r) (k_freelist r) (k_kpgtbl r) (k_procs r) (k_nextpid r) (k_initproc r) (k_ticks r) (k_bufs r) (k_head r) (k_disk r) (k_writes r) (k_sb r) (k_log r) (k_inodes r) (k_files r) (k_devsw r) (k_pipes r) (k_cons r) (k_uart r) (k_panicked r) (k_prlocking r) v (k_vdisk r) (k_plic r) (k_started r).
Definition set_k_vdisk (v : vdisk) (r : kernel) : kernel :=
  mk_kernel (k_sym r) (k_hart r) (k_locks r) (k_mem r) (k_freelist r) (k_kpgtbl r) (k_procs r) (k_nextpid r) (k_initproc r) (k_ticks r) (k_bufs r) (k_head r) (k_disk r) (k_writes r) (k_sb r) (k_log r) (k_inodes r) (k_files r) (k_devsw r) (k_pipes r) (k_cons r) (k_uart r) (k_panicked r) (k_prlocking r) (k_first r) v (k_plic r) (k_started r).
Definition set_k_plic (v : plicst) (r : kernel) : kernel :=
  mk_kernel (k_sym r) (k_hart r) (k_locks r) (k_mem r) (k_freelist r) (k_kpgtbl r) (k_procs r) (k_nextpid r) (k_initproc r) (k_ticks r) (k_bufs r) (k_head r) (k_disk r) (k_writes r) (k_sb r) (k_log r) (k_inodes r) (k_files r) (k_devsw r) (k_pipes r) (k_cons r) (k_uart r) (k_panicked r) (k_prlocking r) (k_first r) (k_vdisk r) v (k_started r).
Definition set_k_started (v : bool) (r : kernel) : kernel :=
  mk_kernel (k_sym r) (k_hart r) (k_locks r) (k_mem r) (k_freelist r) (k_kpgtbl r) (k_procs r) (k_nextpid r) (k_initproc r) (k_ticks r) (k_bufs r) (k_head r) (k_disk r) (k_writes r) (k_sb r) (k_log r) (k_inodes r) (k_files r) (k_devsw r) (k_pipes r) (k_cons r) (k_uart r) (k_panicked r) (k_prlocking r) (k_first r) (k_vdisk r) (k_plic r) v.

(** Kernel code. *)
Definition K (A : Type) : Type := M kernel A.

#[export] Instance proc_inhabited : Inhabited proc :=
  populate (mk_proc UNUSED None CH_none 0 0 0 0 0 0 0 (mk_context 0 0 []) [] None []).
#[export] Instance buf_inhabited : Inhabited buf :=
  populate (mk_buf false false 0 0 (mk_sleeplock false "" 0) 0 0%nat 0%nat []).
#[export] Instance inode_inhabited : Inhabited inode :=
  populate (mk_inode 0 0 0 (mk_sleeplock false "" 0) false 0 0 0 0 0 []).
#[export] Instance vdesc_inhabited : Inhabited vdesc := populate (mk_vdesc A_null 0 0 0).
#[export] Instance file_inhabited : Inhabited file :=
  populate (mk_file FD_NONE 0 false false 0 0%nat 0 0).

(** Updating one field of a component held in the global state. *)
Definition upd_hart (f : hart -> hart) (k : kernel) : kernel := set_k_hart (f (k_hart k)) k.
Definition upd_log (f : logst -> logst) (k : kernel) : kernel := set_k_log (f (k_log k)) k.
Definition upd_cons (f : consst -> consst) (k : kernel) : kernel := set_k_cons (f (k_cons k)) k.
Definition upd_uart (f : uartst -> uartst) (k : kernel) : kernel := set_k_uart (f (k_uart k)) k.
Definition upd_vdisk (f : vdisk -> vdisk) (k : kernel) : kernel := set_k_vdisk (f (k_vdisk k)) k.
Definition upd_plic (f : plicst -> plicst) (k : kernel) : kernel := set_k_plic (f (k_plic k)) k.
Definition upd_proc (p : nat) (f : proc -> proc) (k : kernel) : kernel :=
  set_k_procs (alter f p (k_procs k)) k.
Definition upd_buf (b : nat) (f : buf -> buf) (k : kernel) : kernel :=
  set_k_bufs (alter f b (k_bufs k)) k.
Definition upd_inode (i : nat) (f : inode -> inode) (k : kernel) : kernel :=
  set_k_inodes (alter f i (k_inodes k)) k.
Definition upd_file (i : nat) (f : file -> file) (k : kernel) : kernel :=
  set_k_files (alter f i (k_files k)) k.
Definition upd_pipe (pi : Z) (f : pipe -> pipe) (k : kernel) : kernel :=
  set_k_pipes (fun a => if decide (a = pi) then f (k_pipes k pi) else k_pipes k a) k.

(** Reading a component. *)
Definition get_proc (p : nat) (k : kernel) : proc := k_procs k !!! p.
Definition get_buf (b : nat) (k : kernel) : buf := k_bufs k !!! b.
Definition get_inode (i : nat) (k : kernel) : inode := k_inodes k !!! i.
Definition get_file (i : nat) (k : kernel) : file := k_files k !!! i.

(** The state when hart 0 enters [main]: zeroed globals, interrupts off.
    The addresses are those of one build; nothing depends on their values. *)
Definition boot_symbols : symbols :=
  mk_symbols 0x80026000 0x80008000 0x80007000 0x80007000 0x80007090 0x80001a00 0x80002600 0x80005a00.
Definition zero_sleeplock : sleeplock := mk_sleeplock false "" 0.
Definition zero_proc : proc :=
  mk_proc UNUSED None CH_none 0 0 0 0 0 0 0 (mk_context 0 0 (replicate 12 0))
    (replicate NOFILE None) None (replicate 16 0).
Definition zero_buf : buf :=
  mk_buf false false 0 0 zero_sleeplock 0 0%nat 0%nat (replicate (Z.to_nat BSIZE) 0).
Definition zero_inode : inode :=
  mk_inode 0 0 0 zero_sleeplock false 0 0 0 0 0 (replicate (NDIRECT + 1) 0).
Definition zero_file : file := mk_file FD_NONE 0 false false 0 0%nat 0 0.
Definition zero_pipe : pipe := mk_pipe (replicate (Z.to_nat PIPESIZE) 0) 0 0 false false.
Definition zero_log : logst := mk_logst 0 0 0 false 0 0 (replicate (Z.to_nat LOGSIZE) 0).
Definition NUM : nat := 8.
Definition zero_vdisk : vdisk :=
  mk_vdisk (replicate NUM (mk_vdesc A_null 0 0 0)) 0 (replicate NUM 0) 0 (replicate NUM 0)
    (replicate NUM false) 0 (replicate NUM None) (replicate NUM 0) (fun _ => 0) [].
Definition boot_state : kernel :=
  mk_kernel boot_symbols (mk_hart 0 None 0 false 0 0 0 0 0 0 0)
    (fun _ => mk_spinlock false "" None) (fun _ => 0) 0 0
    (replicate NPROC zero_proc) 1 None 0
    (replicate NBUF zero_buf) (0%nat, 0%nat) (fun _ => replicate (Z.to_nat BSIZE) 0) []
    (mk_superblock 0 0 0 0 0 0 0 0) zero_log
    (replicate NINODE zero_inode) (replicate NFILE zero_file) (replicate (Z.to_nat NDEV) false)
    (fun _ => zero_pipe) (mk_consst (replicate (Z.to_nat INPUT_BUF) 0) 0 0 0)
    (mk_uartst (replicate (Z.to_nat UART_TX_BUF_SIZE) 0) 0 0 [] [] [] []) false false true zero_vdisk (mk_plicst [] []) false.
