(* ===== verification/Kstring.v ===== *)
(** * Memory and string primitives (kernel/string.c, user/ulib.c)

    Bulk operations work on a byte-addressed memory [Z -> Z]; a C string that is
    only read is the function giving its bytes.  [char] is unsigned on RISC-V,
    so every byte is a number in [0, 256). *)

From stdpp Require Import base numbers list.
From S2P Require Import Prelude Kstate.

Definition mem := Z -> Z.
Definition mem_set (m : mem) (a v : Z) : mem := fun x => if x =? a then v else m x.

(** ** string.c *)

(** [for(i = 0; i < n; i++) cdst[i] = c] *)
Fixpoint memset_from (m : mem) (dst c i : Z) (k : nat) : mem :=
  match k with
  | O => m
  | S k' => memset_from (mem_set m (dst + i) (u8 c)) dst c (i + 1) k'
  end.
Definition memset (m : mem) (dst c n : Z) : mem := memset_from m dst c 0 (Z.to_nat n).

Arguments memset : simpl never.

Fixpoint memcmp_loop (m : mem) (s1 s2 : Z) (n : nat) : Z :=
  match n with
  | O => 0
  | S n' => if m s1 =? m s2 then memcmp_loop m (s1 + 1) (s2 + 1) n' else m s1 - m s2
  end.
Definition memcmp (m : mem) (v1 v2 n : Z) : Z := memcmp_loop m v1 v2 (Z.to_nat n).

(** [while(n-- > 0) *d++ = *s++] *)
Fixpoint copy_up (m : mem) (d s : Z) (n : nat) : mem :=
  match n with
  | O => m
  | S n' => copy_up (mem_set m d (m s)) (d + 1) (s + 1) n'
  end.
(** [while(n-- > 0) *--d = *--s] *)
Fixpoint copy_down (m : mem) (d s : Z) (n : nat) : mem :=
  match n with
  | O => m
  | S n' => copy_down (mem_set m (d - 1) (m (s - 1))) (d - 1) (s - 1) n'
  end.
Definition memmove (m : mem) (dst src n : Z) : mem :=
  if (src <? dst) && (dst <? src + n)
  then copy_down m (dst + n) (src + n) (Z.to_nat n)
  else copy_up m dst src (Z.to_nat n).
Arguments memmove : simpl never.
Definition memcpy (m : mem) (dst src n : Z) : mem := memmove m dst src n.

(** The bytes of a string from one position on. *)
Definition bytes_at := nat -> Z.
Definition shift (p : bytes_at) : bytes_at := fun i => p (S i).
Definition list_bytes (l : list Z) : bytes_at := fun i => nth i l 0.

Fixpoint strncmp (p q : bytes_at) (n : nat) : Z :=
  match n with
  | O => 0
  | S n' =>
      if nz (p O) && (p O =? q O) then strncmp (shift p) (shift q) n' else p O - q O
  end.

(** The [n] bytes [strncpy] stores. *)
Fixpoint strncpy (t : bytes_at) (n : nat) : list Z :=
  match n with
  | O => []
  | S n' => if nz (t O) then t O :: strncpy (shift t) n' else 0 :: replicate n' 0
  end.

(** [safestrcpy]: [n] is the count before [--n]; the array [s] is updated in place. *)
Fixpoint safestrcpy_loop (s : list Z) (t : bytes_at) (n : nat) : list Z :=
  match n, s with
  | S O, _ :: rest => 0 :: rest
  | S n', _ :: rest =>
      if nz (t O) then t O :: safestrcpy_loop rest (shift t) n'
      else 0 :: match rest with _ :: r => 0 :: r | [] => [] end
  | _, _ => s
  end.
Definition safestrcpy (s : list Z) (t : bytes_at) (n : Z) : list Z :=
  if n <=? 0 then s else safestrcpy_loop s t (Z.to_nat n).

(** [strlen] of a string held in an array. *)
Fixpoint strlen (s : list Z) : Z :=
  match s with
  | [] => 0
  | c :: t => if nz c then 1 + strlen t else 0
  end.

(** ** ulib.c *)
Module Ulib.

(** The bytes [strcpy] stores, for a source string held in an array. *)
Fixpoint strcpy (t : list Z) : list Z :=
  match t with
  | [] => [0]
  | c :: t' => if nz c then c :: strcpy t' else [0]
  end.

Fixpoint strcmp (p q : list Z) : Z :=
  match p, q with
  | a :: p', b :: q' => if nz a && (a =? b) then strcmp p' q' else a - b
  | [], b :: _ => - b
  | a :: _, [] => a
  | [], [] => 0
  end.

(** [strchr]: the suffix at the first [c], [None] for a null pointer. *)
Fixpoint strchr (s : list Z) (c : Z) : option (list Z) :=
  match s with
  | [] => None
  | x :: t => if nz x then (if x =? c then Some s else strchr t c) else None
  end.

Definition memmove (m : mem) (vdst vsrc n : Z) : mem :=
  if vdst <? vsrc
  then copy_up m vdst vsrc (Z.to_nat n)
  else copy_down m (vdst + n) (vsrc + n) (Z.to_nat n).

Definition memcpy (m : mem) (dst src n : Z) : mem := memmove m dst src n.

(** The library repeats the kernel's loops ([char] is unsigned on RISC-V). *)
Definition strlen (s : list Z) : Z := strlen s.
Definition memset (m : mem) (dst c n : Z) : mem := memset m dst c n.
Definition memcmp (m : mem) (s1 s2 n : Z) : Z := memcmp m s1 s2 n.

Fixpoint atoi_loop (s : list Z) (n : Z) : Z :=
  match s with
  | [] => n
  | c :: t => if (48 <=? c) && (c <=? 57) then atoi_loop t (n * 10 + c - 48) else n
  end.
(** [int] overflow of the accumulator wraps (two's complement). *)
Definition atoi (s : list Z) : Z := i32 (atoi_loop s 0).

(** [gets(buf, max)]: [reads] are the results of the successive [read(0, &c, 1)],
    [None] when a read returns less than 1. *)
Fixpoint gets_loop (reads : list (option Z)) (room : nat) : list Z * list (option Z) :=
  match room, reads with
  | S room', Some c :: rest =>
      if (c =? 10) || (c =? 13) then ([c], rest)
      else let '(b, later) := gets_loop rest room' in (c :: b, later)
  | S _, None :: rest => ([], rest)
  | _, _ => ([], reads)
  end.
Definition gets (reads : list (option Z)) (max : Z) : list Z * list (option Z) :=
  let '(b, later) := gets_loop reads (Z.to_nat (max - 1)) in (b ++ [0], later).

End Ulib.

(** ** Bulk operations against their pointwise meaning *)

Lemma memset_from_spec k m dst c i a :
  memset_from m dst c i k a =
    if bool_decide (dst + i <= a < dst + i + Z.of_nat k) then u8 c else m a.
Proof.
  revert m i. induction k as [|k IH]; intros m i; cbn [memset_from].
  - rewrite bool_decide_false by lia. done.
  - rewrite IH. unfold mem_set. case_bool_decide.
    + now rewrite bool_decide_true by lia.
    + destruct (Z.eqb_spec a (dst + i)).
      * now rewrite bool_decide_true by lia.
      * now rewrite bool_decide_false by lia.
Qed.

Lemma memset_spec m dst c n a :
  0 <= n -> memset m dst c n a = if bool_decide (dst <= a < dst + n) then u8 c else m a.
Proof.
  intros. unfold memset. rewrite memset_from_spec.
  apply (f_equal (fun b : bool => if b then _ else _)). apply bool_decide_ext. lia.
Qed.

Lemma copy_up_spec n m d s a :
  (d <= s \/ s + Z.of_nat n <= d) ->
  copy_up m d s n a = if bool_decide (d <= a < d + Z.of_nat n) then m (s + (a - d)) else m a.
Proof.
  revert m d s. induction n as [|n IH]; intros m d s Hd; cbn [copy_up].
  - now rewrite bool_decide_false by lia.
  - rewrite IH by lia. unfold mem_set.
    destruct (Z.eqb_spec a d) as [->|Hne].
    + rewrite bool_decide_false by lia. rewrite bool_decide_true by lia. f_equal. lia.
    + case_bool_decide.
      * rewrite bool_decide_true by lia. rewrite (proj2 (Z.eqb_neq _ _)) by lia. f_equal. lia.
      * now rewrite bool_decide_false by lia.
Qed.

Lemma copy_down_spec n m d s a :
  (s <= d \/ d <= s - Z.of_nat n) ->
  copy_down m d s n a =
    if bool_decide (d - Z.of_nat n <= a < d) then m (s + (a - d)) else m a.
Proof.
  revert m d s. induction n as [|n IH]; intros m d s Hd; cbn [copy_down].
  - now rewrite bool_decide_false by lia.
  - rewrite IH by lia. unfold mem_set.
    destruct (Z.eqb_spec a (d - 1)) as [->|Hne].
    + rewrite bool_decide_false by lia. rewrite bool_decide_true by lia. f_equal. lia.
    + case_bool_decide.
      * rewrite bool_decide_true by lia. rewrite (proj2 (Z.eqb_neq _ _)) by lia. f_equal. lia.
      * now rewrite bool_decide_false by lia.
Qed.

Lemma memmove_spec m dst src n a :
  0 <= n ->
  memmove m dst src n a = if bool_decide (dst <= a < dst + n) then m (src + (a - dst)) else m a.
Proof.
  intros Hn. unfold memmove.
  destruct (Z.ltb_spec src dst), (Z.ltb_spec dst (src + n)); cbn;
    rewrite ?copy_down_spec, ?copy_up_spec by lia; rewrite ?Z2Nat.id by lia;
    repeat case_bool_decide; try lia; f_equal; lia.
Qed.

Lemma ulib_memmove_spec m dst src n a :
  0 <= n ->
  Ulib.memmove m dst src n a =
    if bool_decide (dst <= a < dst + n) then m (src + (a - dst)) else m a.
Proof.
  intros Hn. unfold Ulib.memmove.
  destruct (Z.ltb_spec dst src);
    rewrite ?copy_down_spec, ?copy_up_spec by lia; rewrite ?Z2Nat.id by lia;
    repeat case_bool_decide; try lia; f_equal; lia.
Qed.

(** Both [memmove]s (kernel and user library, which choose the direction of
    the copy by different tests) copy [n] bytes correctly for every placement of
    source and destination, overlapping or not: each destination byte is the
    source byte as it was before the call, and nothing else changes. *)
Theorem memmove_correct m dst src n :
  0 <= n ->
  (forall i, 0 <= i < n -> memmove m dst src n (dst + i) = m (src + i)) /\
  (forall a, ~ dst <= a < dst + n -> memmove m dst src n a = m a) /\
  (forall a, Ulib.memmove m dst src n a = memmove m dst src n a).
Proof.
  intros Hn. split_and!.
  - intros i Hi. rewrite memmove_spec, bool_decide_true by lia. f_equal. lia.
  - intros a Ha. now rewrite memmove_spec, bool_decide_false by lia.
  - intros a. now rewrite ulib_memmove_spec, memmove_spec.
Qed.

Example memmove_correct_witness :
  0 <= 3 /\ (forall i, 0 <= i < 3 -> memmove (fun a => a) 11 10 3 (11 + i) = 10 + i) /\
  map (memmove (fun a => a) 11 10 3) [9; 10; 11; 12; 13; 14] = [9; 10; 10; 11; 12; 14].
Proof.
  split; [lia|]. split; [|reflexivity].
  exact (proj1 (memmove_correct (fun a => a) 11 10 3 ltac:(lia))).
Defined.

(** ** Strings *)

(** The string at [p], cut at [n] bytes: the bytes before the first NUL. *)
Fixpoint cstr (p : bytes_at) (n : nat) : list Z :=
  match n with
  | O => []
  | S n' => if nz (p O) then p O :: cstr (shift p) n' else []
  end.

Lemma nz_true x : nz x = true <-> x <> 0.
Proof. unfold nz. destruct (Z.eqb_spec x 0); naive_solver. Qed.
Lemma nz_false x : nz x = false <-> x = 0.
Proof. unfold nz. destruct (Z.eqb_spec x 0); naive_solver. Qed.

Lemma strncmp_zero n p q : strncmp p q n = 0 <-> cstr p n = cstr q n.
Proof.
  revert p q. induction n as [|n IH]; intros p q; [done|]. cbn [strncmp cstr].
  destruct (nz (p O)) eqn:Ep; cbn [andb].
  - apply nz_true in Ep. destruct (Z.eqb_spec (p O) (q O)) as [E|E].
    + rewrite IH, <- E, (proj2 (nz_true _) Ep). split; [now intros ->|now intros [=]].
    + destruct (nz (q O)) eqn:Eq; [|apply nz_false in Eq]; split; intros H; try lia; congruence.
  - apply nz_false in Ep. rewrite Ep. destruct (nz (q O)) eqn:Eq.
    + apply nz_true in Eq. split; [lia|done].
    + apply nz_false in Eq. rewrite Eq. done.
Qed.

(** The sign of [strncmp] is the order of the first differing byte. *)
Lemma strncmp_sym n p q : strncmp q p n = - strncmp p q n.
Proof.
  revert p q. induction n as [|n IH]; intros p q; [done|]. cbn [strncmp].
  rewrite (Z.eqb_sym (q O)). destruct (Z.eqb_spec (p O) (q O)) as [E|E].
  - rewrite E, !andb_true_r. destruct (nz (q O)); [apply IH|lia].
  - rewrite !andb_false_r. lia.
Qed.

Lemma length_strncpy n t : length (strncpy t n) = n.
Proof.
  revert t. induction n as [|n IH]; intros t; [done|]. cbn [strncpy].
  destruct (nz (t O)); cbn; [now rewrite IH|now rewrite length_replicate].
Qed.

Lemma strncpy_shape n t :
  exists k, strncpy t n = cstr t n ++ replicate k 0 /\ (length (cstr t n) + k = n)%nat.
Proof.
  revert t. induction n as [|n IH]; intros t; [now exists O|]. cbn [strncpy cstr].
  destruct (nz (t O)).
  - destruct (IH (shift t)) as (k & -> & Hk). exists k. cbn. split; [done|lia].
  - exists (S n). done.
Qed.

Lemma shift_list_bytes c l : shift (list_bytes (c :: l)) = list_bytes l.
Proof. done. Qed.

Lemma cstr_nonzero n p : Forall (fun c => c <> 0) (cstr p n).
Proof.
  revert p. induction n as [|n IH]; intros p; cbn; [constructor|].
  destruct (nz (p O)) eqn:E; constructor; [now apply nz_true|apply IH].
Qed.

(** A zero-padded array reads back as the string stored in it. *)
Lemma cstr_padded l k n :
  Forall (fun c => c <> 0) l -> (length l + k = n)%nat ->
  cstr (list_bytes (l ++ replicate k 0)) n = l.
Proof.
  intros Hl. revert n. induction Hl as [|c l Hc Hl IH]; intros n Hn.
  - destruct n; [done|]. destruct k; cbn in *; done.
  - destruct n; [done|]. cbn [app cstr]. change (list_bytes (c :: l ++ _) O) with c.
    rewrite (proj2 (nz_true c) Hc), shift_list_bytes. f_equal. apply IH. cbn in Hn. lia.
Qed.

(** Storing a name with [strncpy] and comparing with [strncmp] (what [dirlink]
    and [dirlookup] do) finds exactly the stored name. *)
Lemma strncmp_strncpy n p t :
  strncmp p (list_bytes (strncpy t n)) n = 0 <-> cstr p n = cstr t n.
Proof.
  rewrite strncmp_zero. destruct (strncpy_shape n t) as (k & -> & Hk).
  now rewrite cstr_padded by (done || apply cstr_nonzero).
Qed.

Lemma safestrcpy_loop_spec n s t :
  (1 <= n <= length s)%nat ->
  length (safestrcpy_loop s t n) = length s /\
  (length (cstr t (n - 1)) < n)%nat /\
  take (S (length (cstr t (n - 1)))) (safestrcpy_loop s t n) = cstr t (n - 1) ++ [0] /\
  drop n (safestrcpy_loop s t n) = drop n s.
Proof.
  revert s t. induction n as [|n IH]; intros s t Hn; [lia|].
  destruct s as [|x s]; [cbn in Hn; lia|]. destruct n as [|n].
  - cbn. split_and!; try done. lia.
  - cbn [safestrcpy_loop]. replace (S (S n) - 1)%nat with (S n) by lia. cbn [cstr].
    destruct (nz (t O)) eqn:E.
    + destruct (IH s (shift t)) as (H1 & H2 & H3 & H4); [cbn in Hn; lia|].
      replace (S n - 1)%nat with n in * by lia.
      cbn [length drop]. rewrite H1. split_and!; [done|lia| |done].
      cbn [length take app]. f_equal. exact H3.
    + destruct s as [|y s]; [cbn in Hn; lia|]. cbn. split_and!; try done. lia.
Qed.

(** the string routines the file system and process names rely on.
    [strncmp] returns 0 exactly on equal strings (cut at [n] bytes) and is
    antisymmetric; a name stored with [strncpy] is found by [strncmp] iff the
    names agree up to [n] bytes; [safestrcpy] never writes outside the first
    [n] bytes, keeps the longest prefix that fits and terminates it with NUL. *)
Theorem string_routines_correct p q t s n :
  (1 <= n <= length s)%nat ->
  (strncmp p q n = 0 <-> cstr p n = cstr q n) /\
  strncmp q p n = - strncmp p q n /\
  (strncmp p (list_bytes (strncpy t n)) n = 0 <-> cstr p n = cstr t n) /\
  length (strncpy t n) = n /\
  (let r := safestrcpy s t (Z.of_nat n) in
   let c := cstr t (n - 1) in
   length r = length s /\ (length c < n)%nat /\ take (S (length c)) r = c ++ [0] /\
   drop n r = drop n s).
Proof.
  intros Hn. split_and!.
  - apply strncmp_zero.
  - apply strncmp_sym.
  - apply strncmp_strncpy.
  - apply length_strncpy.
  - unfold safestrcpy. rewrite (proj2 (Z.leb_gt _ _)), Nat2Z.id by lia.
    now apply safestrcpy_loop_spec.
Qed.

(** "init" stored in a 14-byte directory entry and as a 16-byte process name. *)
Example string_routines_correct_witness :
  (1 <= 4 <= 16)%nat /\
  strncmp (list_bytes [105; 110; 105; 116]) (list_bytes (strncpy (list_bytes [105; 110; 105; 116; 0]) 14)) 14 = 0 /\
  safestrcpy (replicate 16 7) (list_bytes [105; 110; 105; 116; 0]) 4 = [105; 110; 105; 0] ++ replicate 12 7.
Proof.
  split; [lia|]. split; [|reflexivity].
  apply (string_routines_correct (list_bytes [105; 110; 105; 116]) (list_bytes [])
           (list_bytes [105; 110; 105; 116; 0]) (replicate 16 7) 14); [cbn; lia|reflexivity].
Defined.

(** ** Words in memory *)

Definition load (m : mem) (a : Z) (n : nat) : list Z := map (fun i => m (a + Z.of_nat i)) (seq 0 n).
Definition store (m : mem) (a : Z) (bs : list Z) : mem := fun x =>
  if (a <=? x) && (x <? a + Z.of_nat (length bs)) then nth (Z.to_nat (x - a)) bs 0 else m x.

Definition load64 (m : mem) (a : Z) : Z := le_val (load m a 8).
Definition store64 (m : mem) (a v : Z) : mem := store m a (le_bytes 8 v).

Arguments load64 : simpl never.
Arguments store64 : simpl never.
Arguments store : simpl never.

Lemma length_load m a n : length (load m a n) = n.
Proof. unfold load. now rewrite length_map, length_seq. Qed.

Lemma load_ext m m' a n :
  (forall x, a <= x < a + Z.of_nat n -> m x = m' x) -> load m a n = load m' a n.
Proof.
  intros H. unfold load. apply map_ext_in. intros i Hi. apply in_seq in Hi. apply H. lia.
Qed.

Lemma store_other m a bs x :
  ~ a <= x < a + Z.of_nat (length bs) -> store m a bs x = m x.
Proof.
  intros H. unfold store.
  destruct (Z.leb_spec a x), (Z.ltb_spec x (a + Z.of_nat (length bs))); cbn; done || lia.
Qed.

Lemma load_store m a bs : load (store m a bs) a (length bs) = bs.
Proof.
  unfold load. apply nth_ext with (d := 0) (d' := 0); rewrite length_map, length_seq; [done|].
  intros n Hn. rewrite nth_indep with (d' := store m a bs (a + Z.of_nat 0)) by
    (now rewrite length_map, length_seq).
  rewrite (map_nth (fun i => store m a bs (a + Z.of_nat i))), seq_nth by done.
  unfold store. rewrite (proj2 (Z.leb_le _ _)), (proj2 (Z.ltb_lt _ _)) by lia. cbn.
  f_equal. lia.
Qed.

Lemma load64_store64 m a v : load64 (store64 m a v) a = u64 v.
Proof.
  unfold load64, store64. rewrite <- (length_le_bytes 8 v) at 2.
  rewrite load_store, le_val_le_bytes. reflexivity.
Qed.

Lemma load64_ext m m' a :
  (forall x, a <= x < a + 8 -> m x = m' x) -> load64 m a = load64 m' a.
Proof. intros H. unfold load64. f_equal. apply load_ext. exact H. Qed.

Lemma store64_other m a v x : ~ a <= x < a + 8 -> store64 m a v x = m x.
Proof. intros H. apply store_other. now rewrite length_le_bytes. Qed.

Lemma load64_store64_ne m a v b : (b + 8 <= a \/ a + 8 <= b) -> load64 (store64 m a v) b = load64 m b.
Proof. intros H. apply load64_ext. intros x Hx. apply store64_other. lia. Qed.

(** Memory whose cells are bytes. *)
Definition mem_bytes (m : mem) : Prop := forall a, is_byte (m a).

Lemma load_bytes m a n : mem_bytes m -> Forall is_byte (load m a n).
Proof. intros Hm. unfold load. apply Forall_map, Forall_true. intros. apply Hm. Qed.

Lemma load64_range m a : mem_bytes m -> 0 <= load64 m a < 2 ^ 64.
Proof.
  intros Hm. unfold load64. pose proof (le_val_range _ (load_bytes m a 8 Hm)) as H.
  now rewrite length_load in H.
Qed.

Lemma store_bytes m a bs : mem_bytes m -> Forall is_byte bs -> mem_bytes (store m a bs).
Proof.
  intros Hm Hb x. unfold store. destruct (_ && _) eqn:E; [|apply Hm].
  apply andb_true_iff in E as [E1%Z.leb_le E2%Z.ltb_lt].
  rewrite Forall_forall in Hb. apply Hb. apply list_elem_of_In, nth_In. lia.
Qed.

Lemma store64_bytes m a v : mem_bytes m -> mem_bytes (store64 m a v).
Proof. intros. apply store_bytes; [done|apply le_bytes_are_bytes]. Qed.

Lemma memset_bytes m dst c n : 0 <= n -> mem_bytes m -> mem_bytes (memset m dst c n).
Proof.
  intros Hn Hm a. rewrite memset_spec by done. case_bool_decide; [|apply Hm].
  apply Z.mod_pos_bound. lia.
Qed.

Lemma memmove_bytes m dst src n : 0 <= n -> mem_bytes m -> mem_bytes (memmove m dst src n).
Proof. intros Hn Hm a. rewrite memmove_spec by done. case_bool_decide; apply Hm. Qed.

Lemma load64_zero m a : (forall x, a <= x < a + 8 -> m x = 0) -> load64 m a = 0.
Proof.
  intros H. unfold load64, load. cbn [seq map le_val]. rewrite !H by lia. reflexivity.
Qed.

#[global] Opaque memset memmove load64 store64.
