(* ===== verification/Spinlock.v ===== *)
(** * Spin locks (kernel/spinlock.c)

    First the lock operations of one hart, with the nesting of [push_off] and
    [pop_off]; then the protocol run by any number of harts, one memory access
    at a time, and the proof that it gives mutual exclusion. *)

From stdpp Require Import base numbers list gmap strings.
From S2P Require Import Prelude Kstate.

(** ** Operations *)

Definition upd_lock (lk : lockname) (f : spinlock -> spinlock) (k : kernel) : kernel :=
  set_k_locks (fun l => if decide (l = lk) then f (k_locks k lk) else k_locks k l) k.

Definition initlock (lk : lockname) (name : string) : K unit :=
  modify (upd_lock lk (fun l => set_lk_cpu None (set_lk_locked false (set_lk_name name l)))).

Definition r_sstatus : K Z := gets (fun k => h_sstatus (k_hart k)).
Definition w_sstatus (x : Z) : K unit := modify (upd_hart (set_h_sstatus x)).

Definition intr_on : K unit :=
  let* x := r_sstatus in w_sstatus (Z.lor x SSTATUS_SIE).
Definition intr_off : K unit :=
  let* x := r_sstatus in w_sstatus (Z.land x (u64 (Z.lnot SSTATUS_SIE))).
Definition intr_get : K bool :=
  let* x := r_sstatus in ret (nz (Z.land x SSTATUS_SIE)).

Definition cpuid : K nat := gets (fun k => h_id (k_hart k)).
(** The hart record is this CPU's [struct cpu]. *)
Definition mycpu : K hart := gets k_hart.

Definition push_off : K unit :=
  let* old := intr_get in
  intr_off ;;;
  let* c := mycpu in
  when (h_noff c =? 0) (modify (upd_hart (set_h_intena old))) ;;;
  modify (upd_hart (fun h => set_h_noff (h_noff h + 1) h)).

Definition pop_off : K unit :=
  let* on := intr_get in
  if (on : bool) then panic "pop_off - interruptible" else
  let* c := mycpu in
  if h_noff c <? 1 then panic "pop_off" else
  modify (upd_hart (fun h => set_h_noff (h_noff h - 1) h)) ;;;
  let* c := mycpu in
  when ((h_noff c =? 0) && h_intena c) intr_on.

Definition holding (lk : lockname) : K bool :=
  gets (fun k =>
    let l := k_locks k lk in
    lk_locked l && bool_decide (lk_cpu l = Some (h_id (k_hart k)))).

(** When another hart holds the lock, [acquire] spins. *)
Definition acquire (lk : lockname) : K unit :=
  push_off ;;;
  let* r := holding lk in
  if (r : bool) then panic "acquire" else
  let* old := gets (fun k => lk_locked (k_locks k lk)) in
  if (old : bool) then suspend_with Spin else
  modify (upd_lock lk (set_lk_locked true)) ;;;
  let* c := mycpu in
  modify (upd_lock lk (set_lk_cpu (Some (h_id c)))).

Definition release (lk : lockname) : K unit :=
  let* r := holding lk in
  if negb r then panic "release" else
  modify (upd_lock lk (set_lk_cpu None)) ;;;
  modify (upd_lock lk (set_lk_locked false)) ;;;
  pop_off.

(** The current process, or [None]. *)
Definition myproc : K (option nat) :=
  push_off ;;;
  let* c := mycpu in
  let p := h_proc c in
  pop_off ;;;
  ret p.

(** [myproc()] dereferenced: the code that does this runs on behalf of a process. *)
Definition myproc_ix : K nat :=
  let* p := myproc in
  match p with Some i => ret i | None => panic "null proc" end.

(** ** The interrupt state *)

Definition intr_enabled (h : hart) : bool := nz (Z.land (h_sstatus h) SSTATUS_SIE).

Lemma land_SIE x : Z.land x SSTATUS_SIE = if Z.testbit x 1 then 2 else 0.
Proof.
  apply Z.bits_inj'. intros n Hn. rewrite Z.land_spec.
  change SSTATUS_SIE with (2 ^ 1). rewrite Z.pow2_bits_eqb by lia.
  destruct (Z.eqb_spec 1 n) as [<-|]; destruct (Z.testbit x 1) eqn:E;
    rewrite ?E, ?andb_true_r, ?andb_false_r, ?Z.bits_0; try done.
  - change 2 with (2 ^ 1). now rewrite Z.pow2_bits_eqb, (proj2 (Z.eqb_neq 1 n)) by lia.
Qed.

Lemma intr_enabled_bit h : intr_enabled h = Z.testbit (h_sstatus h) 1.
Proof. unfold intr_enabled. rewrite land_SIE. now destruct (Z.testbit _ _). Qed.

Definition sstatus_off (x : Z) : Z := Z.land x (u64 (Z.lnot SSTATUS_SIE)).

Lemma testbit_not_SIE n :
  0 <= n -> Z.testbit (u64 (Z.lnot SSTATUS_SIE)) n = (n <? 64) && negb (n =? 1).
Proof.
  intros Hn. unfold u64. rewrite <- Z.land_ones by lia.
  rewrite Z.land_spec, Z.lnot_spec by lia. change SSTATUS_SIE with (2 ^ 1).
  rewrite Z.pow2_bits_eqb, Z.testbit_ones_nonneg by lia.
  destruct (Z.ltb_spec n 64), (Z.eqb_spec 1 n), (Z.eqb_spec n 1); lia || done.
Qed.

Lemma sstatus_off_bit x : Z.testbit (sstatus_off x) 1 = false.
Proof. unfold sstatus_off. rewrite Z.land_spec, testbit_not_SIE by lia. apply andb_false_r. Qed.

Lemma testbit_high x n : 0 <= x < 2 ^ 64 -> 64 <= n -> Z.testbit x n = false.
Proof.
  intros Hx Hn. destruct (decide (x = 0)) as [->|]; [apply Z.bits_0|].
  apply Z.bits_above_log2; [lia|]. apply Z.log2_lt_pow2; [lia|].
  assert (2 ^ 64 <= 2 ^ n) by (apply Z.pow_le_mono_r; lia). lia.
Qed.

Lemma sstatus_off_on x :
  0 <= x < 2 ^ 64 -> Z.testbit x 1 = true -> Z.lor (sstatus_off x) SSTATUS_SIE = x.
Proof.
  intros Hx H1. apply Z.bits_inj'. intros n Hn. unfold sstatus_off.
  rewrite Z.lor_spec, Z.land_spec, testbit_not_SIE by lia.
  change SSTATUS_SIE with (2 ^ 1). rewrite Z.pow2_bits_eqb by lia.
  destruct (Z.eqb_spec 1 n) as [<-|].
  - now rewrite H1, orb_true_r.
  - rewrite (proj2 (Z.eqb_neq n 1)) by lia.
    destruct (Z.ltb_spec n 64); [now rewrite andb_true_r, orb_false_r|].
    now rewrite testbit_high by lia.
Qed.

Lemma sstatus_off_id x :
  0 <= x < 2 ^ 64 -> Z.testbit x 1 = false -> sstatus_off x = x.
Proof.
  intros Hx H1. apply Z.bits_inj'. intros n Hn. unfold sstatus_off.
  rewrite Z.land_spec, testbit_not_SIE by lia.
  destruct (Z.eqb_spec n 1) as [->|]; [now rewrite H1|].
  destruct (Z.ltb_spec n 64); [now rewrite andb_true_r|].
  now rewrite testbit_high by lia.
Qed.

(** A hart between two kernel calls: while [noff] is positive, interrupts are off. *)
Definition hart_ok (h : hart) : Prop :=
  0 <= h_noff h /\ 0 <= h_sstatus h < 2 ^ 64 /\ (0 < h_noff h -> intr_enabled h = false).

Definition pushed (h : hart) : hart :=
  mk_hart (h_id h) (h_proc h) (h_noff h + 1)
    (if h_noff h =? 0 then intr_enabled h else h_intena h)
    (sstatus_off (h_sstatus h)) (h_sepc h) (h_scause h) (h_stval h) (h_sip h)
    (h_stvec h) (h_satp h).

Definition popped (h : hart) : hart :=
  mk_hart (h_id h) (h_proc h) (h_noff h - 1) (h_intena h)
    (if (h_noff h - 1 =? 0) && h_intena h then Z.lor (h_sstatus h) SSTATUS_SIE else h_sstatus h)
    (h_sepc h) (h_scause h) (h_stval h) (h_sip h) (h_stvec h) (h_satp h).

Lemma push_off_run k : push_off k = Ok tt (upd_hart pushed k).
Proof.
  unfold push_off, bind, intr_get, r_sstatus, gets, intr_off, w_sstatus, modify, mycpu, when,
    upd_hart, pushed, intr_enabled, bind, gets, modify, ret. cbn.
  destruct k as [? [] ]. cbn. now destruct (h_noff =? 0).
Qed.

Lemma pop_off_run k :
  intr_enabled (k_hart k) = false -> 1 <= h_noff (k_hart k) ->
  pop_off k = Ok tt (upd_hart popped k).
Proof.
  intros Hi Hn. unfold pop_off, intr_get, r_sstatus, bind, gets, ret.
  unfold intr_enabled in Hi. rewrite Hi. unfold mycpu, gets.
  rewrite (proj2 (Z.ltb_ge _ _) Hn).
  unfold modify, when, intr_on, bind, r_sstatus, gets, w_sstatus, modify, ret, upd_hart, popped.
  destruct k as [? [] ]. cbn. now destruct ((h_noff - 1 =? 0) && h_intena).
Qed.

Lemma pushed_off h : intr_enabled (pushed h) = false.
Proof. rewrite intr_enabled_bit. apply sstatus_off_bit. Qed.

Lemma sstatus_off_range x : 0 <= x < 2 ^ 64 -> 0 <= sstatus_off x < 2 ^ 64.
Proof.
  intros Hx. destruct (Z.testbit x 1) eqn:E.
  - assert (Hn : 0 <= sstatus_off x).
    { unfold sstatus_off. apply Z.land_nonneg. left. lia. }
    pose proof (sstatus_off_on x Hx E) as Hs.
    assert (sstatus_off x <= Z.lor (sstatus_off x) SSTATUS_SIE); [|lia].
    apply Z.ldiff_le; [apply Z.lor_nonneg; change SSTATUS_SIE with 2; lia|].
    apply Z.bits_inj'. intros n ?. rewrite Z.ldiff_spec, Z.lor_spec, Z.bits_0.
    destruct (Z.testbit (sstatus_off x) n); simpl; rewrite ?orb_true_l; done.
  - now rewrite sstatus_off_id.
Qed.

Lemma hart_ok_pushed h : hart_ok h -> hart_ok (pushed h).
Proof.
  intros (Hn & Hs & _). split; [simpl; lia|]. split; [now apply sstatus_off_range|].
  intros _. apply pushed_off.
Qed.

(** A balanced [push_off] / [pop_off] changes nothing but [intena]. *)
Lemma popped_pushed h :
  hart_ok h ->
  popped (pushed h) =
    set_h_intena (if h_noff h =? 0 then intr_enabled h else h_intena h) h.
Proof.
  intros (Hn & Hs & Hoff). unfold popped, pushed, set_h_intena. cbn.
  replace (h_noff h + 1 - 1) with (h_noff h) by lia.
  f_equal. destruct (Z.eqb_spec (h_noff h) 0) as [E|E]; cbn.
  - destruct (intr_enabled h) eqn:Ei; rewrite intr_enabled_bit in Ei.
    + now apply sstatus_off_on.
    + now apply sstatus_off_id.
  - apply sstatus_off_id; [done|]. rewrite <- intr_enabled_bit. apply Hoff. lia.
Qed.

(** ** Nesting of [push_off] and [pop_off] *)

Fixpoint repeat_op (n : nat) (m : K unit) : K unit :=
  match n with O => ret tt | S n' => m ;;; repeat_op n' m end.

Lemma repeat_op_last n m k k1 k2 :
  repeat_op n m k = Ok tt k1 -> m k1 = Ok tt k2 -> repeat_op (S n) m k = Ok tt k2.
Proof.
  revert k. induction n as [|n IH]; intros k H1 H2.
  - injection H1 as ->. simpl. unfold bind. rewrite H2. done.
  - simpl in H1. unfold bind in H1. destruct (m k) as [[] k'| |] eqn:E; try done.
    cbn [repeat_op]. kstep E. now apply IH.
Qed.

(** What [n] balanced pairs leave in [intena]. *)
Definition intena_after (n : nat) (h : hart) : bool :=
  if (0 <? n)%nat && (h_noff h =? 0) then intr_enabled h else h_intena h.

Lemma push_pop_run n k :
  hart_ok (k_hart k) ->
  exists k1,
    repeat_op n push_off k = Ok tt k1 /\
    h_noff (k_hart k1) = h_noff (k_hart k) + Z.of_nat n /\
    ((0 < n)%nat -> intr_enabled (k_hart k1) = false) /\
    repeat_op n pop_off k1 = Ok tt (upd_hart (fun h => set_h_intena (intena_after n h) h) k).
Proof.
  revert k. induction n as [|n IH]; intros k Hk.
  - exists k. simpl. repeat split; try done; try lia.
    destruct k as [? [] ]. done.
  - destruct (IH (upd_hart pushed k)) as (k1 & H1 & Hn & Hoff & H2); [now apply hart_ok_pushed|].
    assert (Hk' := Hk). destruct Hk' as [Hn0 _].
    exists k1. split_and!.
    + simpl. kstep (push_off_run k). exact H1.
    + rewrite Hn. simpl. lia.
    + intros _. destruct n; [injection H1 as <-; apply (pushed_off (k_hart k))|apply Hoff; lia].
    + eapply repeat_op_last; [exact H2|].
      rewrite pop_off_run by (simpl; apply (pushed_off (k_hart k)) || (simpl; lia)).
      unfold upd_hart. cbn [k_hart set_k_hart]. f_equal.
      unfold intena_after at 1. cbn [pushed h_noff].
      rewrite (proj2 (Z.eqb_neq (h_noff (k_hart k) + 1) 0)) by lia. rewrite andb_false_r.
      assert (E : set_h_intena (h_intena (pushed (k_hart k))) (pushed (k_hart k)) = pushed (k_hart k))
        by now destruct (k_hart k).
      rewrite E, popped_pushed by done. now destruct k.
Qed.

(** [push_off] and [pop_off] are matched.  After [n] calls of [push_off]
    interrupts are off and the depth has grown by [n]; after [n] calls of
    [pop_off] no call has panicked, the depth is back and the interrupt-enable
    state is exactly what it was, whether interrupts were on or off before. *)
Theorem push_pop_matched n k :
  hart_ok (k_hart k) ->
  wp (repeat_op n push_off) (fun _ k1 =>
      h_noff (k_hart k1) = h_noff (k_hart k) + Z.of_nat n /\
      ((0 < n)%nat -> intr_enabled (k_hart k1) = false) /\
      wp (repeat_op n pop_off) (fun _ k2 =>
          h_noff (k_hart k2) = h_noff (k_hart k) /\
          h_sstatus (k_hart k2) = h_sstatus (k_hart k)) k1) k.
Proof.
  intros Hk. destruct (push_pop_run n k Hk) as (k1 & H1 & Hn & Hoff & H2).
  unfold wp at 1. rewrite H1. split_and!; [done..|].
  unfold wp. rewrite H2. now destruct k as [? [] ].
Qed.

Lemma boot_hart_ok : hart_ok (k_hart boot_state).
Proof. repeat split; cbn; lia || done. Qed.

Example push_pop_matched_witness :
  hart_ok (k_hart boot_state) /\
  wp (repeat_op 3 push_off) (fun _ k1 =>
      h_noff (k_hart k1) = 3 /\
      ((0 < 3)%nat -> intr_enabled (k_hart k1) = false) /\
      wp (repeat_op 3 pop_off) (fun _ k2 =>
          h_noff (k_hart k2) = 0 /\ h_sstatus (k_hart k2) = 0) k1) boot_state.
Proof. split; [exact boot_hart_ok|]. exact (push_pop_matched 3 boot_state boot_hart_ok). Defined.

(** ** Acquire and release *)

Definition lock_free (lk : lockname) (k : kernel) : Prop := lk_locked (k_locks k lk) = false.
Definition held_here (lk : lockname) (k : kernel) : Prop :=
  lk_locked (k_locks k lk) = true /\ lk_cpu (k_locks k lk) = Some (h_id (k_hart k)).

Definition acquired (lk : lockname) (k : kernel) : kernel :=
  upd_lock lk (set_lk_cpu (Some (h_id (k_hart k))))
    (upd_lock lk (set_lk_locked true) (upd_hart pushed k)).
Definition released (lk : lockname) (k : kernel) : kernel :=
  upd_hart popped (upd_lock lk (set_lk_locked false) (upd_lock lk (set_lk_cpu None) k)).

Lemma upd_lock_lookup lk f k l :
  k_locks (upd_lock lk f k) l = if decide (l = lk) then f (k_locks k lk) else k_locks k l.
Proof. done. Qed.

(** Two states that differ only in lock bookkeeping no one can observe: the
    [intena] field while no lock is held (then it is dead), and the [cpu] field
    of locks that are not held. *)
Definition noise (k k' : kernel) : Prop :=
  exists b l,
    k' = set_k_hart (set_h_intena b (k_hart k)) (set_k_locks l k) /\
    (h_noff (k_hart k) = 0 \/ b = h_intena (k_hart k)) /\
    forall x, lk_locked (l x) = lk_locked (k_locks k x) /\
              (lk_locked (l x) = true -> l x = k_locks k x).

Lemma noise_refl k : noise k k.
Proof.
  exists (h_intena (k_hart k)), (k_locks k). split; [|auto].
  now destruct k as [? [] ].
Qed.

Lemma noise_trans k1 k2 k3 : noise k1 k2 -> noise k2 k3 -> noise k1 k3.
Proof.
  intros (b1 & l1 & -> & Hb1 & H1) (b2 & l2 & -> & Hb2 & H2). exists b2, l2. split; [done|].
  cbn in Hb2, H2. split; [destruct Hb1, Hb2; subst; auto|].
  intros x. destruct (H1 x) as [Ha Hb], (H2 x) as [Hc Hd]. split; [congruence|].
  intros Ht. rewrite Hd by done. apply Hb. congruence.
Qed.

#[export] Instance noise_preorder : PreOrder noise.
Proof. split; [exact noise_refl|exact noise_trans]. Qed.

(** Everything else is the same. *)
Lemma noise_eq {A} (f : kernel -> A) k k' :
  (forall k b l, f (set_k_hart (set_h_intena b (k_hart k)) (set_k_locks l k)) = f k) ->
  noise k k' -> f k' = f k.
Proof. intros Hf (b & l & -> & _). apply Hf. Qed.

(** Updates that do not look at locks or at the hart commute with it. *)
Lemma noise_update (f : kernel -> kernel) k k' :
  (forall k b l, f (set_k_hart (set_h_intena b (k_hart k)) (set_k_locks l k)) =
                 set_k_hart (set_h_intena b (k_hart k)) (set_k_locks l (f k))) ->
  (forall k, k_hart (f k) = k_hart k) -> (forall k, k_locks (f k) = k_locks k) ->
  noise k k' -> noise (f k) (f k').
Proof.
  intros Hf Hh Hl (b & l & -> & Hb & H). exists b, l. rewrite Hf, !Hh, Hl. done.
Qed.

Lemma noise_hart_ok k k' : noise k k' -> hart_ok (k_hart k) -> hart_ok (k_hart k').
Proof. now intros (b & l & -> & _). Qed.

Lemma noise_free lk k k' : noise k k' -> lock_free lk k -> lock_free lk k'.
Proof. intros (b & l & -> & _ & H) Hf. unfold lock_free in *. cbn. now rewrite (proj1 (H lk)). Qed.

Lemma noise_held lk k k' : noise k k' -> held_here lk k -> held_here lk k'.
Proof.
  intros (b & l & -> & _ & H) [Hl Hc]. destruct (H lk) as [Ha Hb]. split; cbn; [congruence|].
  rewrite Hb by congruence. exact Hc.
Qed.

(** A state is [ready] when the hart's nesting depth is consistent. *)
Definition ready (k : kernel) : Prop := hart_ok (k_hart k).

(** No spin lock is held. *)
Definition quiet (k : kernel) : Prop := ready k /\ forall lk, lock_free lk k.

Lemma noise_quiet k k' : noise k k' -> quiet k -> quiet k'.
Proof. intros Hn [H1 H2]. split; [eapply noise_hart_ok; eauto|]. intros lk. eapply noise_free; eauto. Qed.

Lemma holding_spec lk k :
  holding lk k = Ok (bool_decide (held_here lk k)) k.
Proof.
  unfold holding, gets, held_here. f_equal.
  destruct (lk_locked (k_locks k lk)); cbn; [|now rewrite bool_decide_false by naive_solver].
  apply bool_decide_ext. naive_solver.
Qed.

Lemma acquire_run lk k : lock_free lk k -> acquire lk k = Ok tt (acquired lk k).
Proof.
  intros Hf. unfold acquire. kstep (push_off_run k). kstep (holding_spec lk (upd_hart pushed k)).
  unfold lock_free in Hf. rewrite bool_decide_false by (intros [H _]; cbn in H; congruence).
  unfold bind, gets, mycpu, modify. change (k_locks (upd_hart pushed k) lk) with (k_locks k lk).
  now rewrite Hf.
Qed.

Lemma release_run lk k :
  held_here lk k -> intr_enabled (k_hart k) = false -> 1 <= h_noff (k_hart k) ->
  release lk k = Ok tt (released lk k).
Proof.
  intros Hh Hi Hn. unfold release. kstep (holding_spec lk k).
  rewrite bool_decide_true by done. cbn [negb]. unfold bind, modify. now apply pop_off_run.
Qed.

Lemma acquired_lookup lk k l :
  k_locks (acquired lk k) l =
    if decide (l = lk) then mk_spinlock true (lk_name (k_locks k lk)) (Some (h_id (k_hart k)))
    else k_locks k l.
Proof. unfold acquired. rewrite upd_lock_lookup. case_decide; [|cbn; now rewrite decide_False].
  subst. rewrite upd_lock_lookup, decide_True by done. done. Qed.

Lemma acquired_held lk k : held_here lk (acquired lk k).
Proof. unfold held_here. rewrite acquired_lookup, decide_True by done. done. Qed.

Lemma released_lookup lk k l :
  k_locks (released lk k) l =
    if decide (l = lk) then mk_spinlock false (lk_name (k_locks k lk)) None else k_locks k l.
Proof. unfold released, upd_hart. cbn [k_locks set_k_hart]. rewrite !upd_lock_lookup.
  repeat case_decide; try done; try congruence. Qed.

(** The state with the lock bookkeeping of [k] and everything else of [k']. *)
Definition relock (k k' : kernel) : kernel :=
  set_k_hart (k_hart k) (set_k_locks (k_locks k) k').

Lemma acquired_free lk l k : l <> lk -> lock_free l k -> lock_free l (acquired lk k).
Proof. intros Hne Hf. unfold lock_free. rewrite acquired_lookup, decide_False by done. exact Hf. Qed.

Lemma acquired_ready lk k : ready k -> ready (acquired lk k).
Proof. apply hart_ok_pushed. Qed.

(** A critical section: between [acquire lk] and [release lk] the code changes the
    state from [acquired lk k] to [k1], up to lock bookkeeping; the lock and the
    hart are then as before. *)
Lemma release_noise lk k k1 k' :
  ready k -> lock_free lk k ->
  k_hart k1 = k_hart (acquired lk k) -> k_locks k1 = k_locks (acquired lk k) -> noise k1 k' ->
  exists k'', release lk k' = Ok tt k'' /\ noise (relock k k1) k''.
Proof.
  intros Hr Hf Hh Hl Hn. exists (released lk k'). split.
  - pose proof (acquired_held lk k) as Hheld.
    assert (Hheld1 : held_here lk k1) by (unfold held_here; rewrite Hl, Hh; exact Hheld).
    assert (E : h_noff (k_hart k') = h_noff (k_hart k) + 1 /\ h_sstatus (k_hart k') = h_sstatus (pushed (k_hart k)))
      by (destruct Hn as (b & l & -> & _); cbn; now rewrite Hh).
    destruct E as [En Es]. apply release_run; [exact (noise_held _ _ _ Hn Hheld1)| |destruct Hr as [? _]; lia].
    unfold intr_enabled. rewrite Es. apply (pushed_off (k_hart k)).
  - destruct Hn as (b & l & -> & Hb & Hl').
    eexists (h_intena (popped (pushed (k_hart k)))), (k_locks (released lk _)). split; [|split].
    + unfold released, relock, upd_hart. cbn [k_hart k_locks set_k_hart set_k_locks upd_lock].
      assert (Hb' : b = h_intena (k_hart k1)).
      { destruct Hb as [Hz|]; [|done]. rewrite Hh in Hz. destruct Hr as [? _]. cbn in Hz. lia. }
      subst b. rewrite Hh. cbn [k_hart acquired upd_lock set_k_locks upd_hart set_k_hart].
      assert (E : set_h_intena (h_intena (pushed (k_hart k))) (pushed (k_hart k)) = pushed (k_hart k))
        by now destruct (k_hart k).
      rewrite E, popped_pushed by done. cbn. now destruct k1.
    + cbn. unfold popped, pushed. cbn. destruct (Z.eqb_spec (h_noff (k_hart k)) 0); auto.
    + intros x. rewrite released_lookup. cbn. destruct (Hl' x) as [H1 H2]. rewrite Hl in H1, H2.
      rewrite acquired_lookup in H1, H2. repeat case_decide; subst; cbn in *; [now rewrite Hf|auto].
Qed.

(** The same when the body changes nothing of the locks at all. *)
Lemma release_section lk k k' :
  ready k -> lock_free lk k ->
  k_hart k' = k_hart (acquired lk k) -> k_locks k' = k_locks (acquired lk k) ->
  exists k'', release lk k' = Ok tt k'' /\ noise (relock k k') k''.
Proof. intros Hr Hf Hh Hl. apply (release_noise lk k k' k'); [done..|apply noise_refl]. Qed.

Lemma wp_acquire lk k Q : lock_free lk k -> Q tt (acquired lk k) -> wp (acquire lk) Q k.
Proof. intros Hf HQ. unfold wp. now rewrite (acquire_run lk k Hf). Qed.

Lemma wp_release lk k k1 k' Q :
  ready k -> lock_free lk k ->
  k_hart k1 = k_hart (acquired lk k) -> k_locks k1 = k_locks (acquired lk k) -> noise k1 k' ->
  (forall k'', noise (relock k k1) k'' -> Q tt k'') -> wp (release lk) Q k'.
Proof.
  intros Hr Hf Hh Hl Hn HQ. destruct (release_noise lk k k1 k' Hr Hf Hh Hl Hn) as (k'' & E & Hn').
  unfold wp. rewrite E. now apply HQ.
Qed.

Lemma wp_critical {A B} lk (body : K A) (cont : A -> K B) Q k :
  ready k -> lock_free lk k ->
  wp body (fun a k' =>
      k_hart k' = k_hart (acquired lk k) /\ k_locks k' = k_locks (acquired lk k) /\
      forall k'', noise (relock k k') k'' -> wp (cont a) Q k'') (acquired lk k) ->
  wp (acquire lk ;;; (let* a := body in release lk ;;; cont a)) Q k.
Proof.
  intros Hr Hf Hb. unfold wp at 1. kstep (acquire_run lk k Hf).
  change (wp (let* a := body in release lk ;;; cont a) Q (acquired lk k)).
  apply wp_bind. eapply wp_mono; [exact Hb|]. intros a k' (Hh & Hl & Hc).
  destruct (release_section lk k k' Hr Hf Hh Hl) as (k'' & Hrel & Hnoise).
  unfold wp. kstep Hrel. now apply Hc.
Qed.

Lemma myproc_run k :
  ready k -> exists k', myproc k = Ok (h_proc (k_hart k)) k' /\ noise k k'.
Proof.
  intros Hr. assert (Hp := popped_pushed (k_hart k) Hr).
  exists (upd_hart popped (upd_hart pushed k)). split.
  - unfold myproc. kstep (push_off_run k). unfold bind at 1, mycpu, gets.
    assert (E : pop_off (upd_hart pushed k) = Ok tt (upd_hart popped (upd_hart pushed k))).
    { apply pop_off_run; [apply (pushed_off (k_hart k))|]. destruct Hr as [? _]. simpl. lia. }
    kstep E. done.
  - eexists _, (k_locks k). split; [unfold upd_hart; cbn [k_hart set_k_hart]; rewrite Hp; now destruct k|].
    split; [|auto]. destruct (Z.eqb_spec (h_noff (k_hart k)) 0); auto.
Qed.

Lemma wp_myproc {B} (cont : nat -> K B) Q p k :
  ready k -> h_proc (k_hart k) = Some p ->
  (forall k', noise k k' -> wp (cont p) Q k') ->
  wp (let* i := myproc_ix in cont i) Q k.
Proof.
  intros Hr Hp Hc. destruct (myproc_run k Hr) as (k' & E & Hn). rewrite Hp in E.
  unfold wp, myproc_ix, bind. rewrite E. cbn. now apply Hc.
Qed.

(** C38: the contract of [acquire] and [release].  Acquiring a free lock turns
    interrupts off and makes this hart its holder; a second [acquire] by the
    same hart panics instead of deadlocking; [release] frees the lock, leaves
    every other lock alone and restores the interrupt state.  While this hart
    holds the lock any other hart that acquires it spins; a release of the
    lock by another hart, or of a free lock, panics. *)
Theorem acquire_release_contract lk k :
  ready k -> lock_free lk k ->
  wp (acquire lk) (fun _ k1 =>
      held_here lk k1 /\ intr_enabled (k_hart k1) = false /\
      (exists k', acquire lk k1 = Panic "acquire" k') /\
      (forall h, h_id h <> h_id (k_hart k1) ->
         (exists k', acquire lk (set_k_hart h k1) = Susp Spin k') /\ exists k', release lk (set_k_hart h k1) = Panic "release" k') /\
      wp (release lk) (fun _ k2 =>
          lock_free lk k2 /\
          (forall l, l <> lk -> k_locks k2 l = k_locks k l) /\
          h_sstatus (k_hart k2) = h_sstatus (k_hart k) /\
          h_noff (k_hart k2) = h_noff (k_hart k) /\
          exists k', release lk k2 = Panic "release" k') k1) k.
Proof.
  intros Hr Hf. unfold wp at 1. rewrite acquire_run by done.
  pose proof (acquired_held lk k) as Hh. split_and!; [done|apply (pushed_off (k_hart k))|..].
  - eexists. unfold acquire. kstep (push_off_run (acquired lk k)).
    kstep (holding_spec lk (upd_hart pushed (acquired lk k))).
    rewrite bool_decide_true by exact Hh. reflexivity.
  - intros h Hne. assert (Hno : forall k', k_locks k' = k_locks (acquired lk k) -> h_id (k_hart k') = h_id h -> ~ held_here lk k').
    { intros k' El Eh [_ H]. rewrite El, Eh in H. destruct Hh as [_ Hh]. rewrite H in Hh. injection Hh. congruence. }
    split; eexists; [unfold acquire; kstep (push_off_run (set_k_hart h (acquired lk k)))|unfold release].
    + kstep (holding_spec lk (upd_hart pushed (set_k_hart h (acquired lk k)))). rewrite bool_decide_false by now apply Hno.
      unfold bind at 1, gets. change (k_locks (upd_hart pushed (set_k_hart h (acquired lk k))) lk) with (k_locks (acquired lk k) lk). rewrite (proj1 Hh). reflexivity.
    + kstep (holding_spec lk (set_k_hart h (acquired lk k))). rewrite bool_decide_false by now apply Hno. reflexivity.
  - assert (Hrel : release lk (acquired lk k) = Ok tt (released lk (acquired lk k))).
    { apply release_run; [done|apply (pushed_off (k_hart k))|]. destruct Hr as [? _]. simpl. lia. }
    assert (Hp : k_hart (released lk (acquired lk k)) = popped (pushed (k_hart k))) by done.
    unfold wp. rewrite Hrel, Hp, popped_pushed by done. split_and!; try done.
    + unfold lock_free. now rewrite released_lookup, decide_True.
    + intros l Hl. rewrite released_lookup, decide_False by done. now rewrite acquired_lookup, decide_False by done.
    + eexists. unfold release. kstep (holding_spec lk (released lk (acquired lk k))).
      rewrite bool_decide_false; [reflexivity|]. intros [H _].
      now rewrite released_lookup, decide_True in H.
Qed.

Example acquire_release_contract_witness :
  ready boot_state /\ lock_free LK_kmem boot_state /\
  wp (acquire LK_kmem) (fun _ k1 => held_here LK_kmem k1) boot_state.
Proof.
  split; [exact boot_hart_ok|]. split; [reflexivity|].
  eapply wp_mono; [exact (acquire_release_contract LK_kmem boot_state boot_hart_ok eq_refl)|].
  intros [] k1 [H _]. exact H.
Defined.

(** ** The lock protocol of many harts

    Each hart executes [acquire] and [release] on one lock; a step is one
    access to the lock's memory.  Other harts may take any number of steps in
    between. *)
Module Protocol.

(** Where a hart is. *)
Inductive pc :=
  | Outside                  (* not using the lock *)
  | AcqLocked | AcqCpu       (* holding() in acquire: reads locked, then cpu *)
  | AcqSwap                  (* __sync_lock_test_and_set, spinning *)
  | AcqSet                   (* lk->cpu = mycpu() *)
  | Inside                   (* the critical section *)
  | RelLocked | RelCpu       (* holding() in release *)
  | RelClear                 (* lk->cpu = 0 *)
  | RelUnlock                (* __sync_lock_release *)
  | Panicked.

#[export] Instance pc_eq_dec : EqDecision pc.
Proof. solve_decision. Defined.

Record state := mk_state { locked : bool; cpu : option nat; at_pc : nat -> pc }.

Definition goto (s : state) (h : nat) (p : pc) : nat -> pc :=
  fun h' => if decide (h' = h) then p else at_pc s h'.

(** One step of hart [h]. *)
Inductive step (h : nat) : state -> state -> Prop :=
  | S_enter s : at_pc s h = Outside ->
      step h s (mk_state (locked s) (cpu s) (goto s h AcqLocked))
  | S_acq_locked s : at_pc s h = AcqLocked ->
      step h s (mk_state (locked s) (cpu s)
                  (goto s h (if locked s then AcqCpu else AcqSwap)))
  | S_acq_cpu s : at_pc s h = AcqCpu ->
      step h s (mk_state (locked s) (cpu s)
                  (goto s h (if bool_decide (cpu s = Some h) then Panicked else AcqSwap)))
  | S_swap s : at_pc s h = AcqSwap ->
      step h s (mk_state true (cpu s) (goto s h (if locked s then AcqSwap else AcqSet)))
  | S_set s : at_pc s h = AcqSet ->
      step h s (mk_state (locked s) (Some h) (goto s h Inside))
  | S_leave s : at_pc s h = Inside ->
      step h s (mk_state (locked s) (cpu s) (goto s h RelLocked))
  | S_rel_locked s : at_pc s h = RelLocked ->
      step h s (mk_state (locked s) (cpu s)
                  (goto s h (if locked s then RelCpu else Panicked)))
  | S_rel_cpu s : at_pc s h = RelCpu ->
      step h s (mk_state (locked s) (cpu s)
                  (goto s h (if bool_decide (cpu s = Some h) then RelClear else Panicked)))
  | S_clear s : at_pc s h = RelClear ->
      step h s (mk_state (locked s) None (goto s h RelUnlock))
  | S_unlock s : at_pc s h = RelUnlock ->
      step h s (mk_state false (cpu s) (goto s h Outside)).

(** The step of hart [h] as a function. *)
Definition exec (s : state) (h : nat) : state :=
  match at_pc s h with
  | Outside => mk_state (locked s) (cpu s) (goto s h AcqLocked)
  | AcqLocked => mk_state (locked s) (cpu s) (goto s h (if locked s then AcqCpu else AcqSwap))
  | AcqCpu => mk_state (locked s) (cpu s)
                (goto s h (if bool_decide (cpu s = Some h) then Panicked else AcqSwap))
  | AcqSwap => mk_state true (cpu s) (goto s h (if locked s then AcqSwap else AcqSet))
  | AcqSet => mk_state (locked s) (Some h) (goto s h Inside)
  | Inside => mk_state (locked s) (cpu s) (goto s h RelLocked)
  | RelLocked => mk_state (locked s) (cpu s) (goto s h (if locked s then RelCpu else Panicked))
  | RelCpu => mk_state (locked s) (cpu s)
                (goto s h (if bool_decide (cpu s = Some h) then RelClear else Panicked))
  | RelClear => mk_state (locked s) None (goto s h RelUnlock)
  | RelUnlock => mk_state false (cpu s) (goto s h Outside)
  | Panicked => s
  end.

Lemma exec_step s h : at_pc s h <> Panicked -> step h s (exec s h).
Proof. intros Hp. unfold exec. destruct (at_pc s h) eqn:E; try done; now constructor. Qed.

(** After [initlock], no hart has started. *)
Definition init : state := mk_state false None (fun _ => Outside).

Inductive reachable : state -> Prop :=
  | R_init : reachable init
  | R_step s h s' : reachable s -> step h s s' -> reachable s'.

(** The hart owns the lock word / has its name in [lk->cpu]. *)
Definition owns (p : pc) : bool :=
  match p with
  | AcqSet | Inside | RelLocked | RelCpu | RelClear | RelUnlock => true
  | _ => false
  end.
Definition named (p : pc) : bool :=
  match p with Inside | RelLocked | RelCpu | RelClear => true | _ => false end.

Record inv (s : state) : Prop := {
  inv_locked : forall h, owns (at_pc s h) = true -> locked s = true;
  inv_unique : forall h h', owns (at_pc s h) = true -> owns (at_pc s h') = true -> h = h';
  inv_named : forall h, named (at_pc s h) = true <-> cpu s = Some h;
  inv_safe : forall h, at_pc s h <> Panicked }.

Lemma goto_at s h p : goto s h p h = p.
Proof. unfold goto. now rewrite decide_True. Qed.

Lemma goto_other s h p h' : h' <> h -> goto s h p h' = at_pc s h'.
Proof. intros. unfold goto. now rewrite decide_False. Qed.

(** The invariant depends on a hart's position only through [owns] and
    [named]: a step that keeps both, and the lock, keeps the invariant. *)
Lemma inv_move s h p :
  inv s -> owns p = owns (at_pc s h) -> named p = named (at_pc s h) -> p <> Panicked ->
  inv (mk_state (locked s) (cpu s) (goto s h p)).
Proof.
  intros [Hl Hu Hn Hp] Ho Hnm Hne.
  assert (Eo : forall h', owns (goto s h p h') = owns (at_pc s h')).
  { intros h'. destruct (decide (h' = h)) as [->|]; [now rewrite goto_at|now rewrite goto_other]. }
  assert (En : forall h', named (goto s h p h') = named (at_pc s h')).
  { intros h'. destruct (decide (h' = h)) as [->|]; [now rewrite goto_at|now rewrite goto_other]. }
  split; cbn; intros h'.
  - rewrite Eo. apply Hl.
  - intros h''. rewrite !Eo. apply Hu.
  - rewrite En. apply Hn.
  - destruct (decide (h' = h)) as [->|]; [now rewrite goto_at|now rewrite goto_other].
Qed.

(** A state is described by its owner, if it has one. *)
Lemma inv_of_owner s (o : option (nat * pc)) :
  (forall h p, o = Some (h, p) -> at_pc s h = p /\ owns p = true /\ locked s = true /\
               cpu s = if named p then Some h else None) ->
  (o = None -> cpu s = None) ->
  (forall h, (forall p, o <> Some (h, p)) -> owns (at_pc s h) = false) ->
  (forall h, at_pc s h <> Panicked) ->
  inv s.
Proof.
  intros Hown Hnone Hrest Hsafe.
  assert (Honly : forall h, owns (at_pc s h) = true -> exists p, o = Some (h, p)).
  { intros h Hh. destruct o as [[h0 p0]|].
    - destruct (decide (h0 = h)) as [->|]; [eauto|].
      rewrite Hrest in Hh; [done|]. congruence.
    - rewrite Hrest in Hh; done. }
  assert (Hno : forall p, named p = true -> owns p = true) by now intros [].
  split.
  - intros h Hh. destruct (Honly h Hh) as [p ->]. now destruct (Hown _ _ eq_refl).
  - intros h h' Hh Hh'. destruct (Honly h Hh) as [p E], (Honly h' Hh') as [p' E']. congruence.
  - intros h. split.
    + intros Hh. destruct (Honly h (Hno _ Hh)) as [p ->].
      destruct (Hown _ _ eq_refl) as (E & _ & _ & ->). rewrite <- E. now rewrite Hh.
    + intros Hc. destruct o as [[h0 p0]|]; [|now rewrite Hnone in Hc].
      destruct (Hown _ _ eq_refl) as (E & _ & _ & Ec). rewrite Ec in Hc.
      destruct (named p0) eqn:En; [|done]. injection Hc as ->. now rewrite E.
  - exact Hsafe.
Qed.

Lemma not_owner s h h' : inv s -> owns (at_pc s h) = true -> h' <> h -> owns (at_pc s h') = false.
Proof.
  intros [_ Hu _ _] Hh Hne. destruct (owns (at_pc s h')) eqn:E; [|done].
  exfalso. apply Hne. now apply Hu.
Qed.

Lemma goto_safe s h p h' : inv s -> p <> Panicked -> goto s h p h' <> Panicked.
Proof.
  intros Hi Hp. destruct (decide (h' = h)) as [->|].
  - now rewrite goto_at.
  - rewrite goto_other by done. apply (inv_safe _ Hi).
Qed.

(** The owner [h] moves to [p]. *)
Lemma inv_owner_moves s h p b c :
  inv s -> owns (at_pc s h) = true -> owns p = true ->
  b = true -> c = (if named p then Some h else None) ->
  inv (mk_state b c (goto s h p)).
Proof.
  intros Hi Ho Hp -> ->. apply (inv_of_owner _ (Some (h, p))); cbn.
  - intros ? ? [= <- <-]. now rewrite goto_at.
  - done.
  - intros h' Hh'. assert (h' <> h) by (intros ->; now apply (Hh' p)).
    rewrite goto_other by done. now apply (not_owner s h).
  - intros h'. apply goto_safe; [done|]. now intros ->.
Qed.

Lemma inv_step s h s' : inv s -> step h s s' -> inv s'.
Proof.
  intros Hi Hs.
  pose proof (inv_locked _ Hi h) as Hl. pose proof (inv_named _ Hi h) as Hn.
  inversion Hs as [? E|? E|? E|? E|? E|? E|? E|? E|? E|? E]; subst; rewrite E in *; cbn in Hl, Hn.
  - apply inv_move; rewrite ?E; done.
  - destruct (locked s) eqn:El; rewrite <- El; apply inv_move; rewrite ?E; done.
  - rewrite bool_decide_false by (rewrite <- Hn; done). apply inv_move; rewrite ?E; done.
  - destruct (locked s) eqn:El.
    + rewrite <- El. apply inv_move; rewrite ?E; done.
    + assert (Hnone : forall h', owns (at_pc s h') = false).
      { intros h'. destruct (owns (at_pc s h')) eqn:E'; [|done].
        pose proof (inv_locked _ Hi h' E'). congruence. }
      assert (Hc : cpu s = None).
      { destruct (cpu s) as [h'|] eqn:Ec; [|done]. apply (inv_named _ Hi) in Ec.
        specialize (Hnone h'). now destruct (at_pc s h'). }
      apply (inv_of_owner _ (Some (h, AcqSet))); cbn; try done.
      * intros ? ? [= <- <-]. now rewrite goto_at.
      * intros h' Hh'. rewrite goto_other; [apply Hnone|]. intros ->. now apply (Hh' AcqSet).
      * intros h'. now apply goto_safe.
  - apply inv_owner_moves; rewrite ?E; auto.
  - apply inv_move; rewrite ?E; done.
  - rewrite Hl by done. apply inv_owner_moves; rewrite ?E; auto. cbn. now apply Hn.
  - rewrite bool_decide_true by (now apply Hn). apply inv_move; rewrite ?E; done.
  - apply inv_owner_moves; rewrite ?E; auto.
  - assert (Hc : cpu s = None).
    { destruct (cpu s) as [h'|] eqn:Ec; [|done]. apply (inv_named _ Hi) in Ec.
      assert (h' = h) as ->; [|now rewrite E in Ec].
      apply (inv_unique _ Hi); [now destruct (at_pc s h')|now rewrite E]. }
    apply (inv_of_owner _ None); cbn; try done.
    + intros h' _. destruct (decide (h' = h)) as [->|]; [now rewrite goto_at|].
      rewrite goto_other by done. apply (not_owner s h); [done| now rewrite E|done].
    + intros h'. now apply goto_safe.
Qed.

Lemma inv_init : inv init.
Proof. split; cbn; try done. Qed.

Lemma reachable_inv s : reachable s -> inv s.
Proof. induction 1; [apply inv_init|]. eapply inv_step; eauto. Qed.

(** Any schedule of the harts is an execution. *)
Lemma schedule_reachable hs s : reachable s -> reachable (foldl exec s hs).
Proof.
  revert s. induction hs as [|h hs IH]; intros s Hs; [done|].
  apply IH. apply (R_step s h); [done|]. apply exec_step, (inv_safe _ (reachable_inv s Hs)).
Qed.

End Protocol.

(** C6: mutual exclusion.  However the harts' memory accesses interleave, at
    most one hart is inside the critical section of a lock; while a hart is
    inside, the lock word is set and names that hart; and the checks of
    [holding] inside [acquire] and [release] never panic. *)
Theorem spinlock_mutual_exclusion s :
  Protocol.reachable s ->
  (forall h h', Protocol.at_pc s h = Protocol.Inside -> Protocol.at_pc s h' = Protocol.Inside -> h = h') /\
  (forall h, Protocol.at_pc s h = Protocol.Inside ->
     Protocol.locked s = true /\ Protocol.cpu s = Some h) /\
  (forall h, Protocol.at_pc s h <> Protocol.Panicked).
Proof.
  intros Hr. pose proof (Protocol.reachable_inv s Hr) as Hi. split_and!.
  - intros h h' E E'. apply (Protocol.inv_unique _ Hi); [now rewrite E|now rewrite E'].
  - intros h E. split.
    + apply (Protocol.inv_locked _ Hi h). now rewrite E.
    + apply (Protocol.inv_named _ Hi). now rewrite E.
  - apply (Protocol.inv_safe _ Hi).
Qed.


(** A schedule after which hart 0 is inside and hart 1 spins. *)
Definition two_harts : Protocol.state :=
  foldl Protocol.exec Protocol.init [0; 1; 0; 1; 0; 1; 0; 1]%nat.

Example spinlock_mutual_exclusion_witness :
  Protocol.reachable two_harts /\ Protocol.at_pc two_harts 0 = Protocol.Inside /\
  Protocol.at_pc two_harts 1 = Protocol.AcqSwap /\
  (forall h, Protocol.at_pc two_harts h = Protocol.Inside -> h = 0%nat).
Proof.
  assert (Hr : Protocol.reachable two_harts)
    by apply Protocol.schedule_reachable, Protocol.R_init.
  split; [exact Hr|]. split; [reflexivity|]. split; [reflexivity|].
  intros h Hh. exact (proj1 (spinlock_mutual_exclusion two_harts Hr) h 0%nat Hh eq_refl).
Defined.
