(* ===== verification/Kalloc.v ===== *)
(** * The physical page allocator (kernel/kalloc.c)

    Free pages form a linked list threaded through the pages themselves: the
    first eight bytes of a free page hold the address of the next one. *)

From stdpp Require Import base numbers list gmap strings.
From S2P Require Import Prelude Kstate Kstring Spinlock.

(** ** Operations *)

Definition kfree (pa : Z) : K unit :=
  let* e := gets (fun k => sym_end (k_sym k)) in
  if negb (pa mod PGSIZE =? 0) || (pa <? e) || (PHYSTOP <=? pa) then panic "kfree" else
  (* fill with junk to catch dangling refs *)
  modify (fun k => set_k_mem (memset (k_mem k) pa 1 PGSIZE) k) ;;;
  acquire LK_kmem ;;;
  modify (fun k => set_k_mem (store64 (k_mem k) pa (k_freelist k)) k) ;;;
  modify (set_k_freelist pa) ;;;
  release LK_kmem.

Definition kalloc : K Z :=
  acquire LK_kmem ;;;
  let* r := gets k_freelist in
  when (nz r) (modify (fun k => set_k_freelist (load64 (k_mem k) r) k)) ;;;
  release LK_kmem ;;;
  when (nz r) (modify (fun k => set_k_mem (memset (k_mem k) r 5 PGSIZE) k)) ;;;
  ret r.

(** [for(; p + PGSIZE <= pa_end; p += PGSIZE) kfree(p)]; [fuel] bounds the
    number of iterations. *)
Fixpoint freerange_loop (fuel : nat) (p pa_end : Z) : K unit :=
  match fuel with
  | O => ret tt
  | S fuel' =>
      if p + PGSIZE <=? pa_end then kfree p ;;; freerange_loop fuel' (p + PGSIZE) pa_end
      else ret tt
  end.

(** No more pages fit between [pa_start] and [pa_end] than their distance divided
    by the page size, so this fuel never runs out. *)
Definition freerange (pa_start pa_end : Z) : K unit :=
  freerange_loop (Z.to_nat ((pa_end - pa_start) / PGSIZE + 1)) (PGROUNDUP pa_start) pa_end.

Definition kinit : K unit :=
  initlock LK_kmem "kmem" ;;;
  let* e := gets (fun k => sym_end (k_sym k)) in
  freerange e PHYSTOP.

(** Names the result of a bulk memory operation, so that comparing two states
    does not run it. *)
Tactic Notation "hide" constr(t) "as" ident(x) := generalize t; intros x.

(** ** The allocator's invariant *)

Definition page_ok (e p : Z) : Prop := p mod PGSIZE = 0 /\ e <= p < PHYSTOP.

(** The list of free pages that starts at [head] in memory [m]. *)
Fixpoint free_pages (m : mem) (head : Z) (l : list Z) : Prop :=
  match l with
  | [] => head = 0
  | p :: t => head = p /\ free_pages m (load64 m p) t
  end.

Record kmem_ok (k : kernel) (l : list Z) : Prop := {
  km_end : 0 < sym_end (k_sym k);
  km_list : free_pages (k_mem k) (k_freelist k) l;
  km_pages : Forall (page_ok (sym_end (k_sym k))) l;
  km_nodup : NoDup l;
  km_bytes : mem_bytes (k_mem k) }.

(** Distinct aligned pages do not overlap. *)
Lemma pages_disjoint p q x :
  p mod PGSIZE = 0 -> q mod PGSIZE = 0 -> p <> q -> q <= x < q + PGSIZE -> ~ p <= x < p + PGSIZE.
Proof.
  unfold PGSIZE. intros Hp Hq Hne Hx Hx'.
  apply Z.mod_divide in Hp; [|lia]. apply Z.mod_divide in Hq; [|lia].
  destruct Hp as [a ->], Hq as [b ->]. lia.
Qed.

(** The list survives any change of memory outside its pages. *)
Lemma free_pages_frame m m' head l :
  (forall p x, p ∈ l -> p <= x < p + PGSIZE -> m x = m' x) ->
  free_pages m head l -> free_pages m' head l.
Proof.
  revert head. induction l as [|p l IH]; intros head Hm; [done|].
  intros [-> Hl]. split; [done|]. apply IH.
  - intros q x Hq Hx. apply (Hm q); [now constructor|done].
  - rewrite <- (load64_ext m m'); [done|].
    intros x Hx. apply (Hm p); [constructor|unfold PGSIZE; lia].
Qed.

Lemma kmem_ok_noise k k' l : noise k k' -> kmem_ok k l -> kmem_ok k' l.
Proof. intros (b & lk & -> & _) [? ? ? ? ?]. now constructor. Qed.

(** The state after a successful [kfree p] / after [kalloc] with free pages [l]. *)
Definition kfree_post (p : Z) (k : kernel) : kernel :=
  set_k_freelist p (set_k_mem (store64 (memset (k_mem k) p 1 PGSIZE) p (k_freelist k)) k).
Definition kalloc_post (l : list Z) (k : kernel) : kernel :=
  match l with
  | [] => k
  | p :: _ => set_k_mem (memset (k_mem k) p 5 PGSIZE) (set_k_freelist (load64 (k_mem k) p) k)
  end.

Lemma kfree_run p k :
  ready k -> lock_free LK_kmem k -> page_ok (sym_end (k_sym k)) p ->
  exists k', kfree p k = Ok tt k' /\ noise (kfree_post p k) k'.
Proof.
  intros Hr Hf [Hp He]. unfold kfree, kfree_post. unfold bind at 1, gets.
  rewrite Hp, Z.eqb_refl, (proj2 (Z.ltb_ge _ _)), (proj2 (Z.leb_gt _ _)) by lia.
  cbn [negb orb]. unfold bind at 1, modify at 1.
  hide (memset (k_mem k) p 1 PGSIZE) as m1. set (k1 := set_k_mem m1 k).
  kstep (acquire_run LK_kmem k1 Hf). unfold bind at 1, modify at 1. unfold bind at 1, modify at 1.
  cbn [k_mem k_freelist k1 acquired upd_lock set_k_locks upd_hart set_k_hart set_k_mem].
  hide (store64 m1 p (k_freelist k)) as m2.
  destruct (release_section LK_kmem k1 (set_k_freelist p (set_k_mem m2 (acquired LK_kmem k1)))
              Hr Hf eq_refl eq_refl) as (k3 & Hrel & Hn).
  exists k3. split; [exact Hrel|exact Hn].
Qed.

Lemma kalloc_run k l :
  ready k -> lock_free LK_kmem k -> kmem_ok k l ->
  exists k', kalloc k = Ok (match l with [] => 0 | p :: _ => p end) k' /\ noise (kalloc_post l k) k'.
Proof.
  intros Hr Hf [He Hl Hp Hd Hb]. unfold kalloc. kstep (acquire_run LK_kmem k Hf).
  unfold bind at 1, gets. cbn [acquired k_freelist upd_lock set_k_locks upd_hart set_k_hart].
  destruct l as [|p l].
  - cbn in Hl. rewrite Hl. cbn [nz negb Z.eqb when]. unfold bind at 1, ret at 1.
    destruct (release_section LK_kmem k _ Hr Hf eq_refl eq_refl) as (k3 & Hrel & Hn).
    kstep Hrel. exists k3. split; [done|]. cbn. now destruct k.
  - destruct Hl as [Hl _]. rewrite Hl.
    assert (Hnz : nz p = true).
    { inversion Hp as [|? ? [Hp1 Hp2]]; subst. apply nz_true. lia. }
    rewrite Hnz. cbn [when kalloc_post]. unfold bind at 1, modify at 1.
    cbn [k_mem acquired upd_lock set_k_locks upd_hart set_k_hart].
    hide (load64 (k_mem k) p) as w.
    destruct (release_section LK_kmem k (set_k_freelist w (acquired LK_kmem k)) Hr Hf eq_refl eq_refl)
      as (k3 & Hrel & b & lk & -> & Hlk).
    kstep Hrel. unfold bind at 1, modify, ret.
    cbn [relock k_mem set_k_hart set_k_locks set_k_freelist acquired upd_lock upd_hart].
    hide (memset (k_mem k) p 5 PGSIZE) as m1. eexists. split; [reflexivity|]. exists b, lk. split; [reflexivity|exact Hlk].
Qed.

Lemma kfree_post_ok p k l :
  kmem_ok k l -> page_ok (sym_end (k_sym k)) p -> p ∉ l -> kmem_ok (kfree_post p k) (p :: l).
Proof.
  intros [He Hl Hps Hd Hb] Hp Hnin. pose proof Hp as [Hp1 Hp2].
  split; cbn; [done| |now constructor|now constructor|].
  - split; [done|]. rewrite load64_store64.
    rewrite u64_small.
    + apply (free_pages_frame (k_mem k)); [|done]. intros q x Hq Hx.
      rewrite Forall_forall in Hps. destruct (Hps q Hq) as [Hq1 _].
      assert (~ p <= x < p + PGSIZE) by (apply (pages_disjoint p q); try done; congruence).
      rewrite store64_other by (unfold PGSIZE in *; lia).
      rewrite memset_spec, bool_decide_false; done.
    + destruct l as [|q l]; [cbn in Hl; lia|]. destruct Hl as [-> _].
      inversion Hps as [|? ? [_ Hq]]; subst. unfold PHYSTOP, KERNBASE in Hq. lia.
  - apply store64_bytes, memset_bytes; done.
Qed.

Lemma kalloc_post_ok p k l : kmem_ok k (p :: l) -> kmem_ok (kalloc_post (p :: l) k) l.
Proof.
  intros [He [_ Hl] Hps Hd Hb]. inversion Hps as [|? ? [Hp1 Hp2] Hps']; subst.
  apply NoDup_cons in Hd as [Hnin Hd].
  split; cbn; [done| |done|done|now apply memset_bytes].
  apply (free_pages_frame (k_mem k)); [|done]. intros q x Hq Hx.
  rewrite Forall_forall in Hps'. destruct (Hps' q Hq) as [Hq1 _].
  rewrite memset_spec, bool_decide_false; [done| |done].
  apply (pages_disjoint p q); try done. congruence.
Qed.

Lemma wp_kalloc k l Q :
  ready k -> lock_free LK_kmem k -> kmem_ok k l ->
  (forall k', noise (kalloc_post l k) k' -> Q (match l with [] => 0 | p :: _ => p end) k') ->
  wp kalloc Q k.
Proof.
  intros Hr Hf Hk HQ. destruct (kalloc_run k l Hr Hf Hk) as (k' & E & Hn).
  unfold wp. rewrite E. now apply HQ.
Qed.

Lemma wp_kfree p k Q :
  ready k -> lock_free LK_kmem k -> page_ok (sym_end (k_sym k)) p ->
  (forall k', noise (kfree_post p k) k' -> Q tt k') -> wp (kfree p) Q k.
Proof.
  intros Hr Hf Hp HQ. destruct (kfree_run p k Hr Hf Hp) as (k' & E & Hn).
  unfold wp. rewrite E. now apply HQ.
Qed.

(** ** Any client of the allocator

    A client allocates pages and frees pages it owns, in any order. *)

Inductive alloc_op := Alloc | Free (i : nat).

Definition run_op (op : alloc_op) (owned : list Z) : K (list Z) :=
  match op with
  | Alloc => let* r := kalloc in ret (if nz r then r :: owned else owned)
  | Free i =>
      match owned !! i with
      | None => ret owned
      | Some p => kfree p ;;; ret (delete i owned)
      end
  end.

Fixpoint run_ops (ops : list alloc_op) (owned : list Z) : K (list Z) :=
  match ops with
  | [] => ret owned
  | op :: t => let* o := run_op op owned in run_ops t o
  end.

(** The allocator and its client: [l] free, [o] owned, nothing shared. *)
Record pages_split (e : Z) (k : kernel) (l o : list Z) : Prop := {
  ps_ready : ready k;
  ps_lock : lock_free LK_kmem k;
  ps_end : sym_end (k_sym k) = e;
  ps_free : kmem_ok k l;
  ps_pages : Forall (page_ok e) (l ++ o);
  ps_nodup : NoDup (l ++ o) }.

Lemma run_op_split op e k l o :
  pages_split e k l o ->
  wp (run_op op o) (fun o' k' => exists l', pages_split e k' l' o' /\ l' ++ o' ≡ₚ l ++ o) k.
Proof.
  intros [Hr Hf <- Hk Hp Hd]. destruct op as [|i]; cbn [run_op].
  - apply wp_bind. apply (wp_kalloc k l); [done..|]. intros k' Hn.
    destruct l as [|p l]; apply wp_ret.
    + exists []. split; [|done]. split; try done.
      * exact (noise_hart_ok _ _ Hn Hr).
      * exact (noise_free _ _ _ Hn Hf).
      * now destruct Hn as (b & lk & -> & _).
      * exact (kmem_ok_noise _ _ _ Hn Hk).
    + assert (Hnz : nz p = true).
      { inversion Hp as [|? ? [_ ?]]; subst. destruct Hk. apply nz_true. lia. }
      rewrite Hnz. exists l.
      assert (Hperm : l ++ p :: o ≡ₚ (p :: l) ++ o) by (cbn; now rewrite Permutation_middle).
      split; [|done]. split.
      * exact (noise_hart_ok _ _ Hn Hr).
      * exact (noise_free _ _ _ Hn Hf).
      * now destruct Hn as (b & lk & -> & _).
      * apply (kmem_ok_noise _ _ _ Hn), kalloc_post_ok, Hk.
      * now rewrite Hperm.
      * now rewrite Hperm.
  - destruct (o !! i) as [p|] eqn:E; [|apply wp_ret; exists l; now split].
    assert (Ho : o ≡ₚ p :: delete i o) by now apply delete_Permutation.
    assert (Hperm : (p :: l) ++ delete i o ≡ₚ l ++ o)
      by (transitivity (l ++ p :: delete i o); [cbn; now rewrite Permutation_middle|now rewrite <- Ho]).
    assert (Hpage : page_ok (sym_end (k_sym k)) p).
    { rewrite Forall_forall in Hp. apply Hp, elem_of_app. right. apply list_elem_of_lookup. eauto. }
    assert (Hnin : p ∉ l).
    { rewrite <- Hperm in Hd. cbn in Hd. apply NoDup_cons in Hd as [Hd _]. set_solver. }
    apply wp_bind. apply wp_kfree; [done..|]. intros k' Hn. apply wp_ret.
    exists (p :: l). split; [|done]. split.
    * exact (noise_hart_ok _ _ Hn Hr).
    * exact (noise_free _ _ _ Hn Hf).
    * now destruct Hn as (b & lk & -> & _).
    * apply (kmem_ok_noise _ _ _ Hn), kfree_post_ok; done.
    * now rewrite Hperm.
    * now rewrite Hperm.
Qed.

(** C18: the page allocator never hands out a page twice, never loses one and
    never panics on its clients.  For every sequence of allocations and frees
    of owned pages, the free list stays a well-formed list of distinct aligned
    pages inside [end, PHYSTOP), disjoint from the pages the client owns, and
    free and owned pages together are always the same set of pages. *)
Theorem allocator_conserves_pages ops e k l o :
  pages_split e k l o ->
  wp (run_ops ops o) (fun o' k' => exists l', pages_split e k' l' o' /\ l' ++ o' ≡ₚ l ++ o) k.
Proof.
  revert k l o. induction ops as [|op ops IH]; intros k l o Hs; cbn [run_ops].
  - apply wp_ret. now exists l.
  - apply wp_bind. eapply wp_mono; [apply run_op_split; exact Hs|].
    intros o1 k1 (l1 & Hs1 & Hp1). eapply wp_mono; [apply (IH _ l1); exact Hs1|].
    intros o2 k2 (l2 & Hs2 & Hp2). exists l2. split; [done|]. now rewrite Hp2.
Qed.

(** ** Rounding to pages *)

Lemma land_page_mask x :
  0 <= x < 2 ^ 64 -> Z.land x (u64 (Z.lnot (PGSIZE - 1))) = x / PGSIZE * PGSIZE.
Proof.
  intros Hx. change PGSIZE with (2 ^ 12).
  rewrite <- Z.shiftr_div_pow2, <- Z.shiftl_mul_pow2 by lia.
  apply Z.bits_inj'. intros n Hn. rewrite Z.land_spec. unfold u64.
  rewrite <- Z.land_ones by lia. rewrite Z.land_spec, Z.lnot_spec, Z.testbit_ones_nonneg by lia.
  change (2 ^ 12 - 1) with (Z.ones 12). rewrite Z.testbit_ones_nonneg by lia.
  rewrite Z.shiftl_spec by lia. destruct (Z.ltb_spec n 12); cbn.
  - rewrite andb_false_r. now rewrite Z.testbit_neg_r by lia.
  - rewrite Z.shiftr_spec by lia. replace (n - 12 + 12) with n by lia.
    destruct (Z.ltb_spec n 64); [now rewrite andb_true_r|].
    now rewrite testbit_high by lia.
Qed.

Lemma PGROUNDDOWN_eq a : 0 <= a < 2 ^ 64 -> PGROUNDDOWN a = a / PGSIZE * PGSIZE.
Proof. intros. unfold PGROUNDDOWN. rewrite u64_small by done. now apply land_page_mask. Qed.

Lemma PGROUNDUP_eq a :
  0 <= a < 2 ^ 64 - PGSIZE -> PGROUNDUP a = (a + PGSIZE - 1) / PGSIZE * PGSIZE.
Proof.
  intros. unfold PGROUNDUP. rewrite u64_small by (unfold PGSIZE in *; lia).
  apply land_page_mask. unfold PGSIZE in *. lia.
Qed.

(** ** Initialisation *)

Lemma freerange_loop_spec fuel p k l :
  let e := sym_end (k_sym k) in
  ready k -> lock_free LK_kmem k -> kmem_ok k l ->
  p mod PGSIZE = 0 -> e <= p -> (forall q, q ∈ l -> q < p) -> PHYSTOP - p <= Z.of_nat fuel * PGSIZE ->
  wp (freerange_loop fuel p PHYSTOP) (fun _ k' =>
    exists l', kmem_ok k' l' /\ sym_end (k_sym k') = e /\
      forall q, q ∈ l' <-> q ∈ l \/ (q mod PGSIZE = 0 /\ p <= q < PHYSTOP)) k.
Proof.
  revert p k l. induction fuel as [|fuel IH]; intros p k l e Hr Hf Hk Hp He Hl Hfuel; cbn [freerange_loop].
  - apply wp_ret. exists l. split; [done|]. split; [done|]. intros q. split; [auto|].
    intros [|[_ ?]]; [done|lia].
  - destruct (Z.leb_spec (p + PGSIZE) PHYSTOP) as [Hle|Hgt].
    + assert (Hpage : page_ok e p) by (split; [done|unfold PGSIZE in *; lia]).
      assert (Hnin : p ∉ l) by (intros Hin; specialize (Hl p Hin); lia).
      apply wp_bind. apply wp_kfree; [done..|]. intros k' Hn.
      pose proof (kfree_post_ok p k l Hk Hpage Hnin) as Hk'.
      assert (He' : sym_end (k_sym k') = e) by now destruct Hn as (b & lk & -> & _).
      eapply wp_mono; [apply (IH (p + PGSIZE) k' (p :: l))|].
      * exact (noise_hart_ok _ _ Hn Hr).
      * exact (noise_free _ _ _ Hn Hf).
      * exact (kmem_ok_noise _ _ _ Hn Hk').
      * unfold PGSIZE in *. rewrite Z.add_mod, Hp, Z_mod_same_full by lia. done.
      * rewrite He'. unfold PGSIZE in *. lia.
      * intros q [->|Hq]%elem_of_cons; [unfold PGSIZE; lia|]. specialize (Hl q Hq). unfold PGSIZE. lia.
      * lia.
      * cbn. intros [] k2 (l2 & Hk2 & He2 & Hin). exists l2. split; [done|]. split; [congruence|].
        intros q. rewrite Hin, elem_of_cons. split.
        -- intros [[->|?]|[? ?]]; [right; split; [done|unfold PGSIZE in *; lia]|auto|].
           right. split; [done|]. unfold PGSIZE in *. lia.
        -- intros [?|[Hq1 Hq2]]; [auto|]. destruct (decide (q = p)) as [->|]; [auto|].
           right. split; [done|]. split; [|lia].
           apply Z.mod_divide in Hp as [a ->]; [|done]. apply Z.mod_divide in Hq1 as [b ->]; [|done].
           unfold PGSIZE in *. lia.
    + apply wp_ret. exists l. split; [done|]. split; [done|]. intros q. split; [auto|].
      intros [|[Hq1 Hq2]]; [done|]. exfalso.
      apply Z.mod_divide in Hp as [a ->]; [|done]. apply Z.mod_divide in Hq1 as [b ->]; [|done].
      change PHYSTOP with (0x88000 * PGSIZE) in *. unfold PGSIZE in *. lia.
Qed.

(** [kinit] makes the free list out of exactly the pages of physical memory
    after the kernel: every aligned page in [end, PHYSTOP), each once. *)
Theorem kinit_frees_all_pages k :
  let e := sym_end (k_sym k) in
  ready k -> 0 < e <= PHYSTOP -> mem_bytes (k_mem k) -> k_freelist k = 0 ->
  wp kinit (fun _ k' => exists l, kmem_ok k' l /\ forall q, q ∈ l <-> page_ok e q) k.
Proof.
  intros e Hr He Hb H0. unfold kinit, freerange. apply wp_bind, wp_modify, wp_bind, wp_gets.
  set (k1 := upd_lock LK_kmem _ k).
  assert (HPS : PHYSTOP < 2 ^ 64 - PGSIZE) by done.
  assert (Hup : PGROUNDUP e = (e + PGSIZE - 1) / PGSIZE * PGSIZE) by (apply PGROUNDUP_eq; lia).
  assert (Hrange : e <= PGROUNDUP e < e + PGSIZE).
  { rewrite Hup. unfold PGSIZE. pose proof (Z.div_mod (e + 4096 - 1) 4096).
    pose proof (Z.mod_pos_bound (e + 4096 - 1) 4096). lia. }
  assert (Hal : PGROUNDUP e mod PGSIZE = 0) by (rewrite Hup; apply Z_mod_mult).
  change (sym_end (k_sym k1)) with e.
  eapply wp_mono; [apply (freerange_loop_spec _ (PGROUNDUP e) k1 [])|].
  - done.
  - unfold lock_free, k1. now rewrite upd_lock_lookup, decide_True.
  - split; cbn; try done; try constructor. lia.
  - done.
  - apply Hrange.
  - intros q Hq. inversion Hq.
  - rewrite Z2Nat.id by (apply Z.add_nonneg_nonneg; [apply Z.div_pos|]; lia).
    pose proof (Z.div_mod (PHYSTOP - e) PGSIZE). pose proof (Z.mod_pos_bound (PHYSTOP - e) PGSIZE).
    unfold PGSIZE in *. lia.
  - intros [] k' (l & Hk & _ & Hl). exists l. split; [done|]. intros q. rewrite Hl. unfold page_ok. split.
    + intros [Hq|[? ?]]; [inversion Hq|]. split; [done|]. lia.
    + intros [Hq1 Hq2]. right. split; [done|]. split; [|lia].
      apply Z.mod_divide in Hq1 as [b ->]; [|done]. rewrite Hup in *. unfold PGSIZE in *. lia.
Qed.

Example kinit_frees_all_pages_witness :
  ready boot_state /\ mem_bytes (k_mem boot_state) /\
  wp kinit (fun _ k' => exists l, kmem_ok k' l /\ forall q, q ∈ l <-> page_ok 0x80026000 q) boot_state.
Proof.
  assert (Hb : mem_bytes (k_mem boot_state)) by (intros a; cbn; split; done).
  split; [exact boot_hart_ok|]. split; [exact Hb|].
  apply (kinit_frees_all_pages boot_state boot_hart_ok); [cbn; split; done|exact Hb|reflexivity].
Defined.

(** Two free pages, 0x87ffe000 then 0x87fff000. *)
Definition two_pages : kernel :=
  set_k_freelist 0x87ffe000 (set_k_mem (store64 (fun _ => 0) 0x87ffe000 0x87fff000) boot_state).

Lemma two_pages_split : pages_split 0x80026000 two_pages [0x87ffe000; 0x87fff000] [].
Proof.
  assert (Hp : Forall (page_ok 0x80026000) [0x87ffe000; 0x87fff000]).
  { repeat constructor; done. }
  assert (Hd : NoDup [0x87ffe000; 0x87fff000]).
  { apply NoDup_cons. split; [|apply NoDup_singleton]. intros H%list_elem_of_singleton. done. }
  split; [exact boot_hart_ok|done|done| |done|done].
  split; [done| |done|done|].
  - cbn. rewrite load64_store64, load64_store64_ne by lia. vm_compute. done.
  - apply store64_bytes. intros a. cbn. split; done.
Qed.

Example allocator_conserves_pages_witness :
  pages_split 0x80026000 two_pages [0x87ffe000; 0x87fff000] [] /\
  wp (run_ops [Alloc; Alloc; Alloc; Free 1; Alloc] []) (fun o' k' =>
    exists l', pages_split 0x80026000 k' l' o' /\ l' ++ o' ≡ₚ [0x87ffe000; 0x87fff000]) two_pages.
Proof.
  split; [exact two_pages_split|].
  exact (allocator_conserves_pages _ _ _ _ _ two_pages_split).
Defined.
