(* ===== verification/Vm.v ===== *)
(** * Page tables and user memory (kernel/vm.c)

    Page tables live in the physical memory of the model, as they do in the
    machine: a page-table page holds 512 eight-byte entries.  A kernel buffer
    that [copyin] fills or [copyout] reads is a list of bytes. *)

From stdpp Require Import base numbers list gmap strings.
From S2P Require Import Prelude Kstate Kstring Spinlock Kalloc.

(** ** Operations *)

Definition get_pte (a : Z) : K Z := gets (fun k => load64 (k_mem k) a).
Definition set_pte (a v : Z) : K unit := modify (fun k => set_k_mem (store64 (k_mem k) a v) k).
Definition memsetK (dst c n : Z) : K unit := modify (fun k => set_k_mem (memset (k_mem k) dst c n) k).

(** One iteration of the loop of [walk]: the page-table page below [pagetable]
    on the path of [va], [None] for [return 0]. *)
Definition walk_level (pagetable va : Z) (alloc : bool) (level : Z) : K (option Z) :=
  let pte := pagetable + 8 * PX level va in
  let* e := get_pte pte in
  if nz (Z.land e PTE_V) then ret (Some (PTE2PA e)) else
  if negb alloc then ret None else
  let* pt := kalloc in
  if negb (nz pt) then ret None else
  memsetK pt 0 PGSIZE ;;;
  set_pte pte (Z.lor (PA2PTE pt) PTE_V) ;;;
  ret (Some pt).

Fixpoint walk_levels (pagetable va : Z) (alloc : bool) (levels : list Z) : K (option Z) :=
  match levels with
  | [] => ret (Some pagetable)
  | level :: rest =>
      let* r := walk_level pagetable va alloc level in
      match r with
      | None => ret None
      | Some pt => walk_levels pt va alloc rest
      end
  end.

(** The address of the PTE, 0 for the null pointer. *)
Definition walk (pagetable va : Z) (alloc : bool) : K Z :=
  if MAXVA <=? va then panic "walk" else
  let* r := walk_levels pagetable va alloc [2; 1] in
  match r with
  | None => ret 0
  | Some pt => ret (pt + 8 * PX 0 va)
  end.

Definition walkaddr (pagetable va : Z) : K Z :=
  if MAXVA <=? va then ret 0 else
  let* pte := walk pagetable va false in
  if negb (nz pte) then ret 0 else
  let* e := get_pte pte in
  if negb (nz (Z.land e PTE_V)) then ret 0 else
  if negb (nz (Z.land e PTE_U)) then ret 0 else
  ret (PTE2PA e).

(** The loop of [mappages]; it stops when [a = last]. *)
Fixpoint mappages_loop (fuel : nat) (pagetable a last pa perm : Z) : K Z :=
  match fuel with
  | O => suspend_with Forever
  | S fuel' =>
      let* pte := walk pagetable a true in
      if negb (nz pte) then ret (-1) else
      let* e := get_pte pte in
      if nz (Z.land e PTE_V) then panic "remap" else
      set_pte pte (Z.lor (Z.lor (PA2PTE pa) perm) PTE_V) ;;;
      if a =? last then ret 0 else
      mappages_loop fuel' pagetable (u64 (a + PGSIZE)) last (u64 (pa + PGSIZE)) perm
  end.

(** From [a], the 64-bit counter reaches [last] after exactly
    [(last - a) mod 2^64 / PGSIZE] increments, so the fuel is never the reason
    the loop ends. *)
Definition mappages (pagetable va size pa perm : Z) : K Z :=
  let a := PGROUNDDOWN va in
  let last := PGROUNDDOWN (u64 (va + size - 1)) in
  mappages_loop (Z.to_nat (u64 (last - a) / PGSIZE + 1)) pagetable a last pa perm.

Definition kvmmap (va pa sz perm : Z) : K unit :=
  let* kpt := gets k_kpgtbl in
  let* r := mappages kpt va sz pa perm in
  if negb (r =? 0) then panic "kvmmap" else ret tt.

Definition kvminit : K unit :=
  let* pt := kalloc in
  modify (set_k_kpgtbl pt) ;;;
  memsetK pt 0 PGSIZE ;;;
  let* sym := gets k_sym in
  let etext := sym_etext sym in
  kvmmap UART0 UART0 PGSIZE (Z.lor PTE_R PTE_W) ;;;
  kvmmap VIRTIO0 VIRTIO0 PGSIZE (Z.lor PTE_R PTE_W) ;;;
  kvmmap CLINT CLINT 0x10000 (Z.lor PTE_R PTE_W) ;;;
  kvmmap PLIC PLIC 0x400000 (Z.lor PTE_R PTE_W) ;;;
  kvmmap KERNBASE KERNBASE (etext - KERNBASE) (Z.lor PTE_R PTE_X) ;;;
  kvmmap etext etext (PHYSTOP - etext) (Z.lor PTE_R PTE_W) ;;;
  kvmmap TRAMPOLINE (sym_trampoline sym) PGSIZE (Z.lor PTE_R PTE_X).

Definition w_satp (x : Z) : K unit := modify (upd_hart (set_h_satp x)).
(** [sfence_vma] flushes the TLB, which is not part of the model. *)
Definition kvminithart : K unit :=
  let* pt := gets k_kpgtbl in w_satp (MAKE_SATP pt).

Definition kvmpa (va : Z) : K Z :=
  let off := va mod PGSIZE in
  let* kpt := gets k_kpgtbl in
  let* pte := walk kpt va false in
  if negb (nz pte) then panic "kvmpa" else
  let* e := get_pte pte in
  if negb (nz (Z.land e PTE_V)) then panic "kvmpa" else
  ret (u64 (PTE2PA e + off)).

Fixpoint uvmunmap_loop (fuel : nat) (pagetable a stop : Z) (do_free : bool) : K unit :=
  match fuel with
  | O => ret tt
  | S fuel' =>
      if negb (a <? stop) then ret tt else
      let* pte := walk pagetable a false in
      if negb (nz pte) then panic "uvmunmap: walk" else
      let* e := get_pte pte in
      if negb (nz (Z.land e PTE_V)) then panic "uvmunmap: not mapped" else
      if PTE_FLAGS e =? PTE_V then panic "uvmunmap: not a leaf" else
      when do_free (kfree (PTE2PA e)) ;;;
      set_pte pte 0 ;;;
      uvmunmap_loop fuel' pagetable (u64 (a + PGSIZE)) stop do_free
  end.

Definition uvmunmap (pagetable va npages : Z) (do_free : bool) : K unit :=
  if negb (va mod PGSIZE =? 0) then panic "uvmunmap: not aligned" else
  uvmunmap_loop (Z.to_nat npages) pagetable va (u64 (va + npages * PGSIZE)) do_free.

Definition uvmcreate : K Z :=
  let* pagetable := kalloc in
  if negb (nz pagetable) then ret 0 else
  memsetK pagetable 0 PGSIZE ;;;
  ret pagetable.

(** Stores the bytes [src] at the physical address [dst]. *)
Definition memwrite (dst : Z) (src : list Z) : K unit :=
  modify (fun k => set_k_mem (store (k_mem k) dst src) k).

Definition uvminit (pagetable : Z) (src : list Z) : K unit :=
  let sz := Z.of_nat (length src) in
  if PGSIZE <=? sz then panic "inituvm: more than a page" else
  let* mem := kalloc in
  memsetK mem 0 PGSIZE ;;;
  mappages pagetable 0 PGSIZE mem (Z.lor (Z.lor (Z.lor PTE_W PTE_R) PTE_X) PTE_U) ;;;
  memwrite mem src.

Definition uvmdealloc (pagetable oldsz newsz : Z) : K Z :=
  if oldsz <=? newsz then ret oldsz else
  when (PGROUNDUP newsz <? PGROUNDUP oldsz)
    (let npages := i32 (u64 (PGROUNDUP oldsz - PGROUNDUP newsz) / PGSIZE) in
     uvmunmap pagetable (PGROUNDUP newsz) npages true) ;;;
  ret newsz.

Fixpoint uvmalloc_loop (fuel : nat) (pagetable oldsz a newsz : Z) : K Z :=
  match fuel with
  | O => ret newsz
  | S fuel' =>
      if negb (a <? newsz) then ret newsz else
      let* mem := kalloc in
      if negb (nz mem) then uvmdealloc pagetable a oldsz ;;; ret 0 else
      memsetK mem 0 PGSIZE ;;;
      let* r := mappages pagetable a PGSIZE mem (Z.lor (Z.lor (Z.lor PTE_W PTE_X) PTE_R) PTE_U) in
      if negb (r =? 0) then kfree mem ;;; uvmdealloc pagetable a oldsz ;;; ret 0 else
      uvmalloc_loop fuel' pagetable oldsz (u64 (a + PGSIZE)) newsz
  end.

Definition uvmalloc (pagetable oldsz newsz : Z) : K Z :=
  if newsz <? oldsz then ret oldsz else
  let oldsz := PGROUNDUP oldsz in
  uvmalloc_loop (Z.to_nat ((newsz - oldsz) / PGSIZE + 1)) pagetable oldsz oldsz newsz.

(** [freewalk] recurses to the depth of the page table, three levels. *)
Fixpoint freewalk (depth : nat) (pagetable : Z) : K unit :=
  match depth with
  | O => suspend_with Forever
  | S depth' =>
      for_each (seqZ 0 512) (fun i =>
        let* pte := get_pte (pagetable + 8 * i) in
        if nz (Z.land pte PTE_V) && (Z.land pte (Z.lor (Z.lor PTE_R PTE_W) PTE_X) =? 0) then
          freewalk depth' (PTE2PA pte) ;;;
          set_pte (pagetable + 8 * i) 0
        else if nz (Z.land pte PTE_V) then panic "freewalk: leaf"
        else ret tt) ;;;
      kfree pagetable
  end.

Definition uvmfree (pagetable sz : Z) : K unit :=
  when (0 <? sz) (uvmunmap pagetable 0 (PGROUNDUP sz / PGSIZE) true) ;;;
  freewalk 4 pagetable.

Definition memmoveK (dst src n : Z) : K unit := modify (fun k => set_k_mem (memmove (k_mem k) dst src n) k).

Fixpoint uvmcopy_loop (fuel : nat) (old new i sz : Z) : K Z :=
  match fuel with
  | O => ret 0
  | S fuel' =>
      if negb (i <? sz) then ret 0 else
      let err := uvmunmap new 0 (i / PGSIZE) true ;;; ret (-1) in
      let* pte := walk old i false in
      if negb (nz pte) then panic "uvmcopy: pte should exist" else
      let* e := get_pte pte in
      if negb (nz (Z.land e PTE_V)) then panic "uvmcopy: page not present" else
      let pa := PTE2PA e in
      let flags := PTE_FLAGS e in
      let* mem := kalloc in
      if negb (nz mem) then err else
      memmoveK mem pa PGSIZE ;;;
      let* r := mappages new i PGSIZE mem flags in
      if negb (r =? 0) then kfree mem ;;; err else
      uvmcopy_loop fuel' old new (u64 (i + PGSIZE)) sz
  end.

Definition uvmcopy (old new sz : Z) : K Z :=
  uvmcopy_loop (Z.to_nat (sz / PGSIZE + 1)) old new 0 sz.

Definition uvmclear (pagetable va : Z) : K unit :=
  let* pte := walk pagetable va false in
  if negb (nz pte) then panic "uvmclear" else
  let* e := get_pte pte in
  set_pte pte (Z.land e (u64 (Z.lnot PTE_U))).

(** Each iteration copies at least one byte, so [length src] iterations suffice. *)
Fixpoint copyout_loop (fuel : nat) (pagetable dstva : Z) (src : list Z) : K Z :=
  match fuel, src with
  | S fuel', _ :: _ =>
      let len := Z.of_nat (length src) in
      let va0 := PGROUNDDOWN dstva in
      let* pa0 := walkaddr pagetable va0 in
      if negb (nz pa0) then ret (-1) else
      let n := PGSIZE - (dstva - va0) in
      let n := if len <? n then len else n in
      memwrite (pa0 + (dstva - va0)) (take (Z.to_nat n) src) ;;;
      copyout_loop fuel' pagetable (u64 (va0 + PGSIZE)) (drop (Z.to_nat n) src)
  | _, _ => ret 0
  end.
Definition copyout (pagetable dstva : Z) (src : list Z) : K Z :=
  copyout_loop (length src) pagetable dstva src.

(** The status and the bytes stored in the kernel buffer. *)
Fixpoint copyin_loop (fuel : nat) (pagetable srcva len : Z) : K (Z * list Z) :=
  match fuel with
  | O => ret (0, [])
  | S fuel' =>
      if negb (0 <? len) then ret (0, []) else
      let va0 := PGROUNDDOWN srcva in
      let* pa0 := walkaddr pagetable va0 in
      if negb (nz pa0) then ret (-1, []) else
      let n := PGSIZE - (srcva - va0) in
      let n := if len <? n then len else n in
      let* bytes := gets (fun k => load (k_mem k) (pa0 + (srcva - va0)) (Z.to_nat n)) in
      let* (st, rest) := copyin_loop fuel' pagetable (u64 (va0 + PGSIZE)) (len - n) in
      ret (st, bytes ++ rest)
  end.
Definition copyin (pagetable srcva len : Z) : K (Z * list Z) :=
  copyin_loop (Z.to_nat len) pagetable srcva len.

(** The inner loop of [copyinstr]: the bytes stored and whether the NUL was found. *)
Fixpoint copystr (m : mem) (p : Z) (n : nat) : list Z * bool :=
  match n with
  | O => ([], false)
  | S n' =>
      if m p =? 0 then ([0], true)
      else let '(bs, nul) := copystr m (p + 1) n' in (m p :: bs, nul)
  end.

Fixpoint copyinstr_loop (fuel : nat) (pagetable srcva max : Z) : K (Z * list Z) :=
  match fuel with
  | O => ret (-1, [])
  | S fuel' =>
      if negb (0 <? max) then ret (-1, []) else
      let va0 := PGROUNDDOWN srcva in
      let* pa0 := walkaddr pagetable va0 in
      if negb (nz pa0) then ret (-1, []) else
      let n := PGSIZE - (srcva - va0) in
      let n := if max <? n then max else n in
      let* (bytes, got_null) := gets (fun k => copystr (k_mem k) (pa0 + (srcva - va0)) (Z.to_nat n)) in
      if (got_null : bool) then ret (0, bytes) else
      let* (st, rest) := copyinstr_loop fuel' pagetable (u64 (va0 + PGSIZE)) (max - n) in
      ret (st, bytes ++ rest)
  end.
Definition copyinstr (pagetable srcva max : Z) : K (Z * list Z) :=
  copyinstr_loop (Z.to_nat max) pagetable srcva max.

(** ** Page-table entries *)

Lemma PX_range level va : 0 <= PX level va < 512.
Proof.
  unfold PX, PXMASK. change 0x1FF with (Z.ones 9). rewrite Z.land_ones by lia.
  change 512 with (2 ^ 9). apply Z.mod_pos_bound. lia.
Qed.

Lemma lor_low a f n : 0 <= n -> 0 <= f < 2 ^ n -> Z.lor (a * 2 ^ n) f = a * 2 ^ n + f.
Proof.
  intros Hn Hf. symmetry. rewrite <- Z.lxor_lor; [apply Z.add_nocarry_lxor|];
    apply Z.bits_inj'; intros i Hi; rewrite Z.land_spec, Z.bits_0;
    destruct (Z.ltb_spec i n).
  1,3: rewrite Z.mul_pow2_bits_low by lia; done.
  all: destruct (decide (f = 0)) as [->|]; [rewrite Z.bits_0; apply andb_false_r|];
    rewrite (Z.bits_above_log2 f i); [apply andb_false_r|lia|];
    apply Z.log2_lt_pow2; [lia|]; assert (2 ^ n <= 2 ^ i) by (apply Z.pow_le_mono_r; lia); lia.
Qed.

Lemma PA2PTE_eq pa : 0 <= pa < 2 ^ 56 -> PA2PTE pa = pa / PGSIZE * 2 ^ 10.
Proof.
  intros Hp. unfold PA2PTE. rewrite Z.shiftl_mul_pow2, Z.shiftr_div_pow2 by lia.
  apply u64_small. change PGSIZE with (2 ^ 12).
  assert (0 <= pa / 2 ^ 12 < 2 ^ 44) by
    (split; [apply Z.div_pos; lia|apply Z.div_lt_upper_bound; lia]). lia.
Qed.

(** An entry made of a page address and flags gives back both. *)
Lemma pte_roundtrip pa flags :
  pa mod PGSIZE = 0 -> 0 <= pa < 2 ^ 56 -> 0 <= flags < 2 ^ 10 ->
  PTE2PA (Z.lor (PA2PTE pa) flags) = pa /\ PTE_FLAGS (Z.lor (PA2PTE pa) flags) = flags.
Proof.
  intros Ha Hp Hf. rewrite PA2PTE_eq, lor_low by lia. split.
  - unfold PTE2PA. rewrite Z.shiftl_mul_pow2, Z.shiftr_div_pow2 by lia.
    rewrite Z.div_add_l, (Z.div_small flags), Z.add_0_r by lia.
    rewrite u64_small; [|change PGSIZE with (2 ^ 12) in *].
    + pose proof (Z.div_mod pa PGSIZE ltac:(done)). change (2 ^ 12) with PGSIZE. lia.
    + pose proof (Z.div_mod pa (2 ^ 12) ltac:(done)). lia.
  - unfold PTE_FLAGS. change 0x3FF with (Z.ones 10). rewrite Z.land_ones by lia.
    rewrite Z.add_comm, Z_mod_plus_full. apply Z.mod_small. lia.
Qed.

Lemma land_PTE_V e : Z.land e PTE_V = e mod 2.
Proof. change PTE_V with (Z.ones 1). rewrite Z.land_ones by lia. done. Qed.

Lemma pte_valid_lor x : nz (Z.land (Z.lor x PTE_V) PTE_V) = true.
Proof.
  apply nz_true. rewrite land_PTE_V, <- (Z.bit0_mod (Z.lor x PTE_V)), Z.lor_spec.
  change (Z.testbit PTE_V 0) with true. now rewrite orb_true_r.
Qed.

Lemma page_addr_range e p : 0 < e -> page_ok e p -> 0 <= p < 2 ^ 56.
Proof. intros He [_ Hp]. unfold PHYSTOP, KERNBASE in Hp. lia. Qed.

(** The entry [walk] writes for a new page-table page. *)
Lemma dir_entry e c :
  0 < e -> page_ok e c ->
  nz (Z.land (Z.lor (PA2PTE c) PTE_V) PTE_V) = true /\ PTE2PA (Z.lor (PA2PTE c) PTE_V) = c /\
  0 <= Z.lor (PA2PTE c) PTE_V < 2 ^ 64.
Proof.
  intros He Hc. pose proof (page_addr_range e c He Hc) as Hr. destruct Hc as [Ha _].
  split; [apply pte_valid_lor|]. split; [now apply pte_roundtrip|].
  rewrite PA2PTE_eq, lor_low by (done || (change PTE_V with 1; lia)).
  assert (0 <= c / PGSIZE < 2 ^ 44) by
    (split; [apply Z.div_pos; unfold PGSIZE; lia|apply Z.div_lt_upper_bound; unfold PGSIZE; lia]).
  change PTE_V with 1. lia.
Qed.

(** ** Well-formed page tables

    [G] names the page-table pages by their path of indices from the root:
    [[]] is the root, [[i]] the page under entry [i], [[i; j]] the page under
    entry [j] of that one. *)

Record pt_ok (e : Z) (m : mem) (root : Z) (G : gmap (list Z) Z) : Prop := {
  pt_root : G !! [] = Some root;
  pt_page : forall path p, G !! path = Some p -> page_ok e p /\ (length path <= 2)%nat;
  pt_inj : forall a b p, G !! a = Some p -> G !! b = Some p -> a = b;
  pt_prefix : forall path i, is_Some (G !! (path ++ [i])) -> is_Some (G !! path);
  pt_dir : forall path p i, G !! path = Some p -> (length path <= 1)%nat -> 0 <= i < 512 ->
    let pte := load64 m (p + 8 * i) in
    match G !! (path ++ [i]) with
    | Some c => nz (Z.land pte PTE_V) = true /\ PTE2PA pte = c
    | None => nz (Z.land pte PTE_V) = false
    end }.

(** The address of the last-level entry for [va], and the entry. *)
Definition leaf (G : gmap (list Z) Z) (va : Z) : option Z :=
  p ← G !! [PX 2 va; PX 1 va]; Some (p + 8 * PX 0 va).
Definition pte_of (m : mem) (G : gmap (list Z) Z) (va : Z) : Z :=
  match leaf G va with Some a => load64 m a | None => 0 end.

Definition in_page (p x : Z) : Prop := p <= x < p + PGSIZE.

Lemma entry_in_page p i x : 0 <= i < 512 -> p + 8 * i <= x < p + 8 * i + 8 -> in_page p x.
Proof. unfold in_page, PGSIZE. lia. Qed.

Lemma walk_levels_false k e root G va path p levels :
  pt_ok e (k_mem k) root G -> G !! path = Some p ->
  (length path + length levels = 2)%nat ->
  walk_levels p va false levels k =
    Ok (G !! (path ++ map (fun l => PX l va) levels)) k.
Proof.
  intros Hpt. revert path p. induction levels as [|lv levels IH]; intros path p Hp Hlen.
  - cbn. now rewrite app_nil_r, Hp.
  - cbn in Hlen. pose proof (pt_dir _ _ _ _ Hpt path p (PX lv va) Hp ltac:(lia) (PX_range _ _)) as Hd.
    cbn [walk_levels]. unfold bind at 1, walk_level, bind at 1, get_pte, gets. cbn zeta in Hd.
    destruct (G !! (path ++ [PX lv va])) as [c|] eqn:Ec.
    + destruct Hd as [-> <-]. unfold ret at 1. rewrite (IH (path ++ [PX lv va])); [|done|].
      * cbn [map]. now rewrite <- app_assoc.
      * rewrite length_app. cbn. lia.
    + rewrite Hd. cbn [negb]. unfold ret. cbn [map].
      enough (G !! (path ++ PX lv va :: map (fun l => PX l va) levels) = None) as -> by done.
      clear - Hpt Ec. revert Ec. generalize (PX lv va) as i. revert path.
      induction levels as [|l2 levels IH]; intros path i Ec; [done|].
      cbn [map]. change (path ++ i :: PX l2 va :: ?r) with (path ++ [i] ++ PX l2 va :: r).
      rewrite app_assoc. apply IH.
      destruct (G !! ((path ++ [i]) ++ [PX l2 va])) eqn:E2; [|done].
      destruct (pt_prefix _ _ _ _ Hpt (path ++ [i]) (PX l2 va)) as [? E3]; [eauto|]. congruence.
Qed.

Lemma walk_false k e root G va :
  pt_ok e (k_mem k) root G -> 0 <= va < MAXVA ->
  walk root va false k = Ok (match leaf G va with Some a => a | None => 0 end) k.
Proof.
  intros Hpt Hva. unfold walk. rewrite (proj2 (Z.leb_gt _ _)) by lia.
  pose proof (walk_levels_false k e root G va [] root [2; 1] Hpt (pt_root _ _ _ _ Hpt) eq_refl) as H.
  kstep H. unfold leaf. cbn [map app]. now destruct (G !! [PX 2 va; PX 1 va]).
Qed.

Lemma leaf_nonzero e m root G va a : 0 < e -> pt_ok e m root G -> leaf G va = Some a -> 0 < a.
Proof.
  intros He Hpt H. unfold leaf in H. destruct (G !! _) as [p|] eqn:E; [|done].
  injection H as <-. destruct (pt_page _ _ _ _ Hpt _ _ E) as [[_ Hp] _].
  pose proof (PX_range 0 va). lia.
Qed.

(** [walkaddr] reads the abstract table: it translates exactly the valid user pages. *)
Lemma walkaddr_run k e root G va :
  0 < e -> pt_ok e (k_mem k) root G -> 0 <= va ->
  walkaddr root va k =
    Ok (if (va <? MAXVA) && nz (Z.land (pte_of (k_mem k) G va) PTE_V)
             && nz (Z.land (pte_of (k_mem k) G va) PTE_U)
        then PTE2PA (pte_of (k_mem k) G va) else 0) k.
Proof.
  intros He Hpt Hva. unfold walkaddr. rewrite Z.leb_antisym.
  destruct (Z.ltb_spec va MAXVA); cbn [negb andb]; [|done].
  kstep (walk_false k e root G va Hpt ltac:(lia)). unfold pte_of.
  destruct (leaf G va) as [a|] eqn:E.
  - pose proof (leaf_nonzero _ _ _ _ _ _ He Hpt E). rewrite (proj2 (nz_true a)) by lia.
    cbn [negb]. unfold bind, get_pte, gets.
    destruct (nz (Z.land (load64 (k_mem k) a) PTE_V)); cbn; [|done].
    now destruct (nz (Z.land (load64 (k_mem k) a) PTE_U)).
  - done.
Qed.

(** ** Growing a page table *)

(** A kernel state in which [root] is a page table with pages [G] and [l] are
    the free pages. *)
Record pt_state (e root : Z) (k : kernel) (G : gmap (list Z) Z) (l : list Z) : Prop := {
  ts_ready : ready k;
  ts_lock : lock_free LK_kmem k;
  ts_end : sym_end (k_sym k) = e;
  ts_mem : kmem_ok k l;
  ts_pt : pt_ok e (k_mem k) root G;
  ts_sep : forall path p, G !! path = Some p -> p ∉ l }.

(** What may change while a table grows: the new pages come from the free
    list, and memory outside the table's own pages is untouched. *)
Record extends (k : kernel) (G : gmap (list Z) Z) (l : list Z)
               (k' : kernel) (G' : gmap (list Z) Z) (l' : list Z) : Prop := {
  ex_sub : G ⊆ G';
  ex_free : l' `suffix_of` l;
  ex_mem : forall x, (forall path p, G' !! path = Some p -> ~ in_page p x) -> k_mem k' x = k_mem k x;
  ex_new : forall path p, G' !! path = Some p -> G !! path = Some p \/ p ∈ l;
  ex_rest : exists m f, noise (set_k_mem m (set_k_freelist f k)) k' }.

(** ... and every translation is kept. *)
Definition grows k G l k' G' l' : Prop :=
  extends k G l k' G' l' /\ forall va, pte_of (k_mem k') G' va = pte_of (k_mem k) G va.

Lemma noise_setters k m f m' f' k1 k2 :
  noise (set_k_mem m (set_k_freelist f k)) k1 ->
  noise (set_k_mem m' (set_k_freelist f' k1)) k2 ->
  noise (set_k_mem m' (set_k_freelist f' k)) k2.
Proof.
  intros (b & l & -> & H1) H2. eapply noise_trans; [|exact H2].
  exists b, l. split; [done|exact H1].
Qed.

Lemma noise_set_mem k k' m : noise k k' -> noise (set_k_mem m k) (set_k_mem m k').
Proof. intros (b & l & -> & H). exists b, l. now split. Qed.

Lemma extends_refl k G l : extends k G l k G l.
Proof.
  split; try done; [eauto|]. exists (k_mem k), (k_freelist k). destruct k. apply noise_refl.
Qed.

Lemma extends_trans k1 G1 l1 k2 G2 l2 k3 G3 l3 :
  extends k1 G1 l1 k2 G2 l2 -> extends k2 G2 l2 k3 G3 l3 -> extends k1 G1 l1 k3 G3 l3.
Proof.
  intros [Hs1 Hf1 Hm1 Hn1 (m1 & f1 & Hr1)] [Hs2 Hf2 Hm2 Hn2 (m2 & f2 & Hr2)]. split.
  - now transitivity G2.
  - now transitivity l2.
  - intros x Hx. rewrite Hm2, Hm1; [done| |done].
    intros path p Hp. apply (Hx path p). now apply (lookup_weaken _ G3) in Hp.
  - intros path p Hp. destruct (Hn2 path p Hp) as [H|H]; [now apply Hn1|]. right.
    destruct Hf1 as [u ->]. set_solver.
  - exists m2, f2. eapply noise_setters; eauto.
Qed.

Lemma grows_refl k G l : grows k G l k G l.
Proof. split; [apply extends_refl|done]. Qed.

Lemma grows_trans k1 G1 l1 k2 G2 l2 k3 G3 l3 :
  grows k1 G1 l1 k2 G2 l2 -> grows k2 G2 l2 k3 G3 l3 -> grows k1 G1 l1 k3 G3 l3.
Proof.
  intros [He1 Hp1] [He2 Hp2]. split; [eapply extends_trans; eauto|]. intros va. now rewrite Hp2.
Qed.

(** Adding the page [c] under entry [i] of the page [p] at [path]. *)
Section add_page.
Context (e root : Z) (m : mem) (G : gmap (list Z) Z) (path : list Z) (p i c : Z) (j : Z).
Hypothesis He : 0 < e.
Hypothesis Hpt : pt_ok e m root G.
Hypothesis Hp : G !! path = Some p.
Hypothesis Hlen : (length path <= 1)%nat.
Hypothesis Hi : 0 <= i < 512.
Hypothesis Hnone : G !! (path ++ [i]) = None.
Hypothesis Hc : page_ok e c.
Hypothesis Hfresh : forall q x, G !! q = Some x -> x <> c.

Let G' := <[path ++ [i] := c]> G.
Let m' := store64 (memset (memset m c j PGSIZE) c 0 PGSIZE) (p + 8 * i) (Z.lor (PA2PTE c) PTE_V).

Lemma add_page_mem x : ~ in_page c x -> ~ (p + 8 * i <= x < p + 8 * i + 8) -> m' x = m x.
Proof.
  intros H1 H2. unfold m'. rewrite store64_other by done. unfold in_page in H1.
  now rewrite !memset_spec, !bool_decide_false by done.
Qed.

Lemma page_not_c q x y : G !! q = Some x -> in_page x y -> ~ in_page c y.
Proof.
  intros Hq Hy. destruct (pt_page _ _ _ _ Hpt _ _ Hq) as [[Hx _] _]. destruct Hc as [Hc1 _].
  apply (pages_disjoint c x); try done. specialize (Hfresh q x Hq). congruence.
Qed.

Lemma page_not_p q x y : G !! q = Some x -> q <> path -> in_page x y -> ~ in_page p y.
Proof.
  intros Hq Hne Hy. destruct (pt_page _ _ _ _ Hpt _ _ Hq) as [[Hx _] _].
  destruct (pt_page _ _ _ _ Hpt _ _ Hp) as [[Hp1 _] _].
  apply (pages_disjoint p x); try done. intros ->. apply Hne.
  exact (pt_inj _ _ _ _ Hpt _ _ _ Hq Hp).
Qed.

(** Entries of old pages other than entry [i] of [p] are kept. *)
Lemma add_page_entry q x n :
  G !! q = Some x -> 0 <= n < 512 -> (q <> path \/ n <> i) ->
  load64 m' (x + 8 * n) = load64 m (x + 8 * n).
Proof.
  intros Hq Hn Hne. apply load64_ext. intros y Hy.
  assert (Hin : in_page x y) by now apply (entry_in_page x n).
  apply add_page_mem; [now apply (page_not_c q x)|].
  intros Hy'. destruct (decide (q = path)) as [->|Hqp].
  - rewrite Hp in Hq. injection Hq as ->. destruct Hne as [?|?]; [done|]. lia.
  - apply (page_not_p q x y Hq Hqp Hin). now apply (entry_in_page p i).
Qed.

Lemma c_not_p y : in_page c y -> ~ in_page p y.
Proof. intros H1 H2. exact (page_not_c path p y Hp H2 H1). Qed.

Lemma new_page_zero n : 0 <= n < 512 -> load64 m' (c + 8 * n) = 0.
Proof.
  intros Hn. apply load64_zero. intros x Hx.
  assert (Hin : in_page c x) by now apply (entry_in_page c n).
  unfold m'. rewrite store64_other.
  - rewrite memset_spec, bool_decide_true by done. done.
  - intros Hx'. apply (c_not_p x Hin). now apply (entry_in_page p i).
Qed.

Lemma new_entry : load64 m' (p + 8 * i) = Z.lor (PA2PTE c) PTE_V.
Proof. unfold m'. rewrite load64_store64. apply u64_small, (dir_entry e c He Hc). Qed.

Lemma add_page_child n : G !! ((path ++ [i]) ++ [n]) = None.
Proof.
  destruct (G !! ((path ++ [i]) ++ [n])) eqn:E; [|done].
  destruct (pt_prefix _ _ _ _ Hpt (path ++ [i]) n) as [? H]; [eauto|congruence].
Qed.

Lemma snoc_ne (q : list Z) n : q ++ [n] <> q.
Proof. intros H. apply (f_equal length) in H. rewrite length_app in H. cbn in H. lia. Qed.

Lemma add_page_ok : pt_ok e m' root G'.
Proof.
  unfold G'. split.
  - rewrite lookup_insert_ne by (now destruct path). apply (pt_root _ _ _ _ Hpt).
  - intros q x. rewrite lookup_insert. case_decide as Hd.
    + intros [= <-]. rewrite <- Hd, length_app. cbn. split; [done|lia].
    + apply (pt_page _ _ _ _ Hpt).
  - intros a b x. rewrite !lookup_insert. repeat case_decide; subst; try congruence.
    + intros [= <-] Hb. now apply Hfresh in Hb.
    + intros Ha [= <-]. now apply Hfresh in Ha.
    + apply (pt_inj _ _ _ _ Hpt).
  - intros q n [x Hx]. rewrite !lookup_insert in *. repeat case_decide; eauto.
    + apply app_inj_tail in H as [<- <-]. eauto.
    + apply (pt_prefix _ _ _ _ Hpt q n). eauto.
  - intros q x n Hq Hq1 Hn. cbn zeta. rewrite lookup_insert in Hq. case_decide as Hd.
    + injection Hq as <-. subst q. rewrite lookup_insert_ne by (intros Heq; symmetry in Heq; now apply snoc_ne in Heq).
      rewrite add_page_child, new_page_zero by done. done.
    + destruct (decide (q = path /\ n = i)) as [[-> ->]|Hne].
      * rewrite lookup_insert_eq. rewrite Hp in Hq. injection Hq as <-. rewrite new_entry.
        destruct (dir_entry e c He Hc) as (? & ? & _). done.
      * rewrite lookup_insert_ne by (intros Heq; apply app_inj_tail in Heq as [<- <-]; tauto).
        rewrite (add_page_entry q x n) by (done || (destruct (decide (q = path)); [right; intros ->; now apply Hne|now left])).
        apply (pt_dir _ _ _ _ Hpt); done.
Qed.

Lemma add_page_pte va : pte_of m' G' va = pte_of m G va.
Proof.
  unfold pte_of, leaf, G'. rewrite lookup_insert. case_decide as Hd.
  - rewrite Hd in Hnone. rewrite Hnone. apply new_page_zero, PX_range.
  - destruct (G !! [PX 2 va; PX 1 va]) as [x|] eqn:E; [|done].
    apply (add_page_entry _ _ _ E); [apply PX_range|]. left. intros Hq. rewrite <- Hq in Hlen. cbn in Hlen. lia.
Qed.

Lemma add_page_outside x : (forall q y, G' !! q = Some y -> ~ in_page y x) -> m' x = m x.
Proof.
  intros H. apply add_page_mem.
  - apply (H (path ++ [i])). apply lookup_insert_eq.
  - intros Hx. apply (H path p).
    + unfold G'. rewrite lookup_insert_ne by (intros E; now apply snoc_ne in E). done.
    + now apply (entry_in_page p i).
Qed.
End add_page.

Lemma kmem_ok_write k l m :
  kmem_ok k l -> mem_bytes m -> (forall p x, p ∈ l -> in_page p x -> m x = k_mem k x) ->
  kmem_ok (set_k_mem m k) l.
Proof.
  intros [He Hl Hp Hd _] Hb Hm. split; [done| |done|done|done].
  apply (free_pages_frame (k_mem k)); [|done]. intros p x ? ?. symmetry. now apply (Hm p).
Qed.

Lemma pt_state_noise e root k k' G l : noise k k' -> pt_state e root k G l -> pt_state e root k' G l.
Proof.
  intros Hn [Hr Hf He Hk Hpt Hs]. split; [| | | | |exact Hs].
  - eapply noise_hart_ok; eauto.
  - eapply noise_free; eauto.
  - now destruct Hn as (b & lk & -> & _).
  - eapply kmem_ok_noise; eauto.
  - now destruct Hn as (b & lk & -> & _).
Qed.

Lemma grows_noise k k' G l : noise k k' -> grows k G l k' G l.
Proof.
  intros Hn. assert (Hm : k_mem k' = k_mem k) by now destruct Hn as (b & lk & -> & _).
  split; [split|]; rewrite ?Hm; try done; [eauto|]. exists (k_mem k), (k_freelist k). now destruct k.
Qed.

(** The page [walk] has just added. *)
Lemma add_page_state e root k G c l path p i k1 :
  pt_state e root k G (c :: l) -> G !! path = Some p -> (length path <= 1)%nat -> 0 <= i < 512 ->
  G !! (path ++ [i]) = None -> noise (kalloc_post (c :: l) k) k1 ->
  let k2 := set_k_mem (store64 (memset (k_mem k1) c 0 PGSIZE) (p + 8 * i) (Z.lor (PA2PTE c) PTE_V)) k1 in
  pt_state e root k2 (<[path ++ [i] := c]> G) l /\ grows k G (c :: l) k2 (<[path ++ [i] := c]> G) l.
Proof.
  intros [Hr Hf He Hk Hpt Hs] Hp Hlen Hi Hnone Hn k2.
  pose proof (km_end _ _ Hk) as Hpos. rewrite He in Hpos.
  pose proof (km_pages _ _ Hk) as Hpg. rewrite He in Hpg. apply Forall_cons in Hpg as [Hc Hpg].
  pose proof (km_nodup _ _ Hk) as Hnd. apply NoDup_cons in Hnd as [Hcl Hnd].
  assert (Hfresh : forall q x, G !! q = Some x -> x <> c) by (intros q x Hq ->; apply (Hs _ _ Hq); constructor).
  assert (Hm : k_mem k1 = memset (k_mem k) c 5 PGSIZE) by now destruct Hn as (b & lk & -> & _).
  pose proof (kalloc_post_ok _ _ _ Hk) as Hk1. apply (kmem_ok_noise _ _ _ Hn) in Hk1.
  assert (Hbs : mem_bytes (k_mem k2)) by (apply store64_bytes, memset_bytes; [done|apply Hk1]).
  assert (Hout : forall q x, q ∈ l -> in_page q x -> k_mem k2 x = k_mem k1 x).
  { intros q x Hq Hx. rewrite Forall_forall in Hpg. destruct (Hpg q Hq) as [Hq1 _].
    destruct (pt_page _ _ _ _ Hpt _ _ Hp) as [[Hp1 _] _]. cbn [k2 k_mem set_k_mem].
    rewrite store64_other; [rewrite memset_spec by (unfold PGSIZE; lia); rewrite bool_decide_false; [reflexivity|]|].
    - apply (pages_disjoint c q); [apply Hc|assumption|congruence|assumption].
    - intros Hx'. apply (entry_in_page p i) in Hx'; [|done]. revert Hx'.
      apply (pages_disjoint p q); [done|done| |done]. intros ->. apply (Hs _ _ Hp). now constructor. }
  split; [split|split; [split|]].
  - exact (noise_hart_ok _ _ Hn Hr).
  - exact (noise_free _ _ _ Hn Hf).
  - now destruct Hn as (b & lk & -> & _).
  - now apply kmem_ok_write.
  - cbn [k2 k_mem set_k_mem]. rewrite Hm. now apply add_page_ok.
  - intros q x. rewrite lookup_insert. case_decide; [congruence|]. intros Hq Hin. apply (Hs _ _ Hq). now constructor.
  - now apply insert_subseteq.
  - now exists [c].
  - intros x Hx. cbn [k2 k_mem set_k_mem]. rewrite Hm. now apply (add_page_outside _ G path p i).
  - intros q x. rewrite lookup_insert. case_decide; [|tauto]. intros [= <-]. right. constructor.
  - exists (k_mem k2), (load64 (k_mem k) c). exact (noise_set_mem _ _ (k_mem k2) Hn).
  - intros va. cbn [k2 k_mem set_k_mem]. rewrite Hm. now apply (add_page_pte e root).
Qed.

Lemma walk_level_alloc e root k G l path p va level :
  pt_state e root k G l -> G !! path = Some p -> (length path <= 1)%nat ->
  wp (walk_level p va true level) (fun r k' => exists G' l',
      pt_state e root k' G' l' /\ grows k G l k' G' l' /\
      match r with Some c => G' !! (path ++ [PX level va]) = Some c | None => l' = [] end) k.
Proof.
  intros Hst Hp Hlen. pose proof Hst as [Hr Hf He Hk Hpt Hs].
  pose proof (pt_dir _ _ _ _ Hpt path p (PX level va) Hp Hlen (PX_range _ _)) as Hd. cbn zeta in Hd.
  unfold walk_level. apply wp_bind, wp_gets.
  destruct (G !! (path ++ [PX level va])) as [c|] eqn:Ec.
  - destruct Hd as [-> ->]. apply wp_ret. exists G, l. split; [done|]. split; [apply grows_refl|done].
  - rewrite Hd. cbn [negb]. apply wp_bind, (wp_kalloc k l); [done..|]. intros k1 Hn.
    destruct l as [|c l].
    + cbn [nz Z.eqb negb]. apply wp_ret. exists G, []. split; [eapply pt_state_noise; eauto|].
      split; [now apply grows_noise|done].
    + pose proof (km_pages _ _ Hk) as Hc. apply Forall_cons in Hc as [[_ Hc] _].
      pose proof (km_end _ _ Hk). rewrite (proj2 (nz_true c)) by lia. cbn [negb].
      apply wp_bind, wp_modify, wp_bind, wp_modify, wp_ret.
      destruct (add_page_state e root k G c l path p (PX level va) k1) as [Hst' Hg]; try done; [apply PX_range|].
      exists (<[path ++ [PX level va] := c]> G), l. split; [exact Hst'|]. split; [exact Hg|].
      apply lookup_insert_eq.
Qed.

(** [walk] with [alloc] returns the entry's address, or 0 when memory has run out. *)
Lemma walk_true e root k G l va :
  pt_state e root k G l -> 0 <= va < MAXVA ->
  wp (walk root va true) (fun a k' => exists G' l',
      pt_state e root k' G' l' /\ grows k G l k' G' l' /\
      ((a = 0 /\ l' = []) \/ (a <> 0 /\ leaf G' va = Some a))) k.
Proof.
  intros Hst Hva. unfold walk. rewrite (proj2 (Z.leb_gt _ _)) by lia.
  apply wp_bind. cbn [walk_levels]. apply wp_bind.
  eapply wp_mono; [apply (walk_level_alloc e root k G l [] root); [done|apply (ts_pt _ _ _ _ _ Hst)|cbn; lia]|].
  intros [c|] k1 (G1 & l1 & Hst1 & Hg1 & Hc).
  2:{ apply wp_ret, wp_ret. exists G1, l1. auto. }
  apply wp_bind. eapply wp_mono; [apply (walk_level_alloc e root k1 G1 l1 _ c va 1 Hst1 Hc); cbn; lia|].
  intros [d|] k2 (G2 & l2 & Hst2 & Hg2 & Hd); apply wp_ret, wp_ret; exists G2, l2;
    (split; [done|]); (split; [eapply grows_trans; eauto|]); [right|auto].
  cbn in Hd. assert (Hl : leaf G2 va = Some (d + 8 * PX 0 va)) by (unfold leaf; now rewrite Hd).
  split; [|done]. pose proof (km_end _ _ (ts_mem _ _ _ _ _ Hst2)) as He. rewrite (ts_end _ _ _ _ _ Hst2) in He.
  pose proof (leaf_nonzero _ _ _ _ _ _ He (ts_pt _ _ _ _ _ Hst2) Hl). lia.
Qed.

(** ** Installing translations *)

Lemma PX_div level va : 0 <= level -> PX level va = (va / 2 ^ (12 + 9 * level)) mod 2 ^ 9.
Proof.
  intros Hl. unfold PX, PXMASK, PXSHIFT, PGSHIFT. change 0x1FF with (Z.ones 9).
  rewrite Z.land_ones, Z.shiftr_div_pow2 by lia. done.
Qed.

(** Below [MAXVA] the three indices determine the page. *)
Lemma PX_page va vb :
  0 <= va < MAXVA -> 0 <= vb < MAXVA ->
  PX 2 va = PX 2 vb -> PX 1 va = PX 1 vb -> PX 0 va = PX 0 vb -> va / PGSIZE = vb / PGSIZE.
Proof.
  change MAXVA with (2 ^ 38). change PGSIZE with (2 ^ 12).
  assert (Hdec : forall v, 0 <= v < 2 ^ 38 ->
    v / 2 ^ 12 = PX 0 v + 2 ^ 9 * (PX 1 v + 2 ^ 9 * PX 2 v)); [|intros Ha Hb H2 H1 H0; rewrite !Hdec by lia; congruence].
  intros v Hv. rewrite !PX_div by lia.
  change (12 + 9 * 0) with 12. change (12 + 9 * 1) with (12 + 9). change (12 + 9 * 2) with (12 + 9 + 9).
  rewrite !Z.pow_add_r, <- !Z.div_div by lia.
  pose proof (Z.div_mod (v / 2 ^ 12) (2 ^ 9) ltac:(lia)).
  pose proof (Z.div_mod (v / 2 ^ 12 / 2 ^ 9) (2 ^ 9) ltac:(lia)).
  assert ((v / 2 ^ 12 / 2 ^ 9 / 2 ^ 9) mod 2 ^ 9 = v / 2 ^ 12 / 2 ^ 9 / 2 ^ 9); [|lia].
  apply Z.mod_small. rewrite !Z.div_div by lia. split; [apply Z.div_pos; lia|].
  apply Z.div_lt_upper_bound; lia.
Qed.

Lemma PX_same_page level va vb : 0 <= level -> va / PGSIZE = vb / PGSIZE -> PX level va = PX level vb.
Proof.
  intros Hl H. rewrite !PX_div by lia. rewrite Z.pow_add_r by lia.
  rewrite <- !Z.div_div by lia. change (2 ^ 12) with PGSIZE. now rewrite H.
Qed.

Lemma leaf_same_page G va vb : va / PGSIZE = vb / PGSIZE -> leaf G va = leaf G vb.
Proof. intros H. unfold leaf. now rewrite !(PX_same_page _ va vb) by (lia || done). Qed.

Lemma pte_of_same_page m G va vb : va / PGSIZE = vb / PGSIZE -> pte_of m G va = pte_of m G vb.
Proof. intros H. unfold pte_of. now rewrite (leaf_same_page G va vb). Qed.

(** Distinct pages have distinct entries. *)
Lemma leaf_inj e m root G va vb a :
  pt_ok e m root G -> 0 <= va < MAXVA -> 0 <= vb < MAXVA ->
  leaf G va = Some a -> forall b, leaf G vb = Some b -> va / PGSIZE <> vb / PGSIZE ->
  b + 8 <= a \/ a + 8 <= b.
Proof.
  intros Hpt Ha Hb Hla b Hlb Hne. unfold leaf in Hla, Hlb.
  destruct (G !! [PX 2 va; PX 1 va]) as [p|] eqn:Ep; [|done]. injection Hla as <-.
  destruct (G !! [PX 2 vb; PX 1 vb]) as [q|] eqn:Eq; [|done]. injection Hlb as <-.
  pose proof (PX_range 0 va). pose proof (PX_range 0 vb).
  destruct (pt_page _ _ _ _ Hpt _ _ Ep) as [[Hp _] _]. destruct (pt_page _ _ _ _ Hpt _ _ Eq) as [[Hq _] _].
  destruct (decide (p = q)) as [<-|Hpq].
  - assert (PX 0 va <> PX 0 vb); [|lia]. intros Heq. apply Hne.
    pose proof (pt_inj _ _ _ _ Hpt _ _ _ Ep Eq) as [= H2 H1]. now apply PX_page.
  - unfold in_page, PGSIZE in *. apply Z.mod_divide in Hp, Hq; [|lia..]. destruct Hp as [x ->], Hq as [y ->]. lia.
Qed.

Lemma leaf_in_page e m root G va a :
  pt_ok e m root G -> leaf G va = Some a ->
  exists p, G !! [PX 2 va; PX 1 va] = Some p /\ a = p + 8 * PX 0 va.
Proof.
  intros _ H. unfold leaf in H. destruct (G !! _) as [p|]; [|done]. injection H as <-. eauto.
Qed.

(** Writing a last-level entry keeps the table's shape and changes one translation. *)
Lemma set_leaf_state e root k G l va a v :
  pt_state e root k G l -> leaf G va = Some a -> 
  pt_state e root (set_k_mem (store64 (k_mem k) a v) k) G l.
Proof.
  intros [Hr Hf He Hk Hpt Hs] Hl. destruct (leaf_in_page _ _ _ _ _ _ Hpt Hl) as (p & Hp & ->).
  pose proof (PX_range 0 va) as Hx. destruct (pt_page _ _ _ _ Hpt _ _ Hp) as [[Hp1 _] _].
  split; try done.
  - apply kmem_ok_write; [done|apply store64_bytes, Hk|]. intros q x Hq Hin.
    apply store64_other. intros Hx'. apply (entry_in_page p _ _ Hx) in Hx'. revert Hx'.
    pose proof (km_pages _ _ Hk) as Hpg. rewrite Forall_forall in Hpg.
    apply (pages_disjoint p q); [done|apply (Hpg q Hq)| |done]. intros ->. exact (Hs _ _ Hp Hq).
  - destruct Hpt as [H1 H2 H3 H4 H5]. split; try done. intros path q i Hq Hlen Hi.
    cbn [k_mem set_k_mem]. cbn zeta. rewrite load64_store64_ne; [now apply H5|].
    destruct (H2 _ _ Hq) as [[Hq1 _] _]. assert (q <> p).
    { intros ->. rewrite (H3 _ _ _ Hq Hp) in Hlen. cbn in Hlen. lia. }
    unfold PGSIZE in *. apply Z.mod_divide in Hp1, Hq1; [|lia..]. destruct Hp1 as [x ->], Hq1 as [y ->]. lia.
Qed.

Lemma set_leaf_pte e m root G va a v vb :
  pt_ok e m root G -> 0 <= va < MAXVA -> 0 <= vb < MAXVA -> leaf G va = Some a ->
  pte_of (store64 m a v) G vb = if vb / PGSIZE =? va / PGSIZE then u64 v else pte_of m G vb.
Proof.
  intros Hpt Ha Hb Hl. destruct (Z.eqb_spec (vb / PGSIZE) (va / PGSIZE)) as [E|E].
  - unfold pte_of. rewrite (leaf_same_page G vb va E), Hl. apply load64_store64.
  - unfold pte_of. destruct (leaf G vb) as [b|] eqn:Eb; [|done].
    apply load64_store64_ne. eapply (leaf_inj e m root G va vb); eauto.
Qed.

(** The translations after [n] pages from [a] have been mapped to [pa]. *)
Definition mapped (f : Z -> Z) (a n pa perm va : Z) : Z :=
  if (a / PGSIZE <=? va / PGSIZE) && (va / PGSIZE <? a / PGSIZE + n)
  then Z.lor (Z.lor (PA2PTE (pa + (va / PGSIZE - a / PGSIZE) * PGSIZE)) perm) PTE_V
  else f va.

Lemma leaf_entry_range pa perm :
  0 <= pa < 2 ^ 56 -> 0 <= perm < 2 ^ 10 ->
  0 <= Z.lor (Z.lor (PA2PTE pa) perm) PTE_V < 2 ^ 64.
Proof.
  intros Hpa Hperm. rewrite <- Z.lor_assoc, PA2PTE_eq by done.
  assert (0 <= Z.lor perm PTE_V < 2 ^ 10).
  { split; [apply Z.lor_nonneg; split; [lia|done]|].
    destruct (decide (Z.lor perm PTE_V = 0)) as [->|Hne]; [lia|].
    apply Z.log2_lt_cancel. rewrite Z.log2_lor, Z.log2_pow2 by (lia || done).
    change (Z.log2 PTE_V) with 0. pose proof (Z.log2_nonneg perm).
    rewrite Z.max_l by lia. destruct (decide (perm = 0)) as [->|]; [cbn; lia|].
    apply Z.log2_lt_pow2; lia. }
  rewrite lor_low by lia. assert (0 <= pa / PGSIZE < 2 ^ 44) by
    (split; [apply Z.div_pos; unfold PGSIZE; lia|apply Z.div_lt_upper_bound; unfold PGSIZE; lia]). lia.
Qed.

Lemma extends_set_leaf k G l va a v e root :
  pt_state e root k G l -> leaf G va = Some a ->
  extends k G l (set_k_mem (store64 (k_mem k) a v) k) G l.
Proof.
  intros Hst Hl. destruct (leaf_in_page _ _ _ _ _ _ (ts_pt _ _ _ _ _ Hst) Hl) as (p & Hp & ->).
  split; [done|done| |eauto|].
  - intros x Hx. cbn [k_mem set_k_mem]. apply store64_other. intros Hx'. apply (Hx _ _ Hp).
    apply (entry_in_page p (PX 0 va)); [apply PX_range|done].
  - exists (store64 (k_mem k) (p + 8 * PX 0 va) v), (k_freelist k). destruct k. apply noise_refl.
Qed.

(** One page more at the front. *)
Lemma mapped_step f g a j pa perm va :
  0 <= a -> a mod PGSIZE = 0 -> 0 <= j ->
  (forall va, g va = if va / PGSIZE =? a / PGSIZE then Z.lor (Z.lor (PA2PTE pa) perm) PTE_V else f va) ->
  mapped g (a + PGSIZE) j (pa + PGSIZE) perm va = mapped f a (j + 1) pa perm va.
Proof.
  intros Ha Hm Hj Hg. unfold mapped.
  assert (E : (a + PGSIZE) / PGSIZE = a / PGSIZE + 1) by (rewrite <- (Z.div_add a 1 PGSIZE) by done; f_equal; lia).
  rewrite E, Hg. generalize dependent (va / PGSIZE). intros v. generalize (a / PGSIZE). intros u.
  destruct (Z.eqb_spec v u), (Z.leb_spec (u + 1) v), (Z.leb_spec u v), (Z.ltb_spec v (u + 1 + j)),
    (Z.ltb_spec v (u + (j + 1))); try lia; cbn [andb]; try done.
  - now replace (pa + (v - u) * PGSIZE) with pa by lia.
  - now replace (pa + PGSIZE + (v - (u + 1)) * PGSIZE) with (pa + (v - u) * PGSIZE) by lia.
Qed.

Lemma mapped_zero f a pa perm va : mapped f a 0 pa perm va = f va.
Proof.
  unfold mapped. rewrite Z.add_0_r, Z.leb_antisym. now destruct (va / PGSIZE <? a / PGSIZE).
Qed.

(** One iteration of the loop. *)
Lemma wp_map_one e root perm k G l a pa (cont : K Z) Q :
  pt_state e root k G l -> 0 <= perm < 2 ^ 10 -> 0 <= a < MAXVA -> 0 <= pa < 2 ^ 56 ->
  nz (Z.land (pte_of (k_mem k) G a) PTE_V) = false ->
  (forall k' G', pt_state e root k' G' [] -> grows k G l k' G' [] -> Q (-1) k') ->
  (forall k' G' l', pt_state e root k' G' l' -> extends k G l k' G' l' ->
     (forall va, 0 <= va < MAXVA -> pte_of (k_mem k') G' va =
        if va / PGSIZE =? a / PGSIZE then Z.lor (Z.lor (PA2PTE pa) perm) PTE_V
        else pte_of (k_mem k) G va) -> wp cont Q k') ->
  wp (let* pte := walk root a true in
      if negb (nz pte) then ret (-1) else
      let* e := get_pte pte in
      if nz (Z.land e PTE_V) then panic "remap" else
      set_pte pte (Z.lor (Z.lor (PA2PTE pa) perm) PTE_V) ;;; cont) Q k.
Proof.
  intros Hst Hperm Ha Hpa Hun HQ0 HQ. apply wp_bind.
  eapply wp_mono; [exact (walk_true e root k G l a Hst Ha)|].
  intros pte k1 (G1 & l1 & Hst1 & Hg1 & [[-> ->]|[Hnz Hleaf]]); [apply wp_ret; eauto|].
  pose proof Hg1 as [Hx1 Hp1]. rewrite (proj2 (nz_true _) Hnz). cbn [negb]. apply wp_bind, wp_gets.
  assert (Hpte : load64 (k_mem k1) pte = pte_of (k_mem k) G a) by
    (rewrite <- Hp1; unfold pte_of; now rewrite Hleaf).
  rewrite Hpte, Hun. apply wp_bind, wp_modify.
  eapply HQ; [exact (set_leaf_state _ _ _ _ _ a pte _ Hst1 Hleaf)| |].
  - eapply extends_trans; [exact Hx1|]. eapply extends_set_leaf; eauto.
  - intros va Hva. cbn [k_mem set_k_mem]. rewrite (set_leaf_pte e _ root G1 a) by (apply Hst1 || done).
    now rewrite Hp1, u64_small by (now apply leaf_entry_range).
Qed.

(** What a call of [mappages] that starts at page [a] leaves: [j] pages mapped. *)
Definition mappages_post e root k G l a pa perm n (r : Z) (k' : kernel) : Prop :=
  exists G' l' j,
    pt_state e root k' G' l' /\ extends k G l k' G' l' /\
    (forall va, 0 <= va < MAXVA ->
       pte_of (k_mem k') G' va = mapped (pte_of (k_mem k) G) a j pa perm va) /\
    ((r = 0 /\ j = n) \/ (r = -1 /\ l' = [] /\ 0 <= j < n)).

Lemma mappages_post_step e root k G l a pa perm n k1 G1 l1 r k' :
  extends k G l k1 G1 l1 -> 0 <= a -> a mod PGSIZE = 0 -> 0 <= n ->
  (forall va, 0 <= va < MAXVA -> pte_of (k_mem k1) G1 va =
        if va / PGSIZE =? a / PGSIZE then Z.lor (Z.lor (PA2PTE pa) perm) PTE_V
        else pte_of (k_mem k) G va) ->
  mappages_post e root k1 G1 l1 (a + PGSIZE) (pa + PGSIZE) perm n r k' ->
  mappages_post e root k G l a pa perm (n + 1) r k'.
Proof.
  intros Hx Ha Hal Hn Hp (G2 & l2 & j & Hst & Hx2 & Hp2 & Hr). exists G2, l2, (j + 1).
  split; [done|]. split; [eapply extends_trans; eauto|]. split.
  - intros va Hva. rewrite (Hp2 va Hva).
    rewrite <- (mapped_step _ (fun va => if va / PGSIZE =? a / PGSIZE then Z.lor (Z.lor (PA2PTE pa) perm) PTE_V
        else pte_of (k_mem k) G va)) by (done || lia).
    unfold mapped. now rewrite (Hp va Hva).
  - destruct Hr as [[-> ->]|(-> & -> & Hj)]; [left; done|right; repeat split; lia].
Qed.

Lemma mappages_loop_S n root a last pa perm :
  mappages_loop (S n) root a last pa perm =
    (let* pte := walk root a true in
     if negb (nz pte) then ret (-1) else
     let* e := get_pte pte in
     if nz (Z.land e PTE_V) then panic "remap" else
     set_pte pte (Z.lor (Z.lor (PA2PTE pa) perm) PTE_V) ;;;
     if a =? last then ret 0 else
     mappages_loop n root (u64 (a + PGSIZE)) last (u64 (pa + PGSIZE)) perm).
Proof. done. Qed.

Lemma mappages_loop_run e root perm n : forall k G l a pa,
  pt_state e root k G l -> 0 <= perm < 2 ^ 10 ->
  0 <= a -> a mod PGSIZE = 0 -> a + (Z.of_nat n + 1) * PGSIZE <= MAXVA ->
  0 <= pa -> pa + (Z.of_nat n + 1) * PGSIZE <= 2 ^ 56 ->
  (forall va, 0 <= va < MAXVA -> a / PGSIZE <= va / PGSIZE <= a / PGSIZE + Z.of_nat n ->
     nz (Z.land (pte_of (k_mem k) G va) PTE_V) = false) ->
  wp (mappages_loop (S n) root a (a + Z.of_nat n * PGSIZE) pa perm)
     (mappages_post e root k G l a pa perm (Z.of_nat n + 1)) k.
Proof.
  assert (Hnext : forall x, (x + PGSIZE) / PGSIZE = x / PGSIZE + 1)
    by (intros x; rewrite <- (Z.div_add x 1 PGSIZE) by done; f_equal; lia).
  induction n as [|n IH]; intros k G l a pa Hst Hperm Ha Hal Hmax Hpa Hpmax Hun;
    (assert (HP : 0 < PGSIZE < 2 ^ 30 /\ MAXVA < 2 ^ 40) by done);
    rewrite mappages_loop_S; (apply (wp_map_one e root perm k G l); [done|done|lia|lia|apply Hun; lia| |]);
    try (intros k' G' Hst' [Hx' Hp']; exists G', [], 0; split; [done|]; split; [done|]; split;
      [intros va _; rewrite mapped_zero; apply Hp'|right; repeat split; lia]).
  - intros k1 G1 l1 Hst1 Hx1 Hp1. rewrite Z.mul_0_l, Z.add_0_r, Z.eqb_refl. apply wp_ret.
    apply (mappages_post_step e root k G l a pa perm 0 k1 G1 l1); [done..|].
    exists G1, l1, 0. split; [done|]. split; [apply extends_refl|]. split; [|left; done].
    intros va _. now rewrite mapped_zero.
  - intros k1 G1 l1 Hst1 Hx1 Hp1. rewrite (proj2 (Z.eqb_neq _ _)) by lia.
    rewrite !u64_small by lia.
    replace (a + Z.of_nat (S n) * PGSIZE) with (a + PGSIZE + Z.of_nat n * PGSIZE) by lia.
    eapply wp_mono; [apply (IH k1 G1 l1)|].
    + done.
    + done.
    + lia.
    + rewrite Z.add_mod, Hal, Z_mod_same_full by done. done.
    + lia.
    + lia.
    + lia.
    + intros va Hva Hr. rewrite Hnext in Hr. rewrite Hp1, (proj2 (Z.eqb_neq _ _)) by lia. apply Hun; lia.
    + intros r k' Hpost. replace (Z.of_nat (S n) + 1) with (Z.of_nat n + 1 + 1) by lia.
      apply (mappages_post_step e root k G l a pa perm _ k1 G1 l1); (done || lia).
Qed.

Lemma page_floor a : 0 <= a -> a / PGSIZE * PGSIZE <= a < a / PGSIZE * PGSIZE + PGSIZE.
Proof. intros Ha. pose proof (Z.div_mod a PGSIZE ltac:(done)). pose proof (Z.mod_pos_bound a PGSIZE ltac:(done)). lia. Qed.

(** C23: [mappages] installs exactly the translations it was asked for.  When no
    page of the range is mapped yet, the call does not panic; on success every
    page of the range maps to its frame with the requested permissions, and on
    failure (-1, only when the free list has run dry) a prefix of the range
    does.  Every other translation, and all memory outside the table's own pages,
    is untouched; the pages the table gained came from the free list. *)
Theorem mappages_correct e root k G l va size pa perm :
  pt_state e root k G l -> 0 <= perm < 2 ^ 10 ->
  0 <= va -> 0 < size -> va + size <= MAXVA -> 0 <= pa -> pa + size + 2 * PGSIZE <= 2 ^ 56 ->
  (forall a, PGROUNDDOWN va <= a < PGROUNDDOWN (va + size - 1) + PGSIZE ->
     nz (Z.land (pte_of (k_mem k) G a) PTE_V) = false) ->
  wp (mappages root va size pa perm) (fun r k' => exists G' l' j,
      pt_state e root k' G' l' /\ extends k G l k' G' l' /\
      (forall a, 0 <= a < MAXVA -> pte_of (k_mem k') G' a =
         mapped (pte_of (k_mem k) G) (PGROUNDDOWN va) j pa perm a) /\
      ((r = 0 /\ j = (va + size - 1) / PGSIZE - va / PGSIZE + 1) \/
       (r = -1 /\ l' = [] /\ 0 <= j < (va + size - 1) / PGSIZE - va / PGSIZE + 1))) k.
Proof.
  intros Hst Hperm Hva Hsz Hmax Hpa Hpmax Hun.
  assert (HM : MAXVA = 2 ^ 26 * PGSIZE /\ PGSIZE < 2 ^ 13) by done. assert (MAXVA < 2 ^ 40) by done.
  unfold mappages. rewrite (u64_small (va + size - 1)) by lia.
  rewrite !PGROUNDDOWN_eq by lia. rewrite !PGROUNDDOWN_eq in Hun by lia.
  pose proof (page_floor va Hva). pose proof (page_floor (va + size - 1) ltac:(lia)).
  assert (Hle : va / PGSIZE <= (va + size - 1) / PGSIZE) by (apply Z.div_le_mono; [done|lia]).
  set (u := va / PGSIZE) in *. set (w := (va + size - 1) / PGSIZE) in *.
  assert (0 <= u) by (apply Z.div_pos; lia || done).
  assert (w < 2 ^ 26) by (apply Z.div_lt_upper_bound; lia). clearbody u w.
  rewrite u64_small by (unfold PGSIZE; lia).
  replace ((w * PGSIZE - u * PGSIZE) / PGSIZE + 1) with (w - u + 1)
    by (rewrite <- Z.mul_sub_distr_r, Z.div_mul by done; done).
  replace (Z.to_nat (w - u + 1)) with (S (Z.to_nat (w - u))) by lia.
  assert (Hw : w * PGSIZE = u * PGSIZE + Z.of_nat (Z.to_nat (w - u)) * PGSIZE) by (unfold PGSIZE; lia).
  rewrite Hw in *.
  eapply wp_mono.
  - apply (mappages_loop_run e root perm (Z.to_nat (w - u)) k G l); try done; try (unfold PGSIZE in *; lia).
    + apply Z.mod_mul. done.
    + intros a Ha. rewrite Z.div_mul by done. intros Hr. apply Hun.
      pose proof (page_floor a ltac:(lia)). unfold PGSIZE in *. lia.
  - intros r k'. unfold mappages_post. replace (Z.of_nat (Z.to_nat (w - u)) + 1) with (w - u + 1) by lia. done.
Qed.

(** An empty root page and two free pages. *)
Definition one_table : gmap (list Z) Z := {[ [] := 0x87ffd000 ]}.

Lemma one_table_lookup path p : one_table !! path = Some p <-> [] = path /\ 0x87ffd000 = p.
Proof. apply lookup_singleton_Some. Qed.

Lemma one_table_state : pt_state 0x80026000 0x87ffd000 two_pages one_table [0x87ffe000; 0x87fff000].
Proof.
  destruct two_pages_split as [Hr Hf He Hk Hp Hd]. split; try done.
  - split; try done.
    + intros path p [<- <-]%one_table_lookup. split; [done|cbn; lia].
    + intros a b p [<- _]%one_table_lookup [<- _]%one_table_lookup. done.
    + intros path i [x [E _]%one_table_lookup]. now destruct path.
    + intros path p i [<- <-]%one_table_lookup _ Hi. cbn zeta.
      destruct (one_table !! _) eqn:E; [apply one_table_lookup in E as [E _]; done|]. cbn. rewrite load64_store64_ne by lia. now rewrite load64_zero.
  - intros path p [<- <-]%one_table_lookup H. set_solver.
Qed.

Example mappages_correct_witness :
  pt_state 0x80026000 0x87ffd000 two_pages one_table [0x87ffe000; 0x87fff000] /\
  wp (mappages 0x87ffd000 0x3800 0x1000 0x80030000 6) (fun r k' => exists G' l' j,
      pt_state 0x80026000 0x87ffd000 k' G' l' /\
      extends two_pages one_table [0x87ffe000; 0x87fff000] k' G' l' /\
      (forall a, 0 <= a < MAXVA -> pte_of (k_mem k') G' a =
         mapped (pte_of (k_mem two_pages) one_table) 0x3000 j 0x80030000 6 a) /\
      ((r = 0 /\ j = 2) \/ (r = -1 /\ l' = [] /\ 0 <= j < 2))) two_pages.
Proof.
  split; [exact one_table_state|].
  apply (mappages_correct 0x80026000 0x87ffd000 two_pages one_table _ 0x3800 0x1000 0x80030000 6);
    [exact one_table_state|done..|].
  intros a _. unfold pte_of, leaf, one_table. now rewrite lookup_singleton_ne.
Defined.

(** ** Copying between kernel and user space *)

(** A user process can access the byte at [va]; the byte's physical address. *)
Definition upage (m : mem) (G : gmap (list Z) Z) (va : Z) : bool :=
  (va <? MAXVA) && nz (Z.land (pte_of m G va) PTE_V) && nz (Z.land (pte_of m G va) PTE_U).
Definition uaddr (m : mem) (G : gmap (list Z) Z) (va : Z) : Z :=
  PTE2PA (pte_of m G va) + va mod PGSIZE.

(** A user address space: frames are not shared and are not table pages. *)
Record aspace (e : Z) (m : mem) (root : Z) (G : gmap (list Z) Z) : Prop := {
  as_end : 0 < e;
  as_pt : pt_ok e m root G;
  as_frame : forall va, 0 <= va -> upage m G va = true ->
    PTE2PA (pte_of m G va) mod PGSIZE = 0 /\ 0 < PTE2PA (pte_of m G va) /\
    forall path p, G !! path = Some p -> p <> PTE2PA (pte_of m G va);
  as_inj : forall va vb, 0 <= va -> 0 <= vb -> upage m G va = true -> upage m G vb = true ->
    PTE2PA (pte_of m G va) = PTE2PA (pte_of m G vb) -> va / PGSIZE = vb / PGSIZE }.

Lemma upage_same m G va vb : 0 <= va -> 0 <= vb -> va / PGSIZE = vb / PGSIZE -> upage m G va = upage m G vb.
Proof.
  intros Ha Hb H. unfold upage. rewrite (pte_of_same_page m G va vb H).
  enough ((va <? MAXVA) = (vb <? MAXVA)) as -> by done.
  pose proof (page_floor va Ha). pose proof (page_floor vb Hb). rewrite H in *.
  change MAXVA with (2 ^ 26 * PGSIZE) in *. unfold PGSIZE in *.
  destruct (Z.ltb_spec va (2 ^ 26 * 4096)), (Z.ltb_spec vb (2 ^ 26 * 4096)); lia.
Qed.

(** A new memory in which no table page has changed has the same translations. *)
Lemma pt_frame e m m' root G :
  pt_ok e m root G -> (forall path p x, G !! path = Some p -> in_page p x -> m' x = m x) ->
  pt_ok e m' root G /\ forall va, pte_of m' G va = pte_of m G va.
Proof.
  intros Hpt Hm.
  assert (Hl : forall path p i, G !! path = Some p -> 0 <= i < 512 -> load64 m' (p + 8 * i) = load64 m (p + 8 * i)).
  { intros path p i Hp Hi. apply load64_ext. intros x Hx. apply (Hm path p); [done|now apply (entry_in_page p i)]. }
  split.
  - destruct Hpt as [H1 H2 H3 H4 H5]. split; try done. intros path p i Hp Hlen Hi. cbn zeta.
    rewrite (Hl path p i) by done. now apply H5.
  - intros va. unfold pte_of, leaf. destruct (G !! _) as [p|] eqn:E; [|done].
    apply (Hl _ _ _ E (PX_range _ _)).
Qed.

Lemma aspace_frame e m m' root G :
  aspace e m root G -> (forall path p x, G !! path = Some p -> in_page p x -> m' x = m x) ->
  aspace e m' root G /\ forall va, pte_of m' G va = pte_of m G va.
Proof.
  intros [He Hpt Hf Hi] Hm. destruct (pt_frame e m m' root G Hpt Hm) as [Hpt' Hp].
  assert (Hu : forall va, upage m' G va = upage m G va) by (intros va; unfold upage; now rewrite Hp).
  split; [|done]. split; [done|done| |].
  - intros va Hva. rewrite Hu, Hp. now apply Hf.
  - intros va vb Ha Hb. rewrite !Hu, !Hp. now apply Hi.
Qed.

Lemma div_mod_shift va i :
  0 <= va -> 0 <= i -> va mod PGSIZE + i < PGSIZE ->
  (va + i) / PGSIZE = va / PGSIZE /\ (va + i) mod PGSIZE = va mod PGSIZE + i.
Proof.
  intros Hv Hi Hr. pose proof (Z.div_mod va PGSIZE ltac:(done)) as E.
  pose proof (Z.mod_pos_bound va PGSIZE ltac:(done)).
  assert (Ev : va + i = (va mod PGSIZE + i) + va / PGSIZE * PGSIZE) by lia.
  rewrite Ev, Z.div_add, Z_mod_plus_full, Z.div_small, Z.mod_small by (done || lia). lia.
Qed.

Lemma uaddr_shift m G va i :
  0 <= va -> 0 <= i -> va mod PGSIZE + i < PGSIZE -> uaddr m G (va + i) = uaddr m G va + i.
Proof.
  intros Hv Hi Hr. destruct (div_mod_shift va i Hv Hi Hr) as [Hd Hm].
  unfold uaddr. rewrite (pte_of_same_page m G _ _ Hd), Hm. lia.
Qed.

(** The bytes of user memory from [va]. *)
Definition ubytes (m : mem) (G : gmap (list Z) Z) (va n : Z) : list Z :=
  (fun a => m (uaddr m G a)) <$> seqZ va n.

Lemma ubytes_app m G va n1 n2 :
  0 <= n1 -> 0 <= n2 -> ubytes m G va (n1 + n2) = ubytes m G va n1 ++ ubytes m G (va + n1) n2.
Proof. intros. unfold ubytes. now rewrite seqZ_app, fmap_app by lia. Qed.

Lemma load_ubytes m G va n :
  0 <= va -> 0 <= n -> va mod PGSIZE + n <= PGSIZE -> load m (uaddr m G va) (Z.to_nat n) = ubytes m G va n.
Proof.
  intros Hv Hn Hr. unfold load, ubytes, seqZ. rewrite <- list_fmap_compose.
  apply map_ext_in. intros i Hi. apply in_seq in Hi. cbn.
  rewrite (Z.add_comm (Z.of_nat i)), uaddr_shift by lia. done.
Qed.

(** The first [n] bytes of the [len] at [va] are accessible and the next is not. *)
Definition user_prefix (m : mem) (G : gmap (list Z) Z) (va len n : Z) : Prop :=
  0 <= n <= len /\ (forall i, 0 <= i < n -> upage m G (va + i) = true) /\
  (n < len -> upage m G (va + n) = false).

(** The bytes handled in one iteration: to the end of the page, or all. *)
Definition chunk (va len : Z) : Z :=
  if len <? PGSIZE - va mod PGSIZE then len else PGSIZE - va mod PGSIZE.

Lemma chunk_bounds va len :
  0 <= va -> 0 < len ->
  0 < chunk va len <= len /\ va mod PGSIZE + chunk va len <= PGSIZE /\
  (chunk va len < len -> va / PGSIZE * PGSIZE + PGSIZE = va + chunk va len).
Proof.
  intros Hv Hl. unfold chunk. pose proof (Z.mod_pos_bound va PGSIZE ltac:(done)).
  pose proof (Z.div_mod va PGSIZE ltac:(done)).
  destruct (Z.ltb_spec len (PGSIZE - va mod PGSIZE)); lia.
Qed.

Lemma user_prefix_chunk m G va len n :
  0 <= va -> 0 < len -> upage m G va = true ->
  user_prefix m G (va + chunk va len) (len - chunk va len) n ->
  user_prefix m G va len (chunk va len + n).
Proof.
  intros Hv Hl Hu (Hn & Hp & Hnot). destruct (chunk_bounds va len Hv Hl) as (Hc & Hr & _).
  split; [lia|]. split.
  - intros i Hi. destruct (decide (i < chunk va len)).
    + rewrite (upage_same m G (va + i) va); [done|lia|lia|]. apply div_mod_shift; lia.
    + replace (va + i) with (va + chunk va len + (i - chunk va len)) by lia. apply Hp. lia.
  - intros H. rewrite Z.add_assoc. apply Hnot. lia.
Qed.

Lemma user_prefix_none m G va len : 0 < len -> upage m G va = false -> user_prefix m G va len 0.
Proof. intros Hl Hu. split; [lia|]. split; [lia|]. now rewrite Z.add_0_r. Qed.

Lemma walkaddr_user k e root G va :
  aspace e (k_mem k) root G -> 0 <= va < 2 ^ 64 ->
  walkaddr root (PGROUNDDOWN va) k =
    Ok (if upage (k_mem k) G va then PTE2PA (pte_of (k_mem k) G va) else 0) k.
Proof.
  intros [He Hpt _ _] Hv. rewrite PGROUNDDOWN_eq by done.
  assert (Hd : va / PGSIZE * PGSIZE / PGSIZE = va / PGSIZE) by now apply Z.div_mul.
  pose proof (page_floor va ltac:(lia)).
  assert (0 <= va / PGSIZE) by (apply Z.div_pos; lia || done).
  rewrite (walkaddr_run k e root G _ He Hpt) by (unfold PGSIZE in *; lia).
  rewrite <- (upage_same _ G (va / PGSIZE * PGSIZE) va) by (done || (unfold PGSIZE in *; lia)).
  unfold upage. now rewrite (pte_of_same_page _ G _ _ Hd).
Qed.

Lemma page_offset va : 0 <= va < 2 ^ 64 -> va - PGROUNDDOWN va = va mod PGSIZE.
Proof. intros Hv. rewrite PGROUNDDOWN_eq by done. pose proof (Z.div_mod va PGSIZE ltac:(done)). lia. Qed.

Lemma next_page va len :
  0 <= va -> 0 < len -> va + len <= 2 ^ 63 -> chunk va len < len ->
  u64 (PGROUNDDOWN va + PGSIZE) = va + chunk va len.
Proof.
  intros Hv Hl Hm Hc. destruct (chunk_bounds va len Hv Hl) as (Hb & _ & H).
  specialize (H Hc). rewrite PGROUNDDOWN_eq, H by lia. apply u64_small. lia.
Qed.

Lemma copyin_loop_run e root G k fuel : forall va len,
  aspace e (k_mem k) root G -> 0 <= va -> 0 <= len -> va + len <= 2 ^ 63 -> (Z.to_nat len <= fuel)%nat ->
  exists n, user_prefix (k_mem k) G va len n /\
    copyin_loop fuel root va len k = Ok (if n =? len then 0 else -1, ubytes (k_mem k) G va n) k.
Proof.
  induction fuel as [|fuel IH]; intros va len Has Hv Hl Hm Hf.
  - exists 0. assert (len = 0) as -> by lia. split; [split; [lia|split; lia]|done].
  - cbn [copyin_loop]. destruct (Z.ltb_spec 0 len) as [Hpos|Hz]; cbn [negb].
    2:{ assert (len = 0) as -> by lia. exists 0. split; [split; [lia|split; lia]|done]. }
    kstep (walkaddr_user k e root G va Has ltac:(lia)).
    destruct (upage (k_mem k) G va) eqn:Hu.
    2:{ exists 0. split; [now apply user_prefix_none|]. now rewrite (proj2 (Z.eqb_neq 0 len)) by lia. }
    destruct (as_frame _ _ _ _ Has va Hv Hu) as (_ & Hnz & _). rewrite (proj2 (nz_true _)) by lia. cbn [negb].
    rewrite page_offset by lia. change (if len <? _ then _ else _) with (chunk va len).
    change (PTE2PA (pte_of (k_mem k) G va) + va mod PGSIZE) with (uaddr (k_mem k) G va).
    destruct (chunk_bounds va len Hv Hpos) as (Hc & Hr & _). unfold bind at 1, gets at 1.
    rewrite load_ubytes by lia.
    assert (exists n, user_prefix (k_mem k) G (va + chunk va len) (len - chunk va len) n /\
      copyin_loop fuel root (u64 (PGROUNDDOWN va + PGSIZE)) (len - chunk va len) k =
        Ok (if n =? len - chunk va len then 0 else -1, ubytes (k_mem k) G (va + chunk va len) n) k) as (n & Hp & Hk).
    { destruct (decide (chunk va len < len)).
      - rewrite (next_page va len) by lia. apply IH; (done || lia).
      - exists 0. assert (chunk va len = len) as -> by lia. rewrite Z.sub_diag.
        split; [split; [lia|split; lia]|]. destruct fuel; done. }
    kstep Hk. exists (chunk va len + n). split; [now apply user_prefix_chunk|].
    destruct Hp as [Hn _]. unfold ret. rewrite ubytes_app by lia.
    destruct (Z.eqb_spec n (len - chunk va len)), (Z.eqb_spec (chunk va len + n) len); (done || lia).
Qed.

(** The bytes [src] have been written at the user addresses from [va]. *)
Definition user_written (m m' : mem) (G : gmap (list Z) Z) (va : Z) (src : list Z) : Prop :=
  (forall i b, src !! i = Some b -> m' (uaddr m G (va + Z.of_nat i)) = b) /\
  (forall x, (forall i, (i < length src)%nat -> x <> uaddr m G (va + Z.of_nat i)) -> m' x = m x).

(** User bytes at different addresses are different bytes of memory. *)
Lemma uaddr_inj e m root G va vb :
  aspace e m root G -> 0 <= va -> 0 <= vb -> upage m G va = true -> upage m G vb = true ->
  uaddr m G va = uaddr m G vb -> va = vb.
Proof.
  intros Has Ha Hb Hua Hub H. unfold uaddr in H.
  destruct (as_frame _ _ _ _ Has va Ha Hua) as (Hfa & _). destruct (as_frame _ _ _ _ Has vb Hb Hub) as (Hfb & _).
  pose proof (as_inj _ _ _ _ Has va vb Ha Hb Hua Hub) as Hi.
  pose proof (Z.mod_pos_bound va PGSIZE ltac:(done)). pose proof (Z.mod_pos_bound vb PGSIZE ltac:(done)).
  pose proof (Z.div_mod va PGSIZE ltac:(done)). pose proof (Z.div_mod vb PGSIZE ltac:(done)).
  set (p := PTE2PA (pte_of m G va)) in *. set (q := PTE2PA (pte_of m G vb)) in *.
  assert (p = q) as Hpq; [|specialize (Hi Hpq); unfold PGSIZE in *; lia].
  apply Z.mod_divide in Hfa, Hfb; [|done..]. destruct Hfa as [x ->], Hfb as [y ->]. unfold PGSIZE in *. lia.
Qed.

Lemma store_lookup m a bs i b : bs !! i = Some b -> store m a bs (a + Z.of_nat i) = b.
Proof.
  intros H. pose proof (lookup_lt_Some _ _ _ H).
  pose proof (load_store m a bs) as E. rewrite <- E in H. unfold load in H.
  rewrite list_lookup_fmap in H. rewrite lookup_seq_lt in H by done. now injection H.
Qed.

Lemma in_page_uaddr e m root G va path p :
  aspace e m root G -> 0 <= va -> upage m G va = true -> G !! path = Some p -> ~ in_page p (uaddr m G va).
Proof.
  intros Has Hv Hu Hp. destruct (as_frame _ _ _ _ Has va Hv Hu) as (Hal & _ & Hne).
  destruct (pt_page _ _ _ _ (as_pt _ _ _ _ Has) _ _ Hp) as [[Hp1 _] _].
  apply (pages_disjoint p _ _ Hp1 Hal); [now apply (Hne path)|].
  unfold uaddr. pose proof (Z.mod_pos_bound va PGSIZE ltac:(done)). lia.
Qed.

(** Writing accessible user bytes leaves the address space as it is. *)
Lemma user_written_aspace e m m' root G va src :
  aspace e m root G -> 0 <= va ->
  (forall i, (i < length src)%nat -> upage m G (va + Z.of_nat i) = true) ->
  user_written m m' G va src -> aspace e m' root G /\ forall a, pte_of m' G a = pte_of m G a.
Proof.
  intros Has Hv Hu [_ Hout]. apply (aspace_frame e m m' root G Has). intros path p x Hp Hx.
  apply Hout. intros i Hi ->. revert Hx. eapply in_page_uaddr; eauto. lia.
Qed.

Lemma user_written_app e m m1 m2 root G va s1 s2 :
  aspace e m root G -> 0 <= va ->
  (forall i, (i < length (s1 ++ s2))%nat -> upage m G (va + Z.of_nat i) = true) ->
  user_written m m1 G va s1 -> (forall a, pte_of m1 G a = pte_of m G a) ->
  user_written m1 m2 G (va + Z.of_nat (length s1)) s2 -> user_written m m2 G va (s1 ++ s2).
Proof.
  intros Has Hv Hu [Hin1 Hout1] Hp [Hin2 Hout2].
  assert (Hua : forall a, uaddr m1 G a = uaddr m G a) by (intros a; unfold uaddr; now rewrite Hp).
  split.
  - intros i b Hb. apply lookup_app_Some in Hb as [Hb|[Hge Hb]].
    + pose proof (lookup_lt_Some _ _ _ Hb). rewrite Hout2; [now apply Hin1|].
      intros j Hj. rewrite Hua. intros Heq. rewrite length_app in Hu.
      apply (uaddr_inj e m root G _ _ Has) in Heq; [lia|lia|lia|apply Hu; lia|].
      rewrite <- Z.add_assoc, <- Nat2Z.inj_add. apply Hu. lia.
    + rewrite <- (Hin2 _ _ Hb), Hua. do 2 f_equal. lia.
  - intros x Hx. rewrite length_app in Hx. rewrite Hout2; [apply Hout1|].
    + intros i Hi. apply Hx. lia.
    + intros i Hi. rewrite Hua, <- Z.add_assoc, <- Nat2Z.inj_add. apply Hx. lia.
Qed.

Lemma store_user_written m G va bs :
  0 <= va -> va mod PGSIZE + Z.of_nat (length bs) <= PGSIZE ->
  user_written m (store m (uaddr m G va) bs) G va bs.
Proof.
  intros Hv Hr. split.
  - intros i b Hb. pose proof (lookup_lt_Some _ _ _ Hb). rewrite uaddr_shift by lia. now apply store_lookup.
  - intros x Hx. apply store_other. intros Hin. apply (Hx (Z.to_nat (x - uaddr m G va))); [lia|].
    rewrite uaddr_shift by lia. lia.
Qed.

(** The first chunk of [copyout], and the effect of the remaining ones. *)
Lemma copyout_chunk e m root G va src :
  let len := Z.of_nat (length src) in
  let c := chunk va len in
  let m1 := store m (uaddr m G va) (take (Z.to_nat c) src) in
  aspace e m root G -> 0 <= va -> 0 < len -> upage m G va = true ->
  aspace e m1 root G /\
  forall n m2, user_prefix m1 G (va + c) (len - c) n ->
    user_written m1 m2 G (va + c) (take (Z.to_nat n) (drop (Z.to_nat c) src)) ->
    user_prefix m G va len (c + n) /\ user_written m m2 G va (take (Z.to_nat (c + n)) src).
Proof.
  intros len c m1 Has Hv Hpos Hu. destruct (chunk_bounds va len Hv Hpos) as (Hc & Hr & _). fold c in Hc, Hr.
  assert (Hlt : length (take (Z.to_nat c) src) = Z.to_nat c) by (rewrite length_take; lia).
  assert (Hw1 : user_written m m1 G va (take (Z.to_nat c) src)) by (apply store_user_written; lia).
  assert (Hu1 : forall i, (i < length (take (Z.to_nat c) src))%nat -> upage m G (va + Z.of_nat i) = true).
  { intros i Hi. rewrite (upage_same _ G _ va); [done|lia|lia|]. apply div_mod_shift; lia. }
  destruct (user_written_aspace e m m1 root G va _ Has Hv Hu1 Hw1) as [Has1 Hp1].
  split; [done|]. intros n m2 Hpre Hw2.
  assert (Hpre' : user_prefix m G va len (c + n)).
  { apply user_prefix_chunk; [done..|]. unfold user_prefix, upage in *. setoid_rewrite Hp1 in Hpre. exact Hpre. }
  split; [done|]. destruct Hpre as [Hn _]. destruct Hpre' as (_ & Hup & _).
  rewrite Z2Nat.inj_add by lia.
  assert (Hs : take (Z.to_nat c + Z.to_nat n) src = take (Z.to_nat c) src ++ take (Z.to_nat n) (drop (Z.to_nat c) src))
    by now rewrite take_take_drop.
  rewrite Hs. apply (user_written_app e m m1 m2 root); try done.
  - intros i Hi. apply Hup. rewrite length_app, !length_take, length_drop in Hi. lia.
  - rewrite Hlt, Z2Nat.id by lia. done.
Qed.

Lemma copyout_loop_cons fuel root va b0 src0 :
  let src := b0 :: src0 in
  copyout_loop (S fuel) root va src =
    (let* pa0 := walkaddr root (PGROUNDDOWN va) in
     if negb (nz pa0) then ret (-1) else
     let n := if Z.of_nat (length src) <? PGSIZE - (va - PGROUNDDOWN va) then Z.of_nat (length src)
              else PGSIZE - (va - PGROUNDDOWN va) in
     memwrite (pa0 + (va - PGROUNDDOWN va)) (take (Z.to_nat n) src) ;;;
     copyout_loop fuel root (u64 (PGROUNDDOWN va + PGSIZE)) (drop (Z.to_nat n) src)).
Proof. done. Qed.

Lemma copyout_loop_run e root G fuel : forall k va src,
  aspace e (k_mem k) root G -> 0 <= va -> va + Z.of_nat (length src) <= 2 ^ 63 -> (length src <= fuel)%nat ->
  exists n m', user_prefix (k_mem k) G va (Z.of_nat (length src)) n /\
    copyout_loop fuel root va src k = Ok (if n =? Z.of_nat (length src) then 0 else -1) (set_k_mem m' k) /\
    user_written (k_mem k) m' G va (take (Z.to_nat n) src).
Proof.
  induction fuel as [|fuel IH]; intros k va [|b0 src0] Has Hv Hm Hf; try (cbn in Hf; lia).
  1,2: exists 0, (k_mem k); destruct k; (split; [split; [done|split; cbn; lia]|done]).
  rewrite copyout_loop_cons. set (src := b0 :: src0) in *.
  assert (Hpos : 0 < Z.of_nat (length src)) by (cbn; lia). clearbody src.
  kstep (walkaddr_user k e root G va Has ltac:(lia)).
  destruct (upage (k_mem k) G va) eqn:Hu.
  2:{ exists 0, (k_mem k). split; [now apply user_prefix_none|].
      rewrite (proj2 (Z.eqb_neq 0 (Z.of_nat (length src)))) by lia. destruct k. done. }
  destruct (as_frame _ _ _ _ Has va Hv Hu) as (_ & Hnz & _). rewrite (proj2 (nz_true _)) by lia. cbn [negb].
  rewrite page_offset by lia. change (if Z.of_nat (length src) <? _ then _ else _) with (chunk va (Z.of_nat (length src))).
  change (PTE2PA (pte_of (k_mem k) G va) + va mod PGSIZE) with (uaddr (k_mem k) G va). cbv zeta.
  destruct (copyout_chunk e (k_mem k) root G va src Has Hv Hpos Hu) as [Has1 Hcomb].
  destruct (chunk_bounds va (Z.of_nat (length src)) Hv Hpos) as (Hc & _). unfold bind at 1, memwrite, modify.
  set (c := chunk va (Z.of_nat (length src))) in *. set (m1 := store _ _ _) in *.
  assert (Hld : Z.of_nat (length (drop (Z.to_nat c) src)) = Z.of_nat (length src) - c) by (rewrite length_drop; lia).
  assert (exists n m2, user_prefix m1 G (va + c) (Z.of_nat (length src) - c) n /\
    copyout_loop fuel root (u64 (PGROUNDDOWN va + PGSIZE)) (drop (Z.to_nat c) src) (set_k_mem m1 k) =
      Ok (if n =? Z.of_nat (length src) - c then 0 else -1) (set_k_mem m2 k) /\
    user_written m1 m2 G (va + c) (take (Z.to_nat n) (drop (Z.to_nat c) src))) as (n & m2 & Hp & Hk & Hw).
  { destruct (decide (c < Z.of_nat (length src))).
    - rewrite (next_page va (Z.of_nat (length src))) by (done || lia). rewrite <- Hld.
      apply (IH (set_k_mem m1 k)); [done|lia|rewrite Hld; lia|rewrite length_drop; lia].
    - exists 0, m1. rewrite (drop_ge src) by lia. assert (c = Z.of_nat (length src)) as -> by lia. rewrite Z.sub_diag.
      split; [split; [lia|split; lia]|]. destruct fuel; done. }
  exists (c + n), m2. destruct (Hcomb n m2 Hp Hw) as [Hp' Hw']. split; [done|]. split; [|done].
  rewrite Hk. destruct (Z.eqb_spec n (Z.of_nat (length src) - c)), (Z.eqb_spec (c + n) (Z.of_nat (length src))); (done || lia).
Qed.

(** C22: [copyout] followed by [copyin] moves the bytes through the page table.
    Copying [src] to the user range at [va] succeeds exactly when every byte of
    the range is on a valid user page, however the range crosses pages, and then
    writes those bytes and no others; on failure it has written up to the first
    page that is not accessible.  Reading the range back gives [src]. *)
Theorem copyout_copyin e k root G va src :
  aspace e (k_mem k) root G -> 0 <= va -> va + Z.of_nat (length src) <= 2 ^ 63 ->
  exists n m', user_prefix (k_mem k) G va (Z.of_nat (length src)) n /\
    copyout root va src k = Ok (if n =? Z.of_nat (length src) then 0 else -1) (set_k_mem m' k) /\
    user_written (k_mem k) m' G va (take (Z.to_nat n) src) /\
    (forall a, pte_of m' G a = pte_of (k_mem k) G a) /\
    copyin root va (Z.of_nat (length src)) (set_k_mem m' k) =
      Ok (if n =? Z.of_nat (length src) then 0 else -1, take (Z.to_nat n) src) (set_k_mem m' k).
Proof.
  intros Has Hv Hm. destruct (copyout_loop_run e root G (length src) k va src Has Hv Hm ltac:(lia))
    as (n & m' & Hp & Hk & Hw). exists n, m'. split; [done|]. split; [done|]. split; [done|].
  destruct Hp as (Hn & Hup & Hnot).
  assert (Hup1 : forall i, (i < length (take (Z.to_nat n) src))%nat -> upage (k_mem k) G (va + Z.of_nat i) = true)
    by (intros i Hi; apply Hup; rewrite length_take in Hi; lia).
  destruct (user_written_aspace e (k_mem k) m' root G va _ Has Hv Hup1 Hw) as [Has' Hp'].
  split; [done|].
  destruct (copyin_loop_run e root G (set_k_mem m' k) (length src) va (Z.of_nat (length src)) Has' Hv ltac:(lia) Hm ltac:(lia))
    as (n' & (Hn' & Hup' & Hnot') & Hk'). unfold copyin. rewrite Nat2Z.id, Hk'.
  assert (Heq : forall a, upage (k_mem (set_k_mem m' k)) G a = upage (k_mem k) G a)
    by (intros a; unfold upage; cbn [k_mem set_k_mem]; now rewrite Hp').
  assert (n' = n) as ->.
  { destruct (Z.lt_trichotomy n' n) as [H|[H|H]]; [|done|].
    - specialize (Hup n' ltac:(lia)). rewrite <- Heq, Hnot' in Hup by lia. done.
    - specialize (Hup' n ltac:(lia)). rewrite Heq, Hnot in Hup' by lia. done. }
  f_equal. f_equal. cbn [k_mem set_k_mem]. apply list_eq. intros i. unfold ubytes. rewrite list_lookup_fmap.
  destruct (decide (i < Z.to_nat n)%nat).
  - rewrite lookup_seqZ_lt by lia. cbn. destruct Hw as [Hin _].
    destruct (lookup_lt_is_Some_2 (take (Z.to_nat n) src) i) as [b Hb]; [rewrite length_take; lia|].
    rewrite Hb, <- (Hin i b Hb). unfold uaddr. now rewrite Hp'.
  - rewrite lookup_seqZ_ge by lia. symmetry. apply lookup_ge_None. rewrite length_take. lia.
Qed.

(** A table with three pages that maps the user pages 0 and 1 to the frames
    0x87ff1000 and 0x87ff0000. *)
Definition small_mem : mem :=
  store64 (store64 (store64 (store64 (fun _ => 0)
    0x87ffd000 (Z.lor (PA2PTE 0x87ffe000) PTE_V)) 0x87ffe000 (Z.lor (PA2PTE 0x87fff000) PTE_V))
    0x87fff000 (Z.lor (PA2PTE 0x87ff1000) 0x1f)) 0x87fff008 (Z.lor (PA2PTE 0x87ff0000) 0x1f).
Definition small_table : gmap (list Z) Z :=
  <[ [] := 0x87ffd000 ]> (<[ [0] := 0x87ffe000 ]> {[ [0; 0] := 0x87fff000 ]}).

Lemma small_mem_entry a :
  a mod 8 = 0 ->
  load64 small_mem a =
    if a =? 0x87ffd000 then Z.lor (PA2PTE 0x87ffe000) PTE_V
    else if a =? 0x87ffe000 then Z.lor (PA2PTE 0x87fff000) PTE_V
    else if a =? 0x87fff000 then Z.lor (PA2PTE 0x87ff1000) 0x1f
    else if a =? 0x87fff008 then Z.lor (PA2PTE 0x87ff0000) 0x1f else 0.
Proof.
  intros Ha. apply Z.mod_divide in Ha; [|lia]. destruct Ha as [x ->]. unfold small_mem.
  repeat match goal with |- context [?y =? ?c] => destruct (Z.eqb_spec y c) as [->|?] end;
    repeat (rewrite load64_store64_ne by lia); rewrite ?load64_store64; try done.
Qed.

Lemma small_table_lookup path p :
  small_table !! path = Some p <->
  (path = [] /\ p = 0x87ffd000) \/ (path = [0] /\ p = 0x87ffe000) \/ (path = [0; 0] /\ p = 0x87fff000).
Proof.
  unfold small_table. rewrite !lookup_insert, lookup_singleton. repeat case_decide; subst; naive_solver.
Qed.

Lemma small_pte va :
  pte_of small_mem small_table va =
    if (PX 2 va =? 0) && (PX 1 va =? 0) then
      if PX 0 va =? 0 then Z.lor (PA2PTE 0x87ff1000) 0x1f
      else if PX 0 va =? 1 then Z.lor (PA2PTE 0x87ff0000) 0x1f else 0
    else 0.
Proof.
  unfold pte_of, leaf. destruct (small_table !! _) as [p|] eqn:E; cbn [mbind option_bind].
  - apply small_table_lookup in E as [[E _]|[[E _]|[[= E1 E2] ->]]]; [done|done|]. rewrite E1, E2. cbn [Z.eqb andb].
    pose proof (PX_range 0 va). rewrite small_mem_entry.
    + repeat match goal with |- context [?y =? ?c] => destruct (Z.eqb_spec y c) end; (done || lia).
    + replace (0x87fff000 + 8 * PX 0 va) with ((0x10fffe00 + PX 0 va) * 8) by lia. now apply Z.mod_mul.
  - destruct (Z.eqb_spec (PX 2 va) 0) as [E1|]; [|done]. destruct (Z.eqb_spec (PX 1 va) 0) as [E2|]; [|done].
    rewrite E1, E2 in E. done.
Qed.

Lemma small_aspace : aspace 0x80026000 small_mem 0x87ffd000 small_table.
Proof.
  split; [done|split| |].
  - done.
  - intros path p [[-> ->]|[[-> ->]|[-> ->]]]%small_table_lookup; (split; [done|cbn; lia]).
  - intros a b p Ha%small_table_lookup Hb%small_table_lookup. naive_solver.
  - intros path i [p H%small_table_lookup].
    destruct H as [[H _]|[[H _]|[H _]]]; [now destruct path|destruct path as [|? [] ]; try done|].
    destruct path as [|x [|? [|? [] ] ] ]; try done; injection H as -> _; done.
  - intros path p i Hp Hlen Hi. cbn zeta.
    assert (Hm : (p + 8 * i) mod 8 = 0) by (rewrite Z.mul_comm, Z_mod_plus_full; 
      apply small_table_lookup in Hp as [[_ ->]|[[_ ->]|[_ ->]]]; done).
    rewrite small_mem_entry by done. apply small_table_lookup in Hp as [[-> ->]|[[-> ->]|[-> ->]]]; [| |cbn in Hlen; lia].
    all: cbn [app]; destruct (small_table !! _) as [c|] eqn:E;
      [apply small_table_lookup in E as [[E ->]|[[E ->]|[E ->]]]; try done; injection E as ->; done|].
    all: assert (i <> 0) by (intros ->; done);
      repeat match goal with |- context [?y =? ?c] => destruct (Z.eqb_spec y c) end; (done || lia).
  - intros va Hva. unfold upage. rewrite small_pte. destruct (va <? MAXVA); [|done].
    destruct ((PX 2 va =? 0) && _); [|done]. destruct (PX 0 va =? 0); [|destruct (PX 0 va =? 1); [|done]];
    intros _; (split; [done|]; split; [done|]); intros path p Hp%small_table_lookup; naive_solver.
  - intros va vb Ha Hb. unfold upage. rewrite !small_pte.
    destruct (Z.ltb_spec va MAXVA); [|done]. destruct (Z.ltb_spec vb MAXVA); [|done].
    destruct ((PX 2 va =? 0) && _) eqn:E1; [|done]. destruct ((PX 2 vb =? 0) && _) eqn:E2; [|done].
    apply andb_true_iff in E1 as [E1%Z.eqb_eq E1'%Z.eqb_eq]. apply andb_true_iff in E2 as [E2%Z.eqb_eq E2'%Z.eqb_eq].
    intros Hu1 Hu2 Heq. apply PX_page; [done|done|congruence..|].
    repeat match goal with H : context [?y =? ?c] |- _ => destruct (Z.eqb_spec y c) end; (done || congruence || lia).
Qed.

Example copyout_copyin_witness :
  aspace 0x80026000 small_mem 0x87ffd000 small_table /\
  exists n m', user_prefix small_mem small_table 0xffe 4 n /\
    copyout 0x87ffd000 0xffe [10; 20; 30; 40] (set_k_mem small_mem boot_state) =
      Ok (if n =? 4 then 0 else -1) (set_k_mem m' boot_state) /\
    user_written small_mem m' small_table 0xffe (take (Z.to_nat n) [10; 20; 30; 40]) /\
    (forall a, pte_of m' small_table a = pte_of small_mem small_table a) /\
    copyin 0x87ffd000 0xffe 4 (set_k_mem m' boot_state) =
      Ok (if n =? 4 then 0 else -1, take (Z.to_nat n) [10; 20; 30; 40]) (set_k_mem m' boot_state).
Proof.
  split; [exact small_aspace|].
  exact (copyout_copyin 0x80026000 (set_k_mem small_mem boot_state) 0x87ffd000 small_table 0xffe [10; 20; 30; 40]
    small_aspace ltac:(done) ltac:(done)).
Defined.
