(* ===== verification/Sched.v ===== *)
(** * Scheduling, sleep and wakeup (kernel/proc.c)

    The part of proc.c the rest of the kernel builds on.  A kernel thread that
    calls [swtch] stops: the run of its code ends with [Susp Swtch], and what the
    thread does when the scheduler switches back to it is the [_return] part of
    the same C function.  A loop [while(c) sleep(..)] therefore reads: test [c];
    when it holds, run [sleep], which stops; once woken, run [sleep_return] and
    test again. *)

From stdpp Require Import base numbers list gmap strings.
From S2P Require Import Prelude Kstate Kstring Spinlock Kalloc Vm.

(** The process table, in table order. *)
Definition all_procs : list nat := seq 0 NPROC.

Definition allocpid : K Z :=
  acquire LK_pid ;;;
  let* pid := gets k_nextpid in
  modify (set_k_nextpid (i32 (pid + 1))) ;;;
  release LK_pid ;;;
  ret pid.

(** ** Giving up the CPU *)

(** [sched] up to [swtch]. *)
Definition sched : K unit :=
  let* p := myproc_ix in
  let* h := holding (LK_proc p) in
  if negb h then panic "sched p->lock" else
  let* c := mycpu in
  if negb (h_noff c =? 1) then panic "sched locks" else
  let* pr := gets (get_proc p) in
  if bool_decide (p_state pr = RUNNING) then panic "sched running" else
  let* i := intr_get in
  if (i : bool) then panic "sched interruptible" else
  suspend_with Swtch.

(** [sched] after [swtch] returns: restores the [intena] it saved. *)
Definition sched_return (intena : bool) : K unit := modify (upd_hart (set_h_intena intena)).

Definition yield : K unit :=
  let* p := myproc_ix in
  acquire (LK_proc p) ;;;
  modify (upd_proc p (set_p_state RUNNABLE)) ;;;
  sched.
Definition yield_return (intena : bool) : K unit :=
  sched_return intena ;;;
  let* p := myproc_ix in
  release (LK_proc p).

Definition sleep (ch : chan) (lk : lockname) : K unit :=
  let* p := myproc_ix in
  when (negb (bool_decide (lk = LK_proc p))) (acquire (LK_proc p) ;;; release lk) ;;;
  modify (upd_proc p (set_p_chan ch)) ;;;
  modify (upd_proc p (set_p_state SLEEPING)) ;;;
  sched.
Definition sleep_return (intena : bool) (lk : lockname) : K unit :=
  sched_return intena ;;;
  let* p := myproc_ix in
  modify (upd_proc p (set_p_chan CH_none)) ;;;
  when (negb (bool_decide (lk = LK_proc p))) (release (LK_proc p) ;;; acquire lk).

Definition wakeup (ch : chan) : K unit :=
  for_each all_procs (fun p =>
    acquire (LK_proc p) ;;;
    let* pr := gets (get_proc p) in
    when (bool_decide (p_state pr = SLEEPING) && bool_decide (p_chan pr = ch))
      (modify (upd_proc p (set_p_state RUNNABLE))) ;;;
    release (LK_proc p)).

Definition wakeup1 (p : nat) : K unit :=
  let* h := holding (LK_proc p) in
  if negb h then panic "wakeup1" else
  let* pr := gets (get_proc p) in
  when (bool_decide (p_chan pr = CH_proc p) && bool_decide (p_state pr = SLEEPING))
    (modify (upd_proc p (set_p_state RUNNABLE))).

Definition kill (pid : Z) : K Z :=
  let* r := for_ret all_procs (fun p =>
    acquire (LK_proc p) ;;;
    let* pr := gets (get_proc p) in
    if p_pid pr =? pid then
      modify (upd_proc p (set_p_killed 1)) ;;;
      when (bool_decide (p_state pr = SLEEPING)) (modify (upd_proc p (set_p_state RUNNABLE))) ;;;
      release (LK_proc p) ;;;
      ret (Some 0)
    else release (LK_proc p) ;;; ret None) in
  ret (match r with Some v => v | None => -1 end).

(** One turn of the scheduler's loop for table entry [p]: it switches to a
    runnable process, ... *)
Definition scheduler_visit (p : nat) : K unit :=
  acquire (LK_proc p) ;;;
  let* pr := gets (get_proc p) in
  if bool_decide (p_state pr = RUNNABLE) then
    modify (upd_proc p (set_p_state RUNNING)) ;;;
    modify (upd_hart (set_h_proc (Some p))) ;;;
    suspend_with Swtch
  else release (LK_proc p).
(** ... and goes on here when the process switches back. *)
Definition scheduler_return (p : nat) : K unit :=
  modify (upd_hart (set_h_proc None)) ;;;
  release (LK_proc p).

(** ** Copying to and from user or kernel addresses *)

Definition either_copyout (user_dst : bool) (dst : Z) (src : list Z) : K Z :=
  let* p := myproc in
  if user_dst then
    match p with
    | Some i => let* pr := gets (get_proc i) in copyout (p_pagetable pr) dst src
    | None => panic "null proc"
    end
  else memwrite dst src ;;; ret 0.

Definition either_copyin (user_src : bool) (src len : Z) : K (Z * list Z) :=
  let* p := myproc in
  if user_src then
    match p with
    | Some i => let* pr := gets (get_proc i) in copyin (p_pagetable pr) src len
    | None => panic "null proc"
    end
  else
    let* bytes := gets (fun k => load (k_mem k) src (Z.to_nat len)) in ret (0, bytes).

(** ** Wakeup *)

(** No process lock is held, and the table has its full length. *)
Definition procs_free (k : kernel) : Prop := forall p, lock_free (LK_proc p) k.
Definition table_ok (k : kernel) : Prop := length (k_procs k) = NPROC.

(** What [wakeup ch] does to one process. *)
Definition wake (ch : chan) (pr : proc) : proc :=
  if bool_decide (p_state pr = SLEEPING) && bool_decide (p_chan pr = ch)
  then set_p_state RUNNABLE pr else pr.

Lemma noise_procs k k' : noise k k' -> k_procs k' = k_procs k.
Proof. now apply (noise_eq k_procs). Qed.

Lemma noise_set_procs ps k k' : noise k k' -> noise (set_k_procs ps k) (set_k_procs ps k').
Proof. now apply (noise_update (set_k_procs ps)). Qed.

Lemma noise_procs_free k k' : noise k k' -> procs_free k -> procs_free k'.
Proof. intros Hn H p. exact (noise_free _ _ _ Hn (H p)). Qed.

Lemma alter_wake_step ch p k :
  upd_proc p (wake ch) k =
    if bool_decide (p_state (get_proc p k) = SLEEPING) && bool_decide (p_chan (get_proc p k) = ch)
    then upd_proc p (set_p_state RUNNABLE) k else k.
Proof.
  unfold upd_proc, get_proc. destruct (k_procs k !! p) as [pr|] eqn:E.
  - rewrite (list_lookup_total_correct _ _ _ E).
    assert (Ha : forall f, alter f p (k_procs k) = <[p := f pr]> (k_procs k)) by
      (intros f; apply list_eq; intros i; destruct (decide (i = p)) as [->|];
       [rewrite list_lookup_alter_eq, list_lookup_insert_eq by (eapply lookup_lt_Some; eauto); now rewrite E
       |now rewrite list_lookup_alter_ne, list_lookup_insert_ne]).
    rewrite !Ha. unfold wake. destruct (_ && _); [done|]. rewrite list_insert_id by done. now destruct k.
  - assert (Ha : forall f, alter f p (k_procs k) = k_procs k) by
      (intros f; apply list_eq; intros i; destruct (decide (i = p)) as [->|];
       [rewrite list_lookup_alter_eq; now rewrite E|now rewrite list_lookup_alter_ne]).
    rewrite !Ha. now destruct (_ && _), k.
Qed.

Lemma wakeup_one ch p k :
  ready k -> lock_free (LK_proc p) k ->
  wp (acquire (LK_proc p) ;;;
      let* pr := gets (get_proc p) in
      when (bool_decide (p_state pr = SLEEPING) && bool_decide (p_chan pr = ch))
        (modify (upd_proc p (set_p_state RUNNABLE))) ;;;
      release (LK_proc p)) (fun _ k' => noise (upd_proc p (wake ch) k) k') k.
Proof.
  intros Hr Hf. apply wp_bind, wp_acquire; [done|]. apply wp_bind, wp_gets. rewrite alter_wake_step.
  change (get_proc p (acquired (LK_proc p) k)) with (get_proc p k).
  apply wp_bind. destruct (_ && _); cbn [when]; [apply wp_modify|apply wp_ret];
    (eapply (wp_release _ k); [done|done| | |apply noise_refl|]; [done..|]); intros k'' Hn; [exact Hn|].
  now destruct k.
Qed.

Lemma upd_proc_noise p f k k' : noise k k' -> noise (upd_proc p f k) (upd_proc p f k').
Proof. now apply (noise_update (upd_proc p f)). Qed.

Lemma wakeup_list ch l : forall k, ready k -> procs_free k ->
  wp (for_each l (fun p =>
    acquire (LK_proc p) ;;;
    let* pr := gets (get_proc p) in
    when (bool_decide (p_state pr = SLEEPING) && bool_decide (p_chan pr = ch))
      (modify (upd_proc p (set_p_state RUNNABLE))) ;;;
    release (LK_proc p)))
   (fun _ k' => noise (set_k_procs (foldl (fun ps p => alter (wake ch) p ps) (k_procs k) l) k) k') k.
Proof.
  induction l as [|p l IH]; intros k Hr Hf; cbn [for_each foldl].
  - apply wp_ret. now destruct k.
  - apply wp_bind. eapply wp_mono; [apply (wakeup_one ch p k Hr (Hf p))|]. intros [] k1 Hn.
    eapply wp_mono; [apply IH|].
    + exact (noise_hart_ok _ _ Hn Hr).
    + exact (noise_procs_free _ _ Hn Hf).
    + intros [] k2 Hn2. rewrite (noise_procs _ _ Hn) in Hn2. etransitivity; [|exact Hn2].
      apply (noise_set_procs _ _ _ Hn).
Qed.

Lemma foldl_alter {A} (f : A -> A) l (ps : list A) :
  NoDup l -> forall i, foldl (fun ps p => alter f p ps) ps l !! i =
    if decide (i ∈ l) then f <$> ps !! i else ps !! i.
Proof.
  revert ps. induction l as [|p l IH]; intros ps Hd i; cbn [foldl]; [now case_decide; set_solver|].
  apply NoDup_cons in Hd as [Hp Hd]. rewrite IH by done.
  destruct (decide (i = p)) as [->|Hne].
  - rewrite decide_False, decide_True by set_solver. apply list_lookup_alter_eq.
  - rewrite list_lookup_alter_ne by done. repeat case_decide; set_solver.
Qed.

(** [wakeup] makes runnable exactly the processes asleep on the channel. *)
Lemma wp_wakeup ch k Q :
  ready k -> procs_free k -> table_ok k ->
  (forall k', noise (set_k_procs (map (wake ch) (k_procs k)) k) k' -> Q tt k') ->
  wp (wakeup ch) Q k.
Proof.
  intros Hr Hf Ht HQ. eapply wp_mono; [exact (wakeup_list ch all_procs k Hr Hf)|].
  intros [] k' Hn. apply HQ.
  assert (E : foldl (fun ps p => alter (wake ch) p ps) (k_procs k) all_procs = map (wake ch) (k_procs k)).
  { apply list_eq. intros i. rewrite foldl_alter by apply NoDup_seq.
    change (map (wake ch) (k_procs k)) with (wake ch <$> k_procs k). rewrite list_lookup_fmap. case_decide as Hd; [done|].
    rewrite lookup_ge_None_2; [done|]. rewrite Ht. unfold all_procs in Hd. rewrite elem_of_seq in Hd. lia. }
  now rewrite E in Hn.
Qed.

(** ** Giving up the CPU *)

Lemma pop_push_nested h : hart_ok h -> 0 < h_noff h -> popped (pushed h) = h.
Proof.
  intros Hh Hn. rewrite popped_pushed by done. rewrite (proj2 (Z.eqb_neq _ _)) by lia. now destruct h.
Qed.

(** With a lock held, [myproc] changes nothing. *)
Lemma myproc_held k :
  ready k -> 0 < h_noff (k_hart k) -> myproc k = Ok (h_proc (k_hart k)) k.
Proof.
  intros Hr Hn. unfold myproc. kstep (push_off_run k). unfold bind at 1, mycpu, gets.
  assert (E : pop_off (upd_hart pushed k) = Ok tt (upd_hart popped (upd_hart pushed k))).
  { apply pop_off_run; [apply (pushed_off (k_hart k))|]. cbn. lia. }
  kstep E. unfold ret. cbn [upd_hart k_hart set_k_hart pushed h_proc]. f_equal.
  unfold upd_hart. cbn [k_hart set_k_hart]. rewrite pop_push_nested by done. now destruct k.
Qed.

Lemma myproc_nested p k :
  ready k -> 0 < h_noff (k_hart k) -> h_proc (k_hart k) = Some p -> myproc_ix k = Ok p k.
Proof. intros Hr Hn Hp. unfold myproc_ix. kstep (myproc_held k Hr Hn). now rewrite Hp. Qed.

(** [sched] switches exactly when it holds the process lock and no other, with
    the state changed. *)
Lemma sched_run p k :
  ready k -> h_proc (k_hart k) = Some p -> 0 < h_noff (k_hart k) ->
  sched k =
    if bool_decide (held_here (LK_proc p) k) then
      if h_noff (k_hart k) =? 1 then
        if bool_decide (p_state (get_proc p k) = RUNNING) then Panic "sched running" k
        else Susp Swtch k
      else Panic "sched locks" k
    else Panic "sched p->lock" k.
Proof.
  intros Hr Hp Hn. unfold sched. kstep (myproc_nested p k Hr Hn Hp). kstep (holding_spec (LK_proc p) k).
  destruct (bool_decide (held_here _ _)); cbn [negb]; [|done].
  unfold bind at 1, mycpu, gets. destruct (h_noff (k_hart k) =? 1); cbn [negb]; [|done].
  unfold bind at 1. destruct (bool_decide _); [done|].
  assert (E : intr_get k = Ok (intr_enabled (k_hart k)) k) by done. kstep E.
  destruct Hr as (_ & _ & Hi). now rewrite Hi.
Qed.

(** The state in which [sleep] gives up the CPU. *)
Definition asleep (p : nat) (ch : chan) (lk : lockname) (k : kernel) : kernel :=
  upd_proc p (set_p_state SLEEPING) (upd_proc p (set_p_chan ch) (released lk (acquired (LK_proc p) k))).

Lemma released_acquired_ready p lk k :
  ready k -> 0 < h_noff (k_hart k) -> k_hart (released lk (acquired (LK_proc p) k)) = k_hart k.
Proof.
  intros Hr Hn. unfold released, acquired, upd_hart. cbn [k_hart set_k_hart upd_lock set_k_locks].
  now apply pop_push_nested.
Qed.

Lemma get_proc_upd p f k : (p < length (k_procs k))%nat -> get_proc p (upd_proc p f k) = f (get_proc p k).
Proof.
  intros Hp. unfold get_proc, upd_proc. cbn [k_procs set_k_procs].
  destruct (lookup_lt_is_Some_2 _ _ Hp) as [x Hx].
  rewrite (list_lookup_total_correct _ _ x Hx). apply list_lookup_total_correct.
  rewrite list_lookup_alter_eq. now rewrite Hx.
Qed.

Lemma get_proc_upd_ne p q f k : p <> q -> get_proc q (upd_proc p f k) = get_proc q k.
Proof.
  intros Hne. unfold get_proc, upd_proc. cbn [k_procs set_k_procs].
  now rewrite !list_lookup_total_alt, list_lookup_alter_ne.
Qed.

(** [sleep] with the lock [lk] held: it gives up the CPU, unless a further lock
    is held. *)
Lemma sleep_run p ch lk k :
  ready k -> h_proc (k_hart k) = Some p -> 0 < h_noff (k_hart k) -> (p < length (k_procs k))%nat ->
  lk <> LK_proc p -> held_here lk k -> lock_free (LK_proc p) k ->
  sleep ch lk k =
    if h_noff (k_hart k) =? 1 then Susp Swtch (asleep p ch lk k) else Panic "sched locks" (asleep p ch lk k).
Proof.
  intros Hr Hp Hn Hlt Hne Hheld Hf. unfold sleep. kstep (myproc_nested p k Hr Hn Hp).
  rewrite bool_decide_false by done. cbn [negb when].
  assert (E : (acquire (LK_proc p) ;;; release lk) k = Ok tt (released lk (acquired (LK_proc p) k))).
  { kstep (acquire_run (LK_proc p) k Hf). apply release_run.
    - unfold held_here. rewrite acquired_lookup, decide_False by done. exact Hheld.
    - apply (pushed_off (k_hart k)).
    - cbn. lia. }
  kstep E. unfold bind at 1, modify at 1. unfold bind at 1, modify at 1.
  fold (asleep p ch lk k). pose proof (released_acquired_ready p lk k Hr Hn) as Eh.
  assert (Eh' : k_hart (asleep p ch lk k) = k_hart k) by exact Eh.
  assert (Hh : held_here (LK_proc p) (asleep p ch lk k)).
  { split; [|rewrite Eh']; unfold asleep, upd_proc; cbn [k_locks set_k_procs];
      rewrite released_lookup, decide_False by congruence; rewrite acquired_lookup, decide_True by done; done. }
  rewrite (sched_run p) by (unfold ready; rewrite Eh'; done). rewrite bool_decide_true by done. rewrite Eh'.
  destruct (_ =? 1); [|done]. rewrite bool_decide_false; [done|]. unfold asleep.
  rewrite get_proc_upd by (cbn; now rewrite length_alter). done.
Qed.

(** ** A process sleeps and is woken

    [k] is the state in which the process [p] holds [lk] and no other lock. *)
Section sleep_cycle.
Context (p : nat) (ch : chan) (lk : lockname) (k : kernel).
Hypothesis Hr : ready k.
Hypothesis Hp : h_proc (k_hart k) = Some p.
Hypothesis Hn : h_noff (k_hart k) = 1.
Hypothesis Ht : table_ok k.
Hypothesis Hlt : (p < NPROC)%nat.
Hypothesis Hlk : forall q, lk <> LK_proc q.
Hypothesis Hheld : held_here lk k.
Hypothesis Hfree : forall l, l <> lk -> lock_free l k.

Lemma cycle_sleep : sleep ch lk k = Susp Swtch (asleep p ch lk k).
Proof.
  rewrite (sleep_run p) by (done || lia || (unfold table_ok in Ht; lia) || (apply Hfree; now symmetry)).
  now rewrite Hn.
Qed.

Lemma asleep_hart : k_hart (asleep p ch lk k) = k_hart k.
Proof. apply released_acquired_ready; [done|lia]. Qed.

Lemma asleep_locks l : l <> LK_proc p -> lock_free l (asleep p ch lk k).
Proof.
  intros Hl. unfold lock_free, asleep, upd_proc. cbn [k_locks set_k_procs].
  rewrite released_lookup. case_decide as H1; [done|]. rewrite acquired_lookup, decide_False by done. now apply Hfree.
Qed.

Lemma asleep_held : held_here (LK_proc p) (asleep p ch lk k).
Proof.
  split; [|rewrite asleep_hart]; unfold asleep, upd_proc; cbn [k_locks set_k_procs];
    rewrite released_lookup, decide_False by (intros <-; now eapply Hlk); rewrite acquired_lookup, decide_True by done; done.
Qed.

Lemma asleep_proc : get_proc p (asleep p ch lk k) = set_p_state SLEEPING (set_p_chan ch (get_proc p k)).
Proof.
  unfold table_ok in Ht. unfold asleep. rewrite !get_proc_upd; [done|cbn; lia|cbn; rewrite length_alter; lia].
Qed.
End sleep_cycle.

(** What locking and scheduling change: the hart, the locks and the table of processes. *)
Definition bookkept (k k' : kernel) : Prop := exists h l ps, k' = set_k_hart h (set_k_locks l (set_k_procs ps k)).

#[export] Instance bookkept_preorder : PreOrder bookkept.
Proof.
  split; [intros k; exists (k_hart k), (k_locks k), (k_procs k); now destruct k|].
  intros k1 k2 k3 (h & l & ps & ->) (h' & l' & ps' & ->). now exists h', l', ps'.
Qed.

Lemma bookkept_noise k k' : noise k k' -> bookkept k k'.
Proof. intros (b & l & -> & _). eexists _, l, (k_procs k). now destruct k. Qed.

Lemma bookkept_eq {A} (f : kernel -> A) k k' : (forall h l ps k, f (set_k_hart h (set_k_locks l (set_k_procs ps k))) = f k) -> bookkept k k' -> f k' = f k.
Proof. intros Hf (h & l & ps & ->). apply Hf. Qed.

Lemma bookkept_update (f : kernel -> kernel) k k' :
  (forall h l ps k, f (set_k_hart h (set_k_locks l (set_k_procs ps k))) = set_k_hart h (set_k_locks l (set_k_procs ps (f k)))) -> bookkept k k' -> bookkept (f k) (f k').
Proof. intros Hf (h & l & ps & ->). exists h, l, ps. apply Hf. Qed.

Lemma bookkept_asleep p ch lk k : bookkept k (asleep p ch lk k).
Proof. eexists _, _, _. reflexivity. Qed.

(** A state between kernel threads: no lock is held. *)
Definition idle (k : kernel) : Prop := quiet k /\ h_noff (k_hart k) = 0.

Lemma popped_ok h : hart_ok h -> h_noff h = 1 -> hart_ok (popped h) /\ h_noff (popped h) = 0.
Proof.
  intros (_ & Hs & _) Hn. unfold popped, hart_ok. cbn. rewrite Hn. split; [|lia]. split; [lia|]. split; [|lia].
  destruct (_ && _); [|done]. split; [apply Z.lor_nonneg; split; [lia|done]|].
  destruct (decide (Z.lor (h_sstatus h) SSTATUS_SIE = 0)) as [->|]; [lia|].
  apply Z.log2_lt_pow2; [pose proof (Z.lor_nonneg (h_sstatus h) SSTATUS_SIE); change SSTATUS_SIE with 2 in *; lia|].
  rewrite Z.log2_lor by (lia || done). change (Z.log2 SSTATUS_SIE) with 1. apply Z.max_lub_lt; [|lia].
  destruct (decide (h_sstatus h = 0)) as [->|]; [cbn; lia|]. apply Z.log2_lt_pow2; lia.
Qed.

(** The scheduler takes over from the process [p]. *)
Lemma scheduler_return_run p k :
  ready k -> h_noff (k_hart k) = 1 -> held_here (LK_proc p) k -> (forall l, l <> LK_proc p -> lock_free l k) ->
  exists k', scheduler_return p k = Ok tt k' /\ idle k' /\ k_procs k' = k_procs k /\ h_proc (k_hart k') = None /\ bookkept k k'.
Proof.
  intros Hr Hn Hh Hf. set (k1 := upd_hart (set_h_proc None) k).
  exists (released (LK_proc p) k1). split; [|split; [|split; [done|split; [done|eexists _, _, _; reflexivity]]]].
  - unfold scheduler_return, bind, modify. fold k1. apply release_run; [exact Hh| |cbn; lia].
    destruct Hr as (_ & _ & Hi). apply Hi. lia.
  - destruct (popped_ok (k_hart k1)) as [Ho Hz]; [exact Hr|exact Hn|]. split; [|exact Hz]. split; [exact Ho|].
    intros l. unfold lock_free. rewrite released_lookup. case_decide; [done|]. now apply Hf.
Qed.

(** The scheduler finds [p] runnable and switches to it. *)
Definition dispatched (p : nat) (k : kernel) : kernel :=
  upd_hart (set_h_proc (Some p)) (upd_proc p (set_p_state RUNNING) (acquired (LK_proc p) k)).

Lemma scheduler_visit_run p k :
  lock_free (LK_proc p) k -> p_state (get_proc p k) = RUNNABLE ->
  scheduler_visit p k = Susp Swtch (dispatched p k).
Proof.
  intros Hf Hs. unfold scheduler_visit. kstep (acquire_run (LK_proc p) k Hf). unfold bind at 1, gets.
  change (get_proc p (acquired (LK_proc p) k)) with (get_proc p k). now rewrite bool_decide_true.
Qed.

Lemma upd_lock_hart lk f k : k_hart (upd_lock lk f k) = k_hart k.
Proof. done. Qed.

(** [p] is back from [swtch] in [sleep]. *)
Lemma wp_sleep_return b p lk k :
  idle k -> (p < length (k_procs k))%nat -> lk <> LK_proc p ->
  wp (sleep_return b lk) (fun _ k' =>
      held_here lk k' /\ (forall l, l <> lk -> lock_free l k') /\ h_noff (k_hart k') = 1 /\
      h_proc (k_hart k') = Some p /\
      k_procs k' = alter (fun pr => set_p_chan CH_none (set_p_state RUNNING pr)) p (k_procs k) /\ ready k' /\ bookkept k k') (dispatched p k).
Proof.
  intros [[Hr Hf] Hz] Hlt Hne. unfold sleep_return. apply wp_bind, wp_modify.
  set (k1 := upd_hart (set_h_intena b) (dispatched p k)).
  assert (Hr1 : ready k1) by exact (hart_ok_pushed _ Hr).
  assert (Hn1 : h_noff (k_hart k1) = 1) by (cbn; lia).
  unfold wp. kstep (myproc_nested p k1 Hr1 ltac:(lia) eq_refl). unfold bind at 1, modify.
  rewrite bool_decide_false by done. cbn [negb when].
  set (k2 := upd_proc p (set_p_chan CH_none) k1).
  assert (Hh2 : held_here (LK_proc p) k2) by exact (acquired_held (LK_proc p) k).
  assert (E : release (LK_proc p) k2 = Ok tt (released (LK_proc p) k2)).
  { apply release_run; [done|exact (pushed_off (k_hart k))|cbn; lia]. }
  kstep E. rewrite (acquire_run lk).
  2:{ unfold lock_free. rewrite released_lookup, decide_False by done. unfold k2, k1, dispatched, upd_hart, upd_proc.
      cbn [k_locks set_k_procs set_k_hart]. rewrite acquired_lookup, decide_False by done. apply Hf. }
  split; [apply acquired_held|]. split; [|split; [cbn; lia|split; [done|split; [|split; [|eexists _, _, _; reflexivity]]]]].
  - intros l Hl. apply acquired_free; [done|]. unfold lock_free. rewrite released_lookup. case_decide; [done|].
    unfold k2, k1, dispatched, upd_hart, upd_proc. cbn [k_locks set_k_procs set_k_hart].
    rewrite acquired_lookup, decide_False by done. apply Hf.
  - cbn [k_procs acquired upd_lock set_k_locks upd_hart set_k_hart released k2 k1 dispatched upd_proc set_k_procs].
    apply list_eq. intros i. destruct (decide (i = p)) as [->|].
    + rewrite !list_lookup_alter_eq. now destruct (_ !! p).
    + now rewrite !list_lookup_alter_ne by done.
  - apply hart_ok_pushed. destruct (popped_ok (k_hart k2)); [exact Hr1|exact Hn1|done].
Qed.

(** C30: the life of a sleeping process.  A process that calls [sleep] holding only
    [lk] gives up the CPU with its state SLEEPING on the channel, [lk] released and
    only its own process lock held, which the scheduler then releases.  A [wakeup]
    on the channel makes it (and exactly the other sleepers on that channel)
    runnable; the scheduler can then switch to it, and it comes out of [sleep]
    holding [lk] again, and nothing else. *)
Theorem sleep_wakeup_cycle p ch lk b k :
  ready k -> h_proc (k_hart k) = Some p -> h_noff (k_hart k) = 1 -> table_ok k -> (p < NPROC)%nat ->
  (forall q, lk <> LK_proc q) -> held_here lk k -> (forall l, l <> lk -> lock_free l k) ->
  exists k1, sleep ch lk k = Susp Swtch k1 /\
    get_proc p k1 = set_p_state SLEEPING (set_p_chan ch (get_proc p k)) /\
    held_here (LK_proc p) k1 /\ (forall l, l <> LK_proc p -> lock_free l k1) /\
    wp (scheduler_return p ;;; wakeup ch) (fun _ k2 =>
      k_procs k2 = map (wake ch) (k_procs k1) /\ p_state (get_proc p k2) = RUNNABLE /\
      exists k3, scheduler_visit p k2 = Susp Swtch k3 /\
        wp (sleep_return b lk) (fun _ k4 =>
          held_here lk k4 /\ (forall l, l <> lk -> lock_free l k4) /\
          p_state (get_proc p k4) = RUNNING /\ p_chan (get_proc p k4) = CH_none) k3) k1.
Proof.
  intros Hr Hp Hn Ht Hlt Hlk Hh Hf.
  pose proof (asleep_hart p ch lk k Hr Hn Hlt) as Eh. pose proof (asleep_proc p ch lk k Ht Hlt) as Ep.
  pose proof (asleep_held p ch lk k Hr Hn Hlt Hlk Hh Hf) as Eheld. pose proof (asleep_locks p ch lk k Hf) as El.
  exists (asleep p ch lk k). split; [now apply cycle_sleep|]. split; [assumption|]. split; [assumption|]. split; [assumption|].
  assert (Hlen : length (k_procs (asleep p ch lk k)) = NPROC) by (cbn; now rewrite !length_alter).
  set (k1 := asleep p ch lk k) in *. clearbody k1.
  destruct (scheduler_return_run p k1) as (k1' & E & [Hq Hz] & Hps & _ & _);
    [unfold ready; now rewrite Eh|now rewrite Eh|done|done|].
  unfold wp at 1. kstep E.
  apply wp_wakeup; [apply Hq|intros q; apply Hq|unfold table_ok; now rewrite Hps|]. intros k2 Hn2.
  pose proof (noise_procs _ _ Hn2) as Hps2. cbn [k_procs set_k_procs] in Hps2. rewrite Hps in Hps2.
  assert (Hp2 : get_proc p k2 = wake ch (get_proc p k1)).
  { unfold get_proc. rewrite Hps2. apply list_lookup_total_correct.
    change (map (wake ch) (k_procs k1)) with (wake ch <$> k_procs k1). rewrite list_lookup_fmap.
    destruct (lookup_lt_is_Some_2 (k_procs k1) p ltac:(lia)) as [x Hx]. rewrite Hx. now rewrite (list_lookup_total_correct _ _ _ Hx). }
  assert (Hst : p_state (get_proc p k2) = RUNNABLE).
  { rewrite Hp2, Ep. unfold wake. cbn. now rewrite !bool_decide_true. }
  split; [done|]. split; [done|]. exists (dispatched p k2).
  pose proof (noise_quiet _ _ Hn2 Hq) as Hq2.
  split; [apply scheduler_visit_run; [apply Hq2|done]|].
  assert (Hlen2 : (p < length (k_procs k2))%nat) by (rewrite Hps2, length_map; lia).
  eapply wp_mono; [apply (wp_sleep_return b p lk k2)|]; [|done|done|].
  - split; [exact Hq2|]. now destruct Hn2 as (? & ? & -> & _).
  - intros [] k4 (H1 & H2 & _ & _ & H5 & _). split; [done|]. split; [done|].
    unfold get_proc. destruct (lookup_lt_is_Some_2 _ _ Hlen2) as [x Hx].
    rewrite H5, (list_lookup_total_correct _ p (set_p_chan CH_none (set_p_state RUNNING x)));
      [done|]. rewrite list_lookup_alter_eq. now rewrite Hx.
Qed.

(** Process 3 of a system in which nothing else runs. *)
Definition running_state : kernel :=
  upd_hart (set_h_proc (Some 3%nat))
    (upd_proc 3 (fun pr => set_p_state RUNNING (set_p_pid 7 pr)) boot_state).

Lemma running_idle : idle running_state.
Proof. split; [|done]. split; [exact boot_hart_ok|done]. Qed.

Example sleep_wakeup_cycle_witness :
  let k := acquired LK_log running_state in
  exists k1, sleep CH_log LK_log k = Susp Swtch k1 /\
    get_proc 3 k1 = set_p_state SLEEPING (set_p_chan CH_log (get_proc 3 k)) /\
    held_here (LK_proc 3) k1 /\ (forall l, l <> LK_proc 3 -> lock_free l k1) /\
    wp (scheduler_return 3 ;;; wakeup CH_log) (fun _ k2 =>
      k_procs k2 = map (wake CH_log) (k_procs k1) /\ p_state (get_proc 3 k2) = RUNNABLE /\
      exists k3, scheduler_visit 3 k2 = Susp Swtch k3 /\
        wp (sleep_return true LK_log) (fun _ k4 =>
          held_here LK_log k4 /\ (forall l, l <> LK_log -> lock_free l k4) /\
          p_state (get_proc 3 k4) = RUNNING /\ p_chan (get_proc 3 k4) = CH_none) k3) k1.
Proof.
  apply (sleep_wakeup_cycle 3 CH_log LK_log true); try done.
  - unfold NPROC. lia.
  - intros l Hl. now apply acquired_free.
Defined.

(** ** Kill *)

Definition killed_proc (pr : proc) : proc :=
  let pr := set_p_killed 1 pr in
  if bool_decide (p_state pr = SLEEPING) then set_p_state RUNNABLE pr else pr.

(** The first entry of the table with the given pid. *)
Definition find_pid (pid : Z) (ps : list proc) : option nat := fst <$> list_find (fun pr => p_pid pr = pid) ps.

Lemma upd_proc_upd p f g k : upd_proc p f (upd_proc p g k) = upd_proc p (fun x => f (g x)) k.
Proof.
  unfold upd_proc. cbn [k_procs set_k_procs]. unfold set_k_procs. f_equal.
  apply list_eq. intros i. destruct (decide (i = p)) as [->|].
  - rewrite !list_lookup_alter_eq. now destruct (k_procs k !! p).
  - now rewrite !list_lookup_alter_ne.
Qed.

Lemma upd_proc_ext p f g k : f (get_proc p k) = g (get_proc p k) -> upd_proc p f k = upd_proc p g k.
Proof.
  intros H. unfold upd_proc, set_k_procs. f_equal. apply list_eq. intros i.
  destruct (decide (i = p)) as [->|]; [|now rewrite !list_lookup_alter_ne].
  rewrite !list_lookup_alter_eq. unfold get_proc in H. destruct (k_procs k !! p) as [x|] eqn:E; [|done].
  rewrite (list_lookup_total_correct _ _ _ E) in H. cbn. now rewrite H.
Qed.

Lemma kill_hit p pid k :
  ready k -> lock_free (LK_proc p) k -> p_pid (get_proc p k) = pid ->
  wp (acquire (LK_proc p) ;;;
      let* pr := gets (get_proc p) in
      if p_pid pr =? pid then
        modify (upd_proc p (set_p_killed 1)) ;;;
        when (bool_decide (p_state pr = SLEEPING)) (modify (upd_proc p (set_p_state RUNNABLE))) ;;;
        release (LK_proc p) ;;; ret (Some 0)
      else release (LK_proc p) ;;; ret None) (fun r k' => r = Some 0 /\ noise (upd_proc p killed_proc k) k') k.
Proof.
  intros Hr Hf Hpid. apply wp_bind, wp_acquire; [done|]. apply wp_bind, wp_gets.
  change (get_proc p (acquired (LK_proc p) k)) with (get_proc p k). rewrite Hpid, Z.eqb_refl.
  apply wp_bind, wp_modify. set (k1 := upd_proc p killed_proc (acquired (LK_proc p) k)).
  apply wp_bind. apply (wp_mono _ (fun _ k' => k' = k1)).
  - destruct (bool_decide _) eqn:Es; [apply wp_modify; rewrite upd_proc_upd|apply wp_ret];
      apply upd_proc_ext; unfold killed_proc; cbn;
      change (get_proc p (acquired (LK_proc p) k)) with (get_proc p k); now rewrite Es.
  - intros [] k' ->. apply wp_bind.
    eapply (wp_release _ k k1); [done|done|done|done|apply noise_refl|]. intros k'' Hn. now apply wp_ret.
Qed.

Lemma kill_miss p pid k :
  ready k -> lock_free (LK_proc p) k -> p_pid (get_proc p k) <> pid ->
  wp (acquire (LK_proc p) ;;;
      let* pr := gets (get_proc p) in
      if p_pid pr =? pid then
        modify (upd_proc p (set_p_killed 1)) ;;;
        when (bool_decide (p_state pr = SLEEPING)) (modify (upd_proc p (set_p_state RUNNABLE))) ;;;
        release (LK_proc p) ;;; ret (Some 0)
      else release (LK_proc p) ;;; ret None) (fun r k' => r = None /\ noise k k') k.
Proof.
  intros Hr Hf Hpid. apply wp_bind, wp_acquire; [done|]. apply wp_bind, wp_gets.
  change (get_proc p (acquired (LK_proc p) k)) with (get_proc p k).
  rewrite (proj2 (Z.eqb_neq _ _)) by done. apply wp_bind.
  eapply (wp_release _ k (acquired (LK_proc p) k)); [done|done|done|done|apply noise_refl|].
  intros k'' Hn. apply wp_ret. split; [done|]. now destruct k.
Qed.

(** [kill] on the rest of the table from entry [i]. *)
Lemma kill_scan pid n : forall i k,
  ready k -> procs_free k -> length (k_procs k) = (i + n)%nat ->
  wp (for_ret (seq i n) (fun p =>
        acquire (LK_proc p) ;;;
        let* pr := gets (get_proc p) in
        if p_pid pr =? pid then
          modify (upd_proc p (set_p_killed 1)) ;;;
          when (bool_decide (p_state pr = SLEEPING)) (modify (upd_proc p (set_p_state RUNNABLE))) ;;;
          release (LK_proc p) ;;; ret (Some 0)
        else release (LK_proc p) ;;; ret None))
    (fun r k' => match find_pid pid (drop i (k_procs k)) with
       | Some j => r = Some 0 /\ noise (upd_proc (i + j) killed_proc k) k'
       | None => r = None /\ noise k k'
       end) k.
Proof.
  induction n as [|n IH]; intros i k Hr Hf Hlen.
  - rewrite drop_ge by lia. apply wp_ret. split; [done|apply noise_refl].
  - cbn [seq for_ret]. apply wp_bind.
    destruct (lookup_lt_is_Some_2 (k_procs k) i ltac:(lia)) as [x Hx].
    assert (Hg : get_proc i k = x) by exact (list_lookup_total_correct _ _ _ Hx).
    rewrite (drop_S _ _ _ Hx). unfold find_pid. cbn [list_find].
    destruct (decide (p_pid x = pid)) as [Hpid|Hpid].
    + eapply wp_mono; [apply (kill_hit i pid k); [done|apply Hf|congruence]|].
      intros r k' [-> Hn]. apply wp_ret. cbn. now rewrite Nat.add_0_r.
    + eapply wp_mono; [apply (kill_miss i pid k); [done|apply Hf|congruence]|].
      intros r k' [-> Hn].
      eapply wp_mono; [apply (IH (S i) k')|].
      * exact (noise_hart_ok _ _ Hn Hr).
      * exact (noise_procs_free _ _ Hn Hf).
      * rewrite (noise_procs _ _ Hn). lia.
      * intros r k'' H. rewrite (noise_procs _ _ Hn) in H. unfold find_pid in H.
        destruct (list_find _ (drop (S i) (k_procs k))) as [[j y]|]; cbn in *; destruct H as [-> H]; (split; [done|]).
        -- etransitivity; [|exact H]. replace (i + S j)%nat with (S (i + j)) by lia. now apply upd_proc_noise.
        -- now transitivity k'.
Qed.

(** [kill] marks exactly one process.  It sets [killed] in the first table entry
    with the given pid, makes that process runnable if it was asleep, returns 0 and
    changes no other process; when no entry has the pid it changes nothing and
    returns -1. *)
Theorem kill_correct pid k :
  ready k -> procs_free k -> table_ok k ->
  wp (kill pid) (fun r k' =>
    match find_pid pid (k_procs k) with
    | Some p => r = 0 /\ noise (upd_proc p killed_proc k) k'
    | None => r = -1 /\ noise k k'
    end) k.
Proof.
  intros Hr Hf Ht. unfold kill, all_procs. apply wp_bind.
  eapply wp_mono; [apply (kill_scan pid NPROC 0 k Hr Hf Ht)|]. intros r k' H. apply wp_ret.
  rewrite drop_0 in H. destruct (find_pid pid (k_procs k)); destruct H as [-> H]; done.
Qed.

Example kill_correct_witness :
  wp (kill 7) (fun r k' => r = 0 /\ noise (upd_proc 3 killed_proc running_state) k') running_state.
Proof.
  refine (kill_correct 7 running_state _ _ _); [exact boot_hart_ok|done|done].
Defined.

(** [kill(0)]: an unused entry has pid 0, so the call succeeds and marks it; the
    mark stays until the entry is freed again. *)
Lemma kill_zero_marks_unused :
  p_state (get_proc 0 running_state) = UNUSED /\
  wp (kill 0) (fun r k' => r = 0 /\ p_killed (get_proc 0 k') = 1) running_state.
Proof.
  split; [done|]. unfold kill. apply wp_bind.
  eapply wp_mono; [apply (kill_scan 0 NPROC 0 running_state); [exact boot_hart_ok|done|done]|].
  intros r k' [-> Hn]. apply wp_ret. split; [done|]. unfold get_proc. now rewrite (noise_procs _ _ Hn).
Qed.

(** ** No wakeup is lost

    One process sleeps on a condition while any number of other threads make it
    true and call [wakeup], all interleaved between any two lock operations.  The
    steps follow [sleep] (from the test of the caller's loop), [sched] and the
    scheduler on one side, and "acquire lk; set the condition; wakeup; release lk"
    on the other. *)
Module NoLostWakeup.

Inductive spc :=
  | S_start        (* wants lk *)
  | S_test         (* holds lk: tests the condition *)
  | S_acq_p        (* in sleep, holds lk: wants p->lock *)
  | S_rel_lk       (* holds both: releases lk *)
  | S_set          (* holds p->lock: sets chan and SLEEPING *)
  | S_switch       (* holds p->lock: switches, the scheduler releases it *)
  | S_asleep       (* waits until the scheduler finds it RUNNABLE *)
  | S_tidy         (* RUNNING again, holds p->lock: clears chan, releases it *)
  | S_done.        (* saw the condition true *)

Inductive wpc :=
  | W_start        (* wants lk *)
  | W_set          (* holds lk: makes the condition true *)
  | W_acq_p        (* in wakeup: wants p->lock *)
  | W_check        (* holds p->lock: SLEEPING on the channel? then RUNNABLE *)
  | W_rel_p        (* releases p->lock *)
  | W_rel          (* releases lk *)
  | W_done.

Inductive holder := Sleeper | Waker (w : nat).

Record state := mk_state {
  lk : option holder;
  plock : option holder;
  cond : bool;
  pstate : procstate;
  onchan : bool;
  spos : spc;
  wpos : nat -> wpc }.

Definition wmove (s : state) (w : nat) (p : wpc) : nat -> wpc :=
  fun v => if decide (v = w) then p else wpos s v.

Inductive step : state -> state -> Prop :=
  | sleeper_acquire s : spos s = S_start -> lk s = None ->
      step s (mk_state (Some Sleeper) (plock s) (cond s) (pstate s) (onchan s) S_test (wpos s))
  | sleeper_sees s : spos s = S_test -> cond s = true ->
      step s (mk_state None (plock s) (cond s) (pstate s) (onchan s) S_done (wpos s))
  | sleeper_sleeps s : spos s = S_test -> cond s = false ->
      step s (mk_state (lk s) (plock s) (cond s) (pstate s) (onchan s) S_acq_p (wpos s))
  | sleeper_acquire_p s : spos s = S_acq_p -> plock s = None ->
      step s (mk_state (lk s) (Some Sleeper) (cond s) (pstate s) (onchan s) S_rel_lk (wpos s))
  | sleeper_release s : spos s = S_rel_lk ->
      step s (mk_state None (plock s) (cond s) (pstate s) (onchan s) S_set (wpos s))
  | sleeper_set s : spos s = S_set ->
      step s (mk_state (lk s) (plock s) (cond s) SLEEPING true S_switch (wpos s))
  | sleeper_switch s : spos s = S_switch ->
      step s (mk_state (lk s) None (cond s) (pstate s) (onchan s) S_asleep (wpos s))
  | sleeper_dispatch s : spos s = S_asleep -> pstate s = RUNNABLE -> plock s = None ->
      step s (mk_state (lk s) (Some Sleeper) (cond s) RUNNING (onchan s) S_tidy (wpos s))
  | sleeper_tidy s : spos s = S_tidy ->
      step s (mk_state (lk s) None (cond s) (pstate s) false S_start (wpos s))
  | waker_acquire s w : wpos s w = W_start -> lk s = None ->
      step s (mk_state (Some (Waker w)) (plock s) (cond s) (pstate s) (onchan s) (spos s) (wmove s w W_set))
  | waker_set s w : wpos s w = W_set ->
      step s (mk_state (lk s) (plock s) true (pstate s) (onchan s) (spos s) (wmove s w W_acq_p))
  | waker_acquire_p s w : wpos s w = W_acq_p -> plock s = None ->
      step s (mk_state (lk s) (Some (Waker w)) (cond s) (pstate s) (onchan s) (spos s) (wmove s w W_check))
  | waker_check s w : wpos s w = W_check ->
      step s (mk_state (lk s) (plock s) (cond s)
        (if bool_decide (pstate s = SLEEPING) && onchan s then RUNNABLE else pstate s)
        (onchan s) (spos s) (wmove s w W_rel_p))
  | waker_release_p s w : wpos s w = W_rel_p ->
      step s (mk_state (lk s) None (cond s) (pstate s) (onchan s) (spos s) (wmove s w W_rel))
  | waker_release s w : wpos s w = W_rel ->
      step s (mk_state None (plock s) (cond s) (pstate s) (onchan s) (spos s) (wmove s w W_done)).

Definition init : state := mk_state None None false RUNNING false S_start (fun _ => W_start).

Inductive reachable : state -> Prop :=
  | reach_init : reachable init
  | reach_step s s' : reachable s -> step s s' -> reachable s'.

(** Who must hold which lock. *)
Definition s_has_lk (p : spc) : bool := match p with S_test | S_acq_p | S_rel_lk => true | _ => false end.
Definition s_has_p (p : spc) : bool := match p with S_rel_lk | S_set | S_switch | S_tidy => true | _ => false end.
Definition w_has_lk (p : wpc) : bool :=
  match p with W_set | W_acq_p | W_check | W_rel_p | W_rel => true | _ => false end.
Definition w_has_p (p : wpc) : bool := match p with W_check | W_rel_p => true | _ => false end.
(** A waker that has made the condition true and has not yet looked at the sleeper. *)
Definition will_wake (p : wpc) : bool := match p with W_acq_p | W_check => true | _ => false end.
(** The sleeper has decided to sleep. *)
Definition committed (p : spc) : bool :=
  match p with S_acq_p | S_rel_lk | S_set | S_switch => true | _ => false end.

Record inv (s : state) : Prop := {
  i_slk : s_has_lk (spos s) = true <-> lk s = Some Sleeper;
  i_wlk : forall w, w_has_lk (wpos s w) = true <-> lk s = Some (Waker w);
  i_sp : s_has_p (spos s) = true <-> plock s = Some Sleeper;
  i_wp : forall w, w_has_p (wpos s w) = true <-> plock s = Some (Waker w);
  i_state : match spos s with
            | S_switch => pstate s = SLEEPING /\ onchan s = true
            | S_asleep => (pstate s = SLEEPING \/ pstate s = RUNNABLE) /\ onchan s = true
            | _ => pstate s = RUNNING
            end;
  i_wake : cond s = true -> committed (spos s) = true \/ (spos s = S_asleep /\ pstate s = SLEEPING) ->
           exists w, will_wake (wpos s w) = true }.

Lemma inv_initially : inv init.
Proof. split; cbn; naive_solver. Qed.

Lemma move_has (f : wpc -> bool) s w p o o' :
  (forall v, f (wpos s v) = true <-> o = Some (Waker v)) ->
  (f p = true <-> o' = Some (Waker w)) ->
  (forall v, v <> w -> (o = Some (Waker v) <-> o' = Some (Waker v))) ->
  forall v, f (wmove s w p v) = true <-> o' = Some (Waker v).
Proof.
  intros Ho Hw Hv v. unfold wmove. case_decide as Hd; [now subst|]. rewrite Ho. now apply Hv.
Qed.

(** A waker that moves without leaving [will_wake] keeps the promise. *)
Lemma move_wake s w p :
  (exists v, will_wake (wpos s v) = true) -> (will_wake (wpos s w) = true -> will_wake p = true) ->
  exists v, will_wake (wmove s w p v) = true.
Proof.
  intros [v Hv] Hp. exists v. unfold wmove. case_decide; [subst; auto|done].
Qed.

(** What the invariant says of the thread that holds a lock. *)
Lemma holder_facts s :
  inv s ->
  (forall w, w_has_lk (wpos s w) = true -> lk s = Some (Waker w) /\ s_has_lk (spos s) = false) /\
  (forall w, w_has_p (wpos s w) = true -> plock s = Some (Waker w) /\ s_has_p (spos s) = false) /\
  (s_has_lk (spos s) = true -> lk s = Some Sleeper) /\ (s_has_p (spos s) = true -> plock s = Some Sleeper).
Proof.
  intros [H1 H2 H3 H4 _ _].
  split; [intros w Hw%H2; split; [done|]|split; [intros w Hw%H4; split; [done|]|split; [now intros ?%H1|now intros ?%H3]]].
  - destruct (s_has_lk (spos s)); [|done]. destruct H1 as [H1 _]. specialize (H1 eq_refl). congruence.
  - destruct (s_has_p (spos s)); [|done]. destruct H3 as [H3 _]. specialize (H3 eq_refl). congruence.
Qed.

Lemma inv_sleeper s s' : inv s -> (forall w, wpos s' w = wpos s w) ->
  (lk s' = lk s \/ (s_has_lk (spos s) = true /\ lk s' = None) \/ (lk s = None /\ lk s' = Some Sleeper)) ->
  (plock s' = plock s \/ (s_has_p (spos s) = true /\ plock s' = None) \/ (plock s = None /\ plock s' = Some Sleeper)) ->
  (s_has_lk (spos s') = true <-> lk s' = Some Sleeper) -> (s_has_p (spos s') = true <-> plock s' = Some Sleeper) ->
  match spos s' with
  | S_switch => pstate s' = SLEEPING /\ onchan s' = true
  | S_asleep => (pstate s' = SLEEPING \/ pstate s' = RUNNABLE) /\ onchan s' = true
  | _ => pstate s' = RUNNING
  end ->
  (cond s' = true -> committed (spos s') = true \/ (spos s' = S_asleep /\ pstate s' = SLEEPING) ->
   cond s = true /\ (committed (spos s) = true \/ (spos s = S_asleep /\ pstate s = SLEEPING))) ->
  inv s'.
Proof.
  intros Hi Hw Hl Hp H1 H3 H5 H6. destruct (holder_facts s Hi) as (_ & _ & F1 & F2).
  destruct Hi as [I1 I2 I3 I4 I5 I6]. split; try done.
  - intros w. rewrite Hw, I2. destruct Hl as [->|[[Hs ->]|[-> ->]]]; try done.
    rewrite (F1 Hs). done.
  - intros w. rewrite Hw, I4. destruct Hp as [->|[[Hs ->]|[-> ->]]]; try done.
    rewrite (F2 Hs). done.
  - intros Hc Hcom. destruct (H6 Hc Hcom) as [Hc0 Hcom0]. destruct (I6 Hc0 Hcom0) as [w Hww]. exists w. now rewrite Hw.
Qed.

Lemma inv_waker s w p lk' pl' c' ps' :
  inv s ->
  (w_has_lk p = true <-> lk' = Some (Waker w)) -> (forall h, h <> Waker w -> (lk s = Some h <-> lk' = Some h)) ->
  (w_has_p p = true <-> pl' = Some (Waker w)) -> (forall h, h <> Waker w -> (plock s = Some h <-> pl' = Some h)) ->
  match spos s with
  | S_switch => ps' = SLEEPING
  | S_asleep => ps' = SLEEPING \/ ps' = RUNNABLE
  | _ => ps' = RUNNING
  end ->
  (c' = true -> committed (spos s) = true \/ (spos s = S_asleep /\ ps' = SLEEPING) ->
   exists v, will_wake (wmove s w p v) = true) ->
  inv (mk_state lk' pl' c' ps' (onchan s) (spos s) (wmove s w p)).
Proof.
  intros [I1 I2 I3 I4 I5 I6] Hl Hlo Hp Hpo Hst Hw. split; cbn.
  - rewrite I1. now apply Hlo.
  - apply (move_has w_has_lk s w p (lk s)); [done|done|]. intros v Hv. apply Hlo. congruence.
  - rewrite I3. now apply Hpo.
  - apply (move_has w_has_p s w p (plock s)); [done|done|]. intros v Hv. apply Hpo. congruence.
  - destruct (spos s); try done; destruct I5 as [_ ->]; done.
  - exact Hw.
Qed.

Lemma inv_kept s s' : inv s -> step s s' -> inv s'.
Proof.
  intros Hi Hs. pose proof (holder_facts s Hi) as (F1 & F2 & F3 & F4). pose proof Hi as [I1 I2 I3 I4 I5 I6].
  destruct Hs as [s E El|s E Ec|s E Ec|s E Ep|s E|s E|s E|s E Es Ep|s E
                 |s w E El|s w E|s w E Ep|s w E|s w E|s w E].
  1-9: apply (inv_sleeper s); cbn; rewrite ?E in *; cbn in *;
       try specialize (F3 eq_refl); try specialize (F4 eq_refl); naive_solver.
  all: assert (Hst : match spos s with
                     | S_switch => pstate s = SLEEPING
                     | S_asleep => pstate s = SLEEPING \/ pstate s = RUNNABLE
                     | _ => pstate s = RUNNING end) by (destruct (spos s); tauto);
       specialize (F1 w); specialize (F2 w); rewrite E in F1, F2; cbn in F1, F2;
       try destruct (F1 eq_refl) as [L1 L2]; try destruct (F2 eq_refl) as [P1 P2];
       assert (Hpn : w_has_p (wpos s w) = true <-> plock s = Some (Waker w)) by apply I4;
       rewrite E in Hpn; cbn in Hpn; clear F1 F2 F3 F4 I1 I2 I3 I4;
       apply inv_waker; [exact Hi|cbn; split; congruence|intros h Hh; split; congruence
                        |cbn; (exact Hpn || (split; congruence))|intros h Hh; split; congruence
                        |try exact Hst|].
  - intros Hc Hcom. apply move_wake; [auto|now rewrite E].
  - intros _ _. exists w. unfold wmove. now rewrite decide_True.
  - intros Hc Hcom. apply move_wake; [auto|done].
  - destruct (spos s); try done; try (rewrite Hst; done). destruct I5 as [[->| ->] ->]; auto.
  - intros _ [Hcom|[Has Hsl]]; [destruct (spos s); done|]. rewrite Has in I5. destruct I5 as [_ Hon].
    rewrite Hon in Hsl. exfalso. destruct (bool_decide (pstate s = SLEEPING)) eqn:Eb; [done|].
    apply bool_decide_eq_false in Eb. done.
  - intros Hc Hcom. apply move_wake; [auto|now rewrite E].
  - intros Hc Hcom. apply move_wake; [auto|now rewrite E].
Qed.

Lemma inv_reachable s : reachable s -> inv s.
Proof. induction 1; [apply inv_initially|eapply inv_kept; eauto]. Qed.

(** C7: sleep and wakeup lose no wakeup.  Whatever the interleaving of the lock
    operations, when the condition is true and the process is asleep, some thread
    that made the condition true is still inside [wakeup] and has yet to look at
    this process; so once every waker has finished, a process that is still asleep
    is asleep on a false condition. *)
Theorem no_lost_wakeup s :
  reachable s -> spos s = S_asleep -> pstate s = SLEEPING -> cond s = true ->
  exists w, lk s = Some (Waker w) /\ (wpos s w = W_acq_p \/ wpos s w = W_check).
Proof.
  intros Hr Hs Hp Hc. pose proof (inv_reachable s Hr) as Hi.
  destruct (i_wake s Hi Hc (or_intror (conj Hs Hp))) as [w Hw]. exists w.
  destruct (holder_facts s Hi) as (F & _). destruct (wpos s w) eqn:E; try done;
    (split; [apply F; now rewrite E|auto]).
Qed.

(** A run in which the waker sets the condition while the process is on its way to
    sleep: the waker holds [lk] and waits for the process lock. *)
Lemma racing_reachable : exists f, reachable (mk_state (Some (Waker 5)) None true SLEEPING true S_asleep f) /\ f 5%nat = W_acq_p.
Proof.
  eexists. split.
  - eapply reach_step; [|eapply (sleeper_switch (mk_state _ _ _ _ _ S_switch _)); done].
    eapply reach_step; [|eapply (sleeper_set (mk_state _ _ _ _ _ S_set _)); done].
    eapply reach_step; [|eapply (waker_set (mk_state _ _ _ _ _ _ _) 5); cbn; shelve].
    eapply reach_step; [|eapply (waker_acquire (mk_state _ _ _ _ _ _ _) 5); cbn; [shelve|done]].
    eapply reach_step; [|eapply (sleeper_release (mk_state _ _ _ _ _ S_rel_lk _)); done].
    eapply reach_step; [|eapply (sleeper_acquire_p (mk_state _ _ _ _ _ S_acq_p _)); done].
    eapply reach_step; [|eapply (sleeper_sleeps (mk_state _ _ _ _ _ S_test _)); done].
    eapply reach_step; [|eapply (sleeper_acquire (mk_state _ _ _ _ _ S_start _)); done].
    apply reach_init.
  - done.
  Unshelve. all: done.
Qed.

Example no_lost_wakeup_witness :
  exists s, reachable s /\ exists w, lk s = Some (Waker w) /\ (wpos s w = W_acq_p \/ wpos s w = W_check).
Proof.
  destruct racing_reachable as (f & Hr & Hf).
  exists (mk_state (Some (Waker 5)) None true SLEEPING true S_asleep f). split; [exact Hr|].
  exact (no_lost_wakeup _ Hr eq_refl eq_refl eq_refl).
Defined.
End NoLostWakeup.
