(* ===== verification/Sleeplock.v ===== *)
(** * Sleep locks (kernel/sleeplock.c)

    A sleep lock belongs to a buffer or an inode; it is named by its spin lock. *)

From stdpp Require Import base numbers list gmap strings.
From S2P Require Import Prelude Kstate Kstring Spinlock Kalloc Vm Sched.

Definition get_sl (lk : lockname) (k : kernel) : sleeplock :=
  match lk with
  | LK_buf b => b_lock (get_buf b k)
  | LK_inode i => i_lock (get_inode i k)
  | _ => zero_sleeplock
  end.
Definition upd_sl (lk : lockname) (f : sleeplock -> sleeplock) (k : kernel) : kernel :=
  match lk with
  | LK_buf b => upd_buf b (fun x => set_b_lock (f (b_lock x)) x) k
  | LK_inode i => upd_inode i (fun x => set_i_lock (f (i_lock x)) x) k
  | _ => k
  end.

Definition initsleeplock (lk : lockname) (name : string) : K unit :=
  initlock lk "sleep lock" ;;;
  modify (upd_sl lk (set_sl_name name)) ;;;
  modify (upd_sl lk (set_sl_locked false)) ;;;
  modify (upd_sl lk (set_sl_pid 0)).

(** The loop of [acquiresleep], with [lk->lk] held: from the test to the end,
    or to the next [sleep]. *)
Definition acquiresleep_loop (lk : lockname) : K unit :=
  let* sl := gets (get_sl lk) in
  if sl_locked sl then sleep (CH_sleeplock lk) lk else
  modify (upd_sl lk (set_sl_locked true)) ;;;
  let* p := myproc_ix in
  let* pr := gets (get_proc p) in
  modify (upd_sl lk (set_sl_pid (p_pid pr))) ;;;
  release lk.
Definition acquiresleep (lk : lockname) : K unit :=
  acquire lk ;;; acquiresleep_loop lk.
(** What a thread that slept in [acquiresleep] does next. *)
Definition acquiresleep_return (intena : bool) (lk : lockname) : K unit :=
  sleep_return intena lk ;;; acquiresleep_loop lk.

Definition releasesleep (lk : lockname) : K unit :=
  acquire lk ;;;
  modify (upd_sl lk (set_sl_locked false)) ;;;
  modify (upd_sl lk (set_sl_pid 0)) ;;;
  wakeup (CH_sleeplock lk) ;;;
  release lk.

Definition holdingsleep (lk : lockname) : K bool :=
  acquire lk ;;;
  let* sl := gets (get_sl lk) in
  let* r :=
    (if sl_locked sl then
       let* p := myproc_ix in
       let* pr := gets (get_proc p) in
       ret (sl_pid sl =? p_pid pr)
     else ret false) in
  release lk ;;;
  ret r.

(** ** Behaviour *)

(** The locks that belong to a sleep lock. *)
Definition is_sl (lk : lockname) (k : kernel) : Prop :=
  match lk with
  | LK_buf b => (b < length (k_bufs k))%nat
  | LK_inode i => (i < length (k_inodes k))%nat
  | _ => False
  end.

Lemma upd_sl_noise lk f k k' : noise k k' -> noise (upd_sl lk f k) (upd_sl lk f k').
Proof. apply (noise_update (upd_sl lk f)); intros; now destruct lk. Qed.

Lemma upd_sl_upd lk f g k : upd_sl lk f (upd_sl lk g k) = upd_sl lk (fun s => f (g s)) k.
Proof.
  destruct lk; try done; unfold upd_sl, upd_buf, upd_inode; cbn [k_bufs k_inodes set_k_bufs set_k_inodes];
    unfold set_k_bufs, set_k_inodes; f_equal; apply list_eq; intros j.
  - destruct (decide (j = b)) as [->|]; [|now rewrite !list_lookup_alter_ne].
    rewrite !list_lookup_alter_eq. now destruct (k_bufs k !! b).
  - destruct (decide (j = i)) as [->|]; [|now rewrite !list_lookup_alter_ne].
    rewrite !list_lookup_alter_eq. now destruct (k_inodes k !! i).
Qed.

Lemma get_sl_upd lk f k : is_sl lk k -> get_sl lk (upd_sl lk f k) = f (get_sl lk k).
Proof.
  destruct lk; try done; cbn; unfold get_buf, get_inode, upd_buf, upd_inode; cbn [k_bufs k_inodes set_k_bufs set_k_inodes];
    rewrite !list_lookup_total_alt, list_lookup_alter_eq; intros [x Hx]%lookup_lt_is_Some_2; now rewrite Hx.
Qed.

Definition sl_taken (pid : Z) (s : sleeplock) : sleeplock := mk_sleeplock true (sl_name s) pid.
Definition sl_dropped (s : sleeplock) : sleeplock := mk_sleeplock false (sl_name s) 0.

(** Taking a sleep lock no one holds. *)
Lemma wp_acquiresleep lk p k Q :
  ready k -> lock_free lk k -> h_proc (k_hart k) = Some p -> sl_locked (get_sl lk k) = false ->
  (forall k', noise (upd_sl lk (sl_taken (p_pid (get_proc p k))) k) k' -> Q tt k') ->
  wp (acquiresleep lk) Q k.
Proof.
  intros Hr Hf Hp Hl HQ. unfold acquiresleep. apply wp_bind, wp_acquire; [done|].
  unfold acquiresleep_loop. apply wp_bind, wp_gets.
  assert (E : get_sl lk (acquired lk k) = get_sl lk k) by now destruct lk. rewrite E, Hl.
  apply wp_bind, wp_modify.
  set (k1 := upd_sl lk (set_sl_locked true) (acquired lk k)).
  assert (Hh : k_hart k1 = k_hart (acquired lk k)) by now destruct lk.
  assert (Em : myproc_ix k1 = Ok p k1).
  { apply myproc_nested; unfold ready; rewrite Hh; [now apply acquired_ready|destruct Hr as [? _]; cbn; lia|done]. }
  unfold wp. kstep Em. unfold bind at 1, gets at 1.
  assert (Ep : get_proc p k1 = get_proc p k) by now destruct lk. rewrite Ep.
  unfold bind at 1, modify. unfold k1. rewrite upd_sl_upd.
  change (wp (release lk) Q (upd_sl lk (fun s => set_sl_pid (p_pid (get_proc p k)) (set_sl_locked true s)) (acquired lk k))).
  eapply (wp_release lk k _); [done|done| | |apply noise_refl|]; [now destruct lk..|].
  intros k' Hn. apply HQ. destruct lk; (exact Hn || now destruct k).
Qed.

(** Giving it back wakes those who wait for it. *)
Definition sl_wake (lk : lockname) (k : kernel) : kernel :=
  set_k_procs (map (wake (CH_sleeplock lk)) (k_procs k)) (upd_sl lk sl_dropped k).

Lemma wp_releasesleep lk k Q :
  ready k -> lock_free lk k -> procs_free k -> table_ok k -> (forall q, lk <> LK_proc q) ->
  (forall k', noise (sl_wake lk k) k' -> Q tt k') ->
  wp (releasesleep lk) Q k.
Proof.
  intros Hr Hf Hpf Ht Hlk HQ. unfold releasesleep. apply wp_bind, wp_acquire; [done|].
  apply wp_bind, wp_modify, wp_bind, wp_modify. rewrite upd_sl_upd.
  set (k1 := upd_sl lk _ (acquired lk k)).
  assert (Hh : k_hart k1 = k_hart (acquired lk k)) by now destruct lk.
  assert (Hl : k_locks k1 = k_locks (acquired lk k)) by now destruct lk.
  assert (Hps : k_procs k1 = k_procs k) by now destruct lk.
  apply wp_bind, wp_wakeup.
  - unfold ready. rewrite Hh. now apply acquired_ready.
  - intros q. unfold lock_free. rewrite Hl. apply acquired_free; [congruence|apply Hpf].
  - unfold table_ok. now rewrite Hps.
  - intros k2 Hn. eapply (wp_release lk k _); [done|done| | |exact Hn|]; [exact Hh|exact Hl|].
    intros k' Hn'. apply HQ. rewrite Hps in Hn'. destruct lk; (exact Hn' || now destruct k).
Qed.

Lemma wp_holdingsleep lk p k Q :
  ready k -> lock_free lk k -> h_proc (k_hart k) = Some p ->
  (forall k', noise k k' ->
     Q (sl_locked (get_sl lk k) && (sl_pid (get_sl lk k) =? p_pid (get_proc p k))) k') ->
  wp (holdingsleep lk) Q k.
Proof.
  intros Hr Hf Hp HQ. unfold holdingsleep. apply wp_bind, wp_acquire; [done|]. apply wp_bind, wp_gets.
  assert (E : get_sl lk (acquired lk k) = get_sl lk k) by now destruct lk. rewrite E.
  assert (Em : myproc_ix (acquired lk k) = Ok p (acquired lk k)).
  { apply myproc_nested; [now apply acquired_ready|destruct Hr as [? _]; cbn; lia|done]. }
  apply wp_bind. apply (wp_mono _ (fun r k' => r = sl_locked (get_sl lk k) && (sl_pid (get_sl lk k) =? p_pid (get_proc p k)) /\ k' = acquired lk k)).
  - destruct (sl_locked _); [|apply wp_ret; done]. unfold wp. kstep Em. done.
  - intros r k1 [-> ->]. apply wp_bind. eapply (wp_release lk k (acquired lk k)); [done|done|done|done|apply noise_refl|].
    intros k' Hn. apply wp_ret, HQ. now destruct k.
Qed.

Lemma get_sl_noise lk k k' : noise k k' -> get_sl lk k' = get_sl lk k.
Proof. apply (noise_eq (get_sl lk)). intros; now destruct lk. Qed.

Lemma noise_proc p k k' : noise k k' -> get_proc p k' = get_proc p k.
Proof. intros Hn. unfold get_proc. now rewrite (noise_procs _ _ Hn). Qed.

(** Asking for a lock that is taken puts the process to sleep on it. *)
Lemma acquiresleep_waits lk q k :
  idle k -> h_proc (k_hart k) = Some q -> table_ok k -> (q < NPROC)%nat -> (forall r, lk <> LK_proc r) ->
  sl_locked (get_sl lk k) = true ->
  acquiresleep lk k = Susp Swtch (asleep q (CH_sleeplock lk) lk (acquired lk k)).
Proof.
  intros [[Hr Hf] Hz] Hp Ht Hq Hlk Hl. unfold acquiresleep. kstep (acquire_run lk k (Hf lk)).
  unfold acquiresleep_loop, bind at 1, gets.
  assert (E : get_sl lk (acquired lk k) = get_sl lk k) by now destruct lk. rewrite E, Hl.
  rewrite (sleep_run q); [| | |cbn; lia|unfold table_ok in Ht; cbn; lia|done| |].
  - cbn. now rewrite Hz.
  - now apply acquired_ready.
  - done.
  - apply acquired_held.
  - apply acquired_free; [now symmetry|apply Hf].
Qed.

(** C39: the contract of sleep locks.  Taking a free sleep lock records the caller as
    its holder ([holdingsleep] then tells the holder from any process with another
    pid); a process that asks for it meanwhile gives up the CPU, asleep on the lock;
    [releasesleep] frees the lock and wakes exactly the processes asleep on it. *)
Theorem sleeplock_contract lk p k :
  idle k -> h_proc (k_hart k) = Some p -> table_ok k -> is_sl lk k -> sl_locked (get_sl lk k) = false ->
  wp (acquiresleep lk) (fun _ k1 =>
    get_sl lk k1 = sl_taken (p_pid (get_proc p k)) (get_sl lk k) /\
    (forall q, let k1q := upd_hart (set_h_proc (Some q)) k1 in
       wp (holdingsleep lk) (fun r _ => r = (p_pid (get_proc p k) =? p_pid (get_proc q k))) k1q /\
       ((q < NPROC)%nat -> exists k2, acquiresleep lk k1q = Susp Swtch k2 /\
          get_proc q k2 = set_p_state SLEEPING (set_p_chan (CH_sleeplock lk) (get_proc q k1)))) /\
    wp (releasesleep lk) (fun _ k2 =>
      get_sl lk k2 = sl_dropped (get_sl lk k) /\
      k_procs k2 = map (wake (CH_sleeplock lk)) (k_procs k1)) k1) k.
Proof.
  intros [[Hr Hf] Hz] Hp Ht Hsl Hl.
  assert (Hlk : forall q, lk <> LK_proc q) by (intros q ->; done).
  apply (wp_acquiresleep lk p); [done..|]. intros k1 Hn.
  assert (Esl : get_sl lk k1 = sl_taken (p_pid (get_proc p k)) (get_sl lk k)) by
    (rewrite (get_sl_noise _ _ _ Hn); now apply get_sl_upd).
  assert (Eh : k_hart (upd_sl lk (sl_taken (p_pid (get_proc p k))) k) = k_hart k) by now destruct lk.
  assert (El : k_locks (upd_sl lk (sl_taken (p_pid (get_proc p k))) k) = k_locks k) by now destruct lk.
  assert (Hr1 : ready k1) by (apply (noise_hart_ok _ _ Hn); now rewrite Eh).
  assert (Hf1 : forall l, lock_free l k1) by (intros l; apply (noise_free _ _ _ Hn); unfold lock_free; rewrite El; apply Hf).
  assert (Hz1 : h_noff (k_hart k1) = 0) by (destruct Hn as (? & ? & -> & _); cbn; now rewrite Eh).
  assert (Eps : k_procs k1 = k_procs k) by (rewrite (noise_procs _ _ Hn); now destruct lk).
  assert (Ht1 : table_ok k1) by (unfold table_ok; now rewrite Eps).
  split; [done|]. split.
  - intros q. cbn zeta. set (k1q := upd_hart (set_h_proc (Some q)) k1).
    assert (Eq : get_sl lk k1q = get_sl lk k1) by now destruct lk.
    split.
    + apply (wp_holdingsleep lk q); [exact Hr1|apply Hf1|done|]. intros k' _. rewrite Eq, Esl. cbn.
      change (get_proc q k1q) with (k_procs k1 !!! q). now rewrite Eps.
    + intros Hq. eexists. split; [apply (acquiresleep_waits lk q k1q)|].
      * split; [split; [exact Hr1|exact Hf1]|exact Hz1].
      * done.
      * exact Ht1.
      * done.
      * done.
      * now rewrite Eq, Esl.
      * now rewrite asleep_proc.
  - apply wp_releasesleep; [done|apply Hf1|intros q; apply Hf1|done|done|]. intros k2 Hn2. split.
    + rewrite (get_sl_noise _ _ _ Hn2). unfold sl_wake.
      assert (Hsl1 : is_sl lk k1) by (destruct Hn as (? & ? & -> & _); destruct lk; cbn in *; try done; now rewrite length_alter).
      transitivity (get_sl lk (upd_sl lk sl_dropped k1)); [now destruct lk|]. rewrite get_sl_upd by done. now rewrite Esl.
    + now rewrite (noise_procs _ _ Hn2).
Qed.

Example sleeplock_contract_witness :
  wp (acquiresleep (LK_buf 4)) (fun _ k1 =>
    get_sl (LK_buf 4) k1 = sl_taken 7 (get_sl (LK_buf 4) running_state) /\
    (forall q, let k1q := upd_hart (set_h_proc (Some q)) k1 in
       wp (holdingsleep (LK_buf 4)) (fun r _ => r = (7 =? p_pid (get_proc q running_state))) k1q /\
       ((q < NPROC)%nat -> exists k2, acquiresleep (LK_buf 4) k1q = Susp Swtch k2 /\
          get_proc q k2 = set_p_state SLEEPING (set_p_chan (CH_sleeplock (LK_buf 4)) (get_proc q k1)))) /\
    wp (releasesleep (LK_buf 4)) (fun _ k2 =>
      get_sl (LK_buf 4) k2 = sl_dropped (get_sl (LK_buf 4) running_state) /\
      k_procs k2 = map (wake (CH_sleeplock (LK_buf 4))) (k_procs k1)) k1) running_state.
Proof.
  apply (sleeplock_contract (LK_buf 4) 3 running_state); [exact running_idle|done|done|cbn; unfold NBUF; lia|done].
Defined.
