(* ===== verification/Bio.v ===== *)
(** * The buffer cache (kernel/bio.c)

    Buffers are numbered 0 .. NBUF-1 and [NBUF] stands for [bcache.head]; the
    list is doubly linked through [b_prev] and [b_next] as in the code. *)

From stdpp Require Import base numbers list gmap strings.
From S2P Require Import Prelude Kstate Kstring Spinlock Kalloc Vm Sched Sleeplock.

(** ** The linked list *)

Definition bhead : nat := NBUF.
Definition next_of (b : nat) (k : kernel) : nat :=
  if decide (b = bhead) then snd (k_head k) else b_next (get_buf b k).
Definition prev_of (b : nat) (k : kernel) : nat :=
  if decide (b = bhead) then fst (k_head k) else b_prev (get_buf b k).
Definition set_next (b n : nat) : K unit :=
  modify (fun k => if decide (b = bhead) then set_k_head (fst (k_head k), n) k
                   else upd_buf b (set_b_next n) k).
Definition set_prev (b n : nat) : K unit :=
  modify (fun k => if decide (b = bhead) then set_k_head (n, snd (k_head k)) k
                   else upd_buf b (set_b_prev n) k).

(** [b->next = head.next; b->prev = &head; head.next->prev = b; head.next = b] *)
Definition push_front (b : nat) : K unit :=
  let* n := gets (next_of bhead) in
  set_next b n ;;;
  set_prev b bhead ;;;
  let* n := gets (next_of bhead) in
  set_prev n b ;;;
  set_next bhead b.

(** [b->next->prev = b->prev; b->prev->next = b->next] *)
Definition unlink_buf (b : nat) : K unit :=
  let* n := gets (next_of b) in
  let* p := gets (prev_of b) in
  set_prev n p ;;;
  let* p := gets (prev_of b) in
  let* n := gets (next_of b) in
  set_next p n.

Definition binit : K unit :=
  initlock LK_bcache "bcache" ;;;
  set_prev bhead bhead ;;;
  set_next bhead bhead ;;;
  for_each (seq 0 NBUF) (fun b =>
    let* n := gets (next_of bhead) in
    set_next b n ;;;
    set_prev b bhead ;;;
    initsleeplock (LK_buf b) "buffer" ;;;
    let* n := gets (next_of bhead) in
    set_prev n b ;;;
    set_next bhead b).

(** ** Finding a buffer *)

(** The two scans of [bget].  The list holds [NBUF] buffers, so it is back at the
    head within [NBUF] steps. *)
Fixpoint bget_cached (fuel : nat) (b : nat) (dev blockno : Z) : K (option nat) :=
  match fuel with
  | O => suspend_with Forever
  | S fuel' =>
      if decide (b = bhead) then ret None else
      let* x := gets (get_buf b) in
      if (b_dev x =? dev) && (b_blockno x =? blockno) then ret (Some b)
      else bget_cached fuel' (b_next x) dev blockno
  end.
Fixpoint bget_lru (fuel : nat) (b : nat) : K (option nat) :=
  match fuel with
  | O => suspend_with Forever
  | S fuel' =>
      if decide (b = bhead) then ret None else
      let* x := gets (get_buf b) in
      if b_refcnt x =? 0 then ret (Some b) else bget_lru fuel' (b_prev x)
  end.

Definition bget (dev blockno : Z) : K nat :=
  acquire LK_bcache ;;;
  let* h := gets (next_of bhead) in
  let* r := bget_cached (S NBUF) h dev blockno in
  match r with
  | Some b =>
      modify (upd_buf b (fun x => set_b_refcnt (u32 (b_refcnt x + 1)) x)) ;;;
      release LK_bcache ;;;
      acquiresleep (LK_buf b) ;;;
      ret b
  | None =>
      let* t := gets (prev_of bhead) in
      let* r := bget_lru (S NBUF) t in
      match r with
      | Some b =>
          modify (upd_buf b (set_b_dev dev)) ;;;
          modify (upd_buf b (set_b_blockno blockno)) ;;;
          modify (upd_buf b (set_b_valid false)) ;;;
          modify (upd_buf b (set_b_refcnt 1)) ;;;
          release LK_bcache ;;;
          acquiresleep (LK_buf b) ;;;
          ret b
      | None => panic "bget: no buffers"
      end
  end.

(** What the cache relies on in kernel/virtio_disk.c: the effect of [virtio_disk_rw]
    once it returns, the block written to the disk or read from it.  The driver itself
    is [Virtio.Driver.virtio_disk_rw], with the sleep, the device and the interrupt;
    [Virtio.disk_request] shows that it has this effect. *)
Definition virtio_disk_rw (b : nat) (write : bool) : K unit :=
  modify (fun k =>
    let x := get_buf b k in
    if write then
      set_k_writes (k_writes k ++ [(b_blockno x, b_data x)])
        (set_k_disk (fun n => if decide (n = b_blockno x) then b_data x else k_disk k n) k)
    else upd_buf b (set_b_data (k_disk k (b_blockno x))) k).

Definition bread (dev blockno : Z) : K nat :=
  let* b := bget dev blockno in
  let* x := gets (get_buf b) in
  when (negb (b_valid x))
    (virtio_disk_rw b false ;;; modify (upd_buf b (set_b_valid true))) ;;;
  ret b.

Definition bwrite (b : nat) : K unit :=
  let* h := holdingsleep (LK_buf b) in
  if negb h then panic "bwrite" else
  virtio_disk_rw b true.

Definition brelse (b : nat) : K unit :=
  let* h := holdingsleep (LK_buf b) in
  if negb h then panic "brelse" else
  releasesleep (LK_buf b) ;;;
  acquire LK_bcache ;;;
  modify (upd_buf b (fun x => set_b_refcnt (u32 (b_refcnt x - 1)) x)) ;;;
  let* x := gets (get_buf b) in
  when (b_refcnt x =? 0) (unlink_buf b ;;; push_front b) ;;;
  release LK_bcache.

Definition bpin (b : nat) : K unit :=
  acquire LK_bcache ;;;
  modify (upd_buf b (fun x => set_b_refcnt (u32 (b_refcnt x + 1)) x)) ;;;
  release LK_bcache.

Definition bunpin (b : nat) : K unit :=
  acquire LK_bcache ;;;
  modify (upd_buf b (fun x => set_b_refcnt (u32 (b_refcnt x - 1)) x)) ;;;
  release LK_bcache.

(** ** The list as a ring

    [links nx pv l]: consecutive elements of [l] are neighbours in both directions.
    The cache's list is [L] when [bhead :: L ++ [bhead]] is linked. *)

Fixpoint links (nx pv : nat -> nat) (l : list nat) : Prop :=
  match l with
  | x :: (y :: _) as t => nx x = y /\ pv y = x /\ links nx pv t
  | _ => True
  end.

Lemma links_cons nx pv x y t :
  links nx pv (x :: y :: t) <-> nx x = y /\ pv y = x /\ links nx pv (y :: t).
Proof. done. Qed.

Lemma links_app nx pv l1 x l2 :
  links nx pv (l1 ++ x :: l2) <-> links nx pv (l1 ++ [x]) /\ links nx pv (x :: l2).
Proof.
  induction l1 as [|a l1 IH]; [cbn; tauto|].
  destruct l1 as [|b l1]; cbn [app] in *.
  - rewrite !links_cons. cbn. tauto.
  - rewrite !links_cons, IH. tauto.
Qed.

Lemma links_ext nx pv nx' pv' l :
  (forall x, x ∈ removelast l -> nx' x = nx x) -> (forall x, x ∈ tail l -> pv' x = pv x) ->
  links nx pv l -> links nx' pv' l.
Proof.
  induction l as [|x [|y t] IH]; intros Hn Hp; [done|done|].
  rewrite !links_cons. intros (H1 & H2 & H3). split; [|split].
  - rewrite Hn; [done|]. cbn. constructor.
  - rewrite Hp; [done|]. constructor.
  - apply IH; [| |done].
    + intros z Hz. apply Hn. cbn [removelast]. now constructor.
    + intros z Hz. apply Hp. now constructor.
Qed.

(** The neighbours of an element. *)
Lemma links_mid nx pv l1 x y z l2 :
  links nx pv (l1 ++ x :: y :: z :: l2) -> nx x = y /\ pv y = x /\ nx y = z /\ pv z = y.
Proof. rewrite links_app. intros [_ H]. rewrite !links_cons in H. tauto. Qed.

Definition fupd (f : nat -> nat) (a v : nat) : nat -> nat := fun x => if decide (x = a) then v else f x.

Lemma fupd_eq f a v : fupd f a v a = v.
Proof. unfold fupd. now rewrite decide_True. Qed.
Lemma fupd_ne f a v x : x <> a -> fupd f a v x = f x.
Proof. intros. unfold fupd. now rewrite decide_False. Qed.

Lemma removelast_snoc {A} (l : list A) x : removelast (l ++ [x]) = l.
Proof. apply removelast_last. Qed.

(** Splicing a middle element out of a linked list. *)
Lemma links_unlink nx pv l1 x y z l2 :
  NoDup (removelast (l1 ++ x :: y :: z :: l2)) -> NoDup (tail (l1 ++ x :: y :: z :: l2)) ->
  links nx pv (l1 ++ x :: y :: z :: l2) ->
  links (fupd nx x z) (fupd pv z x) (l1 ++ x :: z :: l2).
Proof.
  intros Hd1 Hd2 Hl. pose proof Hl as H. rewrite links_app in H. destruct H as [H1 H2].
  rewrite !links_cons in H2. destruct H2 as (_ & _ & _ & _ & H2).
  rewrite links_app. split; [|rewrite links_cons, !fupd_eq; split; [done|split; [done|]]].
  - apply (links_ext nx pv); [| |done].
    + intros a Ha. rewrite removelast_snoc in Ha. apply fupd_ne. intros ->.
      rewrite removelast_app in Hd1 by done. apply NoDup_app in Hd1 as (_ & Hd & _).
      apply (Hd x Ha). cbn. constructor.
    + intros a Ha. apply fupd_ne. intros ->.
      destruct l1 as [|c l1]; cbn [tail app] in *; [now apply elem_of_nil in Ha|].
      apply NoDup_app in Hd2 as (_ & Hd & Hd'). apply elem_of_app in Ha as [Ha|Ha].
      * apply (Hd z Ha). do 2 apply list_elem_of_further. constructor.
      * apply list_elem_of_singleton in Ha as ->. apply NoDup_cons in Hd' as [Hd' _]. apply Hd'. do 1 apply list_elem_of_further. constructor.
  - apply (links_ext nx pv); [| |done].
    + intros a Ha. apply fupd_ne. intros ->. rewrite removelast_app in Hd1 by done.
      apply NoDup_app in Hd1 as (_ & _ & Hd). cbn [removelast] in Hd. apply NoDup_cons in Hd as [Hd _].
      apply Hd. apply list_elem_of_further. exact Ha.
    + intros a Ha. apply fupd_ne. intros ->. cbn [tail] in Ha.
      destruct l1 as [|c l1]; cbn [tail app] in Hd2.
      * apply NoDup_cons in Hd2 as [_ Hd2]. apply NoDup_cons in Hd2 as [Hd2 _]. done.
      * apply NoDup_app in Hd2 as (_ & _ & Hd2). do 2 (apply NoDup_cons in Hd2 as [_ Hd2]). apply NoDup_cons in Hd2 as [Hd2 _]. done.
Qed.

(** Inserting an element after the first one. *)
Lemma links_insert nx pv h y z l2 :
  y ∉ h :: removelast (z :: l2) -> y ∉ z :: l2 -> NoDup (h :: removelast (z :: l2)) -> NoDup (z :: l2) ->
  links nx pv (h :: z :: l2) ->
  links (fupd (fupd nx y z) h y) (fupd (fupd pv y h) z y) (h :: y :: z :: l2).
Proof.
  intros Hy1 Hy2 Hd1 Hd2 Hl. rewrite !links_cons in *. destruct Hl as (H1 & H2 & H3).
  assert (y <> h) by (intros ->; apply Hy1; constructor).
  assert (y <> z) by (intros ->; apply Hy2; constructor).
  split; [now rewrite fupd_eq|]. split; [rewrite fupd_ne, fupd_eq by done; done|].
  split; [now rewrite fupd_ne, fupd_eq by done|]. split; [now rewrite fupd_eq|].
  apply (links_ext nx pv); [| |done].
  - intros a Ha. apply NoDup_cons in Hd1 as [Hd1 _]. rewrite !fupd_ne; [done| |].
    + intros ->. apply Hy1. now apply list_elem_of_further.
    + intros ->. done.
  - intros a Ha. cbn [tail] in Ha. apply NoDup_cons in Hd2 as [Hd2 _]. rewrite !fupd_ne; [done| |].
    + intros ->. apply Hy2. now apply list_elem_of_further.
    + intros ->. done.
Qed.

(** ** The ring in the kernel state *)

Definition setn (b n : nat) (k : kernel) : kernel :=
  if decide (b = bhead) then set_k_head (fst (k_head k), n) k else upd_buf b (set_b_next n) k.
Definition setp (b n : nat) (k : kernel) : kernel :=
  if decide (b = bhead) then set_k_head (n, snd (k_head k)) k else upd_buf b (set_b_prev n) k.

Lemma set_next_run b n k : set_next b n k = Ok tt (setn b n k).
Proof. done. Qed.
Lemma set_prev_run b n k : set_prev b n k = Ok tt (setp b n k).
Proof. done. Qed.

Lemma get_buf_upd b f k : (b < length (k_bufs k))%nat -> get_buf b (upd_buf b f k) = f (get_buf b k).
Proof.
  intros [x Hx]%lookup_lt_is_Some_2. unfold get_buf, upd_buf. cbn [k_bufs set_k_bufs].
  rewrite !list_lookup_total_alt, list_lookup_alter_eq. now rewrite Hx.
Qed.

Lemma get_buf_upd_ne b c f k : b <> c -> get_buf c (upd_buf b f k) = get_buf c k.
Proof.
  intros Hne. unfold get_buf, upd_buf. cbn [k_bufs set_k_bufs]. now rewrite !list_lookup_total_alt, list_lookup_alter_ne.
Qed.

Lemma upd_buf_upd b f g k : upd_buf b f (upd_buf b g k) = upd_buf b (fun x => f (g x)) k.
Proof.
  unfold upd_buf. cbn [k_bufs set_k_bufs]. unfold set_k_bufs. f_equal.
  apply list_eq. intros i. destruct (decide (i = b)) as [->|].
  - rewrite !list_lookup_alter_eq. now destruct (k_bufs k !! b).
  - now rewrite !list_lookup_alter_ne.
Qed.

(** A node of the list: the head or a buffer. *)
Definition node (b : nat) (k : kernel) : Prop := b = bhead \/ (b < length (k_bufs k))%nat.

Lemma setn_links b n k :
  node b k -> forall x, next_of x (setn b n k) = fupd (fun y => next_of y k) b n x /\ prev_of x (setn b n k) = prev_of x k.
Proof.
  intros Hb x. unfold next_of, prev_of, setn, fupd. destruct (decide (b = bhead)) as [->|Hne].
  - case_decide; subst; cbn; (split; [try done|done]).
  - destruct Hb as [|Hb]; [done|]. destruct (decide (x = b)) as [->|Hxb].
    + rewrite !decide_False by done. cbn [k_head upd_buf set_k_bufs]. now rewrite !get_buf_upd by done.
    + cbn [k_head upd_buf set_k_bufs]. fold (upd_buf b (set_b_next n) k). now rewrite !get_buf_upd_ne by done.
Qed.

Lemma setp_links b n k :
  node b k -> forall x, prev_of x (setp b n k) = fupd (fun y => prev_of y k) b n x /\ next_of x (setp b n k) = next_of x k.
Proof.
  intros Hb x. unfold next_of, prev_of, setp, fupd. destruct (decide (b = bhead)) as [->|Hne].
  - case_decide; subst; cbn; (split; [try done|done]).
  - destruct Hb as [|Hb]; [done|]. destruct (decide (x = b)) as [->|Hxb].
    + rewrite !decide_False by done. cbn [k_head upd_buf set_k_bufs]. now rewrite !get_buf_upd by done.
    + cbn [k_head upd_buf set_k_bufs]. fold (upd_buf b (set_b_prev n) k). now rewrite !get_buf_upd_ne by done.
Qed.

(** Two buffers that differ at most in their links. *)
Definition same_data (x y : buf) : Prop :=
  exists p n, y = set_b_prev p (set_b_next n x).

Lemma same_data_refl x : same_data x x.
Proof. exists (b_prev x), (b_next x). now destruct x. Qed.
Lemma same_data_trans x y z : same_data x y -> same_data y z -> same_data x z.
Proof. intros (p & n & ->) (p' & n' & ->). exists p', n'. done. Qed.

(** [k'] is [k] with some links changed. *)
Definition relinked (k k' : kernel) : Prop :=
  exists bufs h, k' = set_k_bufs bufs (set_k_head h k) /\ Forall2 same_data (k_bufs k) bufs.

Lemma Forall2_same_alter (l : list buf) b f : (forall x, same_data x (f x)) -> Forall2 same_data l (alter f b l).
Proof.
  intros Hf. revert b. induction l as [|x l IH]; intros [|b]; cbn; constructor; auto using same_data_refl.
  clear. induction l; constructor; auto using same_data_refl.
Qed.

Lemma Forall2_same_refl (l : list buf) : Forall2 same_data l l.
Proof. induction l; constructor; auto using same_data_refl. Qed.

Lemma relinked_setn b n k : relinked k (setn b n k).
Proof.
  unfold setn, relinked. case_decide.
  - exists (k_bufs k), (fst (k_head k), n). split; [now destruct k|apply Forall2_same_refl].
  - exists (alter (set_b_next n) b (k_bufs k)), (k_head k). split; [now destruct k|].
    apply Forall2_same_alter. intros x. exists (b_prev x), n. now destruct x.
Qed.

Lemma relinked_setp b n k : relinked k (setp b n k).
Proof.
  unfold setp, relinked. case_decide.
  - exists (k_bufs k), (n, snd (k_head k)). split; [now destruct k|apply Forall2_same_refl].
  - exists (alter (set_b_prev n) b (k_bufs k)), (k_head k). split; [now destruct k|].
    apply Forall2_same_alter. intros x. exists n, (b_next x). now destruct x.
Qed.

Lemma relinked_trans k1 k2 k3 : relinked k1 k2 -> relinked k2 k3 -> relinked k1 k3.
Proof.
  intros (bufs & h & -> & H1) (bufs' & h' & -> & H2). exists bufs', h'. split; [done|].
  cbn in H2. revert bufs' H2. induction H1; intros bufs' H2; inversion H2; subst; constructor; eauto using same_data_trans.
Qed.

Lemma relinked_length k k' : relinked k k' -> length (k_bufs k') = length (k_bufs k).
Proof. intros (bufs & h & -> & H). cbn. symmetry. exact (Forall2_length _ _ _ H). Qed.

Lemma relinked_node k k' b : relinked k k' -> node b k -> node b k'.
Proof. intros Hr [->|Hb]; [now left|right]. now rewrite (relinked_length _ _ Hr). Qed.

Lemma relinked_buf k k' b : relinked k k' -> (b < length (k_bufs k))%nat -> same_data (get_buf b k) (get_buf b k').
Proof.
  intros (bufs & h & -> & H) [x Hx]%lookup_lt_is_Some_2. unfold get_buf. cbn.
  destruct (Forall2_lookup_l _ _ _ _ _ H Hx) as (y & Hy & Hs).
  rewrite !list_lookup_total_alt, Hx, Hy. done.
Qed.

(** The cache's list is [L], most recently used first. *)
Record ring (L : list nat) (k : kernel) : Prop := {
  ring_len : length (k_bufs k) = NBUF;
  ring_perm : L ≡ₚ seq 0 NBUF;
  ring_links : links (fun b => next_of b k) (fun b => prev_of b k) (bhead :: L ++ [bhead]) }.

Lemma ring_nodup L k : ring L k -> NoDup L /\ bhead ∉ L /\ forall b, b ∈ L <-> (b < NBUF)%nat.
Proof.
  intros [_ Hp _]. split; [rewrite Hp; apply NoDup_seq|].
  assert (H : forall b, b ∈ L <-> (b < NBUF)%nat) by (intros b; rewrite Hp, elem_of_seq; lia).
  split; [|done]. rewrite H. unfold bhead. lia.
Qed.

Lemma ring_node L k b : ring L k -> b ∈ bhead :: L -> node b k.
Proof.
  intros Hr Hb. apply elem_of_cons in Hb as [->|Hb]; [now left|right].
  destruct (ring_nodup L k Hr) as (_ & _ & H). apply H in Hb. now rewrite (ring_len _ _ Hr).
Qed.

Lemma unlink_run b k :
  unlink_buf b k = Ok tt (setn (prev_of b (setp (next_of b k) (prev_of b k) k))
                               (next_of b (setp (next_of b k) (prev_of b k) k))
                               (setp (next_of b k) (prev_of b k) k)).
Proof. done. Qed.

Lemma push_front_run b k :
  push_front b k =
    (let k1 := setp b bhead (setn b (next_of bhead k) k) in
     Ok tt (setn bhead b (setp (next_of bhead k1) b k1))).
Proof. done. Qed.

(** Moving a buffer to the front of the list: the second half of [brelse]. *)
Definition moved (b : nat) (L : list nat) : list nat := b :: filter (.≠ b) L.

Lemma filter_ne_notin b (l : list nat) : b ∉ l -> filter (.≠ b) l = l.
Proof.
  induction l as [|x l IH]; intros H; [done|]. apply not_elem_of_cons in H as [Hx Hl].
  rewrite filter_cons_True by congruence. now rewrite IH.
Qed.

Lemma moved_split b l1 l2 : b ∉ l1 -> b ∉ l2 -> moved b (l1 ++ b :: l2) = b :: l1 ++ l2.
Proof.
  intros H1 H2. unfold moved. rewrite filter_app, filter_cons_False by (intros H; now apply H).
  now rewrite !filter_ne_notin.
Qed.

(** Splitting a linked ring around one of its buffers: its left and right
    neighbours. *)
Lemma ring_neighbours (b : nat) l1 l2 :
  exists p q pre suf, bhead :: l1 ++ b :: l2 ++ [bhead] = pre ++ p :: b :: q :: suf /\
    bhead :: l1 ++ l2 ++ [bhead] = pre ++ p :: q :: suf.
Proof.
  destruct (exists_last (l := bhead :: l1)) as (pre & p & E); [done|].
  destruct (l2 ++ [bhead]) as [|q suf] eqn:E2; [now destruct l2|].
  exists p, q, pre, suf. split.
  - change (bhead :: l1 ++ b :: q :: suf) with ((bhead :: l1) ++ b :: q :: suf). rewrite E, <- app_assoc. done.
  - change (bhead :: l1 ++ q :: suf) with ((bhead :: l1) ++ q :: suf). rewrite E, <- app_assoc. done.
Qed.

Lemma links_pointwise nx pv nx' pv' l :
  (forall x, nx' x = nx x) -> (forall x, pv' x = pv x) -> links nx pv l -> links nx' pv' l.
Proof. intros H1 H2. apply links_ext; intros; auto. Qed.

Notation nexts k := (fun b => next_of b k).
Notation prevs k := (fun b => prev_of b k).

Lemma unlink_links b l1 l2 k :
  NoDup (l1 ++ b :: l2) -> bhead ∉ l1 ++ b :: l2 -> (forall x, x ∈ bhead :: l1 ++ b :: l2 -> node x k) ->
  links (nexts k) (prevs k) (bhead :: (l1 ++ b :: l2) ++ [bhead]) ->
  exists k', unlink_buf b k = Ok tt k' /\ relinked k k' /\
    links (nexts k') (prevs k') (bhead :: (l1 ++ l2) ++ [bhead]).
Proof.
  intros Hd Hh Hnode Hl. rewrite <- !app_assoc in *. cbn [app] in *.
  destruct (ring_neighbours b l1 l2) as (p & q & pre & suf & E & E'). rewrite E in Hl. rewrite E'.
  assert (Hd1 : NoDup (removelast (pre ++ p :: b :: q :: suf))).
  { rewrite <- E. replace (bhead :: l1 ++ b :: l2 ++ [bhead]) with ((bhead :: l1 ++ b :: l2) ++ [bhead])
      by (cbn; now rewrite <- app_assoc). rewrite removelast_snoc. now constructor. }
  assert (Hd2 : NoDup (tail (pre ++ p :: b :: q :: suf))).
  { rewrite <- E. cbn [tail]. replace (l1 ++ b :: l2 ++ [bhead]) with ((l1 ++ b :: l2) ++ [bhead])
      by now rewrite <- app_assoc. apply NoDup_app. split; [done|]. split; [|apply NoDup_singleton]. set_solver. }
  assert (Hmem : forall x, x ∈ pre ++ p :: b :: q :: suf -> node x k).
  { intros x Hx. rewrite <- E in Hx. apply Hnode. set_solver. }
  destruct (links_mid _ _ _ _ _ _ _ Hl) as (_ & Hpb & Hnb & _).
  assert (Hbq : b <> q).
  { intros <-. assert (Hdd : NoDup (b :: b :: suf)).
    { destruct pre; cbn [app tail] in Hd2; [done|]. apply NoDup_app in Hd2 as (_ & _ & Hd2). now apply NoDup_cons in Hd2 as [_ Hd2]. }
    apply NoDup_cons in Hdd as [Hdd _]. apply Hdd. constructor. }
  rewrite unlink_run, Hpb, Hnb.
  assert (Nq : node q k) by (apply Hmem; set_solver). assert (Np : node p k) by (apply Hmem; set_solver).
  pose proof (setp_links q p k Nq) as S1. destruct (S1 b) as [S1p S1n]. rewrite S1p, S1n, fupd_ne, Hpb, Hnb by done.
  pose proof (relinked_setp q p k) as R1. pose proof (setn_links p q _ (relinked_node _ _ _ R1 Np)) as S2.
  eexists. split; [reflexivity|]. split; [exact (relinked_trans _ _ _ R1 (relinked_setn _ _ _))|].
  eapply links_pointwise; [| |exact (links_unlink _ _ _ _ _ _ _ Hd1 Hd2 Hl)]; intros x; cbn beta.
  - destruct (S2 x) as [-> _]. unfold fupd. case_decide; [done|]. apply (S1 x).
  - destruct (S2 x) as [_ ->]. apply (S1 x).
Qed.

Lemma push_front_links b L k :
  NoDup L -> bhead ∉ L -> b ∉ L -> b <> bhead -> (forall x, x ∈ bhead :: b :: L -> node x k) ->
  links (nexts k) (prevs k) (bhead :: L ++ [bhead]) ->
  exists k', push_front b k = Ok tt k' /\ relinked k k' /\ links (nexts k') (prevs k') (bhead :: b :: L ++ [bhead]).
Proof.
  intros Hd Hh Hb Hbh Hnode Hl. destruct (L ++ [bhead]) as [|z l2] eqn:E; [now destruct L|].
  pose proof Hl as Hz. rewrite links_cons in Hz. destruct Hz as (Hz & _). cbn beta in Hz.
  assert (Hin : forall x, x ∈ z :: l2 <-> x ∈ L \/ x = bhead) by (intros x; rewrite <- E; set_solver).
  rewrite push_front_run. cbv zeta. rewrite Hz.
  assert (Nb : node b k) by (apply Hnode; set_solver).
  assert (Nz : node z k) by (apply Hnode; assert (z ∈ L \/ z = bhead) by (apply Hin; constructor); set_solver).
  assert (Nh : node bhead k) by now left.
  pose proof (relinked_setn b z k) as R1. set (k1 := setn b z k) in *.
  pose proof (relinked_trans _ _ _ R1 (relinked_setp b bhead k1)) as R2. set (k2 := setp b bhead k1) in *.
  pose proof (setn_links b z k Nb) as S1. pose proof (setp_links b bhead k1 (relinked_node _ _ _ R1 Nb)) as S2.
  fold k1 in S1. fold k2 in S2.
  assert (Hz2 : next_of bhead k2 = z).
  { destruct (S2 bhead) as [_ ->]. destruct (S1 bhead) as [-> _]. now rewrite fupd_ne. }
  rewrite Hz2. pose proof (relinked_trans _ _ _ R2 (relinked_setp z b k2)) as R3. set (k3 := setp z b k2) in *.
  pose proof (setp_links z b k2 (relinked_node _ _ _ R2 Nz)) as S3. fold k3 in S3.
  pose proof (setn_links bhead b k3 (relinked_node _ _ _ R3 Nh)) as S4.
  eexists. split; [reflexivity|]. split; [exact (relinked_trans _ _ _ R3 (relinked_setn _ _ _))|].
  eapply links_pointwise; [| |apply (links_insert (nexts k) (prevs k) bhead b z l2); [| | | |exact Hl]].
  - intros x. cbn beta. destruct (S4 x) as [-> _]. unfold fupd at 1 2. case_decide; [done|].
    destruct (S3 x) as [_ ->]. destruct (S2 x) as [_ ->]. apply (S1 x).
  - intros x. cbn beta. destruct (S4 x) as [_ ->]. destruct (S3 x) as [-> _]. unfold fupd at 1 2. case_decide; [done|].
    destruct (S2 x) as [-> _]. unfold fupd. case_decide; [done|]. apply (S1 x).
  - rewrite <- E, removelast_snoc. set_solver.
  - rewrite Hin. naive_solver.
  - rewrite <- E, removelast_snoc. now constructor.
  - rewrite <- E. apply NoDup_app. split; [done|]. split; [set_solver|apply NoDup_singleton].
Qed.

(** [brelse] moves the buffer to the front. *)
Lemma move_front L b k :
  ring L k -> (b < NBUF)%nat ->
  exists k', (unlink_buf b ;;; push_front b) k = Ok tt k' /\ relinked k k' /\ ring (moved b L) k'.
Proof.
  intros Hr Hb. destruct (ring_nodup L k Hr) as (Hd & Hh & Hin).
  pose proof (proj2 (Hin b) Hb) as HbL. apply list_elem_of_split in HbL as (l1 & l2 & ->).
  pose proof Hd as Hd'. apply NoDup_app in Hd' as (D1 & D2 & D3). apply NoDup_cons in D3 as [D3 D4].
  assert (Hb1 : b ∉ l1) by (intros H; apply (D2 b H); constructor).
  destruct (unlink_links b l1 l2 k Hd Hh) as (k1 & E1 & R1 & L1); [|apply Hr|].
  { intros x Hx. now apply (ring_node (l1 ++ b :: l2)). }
  destruct (push_front_links b (l1 ++ l2) k1) as (k2 & E2 & R2 & L2); try done.
  - apply NoDup_app. split; [done|]. split; [|done]. intros x Hx Hx2. apply (D2 x Hx). now apply list_elem_of_further.
  - set_solver.
  - set_solver.
  - unfold bhead. lia.
  - intros x Hx. apply (relinked_node _ _ _ R1), (ring_node (l1 ++ b :: l2)); [done|]. set_solver.
  - exists k2. split; [kstep E1; exact E2|]. pose proof (relinked_trans _ _ _ R1 R2) as R. split; [done|].
    rewrite moved_split by done. split; [|rewrite <- (ring_perm _ _ Hr); now rewrite Permutation_middle|exact L2].
    rewrite (relinked_length _ _ R). apply Hr.
Qed.

(** ** The scans of [bget] *)

Definition find_buf (P : nat -> bool) (l : list nat) : option nat := snd <$> list_find (fun b => P b = true) l.

Lemma find_buf_cons P b l : find_buf P (b :: l) = if P b then Some b else find_buf P l.
Proof.
  unfold find_buf. cbn [list_find]. case_decide as H; [now rewrite H|].
  destruct (P b); [done|]. now destruct (list_find _ l) as [[]|].
Qed.

Lemma find_buf_some P l b : find_buf P l = Some b -> b ∈ l /\ P b = true.
Proof.
  induction l as [|x l IH]; [done|]. rewrite find_buf_cons. destruct (P x) eqn:E.
  - intros [= ->]. split; [constructor|done].
  - intros H. destruct (IH H) as [H1 H2]. split; [now apply list_elem_of_further|done].
Qed.

Lemma find_buf_none P l : find_buf P l = None <-> forall b, b ∈ l -> P b = false.
Proof.
  induction l as [|x l IH]; [split; [intros _ b H; now apply elem_of_nil in H|done]|].
  rewrite find_buf_cons. destruct (P x) eqn:E.
  - split; [done|]. intros H. specialize (H x ltac:(constructor)). congruence.
  - rewrite IH. split; intros H b.
    + intros [->|Hb]%elem_of_cons; auto.
    + intros Hb. apply H. now constructor.
Qed.

Definition is_block (dev blockno : Z) (k : kernel) (b : nat) : bool :=
  (b_dev (get_buf b k) =? dev) && (b_blockno (get_buf b k) =? blockno).
Definition is_unused (k : kernel) (b : nat) : bool := b_refcnt (get_buf b k) =? 0.

Lemma bget_cached_run dev blockno k fuel : forall l x,
  links (nexts k) (prevs k) (x :: l ++ [bhead]) -> bhead ∉ l -> (length l < fuel)%nat ->
  bget_cached fuel (next_of x k) dev blockno k = Ok (find_buf (is_block dev blockno k) l) k.
Proof.
  induction fuel as [|fuel IH]; intros l x Hl Hh Hf; [lia|].
  destruct l as [|b l]; cbn [app] in Hl; rewrite links_cons in Hl; destruct Hl as (Hx & _ & Hl); cbn [bget_cached]; rewrite Hx.
  - now rewrite decide_True.
  - apply not_elem_of_cons in Hh as [Hb Hh]. rewrite decide_False by congruence. unfold bind at 1, gets.
    rewrite find_buf_cons. change ((b_dev (get_buf b k) =? dev) && (b_blockno (get_buf b k) =? blockno)) with (is_block dev blockno k b).
    destruct (is_block dev blockno k b); [done|]. cbn in Hf.
    specialize (IH l b Hl Hh ltac:(lia)). unfold next_of in IH. rewrite decide_False in IH by congruence. exact IH.
Qed.

Lemma bget_lru_run k fuel : forall l y,
  links (nexts k) (prevs k) (bhead :: rev l ++ [y]) -> bhead ∉ l -> (length l < fuel)%nat ->
  bget_lru fuel (prev_of y k) k = Ok (find_buf (is_unused k) l) k.
Proof.
  induction fuel as [|fuel IH]; intros l y Hl Hh Hf; [lia|].
  destruct l as [|b l]; cbn [bget_lru].
  - cbn [rev app] in Hl. rewrite links_cons in Hl. destruct Hl as (_ & -> & _). now rewrite decide_True.
  - cbn [rev] in Hl. rewrite <- app_assoc in Hl. cbn [app] in Hl.
    change (bhead :: rev l ++ b :: [y]) with ((bhead :: rev l) ++ b :: [y]) in Hl. rewrite links_app in Hl.
    destruct Hl as [Hl Hy]. rewrite links_cons in Hy. destruct Hy as (_ & -> & _).
    apply not_elem_of_cons in Hh as [Hb Hh]. rewrite decide_False by congruence. unfold bind at 1, gets.
    rewrite find_buf_cons. change (b_refcnt (get_buf b k) =? 0) with (is_unused k b).
    destruct (is_unused k b); [done|]. cbn in Hf.
    specialize (IH l b Hl Hh ltac:(lia)). unfold prev_of in IH. rewrite decide_False in IH by congruence. exact IH.
Qed.

Lemma ring_scans L k dev blockno :
  ring L k ->
  bget_cached (S NBUF) (next_of bhead k) dev blockno k = Ok (find_buf (is_block dev blockno k) L) k /\
  bget_lru (S NBUF) (prev_of bhead k) k = Ok (find_buf (is_unused k) (rev L)) k.
Proof.
  intros Hr. destruct (ring_nodup L k Hr) as (_ & Hh & _). destruct Hr as [_ Hp Hl].
  assert (length L = NBUF) by (rewrite Hp; apply length_seq). split.
  - apply bget_cached_run; [done|done|lia].
  - apply bget_lru_run; [now rewrite rev_involutive|intros Hi; apply Hh; rewrite list_elem_of_In in *; now apply in_rev|rewrite length_rev; lia].
Qed.

(** ** Behaviour of the operations *)

(** The context file-system code runs in: process [p] on a hart that holds no
    spin lock. *)
Record in_proc (p : nat) (k : kernel) : Prop := {
  ip_quiet : quiet k;
  ip_proc : h_proc (k_hart k) = Some p;
  ip_table : table_ok k }.

Lemma in_proc_same p k k' :
  k_hart k' = k_hart k -> k_locks k' = k_locks k -> length (k_procs k') = length (k_procs k) ->
  in_proc p k -> in_proc p k'.
Proof.
  intros Hh Hl Hp [[Hr Hf] Hc Ht]. split; [split|congruence|unfold table_ok in *; congruence].
  - unfold ready. now rewrite Hh.
  - intros lk. unfold lock_free. rewrite Hl. apply Hf.
Qed.

Lemma in_proc_noise p k k' : noise k k' -> in_proc p k -> in_proc p k'.
Proof.
  intros Hn [Hq Hc Ht]. split; [exact (noise_quiet _ _ Hn Hq)| |unfold table_ok; now rewrite (noise_procs _ _ Hn)].
  destruct Hn as (? & ? & -> & _). exact Hc.
Qed.

Lemma upd_buf_noise b f k k' : noise k k' -> noise (upd_buf b f k) (upd_buf b f k').
Proof. apply (noise_update (upd_buf b f)); intros; done. Qed.

Lemma noise_bufs k k' : noise k k' -> k_bufs k' = k_bufs k.
Proof. apply (noise_eq k_bufs). done. Qed.

Lemma noise_get_buf b k k' : noise k k' -> get_buf b k' = get_buf b k.
Proof. intros Hn. unfold get_buf. now rewrite (noise_bufs _ _ Hn). Qed.

Lemma noise_disk k k' : noise k k' -> k_disk k' = k_disk k.
Proof. apply (noise_eq k_disk). done. Qed.

Lemma ring_same L k k' :
  length (k_bufs k') = length (k_bufs k) -> k_head k' = k_head k ->
  (forall b, b_next (get_buf b k') = b_next (get_buf b k) /\ b_prev (get_buf b k') = b_prev (get_buf b k)) ->
  ring L k -> ring L k'.
Proof.
  intros Hlen Hh Hb [H1 H2 H3]. split; [congruence|done|].
  eapply links_pointwise; [| |exact H3]; intros x; unfold next_of, prev_of; rewrite Hh; case_decide; try done; apply Hb.
Qed.

Lemma ring_noise L k k' : noise k k' -> ring L k -> ring L k'.
Proof.
  intros Hn. apply ring_same; [now rewrite (noise_bufs _ _ Hn)|exact (noise_eq k_head _ _ ltac:(done) Hn)|].
  intros b. now rewrite (noise_get_buf _ _ _ Hn).
Qed.

Lemma ring_upd_buf L b f k :
  (forall x, b_next (f x) = b_next x /\ b_prev (f x) = b_prev x) -> ring L k -> ring L (upd_buf b f k).
Proof.
  intros Hf Hr. apply (ring_same L k); [apply length_alter|done| |done]. intros c.
  destruct (decide (c = b)) as [->|]; [|now rewrite get_buf_upd_ne].
  unfold get_buf, upd_buf. cbn. rewrite !list_lookup_total_alt, list_lookup_alter_eq.
  destruct (k_bufs k !! b); [apply Hf|done].
Qed.

Lemma upd_buf_ext b f g k : f (get_buf b k) = g (get_buf b k) -> upd_buf b f k = upd_buf b g k.
Proof.
  intros E. unfold upd_buf. f_equal. apply list_eq. intros j.
  destruct (decide (j = b)) as [->|]; [|now rewrite !list_lookup_alter_ne]. rewrite !list_lookup_alter_eq.
  unfold get_buf in E. rewrite list_lookup_total_alt in E. destruct (k_bufs k !! b); [|done]. cbn in *. now rewrite E.
Qed.

Lemma upd_buf_id b f k : f (get_buf b k) = get_buf b k -> upd_buf b f k = k.
Proof.
  intros E. rewrite (upd_buf_ext b f (fun x => x)) by done. unfold upd_buf.
  replace (alter (fun x => x) b (k_bufs k)) with (k_bufs k); [now destruct k|].
  apply list_eq. intros j. destruct (decide (j = b)) as [->|]; [|now rewrite list_lookup_alter_ne].
  rewrite list_lookup_alter_eq. now destruct (k_bufs k !! b).
Qed.

(** What [bread] makes of the buffer it returns: of one that already caches the
    block, and of one it recycles. *)
Definition with_lock (f : sleeplock -> sleeplock) (x : buf) : buf := set_b_lock (f (b_lock x)) x.
Definition buf_loaded (disk : list Z) (x : buf) : buf :=
  if b_valid x then x else set_b_valid true (set_b_data disk x).
Definition buf_hit (x : buf) : buf := set_b_refcnt (u32 (b_refcnt x + 1)) x.
Definition buf_recycled (dev blockno : Z) (x : buf) : buf :=
  set_b_refcnt 1 (set_b_valid false (set_b_blockno blockno (set_b_dev dev x))).

(** The buffer [bget] settles on: the one that caches the block, otherwise the
    least recently used one without references. *)
Definition bget_choice (dev blockno : Z) (L : list nat) (k : kernel) : option (nat * (buf -> buf)) :=
  match find_buf (is_block dev blockno k) L with
  | Some b => Some (b, buf_hit)
  | None => match find_buf (is_unused k) (rev L) with
            | Some b => Some (b, buf_recycled dev blockno)
            | None => None
            end
  end.

Lemma in_proc_free p k lk : in_proc p k -> lock_free lk k.
Proof. intros [[_ H] _ _]. apply H. Qed.
Lemma in_proc_ready p k : in_proc p k -> ready k.
Proof. intros [[H _] _ _]. exact H. Qed.
#[export] Hint Resolve in_proc_free in_proc_ready : kernel.

Lemma relock_upd_buf lk b f k : relock k (upd_buf b f (acquired lk k)) = upd_buf b f k.
Proof. now destruct k. Qed.

Lemma find_buf_ext P P' l : (forall b, P b = P' b) -> find_buf P l = find_buf P' l.
Proof. intros H. induction l as [|x l IH]; [done|]. now rewrite !find_buf_cons, H, IH. Qed.

(** The end of [bget]: leave [bcache.lock], take the buffer's sleep lock. *)
Lemma wp_bget_tail p b f k Q :
  in_proc p k -> sl_locked (b_lock (f (get_buf b k))) = false -> (b < length (k_bufs k))%nat ->
  (forall k', noise (upd_buf b (fun x => with_lock (sl_taken (p_pid (get_proc p k))) (f x)) k) k' -> Q b k') ->
  wp (release LK_bcache ;;; acquiresleep (LK_buf b) ;;; ret b) Q (upd_buf b f (acquired LK_bcache k)).
Proof.
  intros Hp Hl Hb HQ. apply wp_bind.
  eapply (wp_release LK_bcache k (upd_buf b f (acquired LK_bcache k))); [eauto with kernel|eauto with kernel|done|done|apply noise_refl|].
  rewrite relock_upd_buf. intros k1 Hn1.
  assert (Hp1 : in_proc p k1) by (apply (in_proc_noise _ _ _ Hn1), (in_proc_same p k); done).
  apply wp_bind, (wp_acquiresleep _ p); [eauto with kernel|eauto with kernel|apply Hp1| |].
  - cbn. rewrite (noise_get_buf _ _ _ Hn1), get_buf_upd; done.
  - intros k2 Hn2. apply wp_ret, HQ. etrans; [|exact Hn2].
    rewrite (noise_proc _ _ _ Hn1). change (get_proc p (upd_buf b f k)) with (get_proc p k).
    pose proof (upd_sl_noise (LK_buf b) (sl_taken (p_pid (get_proc p k))) _ _ Hn1) as H.
    cbn [upd_sl] in H |- *. rewrite upd_buf_upd in H. exact H.
Qed.

Lemma choice_in L k dev blockno b f :
  ring L k -> bget_choice dev blockno L k = Some (b, f) -> (b < length (k_bufs k))%nat.
Proof.
  intros Hr H. destruct (ring_nodup L k Hr) as (_ & _ & Hin). rewrite (ring_len _ _ Hr). apply Hin.
  unfold bget_choice in H. destruct (find_buf (is_block _ _ _) _) eqn:E1.
  - injection H as -> _. now apply find_buf_some in E1.
  - destruct (find_buf (is_unused k) _) eqn:E2; [|done]. injection H as -> _.
    apply find_buf_some in E2 as [E2 _]. rewrite list_elem_of_In in *. now apply in_rev.
Qed.

Lemma scans_acquired L k dev blockno :
  ring L k ->
  bget_cached (S NBUF) (next_of bhead (acquired LK_bcache k)) dev blockno (acquired LK_bcache k)
    = Ok (find_buf (is_block dev blockno k) L) (acquired LK_bcache k) /\
  bget_lru (S NBUF) (prev_of bhead (acquired LK_bcache k)) (acquired LK_bcache k)
    = Ok (find_buf (is_unused k) (rev L)) (acquired LK_bcache k).
Proof.
  intros Hr. apply (ring_scans L (acquired LK_bcache k)). exact (ring_same L k (acquired LK_bcache k) eq_refl eq_refl (fun _ => conj eq_refl eq_refl) Hr).
Qed.

Lemma wp_bget p L dev blockno b f k Q :
  in_proc p k -> ring L k -> bget_choice dev blockno L k = Some (b, f) -> sl_locked (b_lock (get_buf b k)) = false ->
  (forall k', noise (upd_buf b (fun x => with_lock (sl_taken (p_pid (get_proc p k))) (f x)) k) k' -> Q b k') ->
  wp (bget dev blockno) Q k.
Proof.
  intros Hp Hr Hc Hl HQ. pose proof (choice_in _ _ _ _ _ _ Hr Hc) as Hb.
  destruct (scans_acquired L k dev blockno Hr) as [S1 S2].
  unfold bget. apply wp_bind, wp_acquire; [eauto with kernel|]. apply wp_bind, wp_gets, wp_bind.
  eapply wp_ok; [exact S1|]. unfold bget_choice in Hc. destruct (find_buf (is_block dev blockno k) L).
  - injection Hc as -> <-. apply wp_bind, wp_modify.
    apply (wp_bget_tail p b buf_hit); [done|exact Hl|done|exact HQ].
  - apply wp_bind, wp_gets, wp_bind. eapply wp_ok; [exact S2|].
    destruct (find_buf (is_unused k) (rev L)); [|done]. injection Hc as -> <-.
    do 4 apply wp_bind, wp_modify. rewrite !upd_buf_upd.
    apply (wp_bget_tail p b (buf_recycled dev blockno)); [done|exact Hl|done|exact HQ].
Qed.

Lemma bget_panics p L dev blockno k :
  in_proc p k -> ring L k -> bget_choice dev blockno L k = None ->
  bget dev blockno k = Panic "bget: no buffers" (acquired LK_bcache k).
Proof.
  intros Hp Hr Hc. destruct (scans_acquired L k dev blockno Hr) as [S1 S2].
  unfold bget. kstep (acquire_run LK_bcache k (in_proc_free p k _ Hp)). unfold bind at 1, gets at 1. kstep S1.
  unfold bget_choice in Hc. destruct (find_buf (is_block dev blockno k) L); [done|].
  unfold bind at 1, gets at 1. kstep S2. now destruct (find_buf (is_unused k) (rev L)).
Qed.

(** [bread]: the chosen buffer, locked, with the block's contents. *)
Definition buf_read (pid : Z) (disk : list Z) (f : buf -> buf) (x : buf) : buf :=
  buf_loaded disk (with_lock (sl_taken pid) (f x)).

Lemma wp_bread p L dev blockno b f k Q :
  in_proc p k -> ring L k -> bget_choice dev blockno L k = Some (b, f) -> sl_locked (b_lock (get_buf b k)) = false ->
  (forall k', noise (upd_buf b (buf_read (p_pid (get_proc p k)) (k_disk k blockno) f) k) k' -> Q b k') ->
  wp (bread dev blockno) Q k.
Proof.
  intros Hp Hr Hc Hl HQ. pose proof (choice_in _ _ _ _ _ _ Hr Hc) as Hb. unfold bread.
  assert (Hbn : b_blockno (f (get_buf b k)) = blockno).
  { unfold bget_choice in Hc. destruct (find_buf (is_block dev blockno k) L) as [c|] eqn:E.
    - injection Hc as -> <-. apply find_buf_some in E as [_ E]. unfold is_block in E. cbn. lia.
    - destruct (find_buf (is_unused k) _); [|done]. now injection Hc as -> <-. }
  apply wp_bind, (wp_bget p L dev blockno b f); [done..|]. intros k1 Hn. apply wp_bind, wp_gets.
  pose proof (noise_get_buf b _ _ Hn) as Eg. rewrite get_buf_upd in Eg by done. apply wp_bind.
  assert (Hlen : (b < length (k_bufs k1))%nat) by (rewrite (noise_bufs _ _ Hn); cbn; now rewrite length_alter).
  assert (Ed : k_disk k1 = k_disk k) by (rewrite (noise_disk _ _ Hn); done).
  apply (wp_mono _ (fun _ k2 => k2 = upd_buf b (buf_loaded (k_disk k blockno)) k1)).
  - rewrite Eg. destruct (b_valid _) eqn:Ev; cbn [negb when].
    + apply wp_ret. symmetry. apply upd_buf_id. rewrite Eg. unfold buf_loaded. now rewrite Ev.
    + apply wp_bind, wp_modify, wp_modify. cbn beta zeta iota. rewrite Eg, upd_buf_upd. cbn [b_blockno with_lock set_b_lock].
      rewrite Hbn, Ed. apply upd_buf_ext. rewrite Eg. unfold buf_loaded. now rewrite Ev.
  - intros ? k2 ->. apply wp_ret, HQ. pose proof (upd_buf_noise b (buf_loaded (k_disk k blockno)) _ _ Hn) as H.
    rewrite upd_buf_upd in H. exact H.
Qed.

(** [bwrite] and [brelse] insist that the caller holds the buffer. *)
Definition buf_held (pid : Z) (b : nat) (k : kernel) : bool :=
  sl_locked (b_lock (get_buf b k)) && (sl_pid (b_lock (get_buf b k)) =? pid).

Definition disk_put (n : Z) (data : list Z) (k : kernel) : kernel :=
  set_k_writes (k_writes k ++ [(n, data)]) (set_k_disk (fun m => if decide (m = n) then data else k_disk k m) k).

Lemma disk_put_noise n data k k' : noise k k' -> noise (disk_put n data k) (disk_put n data k').
Proof. apply (noise_update (disk_put n data)); intros; done. Qed.

Lemma wp_bwrite p b k Q :
  in_proc p k -> buf_held (p_pid (get_proc p k)) b k = true ->
  (forall k', noise (disk_put (b_blockno (get_buf b k)) (b_data (get_buf b k)) k) k' -> Q tt k') ->
  wp (bwrite b) Q k.
Proof.
  intros Hp Hh HQ. unfold bwrite. apply wp_bind, (wp_holdingsleep _ p); [eauto with kernel|eauto with kernel|apply Hp|].
  intros k1 Hn. change (sl_locked (get_sl (LK_buf b) k) && (sl_pid (get_sl (LK_buf b) k) =? p_pid (get_proc p k)))
    with (buf_held (p_pid (get_proc p k)) b k). rewrite Hh. cbn [negb]. apply wp_modify, HQ.
  rewrite (noise_get_buf _ _ _ Hn). now apply disk_put_noise.
Qed.

(** A change of the reference count, under [bcache.lock]: [bpin] and [bunpin]. *)
Definition buf_ref (n : Z) (x : buf) : buf := set_b_refcnt (u32 (b_refcnt x + n)) x.

Lemma wp_refcnt b f k Q :
  ready k -> lock_free LK_bcache k -> (forall k', noise (upd_buf b f k) k' -> Q tt k') ->
  wp (acquire LK_bcache ;;; modify (upd_buf b f) ;;; release LK_bcache) Q k.
Proof.
  intros Hr Hf HQ. apply wp_bind, wp_acquire; [done|]. apply wp_bind, wp_modify.
  eapply (wp_release LK_bcache k (upd_buf b f (acquired LK_bcache k))); [done|done|done|done|apply noise_refl|].
  rewrite relock_upd_buf. exact HQ.
Qed.

Lemma wp_bpin p b k Q :
  in_proc p k -> (forall k', noise (upd_buf b (buf_ref 1) k) k' -> Q tt k') -> wp (bpin b) Q k.
Proof. intros Hp. apply wp_refcnt; eauto with kernel. Qed.

Lemma wp_bunpin p b k Q :
  in_proc p k -> (forall k', noise (upd_buf b (buf_ref (-1)) k) k' -> Q tt k') -> wp (bunpin b) Q k.
Proof. intros Hp. apply wp_refcnt; eauto with kernel. Qed.

(** The state after [brelse b], up to the position of [b] in the list: the lock is
    free, the waiters are woken and the reference is gone. *)
Definition buf_dropped (x : buf) : buf := buf_ref (-1) (with_lock sl_dropped x).
Definition brelse_base (b : nat) (k : kernel) : kernel :=
  set_k_procs (map (wake (CH_sleeplock (LK_buf b))) (k_procs k)) (upd_buf b buf_dropped k).

Lemma brelse_base_eq b k : brelse_base b k = upd_buf b (buf_ref (-1)) (sl_wake (LK_buf b) k).
Proof.
  unfold brelse_base, sl_wake. cbn [upd_sl].
  transitivity (set_k_procs (map (wake (CH_sleeplock (LK_buf b))) (k_procs k)) (upd_buf b (buf_ref (-1)) (upd_buf b (with_lock sl_dropped) k))).
  - now rewrite upd_buf_upd.
  - now destruct k.
Qed.

Lemma sl_wake_noise lk k k' : noise k k' -> noise (sl_wake lk k) (sl_wake lk k').
Proof. apply (noise_update (sl_wake lk)); intros; now destruct lk. Qed.

Lemma ring_ext L k k' : k_bufs k' = k_bufs k -> k_head k' = k_head k -> ring L k -> ring L k'.
Proof. intros Hb Hh. apply ring_same; [now rewrite Hb|done|]. intros b. unfold get_buf. now rewrite Hb. Qed.

Lemma relinked_noise k k' kr' : noise k k' -> relinked k' kr' -> exists kr, relinked k kr /\ noise kr kr' /\
  k_bufs kr = k_bufs kr' /\ k_head kr = k_head kr'.
Proof.
  intros Hn (bufs & h & -> & Hs). exists (set_k_bufs bufs (set_k_head h k)). split; [|split; [|done]].
  - exists bufs, h. split; [done|]. now rewrite <- (noise_bufs _ _ Hn).
  - apply (noise_update (fun k => set_k_bufs bufs (set_k_head h k))); done.
Qed.

(** The last part of [brelse]: drop the reference and, with the last one, move the
    buffer to the front. *)
Lemma wp_brelse_tail p L b k Q :
  in_proc p k -> ring L k -> (b < NBUF)%nat ->
  (forall kr k', (if u32 (b_refcnt (get_buf b k) - 1) =? 0
                  then relinked (upd_buf b (buf_ref (-1)) k) kr /\ ring (moved b L) kr
                  else kr = upd_buf b (buf_ref (-1)) k) -> noise kr k' -> Q tt k') ->
  wp (acquire LK_bcache ;;;
      modify (upd_buf b (fun x => set_b_refcnt (u32 (b_refcnt x - 1)) x)) ;;;
      let* x := gets (get_buf b) in
      when (b_refcnt x =? 0) (unlink_buf b ;;; push_front b) ;;;
      release LK_bcache) Q k.
Proof.
  intros Hp Hr Hb HQ. apply wp_bind, wp_acquire; [eauto with kernel|]. apply wp_bind, wp_modify, wp_bind, wp_gets.
  set (k1 := upd_buf b _ (acquired LK_bcache k)).
  assert (Hlen : (b < length (k_bufs (acquired LK_bcache k)))%nat) by (cbn; now rewrite (ring_len _ _ Hr)).
  assert (Eg : b_refcnt (get_buf b k1) = u32 (b_refcnt (get_buf b k) - 1)) by (unfold k1; now rewrite get_buf_upd).
  assert (Hr1 : ring L k1) by (apply ring_upd_buf; [done|exact (ring_ext L k (acquired LK_bcache k) eq_refl eq_refl Hr)]).
  rewrite Eg. apply wp_bind. destruct (_ =? 0); cbn [when].
  - destruct (move_front L b k1 Hr1 Hb) as (k2 & E & R & Hr2). unfold wp. rewrite E.
    destruct R as (bufs & h & -> & Hs).
    eapply (wp_release LK_bcache k (set_k_bufs bufs (set_k_head h k1))); [eauto with kernel|eauto with kernel|done|done|apply noise_refl|].
    intros k'' Hn. eapply HQ; [|exact Hn]. split; [|exact (ring_ext _ (set_k_bufs bufs (set_k_head h k1)) (relock k (set_k_bufs bufs (set_k_head h k1))) eq_refl eq_refl Hr2)].
    exists bufs, h. split; [now destruct k|exact Hs].
  - apply wp_ret. eapply (wp_release LK_bcache k k1); [eauto with kernel|eauto with kernel|done|done|apply noise_refl|].
    unfold k1. rewrite relock_upd_buf. intros k'' Hn. eapply HQ; [|exact Hn]. done.
Qed.

Lemma wp_brelse p L b k Q :
  in_proc p k -> ring L k -> (b < NBUF)%nat -> buf_held (p_pid (get_proc p k)) b k = true ->
  (forall kr k', (if u32 (b_refcnt (get_buf b k) - 1) =? 0 then relinked (brelse_base b k) kr /\ ring (moved b L) kr
                  else kr = brelse_base b k) -> noise kr k' -> Q tt k') ->
  wp (brelse b) Q k.
Proof.
  intros Hp Hr Hb Hh HQ. unfold brelse. apply wp_bind, (wp_holdingsleep _ p); [eauto with kernel|eauto with kernel|apply Hp|].
  intros k1 Hn1. change (sl_locked (get_sl (LK_buf b) k) && (sl_pid (get_sl (LK_buf b) k) =? p_pid (get_proc p k)))
    with (buf_held (p_pid (get_proc p k)) b k). rewrite Hh. cbn [negb].
  pose proof (in_proc_noise _ _ _ Hn1 Hp) as Hp1.
  apply wp_bind, wp_releasesleep; [eauto with kernel|eauto with kernel|intros q; eauto with kernel|apply Hp1|done|].
  intros k2 Hn2. pose proof (noise_trans _ _ _ (sl_wake_noise _ _ _ Hn1) Hn2) as Hn.
  assert (Hp2 : in_proc p k2) by (apply (in_proc_noise _ _ _ Hn), (in_proc_same p k); [done|done|apply length_map|done]).
  assert (Hr2 : ring L k2) by (apply (ring_noise _ _ _ Hn), (ring_ext L (upd_buf b (with_lock sl_dropped) k)), (ring_upd_buf L b (with_lock sl_dropped)); done).
  assert (Eg : b_refcnt (get_buf b k2) = b_refcnt (get_buf b k)).
  { rewrite (noise_get_buf _ _ _ Hn). change (get_buf b (sl_wake (LK_buf b) k)) with (get_buf b (upd_buf b (with_lock sl_dropped) k)).
    rewrite get_buf_upd; [done|]. now rewrite (ring_len _ _ Hr). }
  pose proof (upd_buf_noise b (buf_ref (-1)) _ _ Hn) as Hn3. rewrite <- brelse_base_eq in Hn3.
  apply (wp_brelse_tail p L); [done..|]. rewrite Eg. intros kr k' Hkr Hn4. destruct (_ =? 0).
  - destruct Hkr as [R Hr3]. destruct (relinked_noise _ _ _ Hn3 R) as (kr0 & R0 & Hn5 & Eb & Eh).
    apply (HQ kr0); [|exact (noise_trans _ _ _ Hn5 Hn4)]. split; [done|]. exact (ring_ext _ kr kr0 Eb Eh Hr3).
  - subst kr. apply (HQ (brelse_base b k)); [done|]. exact (noise_trans _ _ _ Hn3 Hn4).
Qed.

(** ** The cache as a store of blocks *)

(** What a reader of block [n] gets: the cached copy, or the block on the disk. *)
Definition contents (b : nat) (k : kernel) : list Z :=
  if b_valid (get_buf b k) then b_data (get_buf b k) else k_disk k (b_blockno (get_buf b k)).
Definition view (dev n : Z) (k : kernel) : list Z :=
  match find_buf (is_block dev n k) (seq 0 NBUF) with
  | Some b => contents b k
  | None => k_disk k n
  end.

(** The cache's invariant.  [co_clean] is what the code relies on when it recycles a
    buffer: a buffer no one refers to holds nothing that the disk does not have. *)
Record cache_ok (L : list nat) (k : kernel) : Prop := {
  co_ring : ring L k;
  co_uniq : forall b c, (b < NBUF)%nat -> (c < NBUF)%nat -> b_dev (get_buf b k) <> 0 ->
      b_dev (get_buf b k) = b_dev (get_buf c k) -> b_blockno (get_buf b k) = b_blockno (get_buf c k) -> b = c;
  co_ref : forall b, (b < NBUF)%nat -> 0 <= b_refcnt (get_buf b k) < 2 ^ 32;
  co_clean : forall b, (b < NBUF)%nat -> b_refcnt (get_buf b k) = 0 -> contents b k = k_disk k (b_blockno (get_buf b k)) }.

Lemma view_cached L k dev n b :
  cache_ok L k -> dev <> 0 -> (b < NBUF)%nat -> is_block dev n k b = true -> view dev n k = contents b k.
Proof.
  intros Hc Hd Hb Hi. unfold view. destruct (find_buf _ _) as [c|] eqn:E.
  - apply find_buf_some in E as [Hc1 Hc2]. apply elem_of_seq in Hc1. unfold is_block in *.
    f_equal. apply (co_uniq _ _ Hc); lia.
  - exfalso. rewrite find_buf_none in E. rewrite E in Hi; [done|]. apply elem_of_seq. lia.
Qed.

Lemma view_uncached k dev n :
  (forall b, (b < NBUF)%nat -> is_block dev n k b = false) -> view dev n k = k_disk k n.
Proof.
  intros H. unfold view. replace (find_buf _ _) with (@None nat); [done|]. symmetry. apply find_buf_none.
  intros b Hb. apply H. apply elem_of_seq in Hb. lia.
Qed.

Lemma view_cases L k dev n :
  cache_ok L k -> dev <> 0 ->
  (exists b, (b < NBUF)%nat /\ is_block dev n k b = true /\ view dev n k = contents b k) \/
  (forall b, (b < NBUF)%nat -> is_block dev n k b = false) /\ view dev n k = k_disk k n.
Proof.
  intros Hc Hd. destruct (find_buf (is_block dev n k) (seq 0 NBUF)) as [b|] eqn:E.
  - left. apply find_buf_some in E as [H1 H2]. apply elem_of_seq in H1. assert (b < NBUF)%nat by lia.
    exists b. eauto using view_cached.
  - right. rewrite find_buf_none in E. assert (H : forall b, (b < NBUF)%nat -> is_block dev n k b = false).
    { intros b Hb. apply E, elem_of_seq. lia. }
    eauto using view_uncached.
Qed.

(** The blocks do not change when no buffer changes key or contents. *)
Lemma view_ext k k' dev n :
  k_disk k' = k_disk k ->
  (forall b, (b < NBUF)%nat -> b_dev (get_buf b k') = b_dev (get_buf b k) /\
     b_blockno (get_buf b k') = b_blockno (get_buf b k) /\ contents b k' = contents b k) ->
  view dev n k' = view dev n k.
Proof.
  intros Hd Hb. unfold view.
  assert (E : forall l, (forall b, b ∈ l -> (b < NBUF)%nat) -> find_buf (is_block dev n k') l = find_buf (is_block dev n k) l).
  { induction l as [|x l IH]; intros Hl; [done|]. rewrite !find_buf_cons.
    destruct (Hb x (Hl x ltac:(constructor))) as (H1 & H2 & _). unfold is_block at 1 3. rewrite H1, H2.
    rewrite IH; [done|]. intros b Hbl. apply Hl. now constructor. }
  rewrite E by (intros b Hbl; apply elem_of_seq in Hbl; lia).
  destruct (find_buf _ _) as [b|] eqn:Ef; [|now rewrite Hd]. apply Hb.
  apply find_buf_some in Ef as [Ef _]. apply elem_of_seq in Ef. lia.
Qed.

Lemma cache_ok_upd L L' b k k' :
  cache_ok L k -> ring L' k' -> k_disk k' = k_disk k ->
  (forall c, c <> b -> (c < NBUF)%nat -> get_buf c k' = get_buf c k) ->
  (forall c, c <> b -> (c < NBUF)%nat -> b_dev (get_buf b k') <> 0 ->
     is_block (b_dev (get_buf b k')) (b_blockno (get_buf b k')) k c = false) ->
  0 <= b_refcnt (get_buf b k') < 2 ^ 32 ->
  (b_refcnt (get_buf b k') = 0 -> contents b k' = k_disk k (b_blockno (get_buf b k'))) ->
  cache_ok L' k'.
Proof.
  intros [H1 H2 H3 H5] Hr Hd Ho Hu Href Hcl. unfold is_block in Hu.
  assert (Hu' : forall c, c <> b -> (c < NBUF)%nat -> b_dev (get_buf b k') <> 0 ->
    b_dev (get_buf b k') = b_dev (get_buf c k') -> b_blockno (get_buf b k') = b_blockno (get_buf c k') -> False).
  { intros c Hc Hcn Hne. rewrite (Ho c) by done. intros Q1 Q2. specialize (Hu c Hc Hcn Hne). lia. }
  split; [done|..].
  - intros x y Hx Hy Hne E1 E2. destruct (decide (x = b)) as [->|Hxb]; destruct (decide (y = b)) as [->|Hyb]; [done|..].
    + destruct (Hu' y Hyb Hy Hne E1 E2).
    + destruct (Hu' x Hxb Hx); congruence.
    + rewrite !Ho in * by done. apply H2; done.
  - intros c Hc. destruct (decide (c = b)) as [->|]; [done|]. rewrite Ho by done. auto.
  - intros c Hc. unfold contents. rewrite Hd. destruct (decide (c = b)) as [->|].
    + intros Hz. specialize (Hcl Hz). unfold contents in Hcl. now rewrite Hd in Hcl.
    + rewrite Ho by done. apply H5, Hc.
Qed.

(** Recycling an unreferenced buffer changes no block. *)
Lemma view_recycled L b dev n k k' dev' m :
  cache_ok L k -> dev <> 0 -> dev' <> 0 -> (b < NBUF)%nat -> b_refcnt (get_buf b k) = 0 ->
  (forall c, (c < NBUF)%nat -> is_block dev n k c = false) ->
  k_disk k' = k_disk k -> cache_ok L k' -> (forall c, c <> b -> (c < NBUF)%nat -> get_buf c k' = get_buf c k) ->
  is_block dev n k' b = true -> contents b k' = k_disk k n ->
  view dev' m k' = view dev' m k.
Proof.
  intros Hc Hd Hd' Hb Hz Hno Ek Hc' Ho Hi Hct.
  assert (Eo : forall c, c <> b -> (c < NBUF)%nat -> is_block dev' m k' c = is_block dev' m k c /\ contents c k' = contents c k).
  { intros c H1 H2. unfold is_block, contents. rewrite (Ho c H1 H2), Ek. done. }
  destruct (view_cases _ _ dev' m Hc' Hd') as [(c & Hcn & Hci & ->)|[Hn' ->]].
  - destruct (decide (c = b)) as [->|Hcb].
    + rewrite Hct. assert (dev' = dev /\ m = n) as [-> ->] by (unfold is_block in *; lia).
      symmetry. now apply view_uncached.
    + destruct (Eo c Hcb Hcn) as [E1 E2]. rewrite E2. rewrite E1 in Hci. symmetry. eauto using view_cached.
  - rewrite Ek. destruct (view_cases _ _ dev' m Hc Hd') as [(c & Hcn & Hci & ->)|[_ ->]]; [|done].
    destruct (decide (c = b)) as [->|Hcb].
    + rewrite (co_clean _ _ Hc b Hb Hz). f_equal. unfold is_block in Hci. lia.
    + destruct (Eo c Hcb Hcn) as [E1 _]. rewrite Hn' in E1 by done. congruence.
Qed.

(** What holds after [bread] returned buffer [b]. *)
Record bread_post (p : nat) (dev n : Z) (b : nat) (L : list nat) (k k' : kernel) : Prop := {
  bp_cache : cache_ok L k';
  bp_key : is_block dev n k' b = true;
  bp_valid : b_valid (get_buf b k') = true;
  bp_data : b_data (get_buf b k') = view dev n k;
  bp_held : buf_held (p_pid (get_proc p k)) b k' = true;
  bp_refcnt : b_refcnt (get_buf b k') = b_refcnt (get_buf b k) + 1;
  bp_view : forall dev' m, dev' <> 0 -> view dev' m k' = view dev' m k;
  bp_others : forall c, c <> b -> get_buf c k' = get_buf c k;
  bp_frame : exists bufs, noise (set_k_bufs bufs k) k' }.

Lemma choice_cases dev n L k b f :
  cache_ok L k -> bget_choice dev n L k = Some (b, f) ->
  (b < NBUF)%nat /\
  (is_block dev n k b = true /\ f = buf_hit \/
   (forall c, (c < NBUF)%nat -> is_block dev n k c = false) /\ b_refcnt (get_buf b k) = 0 /\ f = buf_recycled dev n).
Proof.
  intros Hc H. pose proof (choice_in _ _ _ _ _ _ (co_ring _ _ Hc) H) as Hb. rewrite (ring_len _ _ (co_ring _ _ Hc)) in Hb.
  split; [done|]. destruct (ring_nodup L k (co_ring _ _ Hc)) as (_ & _ & Hin).
  unfold bget_choice in H. destruct (find_buf (is_block _ _ _) L) eqn:E.
  - injection H as -> <-. left. now apply find_buf_some in E.
  - destruct (find_buf (is_unused k) _) eqn:E2; [|done]. injection H as -> <-. right.
    rewrite find_buf_none in E. split; [intros c Hcn; now apply E, Hin|]. split; [|done].
    apply find_buf_some in E2 as [_ E2]. unfold is_unused in E2. lia.
Qed.

Lemma bread_post_intro p L dev n b f k k' :
  cache_ok L k -> dev <> 0 -> bget_choice dev n L k = Some (b, f) -> b_refcnt (get_buf b k) + 1 < 2 ^ 32 ->
  noise (upd_buf b (buf_read (p_pid (get_proc p k)) (k_disk k n) f) k) k' -> bread_post p dev n b L k k'.
Proof.
  intros Hc Hd Hch Href Hn. destruct (choice_cases _ _ _ _ _ _ Hc Hch) as [Hb Hf].
  pose proof (co_ring _ _ Hc) as Hr. set (g := buf_read _ _ _) in Hn.
  assert (Eg : get_buf b k' = g (get_buf b k)).
  { rewrite (noise_get_buf _ _ _ Hn). apply get_buf_upd. now rewrite (ring_len _ _ Hr). }
  assert (Eo : forall c, c <> b -> get_buf c k' = get_buf c k).
  { intros c Hcb. rewrite (noise_get_buf _ _ _ Hn). now apply get_buf_upd_ne. }
  assert (Ed : k_disk k' = k_disk k) by (rewrite (noise_disk _ _ Hn); done).
  pose proof (co_ref _ _ Hc b Hb) as Hrc.
  assert (Hg : b_next (g (get_buf b k)) = b_next (get_buf b k) /\ b_prev (g (get_buf b k)) = b_prev (get_buf b k) /\
     b_dev (g (get_buf b k)) = dev /\ b_blockno (g (get_buf b k)) = n /\ b_valid (g (get_buf b k)) = true /\
     b_refcnt (g (get_buf b k)) = b_refcnt (get_buf b k) + 1 /\
     b_lock (g (get_buf b k)) = sl_taken (p_pid (get_proc p k)) (b_lock (get_buf b k)) /\ b_data (g (get_buf b k)) = view dev n k).
  { destruct Hf as [[Hi ->]|(Hno & Hz & ->)]; unfold g, buf_read, buf_loaded.
    - rewrite (view_cached _ _ _ _ _ Hc Hd Hb Hi). unfold contents, is_block in *.
      destruct (b_valid (get_buf b k)) eqn:Ev; cbn; rewrite ?Ev; cbn; unfold u32; rewrite ?Z.mod_small by lia.
      + split_and!; done || lia.
      + split_and!; try (done || lia). f_equal. lia.
    - rewrite (view_uncached _ _ _ Hno). cbn. rewrite Hz. done. }
  destruct Hg as (Hg1 & Hg2 & Hg3 & Hg4 & Hg5 & Hg6 & Hg7 & Hg8). rewrite <- Eg in *.
  assert (Hr' : ring L k').
  { apply (ring_same L k); [rewrite (noise_bufs _ _ Hn); apply length_alter|exact (noise_eq k_head _ _ ltac:(done) Hn)| |done].
    intros c. destruct (decide (c = b)) as [->|]; [done|]. now rewrite Eo. }
  assert (Hc' : cache_ok L k').
  { apply (cache_ok_upd L L b k); [done..|intros; now apply Eo| |lia|lia].
    intros c Hcb Hcn _. rewrite Hg3, Hg4. destruct Hf as [[Hi _]|(Hno & _)]; [|now apply Hno].
    apply not_true_is_false. intros Hi2. unfold is_block in *. apply Hcb, (co_uniq _ _ Hc); lia. }
  assert (Hi' : is_block dev n k' b = true) by (unfold is_block; rewrite Hg3, Hg4; lia).
  split; [done|done|done|done| |done| |done|now exists (alter g b (k_bufs k))].
  - unfold buf_held. rewrite Hg7. cbn. lia.
  - intros dev' m Hd'. destruct Hf as [[Hi _]|(Hno & Hz & _)].
    + apply view_ext; [done|]. intros c Hcn. destruct (decide (c = b)) as [->|Hcb].
      * rewrite Hg3, Hg4. unfold contents at 1. rewrite Hg5, Hg8. unfold is_block in Hi.
        split; [lia|]. split; [lia|]. apply (view_cached L); unfold is_block; done.
      * unfold contents. now rewrite Eo, Ed.
    + apply (view_recycled L b dev n); try done; [intros; now apply Eo|].
      unfold contents. rewrite Hg5, Hg8. now apply view_uncached.
Qed.

(** What holds after [brelse b]. *)
Definition released_order (b : nat) (L : list nat) (k : kernel) : list nat :=
  if b_refcnt (get_buf b k) =? 1 then moved b L else L.
Record brelse_post (b : nat) (L : list nat) (k k' : kernel) : Prop := {
  rp_cache : cache_ok (released_order b L k) k';
  rp_buf : same_data (buf_dropped (get_buf b k)) (get_buf b k');
  rp_others : forall c, c <> b -> (c < NBUF)%nat -> same_data (get_buf c k) (get_buf c k');
  rp_view : forall dev m, dev <> 0 -> view dev m k' = view dev m k;
  rp_frame : exists bufs h,
      noise (set_k_bufs bufs (set_k_head h (set_k_procs (map (wake (CH_sleeplock (LK_buf b))) (k_procs k)) k))) k' }.

Lemma same_data_fields x y :
  same_data x y -> b_dev y = b_dev x /\ b_blockno y = b_blockno x /\ b_refcnt y = b_refcnt x /\ b_lock y = b_lock x /\
    b_valid y = b_valid x /\ b_data y = b_data x.
Proof. intros (? & ? & ->). done. Qed.

Lemma cache_ok_same L L' k k' :
  cache_ok L k -> ring L' k' -> k_disk k' = k_disk k ->
  (forall c, (c < NBUF)%nat -> same_data (get_buf c k) (get_buf c k')) -> cache_ok L' k'.
Proof.
  intros [H1 H2 H3 H5] Hr Hd Hs.
  assert (F : forall c, (c < NBUF)%nat -> b_dev (get_buf c k') = b_dev (get_buf c k) /\
    b_blockno (get_buf c k') = b_blockno (get_buf c k) /\ b_refcnt (get_buf c k') = b_refcnt (get_buf c k) /\
    b_lock (get_buf c k') = b_lock (get_buf c k) /\ contents c k' = contents c k).
  { intros c Hc. destruct (same_data_fields _ _ (Hs c Hc)) as (E1 & E2 & E3 & E4 & E5 & E6).
    unfold contents. rewrite E1, E2, E3, E4, E5, E6, Hd. done. }
  split; [done|..].
  - intros b c Hb Hc. destruct (F b Hb) as (-> & -> & _). destruct (F c Hc) as (-> & -> & _). now apply H2.
  - intros b Hb. destruct (F b Hb) as (_ & _ & -> & _). auto.
  - intros b Hb. destruct (F b Hb) as (_ & -> & -> & _ & ->). rewrite Hd. auto.
Qed.

Lemma same_data_view k k' dev m :
  k_disk k' = k_disk k -> (forall c, (c < NBUF)%nat -> same_data (get_buf c k) (get_buf c k')) ->
  view dev m k' = view dev m k.
Proof.
  intros Hd Hs. apply view_ext; [done|]. intros c Hc.
  destruct (same_data_fields _ _ (Hs c Hc)) as (E1 & E2 & _ & _ & E5 & E6).
  unfold contents. now rewrite E1, E2, E5, E6, Hd.
Qed.

Lemma u32_pred_zero r : 0 <= r < 2 ^ 32 -> u32 (r - 1) = 0 <-> r = 1.
Proof.
  intros H. unfold u32. destruct (decide (r = 0)) as [->|]; [split; [done|lia]|]. rewrite Z.mod_small by lia. lia.
Qed.

Lemma brelse_base_ok L b k :
  cache_ok L k -> (b < NBUF)%nat ->
  (b_refcnt (get_buf b k) = 1 -> contents b k = k_disk k (b_blockno (get_buf b k))) ->
  cache_ok L (brelse_base b k) /\ get_buf b (brelse_base b k) = buf_dropped (get_buf b k) /\
  (forall c, c <> b -> get_buf c (brelse_base b k) = get_buf c k) /\
  (forall dev m, view dev m (brelse_base b k) = view dev m k).
Proof.
  intros Hc Hb Hcl. pose proof (co_ring _ _ Hc) as Hr.
  assert (Eg : get_buf b (brelse_base b k) = buf_dropped (get_buf b k)).
  { apply (get_buf_upd b buf_dropped k). now rewrite (ring_len _ _ Hr). }
  assert (Eo : forall c, c <> b -> get_buf c (brelse_base b k) = get_buf c k).
  { intros c Hcb. now apply (get_buf_upd_ne b c buf_dropped k). }
  pose proof (co_ref _ _ Hc b Hb) as Href.
  assert (Er : b_refcnt (buf_dropped (get_buf b k)) = u32 (b_refcnt (get_buf b k) - 1)) by done.
  assert (Ec : contents b (brelse_base b k) = contents b k) by (unfold contents; now rewrite Eg).
  split; [|split; [done|split; [done|]]].
  - apply (cache_ok_upd L L b k); [done| |done|intros; now apply Eo|..].
    + apply (ring_ext L (upd_buf b buf_dropped k)); [done|done|]. apply ring_upd_buf; done.
    + rewrite Eg. intros c Hcb Hcn Hne. apply not_true_is_false. intros Hi. unfold is_block in Hi. cbn in Hi, Hne.
      apply Hcb, (co_uniq _ _ Hc); lia.
    + rewrite Eg, Er. unfold u32. apply Z.mod_pos_bound. lia.
    + rewrite Eg, Er. intros Hr1. rewrite Ec. apply Hcl. now apply u32_pred_zero.
  - intros dev m. apply view_ext; [done|]. intros c Hcn. destruct (decide (c = b)) as [->|Hcb].
    + rewrite Eg, Ec. done.
    + unfold contents. rewrite (Eo c Hcb). done.
Qed.

Lemma wp_brelse_ok p L b k Q :
  in_proc p k -> cache_ok L k -> (b < NBUF)%nat -> buf_held (p_pid (get_proc p k)) b k = true ->
  (b_refcnt (get_buf b k) = 1 -> contents b k = k_disk k (b_blockno (get_buf b k))) ->
  (forall k', brelse_post b L k k' -> Q tt k') -> wp (brelse b) Q k.
Proof.
  intros Hp Hc Hb Hh Hcl HQ.
  pose proof (co_ref _ _ Hc b Hb) as Href.
  destruct (brelse_base_ok L b k Hc Hb Hcl) as (C & Eg & Eo & Ev).
  apply (wp_brelse p L); [done|apply Hc|done|done|]. intros kr k' Hkr Hn. apply HQ.
  assert (Hsd : cache_ok (released_order b L k) kr /\ (forall c, (c < NBUF)%nat -> same_data (get_buf c (brelse_base b k)) (get_buf c kr)) /\
     k_disk kr = k_disk k /\ exists bufs h, kr = set_k_bufs bufs (set_k_head h (set_k_procs (map (wake (CH_sleeplock (LK_buf b))) (k_procs k)) k))).
  { unfold released_order. revert Hkr. pose proof (u32_pred_zero _ Href) as Hz.
    destruct (Z.eqb_spec (u32 (b_refcnt (get_buf b k) - 1)) 0); destruct (Z.eqb_spec (b_refcnt (get_buf b k)) 1); try lia.
    - intros [R Hr]. assert (Hs : forall c, (c < NBUF)%nat -> same_data (get_buf c (brelse_base b k)) (get_buf c kr)).
      { intros c Hcn. apply (relinked_buf _ _ _ R). now rewrite (ring_len _ _ (co_ring _ _ C)). }
      destruct R as (bufs & h & -> & _). split; [apply (cache_ok_same L _ (brelse_base b k)); done|].
      split; [done|]. split; [done|]. exists bufs, h. done.
    - intros ->. split; [done|]. split; [intros; apply same_data_refl|]. split; [done|].
      exists (alter buf_dropped b (k_bufs k)), (k_head k). now destruct k. }
  destruct Hsd as (C' & Hs & Ed & Hf).
  assert (Hs' : forall c, (c < NBUF)%nat -> same_data (get_buf c kr) (get_buf c k')).
  { intros c _. rewrite (noise_get_buf _ _ _ Hn). apply same_data_refl. }
  split.
  - apply (cache_ok_same (released_order b L k) _ kr); [done|exact (ring_noise _ _ _ Hn (co_ring _ _ C'))|exact (noise_disk _ _ Hn)|done].
  - rewrite (noise_get_buf _ _ _ Hn), <- Eg. now apply Hs.
  - intros c Hcb Hcn. rewrite (noise_get_buf _ _ _ Hn), <- (Eo c Hcb). now apply Hs.
  - intros dev m _. rewrite (same_data_view kr k'), <- (Ev dev m); [|exact (noise_disk _ _ Hn)|done].
    apply same_data_view; [now rewrite Ed|done].
  - destruct Hf as (bufs & h & ->). now exists bufs, h.
Qed.

Lemma bread_post_proc p dev n b L k k' : bread_post p dev n b L k k' -> in_proc p k -> in_proc p k' /\ get_proc p k' = get_proc p k.
Proof.
  intros [_ _ _ _ _ _ _ _ (bufs & Hn)] Hp. split; [|now rewrite (noise_proc _ _ _ Hn)].
  apply (in_proc_noise _ _ _ Hn), (in_proc_same p k); done.
Qed.

Lemma wp_bread_ok p L dev n b f k Q :
  in_proc p k -> cache_ok L k -> dev <> 0 -> bget_choice dev n L k = Some (b, f) ->
  sl_locked (b_lock (get_buf b k)) = false -> b_refcnt (get_buf b k) + 1 < 2 ^ 32 ->
  (forall k', bread_post p dev n b L k k' -> in_proc p k' -> Q b k') ->
  wp (bread dev n) Q k.
Proof.
  intros Hp Hc Hd E Hl Href HQ. apply (wp_bread p L dev n b f); [done|apply Hc|done|done|]. intros k' Hn.
  pose proof (bread_post_intro p L dev n b f k k' Hc Hd E Href Hn) as H. apply HQ; [done|].
  now destruct (bread_post_proc _ _ _ _ _ _ _ H Hp).
Qed.

Lemma brelse_post_proc p b L k k' : brelse_post b L k k' -> in_proc p k -> in_proc p k'.
Proof.
  intros [_ _ _ _ (bufs & h & Hn)] Hp. apply (in_proc_noise _ _ _ Hn), (in_proc_same p k); [done|done|apply length_map|done].
Qed.

(** C28: [bread] returns the block.  With the cache in order, it hands out the buffer
    that already caches the block or, failing that, the least recently released
    buffer nobody refers to, and panics when there is none; the buffer is locked by
    the caller, valid, holds what the block's cached copy or else the disk holds, and
    has one reference more.  No other buffer and no block changes, and the cache
    stays in order: at most one buffer per block, linked in a ring. *)
Theorem bread_correct p L dev n k :
  in_proc p k -> cache_ok L k -> dev <> 0 ->
  match bget_choice dev n L k with
  | None => bread dev n k = Panic "bget: no buffers" (acquired LK_bcache k)
  | Some (b, _) =>
      sl_locked (b_lock (get_buf b k)) = false -> b_refcnt (get_buf b k) + 1 < 2 ^ 32 ->
      wp (bread dev n) (fun b' k' => b' = b /\ bread_post p dev n b L k k') k
  end.
Proof.
  intros Hp Hc Hd. destruct (bget_choice dev n L k) as [[b f]|] eqn:E.
  - intros Hl Href. apply (wp_bread_ok p L dev n b f); [done..|]. intros k' Hb _. done.
  - unfold bread. unfold bind at 1. now rewrite (bget_panics p L dev n k Hp (co_ring _ _ Hc) E).
Qed.

(** C29: [brelse] gives the buffer back.  The lock is free and its waiters are woken;
    the reference is gone; with the last one the buffer becomes the first of the
    list, so that the list stays ordered by time of last release.  No block changes
    (a buffer released for the last time has to agree with the disk).  A caller that
    does not hold the buffer makes [brelse] panic. *)
Theorem brelse_correct p L b k :
  in_proc p k -> cache_ok L k -> (b < NBUF)%nat ->
  (b_refcnt (get_buf b k) = 1 -> contents b k = k_disk k (b_blockno (get_buf b k))) ->
  if buf_held (p_pid (get_proc p k)) b k
  then wp (brelse b) (fun _ k' => brelse_post b L k k') k
  else exists k', brelse b k = Panic "brelse" k'.
Proof.
  intros Hp Hc Hb Hcl. destruct (buf_held _ b k) eqn:Hh; [now apply (wp_brelse_ok p L)|].
  assert (W : wp (holdingsleep (LK_buf b)) (fun r _ => r = false) k).
  { apply (wp_holdingsleep _ p); [eauto with kernel|eauto with kernel|apply Hp|]. intros k' _. exact Hh. }
  apply wp_run in W as (r & k1 & E & ->). exists k1. unfold brelse. kstep E. done.
Qed.

(** ** Initialisation *)

Definition sl_fresh (name : string) (s : sleeplock) : sleeplock := mk_sleeplock false name 0.
Definition lk_fresh (lk : lockname) (name : string) : kernel -> kernel :=
  upd_lock lk (fun l => set_lk_cpu None (set_lk_locked false (set_lk_name name l))).

Lemma initsleeplock_buf b name k :
  initsleeplock (LK_buf b) name k = Ok tt (upd_buf b (with_lock (sl_fresh name)) (lk_fresh (LK_buf b) "sleep lock" k)).
Proof.
  unfold initsleeplock, initlock, bind, modify. rewrite !upd_sl_upd. done.
Qed.

Lemma lk_fresh_upd lk name b f k : lk_fresh lk name (upd_buf b f k) = upd_buf b f (lk_fresh lk name k).
Proof. done. Qed.

(** One round of the loop links the buffer in at the front. *)
Lemma binit_round b k :
  b <> bhead ->
  (let* n := gets (next_of bhead) in
   set_next b n ;;; set_prev b bhead ;;; initsleeplock (LK_buf b) "buffer" ;;;
   let* n := gets (next_of bhead) in set_prev n b ;;; set_next bhead b) k
  = push_front b (upd_buf b (with_lock (sl_fresh "buffer")) (lk_fresh (LK_buf b) "sleep lock" k)).
Proof.
  intros Hb. rewrite push_front_run.
  transitivity (let k1 := upd_buf b (with_lock (sl_fresh "buffer"))
                            (lk_fresh (LK_buf b) "sleep lock" (setp b bhead (setn b (next_of bhead k) k))) in
                Ok tt (setn bhead b (setp (next_of bhead k1) b k1))).
  { unfold bind at 1, gets at 1. kstep (set_next_run b (next_of bhead k) k). kstep (set_prev_run b bhead (setn b (next_of bhead k) k)).
    kstep (initsleeplock_buf b "buffer" (setp b bhead (setn b (next_of bhead k) k))). unfold bind at 1, gets at 1.
    rewrite (bind_Ok _ _ _ _ _ (set_prev_run _ _ _)). apply set_next_run. }
  assert (E : upd_buf b (with_lock (sl_fresh "buffer")) (lk_fresh (LK_buf b) "sleep lock" (setp b bhead (setn b (next_of bhead k) k)))
    = setp b bhead (setn b (next_of bhead k) (upd_buf b (with_lock (sl_fresh "buffer")) (lk_fresh (LK_buf b) "sleep lock" k)))).
  { unfold setp, setn. rewrite !decide_False by done. rewrite !lk_fresh_upd, !upd_buf_upd. now apply upd_buf_ext. }
  cbv zeta. rewrite E. done.
Qed.

(** The buffers as the loader leaves them. *)
Definition buf_zero (x : buf) : Prop := b_dev x = 0 /\ b_refcnt x = 0 /\ b_valid x = false /\ sl_locked (b_lock x) = false.

(** The invariant of the loop of [binit] when the buffers [seen] are linked in. *)
Definition binit_frame (k0 k : kernel) : Prop :=
  k_hart k = k_hart k0 /\ k_procs k = k_procs k0 /\ k_disk k = k_disk k0 /\ forall lk, lock_free lk k0 -> lock_free lk k.
Definition binit_inv (k0 : kernel) (seen : list nat) (k : kernel) : Prop :=
  length (k_bufs k) = NBUF /\ binit_frame k0 k /\ links (nexts k) (prevs k) (bhead :: rev seen ++ [bhead]) /\
  forall b, (b < NBUF)%nat ->
    buf_zero (get_buf b k) /\ (b ∈ seen -> sl_name (b_lock (get_buf b k)) = "buffer"%string).

Lemma lk_fresh_free lk name l k : lock_free l k -> lock_free l (lk_fresh lk name k).
Proof. unfold lock_free, lk_fresh. rewrite upd_lock_lookup. now case_decide. Qed.

Lemma binit_step k0 seen x rest k :
  seq 0 NBUF = seen ++ x :: rest -> binit_inv k0 seen k ->
  wp (let* n := gets (next_of bhead) in
      set_next x n ;;; set_prev x bhead ;;; initsleeplock (LK_buf x) "buffer" ;;;
      let* n := gets (next_of bhead) in set_prev n x ;;; set_next bhead x)
     (fun _ k' => binit_inv k0 (seen ++ [x]) k') k.
Proof.
  intros El (Hl & Hd & Hlk & Hb).
  assert (Hin : forall y, y ∈ seen ++ x :: rest <-> (y < NBUF)%nat) by (intros y; rewrite <- El, elem_of_seq; lia).
  assert (Hnd : NoDup (seen ++ x :: rest)) by (rewrite <- El; apply NoDup_seq).
  apply NoDup_app in Hnd as (N1 & N2 & _).
  assert (Hxs : x ∉ seen) by (intros H; apply (N2 x H); constructor).
  assert (Hx : (x < NBUF)%nat) by (apply Hin, elem_of_app; right; constructor).
  unfold wp. rewrite binit_round by (unfold bhead; lia). set (k1 := upd_buf x _ _).
  assert (Hl1 : length (k_bufs k1) = NBUF) by (rewrite <- Hl; apply length_alter).
  assert (E1 : get_buf x k1 = with_lock (sl_fresh "buffer") (get_buf x k)).
  { unfold k1. rewrite get_buf_upd; [done|]. cbn. lia. }
  assert (E2 : forall c, c <> x -> get_buf c k1 = get_buf c k) by (intros c Hc; unfold k1; now rewrite get_buf_upd_ne).
  destruct (push_front_links x (rev seen) k1) as (k2 & -> & R & L2).
  - rewrite <- Permutation_rev. done.
  - intros H. apply list_elem_of_In, in_rev, list_elem_of_In in H. assert (bhead < NBUF)%nat by (apply Hin, elem_of_app; now left). unfold bhead in *; lia.
  - intros H. now apply list_elem_of_In, in_rev, list_elem_of_In in H.
  - unfold bhead. lia.
  - intros y Hy. apply elem_of_cons in Hy as [->|Hy]; [now left|]. right. rewrite Hl1. apply Hin, elem_of_app.
    apply elem_of_cons in Hy as [->|Hy]; [right; constructor|left]. now apply list_elem_of_In, in_rev, list_elem_of_In in Hy.
  - eapply links_pointwise; [| |exact Hlk]; intros y; unfold next_of, prev_of; (case_decide; [done|]);
      (destruct (decide (y = x)) as [->|]; [rewrite E1|rewrite E2]; done).
  - split; [now rewrite (relinked_length _ _ R)|]. split.
    { destruct Hd as (D1 & D2 & D3 & D4), R as (? & ? & -> & _). split_and!; [done..|].
      intros lk Hlk'. exact (lk_fresh_free (LK_buf x) "sleep lock" lk k (D4 lk Hlk')). }
    split; [rewrite rev_app_distr; exact L2|]. intros b Hbn. pose proof (relinked_buf _ _ b R ltac:(lia)) as Hs.
    apply same_data_fields in Hs as (F1 & _ & F3 & F4 & F5 & _). unfold buf_zero. rewrite F1, F3, F4, F5.
    destruct (Hb b Hbn) as [(Z1 & Z2 & Z3 & Z4) Hs]. destruct (decide (b = x)) as [->|Hbx].
    + rewrite E1. cbn. done.
    + rewrite (E2 b Hbx). split; [done|]. intros H. apply elem_of_app in H as [H|H]; [auto|].
      now apply list_elem_of_singleton in H.
Qed.

Lemma wp_binit k :
  length (k_bufs k) = NBUF -> (forall b, (b < NBUF)%nat -> buf_zero (get_buf b k)) ->
  wp binit (fun _ k' => cache_ok (rev (seq 0 NBUF)) k' /\ binit_inv k (seq 0 NBUF) k') k.
Proof.
  intros Hlen Hz. unfold binit. apply wp_bind, wp_modify, wp_bind, wp_modify, wp_bind, wp_modify. rewrite !decide_True by done.
  cbn [fst snd k_head set_k_head].
  eapply wp_mono; [apply (wp_for_each (binit_inv k))|].
  - split; [exact Hlen|]. split; [split_and!; [done..|]; intros lk Hlk; exact (lk_fresh_free LK_bcache "bcache" lk k Hlk)|].
    split; [split_and!; done|]. intros b Hb. split; [exact (Hz b Hb)|].
    intros H. now apply elem_of_nil in H.
  - intros seen x rest k1 El Hi. now apply (binit_step _ _ _ rest).
  - intros u k' Hi. split; [|done]. destruct Hi as (Hl & Hd & Hlk & Hb).
    split.
    + split; [done| |done]. symmetry. apply Permutation_rev.
    + intros b c H1 _ Hne. destruct (Hb b H1) as [[E _] _]. done.
    + intros b H1. destruct (Hb b H1) as [(_ & -> & _) _]. lia.
    + intros b H1 _. unfold contents. destruct (Hb b H1) as [(_ & _ & -> & _) _]. done.
Qed.

(** [binit] sets the cache up.  From zeroed buffers it builds the ring with the
    last buffer first, every buffer on it once, all of them free, and the invariant
    of the cache holds. *)
Theorem binit_correct k :
  length (k_bufs k) = NBUF -> (forall b, (b < NBUF)%nat -> buf_zero (get_buf b k)) ->
  wp binit (fun _ k' => cache_ok (rev (seq 0 NBUF)) k' /\ k_disk k' = k_disk k /\
    forall b, (b < NBUF)%nat -> buf_zero (get_buf b k') /\ sl_name (b_lock (get_buf b k')) = "buffer"%string) k.
Proof.
  intros Hlen Hz. eapply wp_mono; [now apply wp_binit|]. intros _ k' (Hc & _ & (_ & _ & Hd & _) & _ & Hb).
  split; [done|]. split; [done|]. intros b Hbn. destruct (Hb b Hbn) as [H1 H2]. split; [done|]. apply H2, elem_of_seq. lia.
Qed.

(** The state of process 3 after [binit]. *)
Definition cache_state : kernel := final binit running_state.

Lemma zero_bufs b : (b < NBUF)%nat -> buf_zero (get_buf b running_state).
Proof. intros Hb. unfold get_buf. change (k_bufs running_state) with (replicate NBUF zero_buf). now rewrite lookup_total_replicate_2. Qed.

Lemma cache_state_ok : cache_ok (rev (seq 0 NBUF)) cache_state /\ in_proc 3 cache_state.
Proof.
  destruct (wp_final _ _ _ (wp_binit running_state eq_refl zero_bufs)) as (u & H & _ & (F1 & F2 & _ & F4) & _).
  split; [exact H|]. unfold cache_state. split.
  - split; [unfold ready; rewrite F1; exact boot_hart_ok|]. intros lk. now apply F4.
  - now rewrite F1.
  - unfold table_ok. now rewrite F2.
Qed.

Example bread_correct_witness :
  wp (bread 1 5) (fun b k' => b = 0%nat /\ bread_post 3 1 5 0 (rev (seq 0 NBUF)) cache_state k') cache_state.
Proof.
  pose proof (bread_correct 3 (rev (seq 0 NBUF)) 1 5 cache_state (proj2 cache_state_ok) (proj1 cache_state_ok) ltac:(lia)) as H.
  assert (E : bget_choice 1 5 (rev (seq 0 NBUF)) cache_state = Some (0%nat, buf_recycled 1 5)) by (vm_compute; reflexivity).
  rewrite E in H. apply H; vm_compute; reflexivity.
Defined.

Example binit_correct_witness :
  wp binit (fun _ k' => cache_ok (rev (seq 0 NBUF)) k' /\ k_disk k' = k_disk running_state /\
    forall b, (b < NBUF)%nat -> buf_zero (get_buf b k') /\ sl_name (b_lock (get_buf b k')) = "buffer"%string) running_state.
Proof. exact (binit_correct running_state eq_refl zero_bufs). Defined.

(** The same with block 5 read. *)
Definition read_state : kernel := final (bread 1 5) cache_state.

Lemma choice_state : bget_choice 1 5 (rev (seq 0 NBUF)) cache_state = Some (0%nat, buf_recycled 1 5).
Proof. vm_compute. reflexivity. Qed.

Lemma read_state_ok : bread_post 3 1 5 0 (rev (seq 0 NBUF)) cache_state read_state /\ in_proc 3 read_state.
Proof.
  destruct cache_state_ok as [Hc Hp].
  assert (W : wp (bread 1 5) (fun b k' => bread_post 3 1 5 0 (rev (seq 0 NBUF)) cache_state k' /\ in_proc 3 k') cache_state).
  { apply (wp_bread_ok 3 (rev (seq 0 NBUF)) 1 5 0 _ cache_state _ Hp Hc ltac:(lia) choice_state); [vm_compute; reflexivity..|done]. }
  destruct (wp_final _ _ _ W) as (b & H). exact H.
Qed.

Example brelse_correct_witness :
  wp (brelse 0) (fun _ k' => brelse_post 0 (rev (seq 0 NBUF)) read_state k') read_state.
Proof.
  destruct read_state_ok as [Hr Hp].
  assert (Hh : buf_held (p_pid (get_proc 3 read_state)) 0 read_state = true) by (vm_compute; reflexivity).
  pose proof (brelse_correct 3 (rev (seq 0 NBUF)) 0 read_state Hp (bp_cache _ _ _ _ _ _ _ Hr)
    ltac:(unfold NBUF; lia) ltac:(intros _; vm_compute; reflexivity)) as H.
  rewrite Hh in H. exact H.
Defined.
