(* ===== verification/Blocks.v ===== *)
(** * The block store the buffer cache implements

    What the file system relies on when it calls [bread], [bwrite], [brelse],
    [bpin] and [bunpin]: an abstract store of numbered blocks with, for every
    block, its current contents, its contents on the disk and the number of
    references that pin it in memory.  [stored] relates the store to the buffer
    cache; each operation of bio.c refines an operation on the store. *)

From stdpp Require Import base numbers list gmap strings.
From S2P Require Import Prelude Kstate Kstring Spinlock Kalloc Vm Sched Sleeplock Bio.

(** ** The abstract store *)

Record store : Type := mk_store {
  s_view : Z -> list Z;           (* the block as the file system sees it *)
  s_disk : Z -> list Z;           (* the block on the disk *)
  s_writes : list (Z * list Z);   (* the disk writes so far, oldest first *)
  s_pins : Z -> Z;                (* references to the cached block *)
  s_held : gmap nat Z;            (* the buffers the caller has locked, and their blocks *)
  s_free : nat                    (* buffers without references *)
}.

Definition upd {A} (f : Z -> A) (n : Z) (v : A) : Z -> A := fun m => if decide (m = n) then v else f m.

(** The number of unreferenced buffers when one count goes from [old] to [new]. *)
Definition recount (old new : Z) (free : nat) : nat :=
  if old =? 0 then (if new =? 0 then free else free - 1) else (if new =? 0 then free + 1 else free).

Definition s_read (b : nat) (n : Z) (s : store) : store :=
  mk_store (s_view s) (s_disk s) (s_writes s) (upd (s_pins s) n (s_pins s n + 1)) (<[b := n]> (s_held s))
    (recount (s_pins s n) (s_pins s n + 1) (s_free s)).
Definition s_set (n : Z) (d : list Z) (s : store) : store :=
  mk_store (upd (s_view s) n d) (s_disk s) (s_writes s) (s_pins s) (s_held s) (s_free s).
Definition s_write (n : Z) (s : store) : store :=
  mk_store (s_view s) (upd (s_disk s) n (s_view s n)) (s_writes s ++ [(n, s_view s n)]) (s_pins s) (s_held s) (s_free s).
Definition s_release (b : nat) (n : Z) (s : store) : store :=
  mk_store (s_view s) (s_disk s) (s_writes s) (upd (s_pins s) n (u32 (s_pins s n - 1))) (delete b (s_held s))
    (recount (s_pins s n) (u32 (s_pins s n - 1)) (s_free s)).
Definition s_repin (n i : Z) (s : store) : store :=
  mk_store (s_view s) (s_disk s) (s_writes s) (upd (s_pins s) n (s_pins s n + i)) (s_held s)
    (recount (s_pins s n) (s_pins s n + i) (s_free s)).

Lemma upd_eq {A} (f : Z -> A) n v : upd f n v n = v.
Proof. unfold upd. now rewrite decide_True. Qed.
Lemma upd_ne {A} (f : Z -> A) n v m : m <> n -> upd f n v m = f m.
Proof. intros. unfold upd. now rewrite decide_False. Qed.

(** Stores with the same contents. *)
#[export] Instance store_equiv : Equiv store := fun s s' =>
  (forall n, s_view s n = s_view s' n) /\ (forall n, s_disk s n = s_disk s' n) /\ s_writes s = s_writes s' /\
  (forall n, s_pins s n = s_pins s' n) /\ s_held s = s_held s' /\ s_free s = s_free s'.

#[export] Instance store_equivalence : Equivalence (≡@{store}).
Proof.
  split.
  - intros s. repeat split.
  - intros s s' (H1 & H2 & H3 & H4 & H5 & H6). repeat split; auto.
  - intros s1 s2 s3 (H1 & H2 & H3 & H4 & H5 & H6) (J1 & J2 & J3 & J4 & J5 & J6). repeat split; intros; congruence || (etrans; eauto).
Qed.

(** ** The relation to the cache *)

Definition free_count (k : kernel) : nat := length (filter (fun b => b_refcnt (get_buf b k) = 0) (seq 0 NBUF)).

Record stored (p : nat) (dev : Z) (s : store) (k : kernel) : Prop := {
  st_proc : in_proc p k;
  st_dev : dev <> 0;
  st_cache : exists L, cache_ok L k;
  st_one : forall b, (b < NBUF)%nat ->
      b_dev (get_buf b k) = dev \/ b_refcnt (get_buf b k) = 0 /\ b_valid (get_buf b k) = false;
  st_view : forall n, view dev n k = s_view s n;
  st_disk : forall n, k_disk k n = s_disk s n;
  st_writes : k_writes k = s_writes s;
  st_pins : forall b, (b < NBUF)%nat -> b_dev (get_buf b k) = dev -> b_refcnt (get_buf b k) = s_pins s (b_blockno (get_buf b k));
  st_unpinned : forall n, (forall b, (b < NBUF)%nat -> is_block dev n k b = false) -> s_pins s n = 0;
  st_locked : forall b, (b < NBUF)%nat -> sl_locked (b_lock (get_buf b k)) = true -> is_Some (s_held s !! b);
  st_held : forall b n, s_held s !! b = Some n ->
      (b < NBUF)%nat /\ is_block dev n k b = true /\ b_valid (get_buf b k) = true /\
      buf_held (p_pid (get_proc p k)) b k = true;
  st_free : free_count k = s_free s }.

#[export] Instance stored_proper p dev : Proper ((≡) ==> (=) ==> iff) (stored p dev).
Proof.
  enough (E : forall s s' k, s ≡ s' -> stored p dev s k -> stored p dev s' k) by (intros s s' Hs k k' <-; split; now apply E).
  intros s s' k (V & D & W & P & Hh & F) [H1 H2 H3 H4 H5 H6 H7 H8 H9 H10 H11 H12]. split; [done|done|done|done|..].
  - intros n. rewrite <- V. apply H5.
  - intros n. rewrite <- D. apply H6.
  - congruence.
  - intros b. rewrite <- P. apply H8.
  - intros n. rewrite <- P. apply H9.
  - intros b. rewrite <- Hh. apply H10.
  - intros b n. rewrite <- Hh. apply H11.
  - congruence.
Qed.

(** What the operations leave alone: everything but the cache, the disk and the
    scheduling state of processes they wake. *)
Definition woken (pr pr' : proc) : Prop := pr' = pr \/ p_state pr = SLEEPING /\ pr' = set_p_state RUNNABLE pr.
Definition bio_frame (k k' : kernel) : Prop :=
  exists bufs h d w ps, Forall2 woken (k_procs k) ps /\
    noise (set_k_bufs bufs (set_k_head h (set_k_disk d (set_k_writes w (set_k_procs ps k))))) k'.

Lemma Forall2_woken_refl ps : Forall2 woken ps ps.
Proof. induction ps; constructor; [now left|done]. Qed.

Lemma woken_wake ch ps : Forall2 woken ps (map (wake ch) ps).
Proof.
  induction ps as [|pr ps IH]; constructor; [|done]. unfold wake, woken. destruct (p_state pr); auto; now case_match; auto.
Qed.

Lemma woken_trans a b c : woken a b -> woken b c -> woken a c.
Proof. unfold woken. intros [->|[Ha ->]] [->|[Hb ->]]; auto; done. Qed.

Lemma Forall2_woken_trans l1 l2 l3 : Forall2 woken l1 l2 -> Forall2 woken l2 l3 -> Forall2 woken l1 l3.
Proof. intros H. revert l3. induction H; intros l3 H2; inversion H2; subst; constructor; eauto using woken_trans. Qed.

Lemma noise_frame k k' : noise k k' -> bio_frame k k'.
Proof.
  intros Hn. exists (k_bufs k), (k_head k), (k_disk k), (k_writes k), (k_procs k). split; [apply Forall2_woken_refl|].
  now destruct k.
Qed.

Lemma bio_frame_intro k k1 k' :
  set_k_bufs (k_bufs k1) (set_k_head (k_head k1) (set_k_disk (k_disk k1) (set_k_writes (k_writes k1) (set_k_procs (k_procs k1) k)))) = k1 ->
  Forall2 woken (k_procs k) (k_procs k1) -> noise k1 k' -> bio_frame k k'.
Proof. intros E Hw Hn. eexists _, _, _, _, _. split; [exact Hw|]. rewrite E. exact Hn. Qed.

Lemma bio_frame_refl k : bio_frame k k.
Proof. apply noise_frame, noise_refl. Qed.

Lemma bio_frame_trans k1 k2 k3 : bio_frame k1 k2 -> bio_frame k2 k3 -> bio_frame k1 k3.
Proof.
  intros (b & h & d & w & ps & Hw & Hn) (b' & h' & d' & w' & ps' & Hw' & Hn').
  exists b', h', d', w', ps'. split.
  - rewrite (noise_procs _ _ Hn) in Hw'. exact (Forall2_woken_trans _ _ _ Hw Hw').
  - etrans; [|exact Hn'].
    apply (noise_update (fun k => set_k_bufs b' (set_k_head h' (set_k_disk d' (set_k_writes w' (set_k_procs ps' k)))))) in Hn;
      [|done..]. exact Hn.
Qed.

#[export] Instance bio_frame_preorder : PreOrder bio_frame.
Proof. split; [exact bio_frame_refl|exact bio_frame_trans]. Qed.

(** Reading a component the operations do not touch. *)
Lemma bio_frame_eq {A} (f : kernel -> A) k k' :
  (forall bufs h d w ps k, f (set_k_bufs bufs (set_k_head h (set_k_disk d (set_k_writes w (set_k_procs ps k))))) = f k) ->
  (forall b l k, f (set_k_hart (set_h_intena b (k_hart k)) (set_k_locks l k)) = f k) ->
  bio_frame k k' -> f k' = f k.
Proof. intros H1 H2 (b & h & d & w & ps & _ & Hn). rewrite (noise_eq f _ _ (fun k b l => H2 b l k) Hn). apply H1. Qed.

(** ** Counting unreferenced buffers *)

Definition zeros (f : nat -> Z) (l : list nat) : nat := length (filter (fun c => f c = 0) l).

Lemma zeros_cons f x l : zeros f (x :: l) = ((if (f x =? 0)%Z then 1 else 0) + zeros f l)%nat.
Proof. unfold zeros. rewrite filter_cons. destruct (Z.eqb_spec (f x) 0); case_decide; done. Qed.

Lemma zeros_agree f g l : (forall c, c ∈ l -> g c = f c) -> zeros g l = zeros f l.
Proof.
  induction l as [|x l IH]; intros H; [done|]. rewrite !zeros_cons, (H x) by constructor.
  rewrite IH; [done|]. intros c Hc. apply H. now constructor.
Qed.

Lemma zeros_one_change f g l b :
  NoDup l -> b ∈ l -> (forall c, c ∈ l -> c <> b -> g c = f c) ->
  (zeros g l + (if (f b =? 0)%Z then 1 else 0) = zeros f l + (if (g b =? 0)%Z then 1 else 0))%nat.
Proof.
  induction l as [|x l IH]; intros Hd Hb Hg; [now apply elem_of_nil in Hb|]. apply NoDup_cons in Hd as [Hx Hd].
  rewrite !zeros_cons. destruct (decide (x = b)) as [->|Hxb].
  - rewrite (zeros_agree f g l); [lia|]. intros c Hc. apply Hg; [now constructor|]. intros ->. done.
  - assert (b ∈ l) by (apply elem_of_cons in Hb as [Hb|Hb]; [congruence|done]).
    rewrite (Hg x) by (done || constructor). rewrite <- !Nat.add_assoc, IH; [done|done|done|].
    intros c Hc. apply Hg. now constructor.
Qed.

Lemma free_count_change k k' b :
  (b < NBUF)%nat -> (forall c, c <> b -> (c < NBUF)%nat -> b_refcnt (get_buf c k') = b_refcnt (get_buf c k)) ->
  (free_count k' + (if (b_refcnt (get_buf b k) =? 0)%Z then 1 else 0) =
   free_count k + (if (b_refcnt (get_buf b k') =? 0)%Z then 1 else 0))%nat.
Proof.
  intros Hb Ho. apply (zeros_one_change (fun c => b_refcnt (get_buf c k)) (fun c => b_refcnt (get_buf c k'))).
  - apply NoDup_seq.
  - apply elem_of_seq. lia.
  - intros c Hc Hcb. apply elem_of_seq in Hc. apply Ho; [done|lia].
Qed.

Lemma free_exists k : (0 < free_count k)%nat -> exists b, (b < NBUF)%nat /\ b_refcnt (get_buf b k) = 0.
Proof.
  unfold free_count. destruct (filter _ _) as [|b l] eqn:E; cbn; [lia|]. intros _. exists b.
  assert (H : b ∈ filter (fun b => b_refcnt (get_buf b k) = 0) (seq 0 NBUF)) by (rewrite E; constructor).
  apply list_elem_of_filter in H as [H1 H2]. apply elem_of_seq in H2. split; [lia|done].
Qed.

(** ** Refinement *)

Lemma held_inj p dev s k b c n :
  stored p dev s k -> s_held s !! b = Some n -> s_held s !! c = Some n -> b = c.
Proof.
  intros H Hb Hc. destruct (st_cache _ _ _ _ H) as [L HL].
  destruct (st_held _ _ _ _ H b n Hb) as (B1 & B2 & _), (st_held _ _ _ _ H c n Hc) as (C1 & C2 & _).
  pose proof (st_dev _ _ _ _ H). unfold is_block in *. apply (co_uniq _ _ HL); lia.
Qed.

Lemma read_refcnt p dev n b L s k f :
  stored p dev s k -> cache_ok L k -> bget_choice dev n L k = Some (b, f) ->
  (b < NBUF)%nat /\ b_refcnt (get_buf b k) = s_pins s n /\
  (b_dev (get_buf b k) = dev -> b_blockno (get_buf b k) <> n -> s_pins s (b_blockno (get_buf b k)) = 0).
Proof.
  intros H HL Hch. destruct (choice_cases _ _ _ _ _ _ HL Hch) as [Hb [[Hi _]|(Hno & Hz & _)]]; (split; [done|]).
  - assert (b_dev (get_buf b k) = dev /\ b_blockno (get_buf b k) = n) as [E1 E2] by (unfold is_block in Hi; lia).
    rewrite (st_pins _ _ _ _ H b Hb E1), E2. done.
  - split; [rewrite Hz; symmetry; exact (st_unpinned _ _ _ _ H n Hno)|].
    intros E _. now rewrite <- (st_pins _ _ _ _ H b Hb E).
Qed.

(** Every buffer the caller holds is referenced. *)
Definition held_pinned (s : store) : Prop := forall b n, s_held s !! b = Some n -> 0 < s_pins s n.

Lemma stored_data p dev s k b n :
  stored p dev s k -> s_held s !! b = Some n ->
  b_data (get_buf b k) = s_view s n /\ b_blockno (get_buf b k) = n /\ b_refcnt (get_buf b k) = s_pins s n.
Proof.
  intros H Hb. destruct (st_held _ _ _ _ H b n Hb) as (B1 & B2 & B3 & B4). destruct (st_cache _ _ _ _ H) as [L HL].
  assert (E : b_dev (get_buf b k) = dev /\ b_blockno (get_buf b k) = n) by (unfold is_block in B2; lia). destruct E as [E1 E2].
  split; [|split; [done|]].
  - rewrite <- (st_view _ _ _ _ H). rewrite (view_cached L k dev n b HL (st_dev _ _ _ _ H) B1 B2). unfold contents. now rewrite B3.
  - now rewrite <- E2, <- (st_pins _ _ _ _ H b B1 E1).
Qed.

Lemma stored_bread p dev n b f L s k k' :
  stored p dev s k -> cache_ok L k -> bget_choice dev n L k = Some (b, f) ->
  bread_post p dev n b L k k' -> stored p dev (s_read b n s) k'.
Proof.
  intros H HL Hch Hp. destruct (read_refcnt p dev n b L s k f H HL Hch) as (Hb & Hrb & Hold).
  destruct (bread_post_proc _ _ _ _ _ _ _ Hp (st_proc _ _ _ _ H)) as [Hip Hpid].
  destruct Hp as [P1 P2 P3 P4 P5 P6 P7 P8 (bufs & P9)]. pose proof (st_dev _ _ _ _ H) as Hd.
  assert (Kb : b_dev (get_buf b k') = dev /\ b_blockno (get_buf b k') = n) by (unfold is_block in P2; lia).
  assert (Kc : forall c, c <> b -> (c < NBUF)%nat -> b_dev (get_buf c k) = dev -> b_blockno (get_buf c k) <> n).
  { intros c Hcb Hcn E1 E2. apply Hcb, (co_uniq _ _ P1); rewrite ?(P8 c) by done; lia. }
  pose proof (co_ref _ _ HL b Hb) as Hrange.
  split; cbn [s_read s_view s_disk s_writes s_pins s_held s_free]; [done|done|now exists L|..].
  - intros c Hcn. destruct (decide (c = b)) as [->|]; [left; apply Kb|]. rewrite P8 by done. now apply (st_one _ _ _ _ H).
  - intros m. rewrite P7 by done. apply H.
  - intros m. rewrite (noise_disk _ _ P9). apply H.
  - rewrite <- (st_writes _ _ _ _ H). exact (noise_eq k_writes _ _ ltac:(done) P9).
  - intros c Hcn Hcd. destruct (decide (c = b)) as [->|Hcb].
    + destruct Kb as [_ ->]. rewrite upd_eq, P6, Hrb. done.
    + rewrite P8 in * by done. rewrite upd_ne by now apply Kc. now apply (st_pins _ _ _ _ H).
  - intros m Hno. assert (Hmn : m <> n) by (intros ->; specialize (Hno b Hb); congruence). rewrite upd_ne by done.
    destruct (decide (b_dev (get_buf b k) = dev /\ b_blockno (get_buf b k) = m)) as [[E1 E2]|Hnb].
    + rewrite <- E2. apply Hold; congruence.
    + apply (st_unpinned _ _ _ _ H). intros c Hcn. destruct (decide (c = b)) as [->|Hcb]; [unfold is_block; lia|].
      specialize (Hno c Hcn). unfold is_block in *. now rewrite P8 in Hno.
  - intros c Hcn. destruct (decide (c = b)) as [->|Hcb]; [rewrite lookup_insert_eq; eauto|].
    rewrite P8, lookup_insert_ne by done. now apply (st_locked _ _ _ _ H).
  - intros c m. rewrite Hpid. destruct (decide (c = b)) as [->|Hcb].
    + rewrite lookup_insert_eq. intros [= <-]. done.
    + rewrite lookup_insert_ne by done. unfold is_block, buf_held. rewrite P8 by done. apply (st_held _ _ _ _ H).
  - pose proof (free_count_change k k' b Hb ltac:(intros; now rewrite P8)) as Hc.
    rewrite P6, Hrb, (st_free _ _ _ _ H) in Hc. unfold recount.
    destruct (Z.eqb_spec (s_pins s n) 0), (Z.eqb_spec (s_pins s n + 1) 0); lia.
Qed.

Lemma stored_choice p dev n L s k :
  stored p dev s k -> cache_ok L k -> (0 < s_pins s n \/ (0 < s_free s)%nat) -> (forall b, s_held s !! b <> Some n) ->
  held_pinned s -> exists b f, bget_choice dev n L k = Some (b, f) /\ sl_locked (b_lock (get_buf b k)) = false.
Proof.
  intros H HL Hav Hnh Hpn. destruct (ring_nodup L k (co_ring _ _ HL)) as (_ & _ & Hin).
  assert (Hsome : exists b f, bget_choice dev n L k = Some (b, f)).
  { unfold bget_choice. destruct (find_buf (is_block dev n k) L) eqn:E; [eauto|].
    destruct (find_buf (is_unused k) (rev L)) eqn:E2; [eauto|]. exfalso.
    rewrite find_buf_none in E, E2. destruct Hav as [Hp|Hf].
    - rewrite (st_unpinned _ _ _ _ H n) in Hp; [lia|]. intros b Hb. now apply E, Hin.
    - rewrite <- (st_free _ _ _ _ H) in Hf. apply free_exists in Hf as (b & Hb & Hz).
      specialize (E2 b). unfold is_unused in E2. rewrite Hz in E2. cbn in E2.
      assert (b ∈ rev L) by (apply list_elem_of_In; rewrite <- in_rev; apply list_elem_of_In; now apply Hin).
      now specialize (E2 ltac:(done)). }
  destruct Hsome as (b & f & E). exists b, f. split; [done|]. apply not_true_is_false. intros Hl.
  destruct (choice_cases _ _ _ _ _ _ HL E) as [Hb [[Hi _]|(_ & Hz & _)]].
  - destruct (st_locked _ _ _ _ H b Hb Hl) as [m Hm]. destruct (st_held _ _ _ _ H b m Hm) as (_ & Hi2 & _).
    apply (Hnh b). rewrite Hm. f_equal. unfold is_block in *. lia.
  - destruct (st_locked _ _ _ _ H b Hb Hl) as [m Hm]. destruct (stored_data _ _ _ _ _ _ H Hm) as (_ & _ & Hr).
    specialize (Hpn b m Hm). lia.
Qed.

(** [bread] refines [s_read]. *)
Lemma wp_bread_s p dev n s k Q :
  stored p dev s k -> (0 < s_pins s n \/ (0 < s_free s)%nat) -> (forall b, s_held s !! b <> Some n) ->
  held_pinned s -> s_pins s n + 1 < 2 ^ 32 ->
  (forall b k', s_held s !! b = None -> stored p dev (s_read b n s) k' -> bio_frame k k' -> Q b k') ->
  wp (bread dev n) Q k.
Proof.
  intros H Hav Hnh Hhp Hpin HQ. destruct (st_cache _ _ _ _ H) as [L HL].
  destruct (stored_choice p dev n L s k H HL Hav Hnh Hhp) as (b & f & E & Hl).
  destruct (read_refcnt p dev n b L s k f H HL E) as (Hb & Hrb & _).
  apply (wp_bread_ok p L dev n b f); [apply H|done|apply H|done|done|now rewrite Hrb|]. intros k' Hp _.
  apply HQ.
  - destruct (s_held s !! b) as [m|] eqn:Em; [|done]. destruct (st_held _ _ _ _ H b m Em) as (_ & _ & _ & Hh).
    unfold buf_held in Hh. now rewrite Hl in Hh.
  - now apply (stored_bread p dev n b f L s k).
  - destruct Hp as [_ _ _ _ _ _ _ _ (bufs & Hn)]. exists bufs, (k_head k), (k_disk k), (k_writes k), (k_procs k).
    split; [apply Forall2_woken_refl|]. now destruct k.
Qed.

Lemma view_keep k k' dev m :
  k_disk k' m = k_disk k m -> (forall c, (c < NBUF)%nat -> is_block dev m k' c = is_block dev m k c) ->
  (forall c, (c < NBUF)%nat -> is_block dev m k c = true -> contents c k' = contents c k) ->
  view dev m k' = view dev m k.
Proof.
  intros Hd Hi Hc. unfold view.
  assert (E : forall l, (forall b, b ∈ l -> (b < NBUF)%nat) -> find_buf (is_block dev m k') l = find_buf (is_block dev m k) l).
  { induction l as [|x l IH]; intros Hl; [done|]. rewrite !find_buf_cons, (Hi x (Hl x ltac:(constructor))).
    rewrite IH; [done|]. intros b Hb. apply Hl. now constructor. }
  rewrite E by (intros b Hb; apply elem_of_seq in Hb; lia).
  destruct (find_buf _ _) as [b|] eqn:Ef; [|now rewrite Hd].
  apply find_buf_some in Ef as [Ef1 Ef2]. apply elem_of_seq in Ef1. apply Hc; [lia|done].
Qed.

(** The part of [stored] an update of one locked buffer keeps, when neither its key
    nor its lock change. *)
Lemma stored_change p dev s s' k k' b n L :
  stored p dev s k -> s_held s !! b = Some n -> cache_ok L k' -> in_proc p k' -> get_proc p k' = get_proc p k ->
  (forall c, c <> b -> (c < NBUF)%nat -> get_buf c k' = get_buf c k) ->
  is_block dev n k' b = true -> b_valid (get_buf b k') = true -> b_lock (get_buf b k') = b_lock (get_buf b k) ->
  s_held s' = s_held s -> (forall m, m <> n -> s_pins s' m = s_pins s m) -> s_pins s' n = b_refcnt (get_buf b k') ->
  (forall m, view dev m k' = s_view s' m) -> (forall m, k_disk k' m = s_disk s' m) -> k_writes k' = s_writes s' ->
  s_free s' = recount (s_pins s n) (s_pins s' n) (s_free s) ->
  stored p dev s' k'.
Proof.
  intros H Hb HL Hip Hpid Ho Hi Hv Hlk Hheld Hpm Hpn Hview Hdisk Hw Hfree.
  destruct (st_held _ _ _ _ H b n Hb) as (B1 & B2 & B3 & B4). pose proof (st_dev _ _ _ _ H) as Hd.
  destruct (stored_data _ _ _ _ _ _ H Hb) as (_ & E2 & Hp0).
  assert (E1 : b_dev (get_buf b k) = dev) by (unfold is_block in B2; lia).
  assert (Kb : b_dev (get_buf b k') = dev /\ b_blockno (get_buf b k') = n) by (unfold is_block in Hi; lia).
  split; [done|done|now exists L| |done|done|done|..].
  - intros c Hcn. destruct (decide (c = b)) as [->|]; [left; apply Kb|]. rewrite Ho by done. now apply (st_one _ _ _ _ H).
  - intros c Hcn Hcd. destruct (decide (c = b)) as [->|Hcb]; [destruct Kb as [_ ->]; now symmetry|].
    assert (b_blockno (get_buf c k') <> n) by (intros E; apply Hcb, (co_uniq _ _ HL); lia).
    rewrite Hpm by done. rewrite Ho in * by done. now apply (st_pins _ _ _ _ H).
  - intros m Hno. assert (m <> n) by (intros ->; specialize (Hno b B1); congruence). rewrite Hpm by done.
    apply (st_unpinned _ _ _ _ H). intros c Hcn. specialize (Hno c Hcn). unfold is_block in *.
    destruct (decide (c = b)) as [->|]; [lia|]. now rewrite Ho in Hno.
  - intros c Hcn. rewrite Hheld. destruct (decide (c = b)) as [->|]; [rewrite Hb; eauto|]. rewrite Ho by done. now apply (st_locked _ _ _ _ H).
  - intros c m. rewrite Hheld, Hpid. destruct (decide (c = b)) as [->|Hcb].
    + rewrite Hb. intros [= <-]. unfold buf_held. rewrite Hlk. done.
    + intros Hc. destruct (st_held _ _ _ _ H c m Hc) as (C1 & C2 & C3 & C4). unfold is_block, buf_held in *. rewrite Ho by done. done.
  - pose proof (free_count_change k k' b B1 ltac:(intros; now rewrite Ho)) as Hc.
    rewrite Hfree, <- (st_free _ _ _ _ H), <- Hp0, Hpn. unfold recount.
    destruct (Z.eqb_spec (b_refcnt (get_buf b k)) 0), (Z.eqb_spec (b_refcnt (get_buf b k')) 0); lia.
Qed.

(** Updates of a locked buffer that keep key, lock and validity. *)
Lemma locked_upd p dev s k b n f :
  stored p dev s k -> s_held s !! b = Some n ->
  (forall x, b_next (f x) = b_next x /\ b_prev (f x) = b_prev x /\ b_dev (f x) = b_dev x /\ b_blockno (f x) = b_blockno x /\
             b_valid (f x) = b_valid x /\ b_lock (f x) = b_lock x) ->
  0 <= b_refcnt (f (get_buf b k)) < 2 ^ 32 -> (b_refcnt (f (get_buf b k)) = 0 -> b_data (f (get_buf b k)) = s_disk s n) ->
  get_buf b (upd_buf b f k) = f (get_buf b k) /\ (exists L, cache_ok L (upd_buf b f k)) /\
  forall m, view dev m (upd_buf b f k) = if decide (m = n) then b_data (f (get_buf b k)) else s_view s m.
Proof.
  intros H Hb Hf Hr Hcl. destruct (st_cache _ _ _ _ H) as [L HL]. destruct (st_held _ _ _ _ H b n Hb) as (B1 & B2 & B3 & _).
  destruct (Hf (get_buf b k)) as (_ & _ & F3 & F4 & F5 & F6). pose proof (st_dev _ _ _ _ H) as Hd.
  assert (Eg : get_buf b (upd_buf b f k) = f (get_buf b k)) by (apply get_buf_upd; now rewrite (ring_len _ _ (co_ring _ _ HL))).
  assert (Eo : forall c, c <> b -> get_buf c (upd_buf b f k) = get_buf c k) by (intros; now apply get_buf_upd_ne).
  assert (C : cache_ok L (upd_buf b f k)).
  { apply (cache_ok_upd L L b k); [done| |done|intros; now apply Eo|..]; rewrite ?Eg.
    - apply ring_upd_buf, HL. intros x. destruct (Hf x) as (? & ? & _). done.
    - rewrite F3, F4. intros c Hcb Hcn Hne. apply not_true_is_false. intros Hi. unfold is_block in Hi. apply Hcb, (co_uniq _ _ HL); lia.
    - lia.
    - intros Hz. unfold contents. rewrite Eg, F5, B3, F4, (Hcl Hz), (st_disk _ _ _ _ H). f_equal. unfold is_block in B2. lia. }
  split; [done|]. split; [now exists L|]. intros m. case_decide as Hm.
  - subst m. rewrite (view_cached L (upd_buf b f k) dev n b C Hd B1); [unfold contents; now rewrite Eg, F5, B3|].
    unfold is_block in *. rewrite Eg, F3, F4. done.
  - rewrite <- (st_view _ _ _ _ H). apply view_keep; [done| |].
    + intros c Hc. unfold is_block. destruct (decide (c = b)) as [->|]; [now rewrite Eg, F3, F4|now rewrite Eo].
    + intros c Hc Hi. assert (c <> b) by (intros ->; unfold is_block in *; lia). unfold contents. now rewrite Eo.
Qed.

Lemma stored_set p dev s k b n d :
  stored p dev s k -> s_held s !! b = Some n -> 0 < s_pins s n -> stored p dev (s_set n d s) (upd_buf b (set_b_data d) k).
Proof.
  intros H Hb Hp. destruct (st_held _ _ _ _ H b n Hb) as (B1 & B2 & B3 & B4). destruct (st_cache _ _ _ _ H) as [L0 HL0].
  destruct (stored_data _ _ _ _ _ _ H Hb) as (_ & E2 & Hr). pose proof (co_ref _ _ HL0 b B1) as Href.
  destruct (locked_upd p dev s k b n (set_b_data d) H Hb) as (Eg & [L HL] & Ev); [done|cbn; lia|cbn; lia|].
  eapply (stored_change p dev s _ k _ b n L); try done; cbn [s_set s_view s_disk s_writes s_pins s_held s_free]; rewrite ?Eg; cbn; try done.
  - exact (in_proc_same p k (upd_buf b (set_b_data d) k) eq_refl eq_refl eq_refl (st_proc _ _ _ _ H)).
  - intros c Hcb _. now apply get_buf_upd_ne.
  - unfold is_block in *. rewrite Eg. done.
  - apply H.
  - apply H.
  - unfold recount. now destruct (_ =? 0).
Qed.

Lemma stored_repin p dev s k b n i :
  stored p dev s k -> s_held s !! b = Some n -> 0 <= s_pins s n + i < 2 ^ 32 -> (s_pins s n + i = 0 -> s_view s n = s_disk s n) ->
  stored p dev (s_repin n i s) (upd_buf b (buf_ref i) k).
Proof.
  intros H Hb Hi Hcl. destruct (st_held _ _ _ _ H b n Hb) as (B1 & B2 & B3 & B4).
  destruct (stored_data _ _ _ _ _ _ H Hb) as (Ed & E2 & Hr).
  assert (Er : b_refcnt (buf_ref i (get_buf b k)) = s_pins s n + i) by (cbn; rewrite Hr; unfold u32; apply Z.mod_small; lia).
  destruct (locked_upd p dev s k b n (buf_ref i) H Hb) as (Eg & [L HL] & Ev); [done|lia|rewrite Er; cbn; now rewrite Ed|].
  eapply (stored_change p dev s _ k _ b n L); try done; cbn [s_repin s_view s_disk s_writes s_pins s_held s_free]; rewrite ?Eg, ?Er; try done.
  - exact (in_proc_same p k (upd_buf b (buf_ref i) k) eq_refl eq_refl eq_refl (st_proc _ _ _ _ H)).
  - intros c Hcb _. now apply get_buf_upd_ne.
  - unfold is_block in *. rewrite Eg. done.
  - intros m Hm. now rewrite upd_ne.
  - now rewrite upd_eq.
  - intros m. rewrite Ev. case_decide as Hm; [subst m; exact Ed|done].
  - apply H.
  - apply H.
  - now rewrite upd_eq.
Qed.

(** Changes elsewhere in the kernel. *)
Lemma view_same k k' dev m : k_bufs k' = k_bufs k -> k_disk k' = k_disk k -> view dev m k' = view dev m k.
Proof.
  intros Hb Hd. apply view_ext; [done|]. intros c _. unfold contents, get_buf. now rewrite Hb, Hd.
Qed.

Lemma stored_ext p dev s k k' :
  k_bufs k' = k_bufs k -> k_head k' = k_head k -> k_disk k' = k_disk k -> k_writes k' = k_writes k ->
  in_proc p k' -> p_pid (get_proc p k') = p_pid (get_proc p k) -> stored p dev s k -> stored p dev s k'.
Proof.
  intros Eb Eh Ed Ew Hip Ep H.
  assert (Eg : forall c, get_buf c k' = get_buf c k) by (intros c; unfold get_buf; now rewrite Eb).
  split; [done|apply H|..].
  - destruct (st_cache _ _ _ _ H) as [L HL]. exists L.
    apply (cache_ok_same L L k); [done|exact (ring_ext L k k' Eb Eh (co_ring _ _ HL))|done|].
    intros c _. rewrite Eg. apply same_data_refl.
  - intros b. rewrite Eg. apply H.
  - intros n. rewrite (view_same k k' dev n Eb Ed). apply H.
  - rewrite Ed. apply H.
  - rewrite Ew. apply H.
  - intros b. rewrite Eg. apply H.
  - intros n Hn. apply (st_unpinned _ _ _ _ H). intros b Hb. specialize (Hn b Hb). unfold is_block in *. now rewrite Eg in Hn.
  - intros b. rewrite Eg. apply H.
  - intros b n. unfold is_block, buf_held. rewrite Eg, Ep. apply H.
  - rewrite <- (st_free _ _ _ _ H). unfold free_count, get_buf. now rewrite Eb.
Qed.

Lemma stored_noise p dev s k k' : noise k k' -> stored p dev s k -> stored p dev s k'.
Proof.
  intros Hn H. apply (stored_ext p dev s k); [..|done].
  - exact (noise_bufs _ _ Hn).
  - exact (noise_eq k_head _ _ ltac:(done) Hn).
  - exact (noise_disk _ _ Hn).
  - exact (noise_eq k_writes _ _ ltac:(done) Hn).
  - exact (in_proc_noise _ _ _ Hn (st_proc _ _ _ _ H)).
  - now rewrite (noise_proc _ _ _ Hn).
Qed.

Lemma stored_write p dev s k b n :
  stored p dev s k -> s_held s !! b = Some n -> stored p dev (s_write n s) (disk_put n (s_view s n) k).
Proof.
  intros H Hb. destruct (st_held _ _ _ _ H b n Hb) as (B1 & B2 & B3 & B4). destruct (st_cache _ _ _ _ H) as [L HL].
  destruct (stored_data _ _ _ _ _ _ H Hb) as (Ed & E2 & Hr).
  assert (E1 : b_dev (get_buf b k) = dev) by (unfold is_block in B2; lia).
  set (k' := disk_put n (s_view s n) k).
  assert (Eg : forall c, get_buf c k' = get_buf c k) by done.
  assert (Edn : k_disk k' n = s_view s n) by (cbn; now rewrite decide_True).
  assert (Edm : forall m, m <> n -> k_disk k' m = k_disk k m) by (intros; cbn; now rewrite decide_False).
  assert (C : cache_ok L k').
  { destruct HL as [C1 C2 C3 C5]. split; [exact (ring_ext L k k' eq_refl eq_refl C1)|done|done|].
    intros c Hc Hz. destruct (decide (b_blockno (get_buf c k) = n)) as [E|E].
    - destruct (st_one _ _ _ _ H c Hc) as [Hdc|[_ Hv]]; [|unfold contents; rewrite Eg, Hv; done].
      assert (c = b) as -> by (apply C2; rewrite ?E1, ?E2; done || (rewrite Hdc; apply H)). unfold contents. now rewrite !Eg, B3, Ed, E2, Edn.
    - specialize (C5 c Hc Hz). unfold contents in *. rewrite Eg in *. now rewrite Edm. }
  eapply (stored_change p dev s _ k k' b n L); try done; cbn [s_write s_view s_disk s_writes s_pins s_held s_free]; rewrite ?Eg; try done.
  - exact (in_proc_same p k k' eq_refl eq_refl eq_refl (st_proc _ _ _ _ H)).
  - intros m. rewrite <- (st_view _ _ _ _ H). destruct (decide (m = n)) as [->|Hm].
    + rewrite (view_cached L k dev n b HL (st_dev _ _ _ _ H) B1 B2).
      rewrite (view_cached L k' dev n b C (st_dev _ _ _ _ H) B1 B2). unfold contents. rewrite Eg, B3. done.
    + apply view_keep; [now apply Edm|intros; exact eq_refl|]. intros c Hc Hi. unfold contents. rewrite Eg. unfold is_block in Hi.
      destruct (b_valid (get_buf c k)); [exact eq_refl|]. apply Edm. lia.
  - intros m. unfold upd. case_decide; [now subst|]. rewrite Edm by done. apply H.
  - cbn. now rewrite (st_writes _ _ _ _ H).
  - unfold recount. now destruct (_ =? 0).
Qed.

(** [bwrite], [bpin] and [bunpin] refine [s_write] and [s_repin]. *)
Lemma wp_bwrite_s p dev s k b n Q :
  stored p dev s k -> s_held s !! b = Some n ->
  (forall k', stored p dev (s_write n s) k' -> bio_frame k k' -> Q tt k') -> wp (bwrite b) Q k.
Proof.
  intros H Hb HQ. destruct (st_held _ _ _ _ H b n Hb) as (_ & _ & _ & B4). destruct (stored_data _ _ _ _ _ _ H Hb) as (Ed & E2 & _).
  apply (wp_bwrite p); [apply H|done|]. rewrite Ed, E2. intros k' Hn. apply HQ.
  - apply (stored_noise _ _ _ _ _ Hn). now apply (stored_write p dev s k b).
  - apply (bio_frame_intro k (disk_put n (s_view s n) k)); [now destruct k|apply Forall2_woken_refl|exact Hn].
Qed.

Lemma wp_repin_s p dev s k b n i (m : K unit) Q :
  (forall Q, in_proc p k -> (forall k', noise (upd_buf b (buf_ref i) k) k' -> Q tt k') -> wp m Q k) ->
  stored p dev s k -> s_held s !! b = Some n -> 0 <= s_pins s n + i < 2 ^ 32 -> (s_pins s n + i = 0 -> s_view s n = s_disk s n) ->
  (forall k', stored p dev (s_repin n i s) k' -> bio_frame k k' -> Q tt k') -> wp m Q k.
Proof.
  intros Hm H Hb Hi Hcl HQ. apply Hm; [apply H|]. intros k' Hn. apply HQ.
  - apply (stored_noise _ _ _ _ _ Hn). now apply stored_repin.
  - apply (bio_frame_intro k (upd_buf b (buf_ref i) k)); [now destruct k|apply Forall2_woken_refl|exact Hn].
Qed.

Lemma st_pin_range p dev s k b n : stored p dev s k -> s_held s !! b = Some n -> 0 <= s_pins s n < 2 ^ 32.
Proof.
  intros H Hb. destruct (stored_data _ _ _ _ _ _ H Hb) as (_ & _ & <-). destruct (st_cache _ _ _ _ H) as [L HL].
  apply (co_ref _ _ HL). apply (st_held _ _ _ _ H b n Hb).
Qed.

Lemma wp_bpin_s p dev s k b n Q :
  stored p dev s k -> s_held s !! b = Some n -> s_pins s n + 1 < 2 ^ 32 ->
  (forall k', stored p dev (s_repin n 1 s) k' -> bio_frame k k' -> Q tt k') -> wp (bpin b) Q k.
Proof.
  intros H Hb Hi. pose proof (st_pin_range _ _ _ _ _ _ H Hb).
  apply (wp_repin_s p dev s k b n 1); [apply wp_bpin|done|done|lia|lia].
Qed.

Lemma wp_bunpin_s p dev s k b n Q :
  stored p dev s k -> s_held s !! b = Some n -> 0 < s_pins s n -> (s_pins s n = 1 -> s_view s n = s_disk s n) ->
  (forall k', stored p dev (s_repin n (-1) s) k' -> bio_frame k k' -> Q tt k') -> wp (bunpin b) Q k.
Proof.
  intros H Hb Hi Hcl. pose proof (st_pin_range _ _ _ _ _ _ H Hb).
  apply (wp_repin_s p dev s k b n (-1)); [apply wp_bunpin|done|done|lia|]. intros Hz. apply Hcl. lia.
Qed.

Lemma stored_brelse p dev s k k' b n L :
  stored p dev s k -> s_held s !! b = Some n -> cache_ok L k -> brelse_post b L k k' ->
  stored p dev (s_release b n s) k'.
Proof.
  intros H Hb HL Hp. destruct (st_held _ _ _ _ H b n Hb) as (B1 & B2 & B3 & B4).
  destruct (stored_data _ _ _ _ _ _ H Hb) as (Ed & E2 & Hr). pose proof (brelse_post_proc p b L k k' Hp (st_proc _ _ _ _ H)) as Hip.
  assert (E1 : b_dev (get_buf b k) = dev) by (unfold is_block in B2; lia).
  destruct Hp as [P1 P2 P3 P4 (bufs & h & P5)].
  apply same_data_fields in P2 as (G1 & G2 & G3 & G4 & G5 & _). cbn in G1, G2, G3, G4, G5.
  assert (G3' : b_refcnt (get_buf b k') = u32 (s_pins s n - 1)) by now rewrite G3, Hr.
  assert (F : forall c, c <> b -> (c < NBUF)%nat -> b_dev (get_buf c k') = b_dev (get_buf c k) /\
     b_blockno (get_buf c k') = b_blockno (get_buf c k) /\ b_refcnt (get_buf c k') = b_refcnt (get_buf c k) /\
     b_lock (get_buf c k') = b_lock (get_buf c k) /\ b_valid (get_buf c k') = b_valid (get_buf c k)).
  { intros c Hcb Hcn. destruct (same_data_fields _ _ (P3 c Hcb Hcn)) as (? & ? & ? & ? & ? & _). done. }
  assert (Hi : forall m c, (c < NBUF)%nat -> is_block dev m k' c = is_block dev m k c).
  { intros m c Hcn. unfold is_block. destruct (decide (c = b)) as [->|Hcb]; [now rewrite G1, G2|].
    destruct (F c Hcb Hcn) as (-> & -> & _). done. }
  assert (Hpid : p_pid (get_proc p k') = p_pid (get_proc p k)).
  { rewrite (noise_proc _ _ _ P5). unfold get_proc. cbn. rewrite !list_lookup_total_alt, list_lookup_fmap.
    destruct (k_procs k !! p) as [pr|]; [|done]. cbn. unfold wake. now destruct (_ && _). }
  split; cbn [s_release s_view s_disk s_writes s_pins s_held s_free]; [done|apply H|eauto|..].
  - intros c Hcn. destruct (decide (c = b)) as [->|Hcb]; [left; congruence|].
    destruct (F c Hcb Hcn) as (-> & _ & -> & _ & ->). now apply (st_one _ _ _ _ H).
  - intros m. rewrite P4 by apply H. apply H.
  - intros m. rewrite (noise_disk _ _ P5). apply H.
  - rewrite <- (st_writes _ _ _ _ H). exact (noise_eq k_writes _ _ ltac:(done) P5).
  - intros c Hcn Hcd. destruct (decide (c = b)) as [->|Hcb]; [rewrite G2, E2, upd_eq; done|].
    destruct (F c Hcb Hcn) as (F1 & F2 & F3 & _). rewrite F1 in Hcd. rewrite F2, F3.
    rewrite upd_ne by (intros E; apply Hcb, (co_uniq _ _ HL); try done; [rewrite Hcd; apply H|congruence|congruence]).
    now apply (st_pins _ _ _ _ H).
  - intros m Hno. assert (m <> n) by (intros ->; specialize (Hno b B1); rewrite Hi in Hno by done; congruence).
    rewrite upd_ne by done. apply (st_unpinned _ _ _ _ H). intros c Hcn. rewrite <- Hi by done. auto.
  - intros c Hcn. destruct (decide (c = b)) as [->|Hcb]; [now rewrite G4|]. destruct (F c Hcb Hcn) as (_ & _ & _ & -> & _).
    rewrite lookup_delete_ne by done. now apply (st_locked _ _ _ _ H).
  - intros c m. destruct (decide (c = b)) as [->|Hcb]; [now rewrite lookup_delete_eq|]. rewrite lookup_delete_ne by done.
    intros Hc. destruct (st_held _ _ _ _ H c m Hc) as (C1 & C2 & C3 & C4). destruct (F c Hcb C1) as (_ & _ & _ & F4 & F5).
    rewrite Hi by done. unfold buf_held in *. rewrite F4, F5, Hpid. done.
  - pose proof (free_count_change k k' b B1 ltac:(intros; now apply F)) as Hc. rewrite G3', Hr, (st_free _ _ _ _ H) in Hc.
    unfold recount. destruct (Z.eqb_spec (s_pins s n) 0), (Z.eqb_spec (u32 (s_pins s n - 1)) 0); lia.
Qed.

(** [brelse] refines [s_release]. *)
Lemma wp_brelse_s p dev s k b n Q :
  stored p dev s k -> s_held s !! b = Some n -> (s_pins s n = 1 -> s_view s n = s_disk s n) ->
  (forall k', stored p dev (s_release b n s) k' -> bio_frame k k' -> Q tt k') -> wp (brelse b) Q k.
Proof.
  intros H Hb Hcl HQ. destruct (st_held _ _ _ _ H b n Hb) as (B1 & B2 & B3 & B4). destruct (st_cache _ _ _ _ H) as [L HL].
  destruct (stored_data _ _ _ _ _ _ H Hb) as (Ed & E2 & _).
  assert (E1 : b_dev (get_buf b k) = dev) by (unfold is_block in B2; lia).
  apply (wp_brelse_ok p L); [apply H|done|done|done| |].
  - rewrite (st_pins _ _ _ _ H b B1 E1), E2. intros Hr. unfold contents. rewrite B3, Ed, (Hcl Hr). symmetry. apply H.
  - intros k' Hp. apply HQ; [now apply (stored_brelse p dev s k k' b n L)|]. destruct Hp as [_ _ _ _ (bufs & h & Hn)].
    refine (bio_frame_intro k _ k' _ _ Hn); [now destruct k|apply woken_wake].
Qed.

(** ** The simulation *)

Inductive op :=
| Read (n : Z) | Fill (b : nat) (d : list Z) | Flush (b : nat) | Release (b : nat) | Pin (b : nat) | Unpin (b : nat).

(** What a client runs: a call of bio.c, or a store into [b->data]. *)
Definition run_op (dev : Z) (o : op) : K (option nat) :=
  match o with
  | Read n => let* b := bread dev n in ret (Some b)
  | Fill b d => modify (upd_buf b (set_b_data d)) ;;; ret None
  | Flush b => bwrite b ;;; ret None
  | Release b => brelse b ;;; ret None
  | Pin b => bpin b ;;; ret None
  | Unpin b => bunpin b ;;; ret None
  end.

(** When the store allows the call. *)
Definition enabled (s : store) (o : op) : Prop :=
  match o with
  | Read n => (0 < s_pins s n \/ (0 < s_free s)%nat) /\ (forall b, s_held s !! b <> Some n) /\
      held_pinned s /\ s_pins s n + 1 < 2 ^ 32
  | Fill b _ => exists n, s_held s !! b = Some n /\ 0 < s_pins s n
  | Flush b => is_Some (s_held s !! b)
  | Release b => exists n, s_held s !! b = Some n /\ (s_pins s n = 1 -> s_view s n = s_disk s n)
  | Pin b => exists n, s_held s !! b = Some n /\ s_pins s n + 1 < 2 ^ 32
  | Unpin b => exists n, s_held s !! b = Some n /\ 0 < s_pins s n /\ (s_pins s n = 1 -> s_view s n = s_disk s n)
  end.

(** What the store does; a read may return any buffer the caller does not hold. *)
Inductive s_step : op -> store -> option nat -> store -> Prop :=
| step_read n b s : s_held s !! b = None -> s_step (Read n) s (Some b) (s_read b n s)
| step_fill b n d s : s_held s !! b = Some n -> s_step (Fill b d) s None (s_set n d s)
| step_flush b n s : s_held s !! b = Some n -> s_step (Flush b) s None (s_write n s)
| step_release b n s : s_held s !! b = Some n -> s_step (Release b) s None (s_release b n s)
| step_pin b n s : s_held s !! b = Some n -> s_step (Pin b) s None (s_repin n 1 s)
| step_unpin b n s : s_held s !! b = Some n -> s_step (Unpin b) s None (s_repin n (-1) s).

(** C5: the buffer cache implements the block store.  Every call the store allows
    returns (no panic, no wait), and the kernel state then represents the store
    after the corresponding step: reads return the current contents, wherever the
    cache put them; writes reach the disk in program order; eviction is invisible;
    nothing else of the kernel changes but sleepers being woken. *)
Theorem cache_refines_store p dev s k o :
  stored p dev s k -> enabled s o ->
  wp (run_op dev o) (fun r k' => exists s', s_step o s r s' /\ stored p dev s' k' /\ bio_frame k k' /\
    forall b n, s_held s' !! b = Some n -> b_data (get_buf b k') = s_view s' n) k.
Proof.
  intros H He.
  assert (fin : forall r s' k', s_step o s r s' -> stored p dev s' k' -> bio_frame k k' ->
    exists s', s_step o s r s' /\ stored p dev s' k' /\ bio_frame k k' /\
      forall b n, s_held s' !! b = Some n -> b_data (get_buf b k') = s_view s' n).
  { intros r s' k' H1 H2 H3. exists s'. split; [done|]. split; [done|]. split; [done|]. intros b n Hb.
    apply (stored_data p dev s' k' b n H2 Hb). }
  destruct o as [n|b d|b|b|b|b]; cbn [run_op enabled] in *; apply wp_bind.
  - destruct He as (H1 & H2 & H3 & H4). apply (wp_bread_s p dev n s); [done..|]. intros b k' Hn Hs Hf. apply wp_ret. eauto using s_step.
  - destruct He as (n & Hb & Hpos). apply wp_modify, wp_ret. apply (fin _ (s_set n d s)); [eauto using s_step|now apply stored_set|].
    apply (bio_frame_intro k (upd_buf b (set_b_data d) k)); [now destruct k|apply Forall2_woken_refl|apply noise_refl].
  - destruct He as [n Hb]. apply (wp_bwrite_s p dev s k b n); [done..|]. intros k' Hs Hf. apply wp_ret. eauto using s_step.
  - destruct He as (n & Hb & Hcl). apply (wp_brelse_s p dev s k b n); [done..|]. intros k' Hs Hf. apply wp_ret. eauto using s_step.
  - destruct He as (n & Hb & Hi). apply (wp_bpin_s p dev s k b n); [done..|]. intros k' Hs Hf. apply wp_ret. eauto using s_step.
  - destruct He as (n & Hb & Hi & Hcl). apply (wp_bunpin_s p dev s k b n); [done..|]. intros k' Hs Hf. apply wp_ret. eauto using s_step.
Qed.

(** A store for a cache that is empty: nothing cached, nothing held. *)
Definition fresh_store (disk : Z -> list Z) : store := mk_store disk disk [] (fun _ => 0) ∅ NBUF.

Lemma stored_fresh L p dev k :
  in_proc p k -> dev <> 0 -> cache_ok L k -> k_writes k = [] ->
  (forall b, (b < NBUF)%nat -> buf_zero (get_buf b k)) -> stored p dev (fresh_store (k_disk k)) k.
Proof.
  intros Hp Hd HL Hw Hz.
  assert (Hno : forall n b, (b < NBUF)%nat -> is_block dev n k b = false).
  { intros n b Hb. destruct (Hz b Hb) as (E & _). unfold is_block. rewrite E. lia. }
  split; [done|done|eauto|..]; cbn [fresh_store s_view s_disk s_writes s_pins s_held s_free].
  - intros b Hb. right. destruct (Hz b Hb) as (_ & ? & ? & _). done.
  - intros n. apply view_uncached, Hno.
  - done.
  - done.
  - intros b Hb E. destruct (Hz b Hb) as (E0 & _). congruence.
  - done.
  - intros b Hb. destruct (Hz b Hb) as (_ & _ & _ & ->). done.
  - intros b n. rewrite lookup_empty. done.
  - transitivity (zeros (fun _ => 0) (seq 0 NBUF)); [|reflexivity]. apply (zeros_agree (fun _ => 0) (fun b => b_refcnt (get_buf b k))).
    intros c Hc. apply elem_of_seq in Hc. destruct (Hz c) as (_ & -> & _); [lia|done].
Qed.

Lemma cache_state_stored : stored 3 1 (fresh_store (k_disk cache_state)) cache_state.
Proof.
  destruct cache_state_ok as [Hc Hp]. apply (stored_fresh (rev (seq 0 NBUF))); [done|lia|done|vm_compute; reflexivity|].
  destruct (wp_final _ _ _ (wp_binit running_state eq_refl zero_bufs)) as (u & _ & _ & _ & _ & H).
  intros b Hb. now destruct (H b Hb).
Qed.

Lemma fresh_enabled disk n : enabled (fresh_store disk) (Read n).
Proof.
  unfold enabled, held_pinned. cbn [s_pins s_free s_held fresh_store]. unfold NBUF. split; [lia|].
  split; [|split; [|lia]]; intros b; [|intros m]; now rewrite lookup_empty.
Qed.

Example cache_refines_store_witness :
  wp (run_op 1 (Read 5)) (fun r k' => exists s', s_step (Read 5) (fresh_store (k_disk cache_state)) r s' /\
    stored 3 1 s' k' /\ bio_frame cache_state k' /\
    forall b n, s_held s' !! b = Some n -> b_data (get_buf b k') = s_view s' n) cache_state.
Proof.
  apply (cache_refines_store 3 1 (fresh_store (k_disk cache_state)) cache_state (Read 5) cache_state_stored).
  apply fresh_enabled.
Defined.
