(* ===== verification/Log.v ===== *)
(** * The log (kernel/log.c)

    First the code, on top of the buffer cache; then the sequence of disk writes
    it makes, with a crash possible between any two of them. *)

From stdpp Require Import base numbers list gmap strings.
From S2P Require Import Prelude Kstate Kstring Spinlock Kalloc Vm Sched Sleeplock Bio Blocks.

(** [struct logheader]: [n] at offset 0, [block[i]] at offset [4 + 4 * i]. *)
Definition sizeof_logheader : Z := 4 + 4 * LOGSIZE.
Definition lh_off (i : nat) : nat := 4 + 4 * i.

(** [log.lh.block[i]] *)
Definition lh_block (i : nat) (k : kernel) : Z := l_block (k_log k) !!! i.
Definition set_lh_block (i : nat) (v : Z) : K unit :=
  let* l := gets k_log in
  if decide (i < length (l_block l))%nat
  then modify (upd_log (set_l_block (<[i := v]> (l_block l))))
  else undefined.

(** [for (i = 0; i < log.lh.n; i++)], [n] read before the loop: the body does
    not change it. *)
Definition log_indices : K (list nat) := gets (fun k => seq 0 (Z.to_nat (l_n (k_log k)))).

(** The body of the loop of [install_trans]. *)
Definition install_round (tail : nat) : K unit :=
  let* l := gets k_log in
  let* lbuf := bread (l_dev l) (u32 (l_start l + Z.of_nat tail + 1)) in
  let* dst := gets (lh_block tail) in
  let* dbuf := bread (l_dev l) (u32 dst) in
  modify (fun k => upd_buf dbuf (set_b_data (b_data (get_buf lbuf k))) k) ;;;
  bwrite dbuf ;;;
  bunpin dbuf ;;;
  brelse lbuf ;;;
  brelse dbuf.

Definition install_trans : K unit :=
  let* idx := log_indices in
  for_each idx install_round.

Definition read_head : K unit :=
  let* l := gets k_log in
  let* buf := bread (l_dev l) (u32 (l_start l)) in
  let* d := gets (fun k => b_data (get_buf buf k)) in
  modify (upd_log (set_l_n (i32 (get32 d 0)))) ;;;
  let* idx := log_indices in
  for_each idx (fun i => set_lh_block i (i32 (get32 d (lh_off i)))) ;;;
  brelse buf.

Definition write_head : K unit :=
  let* l := gets k_log in
  let* buf := bread (l_dev l) (u32 (l_start l)) in
  modify (upd_buf buf (fun b => set_b_data (put32 (b_data b) 0 (l_n l)) b)) ;;;
  let* idx := log_indices in
  for_each idx (fun i =>
    let* v := gets (lh_block i) in
    modify (upd_buf buf (fun b => set_b_data (put32 (b_data b) (lh_off i) v) b))) ;;;
  bwrite buf ;;;
  brelse buf.

Definition recover_from_log : K unit :=
  read_head ;;;
  install_trans ;;;
  modify (upd_log (set_l_n 0)) ;;;
  write_head.

Definition initlog (dev : Z) (sb : superblock) : K unit :=
  if BSIZE <=? sizeof_logheader then panic "initlog: too big logheader" else
  initlock LK_log "log" ;;;
  modify (upd_log (set_l_start (i32 (sb_logstart sb)))) ;;;
  modify (upd_log (set_l_size (i32 (sb_nlog sb)))) ;;;
  modify (upd_log (set_l_dev dev)) ;;;
  recover_from_log.

(** One turn of the [while(1)] of [begin_op], with [log.lock] held. *)
Definition begin_op_loop : K unit :=
  let* l := gets k_log in
  if l_committing l then sleep CH_log LK_log
  else if LOGSIZE <? l_n l + (l_outstanding l + 1) * MAXOPBLOCKS then sleep CH_log LK_log
  else
    modify (upd_log (fun l => set_l_outstanding (l_outstanding l + 1) l)) ;;;
    release LK_log.
Definition begin_op : K unit := acquire LK_log ;;; begin_op_loop.
Definition begin_op_return (intena : bool) : K unit :=
  sleep_return intena LK_log ;;; begin_op_loop.

(** The body of the loop of [write_log]. *)
Definition write_log_round (tail : nat) : K unit :=
  let* l := gets k_log in
  let* to := bread (l_dev l) (u32 (l_start l + Z.of_nat tail + 1)) in
  let* src := gets (lh_block tail) in
  let* from := bread (l_dev l) (u32 src) in
  modify (fun k => upd_buf to (set_b_data (b_data (get_buf from k))) k) ;;;
  bwrite to ;;;
  brelse from ;;;
  brelse to.

Definition write_log : K unit :=
  let* idx := log_indices in
  for_each idx write_log_round.

Definition commit : K unit :=
  let* l := gets k_log in
  when (0 <? l_n l)
    (write_log ;;;
     write_head ;;;
     install_trans ;;;
     modify (upd_log (set_l_n 0)) ;;;
     write_head).

Definition end_op : K unit :=
  acquire LK_log ;;;
  modify (upd_log (fun l => set_l_outstanding (l_outstanding l - 1) l)) ;;;
  let* l := gets k_log in
  if l_committing l then panic "log.committing" else
  let do_commit := l_outstanding l =? 0 in
  (if do_commit then modify (upd_log (set_l_committing true)) else wakeup CH_log) ;;;
  release LK_log ;;;
  when do_commit
    (commit ;;;
     acquire LK_log ;;;
     modify (upd_log (set_l_committing false)) ;;;
     wakeup CH_log ;;;
     release LK_log).

(** The index of [blockno] in the first [n] entries of the header, or [n]. *)
Fixpoint log_find (blocks : list Z) (n : nat) (blockno : Z) : nat :=
  match n, blocks with
  | S n', x :: t => if u32 x =? blockno then O else S (log_find t n' blockno)
  | _, _ => O
  end.

Definition log_write (b : nat) : K unit :=
  let* l := gets k_log in
  if (LOGSIZE <=? l_n l) || (l_size l - 1 <=? l_n l) then panic "too big a transaction" else
  if l_outstanding l <? 1 then panic "log_write outside of trans" else
  acquire LK_log ;;;
  let* l := gets k_log in
  let* x := gets (get_buf b) in
  let i := log_find (l_block l) (Z.to_nat (l_n l)) (b_blockno x) in
  set_lh_block i (i32 (b_blockno x)) ;;;
  when (Z.of_nat i =? l_n l)
    (bpin b ;;;
     modify (upd_log (fun l => set_l_n (l_n l + 1) l))) ;;;
  release LK_log.

(** ** One round of each loop, on the block store *)

(** Block [n] becomes [d], in the cache and on the disk; in particular it becomes a
    copy of block [src]. *)
Definition s_put (n : Z) (d : list Z) (s : store) : store :=
  mk_store (upd (s_view s) n d) (upd (s_disk s) n d) (s_writes s ++ [(n, d)]) (s_pins s) (s_held s) (s_free s).
Definition s_copy (dst src : Z) (s : store) : store := s_put dst (s_view s src) s.

(** The same, and one reference to [dst] is given up. *)
Definition s_install (dst src : Z) (s : store) : store :=
  mk_store (upd (s_view s) dst (s_view s src)) (upd (s_disk s) dst (s_view s src)) (s_writes s ++ [(dst, s_view s src)])
    (upd (s_pins s) dst (u32 (s_pins s dst - 1))) (s_held s) (recount (s_pins s dst) (u32 (s_pins s dst - 1)) (s_free s)).

(** Nothing is locked, and the reference counts are far from wrapping around. *)
Definition resting (s : store) : Prop := s_held s = ∅ /\ forall n, 0 <= s_pins s n < 2 ^ 32.

Lemma frame_log k k' : bio_frame k k' -> k_log k' = k_log k.
Proof. now apply (bio_frame_eq k_log). Qed.

Lemma upd_upd {A} (f : Z -> A) n v w m : upd (upd f n v) n w m = upd f n w m.
Proof. unfold upd. now case_decide. Qed.
Lemma upd_id {A} (f : Z -> A) n v m : v = f n -> upd f n v m = f m.
Proof. intros ->. unfold upd. now case_decide; subst. Qed.
Lemma upd_comm {A} (f : Z -> A) n v n' v' m : n <> n' -> upd (upd f n v) n' v' m = upd (upd f n' v') n v m.
Proof. intros. unfold upd. repeat case_decide; subst; done. Qed.

Lemma frame_upd_buf b f k : bio_frame k (upd_buf b f k).
Proof. apply (bio_frame_intro k (upd_buf b f k)); [now destruct k|apply Forall2_woken_refl|apply noise_refl]. Qed.

(** Reading one block when none is locked, and then a second one. *)
Lemma wp_bread_first p dev s k a Q :
  stored p dev s k -> resting s -> 0 < s_pins s a \/ (0 < s_free s)%nat -> s_pins s a + 1 < 2 ^ 32 ->
  (forall ba k', stored p dev (s_read ba a s) k' -> bio_frame k k' -> Q ba k') ->
  wp (bread dev a) Q k.
Proof.
  intros H [Hh0 Hpr] Ha Hpa HQ.
  apply (wp_bread_s p dev a s); [done|done|rewrite Hh0; intros b; now rewrite lookup_empty| |done|].
  - intros b n. rewrite Hh0, lookup_empty. done.
  - intros ba k1 _ H1 F1. now apply HQ.
Qed.

Lemma wp_bread_second p dev s k a ba h Q :
  stored p dev (s_read ba a s) k -> resting s -> a <> h -> 0 < s_pins s h \/ (1 < s_free s)%nat -> s_pins s h + 1 < 2 ^ 32 ->
  (forall bh k', ba <> bh -> stored p dev (s_read bh h (s_read ba a s)) k' -> bio_frame k k' -> Q bh k') ->
  wp (bread dev h) Q k.
Proof.
  intros H [Hh0 Hpr] Hne Hh Hph HQ. pose proof (Hpr a) as Hra.
  apply (wp_bread_s p dev h (s_read ba a s)); [done|..]; cbn [s_read s_pins s_held s_free].
  - rewrite upd_ne by done. unfold recount. destruct (Z.eqb_spec (s_pins s a) 0), (Z.eqb_spec (s_pins s a + 1) 0); lia.
  - intros b. rewrite Hh0, insert_empty. intros [_ Hx]%lookup_singleton_Some. done.
  - intros b n. cbn. rewrite Hh0, insert_empty. intros [_ <-]%lookup_singleton_Some. rewrite upd_eq. lia.
  - rewrite upd_ne by done. done.
  - rewrite Hh0, insert_empty. intros bh k2 Hbh H2 F2. apply HQ; [|done|done].
    intros <-. now rewrite lookup_singleton_eq in Hbh.
Qed.

(** The entry of a round: the log block and the home block it deals with. *)
Record log_entry (st dev : Z) (i : nat) (h : Z) (k : kernel) : Prop := {
  le_dev : l_dev (k_log k) = dev;
  le_start : l_start (k_log k) = st;
  le_block : lh_block i k = h;
  le_home : 0 <= h < 2 ^ 31;
  le_region : 0 <= st /\ st + Z.of_nat i + 1 < 2 ^ 31 }.

(** Evaluating the operations of the store. *)
Ltac store_simpl :=
  cbn [s_read s_set s_write s_release s_repin s_put s_copy s_install s_view s_disk s_writes s_pins s_held s_free] in *;
  unfold upd in *; repeat case_decide; subst; try done.

Lemma u32_back x : 0 <= x < 2 ^ 32 -> u32 (x + 1 - 1) = x.
Proof. intros H. replace (x + 1 - 1) with x by lia. now apply u32_small. Qed.

Lemma recount_back x n : 0 <= x -> (0 < n)%nat \/ x <> 0 -> recount (x + 1) x (recount x (x + 1) n) = n.
Proof. intros Hx Hn. unfold recount. destruct (Z.eqb_spec x 0), (Z.eqb_spec (x + 1) 0); lia. Qed.

Lemma held_back (ba bh : nat) (a h : Z) :
  ba <> bh -> delete ba (delete bh (<[bh := h]> (<[ba := a]> (∅ : gmap nat Z)))) = ∅.
Proof. intros Hb. rewrite delete_insert_id by now simplify_map_eq. apply delete_insert_id, lookup_empty. Qed.

Lemma wp_write_log_round p dev st i h s k Q :
  stored p dev s k -> resting s -> log_entry st dev i h k ->
  let a := st + Z.of_nat i + 1 in
  a <> h -> 0 < s_pins s a \/ (0 < s_free s)%nat -> 0 < s_pins s h -> s_pins s a + 1 < 2 ^ 32 -> s_pins s h + 1 < 2 ^ 32 ->
  (forall k', stored p dev (s_copy a h s) k' -> bio_frame k k' -> Q tt k') ->
  wp (write_log_round i) Q k.
Proof.
  intros H Hrest [E1 E2 E3 E4 E5] a Hne Ha Hh Hpa Hph HQ. unfold write_log_round.
  apply wp_bind, wp_gets. rewrite E1, E2, u32_small by lia. fold a.
  apply wp_bind, (wp_bread_first p dev s); [done..|]. intros ba k1 H1 F1.
  apply wp_bind, wp_gets. assert (El : lh_block i k1 = h) by (unfold lh_block in *; now rewrite (frame_log _ _ F1)).
  rewrite El, u32_small by lia. clear El E3.
  apply wp_bind, (wp_bread_second p dev s _ a ba); [done|done|done|now left|done|]. intros bh k2 Hb H2 F2.
  destruct Hrest as [Hh0 Hpr]. pose proof (Hpr a) as Hra. clearbody a.
  apply wp_bind, wp_modify.
  destruct (stored_data _ _ _ _ bh h H2) as (-> & _ & _); [cbn; now simplify_map_eq|]. cbn [s_read s_view].
  assert (H3 : stored p dev (s_set a (s_view s h) (s_read bh h (s_read ba a s))) (upd_buf ba (set_b_data (s_view s h)) k2)).
  { apply stored_set; [done|cbn; now simplify_map_eq|]. store_simpl. lia. }
  apply wp_bind, (wp_bwrite_s p dev _ _ ba a _ H3); [cbn; now simplify_map_eq|]. intros k4 H4 F4.
  apply wp_bind, (wp_brelse_s p dev _ _ bh h _ H4); [cbn; now simplify_map_eq|store_simpl; lia|].
  intros k5 H5 F5. apply (wp_brelse_s p dev _ _ ba a _ H5); [cbn; now simplify_map_eq|store_simpl|].
  intros k6 H6 F6. apply HQ.
  - eapply stored_proper; [|reflexivity|exact H6]. split_and!.
    + intros n. store_simpl.
    + intros n. store_simpl.
    + store_simpl.
    + intros n. store_simpl; now rewrite u32_back.
    + cbn. now rewrite Hh0, held_back.
    + store_simpl. rewrite !u32_back, !recount_back by (done || lia). done.
  - etrans; [exact F1|]. etrans; [exact F2|]. etrans; [|exact F6]. etrans; [|exact F5]. etrans; [|exact F4].
    apply frame_upd_buf.
Qed.

Lemma wp_install_round p dev st i h s k Q :
  stored p dev s k -> resting s -> log_entry st dev i h k ->
  let a := st + Z.of_nat i + 1 in
  a <> h -> 0 < s_pins s a \/ (0 < s_free s)%nat -> 0 < s_pins s h \/ (1 < s_free s)%nat ->
  s_pins s a + 1 < 2 ^ 32 -> s_pins s h + 1 < 2 ^ 32 -> (s_pins s a = 0 -> s_view s a = s_disk s a) ->
  (forall k', stored p dev (s_install h a s) k' -> bio_frame k k' -> Q tt k') ->
  wp (install_round i) Q k.
Proof.
  intros H Hrest [E1 E2 E3 E4 E5] a Hne Ha Hh Hpa Hph Hcl HQ. unfold install_round.
  apply wp_bind, wp_gets. rewrite E1, E2, u32_small by lia. fold a.
  apply wp_bind, (wp_bread_first p dev s); [done..|]. intros ba k1 H1 F1.
  apply wp_bind, wp_gets. assert (El : lh_block i k1 = h) by (unfold lh_block in *; now rewrite (frame_log _ _ F1)).
  rewrite El, u32_small by lia. clear El E3.
  apply wp_bind, (wp_bread_second p dev s _ a ba); [done..|]. intros bh k2 Hb H2 F2.
  destruct Hrest as [Hh0 Hpr]. pose proof (Hpr a) as Hra. pose proof (Hpr h) as Hrh. clearbody a.
  apply wp_bind, wp_modify.
  destruct (stored_data _ _ _ _ ba a H2) as (-> & _ & _); [cbn; now simplify_map_eq|]. cbn [s_read s_view].
  assert (H3 : stored p dev (s_set h (s_view s a) (s_read bh h (s_read ba a s))) (upd_buf bh (set_b_data (s_view s a)) k2)).
  { apply stored_set; [done|cbn; now simplify_map_eq|]. store_simpl. lia. }
  apply wp_bind, (wp_bwrite_s p dev _ _ bh h _ H3); [cbn; now simplify_map_eq|]. intros k4 H4 F4.
  apply wp_bind, (wp_bunpin_s p dev _ _ bh h _ H4); [cbn; now simplify_map_eq|store_simpl; lia|store_simpl|].
  intros k5 H5 F5.
  apply wp_bind, (wp_brelse_s p dev _ _ ba a _ H5); [cbn; now simplify_map_eq|store_simpl; intros; apply Hcl; lia|].
  intros k6 H6 F6. apply (wp_brelse_s p dev _ _ bh h _ H6); [cbn; now simplify_map_eq|store_simpl|].
  intros k7 H7 F7. apply HQ.
  - eapply stored_proper; [|reflexivity|exact H7]. split_and!.
    + intros n. store_simpl.
    + intros n. store_simpl.
    + store_simpl.
    + intros n. store_simpl; [|now rewrite u32_back]. f_equal. lia.
    + cbn. rewrite Hh0, delete_delete, held_back; done.
    + store_simpl. replace (s_pins s h + 1 + -1) with (s_pins s h) by lia. rewrite u32_back by done.
      assert ((0 < recount (s_pins s a) (s_pins s a + 1) (s_free s))%nat \/ s_pins s h <> 0).
      { unfold recount. destruct (Z.eqb_spec (s_pins s a) 0), (Z.eqb_spec (s_pins s a + 1) 0); lia. }
      now rewrite !recount_back by lia.
  - etrans; [exact F1|]. etrans; [exact F2|]. etrans; [|exact F7]. etrans; [|exact F6]. etrans; [|exact F5]. etrans; [|exact F4].
    apply frame_upd_buf.
Qed.

(** ** The header block *)

Fixpoint put_blocks (d : list Z) (i : nat) (bl : list Z) : list Z :=
  match bl with
  | [] => d
  | b :: t => put_blocks (put32 d (lh_off i) b) (S i) t
  end.
(** The header [bl], written over the old contents [d] of its block. *)
Definition encode_head (bl : list Z) (d : list Z) : list Z := put_blocks (put32 d 0 (Z.of_nat (length bl))) 0 bl.

(** What [read_head] makes of a header block. *)
Definition decode_n (d : list Z) : Z := i32 (get32 d 0).
Definition decode_block (d : list Z) (i : nat) : Z := i32 (get32 d (lh_off i)).
Definition decode_head (d : list Z) : list Z := map (decode_block d) (seq 0 (Z.to_nat (decode_n d))).

Lemma put_blocks_app d i l1 l2 : put_blocks d i (l1 ++ l2) = put_blocks (put_blocks d i l1) (i + length l1) l2.
Proof.
  revert d i. induction l1 as [|b l1 IH]; intros d i; cbn; [now rewrite Nat.add_0_r|].
  rewrite IH. f_equal. lia.
Qed.

Lemma length_put_blocks bl : forall d i, (lh_off (i + length bl) <= length d)%nat -> length (put_blocks d i bl) = length d.
Proof.
  induction bl as [|b bl IH]; intros d i H; [done|]. cbn [put_blocks length] in *. unfold lh_off in *.
  assert (E : length (put32 d (4 + 4 * i) b) = length d) by (apply length_put32; lia).
  rewrite IH; rewrite E; lia.
Qed.

Lemma get32_put_blocks_before bl : forall d i o, (o + 4 <= lh_off i)%nat -> (lh_off (i + length bl) <= length d)%nat ->
  get32 (put_blocks d i bl) o = get32 d o.
Proof.
  induction bl as [|b bl IH]; intros d i o Ho Hl; [done|]. cbn [put_blocks length] in *. unfold lh_off in *.
  rewrite IH; [|lia|rewrite length_put32; lia]. apply get32_put32_ne; lia.
Qed.

Lemma get32_put_blocks bl : forall d i j b, (lh_off (i + length bl) <= length d)%nat -> bl !! j = Some b ->
  get32 (put_blocks d i bl) (lh_off (i + j)) = u32 b.
Proof.
  induction bl as [|x bl IH]; intros d i j b Hl Hj; [done|]. destruct j as [|j]; cbn [put_blocks length lookup list_lookup] in *.
  - injection Hj as ->. rewrite Nat.add_0_r, get32_put_blocks_before.
    + apply get32_put32. unfold lh_off in *. lia.
    + unfold lh_off. lia.
    + unfold lh_off in *. rewrite length_put32; lia.
  - replace (i + S j)%nat with (S i + j)%nat by lia. apply IH; [|done]. unfold lh_off in *. rewrite length_put32; lia.
Qed.

Lemma sgn_u32 x : i32 (u32 x) = i32 x.
Proof. unfold i32, u32, sgn. now rewrite Z.mod_mod by lia. Qed.

(** What was written is what recovery reads. *)
Lemma decode_encode bl d :
  (lh_off (length bl) <= length d)%nat -> Z.of_nat (length bl) < 2 ^ 31 -> Forall (fun b => 0 <= b < 2 ^ 31) bl ->
  decode_head (encode_head bl d) = bl.
Proof.
  intros Hl Hn Hb. unfold decode_head, decode_n, encode_head.
  assert (Hl0 : length (put32 d 0 (Z.of_nat (length bl))) = length d) by (apply length_put32; unfold lh_off in *; lia).
  rewrite get32_put_blocks_before; [|unfold lh_off; lia|rewrite Hl0; exact Hl].
  rewrite get32_put32 by (unfold lh_off in *; lia). rewrite sgn_u32, i32_small, Nat2Z.id by lia.
  apply list_eq. intros j. rewrite list_lookup_fmap. destruct (bl !! j) as [b|] eqn:E.
  - pose proof (lookup_lt_Some _ _ _ E). rewrite lookup_seq_lt by done. cbn. f_equal. unfold decode_block.
    rewrite (get32_put_blocks bl _ 0 j b) by (done || (rewrite Hl0; exact Hl)).
    rewrite sgn_u32. apply i32_small. rewrite Forall_lookup in Hb. exact (Hb j b E).
  - apply lookup_ge_None in E. rewrite lookup_seq_ge by lia. done.
Qed.

Lemma decode_encode_nil d : (4 <= length d)%nat -> decode_head (encode_head [] d) = [].
Proof. intros H. apply decode_encode; [done|done|constructor]. Qed.

(** The in-memory header is [bl]. *)
Record log_is (st dev : Z) (bl : list Z) (l : logst) : Prop := {
  li_dev : l_dev l = dev;
  li_start : l_start l = st;
  li_n : l_n l = Z.of_nat (length bl);
  li_block : exists rest, l_block l = bl ++ rest;
  li_home : Forall (fun b => 0 <= b < 2 ^ 31) bl;
  li_region : 0 <= st /\ st + Z.of_nat (length bl) + 1 < 2 ^ 31 }.

Lemma log_is_entry st dev bl k i h : log_is st dev bl (k_log k) -> bl !! i = Some h -> log_entry st dev i h k.
Proof.
  intros [H1 H2 H3 (rest & H4) H5 H6] Hi. pose proof (lookup_lt_Some _ _ _ Hi). split; [done|done| | |lia].
  - unfold lh_block. rewrite H4, list_lookup_total_alt, lookup_app_l by done. now rewrite Hi.
  - rewrite Forall_lookup in H5. exact (H5 i h Hi).
Qed.

Lemma log_is_indices st dev bl k : log_is st dev bl (k_log k) -> seq 0 (Z.to_nat (l_n (k_log k))) = seq 0 (length bl).
Proof. intros [_ _ -> _ _ _]. now rewrite Nat2Z.id. Qed.

(** The state of the store while block [n] is locked in buffer [b]. *)
Lemma store_set_twice n d d' s : s_set n d' (s_set n d s) ≡ s_set n d' s.
Proof. split_and!; cbn; try done. intros m. apply upd_upd. Qed.

Lemma seq_split n seen x rest : seq 0 n = seen ++ x :: rest -> seen = seq 0 x /\ (x < n)%nat.
Proof.
  intros E. assert (Hx : seq 0 n !! length seen = Some x) by (rewrite E; apply list_lookup_middle; done).
  apply lookup_seq in Hx as [Hx Hlt]. cbn in Hx. subst x. split; [|done].
  assert (E2 : take (length seen) (seq 0 n) = seen) by (rewrite E; apply take_app_length). rewrite take_seq, Nat.min_l in E2 by lia. now rewrite E2.
Qed.

(** The loop of [write_head] that fills the header buffer. *)
Lemma wp_fill_head p dev st bl b s k d :
  stored p dev (s_set st (put32 d 0 (Z.of_nat (length bl))) s) k -> s_held s !! b = Some st -> 0 < s_pins s st ->
  log_is st dev bl (k_log k) ->
  wp (for_each (seq 0 (length bl)) (fun i =>
        let* v := gets (lh_block i) in
        modify (upd_buf b (fun x => set_b_data (put32 (b_data x) (lh_off i) v) x))))
     (fun _ k' => stored p dev (s_set st (encode_head bl d) s) k' /\ bio_frame k k') k.
Proof.
  intros H Hb Hp Hl.
  eapply wp_mono; [apply (wp_for_each (fun seen k' =>
    stored p dev (s_set st (put_blocks (put32 d 0 (Z.of_nat (length bl))) 0 (take (length seen) bl)) s) k' /\ bio_frame k k'))|].
  - split; [exact H|reflexivity].
  - intros seen x rest k1 El [H1 F1]. apply seq_split in El as [Es Hx]. apply wp_bind, wp_gets, wp_modify.
    destruct (lookup_lt_is_Some_2 bl x Hx) as [h Eh].
    pose proof (log_is_entry st dev bl k1 x h) as He. rewrite (frame_log _ _ F1) in He. specialize (He Hl Eh).
    rewrite (le_block _ _ _ _ _ He). set (d1 := put_blocks _ _ _) in H1.
    destruct (stored_data _ _ _ _ b st H1) as (Ed & _ & _); [done|]. cbn in Ed. rewrite upd_eq in Ed.
    rewrite (upd_buf_ext b _ (set_b_data (put32 d1 (lh_off x) h))) by (cbn; now rewrite Ed).
    split; [|etrans; [exact F1|apply frame_upd_buf]].
    eapply stored_proper; [|reflexivity|apply (stored_set p dev _ k1 b st (put32 d1 (lh_off x) h) H1); done].
    rewrite store_set_twice. rewrite length_app, Es, length_seq. cbn [length].
    replace (x + 1)%nat with (S x) by lia. rewrite (take_S_r _ _ _ Eh), put_blocks_app. cbn [put_blocks].
    unfold d1. rewrite Es, length_seq, length_take. replace (0 + x `min` length bl)%nat with x by lia. done.
  - intros u k' [H1 F1]. split; [|done]. rewrite length_seq, firstn_all in H1. exact H1.
Qed.

Lemma wp_write_head p dev st bl s k Q :
  stored p dev s k -> resting s -> log_is st dev bl (k_log k) -> 0 < s_pins s st \/ (0 < s_free s)%nat -> s_pins s st + 1 < 2 ^ 32 ->
  (forall k', stored p dev (s_put st (encode_head bl (s_view s st)) s) k' -> bio_frame k k' -> Q tt k') ->
  wp write_head Q k.
Proof.
  intros H Hrest Hl Ha Hp HQ. unfold write_head. apply wp_bind, wp_gets.
  rewrite (li_dev _ _ _ _ Hl), (li_start _ _ _ _ Hl), u32_small by (destruct (li_region _ _ _ _ Hl); lia).
  apply wp_bind, (wp_bread_first p dev s); [done..|]. intros b k1 H1 F1. pose proof (proj2 Hrest st) as Hr.
  destruct Hrest as [Hh0 Hpr]. apply wp_bind, wp_modify.
  assert (Hheld : s_held (s_read b st s) !! b = Some st) by (cbn; now simplify_map_eq).
  destruct (stored_data _ _ _ _ b st H1 Hheld) as (Ed & _ & _). cbn in Ed.
  rewrite (upd_buf_ext b _ (set_b_data (put32 (s_view s st) 0 (l_n (k_log k))))) by (cbn; now rewrite Ed).
  rewrite (li_n _ _ _ _ Hl). set (k2 := upd_buf b _ k1).
  assert (Hpos : 0 < s_pins (s_read b st s) st) by (cbn; rewrite upd_eq; lia).
  pose proof (stored_set p dev _ k1 b st (put32 (s_view s st) 0 (Z.of_nat (length bl))) H1 Hheld Hpos) as H2. fold k2 in H2.
  assert (El : k_log k2 = k_log k) by exact (frame_log _ _ F1).
  apply wp_bind. unfold log_indices. apply wp_gets. rewrite (log_is_indices st dev bl k2) by now rewrite El.
  apply wp_bind. eapply wp_mono; [apply (wp_fill_head p dev st bl b _ k2 _ H2); [done|done|now rewrite El]|].
  intros _ k3 [H3 F3]. apply wp_bind, (wp_bwrite_s p dev _ _ b st _ H3); [done|]. intros k4 H4 F4.
  apply (wp_brelse_s p dev _ _ b st _ H4); [done|store_simpl|]. intros k5 H5 F5. apply HQ.
  - eapply stored_proper; [|reflexivity|exact H5]. split_and!; cbn; try done.
    + intros n. unfold upd. repeat case_decide; done.
    + now rewrite upd_eq.
    + intros n. unfold upd. case_decide; subst; rewrite ?decide_True; [|done..]. now rewrite u32_back.
    + rewrite Hh0. symmetry. apply delete_insert_id, lookup_empty.
    + rewrite upd_eq, u32_back, recount_back by lia. done.
  - etrans; [exact F1|]. etrans; [apply frame_upd_buf|]. etrans; [exact F3|]. etrans; [exact F4|exact F5].
Qed.

(** ** The loops *)

Fixpoint s_copies (st : Z) (i : nat) (bl : list Z) (s : store) : store :=
  match bl with
  | [] => s
  | h :: t => s_copies st (S i) t (s_copy (st + Z.of_nat i + 1) h s)
  end.
Fixpoint s_installs (st : Z) (i : nat) (bl : list Z) (s : store) : store :=
  match bl with
  | [] => s
  | h :: t => s_installs st (S i) t (s_install h (st + Z.of_nat i + 1) s)
  end.

Lemma stored_clean p dev s k n : stored p dev s k -> s_pins s n = 0 -> s_view s n = s_disk s n.
Proof.
  intros H Hz. destruct (st_cache _ _ _ _ H) as [L HL]. rewrite <- (st_view _ _ _ _ H), <- (st_disk _ _ _ _ H).
  destruct (view_cases L k dev n HL (st_dev _ _ _ _ H)) as [(b & Hb & Hi & ->)|[_ ->]]; [|done].
  assert (E : b_dev (get_buf b k) = dev /\ b_blockno (get_buf b k) = n) by (unfold is_block in Hi; lia). destruct E as [E1 E2].
  rewrite (co_clean _ _ HL b Hb); [now rewrite E2|]. rewrite (st_pins _ _ _ _ H b Hb E1), E2. done.
Qed.

Section loops.
Context (p : nat) (dev st : Z).

Definition entries (i : nat) (bl : list Z) (k : kernel) : Prop :=
  forall j h, bl !! j = Some h -> log_entry st dev (i + j) h k.

Lemma entries_frame i bl k k' : bio_frame k k' -> entries i bl k -> entries i bl k'.
Proof.
  intros F H j h Hj. destruct (H j h Hj) as [E1 E2 E3 E4 E5]. unfold lh_block in E3.
  split; unfold lh_block; rewrite ?(frame_log _ _ F); done.
Qed.

Lemma entries_tail i h bl k : entries i (h :: bl) k -> entries (S i) bl k.
Proof. intros H j x Hj. replace (S i + j)%nat with (i + S j)%nat by lia. now apply H. Qed.

Lemma wp_copies bl : forall i s k Q,
  stored p dev s k -> resting s -> entries i bl k -> (forall n, s_pins s n + 1 < 2 ^ 32) -> (0 < s_free s)%nat ->
  Forall (fun h => 0 < s_pins s h /\ (h < st \/ st + Z.of_nat (i + length bl) < h)) bl ->
  (forall k', stored p dev (s_copies st i bl s) k' -> bio_frame k k' -> Q tt k') ->
  wp (for_each (seq i (length bl)) write_log_round) Q k.
Proof.
  induction bl as [|h bl IH]; intros i s k Q H Hr He Hp Hf Hb HQ; [apply wp_ret, HQ; [done|reflexivity]|].
  cbn [length seq for_each] in *. apply Forall_cons in Hb as [[Hh Hn] Hb].
  assert (E : log_entry st dev i h k) by (replace i with (i + 0)%nat by lia; now apply He).
  apply wp_bind, (wp_write_log_round p dev st i h s); [done|done|done|lia|now right|done|apply Hp|apply Hp|].
  intros k1 H1 F1. apply (IH (S i) (s_copy (st + Z.of_nat i + 1) h s)); [done| | |exact Hp|exact Hf| |].
  - exact Hr.
  - eapply entries_frame, entries_tail; eauto.
  - eapply Forall_impl; [exact Hb|]. cbn. intros x [Hx1 Hx2]. split; [done|lia].
  - intros k2 H2 F2. apply HQ; [done|etrans; eauto].
Qed.

Lemma recount_pred x n : 0 <= x < 2 ^ 32 -> (n - 1 <= recount x (u32 (x - 1)) n)%nat /\ (0 < x -> (n <= recount x (u32 (x - 1)) n)%nat).
Proof. intros Hx. unfold recount. destruct (Z.eqb_spec x 0), (Z.eqb_spec (u32 (x - 1)) 0); lia. Qed.

Lemma wp_installs bl : forall i s k Q,
  stored p dev s k -> resting s -> entries i bl k -> NoDup bl ->
  (forall j, (j < length bl)%nat -> s_pins s (st + Z.of_nat (i + j) + 1) + 1 < 2 ^ 32) ->
  Forall (fun h => s_pins s h + 1 < 2 ^ 32 /\ (h < st \/ st + Z.of_nat (i + length bl) < h)) bl ->
  (Forall (fun h => 0 < s_pins s h) bl /\ (0 < s_free s)%nat \/ (length bl < s_free s)%nat) ->
  (forall k', stored p dev (s_installs st i bl s) k' -> bio_frame k k' -> Q tt k') ->
  wp (for_each (seq i (length bl)) install_round) Q k.
Proof.
  induction bl as [|h bl IH]; intros i s k Q H Hr He Hd Hlog Hb Ha HQ; [apply wp_ret, HQ; [done|reflexivity]|].
  cbn [length seq for_each] in *. apply Forall_cons in Hb as [[Hh Hn] Hb]. apply NoDup_cons in Hd as [Hnd Hd].
  assert (E : log_entry st dev i h k) by (replace i with (i + 0)%nat by lia; now apply He).
  assert (Hlog0 : s_pins s (st + Z.of_nat i + 1) + 1 < 2 ^ 32) by (specialize (Hlog 0%nat ltac:(lia)); now rewrite Nat.add_0_r in Hlog).
  destruct Hr as [Hr0 Hr1]. destruct (recount_pred (s_pins s h) (s_free s) (Hr1 h)) as [Hrc1 Hrc2].
  apply wp_bind, (wp_install_round p dev st i h s); [done|done|done|lia| | |done|done|exact (stored_clean p dev s k _ H)|].
  { destruct Ha as [[_ Ha]|Ha]; lia. }
  { destruct Ha as [[Ha _]|Ha]; [left; now apply Forall_cons in Ha|lia]. }
  intros k1 H1 F1. apply (IH (S i) (s_install h (st + Z.of_nat i + 1) s)); [done|..].
  - split; [done|]. intros n. cbn. unfold upd. case_decide; [apply u32_range|apply Hr1].
  - eapply entries_frame, entries_tail; eauto.
  - done.
  - intros j Hj. cbn [s_install s_pins]. specialize (Hlog (S j) ltac:(lia)).
    replace (S i + j)%nat with (i + S j)%nat by lia. rewrite upd_ne by lia. exact Hlog.
  - apply Forall_forall. intros x Hx. rewrite Forall_forall in Hb. destruct (Hb x Hx). cbn.
    rewrite upd_ne by (intros ->; done). split; [done|lia].
  - cbn [s_install s_free]. destruct Ha as [[Ha1 Ha2]|Ha]; [left|right; lia]. apply Forall_cons in Ha1 as [Hx Ha1]. split; [|lia].
    apply Forall_forall. intros x Hx'. rewrite Forall_forall in Ha1. cbn. rewrite upd_ne by (intros ->; done). auto.
  - intros k2 H2 F2. apply HQ; [done|etrans; eauto].
Qed.
End loops.

(** ** Traces of disk writes *)

Definition replay (d : Z -> list Z) (ws : list (Z * list Z)) : Z -> list Z :=
  foldl (fun d w => upd d (fst w) (snd w)) d ws.

Lemma replay_app d ws ws' : replay d (ws ++ ws') = replay (replay d ws) ws'.
Proof. apply foldl_app. Qed.

Lemma replay_notin ws : forall d n, n ∉ map fst ws -> replay d ws n = d n.
Proof.
  induction ws as [|[m v] ws IH]; intros d n Hn; [done|]. apply not_elem_of_cons in Hn as [H1 H2]. cbn.
  rewrite IH by done. now apply upd_ne.
Qed.

Lemma replay_in ws : forall d n v, NoDup (map fst ws) -> (n, v) ∈ ws -> replay d ws n = v.
Proof.
  induction ws as [|[m w] ws IH]; intros d n v Hd Hin; [now apply elem_of_nil in Hin|]. cbn in Hd. apply NoDup_cons in Hd as [H1 H2].
  cbn. apply elem_of_cons in Hin as [[= -> ->]|Hin]; [|now apply IH]. rewrite replay_notin by done. apply upd_eq.
Qed.

Lemma replay_ext ws : forall d d' n, (forall m, d m = d' m) -> replay d ws n = replay d' ws n.
Proof.
  induction ws as [|[m w] ws IH]; intros d d' n H; [apply H|]. cbn. apply IH. intros x. unfold upd. now case_decide.
Qed.

Fixpoint log_trace (st : Z) (i : nat) (bl : list Z) (V : Z -> list Z) : list (Z * list Z) :=
  match bl with
  | [] => []
  | h :: t => (st + Z.of_nat i + 1, V h) :: log_trace st (S i) t V
  end.
Fixpoint home_trace (st : Z) (i : nat) (bl : list Z) (V : Z -> list Z) : list (Z * list Z) :=
  match bl with
  | [] => []
  | h :: t => (h, V (st + Z.of_nat i + 1)) :: home_trace st (S i) t V
  end.

Definition outside (st : Z) (n : nat) (h : Z) : Prop := h < st \/ st + Z.of_nat n < h.

Lemma log_trace_keys st bl V : forall i a, a ∈ map fst (log_trace st i bl V) -> st + Z.of_nat i < a <= st + Z.of_nat (i + length bl).
Proof.
  induction bl as [|h bl IH]; intros i a Ha; [now apply elem_of_nil in Ha|]. cbn in Ha |- *.
  apply elem_of_cons in Ha as [->|Ha]; [lia|]. apply IH in Ha. lia.
Qed.

Lemma log_trace_nodup st bl V : forall i, NoDup (map fst (log_trace st i bl V)).
Proof.
  induction bl as [|h bl IH]; intros i; cbn; constructor; [|apply IH]. intros H. apply log_trace_keys in H. lia.
Qed.

Lemma log_trace_in st V : forall bl i j h, bl !! j = Some h -> (st + Z.of_nat (i + j) + 1, V h) ∈ log_trace st i bl V.
Proof.
  induction bl as [|x bl IH]; intros i j h Hj; [done|]. destruct j as [|j]; cbn [lookup list_lookup] in Hj.
  - injection Hj as ->. rewrite Nat.add_0_r. constructor.
  - replace (i + S j)%nat with (S i + j)%nat by lia. right. now apply IH.
Qed.

Lemma home_trace_keys st V : forall bl i, map fst (home_trace st i bl V) = bl.
Proof. induction bl as [|h bl IH]; intros i; cbn; [done|]. now rewrite IH. Qed.

Lemma home_trace_ext st V V' : forall bl i, (forall j, (i <= j < i + length bl)%nat -> V (st + Z.of_nat j + 1) = V' (st + Z.of_nat j + 1)) ->
  home_trace st i bl V = home_trace st i bl V'.
Proof.
  induction bl as [|h bl IH]; intros i H; [done|]. cbn in *. rewrite (H i) by lia. f_equal. apply IH. intros j Hj. apply H. lia.
Qed.

Lemma log_trace_ext st V V' : forall bl i, Forall (fun h => V h = V' h) bl -> log_trace st i bl V = log_trace st i bl V'.
Proof.
  induction bl as [|h bl IH]; intros i H; [done|]. apply Forall_cons in H as [H1 H2]. cbn. rewrite H1. f_equal. now apply IH.
Qed.

(** The log blocks hold the home blocks' contents: installing writes just those. *)
Lemma home_trace_values st V : forall bl i (W : Z -> list Z), (forall j h, bl !! j = Some h -> V (st + Z.of_nat (i + j) + 1) = W h) ->
  home_trace st i bl V = map (fun h => (h, W h)) bl.
Proof.
  induction bl as [|h bl IH]; intros i W H; [done|]. cbn. f_equal.
  - f_equal. specialize (H 0%nat h eq_refl). now rewrite Nat.add_0_r in H.
  - apply IH. intros j x Hj. specialize (H (S j) x Hj). now replace (S i + j)%nat with (i + S j)%nat by lia.
Qed.

(** A store after a list of writes. *)
Record wrote (ws : list (Z * list Z)) (s s' : store) : Prop := {
  wr_view : forall n, s_view s' n = replay (s_view s) ws n;
  wr_disk : forall n, s_disk s' n = replay (s_disk s) ws n;
  wr_writes : s_writes s' = s_writes s ++ ws;
  wr_held : s_held s' = s_held s }.

Lemma wrote_put n d s : wrote [(n, d)] s (s_put n d s).
Proof. done. Qed.

Lemma wrote_trans ws ws' s1 s2 s3 : wrote ws s1 s2 -> wrote ws' s2 s3 -> wrote (ws ++ ws') s1 s3.
Proof.
  intros [V1 D1 W1 H1] [V2 D2 W2 H2]. split.
  - intros n. rewrite V2, replay_app. apply replay_ext. done.
  - intros n. rewrite D2, replay_app. apply replay_ext. done.
  - now rewrite W2, W1, app_assoc.
  - congruence.
Qed.

Lemma copies_wrote st bl : forall i s, Forall (outside st (i + length bl)) bl ->
  wrote (log_trace st i bl (s_view s)) s (s_copies st i bl s) /\
  (forall n, s_pins (s_copies st i bl s) n = s_pins s n) /\ s_free (s_copies st i bl s) = s_free s.
Proof.
  induction bl as [|h bl IH]; intros i s Ho; [split; [split; try done; cbn; now rewrite app_nil_r|done]|].
  apply Forall_cons in Ho as [Ho1 Ho2]. unfold outside in Ho1. cbn [length] in *. cbn [s_copies log_trace].
  destruct (IH (S i) (s_copy (st + Z.of_nat i + 1) h s)) as (IH1 & IH2 & IH3).
  { eapply Forall_impl; [exact Ho2|]. unfold outside. intros x Hx. lia. }
  split; [|done]. apply (wrote_trans [_] _ _ _ _ (wrote_put _ _ _)).
  erewrite log_trace_ext; [exact IH1|]. eapply Forall_impl; [exact Ho2|]. intros x Hx. cbn. unfold outside in Hx. rewrite upd_ne by lia. done.
Qed.

Lemma installs_wrote st bl : forall i s, Forall (outside st (i + length bl)) bl -> NoDup bl ->
  wrote (home_trace st i bl (s_view s)) s (s_installs st i bl s) /\
  (forall n, s_pins (s_installs st i bl s) n = if decide (n ∈ bl) then u32 (s_pins s n - 1) else s_pins s n).
Proof.
  induction bl as [|h bl IH]; intros i s Ho Hd; [split; [split; try done; cbn; now rewrite app_nil_r|done]|].
  apply Forall_cons in Ho as [Ho1 Ho2]. apply NoDup_cons in Hd as [Hd1 Hd2]. unfold outside in Ho1. cbn [length] in *.
  cbn [s_installs home_trace].
  destruct (IH (S i) (s_install h (st + Z.of_nat i + 1) s)) as (IH1 & IH2); [|done|].
  { eapply Forall_impl; [exact Ho2|]. unfold outside. intros x Hx. lia. }
  split.
  - apply (wrote_trans [(h, s_view s (st + Z.of_nat i + 1))] _ s (s_install h (st + Z.of_nat i + 1) s)); [done|].
    erewrite home_trace_ext; [exact IH1|]. intros j Hj. cbn. rewrite upd_ne by lia. done.
  - intros n. rewrite IH2. cbn. unfold upd. repeat case_decide; subst; (done || set_solver).
Qed.

(** ** Commit *)

(** The disk writes of one commit: the log blocks, the header, the home blocks, and
    the header with count 0. *)
Definition commit_trace (st : Z) (bl : list Z) (V : Z -> list Z) : list (Z * list Z) :=
  log_trace st 0 bl V ++ [(st, encode_head bl (V st))] ++ map (fun h => (h, V h)) bl ++
  [(st, encode_head [] (encode_head bl (V st)))].

(** A transaction with the home blocks [bl] that can be committed: the blocks are
    distinct, not blocks of the log, and pinned in the cache; a buffer is free. *)
Record committable (st : Z) (bl : list Z) (s : store) : Prop := {
  cm_rest : resting s;
  cm_nodup : NoDup bl;
  cm_out : Forall (outside st (length bl)) bl;
  cm_pinned : Forall (fun h => 0 < s_pins s h) bl;
  cm_pins : forall n, s_pins s n + 1 < 2 ^ 32;
  cm_free : (0 < s_free s)%nat }.

Lemma outside_replay st bl V d n : ~ (st < n <= st + Z.of_nat (length bl)) -> replay d (log_trace st 0 bl V) n = d n.
Proof. intros H. apply replay_notin. intros Hn. apply log_trace_keys in Hn. cbn in Hn. lia. Qed.

Lemma log_trace_value st bl V d j h :
  bl !! j = Some h -> replay d (log_trace st 0 bl V) (st + Z.of_nat j + 1) = V h.
Proof. intros Hj. apply replay_in; [apply log_trace_nodup|]. exact (log_trace_in st V bl 0 j h Hj). Qed.

(** The pure part: what the four phases do to the store. *)
Lemma commit_wrote st bl s :
  NoDup bl -> Forall (outside st (length bl)) bl ->
  let s1 := s_copies st 0 bl s in
  let s2 := s_put st (encode_head bl (s_view s1 st)) s1 in
  let s3 := s_installs st 0 bl s2 in
  let s4 := s_put st (encode_head [] (s_view s3 st)) s3 in
  wrote (commit_trace st bl (s_view s)) s s4 /\
  (forall n, s_pins s4 n = if decide (n ∈ bl) then u32 (s_pins s n - 1) else s_pins s n).
Proof.
  intros Hd Ho s1 s2 s3 s4.
  destruct (copies_wrote st bl 0 s Ho) as (W1 & P1 & F1). fold s1 in W1, P1, F1.
  assert (E1 : s_view s1 st = s_view s st) by (rewrite (wr_view _ _ _ W1); apply outside_replay; lia).
  assert (W2 : wrote (log_trace st 0 bl (s_view s) ++ [(st, encode_head bl (s_view s st))]) s s2).
  { apply (wrote_trans _ _ _ _ _ W1). unfold s2. rewrite E1. apply wrote_put. }
  destruct (installs_wrote st bl 0 s2 Ho Hd) as (W3 & P3). fold s3 in W3, P3.
  assert (E3 : home_trace st 0 bl (s_view s2) = map (fun h => (h, s_view s h)) bl).
  { apply home_trace_values. intros j h Hj. cbn. rewrite upd_ne by lia. rewrite (wr_view _ _ _ W1). now apply log_trace_value. }
  rewrite E3 in W3.
  assert (E4 : s_view s3 st = encode_head bl (s_view s st)).
  { rewrite (wr_view _ _ _ W3), replay_notin; [cbn; now rewrite upd_eq, E1|].
    rewrite map_map, map_id. intros Hin. rewrite Forall_forall in Ho. specialize (Ho st Hin). unfold outside in Ho. lia. }
  split.
  - unfold commit_trace. rewrite app_assoc. apply (wrote_trans _ _ _ s2 _ W2), (wrote_trans _ _ _ s3 _ W3).
    unfold s4. rewrite E4. apply wrote_put.
  - intros n. cbn. rewrite P3. cbn. now rewrite P1.
Qed.

Lemma wp_write_log p dev st bl s k Q :
  stored p dev s k -> committable st bl s -> log_is st dev bl (k_log k) ->
  (forall k', stored p dev (s_copies st 0 bl s) k' -> bio_frame k k' -> Q tt k') -> wp write_log Q k.
Proof.
  intros H [C1 C2 C3 C4 C5 C6] Hl HQ. unfold write_log, log_indices. apply wp_bind, wp_gets.
  rewrite (log_is_indices st dev bl k Hl). apply (wp_copies p dev st bl 0 s); [done|done| |done|done| |done].
  - intros j h Hj. now apply (log_is_entry st dev bl).
  - apply Forall_forall. intros h Hh. rewrite Forall_forall in C3, C4. split; [auto|]. exact (C3 h Hh).
Qed.

Lemma resting_wrote ws s s' : wrote ws s s' -> (forall n, 0 <= s_pins s' n < 2 ^ 32) -> resting s -> resting s'.
Proof. intros W Hp [H1 _]. split; [now rewrite (wr_held _ _ _ W)|done]. Qed.

Lemma installs_free st bl : forall i s, (forall n, 0 <= s_pins s n < 2 ^ 32) -> NoDup bl -> Forall (fun h => 0 < s_pins s h) bl ->
  (s_free s <= s_free (s_installs st i bl s))%nat.
Proof.
  induction bl as [|h bl IH]; intros i s Hr Hd Hp; [done|]. apply NoDup_cons in Hd as [Hd1 Hd2]. apply Forall_cons in Hp as [Hp1 Hp2].
  cbn [s_installs]. etrans; [|apply IH].
  - cbn. apply recount_pred; [apply Hr|done].
  - intros n. cbn. unfold upd. case_decide; [apply u32_range|apply Hr].
  - done.
  - apply Forall_forall. intros x Hx. rewrite Forall_forall in Hp2. cbn. rewrite upd_ne by (intros ->; done). auto.
Qed.

Lemma stored_upd_log p dev s k f : stored p dev s k -> stored p dev s (upd_log f k).
Proof.
  intros H. apply (stored_ext p dev s k); [done..| |done|done].
  exact (in_proc_same p k (upd_log f k) eq_refl eq_refl eq_refl (st_proc _ _ _ _ H)).
Qed.

Lemma log_is_cleared st dev bl l : log_is st dev bl l -> log_is st dev [] (set_l_n 0 l).
Proof. intros [H1 H2 H3 H4 H5 H6]. split; [done|done|done|now exists (l_block l)|constructor|cbn; lia]. Qed.

Lemma wp_install_trans p dev st bl s k Q :
  stored p dev s k -> resting s -> log_is st dev bl (k_log k) -> NoDup bl -> Forall (outside st (length bl)) bl ->
  (forall j, (j < length bl)%nat -> s_pins s (st + Z.of_nat j + 1) + 1 < 2 ^ 32) -> Forall (fun h => s_pins s h + 1 < 2 ^ 32) bl ->
  (Forall (fun h => 0 < s_pins s h) bl /\ (0 < s_free s)%nat \/ (length bl < s_free s)%nat) ->
  (forall k', stored p dev (s_installs st 0 bl s) k' -> bio_frame k k' -> Q tt k') -> wp install_trans Q k.
Proof.
  intros H Hr Hl Hd Ho Hlog Hp Ha HQ. unfold install_trans, log_indices. apply wp_bind, wp_gets.
  rewrite (log_is_indices st dev bl k Hl). apply (wp_installs p dev st bl 0 s); [done|done| |done|done| |done|done].
  - intros j h Hj. now apply (log_is_entry st dev bl).
  - apply Forall_forall. intros h Hh. rewrite Forall_forall in Ho, Hp. split; [auto|]. exact (Ho h Hh).
Qed.

Lemma wp_commit p dev st bl s k Q :
  stored p dev s k -> committable st bl s -> log_is st dev bl (k_log k) -> bl <> [] ->
  (forall s' k', stored p dev s' k' -> wrote (commit_trace st bl (s_view s)) s s' ->
     (forall n, s_pins s' n = if decide (n ∈ bl) then s_pins s n - 1 else s_pins s n) ->
     bio_frame (upd_log (set_l_n 0) k) k' -> Q tt k') ->
  wp commit Q k.
Proof.
  intros H C Hl Hne HQ. pose proof C as [C1 C2 C3 C4 C5 C6]. unfold commit. apply wp_bind, wp_gets.
  assert (Hn : (0 <? l_n (k_log k)) = true) by (rewrite (li_n _ _ _ _ Hl); destruct bl; [done|apply Z.ltb_lt; cbn [length]; lia]). rewrite Hn. cbn [when].
  destruct (copies_wrote st bl 0 s C3) as (W1 & P1 & F1). destruct (commit_wrote st bl s C2 C3) as [W P].
  set (s1 := s_copies st 0 bl s) in *. set (s2 := s_put st (encode_head bl (s_view s1 st)) s1) in *.
  set (s3 := s_installs st 0 bl s2) in *. cbv zeta in W, P.
  assert (R1 : resting s1) by (apply (resting_wrote _ _ _ W1); [intros n; rewrite P1; apply C1|done]).
  assert (R2 : resting s2) by done.
  assert (P2 : forall n, s_pins s2 n = s_pins s n) by exact P1.
  assert (Hpin : Forall (fun h => 0 < s_pins s2 h) bl) by (eapply Forall_impl; [exact C4|]; intros x Hx; now rewrite P2).
  apply wp_bind, (wp_write_log p dev st bl s); [done..|]. intros k1 H1 Fr1. fold s1 in H1.
  apply wp_bind, (wp_write_head p dev st bl s1); [done|done|now rewrite (frame_log _ _ Fr1)|right; rewrite F1; done|rewrite P1; apply C5|].
  intros k2 H2 Fr2. fold s2 in H2. pose proof (bio_frame_trans _ _ _ Fr1 Fr2) as Fr.
  apply wp_bind, (wp_install_trans p dev st bl s2); [done|done|now rewrite (frame_log _ _ Fr)|done|done| | | |].
  - intros j _. rewrite P2. apply C5.
  - apply Forall_forall. intros h _. rewrite P2. apply C5.
  - left. split; [done|]. cbn. rewrite F1. done.
  - intros k3 H3 Fr3. fold s3 in H3. apply wp_bind, wp_modify.
    destruct (installs_wrote st bl 0 s2 C3 C2) as (W3 & P3). fold s3 in W3, P3.
    pose proof (bio_frame_trans _ _ _ Fr Fr3) as Fr'.
    assert (Hf3 : (0 < s_free s3)%nat).
    { eapply Nat.lt_le_trans; [|apply installs_free; [apply R2|done|done]]. cbn. now rewrite F1. }
    apply (wp_write_head p dev st [] s3); [now apply stored_upd_log| | |now right| |].
    + apply (resting_wrote _ _ _ W3); [|done]. intros n. rewrite P3. case_decide; [apply u32_range|apply R2].
    + cbn. rewrite (frame_log _ _ Fr'). exact (log_is_cleared _ _ _ _ Hl).
    + rewrite P3. destruct (decide (st ∈ bl)) as [Hin|]; [|rewrite P2; apply C5].
      rewrite Forall_forall in C3. specialize (C3 st Hin). unfold outside in C3. lia.
    + intros k4 H4 Fr4. apply (HQ _ k4 H4 W).
      * intros n. rewrite P. case_decide as Hin; [|done]. apply u32_small. rewrite Forall_forall in C4. specialize (C4 n Hin).
        destruct C1 as [_ C1]. specialize (C1 n). lia.
      * etrans; [|exact Fr4]. destruct Fr' as (b & h & d & w & ps & Hw & Hnn). exists b, h, d, w, ps. split; [exact Hw|].
        apply (noise_update (upd_log (set_l_n 0))) in Hnn; [|done..]. exact Hnn.
Qed.

(** ** Recovery *)

Lemma upd_block_twice x y k : upd_log (set_l_block x) (upd_log (set_l_block y) k) = upd_log (set_l_block x) k.
Proof. done. Qed.

(** The loop of [read_head] that copies the block numbers into [log.lh]. *)
Lemma wp_read_blocks d n k :
  (n <= length (l_block (k_log k)))%nat ->
  wp (for_each (seq 0 n) (fun i => set_lh_block i (i32 (get32 d (lh_off i)))))
     (fun _ k' => k' = upd_log (set_l_block (map (decode_block d) (seq 0 n) ++ drop n (l_block (k_log k)))) k) k.
Proof.
  intros Hn. eapply wp_mono; [apply (wp_for_each (fun seen k' =>
    k' = upd_log (set_l_block (map (decode_block d) seen ++ drop (length seen) (l_block (k_log k)))) k))|].
  - cbn. unfold upd_log. destruct k as [? ? ? ? ? ? ? ? ? ? ? ? ? ? ? []]. done.
  - intros seen x rest k1 El ->. apply seq_split in El as [-> Hx]. unfold set_lh_block. apply wp_bind, wp_gets.
    cbn [k_log upd_log set_k_log l_block set_l_block]. rewrite length_app, length_map, length_drop, length_seq.
    rewrite decide_True by lia. apply wp_modify. rewrite upd_block_twice. do 2 f_equal.
    rewrite map_app, length_app, length_seq, insert_app_r_alt; rewrite length_map, length_seq; [|lia].
    rewrite Nat.sub_diag. destruct (drop x (l_block (k_log k))) as [|v t] eqn:E.
    { apply (f_equal length) in E. rewrite length_drop in E. cbn in E. lia. }
    cbn. rewrite <- app_assoc. cbn. do 2 f_equal. rewrite <- drop_drop, E. done.
  - intros u k' ->. now rewrite length_seq.
Qed.

Lemma wp_read_head p dev st bl s k Q :
  stored p dev s k -> resting s -> l_dev (k_log k) = dev -> l_start (k_log k) = st -> length (l_block (k_log k)) = Z.to_nat LOGSIZE ->
  0 <= st < 2 ^ 31 -> 0 < s_pins s st \/ (0 < s_free s)%nat -> s_pins s st + 1 < 2 ^ 32 ->
  decode_head (s_view s st) = bl -> decode_n (s_view s st) = Z.of_nat (length bl) -> (length bl <= Z.to_nat LOGSIZE)%nat ->
  (forall k' rest, stored p dev s k' ->
     bio_frame (upd_log (fun l => set_l_block (bl ++ rest) (set_l_n (Z.of_nat (length bl)) l)) k) k' -> Q tt k') ->
  wp read_head Q k.
Proof.
  intros H Hr Hdv Hst Hlen Hrange Ha Hp Hbl Hn Hle HQ. unfold read_head. apply wp_bind, wp_gets. rewrite Hdv, Hst, u32_small by lia.
  apply wp_bind, (wp_bread_first p dev s); [done..|]. intros b k1 H1 F1. pose proof (proj2 Hr st) as Hrg. destruct Hr as [Hh0 _].
  assert (Hheld : s_held (s_read b st s) !! b = Some st) by (cbn; now simplify_map_eq).
  destruct (stored_data _ _ _ _ b st H1 Hheld) as (Ed & _ & _). cbn in Ed.
  apply wp_bind, wp_gets. rewrite Ed. apply wp_bind, wp_modify. change (i32 (get32 (s_view s st) 0)) with (decode_n (s_view s st)). rewrite Hn.
  unfold log_indices. apply wp_bind, wp_gets. cbn [k_log upd_log set_k_log l_n set_l_n]. rewrite Nat2Z.id.
  apply wp_bind. eapply wp_mono; [apply wp_read_blocks; cbn; rewrite (frame_log _ _ F1), Hlen; done|]. intros u k2 ->.
  set (k2 := upd_log _ _).
  assert (H2 : stored p dev (s_read b st s) k2) by now do 2 apply stored_upd_log.
  apply (wp_brelse_s p dev _ _ b st _ H2); [done| |].
  { cbn. rewrite upd_eq. intros Hp1. apply (stored_clean p dev s k); [done|]. lia. }
  intros k3 H3 F3. apply (HQ k3 (drop (length bl) (l_block (k_log k1)))).
  - eapply stored_proper; [|reflexivity|exact H3]. split_and!; cbn; try done.
    + intros n. unfold upd. case_decide; subst; rewrite ?decide_True; [|done..]. now rewrite u32_back.
    + rewrite Hh0. symmetry. apply delete_insert_id, lookup_empty.
    + rewrite upd_eq, u32_back, recount_back by lia. done.
  - etrans; [|exact F3]. unfold k2.
    assert (E : map (decode_block (s_view s st)) (seq 0 (length bl)) = bl) by (rewrite <- Hbl at 2; unfold decode_head; now rewrite Hn, Nat2Z.id).
    rewrite E. destruct F1 as (bb & hh & dd & ww & ps & Hw & Hnn). exists bb, hh, dd, ww, ps. split; [exact Hw|].
    apply (noise_update (upd_log (fun l => set_l_block (bl ++ drop (length bl) (l_block (k_log k1))) (set_l_n (Z.of_nat (length bl)) l)))) in Hnn; [|done..].
    exact Hnn.
Qed.

Definition recover_trace (st : Z) (bl : list Z) (V : Z -> list Z) : list (Z * list Z) :=
  home_trace st 0 bl V ++ [(st, encode_head [] (V st))].

(** The header on the disk is [bl], and its blocks can be installed. *)
Record header_is (st : Z) (bl : list Z) (d : list Z) : Prop := {
  hd_blocks : decode_head d = bl;
  hd_n : decode_n d = Z.of_nat (length bl);
  hd_home : Forall (fun b => 0 <= b < 2 ^ 31) bl;
  hd_nodup : NoDup bl;
  hd_out : Forall (outside st (length bl)) bl }.

Lemma installs_free_ge st bl : forall i s, (forall n, 0 <= s_pins s n < 2 ^ 32) ->
  (s_free s - length bl <= s_free (s_installs st i bl s))%nat.
Proof.
  induction bl as [|h bl IH]; intros i s Hr; [cbn; lia|]. cbn [s_installs length].
  specialize (IH (S i) (s_install h (st + Z.of_nat i + 1) s)). destruct (recount_pred (s_pins s h) (s_free s) (Hr h)) as [H1 _].
  cbn [s_install s_free s_pins] in IH. etrans; [|apply IH]; [lia|].
  intros n. unfold upd. case_decide; [apply u32_range|apply Hr].
Qed.

Lemma wp_recover p dev st bl s k Q :
  stored p dev s k -> s_held s = ∅ -> (forall n, s_pins s n = 0) -> (length bl < s_free s)%nat ->
  l_dev (k_log k) = dev -> l_start (k_log k) = st -> length (l_block (k_log k)) = Z.to_nat LOGSIZE ->
  0 <= st /\ st + LOGSIZE + 1 < 2 ^ 31 -> (length bl <= Z.to_nat LOGSIZE)%nat -> header_is st bl (s_view s st) ->
  (forall s' k', stored p dev s' k' -> wrote (recover_trace st bl (s_view s)) s s' ->
     (forall n, s_pins s' n = if decide (n ∈ bl) then 2 ^ 32 - 1 else 0) -> Q tt k') ->
  wp recover_from_log Q k.
Proof.
  intros H Hh Hp Hf Hdv Hst Hlen Hrg Hle [D1 D2 D3 D4 D5] HQ. unfold LOGSIZE, MAXOPBLOCKS in Hrg, Hle, Hlen.
  assert (Hr : resting s) by (split; [done|]; intros n; rewrite Hp; lia). unfold recover_from_log.
  apply wp_bind, (wp_read_head p dev st bl s); [done|done|done|done|done|lia|right; lia|rewrite Hp; lia|done|done|done|].
  intros k1 rest H1 F1. set (s3 := s_installs st 0 bl s). destruct (installs_wrote st bl 0 s D5 D4) as (W3 & P3). fold s3 in W3, P3.
  assert (Hl1 : log_is st dev bl (k_log k1)).
  { rewrite (frame_log _ _ F1). split; cbn; [done|done|done|now exists rest|done|lia]. }
  apply wp_bind, (wp_install_trans p dev st bl s); [done|done|done|done|done| | |right; done|].
  - intros j _. rewrite Hp. lia.
  - apply Forall_forall. intros h _. rewrite Hp. lia.
  - intros k2 H2 F2. fold s3 in H2. apply wp_bind, wp_modify.
    apply (wp_write_head p dev st [] s3); [now apply stored_upd_log| | | | |].
    + apply (resting_wrote _ _ _ W3); [|done]. intros n. rewrite P3, Hp. case_decide; [apply u32_range|lia].
    + cbn. rewrite (frame_log _ _ F2). exact (log_is_cleared _ _ _ _ Hl1).
    + right. unfold s3. pose proof (installs_free_ge st bl 0 s (proj2 Hr)). lia.
    + rewrite P3, Hp, decide_False; [lia|]. intros Hin. rewrite Forall_forall in D5. specialize (D5 st Hin). unfold outside in D5. lia.
    + intros k3 H3 F3. apply (HQ _ k3 H3).
      * apply (wrote_trans _ _ _ s3 _ W3). rewrite (wr_view _ _ _ W3), replay_notin; [apply wrote_put|].
        rewrite home_trace_keys. intros Hin. rewrite Forall_forall in D5. specialize (D5 st Hin). unfold outside in D5. lia.
      * intros n. cbn. rewrite P3, Hp. done.
Qed.

(** ** Crashes *)

(** What the blocks are after a crash that left the writes [ws] on the disk and the
    recovery that follows it. *)
Definition recovered (st : Z) (d : Z -> list Z) : Z -> list Z := replay d (recover_trace st (decode_head (d st)) d).

(** The blocks outside the log after the transaction [bl] with contents [V]. *)
Definition committed (bl : list Z) (V d0 : Z -> list Z) (n : Z) : list Z := if decide (n ∈ bl) then V n else d0 n.

Lemma prefix_app_cases {A} (w a b : list A) :
  w `prefix_of` a ++ b -> w `prefix_of` a \/ exists w', w' <> [] /\ w = a ++ w' /\ w' `prefix_of` b.
Proof.
  revert w. induction a as [|x a IH]; intros w H.
  - destruct w as [|y w]; [left; apply prefix_nil|right]. exists (y :: w). done.
  - destruct w as [|y w]; [left; apply prefix_nil|]. destruct H as [t [= <- H]].
    destruct (IH w) as [H'|(w' & H1 & -> & H2)]; [now exists t|left; now apply prefix_cons|right; eauto].
Qed.

Section crash.
Context (st : Z) (bl : list Z) (V d0 : Z -> list Z).
Hypotheses (Hnodup : NoDup bl) (Hout : Forall (outside st (length bl)) bl) (Hhome : Forall (fun b => 0 <= b < 2 ^ 31) bl).
Hypotheses (Hfits : (lh_off (length bl) <= length (V st))%nat) (Hlen : Z.of_nat (length bl) < 2 ^ 31).
Hypotheses (Hclean : header_is st [] (d0 st)).

Lemma length_log_trace : forall i l, length (log_trace st i l V) = length l.
Proof. intros i l. revert i. induction l; intros i; cbn; auto. Qed.

Lemma header_encoded : header_is st bl (encode_head bl (V st)).
Proof.
  assert (E : decode_head (encode_head bl (V st)) = bl) by now apply decode_encode.
  split; [done| |done|done|done]. unfold decode_n, encode_head.
  assert (Hl0 : length (put32 (V st) 0 (Z.of_nat (length bl))) = length (V st)) by (apply length_put32; unfold lh_off in *; lia).
  rewrite get32_put_blocks_before; [|unfold lh_off; lia|rewrite Hl0; exact Hfits].
  rewrite get32_put32 by (unfold lh_off in *; lia). rewrite sgn_u32, i32_small by lia. done.
Qed.

Lemma header_cleared d : (4 <= length d)%nat -> header_is st [] (encode_head [] d).
Proof.
  intros H. split; [now apply decode_encode_nil| |constructor|constructor|constructor].
  clear - H. unfold decode_n, encode_head. cbn [put_blocks length]. rewrite get32_put32 by lia. done.
Qed.

Lemma length_encoded : length (encode_head bl (V st)) = length (V st).
Proof.
  unfold encode_head. assert (E : length (put32 (V st) 0 (Z.of_nat (length bl))) = length (V st)) by (apply length_put32; unfold lh_off in *; lia).
  rewrite length_put_blocks; rewrite E; done.
Qed.

Lemma st_not_home : st ∉ bl.
Proof. intros Hin. rewrite Forall_forall in Hout. specialize (Hout st Hin). unfold outside in Hout. lia. Qed.

(** Recovery with an empty header changes no block but the header. *)
Lemma recovered_empty d n : header_is st [] (d st) -> n <> st -> recovered st d n = d n.
Proof. intros [E _ _ _ _] Hn. unfold recovered. rewrite E. cbn. now rewrite upd_ne. Qed.

(** Before the header is written: the old blocks. *)
Lemma crash_before ws n :
  ws `prefix_of` log_trace st 0 bl V -> outside st (length bl) n ->
  header_is st [] (replay d0 ws st) /\ recovered st (replay d0 ws) n = d0 n.
Proof.
  intros [w' E] Hn.
  assert (K : forall m, ~ st < m <= st + Z.of_nat (length bl) -> replay d0 ws m = d0 m).
  { intros m Hm. apply replay_notin. intros Hin. apply Hm.
    enough (st + Z.of_nat 0 < m <= st + Z.of_nat (0 + length bl)) by lia. apply (log_trace_keys st bl V 0 m). rewrite E, map_app. apply elem_of_app. now left. }
  assert (Hh : header_is st [] (replay d0 ws st)) by (rewrite K by lia; done). unfold outside in Hn.
  split; [done|]. rewrite recovered_empty by (done || lia). apply K. lia.
Qed.

(** Between the header and its clearing: the new blocks, however many of them were
    already installed. *)
Lemma crash_between ws n :
  ws `prefix_of` map (fun h => (h, V h)) bl -> outside st (length bl) n ->
  let d := replay d0 (log_trace st 0 bl V ++ [(st, encode_head bl (V st))] ++ ws) in
  header_is st bl (d st) /\ recovered st d n = committed bl V d0 n.
Proof.
  intros [w' E] Hn d. unfold outside in Hn.
  assert (Hws : forall m, m ∈ map fst ws -> m ∈ bl).
  { intros m Hm. rewrite <- (map_id bl). rewrite <- (map_map (fun h => (h, V h)) fst), E, map_app. apply elem_of_app. now left. }
  assert (Est : d st = encode_head bl (V st)).
  { unfold d. rewrite !replay_app, replay_notin by (intros Hin; now apply st_not_home, Hws). cbn. apply upd_eq. }
  assert (Elog : forall j h, bl !! j = Some h -> d (st + Z.of_nat (0 + j) + 1) = V h).
  { intros j h Hj. pose proof (lookup_lt_Some _ _ _ Hj). unfold d. rewrite !replay_app, replay_notin.
    - cbn. rewrite upd_ne by lia. now apply log_trace_value.
    - intros Hin. apply Hws in Hin. rewrite Forall_forall in Hout. specialize (Hout _ Hin). unfold outside in Hout. lia. }
  split; [rewrite Est; exact header_encoded|]. unfold recovered, committed. rewrite Est, (hd_blocks _ _ _ header_encoded).
  unfold recover_trace. rewrite (home_trace_values st d bl 0 V Elog), replay_app. cbn. rewrite upd_ne by lia.
  case_decide as Hin.
  - apply replay_in; [rewrite map_map, map_id; done|]. apply list_elem_of_fmap. exists n. done.
  - rewrite replay_notin by (rewrite map_map, map_id; done). unfold d. rewrite !replay_app, replay_notin by auto.
    cbn. rewrite upd_ne by lia. apply outside_replay. lia.
Qed.

(** After the header is cleared: the new blocks. *)
Lemma crash_after n :
  outside st (length bl) n ->
  let d := replay d0 (commit_trace st bl V) in header_is st [] (d st) /\ recovered st d n = committed bl V d0 n.
Proof.
  intros Hn d. unfold outside in Hn.
  assert (Est : d st = encode_head [] (encode_head bl (V st))) by (unfold d, commit_trace; rewrite !replay_app; cbn; apply upd_eq).
  assert (Hh : header_is st [] (d st)).
  { rewrite Est. apply header_cleared. rewrite length_encoded. unfold lh_off in Hfits. lia. }
  split; [done|]. rewrite recovered_empty by (done || lia). unfold d, commit_trace, committed. rewrite !replay_app. cbn. rewrite upd_ne by lia.
  case_decide as Hin.
  - apply replay_in; [rewrite map_map, map_id; done|]. apply list_elem_of_fmap. exists n. done.
  - rewrite replay_notin by (rewrite map_map, map_id; done). rewrite upd_ne by lia. apply outside_replay. lia.
Qed.

(** Every prefix of the writes of a commit. *)
Lemma crash_cases ws :
  ws `prefix_of` commit_trace st bl V ->
  exists bl', header_is st bl' (replay d0 ws st) /\ (length bl' <= length bl)%nat /\
    forall n, outside st (length bl) n ->
      recovered st (replay d0 ws) n = if decide (length ws <= length bl)%nat then d0 n else committed bl V d0 n.
Proof.
  assert (Hst : outside st (length bl) (st - 1)) by (unfold outside; lia).
  intros Hp. unfold commit_trace in Hp. apply prefix_app_cases in Hp as [Hp|(w & Hw & -> & Hp)].
  { pose proof (prefix_length _ _ Hp) as Hl. rewrite length_log_trace in Hl. exists [].
    split; [now apply (crash_before ws (st - 1))|]. split; [cbn; lia|].
    intros n Hn. rewrite decide_True by done. now apply crash_before. }
  destruct w as [|x w]; [done|]. destruct Hp as [t [= <- Hp]].
  assert (Hlen' : forall w, (length (log_trace st 0 bl V ++ (st, encode_head bl (V st)) :: w) <= length bl)%nat -> False).
  { intros w' Hw'. rewrite length_app, length_log_trace in Hw'. cbn in Hw'. lia. }
  assert (Hp' : w `prefix_of` map (fun h => (h, V h)) bl ++ [(st, encode_head [] (encode_head bl (V st)))]) by now exists t.
  apply prefix_app_cases in Hp' as [Hp'|(w' & Hw' & -> & [t' E])].
  - exists bl. split; [now apply (crash_between w (st - 1))|]. split; [done|]. intros n Hn.
    rewrite decide_False by (intros H; exact (Hlen' _ H)). now apply crash_between.
  - destruct w' as [|y w']; [done|]. injection E as <- E. symmetry in E. apply app_eq_nil in E as [-> _].
    exists []. split; [now apply (crash_after (st - 1))|]. split; [cbn; lia|]. intros n Hn.
    rewrite decide_False by (intros H; exact (Hlen' _ H)). now apply crash_after.
Qed.
End crash.

(** Recovery can itself be interrupted: starting again ends with the same blocks. *)
Lemma recovered_value st bl d n :
  header_is st bl (d st) -> outside st (length bl) n ->
  recovered st d n = replay d (home_trace st 0 bl d) n.
Proof.
  intros [E _ _ _ _] Hn. unfold recovered, recover_trace. rewrite E, replay_app. cbn. unfold outside in Hn. now rewrite upd_ne by lia.
Qed.

Lemma recover_again st bl d ws n :
  header_is st bl (d st) -> (4 <= length (d st))%nat -> outside st (length bl) n -> ws `prefix_of` recover_trace st bl d ->
  recovered st (replay d ws) n = recovered st d n.
Proof.
  intros Hh Hl Hn Hp. pose proof Hh as [E _ _ Hd Ho].
  assert (Hst : st ∉ bl) by (intros Hin; rewrite Forall_forall in Ho; specialize (Ho st Hin); unfold outside in Ho; lia).
  rewrite (recovered_value st bl d n Hh Hn). unfold recover_trace in Hp. apply prefix_app_cases in Hp as [Hp|(w & Hw & -> & Hp)].
  - assert (K : forall m, m ∈ map fst ws -> m ∈ bl).
    { intros m Hm. destruct Hp as [t Et]. rewrite <- (home_trace_keys st d bl 0), Et, map_app. apply elem_of_app. now left. }
    assert (Est : replay d ws st = d st) by (apply replay_notin; intros Hin; now apply Hst, K).
    rewrite (recovered_value st bl) by (done || now rewrite Est).
    assert (Et : home_trace st 0 bl (replay d ws) = home_trace st 0 bl d).
    { apply home_trace_ext. intros j Hj. apply replay_notin. intros Hin. apply K in Hin. rewrite Forall_forall in Ho.
      specialize (Ho _ Hin). unfold outside in Ho. lia. }
    rewrite Et. destruct (decide (n ∈ bl)) as [Hin|Hin].
    + assert (exists v, (n, v) ∈ home_trace st 0 bl d) as [v Hv].
      { rewrite <- (home_trace_keys st d bl 0) in Hin. apply list_elem_of_fmap in Hin as ([m v] & -> & Hv). now exists v. }
      assert (NoDup (map fst (home_trace st 0 bl d))) by now rewrite home_trace_keys.
      now rewrite !(replay_in _ _ _ v) by done.
    + assert (n ∉ map fst (home_trace st 0 bl d)) by now rewrite home_trace_keys.
      rewrite !(replay_notin (home_trace st 0 bl d)) by done. apply replay_notin. auto.
  - destruct w as [|x w]; [done|]. destruct Hp as [t [= <- Hp]]. symmetry in Hp. apply app_eq_nil in Hp as [-> _].
    unfold outside in Hn. rewrite recovered_empty; [|rewrite replay_app; cbn; rewrite upd_eq; now apply header_cleared|lia].
    rewrite replay_app. cbn. now rewrite upd_ne by lia.
Qed.

Lemma prefix_header st bl d ws :
  header_is st bl (d st) -> (4 <= length (d st))%nat -> ws `prefix_of` recover_trace st bl d ->
  exists bl', header_is st bl' (replay d ws st) /\ (length bl' <= length bl)%nat.
Proof.
  intros Hh Hl Hp. pose proof Hh as [E _ _ Hd Ho]. unfold recover_trace in Hp. apply prefix_app_cases in Hp as [[t Hp]|(w & Hw & -> & Hp)].
  - exists bl. split; [|done]. rewrite replay_notin; [done|]. intros Hin. rewrite Forall_forall in Ho. specialize (Ho st).
    unfold outside in Ho. enough (st ∈ bl) by (specialize (Ho ltac:(done)); lia).
    rewrite <- (home_trace_keys st d bl 0), Hp, map_app. apply elem_of_app. now left.
  - exists []. split; [|cbn; lia]. destruct w as [|x w]; [done|]. destruct Hp as [t [= <- Hp]]. symmetry in Hp.
    apply app_eq_nil in Hp as [-> _]. rewrite replay_app. cbn. rewrite upd_eq. now apply header_cleared.
Qed.

Lemma home_trace_in st V : forall bl i j h, bl !! j = Some h -> (h, V (st + Z.of_nat (i + j) + 1)) ∈ home_trace st i bl V.
Proof.
  induction bl as [|x bl IH]; intros i j h Hj; [done|]. destruct j as [|j]; cbn [lookup list_lookup] in Hj.
  - injection Hj as ->. rewrite Nat.add_0_r. constructor.
  - replace (i + S j)%nat with (S i + j)%nat by lia. right. now apply IH.
Qed.

(** A machine that starts on the disk [d]: an empty cache, and [log] as [initlog]
    leaves it before [recover_from_log]. *)
Record rebooted (p : nat) (dev st : Z) (d : Z -> list Z) (k : kernel) : Prop := {
  rb_stored : stored p dev (fresh_store d) k;
  rb_dev : l_dev (k_log k) = dev;
  rb_start : l_start (k_log k) = st;
  rb_block : length (l_block (k_log k)) = Z.to_nat LOGSIZE;
  rb_region : 0 <= st /\ st + LOGSIZE + 1 < 2 ^ 31 }.

Lemma wp_reboot p dev st d bl k Q :
  rebooted p dev st d k -> header_is st bl (d st) -> (length bl < Z.to_nat LOGSIZE)%nat ->
  (forall s' k', stored p dev s' k' -> wrote (recover_trace st bl d) (fresh_store d) s' ->
     (forall n, s_pins s' n = if decide (n ∈ bl) then 2 ^ 32 - 1 else 0) -> Q tt k') ->
  wp recover_from_log Q k.
Proof.
  intros [H1 H2 H3 H4 H5] Hh Hn HQ. apply (wp_recover p dev st bl (fresh_store d)); [done|done|done| |done|done|done|done| |done|done].
  - cbn. unfold NBUF, LOGSIZE, MAXOPBLOCKS in *. lia.
  - lia.
Qed.

(** C4: commit is atomic with respect to crashes.  [commit] of a transaction whose
    blocks are pinned in the cache returns with the new contents of all of them on
    the disk and nothing else changed outside the log.  If the machine stops after
    any number of the disk writes [commit] makes, in order, and the next boot runs
    [recover_from_log] on what the disk then holds, the blocks outside the log are
    either all as before the commit or all as after it. *)
Theorem commit_crash_safe p dev st bl s k :
  stored p dev s k -> committable st bl s -> log_is st dev bl (k_log k) -> bl <> [] -> (length bl < Z.to_nat LOGSIZE)%nat ->
  header_is st [] (s_disk s st) -> length (s_view s st) = Z.to_nat BSIZE ->
  wp commit (fun _ k' => exists tr, k_writes k' = k_writes k ++ tr /\
    (forall n, outside st (length bl) n -> k_disk k' n = committed bl (s_view s) (k_disk k) n) /\
    forall ws, ws `prefix_of` tr -> forall q kb, rebooted q dev st (replay (k_disk k) ws) kb ->
      wp recover_from_log (fun _ kr =>
        (forall n, outside st (length bl) n -> k_disk kr n = k_disk k n) \/
        (forall n, outside st (length bl) n -> k_disk kr n = committed bl (s_view s) (k_disk k) n)) kb) k.
Proof.
  intros H C Hl Hne Hlen Hh Hsz. apply (wp_commit p dev st bl s); [done..|]. intros s' k' H' W _ _.
  exists (commit_trace st bl (s_view s)). pose proof C as [_ C2 C3 _ _ _].
  assert (Hd0 : header_is st [] (k_disk k st)) by now rewrite (st_disk _ _ _ _ H).
  assert (Hfit : (lh_off (length bl) <= length (s_view s st))%nat).
  { rewrite Hsz. unfold lh_off, LOGSIZE, MAXOPBLOCKS, BSIZE in *. lia. }
  assert (Hsmall : Z.of_nat (length bl) < 2 ^ 31) by (unfold LOGSIZE, MAXOPBLOCKS in *; lia).
  pose proof (crash_cases st bl (s_view s) (k_disk k) C2 C3 (li_home _ _ _ _ Hl) Hfit Hsmall Hd0) as Hcr.
  split; [|split].
  - now rewrite (st_writes _ _ _ _ H'), (wr_writes _ _ _ W), (st_writes _ _ _ _ H).
  - intros n Hn. rewrite (st_disk _ _ _ _ H'), (wr_disk _ _ _ W).
    rewrite (replay_ext _ (s_disk s) (k_disk k)) by (intros; symmetry; apply H).
    destruct (crash_after st bl (s_view s) (k_disk k) C2 Hfit n Hn) as [He <-].
    unfold outside in Hn. symmetry. apply recovered_empty; [done|lia].
  - intros ws Hws q kb Hb. destruct (Hcr ws Hws) as (bl' & Hh' & Hle & Hrec).
    apply (wp_reboot q dev st (replay (k_disk k) ws) bl'); [done|done|lia|]. intros s2 kr H2 W2 _.
    assert (E : forall n, k_disk kr n = recovered st (replay (k_disk k) ws) n).
    { intros n. rewrite (st_disk _ _ _ _ H2), (wr_disk _ _ _ W2). unfold recovered. now rewrite (hd_blocks _ _ _ Hh'). }
    destruct (decide (length ws <= length bl)%nat) as [Hd|Hd]; [left|right]; intros n Hn; rewrite E; apply Hrec, Hn.
Qed.

(** C9: recovery installs the committed transaction, and may itself be interrupted.
    With the header [bl] on the disk, [recover_from_log] copies the log blocks to
    their home blocks and clears the header; and if the machine stops after any
    number of the writes of the recovery, the blocks outside the log that a second
    recovery produces are the same. *)
Theorem recovery_correct p dev st bl d k :
  rebooted p dev st d k -> header_is st bl (d st) -> (length bl < Z.to_nat LOGSIZE)%nat -> (4 <= length (d st))%nat ->
  wp recover_from_log (fun _ k' =>
    (forall j h, bl !! j = Some h -> k_disk k' h = d (st + Z.of_nat j + 1)) /\
    (forall n, n <> st -> n ∉ bl -> k_disk k' n = d n) /\ header_is st [] (k_disk k' st) /\
    forall ws, ws `prefix_of` k_writes k' -> forall q kb, rebooted q dev st (replay d ws) kb ->
      wp recover_from_log (fun _ kr => forall n, outside st (length bl) n -> k_disk kr n = k_disk k' n) kb) k.
Proof.
  intros Hb Hh Hlen Hl. apply (wp_reboot p dev st d bl); [done..|]. intros s' k' H' W _. pose proof Hh as [_ _ _ Hd Ho].
  assert (E : forall n, k_disk k' n = replay d (recover_trace st bl d) n) by (intros n; now rewrite (st_disk _ _ _ _ H'), (wr_disk _ _ _ W)).
  assert (Hst : st ∉ bl) by (intros Hin; rewrite Forall_forall in Ho; specialize (Ho st Hin); unfold outside in Ho; lia).
  split; [|split; [|split]].
  - intros j h Hj. rewrite E. unfold recover_trace. rewrite replay_app. cbn.
    assert (Hin : h ∈ bl) by (apply list_elem_of_lookup; eauto). rewrite upd_ne by (intros ->; done).
    apply replay_in; [now rewrite home_trace_keys|]. exact (home_trace_in st d bl 0 j h Hj).
  - intros n Hn Hnb. rewrite E. unfold recover_trace. rewrite replay_app. cbn. rewrite upd_ne by done.
    apply replay_notin. now rewrite home_trace_keys.
  - rewrite E. unfold recover_trace. rewrite replay_app. cbn. rewrite upd_eq. now apply header_cleared.
  - intros ws Hws q kb Hq. rewrite (st_writes _ _ _ _ H'), (wr_writes _ _ _ W) in Hws. cbn in Hws.
    destruct (prefix_header st bl d ws Hh Hl Hws) as (bl' & Hh' & Hle).
    apply (wp_reboot q dev st (replay d ws) bl'); [done|done|lia|]. intros s2 kr H2 W2 _ n Hn.
    rewrite (st_disk _ _ _ _ H2), (wr_disk _ _ _ W2), E. cbn [s_disk fresh_store].
    transitivity (recovered st (replay d ws) n); [unfold recovered; now rewrite (hd_blocks _ _ _ Hh')|].
    rewrite (recover_again st bl d ws n Hh Hl Hn Hws). unfold recovered. now rewrite (hd_blocks _ _ _ Hh).
Qed.

(** Recovery gives up a reference to each home block that nobody took: the counts
    of their buffers wrap around. *)
Lemma recovery_wraps_refcnt p dev st bl d k :
  rebooted p dev st d k -> header_is st bl (d st) -> (length bl < Z.to_nat LOGSIZE)%nat ->
  wp recover_from_log (fun _ k' => forall h, h ∈ bl ->
    exists b, (b < NBUF)%nat /\ is_block dev h k' b = true /\ b_refcnt (get_buf b k') = 2 ^ 32 - 1) k.
Proof.
  intros Hb Hh Hl. apply (wp_reboot p dev st d bl); [done..|]. intros s' k' H' _ Hp h Hin.
  destruct (find_buf (is_block dev h k') (seq 0 NBUF)) as [b|] eqn:E.
  - apply find_buf_some in E as [E1 E2]. apply elem_of_seq in E1. exists b. split; [lia|]. split; [done|].
    assert (b_dev (get_buf b k') = dev /\ b_blockno (get_buf b k') = h) as [F1 F2] by (unfold is_block in E2; lia).
    rewrite (st_pins _ _ _ _ H' b) by (done || lia). now rewrite F2, Hp, decide_True.
  - rewrite find_buf_none in E. specialize (Hp h). rewrite decide_True in Hp by done.
    rewrite (st_unpinned _ _ _ _ H' h) in Hp; [done|]. intros b Hbn. apply E, elem_of_seq. lia.
Qed.

(** ** Transactions *)

(** An operation is admitted. *)
Lemma wp_begin_op k Q :
  ready k -> lock_free LK_log k -> l_committing (k_log k) = false ->
  l_n (k_log k) + (l_outstanding (k_log k) + 1) * MAXOPBLOCKS <= LOGSIZE ->
  (forall k', noise (upd_log (set_l_outstanding (l_outstanding (k_log k) + 1)) k) k' -> Q tt k') ->
  wp begin_op Q k.
Proof.
  intros Hr Hf E1 E2 HQ. unfold begin_op. apply wp_bind, wp_acquire; [done|]. unfold begin_op_loop. apply wp_bind, wp_gets.
  change (k_log (acquired LK_log k)) with (k_log k). rewrite E1, (proj2 (Z.ltb_ge _ _) E2). apply wp_bind, wp_modify.
  eapply (wp_release LK_log k (upd_log _ (acquired LK_log k))); [done|done|done|done|apply noise_refl|].
  intros k' Hn. apply HQ. destruct k; exact Hn.
Qed.

(** [begin_op] reserves log space or waits.  When no commit is running and the
    log has room for [MAXOPBLOCKS] more blocks for every operation in progress
    including this one, the operation is admitted; otherwise the process gives up
    the CPU, asleep on the log, with the log unchanged. *)
Theorem begin_op_reserves p k :
  idle k -> h_proc (k_hart k) = Some p -> table_ok k -> (p < NPROC)%nat ->
  let l := k_log k in
  if l_committing l || (LOGSIZE <? l_n l + (l_outstanding l + 1) * MAXOPBLOCKS)
  then begin_op k = Susp Swtch (asleep p CH_log LK_log (acquired LK_log k))
  else wp begin_op (fun _ k' => noise (upd_log (set_l_outstanding (l_outstanding l + 1)) k) k' /\
         l_n (k_log k') + l_outstanding (k_log k') * MAXOPBLOCKS <= LOGSIZE) k.
Proof.
  intros [[Hr Hf] Hz] Hp Ht Hpn l.
  assert (Hs : sleep CH_log LK_log (acquired LK_log k) = Susp Swtch (asleep p CH_log LK_log (acquired LK_log k))).
  { rewrite (sleep_run p); [| | |cbn; lia|unfold table_ok in Ht; cbn; lia|done| |].
    - cbn. now rewrite Hz.
    - now apply acquired_ready.
    - done.
    - apply acquired_held.
    - apply acquired_free; [done|apply Hf]. }
  assert (Eb : begin_op k = begin_op_loop (acquired LK_log k)) by (unfold begin_op; kstep (acquire_run LK_log k (Hf LK_log)); done).
  destruct (l_committing l || _) eqn:Ec.
  - rewrite Eb. unfold begin_op_loop, bind at 1, gets. cbn [k_log acquired upd_lock set_k_locks upd_hart set_k_hart]. fold l.
    destruct (l_committing l); [exact Hs|]. cbn [orb] in Ec. rewrite Ec. exact Hs.
  - apply orb_false_iff in Ec as [E1 E2]. apply (wp_begin_op k _ Hr (Hf _)); [done|fold l; lia|]. intros k' Hn.
    split; [done|]. rewrite (noise_eq k_log _ _ ltac:(done) Hn). cbn. fold l. lia.
Qed.

Lemma log_find_spec bl rest n :
  0 <= n < 2 ^ 31 -> Forall (fun b => 0 <= b < 2 ^ 31) bl ->
  if decide (n ∈ bl) then (log_find (bl ++ rest) (length bl) n < length bl)%nat /\ bl !! log_find (bl ++ rest) (length bl) n = Some n
  else log_find (bl ++ rest) (length bl) n = length bl.
Proof.
  intros Hn. induction bl as [|x bl IH]; intros Hb; [case_decide as H; [now apply elem_of_nil in H|now destruct rest]|].
  apply Forall_cons in Hb as [Hx Hb]. specialize (IH Hb). cbn [log_find app length]. rewrite u32_small by lia.
  destruct (Z.eqb_spec x n) as [->|Hne].
  - rewrite decide_True by constructor. cbn. split; [lia|done].
  - destruct (decide (n ∈ bl)) as [Hin|Hin].
    + rewrite decide_True by now constructor. cbn. destruct IH. split; [lia|done].
    + rewrite decide_False by (intros [->|]%elem_of_cons; done). now rewrite IH.
Qed.

(** The in-memory header after block [n] is logged. *)
Definition absorbed (n : Z) (bl : list Z) : list Z := if decide (n ∈ bl) then bl else bl ++ [n].

Lemma absorbed_nodup n bl : NoDup bl -> NoDup (absorbed n bl) /\ n ∈ absorbed n bl.
Proof.
  intros H. unfold absorbed. case_decide; [done|]. split; [|set_solver]. apply NoDup_app.
  split; [done|]. split; [set_solver|apply NoDup_singleton].
Qed.

Lemma upd_log_noise f k k' : noise k k' -> noise (upd_log f k) (upd_log f k').
Proof. apply (noise_update (upd_log f)); done. Qed.

(** Storing the block number: entry [i] of [log.lh.block]. *)
Lemma log_is_stored st dev bl l n i :
  log_is st dev bl l -> 0 <= n < 2 ^ 31 -> bl !! i = Some n -> log_is st dev bl (set_l_block (<[i := i32 n]> (l_block l)) l).
Proof.
  intros [H1 H2 H3 (rest & H4) H5 H6] Hn Hi. split; [done|done|done| |done|done]. exists rest. cbn.
  rewrite H4, i32_small, insert_app_l by (done || exact (lookup_lt_Some _ _ _ Hi)). now rewrite list_insert_id.
Qed.

Lemma log_is_appended st dev bl l n :
  log_is st dev bl l -> 0 <= n < 2 ^ 31 -> (length bl < length (l_block l))%nat -> st + Z.of_nat (length bl) + 2 < 2 ^ 31 ->
  log_is st dev (bl ++ [n]) (set_l_n (l_n l + 1) (set_l_block (<[length bl := i32 n]> (l_block l)) l)).
Proof.
  intros [H1 H2 H3 (rest & H4) H5 H6] Hn Hlen Hr. split; cbn; [done|done| | | |].
  - rewrite length_app, H3. cbn. lia.
  - rewrite H4 in *. rewrite length_app in Hlen. destruct rest as [|x rest]; [cbn in Hlen; lia|]. exists rest.
    rewrite i32_small, insert_app_r_alt, Nat.sub_diag by lia. cbn. now rewrite <- app_assoc.
  - apply Forall_app. split; [done|]. now apply Forall_singleton.
  - rewrite length_app. cbn. lia.
Qed.

(** The log's state but for the header, and all that [log_write] leaves alone. *)
Definition same_log (l l' : logst) : Prop :=
  l_outstanding l' = l_outstanding l /\ l_size l' = l_size l /\ l_committing l' = l_committing l /\ length (l_block l') = length (l_block l).
Definition log_frame (k k' : kernel) : Prop :=
  exists l bufs, noise (set_k_log l (set_k_bufs bufs k)) k' /\ same_log (k_log k) l.

Lemma wp_log_write p dev st bl s b n k Q :
  stored p dev s k -> log_is st dev bl (k_log k) -> NoDup bl -> s_held s !! b = Some n -> 0 <= n < 2 ^ 31 ->
  s_pins s n + 1 < 2 ^ 32 -> length (l_block (k_log k)) = Z.to_nat LOGSIZE -> st + LOGSIZE + 1 < 2 ^ 31 ->
  let l := k_log k in
  (LOGSIZE <=? l_n l) || (l_size l - 1 <=? l_n l) = false -> l_outstanding l <? 1 = false ->
  (forall k', log_is st dev (absorbed n bl) (k_log k') -> stored p dev (if decide (n ∈ bl) then s else s_repin n 1 s) k' ->
     log_frame k k' -> Q tt k') ->
  wp (log_write b) Q k.
Proof.
  intros H Hl Hd Hb Hn Hpin Hlen Hst l E1 E2 HQ. fold l in Hl, Hlen. pose proof (stored_data _ _ _ _ _ _ H Hb) as (_ & Ebn & _).
  unfold log_write. apply wp_bind, wp_gets. fold l. rewrite E1, E2. apply orb_false_iff in E1 as [E1 _].
  pose proof (st_proc _ _ _ _ H) as Hp. apply wp_bind, wp_acquire; [eauto with kernel|].
  apply wp_bind, wp_gets, wp_bind, wp_gets. change (k_log (acquired LK_log k)) with l.
  change (get_buf b (acquired LK_log k)) with (get_buf b k). rewrite Ebn, (li_n _ _ _ _ Hl), Nat2Z.id.
  destruct (li_block _ _ _ _ Hl) as [rest Er].
  pose proof (log_find_spec bl rest n Hn (li_home _ _ _ _ Hl)) as Hfind. rewrite <- Er in Hfind.
  apply wp_bind. unfold set_lh_block at 1. apply wp_bind, wp_gets. change (k_log (acquired LK_log k)) with l.
  assert (Hnl : (length bl < Z.to_nat LOGSIZE)%nat).
  { rewrite (li_n _ _ _ _ Hl) in E1. unfold LOGSIZE, MAXOPBLOCKS in *. lia. }
  unfold absorbed in HQ. case_decide as Hin.
  - destruct Hfind as [Hlt Hlk]. rewrite decide_True by lia. apply wp_modify.
    rewrite (proj2 (Z.eqb_neq _ _)) by lia. cbn [when]. apply wp_bind, wp_ret.
    eapply (wp_release LK_log k (upd_log _ (acquired LK_log k))); [eauto with kernel|eauto with kernel|done|done|apply noise_refl|].
    intros k' Hnn. set (f := set_l_block _) in Hnn. assert (Hn' : noise (upd_log f k) k') by (destruct k; exact Hnn). apply HQ.
    + rewrite (noise_eq k_log _ _ ltac:(done) Hn'). apply (log_is_stored st dev bl l n _ Hl Hn Hlk).
    + exact (stored_noise _ _ _ _ _ Hn' (stored_upd_log _ _ _ _ _ H)).
    + exists (f l), (k_bufs k). split; [destruct k; exact Hn'|]. split_and!; [done|done|done|]. apply length_insert.
  - rewrite Hfind. rewrite decide_True by lia. apply wp_modify. rewrite Z.eqb_refl. cbn [when]. apply wp_bind, wp_bind.
    set (k1 := upd_log _ (acquired LK_log k)).
    apply wp_refcnt; [now apply acquired_ready; eauto with kernel|apply acquired_free; [done|eauto with kernel]|].
    intros k2 Hn2. apply wp_modify. apply (upd_log_noise (fun l => set_l_n (l_n l + 1) l)) in Hn2.
    eapply (wp_release LK_log k _); [eauto with kernel|eauto with kernel| | |exact Hn2|]; [done|done|].
    intros k' Hnn. set (f := set_l_block (<[length bl := i32 n]> (l_block l))).
    assert (Hn' : noise (upd_log (fun l => set_l_n (l_n l + 1) (f l)) (upd_buf b (buf_ref 1) k)) k') by (destruct k; exact Hnn). apply HQ.
    + rewrite (noise_eq k_log _ _ ltac:(done) Hn'). apply (log_is_appended st dev bl l n Hl Hn); [lia|]. unfold LOGSIZE, MAXOPBLOCKS in *. lia.
    + apply (stored_noise _ _ _ _ _ Hn'), stored_upd_log. apply stored_repin; [done|done| |]; pose proof (st_pin_range _ _ _ _ _ _ H Hb); lia.
    + exists (set_l_n (l_n l + 1) (f l)), (k_bufs (upd_buf b (buf_ref 1) k)). split; [destruct k; exact Hn'|]. split_and!; [done|done|done|]. apply length_insert.
Qed.

(** [log_write] records a modified block in the running transaction.  The block is
    in the in-memory header afterwards, exactly once however often it is written
    (absorption), and its buffer is pinned in the cache when it is first recorded,
    not again after that; a full log, and a call outside of a transaction, panic. *)
Theorem log_write_records p dev st bl s b n k :
  stored p dev s k -> log_is st dev bl (k_log k) -> NoDup bl -> s_held s !! b = Some n -> 0 <= n < 2 ^ 31 ->
  s_pins s n + 1 < 2 ^ 32 -> length (l_block (k_log k)) = Z.to_nat LOGSIZE -> st + LOGSIZE + 1 < 2 ^ 31 ->
  let l := k_log k in
  if (LOGSIZE <=? l_n l) || (l_size l - 1 <=? l_n l) then log_write b k = Panic "too big a transaction" k
  else if l_outstanding l <? 1 then log_write b k = Panic "log_write outside of trans" k
  else wp (log_write b) (fun _ k' =>
         log_is st dev (absorbed n bl) (k_log k') /\ NoDup (absorbed n bl) /\ n ∈ absorbed n bl /\
         stored p dev (if decide (n ∈ bl) then s else s_repin n 1 s) k' /\
         l_outstanding (k_log k') = l_outstanding l) k.
Proof.
  intros H Hl Hd Hb Hn Hpin Hlen Hst l. fold l in Hl, Hlen.
  destruct ((LOGSIZE <=? l_n l) || _) eqn:E1; [unfold log_write, bind, gets; fold l; now rewrite E1|].
  destruct (l_outstanding l <? 1) eqn:E2; [unfold log_write, bind, gets; fold l; now rewrite E1, E2|].
  destruct (absorbed_nodup n bl Hd) as [A1 A2].
  apply (wp_log_write p dev st bl s b n k); try done. intros k' H1 H2 (l' & bufs & Hnn & Ho & _). split_and!; try done.
  rewrite (noise_eq k_log _ _ ltac:(done) Hnn). exact Ho.
Qed.

Definition no_waiter (k : kernel) : Prop :=
  Forall (fun pr => ~ (p_state pr = SLEEPING /\ p_chan pr = CH_log)) (k_procs k).

Lemma wake_no_waiter ps k : k_procs k = map (wake CH_log) ps -> no_waiter k.
Proof.
  unfold no_waiter. intros ->. apply Forall_forall. intros pr Hin. apply list_elem_of_fmap in Hin as (x & -> & _). unfold wake.
  destruct (bool_decide (p_state x = SLEEPING) && bool_decide (p_chan x = CH_log)) eqn:E; [now intros [? _]|].
  intros [H1 H2]. rewrite !bool_decide_true in E by done. done.
Qed.

(** A section under [log.lock] that changes the log and wakes the waiters. *)
Lemma wp_log_wakeup p f k Q :
  in_proc p k ->
  (forall k', noise (set_k_procs (map (wake CH_log) (k_procs k)) (upd_log f k)) k' -> Q tt k') ->
  wp (acquire LK_log ;;; modify (upd_log f) ;;; wakeup CH_log ;;; release LK_log) Q k.
Proof.
  intros Hp HQ. apply wp_bind, wp_acquire; [eauto with kernel|]. apply wp_bind, wp_modify, wp_bind, wp_wakeup.
  - now apply acquired_ready; eauto with kernel.
  - intros q. apply acquired_free; [done|eauto with kernel].
  - exact (ip_table _ _ Hp).
  - intros k1 Hn1. eapply (wp_release LK_log k _); [eauto with kernel|eauto with kernel| | |exact Hn1|]; [done|done|].
    intros k' Hn. apply HQ. destruct k. exact Hn.
Qed.

Lemma stored_woken p dev s k ch : stored p dev s k -> stored p dev s (set_k_procs (map (wake ch) (k_procs k)) k).
Proof.
  intros H. apply (stored_ext p dev s k); [done..| | |done].
  - refine (in_proc_same p k (set_k_procs (map (wake ch) (k_procs k)) k) eq_refl eq_refl _ (st_proc _ _ _ _ H)). apply length_map.
  - unfold get_proc. cbn. rewrite !list_lookup_total_alt, list_lookup_fmap. destruct (k_procs k !! p) as [pr|]; [|done].
    cbn. unfold wake. now destruct (_ && _).
Qed.

(** The disk writes of a commit; a transaction without blocks makes none. *)
Definition op_trace (st : Z) (bl : list Z) (V : Z -> list Z) : list (Z * list Z) :=
  match bl with [] => [] | _ => commit_trace st bl V end.

Lemma op_trace_outside st bl V d n :
  NoDup bl -> Forall (outside st (length bl)) bl -> outside st (length bl) n -> replay d (op_trace st bl V) n = committed bl V d n.
Proof.
  intros C2 C3 Hn. unfold op_trace. destruct bl as [|b bl']; [unfold committed; now rewrite decide_False by apply not_elem_of_nil|].
  remember (b :: bl') as bl eqn:Ebl. clear Ebl. unfold commit_trace, committed. unfold outside in Hn. rewrite !replay_app. cbn. rewrite upd_ne by lia. case_decide as Hin.
  - apply replay_in; [rewrite map_map, map_id; done|]. apply list_elem_of_fmap. exists n. done.
  - rewrite replay_notin by (rewrite map_map, map_id; done). rewrite upd_ne by lia. apply outside_replay. lia.
Qed.

Lemma bio_frame_log l k k' : bio_frame k k' -> bio_frame (set_k_log l k) (set_k_log l k').
Proof.
  intros (b & h & d & w & ps & Hw & Hn). exists b, h, d, w, ps. split; [done|].
  apply (noise_update (set_k_log l)) in Hn; [exact Hn|done..].
Qed.

Lemma wp_commit_trace p dev st bl s k Q :
  stored p dev s k -> committable st bl s -> log_is st dev bl (k_log k) ->
  (forall s' k', stored p dev s' k' -> wrote (op_trace st bl (s_view s)) s s' ->
     (forall n, s_pins s' n = if decide (n ∈ bl) then s_pins s n - 1 else s_pins s n) ->
     bio_frame (upd_log (set_l_n 0) k) k' -> Q tt k') ->
  wp commit Q k.
Proof.
  intros H C Hl HQ. destruct bl as [|b bl'] eqn:Ebl.
  - pose proof (li_n _ _ _ _ Hl) as En. unfold commit. apply wp_bind, wp_gets. rewrite En. cbn [length Z.of_nat Z.ltb Z.compare when]. apply wp_ret.
    apply (HQ s k); [done|split; [done|done|now rewrite app_nil_r|done]|intros n; now rewrite decide_False by apply not_elem_of_nil|]. apply noise_frame.
    replace (upd_log (set_l_n 0) k) with k; [apply noise_refl|]. change (Z.of_nat (length [])) with 0 in En. unfold upd_log. rewrite <- En. destruct k as [? ? ? ? ? ? ? ? ? ? ? ? ? ? ? [] ? ? ? ? ? ? ? ? ? ? ? ?]. reflexivity.
  - rewrite <- Ebl in *. apply (wp_commit p dev st bl s); [done..|now subst|]. intros s' k' H' W P F. apply (HQ s' k'); [done| |done|done]. now rewrite Ebl in *.
Qed.

(** The last operation in progress ends. *)
Lemma wp_end_op_last p dev st bl s k Q :
  stored p dev s k -> committable st bl s -> log_is st dev bl (k_log k) ->
  l_committing (k_log k) = false -> l_outstanding (k_log k) = 1 ->
  (forall s' k', stored p dev s' k' -> wrote (op_trace st bl (s_view s)) s s' ->
     (forall n, s_pins s' n = if decide (n ∈ bl) then s_pins s n - 1 else s_pins s n) ->
     k_log k' = set_l_n 0 (set_l_outstanding 0 (k_log k)) -> no_waiter k' ->
     bio_frame (upd_log (fun l => set_l_n 0 (set_l_outstanding 0 l)) k) k' -> Q tt k') ->
  wp end_op Q k.
Proof.
  intros H C Hl Ec Eo HQ. pose proof (st_proc _ _ _ _ H) as Hp. set (dec := fun l => set_l_outstanding (l_outstanding l - 1) l).
  unfold end_op. apply wp_bind, wp_acquire; [eauto with kernel|]. apply wp_bind, wp_modify, wp_bind, wp_gets.
  fold dec. change (k_log (upd_log dec (acquired LK_log k))) with (dec (k_log k)). change (l_committing (dec ?l)) with (l_committing l).
  change (l_outstanding (dec ?l)) with (l_outstanding l - 1). rewrite Ec, Eo. change (1 - 1 =? 0) with true. cbn iota. apply wp_bind, wp_modify, wp_bind.
  eapply (wp_release LK_log k (upd_log (set_l_committing true) (upd_log dec (acquired LK_log k)))); [eauto with kernel|eauto with kernel|done|done|apply noise_refl|].
  intros k1 Hn1. assert (N1 : noise (upd_log (fun l => set_l_committing true (dec l)) k) k1) by (destruct k; exact Hn1).
  assert (H1 : stored p dev s k1) by exact (stored_noise _ _ _ _ _ N1 (stored_upd_log _ _ _ _ _ H)).
  assert (E1 : k_log k1 = set_l_committing true (dec (k_log k))) by exact (noise_eq k_log _ _ ltac:(done) N1).
  assert (Hl1 : log_is st dev bl (k_log k1)) by (rewrite E1; destruct Hl; split; done).
  cbn [when]. apply wp_bind, (wp_commit_trace p dev st bl s); [done..|]. intros s' k2 H2 W P F2.
  apply (wp_log_wakeup p); [apply H2|]. intros k3 N3.
  assert (E2 : k_log k2 = set_l_n 0 (k_log k1)) by now rewrite (frame_log _ _ F2).
  assert (EL : set_l_committing false (k_log k2) = set_l_n 0 (set_l_outstanding 0 (k_log k))) by (rewrite E2, E1; unfold dec; rewrite Eo; destruct (k_log k); cbn in *; now subst).
  apply (HQ s' k3); [|exact W|exact P| | |].
  - apply (stored_noise _ _ _ _ _ N3). exact (stored_woken p dev s' (upd_log _ k2) CH_log (stored_upd_log _ _ _ _ _ H2)).
  - now rewrite (noise_eq k_log _ _ ltac:(done) N3).
  - apply (wake_no_waiter (k_procs k2)). exact (noise_procs _ _ N3).
  - set (L := set_l_n 0 (set_l_outstanding 0 (k_log k))) in *. unfold upd_log in N3. rewrite EL in N3.
    apply (bio_frame_log L) in F2. apply (noise_update (set_k_log L)) in N1; [|done..].
    etrans; [apply noise_frame; exact N1|]. etrans; [exact F2|].
    apply (bio_frame_intro _ (set_k_procs (map (wake CH_log) (k_procs k2)) (set_k_log L k2))); [now destruct k2|apply woken_wake|exact N3].
Qed.

(** C31: [end_op] ends a transaction.  The last operation in progress commits: all the
    blocks of the transaction reach the disk, the log is empty, no operation is in
    progress and nobody is left waiting for the log.  An earlier one only gives its
    reservation back and wakes the waiters; nothing is written.  [end_op] during a
    commit panics. *)
Theorem end_op_correct p dev st bl s k :
  stored p dev s k -> committable st bl s -> log_is st dev bl (k_log k) ->
  let l := k_log k in
  if l_committing l then exists k', end_op k = Panic "log.committing" k'
  else if l_outstanding l =? 1 then
    wp end_op (fun _ k' => exists s', stored p dev s' k' /\ log_is st dev [] (k_log k') /\ no_waiter k' /\
      l_outstanding (k_log k') = 0 /\ l_committing (k_log k') = false /\
      forall n, outside st (length bl) n -> s_view s' n = s_view s n /\ s_disk s' n = committed bl (s_view s) (s_disk s) n) k
  else
    wp end_op (fun _ k' => stored p dev s k' /\ log_is st dev bl (k_log k') /\ no_waiter k' /\
      l_outstanding (k_log k') = l_outstanding l - 1 /\ l_committing (k_log k') = false) k.
Proof.
  intros H C Hl l. pose proof (st_proc _ _ _ _ H) as Hp. set (dec := fun l => set_l_outstanding (l_outstanding l - 1) l).
  destruct (l_committing l) eqn:Ec.
  { eexists. unfold end_op. kstep (acquire_run LK_log k (in_proc_free p k LK_log Hp)). 
    unfold bind at 1, modify at 1. unfold bind at 1, gets at 1.
    cbn [k_log upd_log set_k_log acquired upd_lock set_k_locks upd_hart set_k_hart l_committing set_l_outstanding].
    change (l_committing (k_log k)) with (l_committing l). rewrite Ec. reflexivity. }
  assert (Hld : log_is st dev bl (dec l)) by (destruct Hl; split; done).
  destruct (Z.eqb_spec (l_outstanding l) 1) as [Eo|Eo].
  - apply (wp_end_op_last p dev st bl s); [done..|]. intros s' k' H' W _ El Hw _. exists s'. rewrite El.
    split; [exact H'|]. split; [destruct Hl as [L1 L2 L3 (rest & L4) L5 L6]; split; [done|done|done|now exists (l_block l)|constructor|cbn; lia]|].
    split; [exact Hw|]. split; [done|]. split; [exact Ec|]. intros n Hn. pose proof C as [_ C2 C3 _ _ _].
    rewrite (wr_view _ _ _ W), (wr_disk _ _ _ W), !op_trace_outside by done. split; [|done]. unfold committed. now case_decide.
  - unfold end_op. apply wp_bind, wp_acquire; [eauto with kernel|]. apply wp_bind, wp_modify, wp_bind, wp_gets.
    fold dec. change (k_log (upd_log dec (acquired LK_log k))) with (dec l). change (l_committing (dec l)) with (l_committing l). change (l_outstanding (dec l)) with (l_outstanding l - 1). rewrite Ec.
    rewrite (proj2 (Z.eqb_neq (l_outstanding l - 1) 0)) by lia. cbn [when]. apply wp_bind, wp_wakeup.
    + apply acquired_ready. eauto with kernel.
    + intros q. apply acquired_free; [done|eauto with kernel].
    + exact (ip_table _ _ Hp).
    + intros k1 Hn1. apply wp_bind.
      eapply (wp_release LK_log k _); [eauto with kernel|eauto with kernel| | |exact Hn1|]; [done|done|]. intros k2 Hn2. apply wp_ret.
      assert (Hn : noise (set_k_procs (map (wake CH_log) (k_procs k)) (upd_log dec k)) k2) by (destruct k; exact Hn2).
      assert (E2 : k_log k2 = dec l) by exact (noise_eq k_log _ _ ltac:(done) Hn).
      rewrite E2. split; [|split; [done|split; [|done]]].
      * apply (stored_noise _ _ _ _ _ Hn). exact (stored_woken p dev s (upd_log dec k) CH_log (stored_upd_log _ _ _ _ _ H)).
      * apply (wake_no_waiter (k_procs k)). exact (noise_procs _ _ Hn).
Qed.

(** ** Concrete instances *)

(** Process 3 on a machine with the disk [d], the cache empty and the log [l]. *)
Definition machine (d : Z -> list Z) (l : logst) : kernel :=
  upd_log (fun _ => l) (final binit (set_k_disk d running_state)).

Lemma machine_stored d l : stored 3 1 (fresh_store d) (machine d l).
Proof.
  apply stored_upd_log.
  destruct (wp_final _ _ _ (wp_binit (set_k_disk d running_state) eq_refl zero_bufs)) as (u & Hc & _ & (F1 & F2 & F3 & F4) & _ & Hb).
  set (k := final binit (set_k_disk d running_state)) in *.
  change d with (k_disk (set_k_disk d running_state)) at 1. rewrite <- F3.
  apply (stored_fresh (rev (seq 0 NBUF))); [|lia|done|vm_compute; reflexivity|intros b Hbn; now destruct (Hb b Hbn)].
  split; [split|..].
  - unfold ready. rewrite F1. exact boot_hart_ok.
  - intros lk. now apply F4.
  - now rewrite F1.
  - unfold table_ok. now rewrite F2.
Qed.

Definition zero_block : list Z := replicate (Z.to_nat BSIZE) 0.
Definition data_block : list Z := replicate (Z.to_nat BSIZE) 7.

(** Block 50 has been changed in a transaction: cached, dirty, pinned, in the log. *)
Definition tx_log : logst := mk_logst 2 30 1 false 1 1 (50 :: replicate 29 0).
Definition tx_prog : K unit :=
  let* b := bread 1 50 in
  modify (upd_buf b (set_b_data data_block)) ;;;
  bpin b ;;;
  brelse b.
Definition tx_state : kernel := final tx_prog (machine (fun _ => zero_block) tx_log).
Definition tx_store : store :=
  mk_store (upd (fun _ => zero_block) 50 data_block) (fun _ => zero_block) [] (upd (fun _ => 0) 50 1) ∅ 29.

Lemma tx_state_stored : stored 3 1 tx_store tx_state /\ k_log tx_state = tx_log.
Proof.
  assert (W : wp tx_prog (fun _ k => stored 3 1 tx_store k /\ k_log k = tx_log) (machine (fun _ => zero_block) tx_log)).
  { unfold tx_prog. pose proof (machine_stored (fun _ => zero_block) tx_log) as H.
    assert (El : k_log (machine (fun _ => zero_block) tx_log) = tx_log) by done.
    apply wp_bind, (wp_bread_first 3 1 (fresh_store (fun _ => zero_block))); [done|split; [done|cbn; lia]|right; cbn; unfold NBUF; lia|cbn; lia|].
    intros b k1 H1 F1. apply wp_bind, wp_modify.
    assert (Hb : s_held (s_read b 50 (fresh_store (fun _ => zero_block))) !! b = Some 50) by (cbn [s_read s_held]; apply lookup_insert_eq).
    pose proof (stored_set 3 1 _ k1 b 50 data_block H1 Hb ltac:(cbn [s_read s_pins]; rewrite upd_eq; cbn; lia)) as H2.
    apply wp_bind, (wp_bpin_s 3 1 _ _ b 50 _ H2); [done|cbn [s_set s_read s_pins]; rewrite upd_eq; cbn; lia|]. intros k3 H3 F3.
    apply (wp_brelse_s 3 1 _ _ b 50 _ H3); [done|cbn [s_repin s_set s_read s_pins]; rewrite !upd_eq; cbn; lia|]. intros k4 H4 F4.
    split; [|rewrite (frame_log _ _ F4), (frame_log _ _ F3); cbn; now rewrite (frame_log _ _ F1)].
    eapply stored_proper; [|reflexivity|exact H4].
    split_and!; [done|done|done| | |]; cbn [s_release s_repin s_set s_read s_pins s_held s_free fresh_store tx_store].
    - intros n. unfold upd. repeat case_decide; done.
    - symmetry. apply delete_insert_id, lookup_empty.
    - rewrite !upd_eq. vm_compute. reflexivity. }
  destruct (wp_final _ _ _ W) as [_ H]. exact H.
Qed.

Lemma tx_committable : committable 2 [50] tx_store.
Proof.
  split; [split; [done|intros n; cbn; unfold upd; case_decide; lia]|apply NoDup_singleton|..].
  - apply Forall_singleton. unfold outside. cbn. lia.
  - apply Forall_singleton. done.
  - intros n. cbn. unfold upd. case_decide; lia.
  - cbn. lia.
Qed.

Lemma tx_log_is : log_is 2 1 [50] tx_log.
Proof. split; [done|done|done|now exists (replicate 29 0)|apply Forall_singleton; lia|cbn; lia]. Qed.

Example commit_crash_safe_witness :
  wp commit (fun _ k' => exists tr, k_writes k' = k_writes tx_state ++ tr /\
    (forall n, outside 2 1 n -> k_disk k' n = committed [50] (s_view tx_store) (k_disk tx_state) n) /\
    forall ws, ws `prefix_of` tr -> forall q kb, rebooted q 1 2 (replay (k_disk tx_state) ws) kb ->
      wp recover_from_log (fun _ kr =>
        (forall n, outside 2 1 n -> k_disk kr n = k_disk tx_state n) \/
        (forall n, outside 2 1 n -> k_disk kr n = committed [50] (s_view tx_store) (k_disk tx_state) n)) kb) tx_state.
Proof.
  destruct tx_state_stored as [H El].
  apply (commit_crash_safe 3 1 2 [50] tx_store tx_state H tx_committable); [rewrite El; exact tx_log_is|done|..].
  - vm_compute. lia.
  - split; [vm_compute; reflexivity|vm_compute; reflexivity|constructor|constructor|constructor].
  - vm_compute. reflexivity.
Defined.

(** The disk after a crash between the two header writes: block 50 is in the log. *)
Definition crashed_disk : Z -> list Z := upd (upd (fun _ => zero_block) 2 (encode_head [50] zero_block)) 3 data_block.
Definition boot_log : logst := mk_logst 2 30 0 false 1 0 (replicate 30 0).

Lemma crashed_rebooted : rebooted 3 1 2 crashed_disk (machine crashed_disk boot_log).
Proof. split; [apply machine_stored|done|done|done|vm_compute; done]. Qed.

Lemma crashed_header : header_is 2 [50] (crashed_disk 2).
Proof.
  split; [vm_compute; reflexivity|vm_compute; reflexivity|apply Forall_singleton; lia|apply NoDup_singleton|].
  apply Forall_singleton. unfold outside. cbn. lia.
Qed.

Example recovery_correct_witness :
  wp recover_from_log (fun _ k' =>
    (forall j h, [50] !! j = Some h -> k_disk k' h = crashed_disk (2 + Z.of_nat j + 1)) /\
    (forall n, n <> 2 -> n ∉ [50] -> k_disk k' n = crashed_disk n) /\ header_is 2 [] (k_disk k' 2) /\
    forall ws, ws `prefix_of` k_writes k' -> forall q kb, rebooted q 1 2 (replay crashed_disk ws) kb ->
      wp recover_from_log (fun _ kr => forall n, outside 2 1 n -> k_disk kr n = k_disk k' n) kb) (machine crashed_disk boot_log).
Proof.
  apply (recovery_correct 3 1 2 [50] crashed_disk _ crashed_rebooted crashed_header); vm_compute; lia.
Defined.

Example begin_op_reserves_witness :
  wp begin_op (fun _ k' => noise (upd_log (set_l_outstanding 1) running_state) k' /\
    l_n (k_log k') + l_outstanding (k_log k') * MAXOPBLOCKS <= LOGSIZE) running_state.
Proof.
  pose proof (begin_op_reserves 3 running_state running_idle eq_refl eq_refl ltac:(unfold NPROC; lia)) as T. cbv zeta in T.
  assert (E : k_log running_state = zero_log) by (vm_compute; reflexivity). rewrite E in T.
  assert (C : l_committing zero_log || (LOGSIZE <? l_n zero_log + (l_outstanding zero_log + 1) * MAXOPBLOCKS) = false) by (vm_compute; reflexivity).
  rewrite C in T. exact T.
Defined.

(** One operation in progress, nothing logged, block 50 just read. *)
Definition open_log : logst := mk_logst 2 30 1 false 1 0 (replicate 30 0).
Definition open_machine : kernel := machine (fun _ => zero_block) open_log.

Lemma open_log_is : log_is 2 1 [] open_log.
Proof. split; [done|done|done|now exists (replicate 30 0)|constructor|cbn; lia]. Qed.

Lemma open_read :
  exists b k, stored 3 1 (s_read b 50 (fresh_store (fun _ => zero_block))) k /\ k_log k = open_log.
Proof.
  assert (W : wp (bread 1 50) (fun b k => stored 3 1 (s_read b 50 (fresh_store (fun _ => zero_block))) k /\ k_log k = open_log) open_machine).
  { eapply (wp_bread_first 3 1); [apply machine_stored|split; [done|cbn; lia]|right; cbn; unfold NBUF; lia|cbn; lia|].
    intros b k' H' F. split; [exact H'|]. exact (frame_log _ _ F). }
  destruct (wp_final _ _ _ W) as (b & H & El). exists b. eexists. split; [exact H|exact El].
Qed.

Example log_write_records_witness :
  exists b s k, s_held s !! b = Some 50 /\
    wp (log_write b) (fun _ k' => log_is 2 1 [50] (k_log k') /\ NoDup [50] /\ 50 ∈ [50] /\ stored 3 1 (s_repin 50 1 s) k' /\
      l_outstanding (k_log k') = 1) k.
Proof.
  destruct open_read as (b & k & H & El). exists b, (s_read b 50 (fresh_store (fun _ => zero_block))), k.
  assert (Hb : s_held (s_read b 50 (fresh_store (fun _ => zero_block))) !! b = Some 50) by (cbn [s_read s_held]; apply lookup_insert_eq).
  split; [exact Hb|]. pose proof open_log_is as Hl. rewrite <- El in Hl.
  assert (Hp : s_pins (s_read b 50 (fresh_store (fun _ => zero_block))) 50 + 1 < 2 ^ 32) by (cbn [s_read s_pins]; rewrite upd_eq; reflexivity).
  assert (Hlen : length (l_block (k_log k)) = Z.to_nat LOGSIZE) by (rewrite El; reflexivity).
  pose proof (log_write_records 3 1 2 [] _ b 50 k H Hl NoDup_nil_2 Hb ltac:(lia) Hp Hlen ltac:(unfold LOGSIZE, MAXOPBLOCKS; lia)) as T.
  cbv zeta in T. rewrite El in T. exact T.
Defined.

Example end_op_correct_witness :
  wp end_op (fun _ k' => exists s', stored 3 1 s' k' /\ log_is 2 1 [] (k_log k') /\ no_waiter k' /\
    l_outstanding (k_log k') = 0 /\ l_committing (k_log k') = false /\
    forall n, outside 2 (length [50]) n -> s_view s' n = s_view tx_store n /\ s_disk s' n = committed [50] (s_view tx_store) (s_disk tx_store) n) tx_state.
Proof.
  destruct tx_state_stored as [H El].
  pose proof (end_op_correct 3 1 2 [50] tx_store tx_state H tx_committable ltac:(rewrite El; exact tx_log_is)) as T.
  cbv zeta in T. rewrite El in T.
  assert (Ec : l_committing tx_log = false) by reflexivity. assert (Eo : (l_outstanding tx_log =? 1) = true) by reflexivity.
  rewrite Ec, Eo in T. exact T.
Defined.
