(* ===== verification/Tx.v ===== *)
(** * Transactions as the file system sees them

    Inside [begin_op] .. [end_op] the code of fs.c reads and changes blocks through
    [bread], [log_write] and [brelse].  [tx] is the state of the blocks during such an
    operation: their current contents [V], their contents [D] on the disk, the
    blocks [bl] recorded in the log so far, and the buffers [H] the process holds.
    Every recorded block is pinned once, every held buffer once more, nothing else;
    so the number of free buffers is known. *)

From stdpp Require Import base numbers list gmap strings.
From S2P Require Import Prelude Kstate Kstring Spinlock Kalloc Vm Sched Sleeplock Bio Blocks Log.

Definition img (H : gmap nat Z) : gset Z := map_img H.
(** The blocks kept in memory. *)
Definition kept (bl : list Z) (H : gmap nat Z) : gset Z := list_to_set bl ∪ img H.
Definition one (b : bool) : Z := if b then 1 else 0.

(** Block [n] is no part of the log, which is [LOGSIZE] blocks from [st] on. *)
Definition apart (st n : Z) : Prop := n < st \/ st + LOGSIZE <= n.

Record tx (p : nat) (dev st o : Z) (bl : list Z) (V D : Z -> list Z) (H : gmap nat Z) (k : kernel) : Prop := {
  tx_store : exists s, stored p dev s k /\ (forall n, s_view s n = V n) /\ (forall n, s_disk s n = D n) /\ s_held s = H /\
    (forall n, s_pins s n = one (bool_decide (n ∈ bl)) + one (bool_decide (n ∈ img H))) /\
    (s_free s + size (kept bl H) = NBUF)%nat;
  tx_nodup : NoDup bl;
  tx_apart : Forall (apart st) bl;
  tx_log : log_is st dev bl (k_log k);
  tx_out : l_outstanding (k_log k) = o;
  tx_size : l_size (k_log k) = LOGSIZE;
  tx_len : length (l_block (k_log k)) = Z.to_nat LOGSIZE;
  tx_st : st + LOGSIZE + 1 < 2 ^ 31;
  tx_sb : sb_logstart (k_sb k) = st }.

(** What the operations leave alone: everything but the cache, the disk, the header in
    memory and processes they wake. *)
Definition fs_frame (k k' : kernel) : Prop := exists l, same_log (k_log k) l /\ bio_frame (set_k_log l k) k'.

Lemma fs_frame_bio k k' : bio_frame k k' -> fs_frame k k'.
Proof. intros H. exists (k_log k). split; [done|]. now destruct k. Qed.

Lemma fs_frame_log k k' : log_frame k k' -> fs_frame k k'.
Proof.
  intros (l & bufs & Hn & Hl). exists l. split; [done|].
  apply (bio_frame_intro _ (set_k_log l (set_k_bufs bufs k))); [now destruct k|apply Forall2_woken_refl|exact Hn].
Qed.

Lemma fs_frame_trans k1 k2 k3 : fs_frame k1 k2 -> fs_frame k2 k3 -> fs_frame k1 k3.
Proof.
  intros (l & Hl & Hf) (l' & Hl' & Hf'). exists l'. split.
  - rewrite (frame_log _ _ Hf) in Hl'. cbn in Hl'. destruct Hl as (? & ? & ? & ?), Hl' as (? & ? & ? & ?). repeat split; congruence.
  - etrans; [|exact Hf']. exact (bio_frame_log l' _ _ Hf).
Qed.

#[export] Instance fs_frame_preorder : PreOrder fs_frame.
Proof. split; [intros k; apply fs_frame_bio; reflexivity|exact fs_frame_trans]. Qed.

(** Reading a component they do not touch. *)
Lemma fs_frame_eq {A} (f : kernel -> A) k k' :
  (forall l bufs h d w ps k, f (set_k_bufs bufs (set_k_head h (set_k_disk d (set_k_writes w (set_k_procs ps (set_k_log l k)))))) = f k) ->
  (forall b l k, f (set_k_hart (set_h_intena b (k_hart k)) (set_k_locks l k)) = f k) ->
  fs_frame k k' -> f k' = f k.
Proof.
  intros H1 H2 (l & _ & (b & h & d & w & ps & _ & Hn)). rewrite (noise_eq f _ _ (fun k b l => H2 b l k) Hn). apply H1.
Qed.

Lemma frame_sb k k' : bio_frame k k' -> k_sb k' = k_sb k.
Proof. intros (b & h & d & w & ps & _ & Hn). exact (noise_eq k_sb _ _ ltac:(done) Hn). Qed.

Section rules.
Context (p : nat) (dev st o : Z).

Lemma tx_ext bl V V' D H k : (forall n, V n = V' n) -> tx p dev st o bl V D H k -> tx p dev st o bl V' D H k.
Proof.
  intros E [(s & H1 & H2 & H3 & H4 & H5 & H6) T2 TA T3 T4 T5 T6 T7 T8]. split; try done. exists s. split_and!; try done. intros n. now rewrite H2.
Qed.

Lemma tx_held bl V D H k b n : tx p dev st o bl V D H k -> H !! b = Some n -> b_data (get_buf b k) = V n /\ b_blockno (get_buf b k) = n.
Proof.
  intros [(s & H1 & H2 & H3 & <- & H5 & H6) T2 TA T3 T4 T5 T6 T7 T8] Hb. destruct (stored_data _ _ _ _ _ _ H1 Hb) as (-> & ? & _). auto.
Qed.

(** A block that is neither recorded nor held is as on the disk. *)
Lemma tx_clean bl V D H k n : tx p dev st o bl V D H k -> n ∉ kept bl H -> V n = D n.
Proof.
  intros [(s & H1 & H2 & H3 & <- & H5 & H6) T2 TA T3 T4 T5 T6 T7 T8] Hn. rewrite <- H2, <- H3. apply (stored_clean _ _ _ _ _ H1).
  rewrite H5. unfold kept in Hn. rewrite !bool_decide_false by set_solver. done.
Qed.

Lemma tx_inj bl V D H k b c n : tx p dev st o bl V D H k -> H !! b = Some n -> H !! c = Some n -> b = c.
Proof. intros [(s & H1 & H2 & H3 & <- & H5 & H6) _ _ _ _ _ _ _ _] Hb Hc. exact (held_inj _ _ _ _ _ _ _ H1 Hb Hc). Qed.

(** The log's own fields follow the kernel's frame. *)
Lemma tx_same_log bl bl' V V' D H H' k k' :
  tx p dev st o bl V D H k -> same_log (k_log k) (k_log k') -> k_sb k' = k_sb k ->
  (exists s, stored p dev s k' /\ (forall n, s_view s n = V' n) /\ (forall n, s_disk s n = D n) /\ s_held s = H' /\
    (forall n, s_pins s n = one (bool_decide (n ∈ bl')) + one (bool_decide (n ∈ img H'))) /\
    (s_free s + size (kept bl' H') = NBUF)%nat) ->
  NoDup bl' -> Forall (apart st) bl' -> log_is st dev bl' (k_log k') -> tx p dev st o bl' V' D H' k'.
Proof.
  intros [_ _ _ _ T4 T5 T6 T7 T8] (E1 & E2 & E3 & E4) Es Hs Hd Ha Hl. split; try done; congruence.
Qed.

Lemma img_insert (H : gmap nat Z) b n : H !! b = None -> img (<[b := n]> H) = {[n]} ∪ img H.
Proof. intros Hb. unfold img. now apply map_img_insert_notin_L. Qed.

Lemma img_delete (H : gmap nat Z) b n : H !! b = Some n -> (forall c, H !! c = Some n -> c = b) -> img (delete b H) = img H ∖ {[n]}.
Proof.
  intros Hb Hinj. apply set_eq. intros m. unfold img. rewrite elem_of_difference, !elem_of_map_img, elem_of_singleton. split.
  - intros [c Hc]. apply lookup_delete_Some in Hc as [Hne Hc]. split; [eauto|]. intros ->. apply Hne. symmetry. now apply Hinj.
  - intros [[c Hc] Hm]. exists c. apply lookup_delete_Some. split; [|done]. intros <-. congruence.
Qed.

Lemma wp_tx_bread bl V D H k n Q :
  tx p dev st o bl V D H k -> n ∉ img H -> n ∈ bl \/ (size (kept bl H) < NBUF)%nat ->
  (forall b k', H !! b = None -> tx p dev st o bl V D (<[b := n]> H) k' -> bio_frame k k' -> Q b k') ->
  wp (bread dev n) Q k.
Proof.
  intros T Hn Hroom HQ. destruct (tx_store _ _ _ _ _ _ _ _ _ T) as (s & Hs & HV & HD & <- & Hp & Hf).
  assert (Hpn : s_pins s n = one (bool_decide (n ∈ bl))) by (rewrite Hp, (bool_decide_false (n ∈ img _)) by done; apply Z.add_0_r).
  assert (Hpos : forall b, 0 <= one b <= 1) by (intros []; cbn; lia).
  apply (wp_bread_s p dev n s); [done| | | |pose proof (Hpos (bool_decide (n ∈ bl))); lia|].
  - destruct Hroom as [Hin|Hlt]; [left; rewrite Hpn, bool_decide_true by done; done|right; lia].
  - intros b Hb. apply Hn. unfold img. apply elem_of_map_img. eauto.
  - intros b m Hb. rewrite Hp. rewrite (bool_decide_true (m ∈ img _)) by (apply elem_of_map_img; eauto). pose proof (Hpos (bool_decide (m ∈ bl))). cbn. lia.
  - intros b k' Hb Hs' Hfr. apply HQ; [done| |done].
    refine (tx_same_log _ _ _ _ _ _ _ _ _ T _ _ _ (tx_nodup _ _ _ _ _ _ _ _ _ T) (tx_apart _ _ _ _ _ _ _ _ _ T) _); [rewrite (frame_log _ _ Hfr); done|exact (frame_sb _ _ Hfr)| |rewrite (frame_log _ _ Hfr); apply T].
    exists (s_read b n s). split; [done|]. split; [done|]. split; [done|]. split; [done|]. cbn [s_read s_pins s_free].
    rewrite img_insert by done. split.
    + intros m. destruct (decide (m = n)) as [->|Hne].
      * rewrite upd_eq, Hp. rewrite (bool_decide_true (n ∈ {[n]} ∪ _)), (bool_decide_false (n ∈ img _)) by set_solver. cbn. lia.
      * rewrite upd_ne, Hp by done. do 2 f_equal. apply bool_decide_ext. set_solver.
    + unfold kept in *. rewrite img_insert by done. unfold recount. rewrite Hpn. destruct (decide (n ∈ bl)) as [Hin|Hin].
      * rewrite bool_decide_true by done. cbn [one Z.eqb Z.add]. replace (list_to_set bl ∪ ({[n]} ∪ img (s_held s))) with (list_to_set bl ∪ img (s_held s)) by set_solver. exact Hf.
      * rewrite bool_decide_false by done. change ((one false =? 0)) with true. change (one false + 1 =? 0) with false. cbn iota.
        replace (list_to_set bl ∪ ({[n]} ∪ img (s_held s))) with ({[n]} ∪ (list_to_set bl ∪ img (s_held s))) by set_solver.
        rewrite size_union by set_solver. rewrite size_singleton. destruct Hroom as [?|Hlt]; [done|]. unfold kept in Hlt. lia.
Qed.

Lemma tx_set bl V D H k b n d :
  tx p dev st o bl V D H k -> H !! b = Some n -> tx p dev st o bl (upd V n d) D H (upd_buf b (set_b_data d) k).
Proof.
  intros T Hb. destruct (tx_store _ _ _ _ _ _ _ _ _ T) as (s & Hs & HV & HD & <- & Hp & Hf).
  refine (tx_same_log _ _ _ _ _ _ _ _ (upd_buf b (set_b_data d) k) T _ eq_refl _ (tx_nodup _ _ _ _ _ _ _ _ _ T) (tx_apart _ _ _ _ _ _ _ _ _ T) (tx_log _ _ _ _ _ _ _ _ _ T)); [done|].
  exists (s_set n d s). split_and!; try done.
  - apply stored_set; [done|done|]. rewrite Hp, (bool_decide_true (n ∈ img _)) by (apply elem_of_map_img; eauto). destruct (bool_decide (n ∈ bl)); cbn; lia.
  - intros m. cbn. destruct (decide (m = n)) as [->|]; [now rewrite !upd_eq|now rewrite !upd_ne].
Qed.

Lemma absorbed_apart n bl : Forall (apart st) bl -> apart st n -> Forall (apart st) (absorbed n bl).
Proof. intros H Hn. unfold absorbed. case_decide; [done|]. apply Forall_app. auto. Qed.

Lemma wp_tx_log_write bl V D H k b n Q :
  tx p dev st o bl V D H k -> H !! b = Some n -> 0 <= n < 2 ^ 31 -> apart st n -> 1 <= o -> Z.of_nat (length bl) < LOGSIZE - 1 ->
  (forall k', tx p dev st o (absorbed n bl) V D H k' -> log_frame k k' -> Q tt k') ->
  wp (log_write b) Q k.
Proof.
  intros T Hb Hn Hap Ho Hlen HQ. destruct (tx_store _ _ _ _ _ _ _ _ _ T) as (s & Hs & HV & HD & Hh & Hp & Hf). subst H.
  assert (Hpos : forall b, 0 <= one b <= 1) by (intros []; cbn; lia).
  assert (Hin : n ∈ img (s_held s)) by (apply elem_of_map_img; eauto).
  assert (Hpn : s_pins s n = one (bool_decide (n ∈ bl)) + 1) by (now rewrite Hp, (bool_decide_true (n ∈ img _))).
  apply (wp_log_write p dev st bl s b n k); [done|apply T|apply T|done|done| |apply T|apply T| | |].
  - pose proof (Hpos (bool_decide (n ∈ bl))). lia.
  - rewrite (tx_size _ _ _ _ _ _ _ _ _ T), (li_n _ _ _ _ (tx_log _ _ _ _ _ _ _ _ _ T)). apply orb_false_iff. lia.
  - rewrite (tx_out _ _ _ _ _ _ _ _ _ T). lia.
  - intros k' Hl' Hs' Hfr. apply HQ; [|done]. destruct (absorbed_nodup n bl (tx_nodup _ _ _ _ _ _ _ _ _ T)) as [Hd' _].
    refine (tx_same_log _ _ _ _ _ _ _ _ _ T _ _ _ Hd' (absorbed_apart n bl (tx_apart _ _ _ _ _ _ _ _ _ T) Hap) Hl').
    { destruct Hfr as (l & bufs & Hnn & Hsl). now rewrite (noise_eq k_log _ _ ltac:(done) Hnn). }
    { destruct Hfr as (l & bufs & Hnn & Hsl). exact (noise_eq k_sb _ _ ltac:(done) Hnn). }
    unfold absorbed in *. case_decide as Hbl; [now exists s|].
    exists (s_repin n 1 s). split_and!; try done; cbn [s_repin s_pins s_free s_held].
    + intros m. destruct (decide (m = n)) as [->|Hne].
      * rewrite upd_eq, Hpn, (bool_decide_false (n ∈ bl)), (bool_decide_true (n ∈ bl ++ [n])), (bool_decide_true (n ∈ img _)) by set_solver. done.
      * rewrite upd_ne, Hp by done. do 2 f_equal. apply bool_decide_ext. set_solver.
    + rewrite Hpn, (bool_decide_false (n ∈ bl)) by done. cbn. unfold kept in *.
      replace (list_to_set (bl ++ [n]) ∪ img (s_held s)) with (list_to_set bl ∪ img (s_held s)) by (rewrite list_to_set_app_L; set_solver). exact Hf.
Qed.

Lemma wp_tx_brelse bl V D H k b n Q :
  tx p dev st o bl V D H k -> H !! b = Some n -> n ∈ bl \/ V n = D n ->
  (forall k', tx p dev st o bl V D (delete b H) k' -> bio_frame k k' -> Q tt k') ->
  wp (brelse b) Q k.
Proof.
  intros T Hb Hcl HQ. destruct (tx_store _ _ _ _ _ _ _ _ _ T) as (s & Hs & HV & HD & Hh & Hp & Hf). subst H.
  assert (Hin : n ∈ img (s_held s)) by (apply elem_of_map_img; eauto).
  assert (Himg : img (delete b (s_held s)) = img (s_held s) ∖ {[n]}) by (apply img_delete; [done|]; intros c Hc; exact (held_inj _ _ _ _ _ _ _ Hs Hc Hb)).
  assert (Hpn : s_pins s n = one (bool_decide (n ∈ bl)) + 1) by (now rewrite Hp, (bool_decide_true (n ∈ img _))).
  apply (wp_brelse_s p dev s k b n); [done|done| |].
  - rewrite HV, HD, Hpn. destruct Hcl as [Hbl|Hcl]; [|done]. now rewrite bool_decide_true.
  - intros k' Hs' Hfr. apply HQ; [|done].
    refine (tx_same_log _ _ _ _ _ _ _ _ _ T _ _ _ (tx_nodup _ _ _ _ _ _ _ _ _ T) (tx_apart _ _ _ _ _ _ _ _ _ T) _); [rewrite (frame_log _ _ Hfr); done|exact (frame_sb _ _ Hfr)| |rewrite (frame_log _ _ Hfr); apply T].
    exists (s_release b n s). split_and!; try done; cbn [s_release s_pins s_free s_held].
    + intros m. rewrite Himg. destruct (decide (m = n)) as [->|Hne].
      * rewrite upd_eq, Hpn, (bool_decide_false (n ∈ _ ∖ _)) by set_solver. destruct (bool_decide (n ∈ bl)); done.
      * rewrite upd_ne, Hp by done. do 2 f_equal. apply bool_decide_ext. set_solver.
    + unfold kept in *. rewrite Himg, Hpn. destruct (decide (n ∈ bl)) as [Hbl|Hbl].
      * rewrite bool_decide_true by done. change (recount (one true + 1) (u32 (one true + 1 - 1)) (s_free s)) with (s_free s).
        replace (list_to_set bl ∪ img (s_held s) ∖ {[n]}) with (list_to_set bl ∪ img (s_held s)); [exact Hf|].
        apply set_eq. intros m. rewrite !elem_of_union, elem_of_difference, elem_of_singleton. destruct (decide (m = n)); set_solver.
      * rewrite bool_decide_false by done. change (recount (one false + 1) (u32 (one false + 1 - 1)) (s_free s)) with (s_free s + 1)%nat.
        assert (E : list_to_set bl ∪ img (s_held s) = {[n]} ∪ (list_to_set bl ∪ img (s_held s) ∖ {[n]})).
        { apply set_eq. intros m. rewrite !elem_of_union, elem_of_difference, elem_of_singleton. destruct (decide (m = n)); set_solver. }
        rewrite E, size_union, size_singleton in Hf by set_solver. lia.
Qed.

Lemma size_list_to_set_le (l : list Z) : (size (list_to_set l : gset Z) <= length l)%nat.
Proof.
  induction l as [|x l IH]; [now rewrite list_to_set_nil, size_empty|]. cbn [list_to_set length].
  rewrite size_union_alt, size_singleton. pose proof (subseteq_size (list_to_set l ∖ {[x]} : gset Z) (list_to_set l) ltac:(set_solver)).
  change (foldr (fun y => union {[y]}) ∅ l) with (list_to_set l : gset Z) in *. lia.
Qed.

Lemma size_img H : (size (img H) <= size H)%nat.
Proof.
  induction H as [|b n H Hb IH] using map_ind; [unfold img; now rewrite map_img_empty_L, !size_empty|].
  rewrite img_insert, size_union_alt, size_singleton, map_size_insert_None by done.
  pose proof (subseteq_size (img H ∖ {[n]}) (img H) ltac:(set_solver)). lia.
Qed.

Lemma kept_room bl H n : (length bl + size H < NBUF)%nat -> n ∈ bl \/ (size (kept bl H) < NBUF)%nat.
Proof.
  intros Hr. right. unfold kept. pose proof (size_union_alt (list_to_set bl : gset Z) (img H)) as E.
  pose proof (size_list_to_set_le bl). pose proof (size_img H).
  pose proof (subseteq_size (img H ∖ list_to_set bl) (img H) ltac:(set_solver)). lia.
Qed.

(** Reading a block: the buffer is locked, its data is the block. *)
Lemma wp_tx_read {B} bl V D H k n (cont : nat -> K B) Q :
  tx p dev st o bl V D H k -> n ∉ img H -> (length bl + size H < NBUF)%nat ->
  (forall b k', H !! b = None -> tx p dev st o bl V D (<[b := n]> H) k' -> b_data (get_buf b k') = V n ->
     n ∈ bl \/ V n = D n -> fs_frame k k' -> wp (cont b) Q k') ->
  wp (bind (bread dev n) cont) Q k.
Proof.
  intros T Hn Hr HQ. apply wp_bind. apply (wp_tx_bread _ _ _ _ _ _ _ T Hn); [now apply kept_room|].
  intros b k' Hb T' Hfr. apply HQ; [done|done| | |now apply fs_frame_bio].
  - eapply tx_held; [exact T'|]. apply lookup_insert_eq.
  - destruct (decide (n ∈ bl)); [auto|right]. eapply tx_clean; [exact T|]. unfold kept. set_solver.
Qed.

(** Releasing a block that is recorded or unchanged. *)
Lemma wp_tx_drop {B} bl V D H k b n (m : K B) Q :
  tx p dev st o bl V D (<[b := n]> H) k -> H !! b = None -> n ∈ bl \/ V n = D n ->
  (forall k', tx p dev st o bl V D H k' -> fs_frame k k' -> wp m Q k') ->
  wp (brelse b ;;; m) Q k.
Proof.
  intros T Hb Hc HQ. apply wp_bind. apply (wp_tx_brelse _ _ _ _ _ _ n _ T); [apply lookup_insert_eq|done|].
  intros k' T' Hfr. rewrite delete_insert_id in T' by done. apply HQ; [done|now apply fs_frame_bio].
Qed.

(** Changing a block, recording it in the log and releasing it. *)
Lemma wp_tx_edit {B} bl V D H k b n d f (m : K B) Q :
  tx p dev st o bl V D (<[b := n]> H) k -> H !! b = None -> upd_buf b f k = upd_buf b (set_b_data d) k ->
  0 <= n < 2 ^ 31 -> apart st n -> 1 <= o -> Z.of_nat (length bl) < LOGSIZE - 1 ->
  (forall k', tx p dev st o (absorbed n bl) (upd V n d) D H k' -> fs_frame k k' -> wp m Q k') ->
  wp (modify (upd_buf b f) ;;; log_write b ;;; brelse b ;;; m) Q k.
Proof.
  intros T Hb Hf Hn Hap Ho Hl HQ. apply wp_bind, wp_modify. rewrite Hf. apply wp_bind.
  apply (wp_tx_log_write _ _ _ _ _ _ n _ (tx_set _ _ _ _ _ b n d T (lookup_insert_eq _ _ _))); [apply lookup_insert_eq|done..|].
  intros k1 T1 F1. eapply wp_tx_drop; [exact T1|done|left; eapply absorbed_nodup, tx_nodup, T|].
  intros k2 T2 F2. apply HQ; [done|]. etrans; [|exact F2]. etrans; [|apply fs_frame_log, F1].
  apply fs_frame_bio. apply (bio_frame_intro _ (upd_buf b (set_b_data d) k)); [now destruct k|apply Forall2_woken_refl|apply noise_refl].
Qed.

(** The same at the end of a function. *)
Lemma wp_tx_edit_end bl V D H k b n d f (Q : unit -> kernel -> Prop) :
  tx p dev st o bl V D (<[b := n]> H) k -> H !! b = None -> upd_buf b f k = upd_buf b (set_b_data d) k ->
  0 <= n < 2 ^ 31 -> apart st n -> 1 <= o -> Z.of_nat (length bl) < LOGSIZE - 1 ->
  (forall k', tx p dev st o (absorbed n bl) (upd V n d) D H k' -> fs_frame k k' -> Q tt k') ->
  wp (modify (upd_buf b f) ;;; log_write b ;;; brelse b) Q k.
Proof.
  intros T Hb Hf Hn Hap Ho Hl HQ.
  assert (W : wp (modify (upd_buf b f) ;;; log_write b ;;; brelse b ;;; ret tt) Q k) by (eapply wp_tx_edit; eauto).
  clear -W. unfold wp, bind, modify in *. destruct (log_write b _) as [[] k1| |]; [|done..]. now destruct (brelse b k1) as [[] k2| |].
Qed.
End rules.

Lemma length_absorbed n bl : (length (absorbed n bl) <= length bl + 1)%nat.
Proof. unfold absorbed. case_decide; rewrite ?length_app; cbn; lia. Qed.

(** Memory and the inode table are no part of it. *)
Lemma stored_mem p dev s k m : stored p dev s k -> stored p dev s (set_k_mem m k).
Proof. intros H. apply (stored_ext p dev s k); [done..| |done|done]. destruct (st_proc _ _ _ _ H) as [[A1 A2] A3 A4]. split; [split|..]; done. Qed.

Lemma stored_inodes p dev s k inodes : stored p dev s k -> stored p dev s (set_k_inodes inodes k).
Proof. intros H. apply (stored_ext p dev s k); [done..| |done|done]. destruct (st_proc _ _ _ _ H) as [[A1 A2] A3 A4]. split; [split|..]; done. Qed.

Lemma tx_mem p dev st o bl V D H k m : tx p dev st o bl V D H k -> tx p dev st o bl V D H (set_k_mem m k).
Proof. intros [(s & Hs & R) T2 TA T3 T4 T5 T6 T7 T8]. split; try done. exists s. split; [now apply stored_mem|done]. Qed.

Lemma tx_inode p dev st o bl V D H k i f : tx p dev st o bl V D H k -> tx p dev st o bl V D H (upd_inode i f k).
Proof. intros [(s & Hs & R) T2 TA T3 T4 T5 T6 T7 T8]. split; try done. exists s. split; [now apply stored_inodes|done]. Qed.

Lemma tx_noise p dev st o bl V D H k k' : tx p dev st o bl V D H k -> noise k k' -> tx p dev st o bl V D H k'.
Proof.
  intros [(s & Hs & R) T2 TA T3 T4 T5 T6 T7 T8] Hn. pose proof (noise_eq k_log _ _ ltac:(done) Hn) as El.
  split; rewrite ?El, ?(noise_eq k_sb _ _ ltac:(done) Hn); try done. exists s. split; [now apply (stored_noise _ _ _ _ _ Hn)|done].
Qed.

Lemma tx_ready p dev st o bl V D H k : tx p dev st o bl V D H k -> ready k.
Proof. intros [(s & Hs & R) _ _ _ _ _ _ _ _]. apply (st_proc _ _ _ _ Hs). Qed.

(** A store into [b->data] computed from the data. *)
Lemma upd_buf_data b k g d : b_data (get_buf b k) = d -> upd_buf b (fun x => set_b_data (g (b_data x)) x) k = upd_buf b (set_b_data (g d)) k.
Proof.
  intros Hd. unfold upd_buf. f_equal. apply list_eq. intros c. destruct (decide (c = b)) as [->|Hne]; [|now rewrite !list_lookup_alter_ne].
  rewrite !list_lookup_alter_eq. destruct (k_bufs k !! b) as [y|] eqn:E; [|done]. cbn. unfold get_buf in Hd. rewrite (list_lookup_total_correct _ _ _ E) in Hd. now subst.
Qed.

Lemma fs_frame_data b d k : fs_frame k (upd_buf b (set_b_data d) k).
Proof. apply fs_frame_bio. apply (bio_frame_intro _ (upd_buf b (set_b_data d) k)); [now destruct k|apply Forall2_woken_refl|apply noise_refl]. Qed.

Lemma fs_frame_mem m k k' : fs_frame k k' -> fs_frame (set_k_mem m k) (set_k_mem m k').
Proof.
  intros (l & Hl & (b & h & d & w & ps & Hw & Hn)). exists l. split; [done|]. exists b, h, d, w, ps. split; [done|].
  apply (noise_update (set_k_mem m)) in Hn; [exact Hn|done..].
Qed.

Lemma fs_frame_inode i x k k' : fs_frame k k' -> fs_frame (upd_inode i (fun _ => x) k) (upd_inode i (fun _ => x) k').
Proof.
  intros (l & Hl & (b & h & d & w & ps & Hw & Hn)). exists l. split; [done|]. exists b, h, d, w, ps. split; [done|].
  apply (noise_update (upd_inode i (fun _ => x))) in Hn; [exact Hn|done..].
Qed.

(** ** A concrete transaction: one operation open, nothing logged, nothing cached *)

Definition fs_machine (d : Z -> list Z) (sb : superblock) (inodes : list inode) : kernel :=
  set_k_inodes inodes (set_k_sb sb (machine d open_log)).

Lemma stored_fs p dev s k sb inodes : stored p dev s k -> stored p dev s (set_k_inodes inodes (set_k_sb sb k)).
Proof. intros H. apply stored_inodes. apply (stored_ext p dev s k); [done..| |done|done]. destruct (st_proc _ _ _ _ H) as [[A1 A2] A3 A4]. split; [split|..]; done. Qed.

Lemma fs_machine_tx d sb inodes : sb_logstart sb = 2 -> tx 3 1 2 1 [] d d ∅ (fs_machine d sb inodes).
Proof.
  intros Hsb. assert (El : k_log (fs_machine d sb inodes) = open_log) by reflexivity.
  split; rewrite ?El; [|constructor|constructor|exact open_log_is|reflexivity|reflexivity|reflexivity|unfold LOGSIZE, MAXOPBLOCKS; lia|exact Hsb].
  exists (fresh_store d). split; [|split; [reflexivity|split; [reflexivity|split; [reflexivity|split; [|reflexivity]]]]].
  - apply stored_fs, machine_stored.
  - intros n. cbn [fresh_store s_pins]. unfold img. rewrite map_img_empty_L. rewrite !bool_decide_false by set_solver. reflexivity.
Qed.
