(* ===== verification/Fs.v ===== *)
(** * The file system (kernel/fs.c)

    Blocks, inodes, directories and path names over the log and the buffer cache.
    On-disk structures are byte ranges of buffers.  A kernel variable whose address
    is handed to [readi] or [writei] ([struct dirent de]) has an address of its
    own, outside the memory the allocator manages. *)

From stdpp Require Import base numbers list gmap strings.
From S2P Require Import Prelude Kstate Kstring Spinlock Kalloc Vm Sched Sleeplock Bio Log.

(** Addresses of stack variables. *)
Definition local_de : Z := 0x1000.
Definition local_st : Z := 0x1100.

(** ** Superblock and block allocator *)

Definition sizeof_superblock : nat := 32.
Definition decode_superblock (d : list Z) : superblock :=
  mk_superblock (get32 d 0) (get32 d 4) (get32 d 8) (get32 d 12)
                (get32 d 16) (get32 d 20) (get32 d 24) (get32 d 28).

Definition readsb (dev : Z) : K unit :=
  let* bp := bread dev 1 in
  modify (fun k => set_k_sb (decode_superblock (b_data (get_buf bp k))) k) ;;;
  brelse bp.

Definition fsinit (dev : Z) : K unit :=
  readsb dev ;;;
  let* sb := gets k_sb in
  if negb (sb_magic sb =? FSMAGIC) then panic "invalid file system" else
  initlog dev sb.

Definition BBLOCK (b : Z) (sb : superblock) : Z := u32 (b / BPB + sb_bmapstart sb).
Definition IBLOCK (i : Z) (sb : superblock) : Z := u32 (i / IPB + sb_inodestart sb).

Definition bzero (dev bno : Z) : K unit :=
  let* bp := bread dev (u32 bno) in
  modify (upd_buf bp (set_b_data (replicate (Z.to_nat BSIZE) 0))) ;;;
  log_write bp ;;;
  brelse bp.

Definition byte_at (d : list Z) (i : Z) : Z := d !!! Z.to_nat i.

(** The inner loop of [balloc]: the first clear bit below the bounds. *)
Fixpoint balloc_bits (fuel : nat) (d : list Z) (b bi size : Z) : option Z :=
  match fuel with
  | O => None
  | S fuel' =>
      if (bi <? BPB) && (b + bi <? size) then
        if Z.land (byte_at d (bi / 8)) (Z.shiftl 1 (bi mod 8)) =? 0 then Some bi
        else balloc_bits fuel' d b (bi + 1) size
      else None
  end.

Definition set_byte (d : list Z) (i v : Z) : list Z := <[Z.to_nat i := v]> d.

Definition balloc (dev : Z) : K Z :=
  let* sb := gets k_sb in
  let* r := for_ret (map (fun i => i * BPB) (seqZ 0 ((sb_size sb + BPB - 1) / BPB))) (fun b =>
    let* bp := bread dev (BBLOCK b sb) in
    let* d := gets (fun k => b_data (get_buf bp k)) in
    match balloc_bits (Z.to_nat BPB) d b 0 (sb_size sb) with
    | Some bi =>
        modify (upd_buf bp (set_b_data
          (set_byte d (bi / 8) (Z.lor (byte_at d (bi / 8)) (Z.shiftl 1 (bi mod 8)))))) ;;;
        log_write bp ;;;
        brelse bp ;;;
        bzero dev (b + bi) ;;;
        ret (Some (b + bi))
    | None => brelse bp ;;; ret None
    end) in
  match r with Some b => ret b | None => panic "balloc: out of blocks" end.

Definition bfree (dev b : Z) : K unit :=
  let* sb := gets k_sb in
  let* bp := bread dev (BBLOCK b sb) in
  let bi := b mod BPB in
  let m := Z.shiftl 1 (bi mod 8) in
  let* d := gets (fun k => b_data (get_buf bp k)) in
  if Z.land (byte_at d (bi / 8)) m =? 0 then panic "freeing free block" else
  modify (upd_buf bp (set_b_data (set_byte d (bi / 8) (Z.land (byte_at d (bi / 8)) (u8 (Z.lnot m)))))) ;;;
  log_write bp ;;;
  brelse bp.

(** ** Inodes *)

(** [struct dinode]: type, major, minor, nlink at 0, 2, 4, 6; size at 8; addrs at 12. *)
Record dinode := mk_dinode {
  d_type : Z; d_major : Z; d_minor : Z; d_nlink : Z; d_size : Z; d_addrs : list Z }.

Definition dinode_off (inum : Z) : nat := Z.to_nat (inum mod IPB * sizeof_dinode).
Definition addr_off (i : nat) : nat := 12 + 4 * i.

Definition decode_dinode (d : list Z) : dinode :=
  mk_dinode (i16 (get16 d 0)) (i16 (get16 d 2)) (i16 (get16 d 4)) (i16 (get16 d 6)) (get32 d 8)
    (map (fun i => get32 d (addr_off i)) (seq 0 (NDIRECT + 1))).
Definition encode_dinode (di : dinode) : list Z :=
  le_bytes 2 (d_type di) ++ le_bytes 2 (d_major di) ++ le_bytes 2 (d_minor di) ++
  le_bytes 2 (d_nlink di) ++ le_bytes 4 (d_size di) ++ concat (map (le_bytes 4) (d_addrs di)).

Definition get_dinode (d : list Z) (inum : Z) : dinode :=
  decode_dinode (list_sub d (dinode_off inum) (Z.to_nat sizeof_dinode)).
Definition put_dinode (d : list Z) (inum : Z) (di : dinode) : list Z :=
  list_put d (dinode_off inum) (encode_dinode di).

Definition iinit : K unit :=
  initlock LK_icache "icache" ;;;
  for_each (seq 0 NINODE) (fun i => initsleeplock (LK_inode i) "inode").

(** The scan of [iget]: the cached entry, or the first empty one. *)
Fixpoint iget_scan (l : list inode) (i : nat) (empty : option nat) (dev inum : Z) : option nat * option nat :=
  match l with
  | [] => (None, empty)
  | x :: t =>
      if (0 <? i_ref x) && (i_dev x =? dev) && (i_inum x =? inum) then (Some i, empty)
      else iget_scan t (S i)
             (match empty with None => if i_ref x =? 0 then Some i else None | _ => empty end) dev inum
  end.

Definition iget (dev inum : Z) : K nat :=
  acquire LK_icache ;;;
  let* l := gets k_inodes in
  match iget_scan l 0 None dev inum with
  | (Some i, _) =>
      modify (upd_inode i (fun x => set_i_ref (i_ref x + 1) x)) ;;;
      release LK_icache ;;;
      ret i
  | (None, None) => panic "iget: no inodes"
  | (None, Some i) =>
      modify (upd_inode i (set_i_dev dev)) ;;;
      modify (upd_inode i (set_i_inum inum)) ;;;
      modify (upd_inode i (set_i_ref 1)) ;;;
      modify (upd_inode i (set_i_valid false)) ;;;
      release LK_icache ;;;
      ret i
  end.

Definition ialloc (dev type : Z) : K nat :=
  let* sb := gets k_sb in
  let* r := for_ret (seqZ 1 (sb_ninodes sb - 1)) (fun inum =>
    let* bp := bread dev (IBLOCK inum sb) in
    let* d := gets (fun k => b_data (get_buf bp k)) in
    if d_type (get_dinode d inum) =? 0 then
      modify (upd_buf bp (set_b_data
        (put_dinode d inum (mk_dinode type 0 0 0 0 (replicate (NDIRECT + 1) 0))))) ;;;
      log_write bp ;;;
      brelse bp ;;;
      let* i := iget dev inum in
      ret (Some i)
    else brelse bp ;;; ret None) in
  match r with Some i => ret i | None => panic "ialloc: no inodes" end.

Definition iupdate (ip : nat) : K unit :=
  let* x := gets (get_inode ip) in
  let* sb := gets k_sb in
  let* bp := bread (i_dev x) (IBLOCK (i_inum x) sb) in
  modify (upd_buf bp (fun b => set_b_data
    (put_dinode (b_data b) (i_inum x)
      (mk_dinode (i_type x) (i_major x) (i_minor x) (i_nlink x) (i_size x) (i_addrs x))) b)) ;;;
  log_write bp ;;;
  brelse bp.

Definition idup (ip : nat) : K nat :=
  acquire LK_icache ;;;
  modify (upd_inode ip (fun x => set_i_ref (i_ref x + 1) x)) ;;;
  release LK_icache ;;;
  ret ip.

Definition load_inode (di : dinode) (x : inode) : inode :=
  set_i_addrs (d_addrs di) (set_i_size (d_size di) (set_i_nlink (d_nlink di)
    (set_i_minor (d_minor di) (set_i_major (d_major di) (set_i_type (d_type di) x))))).

Definition ilock (ip : nat) : K unit :=
  let* x := gets (get_inode ip) in
  if i_ref x <? 1 then panic "ilock" else
  acquiresleep (LK_inode ip) ;;;
  let* x := gets (get_inode ip) in
  if i_valid x then ret tt else
  let* sb := gets k_sb in
  let* bp := bread (i_dev x) (IBLOCK (i_inum x) sb) in
  let* d := gets (fun k => b_data (get_buf bp k)) in
  modify (upd_inode ip (load_inode (get_dinode d (i_inum x)))) ;;;
  brelse bp ;;;
  modify (upd_inode ip (set_i_valid true)) ;;;
  let* x := gets (get_inode ip) in
  if i_type x =? 0 then panic "ilock: no type" else ret tt.

Definition iunlock (ip : nat) : K unit :=
  let* h := holdingsleep (LK_inode ip) in
  let* x := gets (get_inode ip) in
  if negb h || (i_ref x <? 1) then panic "iunlock" else
  releasesleep (LK_inode ip).

(** ** Inode content *)

Definition inode_addr (ip i : nat) (k : kernel) : Z := i_addrs (get_inode ip k) !!! i.
Definition set_inode_addr (ip i : nat) (v : Z) : K unit :=
  modify (upd_inode ip (fun x => set_i_addrs (<[i := v]> (i_addrs x)) x)).

Definition bmap (ip : nat) (bn : Z) : K Z :=
  let* dev := gets (fun k => i_dev (get_inode ip k)) in
  if bn <? Z.of_nat NDIRECT then
    let* addr := gets (inode_addr ip (Z.to_nat bn)) in
    if addr =? 0 then
      let* addr := balloc dev in
      set_inode_addr ip (Z.to_nat bn) addr ;;;
      ret addr
    else ret addr
  else
    let bn := bn - Z.of_nat NDIRECT in
    if bn <? NINDIRECT then
      let* addr := gets (inode_addr ip NDIRECT) in
      let* addr :=
        (if addr =? 0 then
           let* addr := balloc dev in
           set_inode_addr ip NDIRECT addr ;;;
           ret addr
         else ret addr) in
      let* bp := bread dev addr in
      let* addr := gets (fun k => get32 (b_data (get_buf bp k)) (Z.to_nat (4 * bn))) in
      let* addr :=
        (if addr =? 0 then
           let* addr := balloc dev in
           modify (upd_buf bp (fun b => set_b_data (put32 (b_data b) (Z.to_nat (4 * bn)) addr) b)) ;;;
           log_write bp ;;;
           ret addr
         else ret addr) in
      brelse bp ;;;
      ret addr
    else panic "bmap: out of range".

Definition itrunc (ip : nat) : K unit :=
  let* dev := gets (fun k => i_dev (get_inode ip k)) in
  for_each (seq 0 NDIRECT) (fun i =>
    let* a := gets (inode_addr ip i) in
    when (nz a) (bfree dev a ;;; set_inode_addr ip i 0)) ;;;
  let* a := gets (inode_addr ip NDIRECT) in
  when (nz a)
    (let* bp := bread dev a in
     for_each (seq 0 (Z.to_nat NINDIRECT)) (fun j =>
       let* v := gets (fun k => get32 (b_data (get_buf bp k)) (4 * j)) in
       when (nz v) (bfree dev v)) ;;;
     brelse bp ;;;
     bfree dev a ;;;
     set_inode_addr ip NDIRECT 0) ;;;
  modify (upd_inode ip (set_i_size 0)) ;;;
  iupdate ip.

Definition iput (ip : nat) : K unit :=
  acquire LK_icache ;;;
  let* x := gets (get_inode ip) in
  when ((i_ref x =? 1) && i_valid x && (i_nlink x =? 0))
    (acquiresleep (LK_inode ip) ;;;
     release LK_icache ;;;
     itrunc ip ;;;
     modify (upd_inode ip (set_i_type 0)) ;;;
     iupdate ip ;;;
     modify (upd_inode ip (set_i_valid false)) ;;;
     releasesleep (LK_inode ip) ;;;
     acquire LK_icache) ;;;
  modify (upd_inode ip (fun x => set_i_ref (i_ref x - 1) x)) ;;;
  release LK_icache.

Definition iunlockput (ip : nat) : K unit := iunlock ip ;;; iput ip.

(** [struct stat]: dev, ino, type, nlink, size at 0, 4, 8, 10, 16. *)
Definition stati (ip : nat) (st : Z) : K unit :=
  let* x := gets (get_inode ip) in
  memwrite st (le_bytes 4 (i_dev x)) ;;;
  memwrite (st + 4) (le_bytes 4 (i_inum x)) ;;;
  memwrite (st + 8) (le_bytes 2 (i_type x)) ;;;
  memwrite (st + 10) (le_bytes 2 (i_nlink x)) ;;;
  memwrite (st + 16) (le_bytes 8 (i_size x)).

(** The loops of [readi] and [writei]: after the first, every iteration starts at
    a block boundary, so [n / BSIZE + 2] iterations and the last test suffice. *)
Fixpoint readi_loop (fuel : nat) (ip : nat) (user_dst : bool) (dst off tot n : Z) : K Z :=
  match fuel with
  | O => suspend_with Forever
  | S fuel' =>
      if negb (tot <? n) then ret tot else
      let* dev := gets (fun k => i_dev (get_inode ip k)) in
      let* addr := bmap ip (off / BSIZE) in
      let* bp := bread dev addr in
      let m := Z.min (n - tot) (BSIZE - off mod BSIZE) in
      let* d := gets (fun k => b_data (get_buf bp k)) in
      let* r := either_copyout user_dst dst (list_sub d (Z.to_nat (off mod BSIZE)) (Z.to_nat m)) in
      if r =? -1 then brelse bp ;;; ret tot else
      brelse bp ;;;
      readi_loop fuel' ip user_dst (u64 (dst + m)) (u32 (off + m)) (u32 (tot + m)) n
  end.

Definition readi (ip : nat) (user_dst : bool) (dst off n : Z) : K Z :=
  let* size := gets (fun k => i_size (get_inode ip k)) in
  if (size <? off) || (u32 (off + n) <? off) then ret 0 else
  let n := if size <? u32 (off + n) then u32 (size - off) else n in
  let* tot := readi_loop (Z.to_nat (n / BSIZE + 3)) ip user_dst dst off 0 n in
  ret (i32 tot).

(** Returns [off] at the end of the loop. *)
Fixpoint writei_loop (fuel : nat) (ip : nat) (user_src : bool) (src off tot n : Z) : K Z :=
  match fuel with
  | O => suspend_with Forever
  | S fuel' =>
      if negb (tot <? n) then ret off else
      let* dev := gets (fun k => i_dev (get_inode ip k)) in
      let* addr := bmap ip (off / BSIZE) in
      let* bp := bread dev addr in
      let m := Z.min (n - tot) (BSIZE - off mod BSIZE) in
      let* (r, bytes) := either_copyin user_src src m in
      modify (upd_buf bp (fun b => set_b_data (list_put (b_data b) (Z.to_nat (off mod BSIZE)) bytes) b)) ;;;
      if r =? -1 then brelse bp ;;; ret off else
      log_write bp ;;;
      brelse bp ;;;
      writei_loop fuel' ip user_src (u64 (src + m)) (u32 (off + m)) (u32 (tot + m)) n
  end.

Definition writei (ip : nat) (user_src : bool) (src off n : Z) : K Z :=
  let* size := gets (fun k => i_size (get_inode ip k)) in
  if (size <? off) || (u32 (off + n) <? off) then ret (-1) else
  if MAXFILE * BSIZE <? u32 (off + n) then ret (-1) else
  let* off := writei_loop (Z.to_nat (n / BSIZE + 3)) ip user_src src off 0 n in
  when (0 <? n)
    (let* size := gets (fun k => i_size (get_inode ip k)) in
     when (size <? off) (modify (upd_inode ip (set_i_size off))) ;;;
     iupdate ip) ;;;
  ret (i32 n).

(** ** Directories *)

(** [struct dirent]: inum at 0 (two bytes), name at 2. *)
Definition de_inum : K Z := gets (fun k => le_val (load (k_mem k) local_de 2)).
Definition de_name : K (list Z) := gets (fun k => load (k_mem k) (local_de + 2) DIRSIZ).

Definition namecmp (s t : list Z) : Z := strncmp (list_bytes s) (list_bytes t) DIRSIZ.

(** The inode found and the offset of its entry ([*poff]). *)
Fixpoint dirlookup_loop (fuel : nat) (dp : nat) (name : list Z) (off : Z) : K (option (nat * Z)) :=
  match fuel with
  | O => suspend_with Forever
  | S fuel' =>
      let* x := gets (get_inode dp) in
      if negb (off <? i_size x) then ret None else
      let* r := readi dp false local_de off sizeof_dirent in
      if negb (r =? sizeof_dirent) then panic "dirlookup read" else
      let* inum := de_inum in
      let* nm := de_name in
      if negb (inum =? 0) && (namecmp name nm =? 0) then
        let* ip := iget (i_dev x) inum in
        ret (Some (ip, off))
      else dirlookup_loop fuel' dp name (u32 (off + sizeof_dirent))
  end.
Definition dirlookup (dp : nat) (name : list Z) : K (option (nat * Z)) :=
  let* x := gets (get_inode dp) in
  if negb (i_type x =? T_DIR) then panic "dirlookup not DIR" else
  dirlookup_loop (Z.to_nat (i_size x / sizeof_dirent + 2)) dp name 0.

(** The scan for an empty entry. *)
Fixpoint dirlink_loop (fuel : nat) (dp : nat) (off : Z) : K Z :=
  match fuel with
  | O => suspend_with Forever
  | S fuel' =>
      let* x := gets (get_inode dp) in
      if negb (u32 off <? i_size x) then ret off else
      let* r := readi dp false local_de (u32 off) sizeof_dirent in
      if negb (r =? sizeof_dirent) then panic "dirlink read" else
      let* inum := de_inum in
      if inum =? 0 then ret off else dirlink_loop fuel' dp (i32 (off + sizeof_dirent))
  end.

Definition dirlink (dp : nat) (name : list Z) (inum : Z) : K Z :=
  let* r := dirlookup dp name in
  match r with
  | Some (ip, _) => iput ip ;;; ret (-1)
  | None =>
      let* x := gets (get_inode dp) in
      let* off := dirlink_loop (Z.to_nat (i_size x / sizeof_dirent + 2)) dp 0 in
      memwrite (local_de + 2) (strncpy (list_bytes name) DIRSIZ) ;;;
      memwrite local_de (le_bytes 2 inum) ;;;
      let* r := writei dp false local_de (u32 off) sizeof_dirent in
      if negb (r =? sizeof_dirent) then panic "dirlink" else ret 0
  end.

(** ** Paths

    A path is the list of its bytes before the NUL. *)

Definition slash : Z := 47.
Fixpoint skip_slashes (path : list Z) : list Z :=
  match path with
  | c :: t => if c =? slash then skip_slashes t else path
  | [] => []
  end.
Fixpoint path_elem (path : list Z) : list Z * list Z :=
  match path with
  | c :: t => if c =? slash then ([], path) else let '(s, r) := path_elem t in (c :: s, r)
  | [] => ([], [])
  end.

(** The rest of the path and the new content of [name], a buffer of [DIRSIZ] bytes. *)
Definition skipelem (path name : list Z) : option (list Z * list Z) :=
  let path := skip_slashes path in
  match path with
  | [] => None
  | _ =>
      let '(s, path) := path_elem path in
      let name :=
        if (DIRSIZ <=? length s)%nat then list_put name 0 (take DIRSIZ s)
        else list_put name 0 (s ++ [0]) in
      Some (skip_slashes path, name)
  end.

(** Each iteration consumes at least one byte of the path. *)
Fixpoint namex_loop (fuel : nat) (ip : nat) (path : list Z) (parent : bool) (name : list Z)
    : K (option nat * list Z) :=
  match fuel with
  | O => suspend_with Forever
  | S fuel' =>
      match skipelem path name with
      | None =>
          if parent then iput ip ;;; ret (None, name) else ret (Some ip, name)
      | Some (path, name) =>
          ilock ip ;;;
          let* x := gets (get_inode ip) in
          if negb (i_type x =? T_DIR) then iunlockput ip ;;; ret (None, name) else
          if parent && bool_decide (path = []) then iunlock ip ;;; ret (Some ip, name) else
          let* next := dirlookup ip name in
          match next with
          | None => iunlockput ip ;;; ret (None, name)
          | Some (nx, _) => iunlockput ip ;;; namex_loop fuel' nx path parent name
          end
      end
  end.

Definition namex (path : list Z) (parent : bool) (name : list Z) : K (option nat * list Z) :=
  let* ip :=
    (if bool_decide (head path = Some slash) then iget ROOTDEV ROOTINO
     else
       let* p := myproc_ix in
       let* pr := gets (get_proc p) in
       match p_cwd pr with Some c => idup c | None => undefined end) in
  namex_loop (S (length path)) ip path parent name.

(** [name] is uninitialised in [namei]; its content is never read there. *)
Definition namei (path : list Z) : K (option nat) :=
  let* (ip, _) := namex path false (replicate DIRSIZ 0) in ret ip.
Definition nameiparent (path name : list Z) : K (option nat * list Z) := namex path true name.
