(* ===== verification/FsAlloc.v ===== *)
(** * The block allocator of kernel/fs.c

    The bitmap blocks as a set of allocated block numbers; [balloc] takes the lowest
    free block, zeroed, and [bfree] gives one back; both go through the log. *)

From stdpp Require Import base numbers list gmap strings.
From S2P Require Import Prelude Kstate Kstring Spinlock Kalloc Vm Sched Sleeplock Bio Blocks Log Tx Fs.

(** ** Bits *)

Lemma land_bit x i : 0 <= i -> (Z.land x (Z.shiftl 1 i) =? 0) = negb (Z.testbit x i).
Proof.
  intros Hi. rewrite Z.shiftl_1_l. destruct (Z.testbit x i) eqn:E; cbn.
  - apply Z.eqb_neq. intros H. assert (F : Z.testbit (Z.land x (2 ^ i)) i = false) by now rewrite H, Z.bits_0.
    rewrite Z.land_spec, E, Z.pow2_bits_true in F by done. done.
  - apply Z.eqb_eq. apply Z.bits_inj'. intros j Hj. rewrite Z.land_spec, Z.bits_0, Z.pow2_bits_eqb by done.
    destruct (Z.eqb_spec i j) as [->|]; [now rewrite E|apply andb_false_r].
Qed.

Lemma lor_bit x i j : 0 <= i -> Z.testbit (Z.lor x (Z.shiftl 1 i)) j = Z.testbit x j || (i =? j).
Proof. intros Hi. now rewrite Z.lor_spec, Z.shiftl_1_l, Z.pow2_bits_eqb. Qed.

Lemma clear_bit x i j :
  0 <= i < 8 -> 0 <= j < 8 -> Z.testbit (Z.land x (u8 (Z.lnot (Z.shiftl 1 i)))) j = Z.testbit x j && negb (i =? j).
Proof.
  intros Hi Hj. rewrite Z.land_spec. f_equal. unfold u8. change 256 with (2 ^ 8).
  rewrite Z.mod_pow2_bits_low, Z.lnot_spec, Z.shiftl_1_l, Z.pow2_bits_eqb by lia. done.
Qed.

(** ** The bitmap *)

(** The bit of block [b] in a bitmap block. *)
Definition bit (d : list Z) (bi : Z) : bool := Z.testbit (byte_at d (bi / 8)) (bi mod 8).
Definition allocated (sb : superblock) (V : Z -> list Z) (b : Z) : bool := bit (V (BBLOCK b sb)) (b mod BPB).

(** The bitmap blocks of a file system of [sb_size sb] blocks are whole blocks inside
    it, apart from the log, and marked as allocated themselves; so are those of the log. *)
Record bitmap_ok (sb : superblock) (V : Z -> list Z) : Prop := {
  bm_size : 0 <= sb_size sb < 2 ^ 31;
  bm_start : 0 <= sb_bmapstart sb;
  bm_end : sb_bmapstart sb + (sb_size sb + BPB - 1) / BPB <= sb_size sb;
  bm_len : forall b, 0 <= b < sb_size sb -> length (V (BBLOCK b sb)) = Z.to_nat BSIZE;
  bm_self : forall b, 0 <= b < sb_size sb -> allocated sb V (BBLOCK b sb) = true;
  bm_apart : forall b, 0 <= b < sb_size sb -> apart (sb_logstart sb) (BBLOCK b sb);
  bm_log : forall b, 0 <= b < sb_size sb -> allocated sb V b = false -> apart (sb_logstart sb) b }.

Lemma bit_set_byte d bi bj v :
  length d = Z.to_nat BSIZE -> 0 <= bi < BPB -> 0 <= bj < BPB ->
  bit (set_byte d (bi / 8) v) bj = if bj / 8 =? bi / 8 then Z.testbit v (bj mod 8) else bit d bj.
Proof.
  intros Hd Hi Hj. unfold bit, set_byte, byte_at. change BPB with 8192 in *. change (Z.to_nat BSIZE) with 1024%nat in Hd.
  destruct (Z.eqb_spec (bj / 8) (bi / 8)) as [->|Hne].
  - rewrite list_lookup_total_insert_eq by zdiv. done.
  - rewrite list_lookup_total_insert_ne by zdiv. done.
Qed.

Lemma length_set_byte d i v : length (set_byte d i v) = length d.
Proof. apply length_insert. Qed.

(** Setting and clearing the bit of a block. *)
Definition set_bit (d : list Z) (bi : Z) : list Z :=
  set_byte d (bi / 8) (Z.lor (byte_at d (bi / 8)) (Z.shiftl 1 (bi mod 8))).
Definition unset_bit (d : list Z) (bi : Z) : list Z :=
  set_byte d (bi / 8) (Z.land (byte_at d (bi / 8)) (u8 (Z.lnot (Z.shiftl 1 (bi mod 8))))).

Lemma bit_set_bit d bi bj :
  length d = Z.to_nat BSIZE -> 0 <= bi < BPB -> 0 <= bj < BPB -> bit (set_bit d bi) bj = (bj =? bi) || bit d bj.
Proof.
  intros Hd Hi Hj. unfold set_bit. rewrite bit_set_byte by done. destruct (Z.eqb_spec (bj / 8) (bi / 8)) as [E|E].
  - rewrite lor_bit by zdiv. unfold bit. rewrite E, orb_comm. f_equal. apply Bool.eq_iff_eq_true. rewrite !Z.eqb_eq. zdiv.
  - destruct (Z.eqb_spec bj bi); [zdiv|done].
Qed.

Lemma bit_unset_bit d bi bj :
  length d = Z.to_nat BSIZE -> 0 <= bi < BPB -> 0 <= bj < BPB -> bit (unset_bit d bi) bj = negb (bj =? bi) && bit d bj.
Proof.
  intros Hd Hi Hj. unfold unset_bit. rewrite bit_set_byte by done. destruct (Z.eqb_spec (bj / 8) (bi / 8)) as [E|E].
  - rewrite clear_bit by zdiv. unfold bit. rewrite E, andb_comm. do 2 f_equal. apply Bool.eq_iff_eq_true. rewrite !Z.eqb_eq. zdiv.
  - destruct (Z.eqb_spec bj bi); [zdiv|done].
Qed.

Section bitmap.
Context (sb : superblock) (V : Z -> list Z).
Hypothesis Hok : bitmap_ok sb V.

Lemma BBLOCK_eq b : 0 <= b < sb_size sb -> BBLOCK b sb = b / BPB + sb_bmapstart sb.
Proof. intros Hb. destruct Hok as [? ? ? _ _ _ _]. unfold BBLOCK. change BPB with 8192 in *. apply u32_small. zdiv. Qed.

Lemma BBLOCK_range b : 0 <= b < sb_size sb -> 0 <= BBLOCK b sb < sb_size sb.
Proof. intros Hb. rewrite BBLOCK_eq by done. destruct Hok as [? ? ? _ _ _ _]. change BPB with 8192 in *. zdiv. Qed.

(** Two blocks in the same bitmap block with the same bit are the same. *)
Lemma BBLOCK_same b b' :
  0 <= b < sb_size sb -> 0 <= b' < sb_size sb -> BBLOCK b' sb = BBLOCK b sb -> (b' mod BPB =? b mod BPB) = (b' =? b).
Proof.
  intros Hb Hb'. rewrite !BBLOCK_eq by done. intros E. change BPB with 8192 in *. apply Bool.eq_iff_eq_true. rewrite !Z.eqb_eq. zdiv.
Qed.

(** A free block is not a bitmap block. *)
Lemma free_not_bitmap b b' : 0 <= b' < sb_size sb -> allocated sb V b = false -> BBLOCK b' sb <> b.
Proof. intros Hb' Hf E. pose proof (bm_self _ _ Hok b' Hb') as H. rewrite E in H. congruence. Qed.

(** A bitmap block after the bit of [b] changed to [v]. *)
Lemma allocated_upd f v b b' :
  (forall d bi bj, length d = Z.to_nat BSIZE -> 0 <= bi < BPB -> 0 <= bj < BPB -> bit (f d bi) bj = if bj =? bi then v else bit d bj) ->
  0 <= b < sb_size sb -> 0 <= b' < sb_size sb ->
  allocated sb (upd V (BBLOCK b sb) (f (V (BBLOCK b sb)) (b mod BPB))) b' = if b' =? b then v else allocated sb V b'.
Proof.
  intros Hf Hb Hb'. unfold allocated. destruct (decide (BBLOCK b' sb = BBLOCK b sb)) as [E|E].
  - rewrite E, upd_eq, Hf, (BBLOCK_same b b') by (apply (bm_len _ _ Hok), Hb || (apply Z.mod_pos_bound; done) || done). done.
  - rewrite upd_ne by done. destruct (Z.eqb_spec b' b); [congruence|done].
Qed.

Lemma bitmap_upd f v b :
  (forall d bi bj, length d = Z.to_nat BSIZE -> 0 <= bi < BPB -> 0 <= bj < BPB -> bit (f d bi) bj = if bj =? bi then v else bit d bj) ->
  (forall d bi, length (f d bi) = length d) -> 0 <= b < sb_size sb -> v = true \/ (forall b', 0 <= b' < sb_size sb -> BBLOCK b' sb <> b) /\ apart (sb_logstart sb) b ->
  bitmap_ok sb (upd V (BBLOCK b sb) (f (V (BBLOCK b sb)) (b mod BPB))).
Proof.
  intros Hf Hl Hb Hv. pose proof Hok as [H1 H2 H3 H4 H5 H6 H7]. split; try done.
  - intros b' Hb'. unfold upd. case_decide; [rewrite Hl|]; auto.
  - intros b' Hb'. rewrite (allocated_upd f v) by auto using BBLOCK_range.
    destruct (Z.eqb_spec (BBLOCK b' sb) b) as [E|]; [|auto]. destruct Hv as [|[Hv _]]; [done|]. now destruct (Hv b').
  - intros b' Hb'. rewrite (allocated_upd f v) by done. destruct (Z.eqb_spec b' b) as [->|]; [|auto]. now destruct Hv as [->|[_ Hv]].
Qed.
End bitmap.

Lemma allocated_set sb V b b' :
  bitmap_ok sb V -> 0 <= b < sb_size sb -> 0 <= b' < sb_size sb ->
  allocated sb (upd V (BBLOCK b sb) (set_bit (V (BBLOCK b sb)) (b mod BPB))) b' = (b' =? b) || allocated sb V b'.
Proof. intros Hok Hb Hb'. rewrite (allocated_upd sb V Hok set_bit true) by (done || apply bit_set_bit). now destruct (b' =? b). Qed.

Lemma allocated_unset sb V b b' :
  bitmap_ok sb V -> 0 <= b < sb_size sb -> 0 <= b' < sb_size sb ->
  allocated sb (upd V (BBLOCK b sb) (unset_bit (V (BBLOCK b sb)) (b mod BPB))) b' = negb (b' =? b) && allocated sb V b'.
Proof.
  intros Hok Hb Hb'. rewrite (allocated_upd sb V Hok unset_bit false) by (done || (intros; rewrite bit_unset_bit by done; now destruct (_ =? _))).
  now destruct (b' =? b).
Qed.

(** The view after [balloc] returned [b]. *)
Definition alloc_view (sb : superblock) (b : Z) (V : Z -> list Z) : Z -> list Z :=
  upd (upd V (BBLOCK b sb) (set_bit (V (BBLOCK b sb)) (b mod BPB))) b zero_block.

Section alloc_view.
Context (sb : superblock) (V : Z -> list Z) (b : Z).
Hypothesis Hok : bitmap_ok sb V.
Hypothesis Hb : 0 <= b < sb_size sb.
Hypothesis Hfree : allocated sb V b = false.

Lemma alloc_view_bitmap b' : 0 <= b' < sb_size sb ->
  alloc_view sb b V (BBLOCK b' sb) = upd V (BBLOCK b sb) (set_bit (V (BBLOCK b sb)) (b mod BPB)) (BBLOCK b' sb).
Proof. intros Hb'. unfold alloc_view. now rewrite upd_ne by now apply (free_not_bitmap sb V). Qed.

Lemma allocated_alloc b' : 0 <= b' < sb_size sb -> allocated sb (alloc_view sb b V) b' = (b' =? b) || allocated sb V b'.
Proof. intros Hb'. rewrite <- allocated_set by done. unfold allocated. now rewrite alloc_view_bitmap. Qed.

Lemma bitmap_alloc : bitmap_ok sb (alloc_view sb b V).
Proof.
  assert (G : bitmap_ok sb (upd V (BBLOCK b sb) (set_bit (V (BBLOCK b sb)) (b mod BPB)))).
  { apply (bitmap_upd sb V Hok set_bit true); [|intros; apply length_set_byte|done|now left].
    intros. rewrite bit_set_bit by done. now destruct (_ =? _). }
  destruct G as [H1 H2 H3 H4 H5 H6 H7]. split; try done.
  - intros b' Hb'. rewrite alloc_view_bitmap by done. auto.
  - intros b' Hb'. rewrite allocated_alloc by now apply (BBLOCK_range sb V). rewrite (bm_self _ _ Hok) by done. apply orb_true_r.
  - intros b' Hb'. rewrite allocated_alloc by done. intros [_ Ha]%orb_false_iff. now apply (bm_log _ _ Hok).
Qed.
End alloc_view.

(** ** The search *)

Lemma balloc_bits_hit fuel d b bi size j :
  0 <= bi <= j -> j < BPB -> b + j < size -> bit d j = false -> (forall i, bi <= i < j -> bit d i = true) ->
  j - bi < Z.of_nat fuel -> balloc_bits fuel d b bi size = Some j.
Proof.
  revert bi. induction fuel as [|fuel IH]; intros bi Hbi Hj Hs Hf Ht Hfuel; [lia|]. cbn [balloc_bits].
  rewrite land_bit by zdiv. fold (bit d bi). replace (bi <? BPB) with true by lia. replace (b + bi <? size) with true by lia. cbn [andb].
  destruct (decide (bi = j)) as [->|Hne]; [now rewrite Hf|]. rewrite Ht by lia. cbn [negb]. apply IH; try lia; [done|].
  intros i Hi. apply Ht. lia.
Qed.

Lemma balloc_bits_none fuel d b bi size :
  0 <= bi -> (forall i, bi <= i < BPB -> b + i < size -> bit d i = true) -> balloc_bits fuel d b bi size = None.
Proof.
  revert bi. induction fuel as [|fuel IH]; intros bi Hbi Ht; [done|]. cbn [balloc_bits].
  destruct (_ && _) eqn:E; [|done]. apply andb_true_iff in E as [E1 E2]. rewrite land_bit by zdiv. fold (bit d bi). rewrite Ht by lia. cbn [negb].
  apply IH; [lia|]. intros i Hi. apply Ht. lia.
Qed.

(** ** balloc and bfree *)

Section block_allocator.
Context (p : nat) (dev st o : Z) (sb : superblock).
Hypothesis Ho : 1 <= o.

Lemma wp_bzero bl V D H k n (Q : unit -> kernel -> Prop) :
  tx p dev st o bl V D H k -> n ∉ img H -> (length bl + size H < NBUF)%nat -> 0 <= n < 2 ^ 31 -> apart st n -> Z.of_nat (length bl) < LOGSIZE - 1 ->
  (forall k', tx p dev st o (absorbed n bl) (upd V n zero_block) D H k' -> fs_frame k k' -> Q tt k') ->
  wp (bzero dev n) Q k.
Proof.
  intros T Hn Hr Hrange Hap Hl HQ. unfold bzero. rewrite u32_small by lia. apply (wp_tx_read p dev st o _ _ _ _ _ _ _ _ T Hn Hr).
  intros b k1 Hb T1 _ _ F1. apply (wp_tx_edit_end p dev st o _ _ _ _ _ _ n zero_block _ _ T1 Hb); [done|done|done|done|done|].
  intros k2 T2 F2. apply HQ; [done|]. etrans; [exact F1|exact F2].
Qed.

(** No bitmap block is among the buffers held. *)
Definition bitmap_unheld (H : gmap nat Z) : Prop := forall b, 0 <= b < sb_size sb -> BBLOCK b sb ∉ img H.

(** The blocks of the chunk of the bitmap that starts at [c]. *)
Lemma chunk_block c j : 0 <= j < BPB -> BBLOCK (c * BPB + j) sb = BBLOCK (c * BPB) sb /\ (c * BPB + j) mod BPB = j.
Proof. intros Hj. unfold BBLOCK. change BPB with 8192 in *. split; [f_equal|]; zdiv. Qed.

Lemma chunk_bits V c d :
  V (BBLOCK (c * BPB) sb) = d -> forall j, 0 <= j < BPB -> bit d j = allocated sb V (c * BPB + j).
Proof. intros <- j Hj. unfold allocated. destruct (chunk_block c j Hj) as [-> ->]. done. Qed.

Definition scanning bl V D H k (k' : kernel) : Prop := tx p dev st o bl V D H k' /\ fs_frame k k'.

Lemma wp_balloc bl V D H k b (Q : Z -> kernel -> Prop) :
  tx p dev st o bl V D H k -> k_sb k = sb -> bitmap_ok sb V -> bitmap_unheld H ->
  0 <= b < sb_size sb -> allocated sb V b = false -> (forall b', 0 <= b' < b -> allocated sb V b' = true) -> b ∉ img H ->
  (length bl + 1 + size H < NBUF)%nat -> Z.of_nat (length bl) + 1 < LOGSIZE - 1 ->
  (forall k', tx p dev st o (absorbed b (absorbed (BBLOCK b sb) bl)) (alloc_view sb b V) D H k' -> fs_frame k k' -> Q b k') ->
  wp (balloc dev) Q k.
Proof.
  intros T Hsb Hok Hun Hb Hfree Hlow HbH Hr Hl HQ. pose proof (tx_sb _ _ _ _ _ _ _ _ _ T) as Hst. rewrite Hsb in Hst. unfold balloc. apply wp_bind, wp_gets. rewrite Hsb.
  assert (Hdiv : b = b / BPB * BPB + b mod BPB /\ 0 <= b mod BPB < BPB /\ 0 <= b / BPB < (sb_size sb + BPB - 1) / BPB).
  { change BPB with 8192. zdiv. }
  destruct Hdiv as (Eb & Hbi & Hc). set (c := b / BPB) in *. set (bi := b mod BPB) in *.
  assert (El : seqZ 0 ((sb_size sb + BPB - 1) / BPB) = seqZ 0 c ++ c :: seqZ (c + 1) ((sb_size sb + BPB - 1) / BPB - c - 1)).
  { replace ((sb_size sb + BPB - 1) / BPB) with (c + ((sb_size sb + BPB - 1) / BPB - c)) at 1 by lia. rewrite seqZ_app by lia. f_equal.
    rewrite seqZ_cons by lia. f_equal. }
  rewrite El, map_app, map_cons. apply wp_bind.
  refine (wp_mono _ _ _ _ (wp_for_ret_hit (scanning bl V D H k) _ _ _ _ b (Q b) k (conj T (reflexivity k)) _ _) _).
  - intros y k1 [i [-> Hi]]%list_elem_of_fmap [T1 F1]. apply elem_of_seqZ in Hi.
    apply (wp_tx_read p dev st o _ _ _ _ _ _ _ _ T1); [apply Hun; change BPB with 8192 in *; zdiv|lia|]. intros b1 k2 Hb1 T2 Ed Hcl F2.
    apply wp_bind, wp_gets. rewrite Ed. rewrite balloc_bits_none; [|lia|].
    + apply (wp_tx_drop p dev st o _ _ _ _ _ _ _ _ _ T2 Hb1 Hcl). intros k3 T3 F3. apply wp_ret. split; [done|].
      split; [done|]. etrans; [exact F1|]. etrans; [exact F2|exact F3].
    + intros j Hj _. rewrite (chunk_bits V i _ eq_refl) by done. apply Hlow. change BPB with 8192 in *. lia.
  - intros k1 [T1 F1]. assert (Ec : BBLOCK (c * BPB) sb = BBLOCK b sb) by (rewrite Eb at 1; symmetry; apply chunk_block, Hbi).
    rewrite Ec. apply (wp_tx_read p dev st o _ _ _ _ _ _ _ _ T1); [now apply Hun|lia|]. intros b1 k2 Hb1 T2 Ed Hcl F2.
    apply wp_bind, wp_gets. rewrite Ed. rewrite (balloc_bits_hit _ _ _ _ _ bi).
    + replace (c * BPB + bi) with b by lia. apply (wp_tx_edit p dev st o _ _ _ _ _ _ _ (set_bit (V (BBLOCK b sb)) bi) _ _ _ T2 Hb1); [done| |rewrite <- Hst; now apply (bm_apart _ _ Hok)|done|lia|].
      { pose proof (BBLOCK_range sb V Hok b Hb). pose proof (bm_size _ _ Hok). lia. }
      intros k3 T3 F3. apply wp_bind. pose proof (length_absorbed (BBLOCK b sb) bl). pose proof (bm_size _ _ Hok).
      apply (wp_bzero _ _ _ _ _ _ _ T3 HbH); [lia|lia|rewrite <- Hst; now apply (bm_log _ _ Hok)|lia|]. intros k4 T4 F4. apply wp_ret. split; [done|]. apply HQ; [exact T4|].
      etrans; [exact F1|]. etrans; [exact F2|]. etrans; [exact F3|exact F4].
    + lia.
    + lia.
    + lia.
    + rewrite (chunk_bits V c) by (done || now rewrite Ec). now rewrite <- Eb.
    + intros i Hi. rewrite (chunk_bits V c) by (lia || now rewrite Ec). apply Hlow. change BPB with 8192 in *. lia.
    + rewrite Z2Nat.id by done. lia.
  - intros r k' [-> HQ']. now apply wp_ret.
Qed.

Lemma wp_balloc_full bl V D H k :
  tx p dev st o bl V D H k -> k_sb k = sb -> bitmap_ok sb V -> bitmap_unheld H ->
  (forall b, 0 <= b < sb_size sb -> allocated sb V b = true) -> (length bl + size H < NBUF)%nat ->
  exists k', balloc dev k = Panic "balloc: out of blocks" k'.
Proof.
  intros T Hsb Hok Hun Hall Hr. unfold balloc. rewrite (bind_Ok _ _ k sb k) by (unfold gets; now rewrite Hsb).
  match goal with |- exists k', bind (for_ret ?l ?body) _ k = _ => assert (W : wp (for_ret l body) (fun r k' => r = None /\ scanning bl V D H k k') k) end.
  { apply wp_for_ret_none; [split; [done|reflexivity]|]. intros y k1 [i [-> Hi]]%list_elem_of_fmap [T1 F1]. apply elem_of_seqZ in Hi.
    apply (wp_tx_read p dev st o _ _ _ _ _ _ _ _ T1); [apply Hun; change BPB with 8192 in *; zdiv|lia|]. intros b1 k2 Hb1 T2 Ed Hcl F2.
    apply wp_bind, wp_gets. rewrite Ed. rewrite balloc_bits_none; [|lia|].
    + apply (wp_tx_drop p dev st o _ _ _ _ _ _ _ _ _ T2 Hb1 Hcl). intros k3 T3 F3. apply wp_ret. split; [done|].
      split; [done|]. etrans; [exact F1|]. etrans; [exact F2|exact F3].
    + intros j Hj Hs. rewrite (chunk_bits V i _ eq_refl) by done. apply Hall. change BPB with 8192 in *. lia. }
  apply wp_run in W as (r & k' & E & -> & _). exists k'. now rewrite (bind_Ok _ _ _ _ _ E).
Qed.

Lemma wp_bfree bl V D H k b (Q : unit -> kernel -> Prop) :
  tx p dev st o bl V D H k -> k_sb k = sb -> bitmap_ok sb V -> bitmap_unheld H ->
  0 <= b < sb_size sb -> allocated sb V b = true -> (length bl + size H < NBUF)%nat -> Z.of_nat (length bl) < LOGSIZE - 1 ->
  (forall k', tx p dev st o (absorbed (BBLOCK b sb) bl) (upd V (BBLOCK b sb) (unset_bit (V (BBLOCK b sb)) (b mod BPB))) D H k' ->
     fs_frame k k' -> Q tt k') ->
  wp (bfree dev b) Q k.
Proof.
  intros T Hsb Hok Hun Hb Ha Hr Hl HQ. pose proof (tx_sb _ _ _ _ _ _ _ _ _ T) as Hst. rewrite Hsb in Hst. unfold bfree. apply wp_bind, wp_gets. rewrite Hsb.
  apply (wp_tx_read p dev st o _ _ _ _ _ _ _ _ T); [now apply Hun|done|]. intros b1 k1 Hb1 T1 Ed Hcl F1.
  apply wp_bind, wp_gets. rewrite Ed, land_bit by (apply Z.mod_pos_bound; lia). unfold allocated, bit in Ha. rewrite Ha. cbn [negb].
  pose proof (BBLOCK_range sb V Hok b Hb). pose proof (bm_size _ _ Hok).
  apply (wp_tx_edit_end p dev st o _ _ _ _ _ _ _ (unset_bit (V (BBLOCK b sb)) (b mod BPB)) _ _ T1 Hb1); [done|lia|rewrite <- Hst; now apply (bm_apart _ _ Hok)|done|done|].
  intros k2 T2 F2. apply HQ; [done|]. etrans; [exact F1|exact F2].
Qed.

Lemma wp_bfree_free bl V D H k b :
  tx p dev st o bl V D H k -> k_sb k = sb -> bitmap_unheld H ->
  0 <= b < sb_size sb -> allocated sb V b = false -> (length bl + size H < NBUF)%nat ->
  exists k', bfree dev b k = Panic "freeing free block" k'.
Proof.
  intros T Hsb Hun Hb Ha Hr. unfold bfree. rewrite (bind_Ok _ _ k sb k) by (unfold gets; now rewrite Hsb).
  assert (W : wp (bread dev (BBLOCK b sb)) (fun b1 k1 => b_data (get_buf b1 k1) = V (BBLOCK b sb)) k).
  { assert (W : wp (let* b1 := bread dev (BBLOCK b sb) in ret b1) (fun b1 k1 => b_data (get_buf b1 k1) = V (BBLOCK b sb)) k).
    - apply (wp_tx_read p dev st o _ _ _ _ _ _ _ _ T); [now apply Hun|done|]. intros b1 k1 Hb1 T1 Ed Hcl F1. now apply wp_ret.
    - unfold wp, bind, ret in *. now destruct (bread dev (BBLOCK b sb) k). }
  apply wp_run in W as (b1 & k1 & E & Ed). exists k1. rewrite (bind_Ok _ _ _ _ _ E).
  rewrite (bind_Ok _ _ k1 (V (BBLOCK b sb)) k1) by (unfold gets; now rewrite Ed).
  rewrite land_bit by (apply Z.mod_pos_bound; lia). unfold allocated, bit in Ha. now rewrite Ha.
Qed.
End block_allocator.

(** ** Properties *)

(** C16: [balloc] inside a transaction with room for two more blocks.  When a block is
    free it returns the lowest free one: afterwards exactly that bit of the bitmap
    has changed, the block is all zero, every other block is as before, and both
    changed blocks are recorded in the log, the disk untouched.  When none is free it
    panics with the message of the code. *)
Theorem balloc_correct p dev st o bl V D k :
  tx p dev st o bl V D ∅ k -> 1 <= o -> bitmap_ok (k_sb k) V -> Z.of_nat (length bl) + 1 < LOGSIZE - 1 ->
  let sb := k_sb k in
  (forall b, 0 <= b < sb_size sb -> allocated sb V b = false -> (forall b', 0 <= b' < b -> allocated sb V b' = true) ->
     wp (balloc dev) (fun r k' => r = b /\ exists V', tx p dev st o (absorbed b (absorbed (BBLOCK b sb) bl)) V' D ∅ k' /\
       bitmap_ok sb V' /\ (forall b', 0 <= b' < sb_size sb -> allocated sb V' b' = (b' =? b) || allocated sb V b') /\
       V' b = zero_block /\ (forall n, n <> b -> n <> BBLOCK b sb -> V' n = V n) /\ fs_frame k k') k) /\
  ((forall b, 0 <= b < sb_size sb -> allocated sb V b = true) -> exists k', balloc dev k = Panic "balloc: out of blocks" k').
Proof.
  intros T Ho Hok Hl sb.
  assert (Hun : bitmap_unheld sb ∅) by (intros b Hb; unfold img; rewrite map_img_empty_L; set_solver).
  assert (Hroom : (length bl + 1 + size (∅ : gmap nat Z) < NBUF)%nat) by (rewrite map_size_empty; unfold LOGSIZE, MAXOPBLOCKS, NBUF in *; lia).
  split.
  - intros b Hb Hf Hlow. apply (wp_balloc p dev st o sb Ho bl V D ∅ k b _ T); try done.
    intros k' T' F'. split; [done|]. exists (alloc_view sb b V). split; [exact T'|].
    split; [now apply bitmap_alloc|]. split; [intros; now apply allocated_alloc|]. unfold alloc_view.
    split; [apply upd_eq|]. split; [|done]. intros n H1 H2. now rewrite !upd_ne.
  - intros Hall. apply (wp_balloc_full p dev st o sb bl V D ∅ k T); try done. lia.
Qed.

(** [bfree] inside a transaction.  Freeing an allocated block that is not part of
    the bitmap or the log clears exactly its bit, records the bitmap block in the log and leaves
    every other block alone; freeing a free block panics. *)
Theorem bfree_correct p dev st o bl V D k b :
  tx p dev st o bl V D ∅ k -> 1 <= o -> bitmap_ok (k_sb k) V -> Z.of_nat (length bl) < LOGSIZE - 1 ->
  let sb := k_sb k in
  0 <= b < sb_size sb -> (forall b', 0 <= b' < sb_size sb -> BBLOCK b' sb <> b) -> apart st b ->
  if allocated sb V b then
    wp (bfree dev b) (fun _ k' => exists V', tx p dev st o (absorbed (BBLOCK b sb) bl) V' D ∅ k' /\ bitmap_ok sb V' /\
      (forall b', 0 <= b' < sb_size sb -> allocated sb V' b' = negb (b' =? b) && allocated sb V b') /\
      (forall n, n <> BBLOCK b sb -> V' n = V n) /\ fs_frame k k') k
  else exists k', bfree dev b k = Panic "freeing free block" k'.
Proof.
  intros T Ho Hok Hl sb Hb Hnb Hap.
  assert (Hun : bitmap_unheld sb ∅) by (intros b' Hb'; unfold img; rewrite map_img_empty_L; set_solver).
  assert (Hroom : (length bl + size (∅ : gmap nat Z) < NBUF)%nat) by (rewrite map_size_empty; unfold LOGSIZE, MAXOPBLOCKS, NBUF in *; lia).
  destruct (allocated sb V b) eqn:Ea.
  - apply (wp_bfree p dev st o sb Ho bl V D ∅ k b _ T); try done. intros k' T' F'. eexists. split; [exact T'|]. split; [|split; [|split]].
    + apply (bitmap_upd sb V Hok unset_bit false); [|intros; apply length_set_byte|done|right; split; [done|]; unfold sb; now rewrite (tx_sb _ _ _ _ _ _ _ _ _ T)].
      intros. rewrite bit_unset_bit by done. now destruct (_ =? _).
    + intros. now apply allocated_unset.
    + intros n Hn. now apply upd_ne.
    + done.
  - now apply (wp_bfree_free p dev st o sb bl V D ∅ k b T).
Qed.

(** ** Concrete instances *)

(** A file system of 50 blocks: the bitmap in block 45, blocks 0 to 45 and 47 in use. *)
Definition sb50 : superblock := mk_superblock FSMAGIC 50 4 200 30 2 32 45.
Definition disk50 : Z -> list Z :=
  upd (fun _ => zero_block) 45 ([255; 255; 255; 255; 255; 63 + 128] ++ replicate 1018 0).
Definition state50 : kernel := fs_machine disk50 sb50 [].

Lemma state50_sb : k_sb state50 = sb50.
Proof. reflexivity. Qed.

Lemma disk50_bitmap : bitmap_ok sb50 disk50.
Proof.
  assert (E : forall b, 0 <= b < 50 -> BBLOCK b sb50 = 45).
  { intros b Hb. unfold BBLOCK. change BPB with 8192. cbn [sb50 sb_bmapstart]. rewrite Z.div_small by lia. done. }
  split; [cbn; lia|cbn; lia|vm_compute; discriminate|..]; cbn [sb50 sb_size]; intros b Hb;
    [rewrite (E b Hb); reflexivity|rewrite (E b Hb); vm_compute; reflexivity|rewrite (E b Hb); right; vm_compute; discriminate|].
  intros Ha. unfold apart. change (sb_logstart sb50) with 2. change LOGSIZE with 30. destruct (decide (b < 2)); [auto|].
  destruct (decide (32 <= b)); [auto|]. assert (Hin : b ∈ seqZ 2 30) by (apply elem_of_seqZ; lia).
  assert (A : Forall (fun b => allocated sb50 disk50 b = true) (seqZ 2 30)) by (apply (bool_decide_unpack _); vm_compute; exact I).
  rewrite Forall_forall in A. rewrite (A b Hin) in Ha. discriminate.
Qed.

Example balloc_correct_witness :
  wp (balloc 1) (fun r k' => r = 46 /\ exists V', tx 3 1 2 1 [45; 46] V' disk50 ∅ k' /\
    allocated sb50 V' 46 = true /\ allocated sb50 V' 48 = false /\ V' 46 = zero_block) state50.
Proof.
  destruct (balloc_correct 3 1 2 1 [] disk50 disk50 state50 (fs_machine_tx disk50 sb50 [] eq_refl) ltac:(lia) disk50_bitmap ltac:(reflexivity)) as [T _].
  rewrite state50_sb in T.
  refine (wp_mono _ _ _ _ (T 46 _ _ _) _).
  - cbn; lia.
  - vm_compute. reflexivity.
  - intros b' Hb'. assert (Hin : b' ∈ seqZ 0 46) by (apply elem_of_seqZ; lia).
    assert (A : Forall (fun b => allocated sb50 disk50 b = true) (seqZ 0 46)) by (apply (bool_decide_unpack _); vm_compute; exact I).
    rewrite Forall_forall in A. exact (A b' Hin).
  - intros r k' (-> & V' & T' & _ & Ha & Hz & _). split; [reflexivity|]. exists V'. split; [exact T'|].
    split; [rewrite (Ha 46) by (cbn; lia); reflexivity|]. split; [rewrite (Ha 48) by (cbn; lia); vm_compute; reflexivity|exact Hz].
Defined.

Example bfree_correct_witness :
  wp (bfree 1 47) (fun _ k' => exists V', tx 3 1 2 1 [45] V' disk50 ∅ k' /\ allocated sb50 V' 47 = false /\ allocated sb50 V' 44 = true) state50.
Proof.
  pose proof (bfree_correct 3 1 2 1 [] disk50 disk50 state50 47 (fs_machine_tx disk50 sb50 [] eq_refl) ltac:(lia) disk50_bitmap ltac:(reflexivity)) as T.
  cbv zeta in T. rewrite state50_sb in T. assert (E : allocated sb50 disk50 47 = true) by (vm_compute; reflexivity). rewrite E in T.
  refine (wp_mono _ _ _ _ (T _ _ _) _).
  - cbn; lia.
  - intros b' Hb'. cbn in Hb'. unfold BBLOCK. change BPB with 8192. cbn [sb50 sb_bmapstart]. rewrite Z.div_small by lia. done.
  - right. vm_compute. discriminate.
  - intros _ k' (V' & T' & _ & Ha & _). exists V'. split; [exact T'|].
    split; [rewrite (Ha 47) by (cbn; lia); vm_compute; reflexivity|rewrite (Ha 44) by (cbn; lia); vm_compute; reflexivity].
Defined.
