(* ===== verification/FsInode.v ===== *)
(** * Inodes and the contents of files (kernel/fs.c)

    The on-disk inode as a record, the block map of a file, and what [bmap], [readi],
    [writei] and [iupdate] do to the bytes of a file inside a transaction. *)

From stdpp Require Import base numbers list gmap strings.
From S2P Require Import Prelude Kstate Kstring Spinlock Kalloc Vm Sched Sleeplock Bio Blocks Log Tx Fs FsAlloc.

(** ** The on-disk inode *)

Record dinode_ok (di : dinode) : Prop := {
  do_type : - 2 ^ 15 <= d_type di < 2 ^ 15;
  do_major : - 2 ^ 15 <= d_major di < 2 ^ 15;
  do_minor : - 2 ^ 15 <= d_minor di < 2 ^ 15;
  do_nlink : - 2 ^ 15 <= d_nlink di < 2 ^ 15;
  do_size : 0 <= d_size di < 2 ^ 32;
  do_addrs : length (d_addrs di) = (NDIRECT + 1)%nat;
  do_addr : Forall (fun a => 0 <= a < 2 ^ 32) (d_addrs di) }.

Lemma i16_le_bytes v : - 2 ^ 15 <= v < 2 ^ 15 -> i16 (le_val (le_bytes 2 v)) = v.
Proof.
  intros Hv. rewrite le_val_le_bytes. change (2 ^ (8 * Z.of_nat 2)) with (2 ^ 16). unfold i16, sgn. rewrite Z.mod_mod by lia.
  change (2 ^ (16 - 1)) with 32768. change (2 ^ 16) with 65536. destruct (Z.ltb_spec (v mod 65536) 32768); zdiv.
Qed.

Lemma u32_le_bytes v : 0 <= v < 2 ^ 32 -> le_val (le_bytes 4 v) = v.
Proof. intros Hv. rewrite le_val_le_bytes. now apply Z.mod_small. Qed.

Lemma list_sub_app {A} (l1 l2 l3 : list A) n m : length l1 = n -> length l2 = m -> list_sub (l1 ++ l2 ++ l3) n m = l2.
Proof. intros <- <-. unfold list_sub. now rewrite drop_app_length, take_app_length. Qed.

Lemma list_sub_head {A} (l2 l3 : list A) m : length l2 = m -> list_sub (l2 ++ l3) 0 m = l2.
Proof. now apply (list_sub_app []). Qed.

Lemma list_sub_skip {A} (l1 l2 : list A) n i m : length l1 = n -> list_sub (l1 ++ l2) (n + i) m = list_sub l2 i m.
Proof. intros <-. unfold list_sub. f_equal. rewrite drop_app, (drop_ge l1) by lia. cbn. f_equal. lia. Qed.

Lemma length_words l : length (concat (map (le_bytes 4) l)) = (4 * length l)%nat.
Proof. induction l as [|a l IH]; [done|]. cbn [map concat length]. rewrite length_app, length_le_bytes, IH. lia. Qed.

Lemma words_sub l i a : l !! i = Some a -> list_sub (concat (map (le_bytes 4) l)) (4 * i) 4 = le_bytes 4 a.
Proof.
  revert i. induction l as [|b l IH]; intros [|i] Ha; try done; cbn [map concat].
  - injection Ha as ->. apply list_sub_head, length_le_bytes.
  - replace (4 * S i)%nat with (4 + 4 * i)%nat by lia. rewrite list_sub_skip by apply length_le_bytes. now apply IH.
Qed.

Lemma length_encode_dinode di : dinode_ok di -> length (encode_dinode di) = Z.to_nat sizeof_dinode.
Proof. intros H. unfold encode_dinode. rewrite !length_app, !length_le_bytes, length_words, (do_addrs _ H). done. Qed.

(** Reading back what was written. *)
Lemma decode_encode_dinode di : dinode_ok di -> decode_dinode (encode_dinode di) = di.
Proof.
  intros [H1 H2 H3 H4 H5 H6 H7]. destruct di as [t ma mi nl sz ad]. cbn [d_type d_major d_minor d_nlink d_size d_addrs] in *.
  unfold encode_dinode, decode_dinode, get16, get32. cbn [d_type d_major d_minor d_nlink d_size d_addrs]. f_equal.
  - rewrite list_sub_head by apply length_le_bytes. now apply i16_le_bytes.
  - rewrite (list_sub_app (le_bytes 2 t)) by apply length_le_bytes. now apply i16_le_bytes.
  - rewrite (list_sub_skip _ _ 2 2), (list_sub_app (le_bytes 2 ma)) by apply length_le_bytes. now apply i16_le_bytes.
  - rewrite (list_sub_skip _ _ 2 4), (list_sub_skip _ _ 2 2), (list_sub_app (le_bytes 2 mi)) by apply length_le_bytes. now apply i16_le_bytes.
  - rewrite (list_sub_skip _ _ 2 6), (list_sub_skip _ _ 2 4), (list_sub_skip _ _ 2 2), (list_sub_app (le_bytes 2 nl)) by apply length_le_bytes.
    now apply u32_le_bytes.
  - apply list_eq. intros i. rewrite list_lookup_fmap. destruct (decide (i < NDIRECT + 1)%nat) as [Hi|Hi].
    + rewrite lookup_seq_lt by done. cbn [fmap option_fmap option_map Nat.add]. destruct (lookup_lt_is_Some_2 ad i) as [a Ha]; [lia|]. rewrite Ha. f_equal.
      unfold addr_off. replace (12 + 4 * i)%nat with (2 + (2 + (2 + (2 + (4 + 4 * i)))))%nat by lia.
      rewrite !list_sub_skip by apply length_le_bytes. rewrite (words_sub ad i a Ha). apply u32_le_bytes.
      rewrite Forall_lookup in H7. exact (H7 i a Ha).
    + rewrite lookup_seq_ge by lia. symmetry. apply lookup_ge_None_2. lia.
Qed.

Lemma dinode_off_bound inum (d : list Z) : length d = Z.to_nat BSIZE -> (dinode_off inum + Z.to_nat sizeof_dinode <= length d)%nat.
Proof.
  intros ->. unfold dinode_off. change IPB with 16. change sizeof_dinode with 64. change (Z.to_nat BSIZE) with 1024%nat. zdiv.
Qed.

Lemma get_put_dinode d inum di : length d = Z.to_nat BSIZE -> dinode_ok di -> get_dinode (put_dinode d inum di) inum = di.
Proof.
  intros Hd Hdi. unfold get_dinode, put_dinode. rewrite <- (length_encode_dinode di Hdi).
  rewrite list_sub_put_eq; [now apply decode_encode_dinode|]. rewrite length_encode_dinode by done. now apply dinode_off_bound.
Qed.

Lemma get_put_dinode_ne d inum j di :
  length d = Z.to_nat BSIZE -> dinode_ok di -> j mod IPB <> inum mod IPB -> get_dinode (put_dinode d inum di) j = get_dinode d j.
Proof.
  intros Hd Hdi Hne. unfold get_dinode, put_dinode. pose proof (dinode_off_bound inum d Hd) as B.
  rewrite list_sub_put_ne; rewrite ?(length_encode_dinode di Hdi); [done|done|].
  unfold dinode_off. change IPB with 16 in *. change sizeof_dinode with 64. zdiv.
Qed.

(** ** The block map of a file *)

Definition i_ind (x : inode) : Z := i_addrs x !!! NDIRECT.
(** The block that holds bytes [bn * BSIZE ..] of the file, 0 when there is none. *)
Definition iblock (V : Z -> list Z) (x : inode) (bn : Z) : Z :=
  if bn <? Z.of_nat NDIRECT then i_addrs x !!! Z.to_nat bn
  else if i_ind x =? 0 then 0 else get32 (V (i_ind x)) (Z.to_nat (4 * (bn - Z.of_nat NDIRECT))).
(** Byte [off] of the file. *)
Definition fbyte (V : Z -> list Z) (x : inode) (off : Z) : Z := V (iblock V x (off / BSIZE)) !!! Z.to_nat (off mod BSIZE).
Definition fbytes (V : Z -> list Z) (x : inode) (off n : Z) : list Z := map (fbyte V x) (seqZ off n).

Definition dinode_of (x : inode) : dinode := mk_dinode (i_type x) (i_major x) (i_minor x) (i_nlink x) (i_size x) (i_addrs x).

(** A block that holds data of the file system: in range, allocated, no part of the bitmap
    or of the log. *)
Record block_ok (sb : superblock) (V : Z -> list Z) (b : Z) : Prop := {
  bo_range : 0 < b < sb_size sb;
  bo_used : allocated sb V b = true;
  bo_len : length (V b) = Z.to_nat BSIZE;
  bo_data : forall b', 0 <= b' < sb_size sb -> BBLOCK b' sb <> b;
  bo_apart : apart (sb_logstart sb) b }.

Lemma tx_block_apart p dev st o bl V D H k sb V' b : tx p dev st o bl V D H k -> k_sb k = sb -> block_ok sb V' b -> apart st b.
Proof. intros T <- B. rewrite <- (tx_sb _ _ _ _ _ _ _ _ _ T). apply B. Qed.

Definition blockno_ok (bn : Z) : Prop := 0 <= bn < MAXFILE.

(** The inode's own block. *)
Definition home (sb : superblock) (x : inode) : Z := IBLOCK (i_inum x) sb.

(** The map is well formed: every block it names is a data block, no block has two
    roles, and the file has no hole below [len]. *)
Record map_ok (sb : superblock) (V : Z -> list Z) (x : inode) (len : Z) : Prop := {
  mo_dinode : dinode_ok (dinode_of x);
  mo_home : block_ok sb V (home sb x);
  mo_ind : i_ind x <> 0 -> block_ok sb V (i_ind x) /\ i_ind x <> home sb x;
  mo_block : forall bn, blockno_ok bn -> iblock V x bn <> 0 ->
     block_ok sb V (iblock V x bn) /\ iblock V x bn <> home sb x /\ iblock V x bn <> i_ind x;
  mo_inj : forall bn bn', blockno_ok bn -> blockno_ok bn' -> iblock V x bn <> 0 -> iblock V x bn = iblock V x bn' -> bn = bn';
  mo_full : forall bn, 0 <= bn -> bn * BSIZE < len -> iblock V x bn <> 0;
  mo_len : 0 <= len <= MAXFILE * BSIZE }.

(** The invariants of the allocator: block 0 is never free. *)
Record alloc_ok (sb : superblock) (V : Z -> list Z) : Prop := {
  ao_bitmap : bitmap_ok sb V;
  ao_zero : allocated sb V 0 = true;
  ao_pos : 0 < sb_size sb }.

Section views.
Context (sb : superblock).

(** A free block taken by [balloc] changes no data block. *)
Lemma alloc_block_ok V a n :
  bitmap_ok sb V -> 0 <= a < sb_size sb -> allocated sb V a = false -> block_ok sb V n ->
  n <> a /\ alloc_view sb a V n = V n /\ block_ok sb (alloc_view sb a V) n.
Proof.
  intros Hok Ha Hf [H1 H2 H3 H4 H5]. assert (Hne : n <> a) by congruence.
  assert (E : alloc_view sb a V n = V n) by (unfold alloc_view; rewrite !upd_ne; [done|intros E; now apply (H4 a)|done]).
  split; [done|]. split; [done|]. split; [done| |now rewrite E|done|done]. rewrite allocated_alloc by (done || lia). rewrite H2. apply orb_true_r.
Qed.

Lemma alloc_new_ok V a :
  alloc_ok sb V -> 0 <= a < sb_size sb -> allocated sb V a = false -> block_ok sb (alloc_view sb a V) a /\ alloc_ok sb (alloc_view sb a V).
Proof.
  intros [Hok H0 Hp] Ha Hf. assert (a <> 0) by congruence. split; split.
  - lia.
  - rewrite allocated_alloc by done. now rewrite Z.eqb_refl.
  - unfold alloc_view. now rewrite upd_eq.
  - intros b' Hb'. now apply (free_not_bitmap sb V).
  - now apply (bm_log _ _ Hok).
  - now apply bitmap_alloc.
  - rewrite allocated_alloc by (done || lia). rewrite H0. apply orb_true_r.
  - done.
Qed.

(** Changing a data block keeps the bitmap. *)
Lemma data_allocated V n d b' : block_ok sb V n -> 0 <= b' < sb_size sb -> allocated sb (upd V n d) b' = allocated sb V b'.
Proof. intros H Hb'. unfold allocated. now rewrite upd_ne by now apply (bo_data _ _ _ H). Qed.

Lemma data_block_ok V n d m :
  block_ok sb V n -> length d = Z.to_nat BSIZE -> block_ok sb V m -> block_ok sb (upd V n d) m.
Proof.
  intros H Hd [H1 H2 H3 H4 H5]. split; [done|rewrite data_allocated by (done || lia); done| |done|done].
  unfold upd. now case_decide.
Qed.

Lemma data_alloc_ok V n d : block_ok sb V n -> alloc_ok sb V -> alloc_ok sb (upd V n d).
Proof.
  intros H [[H1 H2 H3 H4 H5 HA HL] H6 H7].
  assert (E : forall b', 0 <= b' < sb_size sb -> upd V n d (BBLOCK b' sb) = V (BBLOCK b' sb)) by (intros b' Hb'; apply upd_ne, (bo_data _ _ _ H b' Hb')).
  split; [split; try done| |done].
  - intros b Hb. rewrite E by done. auto.
  - intros b Hb. rewrite data_allocated; [auto|done|]. now apply (BBLOCK_range sb V).
  - intros b Hb. rewrite data_allocated by done. auto.
  - rewrite data_allocated by (done || lia). done.
Qed.

(** The blocks of the file. *)
Definition owned (V : Z -> list Z) (x : inode) (n : Z) : Prop := n = i_ind x \/ exists bn, blockno_ok bn /\ iblock V x bn = n.

(** The map after [bmap ip bn] may have added a block: block numbers, data and
    everything else in use stay. *)
Record grown (V : Z -> list Z) (x : inode) (V' : Z -> list Z) (x' : inode) (bn : Z) : Prop := {
  gr_map : forall bn', blockno_ok bn' -> bn' <> bn \/ iblock V x bn' <> 0 -> iblock V' x' bn' = iblock V x bn';
  gr_fields : exists ad, x' = set_i_addrs ad x;
  gr_data : forall n, block_ok sb V n -> n <> i_ind x -> V' n = V n;
  gr_ok : forall n, block_ok sb V n -> block_ok sb V' n;
  gr_ind : i_ind x' = i_ind x \/ ~ block_ok sb V (i_ind x');
  gr_own : forall n, block_ok sb V n -> owned V' x' n -> owned V x n;
  gr_alloc : alloc_ok sb V' }.

Lemma grown_refl V x bn : alloc_ok sb V -> grown V x V x bn.
Proof. intros H. split; try done; [|now left]. exists (i_addrs x). now destruct x. Qed.

Lemma grown_trans V x V1 x1 V2 x2 bn : grown V x V1 x1 bn -> grown V1 x1 V2 x2 bn -> grown V x V2 x2 bn.
Proof.
  intros [A1 [ad1 A2] A3 A4 A5 A6 A7] [B1 [ad2 B2] B3 B4 B5 B6 B7]. split; try done.
  - intros bn' Hb Hn. rewrite <- A1 by done. apply B1; [done|]. destruct Hn as [|Hn]; [now left|right]. rewrite A1; auto.
  - exists ad2. subst. now destruct x.
  - intros n Hn Hne. rewrite <- A3 by done. apply B3; [auto|]. destruct A5 as [->|A5]; [done|]. now intros ->.
  - auto.
  - destruct B5 as [->|B5]; [done|]. right. auto.
  - auto.
Qed.

(** What a change of the map by one fresh block [a] owns. *)
Lemma own_grow V x V' x' a :
  ~ block_ok sb V a -> i_ind x' = i_ind x \/ i_ind x' = a ->
  (forall bn, blockno_ok bn -> iblock V' x' bn = iblock V x bn \/ iblock V' x' bn = a) ->
  forall n, block_ok sb V n -> owned V' x' n -> owned V x n.
Proof.
  intros Ha Hi Hb n Hn [->|(bn & Hbn & <-)].
  - destruct Hi as [E|E]; rewrite E in *; [now left|done].
  - destruct (Hb bn Hbn) as [E|E]; rewrite E in *; [right; eauto|done].
Qed.

(** A fresh block [a] put into the map, at [bn] or as the indirect block. *)
Lemma map_ok_grow V x V' x' bn a len :
  map_ok sb V x len -> grown V x V' x' bn -> block_ok sb V' a -> ~ block_ok sb V a -> dinode_ok (dinode_of x') ->
  i_ind x' = i_ind x \/ i_ind x' = a ->
  iblock V' x' bn = iblock V x bn \/ iblock V' x' bn = a /\ i_ind x' = i_ind x -> map_ok sb V' x' len.
Proof.
  intros [M1 M2 M3 M4 M5 M6 M7] [G1 [ad G2] G3 G4 _ _ _] Ha Hna Hd Hind Hhere.
  assert (Eh : home sb x' = home sb x) by (subst; done).
  assert (Hcase : forall bn', blockno_ok bn' -> iblock V' x' bn' = iblock V x bn' \/ bn' = bn /\ iblock V' x' bn' = a /\ i_ind x' = i_ind x).
  { intros bn' Hb. destruct (decide (bn' = bn)) as [->|]; [destruct Hhere; auto|left; auto]. }
  assert (Hz : a <> 0) by (pose proof (bo_range _ _ _ Ha); lia).
  assert (Hold : forall n, block_ok sb V n -> n <> a) by (intros n Hn ->; done).
  split; try done.
  - rewrite Eh. auto.
  - rewrite Eh. intros Hi. destruct Hind as [E|E]; rewrite E in *; [destruct (M3 Hi); auto|]. split; [done|]. intros ->. auto.
  - intros bn' Hb Hn. rewrite Eh. destruct (Hcase bn' Hb) as [E|(-> & E & Ei)]; rewrite E in *.
    + destruct (M4 bn' Hb Hn) as (B1 & B2 & B3). split; [auto|]. split; [done|]. destruct Hind as [->| ->]; [done|auto].
    + split; [done|]. split; [intros ->; auto|]. rewrite Ei. intros Ea. destruct (M3 ltac:(congruence)) as [B _]. rewrite <- Ea in B. done.
  - intros b1 b2 H1 H2 Hn E.
    destruct (Hcase b1 H1) as [E1|(-> & E1 & _)], (Hcase b2 H2) as [E2|(-> & E2 & _)]; rewrite ?E1 in Hn, E; rewrite ?E2 in E; [now apply M5| | |done].
    + destruct (M4 b1 H1 Hn) as [B _]. rewrite E in B. done.
    + destruct (M4 b2 H2 ltac:(congruence)) as [B _]. rewrite <- E in B. done.
  - intros bn' H0 Hl. assert (Hb : blockno_ok bn') by (unfold blockno_ok; change BSIZE with 1024 in *; lia).
    destruct (Hcase bn' Hb) as [->|(_ & -> & _)]; [auto|done].
Qed.

Definition put_addr (i : nat) (a : Z) (x : inode) : inode := set_i_addrs (<[i := a]> (i_addrs x)) x.

Lemma dinode_put_addr i a x : dinode_ok (dinode_of x) -> 0 <= a < 2 ^ 32 -> dinode_ok (dinode_of (put_addr i a x)).
Proof.
  intros [H1 H2 H3 H4 H5 H6 H7] Ha. split; try done; cbn [dinode_of put_addr set_i_addrs i_addrs d_addrs] in *.
  - now rewrite length_insert.
  - now apply Forall_insert.
Qed.

Section fresh.
Context (V : Z -> list Z) (x : inode) (len a : Z).
Hypothesis Hal : alloc_ok sb V.
Hypothesis Hmap : map_ok sb V x len.
Hypothesis Ha : 0 <= a < sb_size sb.
Hypothesis Hfree : allocated sb V a = false.

Lemma fresh_facts : block_ok sb (alloc_view sb a V) a /\ ~ block_ok sb V a /\ alloc_ok sb (alloc_view sb a V) /\ 0 <= a < 2 ^ 32 /\
  (forall n, block_ok sb V n -> alloc_view sb a V n = V n /\ block_ok sb (alloc_view sb a V) n).
Proof.
  destruct (alloc_new_ok V a Hal Ha Hfree) as [H1 H2]. split; [done|]. split; [intros H; pose proof (bo_used _ _ _ H); congruence|].
  split; [done|]. pose proof (bm_size _ _ (ao_bitmap _ _ Hal)). split; [lia|]. intros n Hn. now apply (alloc_block_ok V a n (ao_bitmap _ _ Hal)).
Qed.

Lemma ind_alloc : i_ind x <> 0 -> alloc_view sb a V (i_ind x) = V (i_ind x).
Proof. intros Hi. now apply fresh_facts, (mo_ind _ _ _ _ Hmap). Qed.

Lemma grow_direct bn :
  0 <= bn < Z.of_nat NDIRECT -> iblock V x bn = 0 ->
  let x' := put_addr (Z.to_nat bn) a x in
  grown V x (alloc_view sb a V) x' bn /\ map_ok sb (alloc_view sb a V) x' len /\ iblock (alloc_view sb a V) x' bn = a.
Proof.
  intros Hbn H0 x'. destruct fresh_facts as (F1 & F2 & F3 & F4 & F5). pose proof (do_addrs _ (mo_dinode _ _ _ _ Hmap)) as Hlen.
  cbn in Hlen. unfold NDIRECT in *.
  assert (Ei : i_ind x' = i_ind x) by (unfold i_ind, x', NDIRECT; cbn; rewrite list_lookup_total_insert_ne by lia; done).
  assert (Eh : iblock (alloc_view sb a V) x' bn = a).
  { unfold iblock, NDIRECT. rewrite (proj2 (Z.ltb_lt _ _)) by lia. cbn. rewrite list_lookup_total_insert_eq by lia. done. }
  assert (Em : forall bn', blockno_ok bn' -> bn' <> bn \/ iblock V x bn' <> 0 -> iblock (alloc_view sb a V) x' bn' = iblock V x bn').
  { intros bn' Hb Hn. unfold iblock. rewrite Ei. destruct (Z.ltb_spec bn' (Z.of_nat NDIRECT)) as [Hlt|Hge].
    - destruct (decide (bn' = bn)) as [->|Hne]; [destruct Hn; done|]. cbn. rewrite list_lookup_total_insert_ne; [done|]. unfold blockno_ok in Hb. lia.
    - destruct (Z.eqb_spec (i_ind x) 0); [done|]. now rewrite ind_alloc. }
  assert (G : grown V x (alloc_view sb a V) x' bn).
  { split; try done.
    - now exists (<[Z.to_nat bn := a]> (i_addrs x)).
    - intros n Hn _. now apply F5.
    - intros n Hn. now apply F5.
    - now left.
    - apply (own_grow V x _ x' a F2); [now left|]. intros bn' Hb. destruct (decide (bn' = bn)) as [->|Hne]; [now right|left; auto]. }
  split; [done|]. split; [|done]. apply (map_ok_grow V x _ x' bn a len); try done; [|now left|now right].
  apply dinode_put_addr; [apply Hmap|done].
Qed.

Lemma iblock_zero bn : i_ind x = 0 -> Z.of_nat NDIRECT <= bn -> iblock V x bn = 0.
Proof. intros E H. unfold iblock. rewrite E, (proj2 (Z.ltb_ge _ _)) by lia. done. Qed.

Lemma grow_root bn :
  i_ind x = 0 -> let x' := put_addr NDIRECT a x in
  grown V x (alloc_view sb a V) x' bn /\ map_ok sb (alloc_view sb a V) x' len /\ i_ind x' = a /\
  forall bn', blockno_ok bn' -> iblock (alloc_view sb a V) x' bn' = iblock V x bn'.
Proof.
  intros H0 x'. destruct fresh_facts as (F1 & F2 & F3 & F4 & F5). pose proof (do_addrs _ (mo_dinode _ _ _ _ Hmap)) as Hlen. cbn in Hlen.
  assert (Ei : i_ind x' = a) by (unfold i_ind, x'; cbn; rewrite list_lookup_total_insert_eq by (unfold NDIRECT in *; lia); done).
  assert (E : forall bn', blockno_ok bn' -> iblock (alloc_view sb a V) x' bn' = iblock V x bn').
  { intros bn' Hb. unfold blockno_ok in Hb. unfold iblock. rewrite Ei, H0. destruct (Z.ltb_spec bn' (Z.of_nat NDIRECT)) as [Hlt|Hge].
    - cbn. rewrite list_lookup_total_insert_ne by lia. done.
    - pose proof (bo_range _ _ _ F1). rewrite (proj2 (Z.eqb_neq a 0)) by lia. unfold alloc_view. rewrite upd_eq.
      unfold get32, zero_block, list_sub. rewrite drop_replicate, take_replicate.
      change MAXFILE with 268 in Hb. change (Z.to_nat BSIZE) with 1024%nat. rewrite Nat.min_l by (unfold NDIRECT; lia). done. }
  assert (G : grown V x (alloc_view sb a V) x' bn).
  { split; try done; [auto|now exists (<[NDIRECT := a]> (i_addrs x))|..].
    - intros n Hn _. now apply F5.
    - intros n Hn. now apply F5.
    - right. now rewrite Ei.
    - apply (own_grow V x _ x' a F2); [now right|auto]. }
  split; [done|]. split; [|done]. destruct (decide (blockno_ok bn)) as [Hb|Hb].
  - apply (map_ok_grow V x _ x' bn a len); try done; [|now right|left; auto]. apply dinode_put_addr; [apply Hmap|done].
  - apply (map_ok_grow V x _ x' 0 a len); try done; [|apply dinode_put_addr; [apply Hmap|done]|now right|left; apply E; done].
    destruct G as [G1 G2 G3 G4 G5 G6 G7]. split; try done. auto.
Qed.

Lemma grow_entry bn :
  i_ind x <> 0 -> Z.of_nat NDIRECT <= bn -> blockno_ok bn -> iblock V x bn = 0 ->
  let V' := upd (alloc_view sb a V) (i_ind x) (put32 (V (i_ind x)) (Z.to_nat (4 * (bn - Z.of_nat NDIRECT))) a) in
  grown V x V' x bn /\ map_ok sb V' x len /\ iblock V' x bn = a.
Proof.
  intros Hi Hge Hb H0 V'. destruct fresh_facts as (F1 & F2 & F3 & F4 & F5). destruct (mo_ind _ _ _ _ Hmap Hi) as [Bi _].
  destruct (F5 _ Bi) as [_ Bi']. pose proof (bo_len _ _ _ Bi) as Hlen. unfold blockno_ok in Hb. change MAXFILE with 268 in Hb.
  change (Z.to_nat BSIZE) with 1024%nat in Hlen. unfold NDIRECT in *.
  assert (Hput : length (put32 (V (i_ind x)) (Z.to_nat (4 * (bn - Z.of_nat 12))) a) = Z.to_nat BSIZE).
  { rewrite length_put32 by lia. exact Hlen. }
  assert (E : forall bn', blockno_ok bn' -> iblock V' x bn' = if decide (bn' = bn) then a else iblock V x bn').
  { intros bn' Hb'. unfold blockno_ok in Hb'. change MAXFILE with 268 in Hb'. unfold iblock, NDIRECT. rewrite (proj2 (Z.eqb_neq (i_ind x) 0)) by done.
    destruct (Z.ltb_spec bn' (Z.of_nat 12)) as [Hlt|Hge']; [now rewrite decide_False by lia|]. unfold V'. rewrite upd_eq. case_decide as Hc.
    - subst. rewrite get32_put32 by lia. now apply u32_small.
    - rewrite get32_put32_ne by lia. done. }
  assert (G : grown V x V' x bn).
  { split.
    - intros bn' Hb' Hn. rewrite E by done. case_decide; [subst; destruct Hn; done|done].
    - exists (i_addrs x). now destruct x.
    - intros n Hn Hne. unfold V'. rewrite upd_ne by done. now apply F5.
    - intros n Hn. unfold V'. apply data_block_ok; [done|done|now apply F5].
    - now left.
    - apply (own_grow V x _ x a F2); [now left|]. intros bn' Hb'. rewrite E by done. case_decide; auto.
    - now apply data_alloc_ok. }
  assert (Eh : iblock V' x bn = a) by (rewrite E by done; now rewrite decide_True).
  split; [done|]. split; [|done]. apply (map_ok_grow V x _ x bn a len); try done; [|apply Hmap|now left|now right].
  unfold V'. now apply data_block_ok.
Qed.
End fresh.

(** Writing into block [bn] of the file. *)
Lemma data_iblock V x len n d bn :
  map_ok sb V x len -> n <> i_ind x -> iblock (upd V n d) x bn = iblock V x bn.
Proof. intros H Hn. unfold iblock. now rewrite upd_ne. Qed.

Lemma data_map_ok V x len n d :
  map_ok sb V x len -> block_ok sb V n -> length d = Z.to_nat BSIZE -> n <> i_ind x -> map_ok sb (upd V n d) x len.
Proof.
  intros H Hn Hd Hi. assert (E : forall bn, iblock (upd V n d) x bn = iblock V x bn) by (intros; now apply (data_iblock V x len)).
  destruct H as [M1 M2 M3 M4 M5 M6 M7]. split; try done.
  - now apply data_block_ok.
  - intros Hi0. destruct (M3 Hi0). split; [now apply data_block_ok|done].
  - intros bn Hb. rewrite E. intros Hz. destruct (M4 bn Hb Hz) as (? & ? & ?). split; [now apply data_block_ok|done].
  - intros b1 b2 H1 H2. rewrite !E. auto.
  - intros bn H0 Hl. rewrite E. auto.
Qed.
End views.

(** ** Writing bytes of a file *)

(** From [(V, x)], a file of [len] bytes, to [(V', x')] by writing [data] at [off]. *)
Record edited (sb : superblock) (V : Z -> list Z) (x : inode) (len : Z) (V' : Z -> list Z) (x' : inode) (off : Z) (data : list Z) : Prop := {
  ed_fields : exists ad, x' = set_i_addrs ad x;
  ed_bytes : forall i, 0 <= i < Z.max len (off + Z.of_nat (length data)) ->
    fbyte V' x' i = if (off <=? i) && (i <? off + Z.of_nat (length data)) then data !!! Z.to_nat (i - off) else fbyte V x i;
  ed_other : forall n, block_ok sb V n -> ~ owned V x n -> V' n = V n;
  ed_ok : forall n, block_ok sb V n -> block_ok sb V' n;
  ed_own : forall n, block_ok sb V n -> owned V' x' n -> owned V x n }.

Lemma edited_nil sb V x len off : 0 <= off <= len -> edited sb V x len V x off [].
Proof.
  intros H. split; try done; [exists (i_addrs x); now destruct x|]. intros i Hi. cbn [length Z.of_nat]. rewrite Z.add_0_r.
  destruct (Z.leb_spec off i), (Z.ltb_spec i off); cbn [andb]; done || lia.
Qed.

Lemma edited_app sb V x len V1 x1 V2 x2 off d1 d2 :
  0 <= off <= len -> edited sb V x len V1 x1 off d1 ->
  edited sb V1 x1 (Z.max len (off + Z.of_nat (length d1))) V2 x2 (off + Z.of_nat (length d1)) d2 -> edited sb V x len V2 x2 off (d1 ++ d2).
Proof.
  intros Hoff [[ad A1] A2 A3 A4 A5] [[ad' B1] B2 B3 B4 B5]. split; [exists ad'; subst; now destruct x| | |auto..].
  - intros i Hi. rewrite length_app in *. rewrite B2 by lia.
    destruct (Z.leb_spec (off + Z.of_nat (length d1)) i), (Z.ltb_spec i (off + Z.of_nat (length d1) + Z.of_nat (length d2))),
      (Z.leb_spec off i), (Z.ltb_spec i (off + Z.of_nat (length d1 + length d2))); cbn [andb]; try lia.
    all: try (rewrite A2 by lia; destruct (Z.leb_spec off i), (Z.ltb_spec i (off + Z.of_nat (length d1))); cbn [andb]; try lia; try done).
    + rewrite lookup_total_app_r by lia. f_equal. lia.
    + rewrite lookup_total_app_l by lia. done.
  - intros n Hn Ho. rewrite <- A3 by done. apply B3; [auto|]. intros H. apply Ho. auto.
Qed.

(** One iteration: [bmap] and a write inside one block. *)
Lemma edited_block sb V x V1 x1 len off bytes :
  let bn := off / BSIZE in let a := iblock V1 x1 bn in
  map_ok sb V x len -> map_ok sb V1 x1 len -> grown sb V x V1 x1 bn -> a <> 0 -> 0 <= off <= len -> blockno_ok bn ->
  off mod BSIZE + Z.of_nat (length bytes) <= BSIZE -> (0 < length bytes)%nat ->
  let V2 := upd V1 a (list_put (V1 a) (Z.to_nat (off mod BSIZE)) bytes) in
  edited sb V x len V2 x1 off bytes /\ map_ok sb V2 x1 (Z.max len (off + Z.of_nat (length bytes))).
Proof.
  intros bn a M M1 G Ha Hoff Hb Hm Hpos V2. destruct (mo_block _ _ _ _ M1 bn Hb Ha) as (Ba & Hah & Hai). fold a in Ba, Hah, Hai.
  pose proof (bo_len _ _ _ Ba) as Hla. pose proof (mo_len _ _ _ _ M) as Hlen.
  assert (Hput : length (list_put (V1 a) (Z.to_nat (off mod BSIZE)) bytes) = Z.to_nat BSIZE) by (rewrite length_list_put by zdiv; done).
  assert (Ei : forall b, iblock V2 x1 b = iblock V1 x1 b) by (intros b; now apply (data_iblock sb V1 x1 len)).
  (* bytes outside the written range were there before *)
  assert (Hin : forall i, 0 <= i < Z.max len (off + Z.of_nat (length bytes)) -> i / BSIZE <> bn \/ ~ off <= i < off + Z.of_nat (length bytes) ->
    i < len /\ blockno_ok (i / BSIZE) /\ iblock V x (i / BSIZE) <> 0).
  { intros i Hi Hc. unfold blockno_ok, bn in *. change BSIZE with 1024 in *. change MAXFILE with 268 in *.
    assert (i < len) by zdiv. split; [done|]. split; [zdiv|]. apply (mo_full _ _ _ _ M); [zdiv|]. change BSIZE with 1024. zdiv. }
  assert (Hold : forall b, blockno_ok b -> iblock V x b <> 0 -> iblock V1 x1 b = iblock V x b /\ V1 (iblock V x b) = V (iblock V x b)).
  { intros b Hbb Hbz. split; [apply (gr_map _ _ _ _ _ _ G); auto|]. destruct (mo_block _ _ _ _ M b Hbb Hbz) as (B1 & _ & B3). now apply (gr_data _ _ _ _ _ _ G). }
  split; [split|].
  - apply (gr_fields _ _ _ _ _ _ G).
  - intros i Hi. unfold fbyte. rewrite Ei. destruct (decide (i / BSIZE = bn)) as [E|E].
    + rewrite E. fold a. unfold V2. rewrite upd_eq. rewrite list_lookup_total_alt, lookup_list_put by zdiv.
      destruct (Z.leb_spec off i), (Z.ltb_spec i (off + Z.of_nat (length bytes))); cbn [andb].
      * rewrite decide_True by (unfold bn in E; change BSIZE with 1024 in *; zdiv). rewrite list_lookup_total_alt. do 2 f_equal.
        unfold bn in E. change BSIZE with 1024 in *. zdiv.
      * rewrite decide_False by (unfold bn in E; change BSIZE with 1024 in *; zdiv). destruct (Hin i Hi) as (H1 & H2 & H3); [right; lia|].
        rewrite E in H2, H3. destruct (Hold bn H2 H3) as [E1 E2]. unfold a. rewrite E1, E2. symmetry. apply list_lookup_total_alt.
      * rewrite decide_False by (unfold bn in E; change BSIZE with 1024 in *; zdiv). destruct (Hin i Hi) as (H1 & H2 & H3); [right; lia|].
        rewrite E in H2, H3. destruct (Hold bn H2 H3) as [E1 E2]. unfold a. rewrite E1, E2. symmetry. apply list_lookup_total_alt.
      * lia.
    + destruct (Hin i Hi) as (H1 & H2 & H3); [now left|]. destruct (Hold _ H2 H3) as [E1 E2].
      replace ((off <=? i) && (i <? off + Z.of_nat (length bytes))) with false
        by (symmetry; apply andb_false_iff; unfold bn in E; change BSIZE with 1024 in *; rewrite Z.leb_gt, Z.ltb_ge; zdiv).
      rewrite E1. unfold V2. rewrite upd_ne; [now rewrite E2|]. intros Ea. apply E. apply (mo_inj _ _ _ _ M1); [done|done|congruence|]. unfold a in Ea. congruence.
  - intros n Hn Ho. assert (Hna : n <> a).
    { intros ->. apply Ho. apply (gr_own _ _ _ _ _ _ G); [done|]. right. now exists bn. }
    unfold V2. rewrite upd_ne by done. apply (gr_data _ _ _ _ _ _ G); [done|]. intros ->. apply Ho. now left.
  - intros n Hn. apply data_block_ok; [done|done|]. now apply (gr_ok _ _ _ _ _ _ G).
  - intros n Hn [->|(b & Hb' & E)]; apply (gr_own _ _ _ _ _ _ G); try done; [now left|right; exists b; now rewrite <- Ei].
  - assert (M2 : map_ok sb V2 x1 len) by now apply data_map_ok. destruct M2 as [N1 N2 N3 N4 N5 N6 N7]. split; try done.
    + intros b H0 Hl. destruct (decide (b = bn)) as [->|Hne]; [now rewrite Ei|]. apply N6; [done|]. unfold bn in *. change BSIZE with 1024 in *. zdiv.
    + unfold blockno_ok, bn in Hb. change MAXFILE with 268 in *. change BSIZE with 1024 in *. zdiv.
Qed.

(** ** The inode block *)

Section saved.
Context (sb : superblock).

Definition saved (V : Z -> list Z) (x : inode) : Z -> list Z := upd V (home sb x) (put_dinode (V (home sb x)) (i_inum x) (dinode_of x)).

Lemma home_not_owned V x len : map_ok sb V x len -> ~ owned V x (home sb x).
Proof.
  intros M. pose proof (bo_range _ _ _ (mo_home _ _ _ _ M)) as Hr. intros [E|(bn & Hb & E)].
  - destruct (mo_ind _ _ _ _ M); [lia|congruence].
  - destruct (mo_block _ _ _ _ M bn Hb) as (_ & H & _); [lia|congruence].
Qed.

Lemma length_saved V x len : map_ok sb V x len -> length (put_dinode (V (home sb x)) (i_inum x) (dinode_of x)) = Z.to_nat BSIZE.
Proof.
  intros M. pose proof (bo_len _ _ _ (mo_home _ _ _ _ M)) as Hl. unfold put_dinode. rewrite length_list_put; [done|].
  rewrite length_encode_dinode by apply M. now apply dinode_off_bound.
Qed.

Lemma saved_ok V x len : map_ok sb V x len -> map_ok sb (saved V x) x len /\ (alloc_ok sb V -> alloc_ok sb (saved V x)).
Proof.
  intros M. pose proof (home_not_owned V x len M) as Hno. pose proof (mo_home _ _ _ _ M) as Bh. split.
  - apply data_map_ok; [done|done|now apply (length_saved V x len)|]. intros E. apply Hno. now left.
  - intros Hal. now apply data_alloc_ok.
Qed.

Lemma saved_bytes V x len i : map_ok sb V x len -> 0 <= i < len -> fbyte (saved V x) x i = fbyte V x i.
Proof.
  intros M Hi. pose proof (home_not_owned V x len M) as Hno. pose proof (mo_len _ _ _ _ M).
  assert (E : iblock (saved V x) x (i / BSIZE) = iblock V x (i / BSIZE)) by (apply (data_iblock sb V x len _ _ _ M); intros E; apply Hno; now left).
  unfold fbyte. rewrite E. unfold saved. rewrite upd_ne; [done|]. intros E'. apply Hno. right. exists (i / BSIZE). split; [|done].
  unfold blockno_ok. change MAXFILE with 268 in *. change BSIZE with 1024 in *. zdiv.
Qed.

Lemma map_ok_size V x len sz : map_ok sb V x len -> 0 <= sz < 2 ^ 32 -> map_ok sb V (set_i_size sz x) len.
Proof. intros [[D1 D2 D3 D4 D5 D6 D7] M2 M3 M4 M5 M6 M7] Hs. split; try done. Qed.
End saved.

(** ** Free blocks *)

Definition nfree (sb : superblock) (V : Z -> list Z) : nat := length (filter (fun b => allocated sb V b = false) (seqZ 0 (sb_size sb))).

Lemma filter_ext_in {A} (P P' : A -> Prop) `{forall x, Decision (P x), forall x, Decision (P' x)} (l : list A) :
  (forall b, b ∈ l -> P b <-> P' b) -> filter P l = filter P' l.
Proof.
  induction l as [|b l IH]; intros Hiff; [done|]. rewrite !filter_cons, IH by (intros c Hc; apply Hiff; now right).
  pose proof (Hiff b ltac:(left)). destruct (decide (P b)), (decide (P' b)); tauto.
Qed.

Lemma filter_remove {A} (P P' : A -> Prop) `{forall x, Decision (P x), forall x, Decision (P' x)} (l : list A) a :
  NoDup l -> a ∈ l -> P a -> ~ P' a -> (forall b, b ∈ l -> b <> a -> P b <-> P' b) ->
  S (length (filter P' l)) = length (filter P l).
Proof.
  induction 1 as [|b l Hb Hd IH]; intros Ha HP HP' Hiff; [set_solver|]. rewrite !filter_cons. apply elem_of_cons in Ha as [->|Ha].
  - rewrite (decide_True (P := P b)), (decide_False (P := P' b)) by done. cbn [length]. f_equal. f_equal. apply filter_ext_in.
    intros c Hc. symmetry. apply Hiff; [now right|]. now intros ->.
  - assert (Hne : b <> a) by (intros ->; done). specialize (IH Ha HP HP' ltac:(intros c Hc; apply Hiff; now right)).
    pose proof (Hiff b ltac:(left) Hne). destruct (decide (P b)), (decide (P' b)); cbn [length]; try tauto; lia.
Qed.

Lemma nfree_first sb V : (0 < nfree sb V)%nat ->
  exists b, 0 <= b < sb_size sb /\ allocated sb V b = false /\ forall b', 0 <= b' < b -> allocated sb V b' = true.
Proof.
  intros H. unfold nfree in H. destruct (filter (fun b => allocated sb V b = false) (seqZ 0 (sb_size sb))) as [|b l] eqn:E; [cbn in H; lia|].
  assert (Hex : exists n, 0 <= Z.of_nat n < sb_size sb /\ allocated sb V (Z.of_nat n) = false).
  { assert (Hb : b ∈ filter (fun b => allocated sb V b = false) (seqZ 0 (sb_size sb))) by (rewrite E; left).
    apply list_elem_of_filter in Hb as [Hf Hb%elem_of_seqZ]. exists (Z.to_nat b). rewrite Z2Nat.id by lia. split; [lia|done]. }
  clear -Hex. destruct Hex as (n & Hn). induction n as [n IH] using lt_wf_ind.
  destruct (decide (Forall (fun m => allocated sb V (Z.of_nat m) = true) (seq 0 n))) as [Hall|Hall].
  - exists (Z.of_nat n). split; [lia|]. split; [apply Hn|]. intros b' Hb'. rewrite Forall_forall in Hall.
    specialize (Hall (Z.to_nat b')). rewrite Z2Nat.id in Hall by lia. apply Hall. apply elem_of_seq. lia.
  - apply not_Forall_Exists in Hall; [|intros m; apply _]. apply Exists_exists in Hall as (m & Hm%elem_of_seq & Hf).
    apply (IH m); [lia|]. split; [lia|]. apply not_true_iff_false. exact Hf.
Qed.

Lemma nfree_alloc sb V a :
  bitmap_ok sb V -> 0 <= a < sb_size sb -> allocated sb V a = false -> S (nfree sb (alloc_view sb a V)) = nfree sb V.
Proof.
  intros Hok Ha Hf. apply (filter_remove _ _ _ a).
  - apply NoDup_seqZ.
  - apply elem_of_seqZ. lia.
  - done.
  - rewrite allocated_alloc by done. rewrite Z.eqb_refl. done.
  - intros b Hb Hne. apply elem_of_seqZ in Hb. rewrite allocated_alloc by (done || lia). rewrite (proj2 (Z.eqb_neq b a)) by done. done.
Qed.

Lemma nfree_data sb V n d : block_ok sb V n -> nfree sb (upd V n d) = nfree sb V.
Proof.
  intros H. unfold nfree. f_equal. apply filter_ext_in. intros b Hb%elem_of_seqZ. rewrite (data_allocated sb V n d b H) by lia. done.
Qed.

(** ** An inode in use inside a transaction *)

Record file_state (p : nat) (dev st o : Z) (sb : superblock) (ip : nat) (bl : list Z) (V D : Z -> list Z) (x : inode) (len : Z) (k : kernel) : Prop := {
  fst_tx : tx p dev st o bl V D ∅ k;
  fst_sb : k_sb k = sb;
  fst_inode : k_inodes k !! ip = Some x;
  fst_dev : i_dev x = dev;
  fst_alloc : alloc_ok sb V;
  fst_map : map_ok sb V x len }.

(** Only the inode itself changes beyond what the transaction does. *)
Definition file_frame (ip : nat) (k k' : kernel) : Prop := exists x', fs_frame (upd_inode ip (fun _ => x') k) k'.

Lemma upd_inode_const ip f k x : k_inodes k !! ip = Some x -> upd_inode ip f k = upd_inode ip (fun _ => f x) k.
Proof.
  intros H. unfold upd_inode. f_equal. apply list_eq. intros i. destruct (decide (i = ip)) as [->|Hne].
  - now rewrite !list_lookup_alter_eq, H.
  - now rewrite !list_lookup_alter_ne.
Qed.

Lemma upd_inode_twice ip x y k : upd_inode ip (fun _ => y) (upd_inode ip (fun _ => x) k) = upd_inode ip (fun _ => y) k.
Proof.
  transitivity (set_k_inodes (alter (fun _ => y) ip (alter (fun _ => x) ip (k_inodes k))) k); [done|].
  unfold upd_inode. f_equal. apply list_eq. intros i. destruct (decide (i = ip)) as [->|Hne].
  - rewrite !list_lookup_alter_eq. now destruct (k_inodes k !! ip).
  - now rewrite !list_lookup_alter_ne.
Qed.

Lemma upd_inode_id ip k x : k_inodes k !! ip = Some x -> upd_inode ip (fun _ => x) k = k.
Proof.
  intros H. unfold upd_inode. replace (alter (fun _ => x) ip (k_inodes k)) with (k_inodes k); [now destruct k|].
  symmetry. apply list_eq. intros i. destruct (decide (i = ip)) as [->|Hne]; [now rewrite list_lookup_alter_eq, H|now rewrite list_lookup_alter_ne].
Qed.

Lemma get_inode_lookup ip k x : k_inodes k !! ip = Some x -> get_inode ip k = x.
Proof. apply list_lookup_total_correct. Qed.

Lemma file_frame_fs ip k k' x : k_inodes k !! ip = Some x -> fs_frame k k' -> file_frame ip k k'.
Proof. intros Hx H. exists x. now rewrite (upd_inode_id ip k x). Qed.

Lemma file_frame_upd ip k f x : k_inodes k !! ip = Some x -> file_frame ip k (upd_inode ip f k).
Proof. intros Hx. exists (f x). rewrite (upd_inode_const ip f k x Hx). reflexivity. Qed.

Lemma file_frame_trans ip k1 k2 k3 : file_frame ip k1 k2 -> file_frame ip k2 k3 -> file_frame ip k1 k3.
Proof.
  intros [x H1] [y H2]. exists y. etrans; [|exact H2]. pose proof (fs_frame_inode ip y _ _ H1) as H. now rewrite upd_inode_twice in H.
Qed.

Lemma fs_frame_inodes k k' : fs_frame k k' -> k_inodes k' = k_inodes k.
Proof. now apply fs_frame_eq. Qed.
Lemma fs_frame_sb k k' : fs_frame k k' -> k_sb k' = k_sb k.
Proof. now apply fs_frame_eq. Qed.
Lemma fs_frame_memory k k' : fs_frame k k' -> k_mem k' = k_mem k.
Proof. now apply fs_frame_eq. Qed.

Lemma file_frame_memory ip k k' : file_frame ip k k' -> k_mem k' = k_mem k.
Proof. intros [x H]. now rewrite (fs_frame_memory _ _ H). Qed.

(** The iterations a transfer of [n] bytes at [off] takes, one per block. *)
Definition rounds (off n : Z) : Z := if n =? 0 then 0 else (off mod BSIZE + n + BSIZE - 1) / BSIZE.

Lemma rounds_pos off n : 0 <= n -> 0 <= rounds off n.
Proof. intros. unfold rounds. change BSIZE with 1024. destruct (Z.eqb_spec n 0); zdiv. Qed.

Lemma rounds_step off n :
  0 <= off -> 0 < n -> let m := Z.min n (BSIZE - off mod BSIZE) in 0 < m <= BSIZE /\ rounds (off + m) (n - m) = rounds off n - 1.
Proof.
  intros H0 Hn m. unfold rounds, m. change BSIZE with 1024. destruct (Z.min_spec n (1024 - off mod 1024)) as [[H ->]|[H ->]];
    [rewrite Z.sub_diag|]; destruct (Z.eqb_spec n 0), (Z.eqb_spec (n - (1024 - off mod 1024)) 0); cbn [Z.eqb]; zdiv.
Qed.

Lemma rounds_bound off n : 0 <= n -> rounds off n <= n / BSIZE + 2.
Proof. intros. unfold rounds. change BSIZE with 1024. destruct (Z.eqb_spec n 0); zdiv. Qed.

Lemma length_fbytes V x off n : length (fbytes V x off n) = Z.to_nat n.
Proof. unfold fbytes. now rewrite length_map, length_seqZ. Qed.

Lemma fbytes_split V x off m n : 0 <= m <= n -> fbytes V x off n = fbytes V x off m ++ fbytes V x (off + m) (n - m).
Proof. intros H. unfold fbytes. replace n with (m + (n - m)) at 1 by lia. now rewrite seqZ_app, map_app by lia. Qed.

(** Part of one block of the file. *)
Lemma fbytes_block V x off m :
  0 <= off -> 0 <= m <= BSIZE - off mod BSIZE -> length (V (iblock V x (off / BSIZE))) = Z.to_nat BSIZE ->
  list_sub (V (iblock V x (off / BSIZE))) (Z.to_nat (off mod BSIZE)) (Z.to_nat m) = fbytes V x off m.
Proof.
  intros H0 Hm Hl. apply list_eq. intros i. rewrite lookup_list_sub. unfold fbytes. rewrite list_lookup_fmap. case_decide as Hi.
  - rewrite lookup_seqZ_lt by lia. cbn [fmap option_fmap option_map]. unfold fbyte. change BSIZE with 1024 in *.
    replace ((off + Z.of_nat i) / 1024) with (off / 1024) by zdiv. replace ((off + Z.of_nat i) mod 1024) with (off mod 1024 + Z.of_nat i) by zdiv.
    rewrite list_lookup_lookup_total_lt by zdiv. do 2 f_equal. zdiv.
  - rewrite lookup_seqZ_ge by lia. done.
Qed.

Lemma store_app m a l1 l2 x : Kstring.store (Kstring.store m a l1) (a + Z.of_nat (length l1)) l2 x = Kstring.store m a (l1 ++ l2) x.
Proof.
  unfold Kstring.store. rewrite length_app. destruct (Z.leb_spec a x), (Z.ltb_spec x (a + Z.of_nat (length l1))),
    (Z.leb_spec (a + Z.of_nat (length l1)) x), (Z.ltb_spec x (a + Z.of_nat (length l1) + Z.of_nat (length l2))),
    (Z.ltb_spec x (a + Z.of_nat (length l1 + length l2))); cbn [andb]; try lia; try done.
  - now rewrite app_nth1 by lia.
  - rewrite app_nth2 by lia. f_equal. lia.
Qed.

Lemma wp_copyout_kernel {B} (cont : Z -> K B) Q k dst src :
  ready k -> (forall k', noise k k' -> wp (cont 0) Q (set_k_mem (Kstring.store (k_mem k) dst src) k')) ->
  wp (let* r := either_copyout false dst src in cont r) Q k.
Proof.
  intros Hr H. destruct (myproc_run k Hr) as (k1 & E & Hn). specialize (H k1 Hn). unfold either_copyout.
  unfold wp, bind at 1. unfold bind at 1. rewrite E. unfold memwrite, bind, modify, ret. now rewrite (noise_eq k_mem _ _ ltac:(done) Hn).
Qed.

Lemma wp_copyin_kernel {B} (cont : Z * list Z -> K B) Q k src n :
  ready k -> (forall k', noise k k' -> wp (cont (0, load (k_mem k) src (Z.to_nat n))) Q k') ->
  wp (let* r := either_copyin false src n in cont r) Q k.
Proof.
  intros Hr H. destruct (myproc_run k Hr) as (k1 & E & Hn). specialize (H k1 Hn). unfold either_copyin.
  unfold wp, bind at 1. unfold bind at 1. rewrite E. unfold bind, gets, ret. now rewrite (noise_eq k_mem _ _ ltac:(done) Hn).
Qed.

Lemma load_split m a i n : 0 <= i <= n -> load m a (Z.to_nat n) = load m a (Z.to_nat i) ++ load m (a + i) (Z.to_nat (n - i)).
Proof.
  intros H. unfold load. replace (Z.to_nat n) with (Z.to_nat i + Z.to_nat (n - i))%nat by lia. rewrite seq_app, map_app. f_equal.
  cbn [Nat.add]. pose proof (fmap_add_seq (Z.to_nat i) 0 (Z.to_nat (n - i))) as E. rewrite Nat.add_0_r in E. rewrite <- E.
  change (fmap (Nat.add (Z.to_nat i))) with (map (Nat.add (Z.to_nat i))). rewrite map_map. apply map_ext. intros j. f_equal. lia.
Qed.

(** *** Where [writei] takes its bytes from *)

Lemma fs_frame_proc {A} (f : proc -> A) p k k' :
  (forall x, f (set_p_state RUNNABLE x) = f x) -> fs_frame k k' -> f (get_proc p k') = f (get_proc p k).
Proof.
  intros Hf (l & _ & (b & h & d & w & ps & Hw & Hn)). rewrite (noise_proc _ _ _ Hn). unfold get_proc. cbn in *. rewrite !list_lookup_total_alt.
  destruct (k_procs k !! p) as [x|] eqn:E.
  - destruct (Forall2_lookup_l _ _ _ _ _ Hw E) as (y & -> & [-> | [_ ->]]); [done|apply Hf].
  - apply lookup_ge_None in E. rewrite (Forall2_length _ _ _ Hw) in E. apply lookup_ge_None in E. now rewrite E.
Qed.

(** The bytes at [src]: of the kernel's memory, or of the address space of the process,
    readable throughout. *)
Definition source (user : bool) (src : Z) (data : list Z) (k : kernel) : Prop :=
  let n := Z.of_nat (length data) in
  if user then exists e root G pr, h_proc (k_hart k) = Some pr /\ p_pagetable (get_proc pr k) = root /\ aspace e (k_mem k) root G /\
    src + n <= 2 ^ 63 /\ (forall j, 0 <= j < n -> upage (k_mem k) G (src + j) = true) /\ data = ubytes (k_mem k) G src n
  else src + n < 2 ^ 64 /\ data = load (k_mem k) src (length data).

Lemma source_bound user src data k : source user src data k -> src + Z.of_nat (length data) < 2 ^ 64.
Proof. destruct user; cbn; [intros (e & root & G & pr & _ & _ & _ & H & _); lia|now intros [H _]]. Qed.

Lemma source_frame ip user src data k k' : file_frame ip k k' -> source user src data k -> source user src data k'.
Proof.
  intros [x F]. pose proof (fs_frame_memory _ _ F) as Em. cbn in Em. destruct user; cbn; rewrite Em; [|done].
  intros (e & root & G & pr & H1 & H2 & H). exists e, root, G, pr. rewrite (fs_frame_proc p_pagetable pr _ _ ltac:(done) F).
  rewrite (fs_frame_eq (fun k => h_proc (k_hart k)) _ _ ltac:(done) ltac:(done) F). done.
Qed.

Lemma length_ubytes m G va n : 0 <= n -> Z.of_nat (length (ubytes m G va n)) = n.
Proof. intros H. unfold ubytes. rewrite length_fmap, length_seqZ. lia. Qed.

Lemma source_advance user src data k m : 0 <= m <= Z.of_nat (length data) ->
  source user src data k -> source user (src + m) (drop (Z.to_nat m) data) k.
Proof.
  intros Hm. assert (El : Z.of_nat (length (drop (Z.to_nat m) data)) = Z.of_nat (length data) - m) by (rewrite length_drop; lia).
  destruct user; cbn zeta; unfold source; rewrite El.
  - intros (e & root & G & pr & H1 & H2 & H3 & H4 & H5 & H6). exists e, root, G, pr. split; [done|]. split; [done|]. split; [done|]. split; [lia|].
    split; [intros j Hj; rewrite <- Z.add_assoc; apply H5; lia|]. rewrite H6 at 1.
    replace (Z.of_nat (length data)) with (m + (Z.of_nat (length data) - m)) at 1 by lia. rewrite ubytes_app by lia.
    apply drop_app_length'. pose proof (length_ubytes (k_mem k) G src m ltac:(lia)). lia.
  - intros [H1 H2]. split; [lia|]. rewrite length_drop. rewrite H2 at 1. rewrite <- (Nat2Z.id (length data)) at 1. rewrite (load_split _ _ m) by lia.
    rewrite drop_app_length' by (rewrite length_load; done). f_equal. lia.
Qed.

Lemma wp_copyin_source {B} (cont : Z * list Z -> K B) Q k user src data m :
  ready k -> source user src data k -> 0 <= src -> 0 <= m <= Z.of_nat (length data) ->
  (forall k', noise k k' -> wp (cont (0, take (Z.to_nat m) data)) Q k') ->
  wp (let* r := either_copyin user src m in cont r) Q k.
Proof.
  intros Hr Hs H0 Hm H. destruct user.
  - destruct Hs as (e & root & G & pr & H1 & H2 & H3 & H4 & H5 & H6). destruct (myproc_run k Hr) as (k1 & E & Hn). specialize (H k1 Hn).
    unfold either_copyin. unfold wp, bind at 1. unfold bind at 1. rewrite E, H1. unfold bind, gets. rewrite (noise_proc _ _ _ Hn), H2.
    assert (Em : k_mem k1 = k_mem k) by exact (noise_eq k_mem _ _ ltac:(done) Hn). rewrite <- Em in H3.
    destruct (copyin_loop_run e root G k1 (Z.to_nat m) src m H3 H0 ltac:(lia) ltac:(lia) ltac:(lia)) as (n & (Hn1 & _ & Hn2) & Ec).
    assert (n = m) as ->. { destruct (decide (n = m)); [done|]. rewrite Em, H5 in Hn2 by lia. discriminate Hn2. lia. }
    unfold copyin. rewrite Ec, Z.eqb_refl. rewrite H6 in H.
    replace (Z.of_nat (length data)) with (m + (Z.of_nat (length data) - m)) in H by lia. rewrite ubytes_app, take_app_length' in H; [|pose proof (length_ubytes (k_mem k) G src m ltac:(lia)); lia|lia|lia].
    rewrite Em. exact H.
  - destruct Hs as [H1 H2]. apply wp_copyin_kernel; [done|]. intros k' Hn. specialize (H k' Hn). rewrite H2 in H. rewrite <- (Nat2Z.id (length data)) in H. rewrite (load_split _ _ m) in H by lia.
    rewrite take_app_length' in H by (rewrite length_load; done). exact H.
Qed.

Section contents.
Context (p : nat) (dev st o : Z) (sb : superblock) (ip : nat) (D : Z -> list Z).
Notation fstate bl V x len k := (file_state p dev st o sb ip bl V D x len k).

Lemma img_empty (n : Z) : n ∉ img ∅.
Proof. unfold img. rewrite map_img_empty_L. set_solver. Qed.

Lemma img_single (b : nat) (n m : Z) : m <> n -> m ∉ img {[b := n]}.
Proof. unfold img. rewrite map_img_singleton_L. set_solver. Qed.

(** The same file after steps that touched neither the blocks nor the inode. *)
Lemma fstate_frame bl V x len k k' : fstate bl V x len k -> tx p dev st o bl V D ∅ k' -> fs_frame k k' -> fstate bl V x len k'.
Proof.
  intros [H1 H2 H3 H4 H5 H6] T F. split; try done; [now rewrite (fs_frame_sb _ _ F)|now rewrite (fs_frame_inodes _ _ F)].
Qed.

(** A mapped block: [bmap] only looks. *)
Lemma wp_bmap_mapped bl V x len k bn Q :
  fstate bl V x len k -> blockno_ok bn -> iblock V x bn <> 0 -> (length bl < NBUF)%nat ->
  (forall k', fstate bl V x len k' -> fs_frame k k' -> Q (iblock V x bn) k') -> wp (bmap ip bn) Q k.
Proof.
  intros F Hb Hn Hl HQ. pose proof (get_inode_lookup _ _ _ (fst_inode _ _ _ _ _ _ _ _ _ _ _ _ F)) as Ex. unfold bmap. apply wp_bind, wp_gets.
  rewrite Ex, (fst_dev _ _ _ _ _ _ _ _ _ _ _ _ F). unfold blockno_ok, MAXFILE in Hb. unfold iblock in Hn, HQ. destruct (Z.ltb_spec bn (Z.of_nat NDIRECT)) as [Hlt|Hge].
  - apply wp_bind, wp_gets. unfold inode_addr. rewrite Ex. rewrite (proj2 (Z.eqb_neq _ 0)) by done. apply wp_ret. apply HQ; [done|reflexivity].
  - rewrite (proj2 (Z.ltb_lt _ _)) by lia. destruct (Z.eqb_spec (i_ind x) 0) as [|Hi]; [done|].
    apply wp_bind, wp_gets. unfold inode_addr. rewrite Ex. fold (i_ind x). rewrite (proj2 (Z.eqb_neq (i_ind x) 0)) by done. apply wp_bind, wp_ret.
    apply (wp_tx_read p dev st o _ _ _ _ _ _ _ _ (fst_tx _ _ _ _ _ _ _ _ _ _ _ _ F)); [apply img_empty|rewrite map_size_empty; lia|].
    intros b k1 Hbn T1 Ed Hcl F1. apply wp_bind, wp_gets. rewrite Ed. rewrite (proj2 (Z.eqb_neq _ 0)) by done. apply wp_bind, wp_ret.
    apply (wp_tx_drop p dev st o _ _ _ _ _ _ _ _ _ T1 Hbn Hcl). intros k2 T2 F2. apply wp_ret.
    assert (F12 : fs_frame k k2) by (etrans; [exact F1|exact F2]). apply HQ; [now apply (fstate_frame bl V x len k)|done].
Qed.

Lemma fstate_mem bl V x len k m : fstate bl V x len k -> fstate bl V x len (set_k_mem m k).
Proof. intros [H1 H2 H3 H4 H5 H6]. split; try done. now apply tx_mem. Qed.

(** *** Reading *)

(** The block at [off < len] is there and holds the next bytes. *)
Lemma read_bounds V x off n len :
  map_ok sb V x len -> 0 <= off -> 0 < n -> off + n <= len ->
  let m := Z.min n (BSIZE - off mod BSIZE) in
  blockno_ok (off / BSIZE) /\ iblock V x (off / BSIZE) <> 0 /\
  list_sub (V (iblock V x (off / BSIZE))) (Z.to_nat (off mod BSIZE)) (Z.to_nat m) = fbytes V x off m /\
  0 < m <= n /\ rounds (off + m) (n - m) = rounds off n - 1 /\ off + n < 2 ^ 32.
Proof.
  intros M H0 Hn Hlen m. pose proof (mo_len _ _ _ _ M) as Hmax. destruct (rounds_step off n H0 Hn) as [Hm Hr]. fold m in Hm, Hr.
  assert (Hb : blockno_ok (off / BSIZE)) by (unfold blockno_ok; change MAXFILE with 268 in *; change BSIZE with 1024 in *; zdiv).
  assert (Hi : iblock V x (off / BSIZE) <> 0) by (apply (mo_full _ _ _ _ M); change BSIZE with 1024; zdiv).
  destruct (mo_block _ _ _ _ M _ Hb Hi) as [Hbo _]. change MAXFILE with 268 in *. change BSIZE with 1024 in Hmax.
  split; [done|]. split; [done|]. split; [apply fbytes_block; [done|lia|apply (bo_len _ _ _ Hbo)]|]. split; [lia|]. split; [done|lia].
Qed.

Lemma wp_readi_loop fuel bl V x len k dst off tot n Q :
  fstate bl V x len k -> 0 <= off -> 0 <= tot <= n -> off + (n - tot) <= len -> n < 2 ^ 31 -> 0 <= dst -> dst + (n - tot) < 2 ^ 64 ->
  rounds off (n - tot) < Z.of_nat fuel -> (length bl + 1 < NBUF)%nat ->
  (forall k' m, fstate bl V x len k' -> fs_frame (set_k_mem m k) k' ->
     (forall a, m a = Kstring.store (k_mem k) dst (fbytes V x off (n - tot)) a) -> Q n k') ->
  wp (readi_loop fuel ip false dst off tot n) Q k.
Proof.
  revert k dst off tot. induction fuel as [|fuel IH]; intros k dst off tot F H1 H2 H3 H4 H5 H6 Hfuel Hl HQ; [pose proof (rounds_pos off (n - tot)); lia|].
  cbn [readi_loop]. destruct (Z.ltb_spec tot n) as [Hlt|Hge]; cbn [negb].
  2: { apply wp_ret. replace tot with n in * by lia. apply (HQ k (k_mem k)); [done| |]; [destruct k; reflexivity|].
    intros a. rewrite Z.sub_diag. symmetry. apply store_other. rewrite length_fbytes. lia. }
  destruct (read_bounds V x off (n - tot) len (fst_map _ _ _ _ _ _ _ _ _ _ _ _ F)) as (B1 & B2 & B3 & B4 & B5 & B6); [lia..|].
  set (m := Z.min (n - tot) (BSIZE - off mod BSIZE)) in *.
  apply wp_bind, wp_gets. rewrite (get_inode_lookup _ _ _ (fst_inode _ _ _ _ _ _ _ _ _ _ _ _ F)), (fst_dev _ _ _ _ _ _ _ _ _ _ _ _ F).
  apply wp_bind. apply (wp_bmap_mapped bl V x len k _ _ F B1 B2); [lia|]. intros k1 F1 R1.
  apply (wp_tx_read p dev st o _ _ _ _ _ _ _ _ (fst_tx _ _ _ _ _ _ _ _ _ _ _ _ F1)); [apply img_empty|rewrite map_size_empty; lia|].
  intros b k2 Hbn T2 Ed Hcl R2. apply wp_bind, wp_gets. rewrite Ed.
  apply (wp_copyout_kernel _ _ k2 _ _ (tx_ready _ _ _ _ _ _ _ _ _ T2)). intros k3 N3. cbn [Z.eqb].
  apply (wp_tx_drop p dev st o _ _ _ _ _ _ _ _ _ (tx_mem _ _ _ _ _ _ _ _ _ _ (tx_noise _ _ _ _ _ _ _ _ _ _ T2 N3)) Hbn Hcl). intros k4 T4 R4.
  assert (R : fs_frame (set_k_mem (Kstring.store (k_mem k) dst (fbytes V x off m)) k) k4).
  { rewrite <- (fs_frame_memory k k2) by (etrans; [exact R1|exact R2]). rewrite <- B3. etrans; [|exact R4].
    apply fs_frame_mem. etrans; [exact R1|]. etrans; [exact R2|]. now apply fs_frame_bio, noise_frame. }
  assert (F4 : fstate bl V x len k4) by (apply (fstate_frame bl V x len (set_k_mem (Kstring.store (k_mem k) dst (fbytes V x off m)) k)); [now apply fstate_mem|done|done]).
  rewrite u64_small, !u32_small by lia. apply IH; [done|lia|lia|lia|lia|lia|lia|replace (n - (tot + m)) with (n - tot - m) by lia; rewrite B5; lia|done|].
  intros k' m' F' R' Em. apply (HQ k' m'); [done|etrans; [apply (fs_frame_mem m' _ _ R)|exact R']|].
  intros a. rewrite Em, (fs_frame_memory _ _ R). cbn [k_mem set_k_mem]. rewrite (fbytes_split V x off m (n - tot)) by lia.
  rewrite <- store_app, length_fbytes, Z2Nat.id by lia. do 2 f_equal; lia.
Qed.

(** *** Growing the file *)

Hypothesis Ho : 1 <= o.

Lemma wp_balloc_any bl V H k Q :
  tx p dev st o bl V D H k -> k_sb k = sb -> alloc_ok sb V -> (0 < nfree sb V)%nat -> (forall n, n ∈ img H -> block_ok sb V n) ->
  (length bl + 1 + size H < NBUF)%nat -> Z.of_nat (length bl) + 1 < LOGSIZE - 1 ->
  (forall a bl' k', 0 <= a < sb_size sb -> allocated sb V a = false -> (length bl' <= length bl + 2)%nat ->
     tx p dev st o bl' (alloc_view sb a V) D H k' -> fs_frame k k' -> Q a k') ->
  wp (balloc dev) Q k.
Proof.
  intros T Hsb Hal Hf Hh Hr Hl HQ. destruct (nfree_first sb V Hf) as (a & Ha & Hfa & Hlow).
  apply (wp_balloc p dev st o sb Ho bl V D H k a); try done; [apply Hal|..].
  - intros b Hb Hin. exact (bo_data _ _ _ (Hh _ Hin) b Hb eq_refl).
  - intros Hin. pose proof (bo_used _ _ _ (Hh _ Hin)). congruence.
  - intros k' T' F'. apply (HQ a (absorbed a (absorbed (BBLOCK a sb) bl))); try done.
    pose proof (length_absorbed a (absorbed (BBLOCK a sb) bl)). pose proof (length_absorbed (BBLOCK a sb) bl). lia.
Qed.

(** The end of [bmap] for a block the indirect block has no entry for. *)
Lemma wp_bmap_entry bl V x len k bn Q :
  fstate bl V x len k -> blockno_ok bn -> Z.of_nat NDIRECT <= bn -> i_ind x <> 0 -> iblock V x bn = 0 -> (0 < nfree sb V)%nat ->
  Z.of_nat (length bl) + 3 < LOGSIZE - 1 ->
  (forall bl' V' k', fstate bl' V' x len k' -> grown sb V x V' x bn -> iblock V' x bn <> 0 ->
     (length bl' <= length bl + 3)%nat -> (nfree sb V <= nfree sb V' + 1)%nat -> fs_frame k k' -> Q (iblock V' x bn) k') ->
  wp (let* bp := bread dev (i_ind x) in
      let* addr := gets (fun k => get32 (b_data (get_buf bp k)) (Z.to_nat (4 * (bn - Z.of_nat NDIRECT)))) in
      let* addr :=
        (if addr =? 0 then
           let* addr := balloc dev in
           modify (upd_buf bp (fun b => set_b_data (put32 (b_data b) (Z.to_nat (4 * (bn - Z.of_nat NDIRECT))) addr) b)) ;;;
           log_write bp ;;;
           ret addr
         else ret addr) in
      brelse bp ;;;
      ret addr) Q k.
Proof.
  intros F Hb Hge Hi H0 Hnf Hl HQ. pose proof F as [T Hsb Hip Hdev Hal Hm]. destruct (mo_ind _ _ _ _ Hm Hi) as [Bi _].
  assert (Hl30 : LOGSIZE - 1 = 29 /\ NBUF = 30%nat) by done.
  apply (wp_tx_read p dev st o _ _ _ _ _ _ _ _ T); [apply img_empty|rewrite map_size_empty; lia|].
  intros b k1 Hbn T1 Ed Hcl F1. apply wp_bind, wp_gets. rewrite Ed.
  assert (E0 : get32 (V (i_ind x)) (Z.to_nat (4 * (bn - Z.of_nat NDIRECT))) = 0).
  { unfold iblock in H0. rewrite (proj2 (Z.ltb_ge _ _)), (proj2 (Z.eqb_neq (i_ind x) 0)) in H0 by (done || lia). done. }
  rewrite E0. cbn [Z.eqb]. apply wp_bind, wp_bind. eapply (wp_balloc_any bl V _ k1); [exact T1|now rewrite (fs_frame_sb _ _ F1)|done|done| |..].
  { intros n. rewrite img_insert by done. unfold img. rewrite map_img_empty_L. intros Hn. assert (n = i_ind x) as -> by set_solver. done. }
  { rewrite map_size_insert_None, map_size_empty by done. lia. }
  { lia. }
  intros a bl' k2 Ha Hfa Hbl' T2 F2. destruct (grow_entry sb V x len a Hal Hm Ha Hfa bn Hi Hge Hb H0) as (G & M & Ea).
  assert (Hind : alloc_view sb a V (i_ind x) = V (i_ind x)) by now apply (ind_alloc sb V x len a).
  destruct (tx_held _ _ _ _ _ _ _ _ _ _ _ T2 (lookup_insert_eq _ _ _)) as [Ed2 _].
  apply wp_bind, wp_modify. rewrite (upd_buf_data b k2 (fun d => put32 d (Z.to_nat (4 * (bn - Z.of_nat NDIRECT))) a) _ Ed2), Hind. apply wp_bind.
  pose proof (bo_range _ _ _ Bi). pose proof (bm_size _ _ (ao_bitmap _ _ Hal)).
  eapply (wp_tx_log_write p dev st o); [apply tx_set; [exact T2|apply lookup_insert_eq]|apply lookup_insert_eq|lia|exact (tx_block_apart _ _ _ _ _ _ _ _ _ _ _ _ T Hsb Bi)|done|lia|].
  intros k3 T3 F3. apply wp_ret. eapply (wp_tx_drop p dev st o); [exact T3|done|left; eapply absorbed_nodup, tx_nodup, T2|].
  intros k4 T4 F4. apply wp_ret. assert (R : fs_frame k k4).
  { etrans; [exact F1|]. etrans; [exact F2|]. etrans; [|exact F4]. etrans; [apply fs_frame_data|]. apply fs_frame_log, F3. }
  rewrite <- Ea at 1. eapply HQ; [..|exact R].
  - split; [exact T4|now rewrite (fs_frame_sb _ _ R)|now rewrite (fs_frame_inodes _ _ R)|done|apply (gr_alloc _ _ _ _ _ _ G)|exact M].
  - exact G.
  - rewrite Ea. intros ->. pose proof (ao_zero _ _ Hal). congruence.
  - pose proof (length_absorbed (i_ind x) bl'). lia.
  - rewrite nfree_data; [rewrite <- (nfree_alloc sb V a (ao_bitmap _ _ Hal) Ha Hfa); lia|].
    now apply (fresh_facts sb V a).
Qed.

(** What [bmap] may have done to the file. *)
Definition mapped (bl : list Z) V x len k bn (bl' : list Z) V' x' k' : Prop :=
  fstate bl' V' x' len k' /\ grown sb V x V' x' bn /\ iblock V' x' bn <> 0 /\
  (length bl' <= length bl + 5)%nat /\ (nfree sb V <= nfree sb V' + 2)%nat /\ file_frame ip k k'.

(** The inode with a new address [a], after [balloc]. *)
Lemma fstate_put_addr bl V x len k bl' V' k' i a :
  fstate bl V x len k -> tx p dev st o bl' V' D ∅ k' -> fs_frame k k' -> alloc_ok sb V' -> map_ok sb V' (put_addr i a x) len ->
  fstate bl' V' (put_addr i a x) len (upd_inode ip (fun x => set_i_addrs (<[i := a]> (i_addrs x)) x) k') /\
  file_frame ip k (upd_inode ip (fun x => set_i_addrs (<[i := a]> (i_addrs x)) x) k').
Proof.
  intros [H1 H2 H3 H4 H5 H6] T R Hal Hm. assert (Hx : k_inodes k' !! ip = Some x) by now rewrite (fs_frame_inodes _ _ R).
  split; [split; try done|].
  - now apply tx_inode.
  - cbn. now rewrite (fs_frame_sb _ _ R).
  - cbn. now rewrite list_lookup_alter_eq, Hx.
  - eapply file_frame_trans; [eapply file_frame_fs; [exact H3|exact R]|]. eapply file_frame_upd, Hx.
Qed.

Lemma fstate_tx bl V x len k bl' V' k' :
  fstate bl V x len k -> tx p dev st o bl' V' D ∅ k' -> fs_frame k k' -> alloc_ok sb V' -> map_ok sb V' x len -> fstate bl' V' x len k'.
Proof. intros [H1 H2 H3 H4 H5 H6] T R Hal Hm. split; try done; [now rewrite (fs_frame_sb _ _ R)|now rewrite (fs_frame_inodes _ _ R)]. Qed.

Lemma wp_bmap bl V x len k bn Q :
  fstate bl V x len k -> blockno_ok bn -> (2 <= nfree sb V)%nat -> Z.of_nat (length bl) + 5 < LOGSIZE - 1 ->
  (forall bl' V' x' k', mapped bl V x len k bn bl' V' x' k' -> Q (iblock V' x' bn) k') -> wp (bmap ip bn) Q k.
Proof.
  intros F Hb Hnf Hl HQ. pose proof F as [T Hsb Hip Hdev Hal Hm]. assert (Hl30 : LOGSIZE - 1 = 29 /\ NBUF = 30%nat) by done.
  assert (Hb' := Hb). unfold blockno_ok, MAXFILE in Hb'. pose proof (get_inode_lookup _ _ _ Hip) as Ex.
  destruct (decide (iblock V x bn = 0)) as [H0|H0].
  2: { apply (wp_bmap_mapped bl V x len k bn _ F Hb H0); [lia|]. intros k' F' R. apply (HQ bl). split; [done|].
    split; [now apply grown_refl|]. split; [done|]. split; [lia|]. split; [lia|]. eapply file_frame_fs; [exact Hip|eassumption]. }
  unfold bmap. apply wp_bind, wp_gets. rewrite Ex, Hdev. destruct (Z.ltb_spec bn (Z.of_nat NDIRECT)) as [Hlt|Hge].
  - apply wp_bind, wp_gets. unfold inode_addr. rewrite Ex. unfold iblock in H0. rewrite (proj2 (Z.ltb_lt _ _) Hlt) in H0. rewrite H0. cbn [Z.eqb].
    apply wp_bind. apply (wp_balloc_any bl V ∅ k); try done; [lia|rewrite map_size_empty; lia|lia|].
    intros a bl' k1 Ha Hfa Hbl T1 R1. destruct (grow_direct sb V x len a Hal Hm Ha Hfa bn ltac:(lia)) as (G & M & Ea).
    { unfold iblock. now rewrite (proj2 (Z.ltb_lt _ _) Hlt). }
    destruct (fstate_put_addr bl V x len k bl' _ k1 (Z.to_nat bn) a F T1 R1 (gr_alloc _ _ _ _ _ _ G) M) as [F1 R].
    apply wp_bind, wp_modify, wp_ret. rewrite <- Ea at 1. apply (HQ bl'). split; [exact F1|]. split; [exact G|].
    split; [rewrite Ea; intros ->; pose proof (ao_zero _ _ Hal); congruence|]. split; [lia|].
    split; [rewrite <- (nfree_alloc sb V a (ao_bitmap _ _ Hal) Ha Hfa); lia|exact R].
  - rewrite (proj2 (Z.ltb_lt _ _)) by lia. apply wp_bind, wp_gets. unfold inode_addr. rewrite Ex. fold (i_ind x).
    destruct (Z.eqb_spec (i_ind x) 0) as [Hi|Hi].
    + apply wp_bind, wp_bind. apply (wp_balloc_any bl V ∅ k); try done; [lia|rewrite map_size_empty; lia|lia|].
      intros a bl1 k1 Ha Hfa Hbl T1 R1. destruct (grow_root sb V x len a Hal Hm Ha Hfa bn Hi) as (G & M & Ei & Eb).
      destruct (fstate_put_addr bl V x len k bl1 _ k1 NDIRECT a F T1 R1 (gr_alloc _ _ _ _ _ _ G) M) as [F1 R].
      apply wp_bind, wp_modify, wp_ret. rewrite <- Ei at 1. pose proof (nfree_alloc sb V a (ao_bitmap _ _ Hal) Ha Hfa).
      apply (wp_bmap_entry bl1 _ _ len _ bn _ F1 Hb Hge); [|now rewrite Eb|lia|lia|].
      { rewrite Ei. intros ->. pose proof (ao_zero _ _ Hal). congruence. }
      intros bl2 V2 k2 F2 G2 Hn2 Hbl2 Hnf2 R2. apply (HQ bl2). split; [exact F2|]. split; [exact (grown_trans sb _ _ _ _ _ _ _ G G2)|].
      split; [done|]. split; [lia|]. split; [lia|]. eapply file_frame_trans; [exact R|]. eapply file_frame_fs; [|exact R2]. apply F1.
    + apply wp_bind, wp_ret. apply (wp_bmap_entry bl V x len k bn _ F Hb Hge Hi H0); [lia|lia|].
      intros bl2 V2 k2 F2 G2 Hn2 Hbl2 Hnf2 R2. apply (HQ bl2). split; [exact F2|]. split; [exact G2|].
      split; [done|]. split; [lia|]. split; [lia|]. eapply file_frame_fs; [exact Hip|eassumption].
Qed.

(** *** Writing *)

Lemma wp_writei_loop fuel user bl V x len k src data off tot n Q :
  fstate bl V x len k -> 0 <= off <= len -> 0 <= tot <= n -> off + (n - tot) <= MAXFILE * BSIZE -> n < 2 ^ 31 -> 0 <= src ->
  source user src data k -> Z.of_nat (length data) = n - tot ->
  rounds off (n - tot) < Z.of_nat fuel -> Z.of_nat (length bl) + 6 * rounds off (n - tot) < LOGSIZE - 1 -> 2 * rounds off (n - tot) <= Z.of_nat (nfree sb V) ->
  (forall bl' V' x' k', fstate bl' V' x' (Z.max len (off + (n - tot))) k' ->
     edited sb V x len V' x' off data ->
     Z.of_nat (length bl') <= Z.of_nat (length bl) + 6 * rounds off (n - tot) ->
     Z.of_nat (nfree sb V) <= Z.of_nat (nfree sb V') + 2 * rounds off (n - tot) -> file_frame ip k k' -> Q (off + (n - tot)) k') ->
  wp (writei_loop fuel ip user src off tot n) Q k.
Proof.
  revert bl V x len k src data off tot. induction fuel as [|fuel IH]; intros bl V x len k src data off tot F H1 H2 H3 H4 H5 Hsrc Hdl Hfuel Hlog Hnf HQ;
    [pose proof (rounds_pos off (n - tot)); lia|].
  cbn [writei_loop]. pose proof F as [T Hsb Hip Hdev Hal Hm]. destruct (Z.ltb_spec tot n) as [Hlt|Hge]; cbn [negb].
  2: { apply wp_ret. replace tot with n in * by lia. rewrite Z.sub_diag, Z.add_0_r, Z.max_l in HQ by lia.
    assert (data = []) as -> by (apply length_zero_iff_nil; lia). apply (HQ bl V x k); [done|now apply edited_nil|pose proof (rounds_pos off 0); lia|pose proof (rounds_pos off 0); lia|]. eapply file_frame_fs; [exact Hip|reflexivity]. }
  destruct (rounds_step off (n - tot) ltac:(lia) ltac:(lia)) as [B1 B2]. pose proof (rounds_pos (off + Z.min (n - tot) (BSIZE - off mod BSIZE)) (n - tot - Z.min (n - tot) (BSIZE - off mod BSIZE)) ltac:(lia)).
  set (m := Z.min (n - tot) (BSIZE - off mod BSIZE)) in *. assert (Hmm : off mod BSIZE + m <= BSIZE /\ m <= n - tot) by (unfold m; lia).
  assert (Hb : blockno_ok (off / BSIZE)) by (unfold blockno_ok; change MAXFILE with 268 in *; change BSIZE with 1024 in *; zdiv).
  apply wp_bind, wp_gets. rewrite (get_inode_lookup _ _ _ Hip), Hdev. apply wp_bind. apply (wp_bmap bl V x len k _ _ F Hb); [lia|lia|].
  intros bl1 V1 x1 k1 (F1 & G & Ha & Hbl1 & Hnf1 & R1). pose proof F1 as [T1 Hsb1 Hip1 Hdev1 Hal1 Hm1].
  apply (wp_tx_read p dev st o _ _ _ _ _ _ _ _ T1); [apply img_empty|rewrite map_size_empty; unfold LOGSIZE, MAXOPBLOCKS, NBUF in *; lia|].
  intros b k2 Hbn T2 Ed Hcl R2. assert (R12 : file_frame ip k k2) by (eapply file_frame_trans; [exact R1|]; eapply file_frame_fs; [exact Hip1|exact R2]).
  apply (wp_copyin_source _ _ k2 user src data m (tx_ready _ _ _ _ _ _ _ _ _ T2)); [now apply (source_frame ip _ _ _ k)|lia|lia|]. intros k3 N3.
  pose proof (source_bound _ _ _ _ Hsrc) as Hsb64. set (bytes := take (Z.to_nat m) data).
  assert (Hbytes : Z.of_nat (length bytes) = m) by (unfold bytes; rewrite length_take; lia).
  destruct (edited_block sb V x V1 x1 len off bytes Hm Hm1 G Ha H1 Hb ltac:(lia) ltac:(lia)) as [E M].
  rewrite Hbytes in M. set (a := iblock V1 x1 (off / BSIZE)) in *.
  destruct (mo_block _ _ _ _ Hm1 _ Hb Ha) as (Ba & _). pose proof (bo_range _ _ _ Ba). pose proof (bm_size _ _ (ao_bitmap _ _ Hal)).
  pose proof (noise_bufs _ _ N3) as Ebufs. cbn [Z.eqb].
  apply (wp_tx_edit p dev st o bl1 V1 D ∅ k3 b a (list_put (V1 a) (Z.to_nat (off mod BSIZE)) bytes)); [now apply (tx_noise _ _ _ _ _ _ _ _ k2)|done| |lia|exact (tx_block_apart _ _ _ _ _ _ _ _ _ _ _ _ T Hsb Ba)|done|lia|].
  { apply (upd_buf_data b k3 (fun d => list_put d (Z.to_nat (off mod BSIZE)) bytes)). unfold get_buf. now rewrite Ebufs. }
  intros k4 T4 R4. assert (R : fs_frame k1 k4) by (etrans; [exact R2|]; etrans; [apply fs_frame_bio, noise_frame, N3|exact R4]).
  assert (RR : file_frame ip k k4) by (eapply file_frame_trans; [exact R1|]; eapply file_frame_fs; [exact Hip1|exact R]).
  assert (F4 : fstate (absorbed a bl1) (upd V1 a (list_put (V1 a) (Z.to_nat (off mod BSIZE)) bytes)) x1 (Z.max len (off + m)) k4).
  { split; [exact T4|now rewrite (fs_frame_sb _ _ R)|now rewrite (fs_frame_inodes _ _ R)|done|now apply data_alloc_ok|done]. }
  change MAXFILE with 268 in *. change BSIZE with 1024 in H3. rewrite u64_small, !u32_small by lia. pose proof (length_absorbed a bl1).
  eapply (IH _ _ _ _ _ _ (drop (Z.to_nat m) data) _ _ F4); [lia|lia| |lia|lia|now apply source_advance; [lia|apply (source_frame ip _ _ _ k)]|rewrite length_drop; lia| | | |].
  all: replace (n - (tot + m)) with (n - tot - m) by lia.
  - change BSIZE with 1024. lia.
  - lia.
  - lia.
  - rewrite nfree_data by done. lia.
  - intros bl' V' x' k' F' E' Hl' Hf' R'. rewrite nfree_data in Hf' by done. replace (off + m + (n - tot - m)) with (off + (n - tot)) by lia.
    apply (HQ bl' V' x' k').
    + replace (Z.max len (off + (n - tot))) with (Z.max (Z.max len (off + m)) (off + m + (n - tot - m))) by lia. exact F'.
    + rewrite <- (take_drop (Z.to_nat m) data). eapply edited_app; [done|exact E|]. fold bytes. rewrite Hbytes. exact E'.
    + lia.
    + lia.
    + eapply file_frame_trans; [exact RR|exact R'].
Qed.

(** *** Writing the inode back *)

Lemma wp_iupdate bl V x len k Q :
  fstate bl V x len k -> Z.of_nat (length bl) < LOGSIZE - 1 ->
  (forall k', fstate (absorbed (home sb x) bl) (saved sb V x) x len k' -> fs_frame k k' -> Q tt k') -> wp (iupdate ip) Q k.
Proof.
  intros F Hl HQ. pose proof F as [T Hsb Hip Hdev Hal Hm]. pose proof (get_inode_lookup _ _ _ Hip) as Ex. unfold iupdate.
  pose proof (bo_range _ _ _ (mo_home _ _ _ _ Hm)) as Hr. pose proof (bm_size _ _ (ao_bitmap _ _ Hal)) as Hs.
  apply wp_bind, wp_gets, wp_bind, wp_gets. rewrite Ex, Hsb, Hdev. fold (home sb x).
  apply (wp_tx_read p dev st o _ _ _ _ _ _ _ _ T); [apply img_empty|rewrite map_size_empty; unfold LOGSIZE, MAXOPBLOCKS, NBUF in *; lia|].
  intros b k1 Hbn T1 Ed Hcl R1.
  apply (wp_tx_edit_end p dev st o bl V D ∅ k1 b (home sb x) (put_dinode (V (home sb x)) (i_inum x) (dinode_of x))); [done|done| |lia|exact (tx_block_apart _ _ _ _ _ _ _ _ _ _ _ _ T Hsb (mo_home _ _ _ _ Hm))|done|done|].
  { exact (upd_buf_data b k1 (fun d => put_dinode d (i_inum x) (dinode_of x)) _ Ed). }
  intros k2 T2 R2. assert (R : fs_frame k k2) by (etrans; [exact R1|exact R2]). destruct (saved_ok sb V x len Hm) as [M' A'].
  apply HQ; [|done]. split; [exact T2|now rewrite (fs_frame_sb _ _ R)|now rewrite (fs_frame_inodes _ _ R)|done|auto|done].
Qed.

End contents.

(** The file after [writei] has set the size and written the inode back. *)
(** The blocks in use stay in use, the file gains none of those of others, and those
    are as before (the inode's block, where other inodes are too, apart). *)
Definition spares (sb : superblock) (V : Z -> list Z) (x : inode) (V' : Z -> list Z) (x' : inode) : Prop :=
  forall b, block_ok sb V b -> block_ok sb V' b /\ (owned V' x' b -> owned V x b) /\ (~ owned V x b -> b <> home sb x -> V' b = V b).

(** The other inodes of the inode's block are as before. *)
Definition neighbours (sb : superblock) (V : Z -> list Z) (x : inode) (V' : Z -> list Z) : Prop :=
  forall j, j mod IPB <> i_inum x mod IPB -> get_dinode (V' (home sb x)) j = get_dinode (V (home sb x)) j.

Lemma save_size sb V x V' x' off n data :
  let len := Z.max (i_size x) (off + n) in let x2 := set_i_size len x' in
  map_ok sb V x (i_size x) -> map_ok sb V' x2 len -> edited sb V x (i_size x) V' x' off data -> Z.of_nat (length data) = n ->
  (forall i, 0 <= i < len -> fbyte (saved sb V' x2) x2 i = if (off <=? i) && (i <? off + n) then data !!! Z.to_nat (i - off) else fbyte V x i) /\
  spares sb V x (saved sb V' x2) x2 /\
  get_dinode (saved sb V' x2 (home sb x)) (i_inum x) = dinode_of x2 /\
  (forall j, j mod IPB <> i_inum x mod IPB -> get_dinode (saved sb V' x2 (home sb x)) j = get_dinode (V (home sb x)) j).
Proof.
  intros len x2 M M2 E Hn. destruct (ed_fields _ _ _ _ _ _ _ _ E) as [ad Ex]. assert (Eh : home sb x2 = home sb x /\ i_inum x2 = i_inum x) by (subst; done).
  destruct Eh as [Eh Ein]. pose proof (bo_len _ _ _ (mo_home _ _ _ _ M2)) as Hl. rewrite Eh in Hl.
  assert (Ev : V' (home sb x) = V (home sb x)) by (apply (ed_other _ _ _ _ _ _ _ _ E); [apply M|now apply (home_not_owned sb V x (i_size x))]).
  split; [|split; [|split]].
  - intros i Hi. rewrite (saved_bytes sb V' x2 len i M2 Hi). change (fbyte V' x2 i) with (fbyte V' x' i).
    pose proof (ed_bytes _ _ _ _ _ _ _ _ E i) as Eb. rewrite Hn in Eb. rewrite Eb by done. done.
  - intros b Hb. split; [apply data_block_ok; [apply M2|now apply (length_saved sb V' x2 len)|now apply (ed_ok _ _ _ _ _ _ _ _ E)]|]. split.
    + intros [Ho|(bn & Hbn & Ho)]; apply (ed_own _ _ _ _ _ _ _ _ E); [done|now left|done|right; exists bn; split; [done|]].
      rewrite <- Ho. symmetry. apply (data_iblock sb V' x2 len _ _ bn M2). intros E2. apply (home_not_owned sb V' x2 len M2). now left.
    + intros Ho Hne. unfold saved. rewrite Eh, upd_ne by done. now apply (ed_other _ _ _ _ _ _ _ _ E).
  - unfold saved. rewrite Eh, upd_eq, Ein. apply get_put_dinode; [done|apply M2].
  - intros j Hj. unfold saved. rewrite Eh, upd_eq, Ein, get_put_dinode_ne by (done || apply M2). now rewrite Ev.
Qed.

(** [writei] sets the size only when it grows. *)
Lemma fstate_size p dev st o sb ip bl V D x len k sz :
  file_state p dev st o sb ip bl V D x len k -> 0 <= sz < 2 ^ 32 ->
  file_state p dev st o sb ip bl V D (set_i_size (Z.max (i_size x) sz) x) len (if i_size x <? sz then upd_inode ip (set_i_size sz) k else k) /\
  file_frame ip k (if i_size x <? sz then upd_inode ip (set_i_size sz) k else k).
Proof.
  intros [H1 H2 H3 H4 H5 H6] Hsz. pose proof (do_size _ (mo_dinode _ _ _ _ H6)) as Hs. cbn in Hs.
  assert (M : map_ok sb V (set_i_size (Z.max (i_size x) sz) x) len) by (apply map_ok_size; [done|lia]).
  destruct (Z.ltb_spec (i_size x) sz).
  - split; [|eapply file_frame_upd, H3]. rewrite Z.max_r in * by lia. split; try done; [now apply tx_inode|]. cbn. now rewrite list_lookup_alter_eq, H3.
  - split; [|eapply file_frame_fs; [exact H3|reflexivity]]. rewrite Z.max_l in * by lia.
    replace (set_i_size (i_size x) x) with x in * by now destruct x. done.
Qed.

(** ** Properties *)

(** What [readi] returns: nothing beyond the end of the file or when [off + n] wraps. *)
Definition read_count (size off n : Z) : Z := if (size <? off) || (2 ^ 32 <=? off + n) then 0 else Z.min n (size - off).

Lemma readi_ok p dev st o sb ip bl V D x k dst off n :
  file_state p dev st o sb ip bl V D x (i_size x) k -> (length bl + 1 < NBUF)%nat ->
  0 <= off < 2 ^ 32 -> 0 <= n < 2 ^ 32 -> 0 <= dst -> dst + n < 2 ^ 64 ->
  let cnt := read_count (i_size x) off n in
  wp (readi ip false dst off n) (fun r k' => r = cnt /\ file_state p dev st o sb ip bl V D x (i_size x) k' /\
    exists m, fs_frame (set_k_mem m k) k' /\ forall a, m a = Kstring.store (k_mem k) dst (fbytes V x off cnt) a) k.
Proof.
  intros F Hl Hoff Hn Hd Hdn cnt. pose proof F as [T Hsb Hip Hdev Hal Hm]. pose proof (mo_len _ _ _ _ Hm) as Hlen.
  assert (Hb : MAXFILE * BSIZE < 2 ^ 31) by done. unfold readi. apply wp_bind, wp_gets. rewrite (get_inode_lookup _ _ _ Hip).
  unfold cnt, read_count. destruct (Z.ltb_spec (i_size x) off) as [Hgt|Hle]; cbn [orb].
  { apply wp_ret. split; [done|]. split; [done|]. exists (k_mem k). split; [destruct k; reflexivity|]. intros a. symmetry. apply store_other. rewrite length_fbytes. lia. }
  destruct (Z.leb_spec (2 ^ 32) (off + n)) as [Hw|Hw]; cbn [orb].
  { replace (u32 (off + n) <? off) with true by (symmetry; apply Z.ltb_lt; unfold u32; zdiv).
    apply wp_ret. split; [done|]. split; [done|]. exists (k_mem k). split; [destruct k; reflexivity|]. intros a. symmetry. apply store_other. rewrite length_fbytes. lia. }
  rewrite u32_small by lia. replace (off + n <? off) with false by lia. cbv zeta iota.
  replace (if i_size x <? off + n then u32 (i_size x - off) else n) with (Z.min n (i_size x - off))
    by (destruct (Z.ltb_spec (i_size x) (off + n)); [rewrite u32_small by lia|]; lia).
  apply wp_bind. set (c := Z.min n (i_size x - off)). apply (wp_readi_loop p dev st o sb ip D _ bl V x (i_size x) k); try done; try lia.
  { rewrite Z.sub_0_r. pose proof (rounds_bound off c ltac:(lia)). rewrite Z2Nat.id; [lia|]. change BSIZE with 1024. zdiv. }
  rewrite Z.sub_0_r. intros k' m F' R Em. apply wp_ret. rewrite i32_small by lia. eauto 10.
Qed.

(** C13: [readi] into kernel memory.  It returns the number of bytes between [off] and
    the end of the file, at most [n], 0 when the range starts behind the end or wraps;
    the destination then holds exactly those bytes of the file, direct or through the
    indirect block; no block, inode or other memory changes, every buffer is released. *)
Theorem readi_correct p dev st o sb ip bl V D x k dst off n :
  file_state p dev st o sb ip bl V D x (i_size x) k -> (length bl + 1 < NBUF)%nat ->
  0 <= off < 2 ^ 32 -> 0 <= n < 2 ^ 32 -> 0 <= dst -> dst + n < 2 ^ 64 ->
  let cnt := read_count (i_size x) off n in
  wp (readi ip false dst off n) (fun r k' => r = cnt /\ file_state p dev st o sb ip bl V D x (i_size x) k' /\
    exists m, fs_frame (set_k_mem m k) k' /\ forall a, m a = Kstring.store (k_mem k) dst (fbytes V x off cnt) a) k.
Proof. exact (readi_ok p dev st o sb ip bl V D x k dst off n). Qed.

(** Whether [writei] refuses the range. *)
Definition write_refused (size off n : Z) : bool := (size <? off) || (2 ^ 32 <=? off + n) || (MAXFILE * BSIZE <? off + n).

Lemma u32_wraps off n : 0 <= off < 2 ^ 32 -> 0 <= n < 2 ^ 32 -> (u32 (off + n) <? off) = (2 ^ 32 <=? off + n).
Proof.
  intros Hoff Hn. destruct (Z.leb_spec (2 ^ 32) (off + n)); [apply Z.ltb_lt; unfold u32; zdiv|rewrite u32_small by lia; lia].
Qed.

Lemma write_admitted size off n :
  0 <= off < 2 ^ 32 -> 0 <= n < 2 ^ 32 -> write_refused size off n = false ->
  off <= size /\ (u32 (off + n) <? off) = false /\ off + n <= MAXFILE * BSIZE.
Proof. intros Hoff Hn H. unfold write_refused in H. rewrite u32_wraps by done. rewrite !orb_false_iff in H. destruct H as [[H1 H2] H3]. repeat split; [lia|done|lia]. Qed.

Lemma writei_refuse ip k user src off n :
  0 <= off < 2 ^ 32 -> 0 <= n < 2 ^ 32 -> write_refused (i_size (get_inode ip k)) off n = true -> writei ip user src off n k = Ok (-1) k.
Proof.
  intros Hoff Hn H. unfold writei, write_refused in *. rewrite (bind_Ok _ _ k (i_size (get_inode ip k)) k), (u32_wraps off n) by done.
  destruct (i_size (get_inode ip k) <? off); [done|]. destruct (Z.leb_spec (2 ^ 32) (off + n)); [done|]. cbn [orb] in *.
  rewrite u32_small by lia. now rewrite H.
Qed.

Lemma writei_ok p dev st o sb ip bl V D x k user src data off :
  file_state p dev st o sb ip bl V D x (i_size x) k -> 1 <= o ->
  0 <= off < 2 ^ 32 -> 0 <= src -> source user src data k ->
  let n := Z.of_nat (length data) in n < 2 ^ 32 ->
  if write_refused (i_size x) off n then writei ip user src off n k = Ok (-1) k else
  Z.of_nat (length bl) + 6 * rounds off n < LOGSIZE - 1 -> 2 * rounds off n <= Z.of_nat (nfree sb V) ->
  wp (writei ip user src off n) (fun r k' => r = n /\ exists bl' V' x',
    file_state p dev st o sb ip bl' V' D x' (i_size x') k' /\ i_size x' = Z.max (i_size x) (off + n) /\
    (forall i, 0 <= i < i_size x' -> fbyte V' x' i =
       if (off <=? i) && (i <? off + n) then data !!! Z.to_nat (i - off) else fbyte V x i) /\
    spares sb V x V' x' /\
    (0 < n -> get_dinode (V' (home sb x)) (i_inum x) = dinode_of x') /\
    (forall j, j mod IPB <> i_inum x mod IPB -> get_dinode (V' (home sb x)) j = get_dinode (V (home sb x)) j) /\
    (exists ad, x' = set_i_size (i_size x') (set_i_addrs ad x)) /\ Z.of_nat (nfree sb V) <= Z.of_nat (nfree sb V') + 2 * rounds off n /\
    Z.of_nat (length bl') <= Z.of_nat (length bl) + 6 * rounds off n + 1 /\
    k_mem k' = k_mem k /\ file_frame ip k k') k.
Proof.
  intros F Ho Hoff Hs Hsrc n Hn32. assert (Hn : 0 <= n < 2 ^ 32) by lia. pose proof F as [T Hsb Hip Hdev Hal Hm]. pose proof (mo_len _ _ _ _ Hm) as Hlen.
  assert (Hb : MAXFILE * BSIZE < 2 ^ 31) by done.
  destruct (write_refused (i_size x) off n) eqn:Eref; [apply writei_refuse; [done|done|now rewrite (get_inode_lookup _ _ _ Hip)]|]. destruct (write_admitted _ _ _ Hoff Hn Eref) as (Hle & Hw & Hmax).
  intros Hlog Hnf. unfold writei. apply wp_bind, wp_gets. rewrite (get_inode_lookup _ _ _ Hip), Hw, (proj2 (Z.ltb_ge (i_size x) off)) by done. cbn [orb].
  rewrite u32_small, (proj2 (Z.ltb_ge _ _)) by lia. apply wp_bind.
  apply (wp_writei_loop p dev st o sb ip D Ho _ user bl V x (i_size x) k src data off 0 n); rewrite ?Z.sub_0_r; try done; try lia.
  { pose proof (rounds_bound off n ltac:(lia)). rewrite Z2Nat.id; [lia|]. change BSIZE with 1024. zdiv. }
  intros bl1 V1 x1 k1 F1 E1 Hl1 Hf1 R1. destruct (ed_fields _ _ _ _ _ _ _ _ E1) as [ad Ex]. pose proof (fst_inode _ _ _ _ _ _ _ _ _ _ _ _ F1) as Hip1.
  assert (Es : i_size x1 = i_size x) by (subst; done). rewrite i32_small by lia. apply wp_bind. destruct (Z.ltb_spec 0 n) as [Hpos|Hz]; cbn [when].
  - destruct (fstate_size p dev st o sb ip bl1 V1 D x1 _ k1 (off + n) F1 ltac:(lia)) as [F2 R2]. rewrite Es in F2, R2.
    destruct (save_size sb V x V1 x1 off n data Hm (fst_map _ _ _ _ _ _ _ _ _ _ _ _ F2) E1 ltac:(lia)) as (P1 & P2 & P3 & P4).
    apply wp_bind, wp_gets. rewrite (get_inode_lookup _ _ _ Hip1), Es. apply wp_bind.
    apply (wp_ok _ _ _ tt (if i_size x <? off + n then upd_inode ip (set_i_size (off + n)) k1 else k1)); [now destruct (i_size x <? off + n)|].
    apply (wp_iupdate p dev st o sb ip D Ho _ _ _ _ _ _ F2); [unfold LOGSIZE, MAXOPBLOCKS in *; lia|]. intros k3 F3 R3. apply wp_ret. split; [done|].
    eexists _, _, _. split; [exact F3|]. split; [done|]. split; [exact P1|]. split; [exact P2|]. split; [intros _; exact P3|]. split; [exact P4|].
    assert (R : file_frame ip k k3).
    { eapply file_frame_trans; [exact R1|]. eapply file_frame_trans; [exact R2|]. eapply file_frame_fs; [apply F2|exact R3]. }
    split; [exists ad; now rewrite Ex|]. split; [unfold saved; rewrite nfree_data by apply (mo_home _ _ _ _ (fst_map _ _ _ _ _ _ _ _ _ _ _ _ F2)); lia|]. split; [pose proof (length_absorbed (home sb (set_i_size (Z.max (i_size x) (off + n)) x1)) bl1); lia|].
    split; [exact (file_frame_memory _ _ _ R)|exact R].
  - assert (E0 : n = 0) by lia. rewrite E0 in *. apply wp_ret, wp_ret. split; [done|]. rewrite Z.add_0_r, Z.max_l in F1 by lia.
    exists bl1, V1, x1. rewrite Es. split; [exact F1|]. split; [lia|]. split; [|split; [|split; [lia|split; [|split; [exists ad; rewrite <- Es, Ex; now destruct x|split; [lia|split; [lia|split]]]]]]].
    + intros i Hi. rewrite (ed_bytes _ _ _ _ _ _ _ _ E1 i) by lia. now replace (Z.of_nat (length data)) with 0 by lia.
    + intros b Hb1. split; [now apply (ed_ok _ _ _ _ _ _ _ _ E1)|]. split; [now apply (ed_own _ _ _ _ _ _ _ _ E1)|]. intros Ho1 _. now apply (ed_other _ _ _ _ _ _ _ _ E1).
    + intros j _. f_equal. apply (ed_other _ _ _ _ _ _ _ _ E1); [apply Hm|now apply (home_not_owned sb V x (i_size x))].
    + exact (file_frame_memory _ _ _ R1).
    + exact R1.
Qed.

(** C12: [writei] from kernel memory, or from readable memory of the process.  A range
    that starts behind the end of the file or ends beyond the largest file is refused
    with -1 and nothing changes.  Otherwise all bytes [data] at the source are written,
    blocks and the indirect block being allocated as needed: afterwards the file is
    [off + n] bytes long if that is more than before, holds the new bytes in the range
    and the old ones elsewhere; every block in use stays in use, the file gains none of
    them, those that belong to neither the file nor the bitmap are unchanged, the on-disk
    inode equals the one in memory and the other inodes of its block are untouched.  The
    bounds: six log entries and two free blocks per block written, one entry for the
    inode. *)
Theorem writei_correct p dev st o sb ip bl V D x k user src data off :
  file_state p dev st o sb ip bl V D x (i_size x) k -> 1 <= o ->
  0 <= off < 2 ^ 32 -> 0 <= src -> source user src data k ->
  let n := Z.of_nat (length data) in n < 2 ^ 32 ->
  if write_refused (i_size x) off n then writei ip user src off n k = Ok (-1) k else
  Z.of_nat (length bl) + 6 * rounds off n < LOGSIZE - 1 -> 2 * rounds off n <= Z.of_nat (nfree sb V) ->
  wp (writei ip user src off n) (fun r k' => r = n /\ exists bl' V' x',
    file_state p dev st o sb ip bl' V' D x' (i_size x') k' /\ i_size x' = Z.max (i_size x) (off + n) /\
    (forall i, 0 <= i < i_size x' -> fbyte V' x' i =
       if (off <=? i) && (i <? off + n) then data !!! Z.to_nat (i - off) else fbyte V x i) /\
    spares sb V x V' x' /\
    (0 < n -> get_dinode (V' (home sb x)) (i_inum x) = dinode_of x') /\
    (forall j, j mod IPB <> i_inum x mod IPB -> get_dinode (V' (home sb x)) j = get_dinode (V (home sb x)) j) /\
    (exists ad, x' = set_i_size (i_size x') (set_i_addrs ad x)) /\ Z.of_nat (nfree sb V) <= Z.of_nat (nfree sb V') + 2 * rounds off n /\
    Z.of_nat (length bl') <= Z.of_nat (length bl) + 6 * rounds off n + 1 /\
    k_mem k' = k_mem k /\ file_frame ip k k') k.
Proof. exact (writei_ok p dev st o sb ip bl V D x k user src data off). Qed.

(** ** Concrete instances *)

(** A file of five bytes in block 47 of the small file system, inode 1. *)
Definition hello : list Z := [104; 101; 108; 108; 111].
Definition disk_hello : Z -> list Z := upd disk50 47 (hello ++ replicate 1019 0).
Definition file_hello : inode := mk_inode 1 1 1 zero_sleeplock true T_FILE 0 0 1 5 (47 :: replicate 12 0).
Definition state_hello : kernel := fs_machine disk_hello sb50 [file_hello].

Lemma hello_dinode : dinode_ok (dinode_of file_hello).
Proof.
  split; [vm_compute; split; [discriminate|reflexivity]..|reflexivity|]. apply (bool_decide_unpack _). vm_compute. exact I.
Qed.

Lemma hello_iblock V bn : 0 <= bn -> iblock V file_hello bn = if bn =? 0 then 47 else 0.
Proof.
  intros Hb. unfold iblock. change (i_ind file_hello) with 0. destruct (Z.ltb_spec bn (Z.of_nat NDIRECT)) as [Hlt|Hge].
  - unfold NDIRECT in Hlt. assert (Hc : bn ∈ seqZ 0 12) by (apply elem_of_seqZ; lia).
    assert (A : Forall (fun b => i_addrs file_hello !!! Z.to_nat b = if b =? 0 then 47 else 0) (seqZ 0 12)) by (apply (bool_decide_unpack _); vm_compute; exact I).
    rewrite Forall_forall in A. auto.
  - cbn [Z.eqb]. destruct (Z.eqb_spec bn 0); [unfold NDIRECT in *; lia|done].
Qed.

Lemma disk_hello_alloc : alloc_ok sb50 disk_hello.
Proof.
  apply data_alloc_ok; [|split; [exact disk50_bitmap|vm_compute; reflexivity|cbn; lia]]. split; [cbn; lia|vm_compute; reflexivity|reflexivity| |right; vm_compute; discriminate].
  intros b' Hb'. unfold BBLOCK. change BPB with 8192. cbn in *. rewrite Z.div_small by lia. done.
Qed.

Lemma hello_block b : b = 32 \/ b = 47 -> block_ok sb50 disk_hello b.
Proof.
  intros Hb. split; [cbn; lia|destruct Hb; subst; vm_compute; reflexivity|destruct Hb; subst; reflexivity| |right; destruct Hb; subst; vm_compute; discriminate].
  intros b' Hb'. unfold BBLOCK. change BPB with 8192. cbn in *. rewrite Z.div_small by lia. destruct Hb; subst; done.
Qed.

Lemma hello_map : map_ok sb50 disk_hello file_hello 5.
Proof.
  split.
  - exact hello_dinode.
  - apply hello_block. now left.
  - done.
  - intros bn [Hb _]. rewrite hello_iblock by done. destruct (bn =? 0); [|done]. intros _. split; [apply hello_block; now right|done].
  - intros b1 b2 [H1 _] [H2 _]. rewrite !hello_iblock by done. destruct (Z.eqb_spec b1 0), (Z.eqb_spec b2 0); done || congruence.
  - intros bn Hb Hl. change BSIZE with 1024 in Hl. rewrite hello_iblock by done. now replace (bn =? 0) with true by lia.
  - vm_compute. split; discriminate.
Qed.

Lemma state_hello_file : file_state 3 1 2 1 sb50 0 [] disk_hello disk_hello file_hello (i_size file_hello) state_hello.
Proof. split; [now apply fs_machine_tx|reflexivity|reflexivity|reflexivity|exact disk_hello_alloc|exact hello_map]. Qed.

Example readi_correct_witness :
  wp (readi 0 false 0x9000 1 10) (fun r k' => r = 4 /\ load (k_mem k') 0x9000 4 = [101; 108; 108; 111]) state_hello.
Proof.
  refine (wp_mono _ _ _ _ (readi_correct 3 1 2 1 sb50 0 [] disk_hello disk_hello file_hello state_hello 0x9000 1 10 state_hello_file _ _ _ _ _) _);
    [unfold NBUF; cbn; lia|lia|lia|lia|lia|].
  intros r k' (-> & _ & m & R & Em). split; [reflexivity|]. rewrite (fs_frame_memory _ _ R).
  assert (Ef : fbytes disk_hello file_hello 1 (read_count (i_size file_hello) 1 10) = [101; 108; 108; 111]) by (vm_compute; reflexivity).
  rewrite Ef in Em. rewrite (load_ext _ (Kstring.store (k_mem state_hello) 0x9000 [101; 108; 108; 111])) by (intros a _; apply Em). apply (load_store _ _ [101; 108; 108; 111]).
Defined.

(** Writing five zero bytes at offset 3: the file grows to eight bytes. *)
Example writei_correct_witness :
  wp (writei 0 false 0x9000 3 5) (fun r k' => r = 5 /\ exists bl' V' x',
    file_state 3 1 2 1 sb50 0 bl' V' disk_hello x' (i_size x') k' /\ i_size x' = 8 /\ fbyte V' x' 2 = 108 /\ fbyte V' x' 4 = 0) state_hello.
Proof.
  assert (Hs : source false 0x9000 [0; 0; 0; 0; 0] state_hello) by (split; [cbn [length]; lia|vm_compute; reflexivity]).
  pose proof (writei_correct 3 1 2 1 sb50 0 [] disk_hello disk_hello file_hello state_hello false 0x9000 [0; 0; 0; 0; 0] 3 state_hello_file
    ltac:(lia) ltac:(lia) ltac:(lia) Hs ltac:(cbn [length]; lia)) as T.
  change (Z.of_nat (length [0; 0; 0; 0; 0])) with 5 in T.
  assert (E : write_refused (i_size file_hello) 3 5 = false) by (vm_compute; reflexivity). rewrite E in T.
  refine (wp_mono _ _ _ _ (T _ _) _); [vm_compute; reflexivity|vm_compute; discriminate|].
  intros r k' (-> & bl' & V' & x' & F & Es & Hb & _). split; [reflexivity|]. exists bl', V', x'. split; [exact F|].
  assert (Es' : i_size x' = 8) by (rewrite Es; reflexivity). split; [exact Es'|].
  split; [rewrite (Hb 2) by lia; vm_compute; reflexivity|rewrite (Hb 4) by lia; vm_compute; reflexivity].
Defined.
