(* ===== verification/FsDir.v ===== *)
(** * The inode cache and directories (kernel/fs.c)

    [iget], [ilock], [iunlock] and [iput] on the table of inodes in memory, and
    [dirlookup] on the entries of a directory, inside a transaction. *)

From stdpp Require Import base numbers list gmap strings.
From S2P Require Import Prelude Kstate Kstring Spinlock Kalloc Vm Sched Sleeplock Bio Blocks Log Tx Fs FsAlloc FsInode.

(** ** The state: a transaction and the table of inodes *)

Record istate (p : nat) (pid dev st o : Z) (sb : superblock) (bl : list Z) (V D : Z -> list Z) (l : list inode) (k : kernel) : Prop := {
  is_tx : tx p dev st o bl V D ∅ k;
  is_sb : k_sb k = sb;
  is_inodes : k_inodes k = l;
  is_pid : p_pid (get_proc p k) = pid }.

Lemma fs_frame_pid p k k' : fs_frame k k' -> p_pid (get_proc p k') = p_pid (get_proc p k).
Proof. now apply (fs_frame_proc p_pid). Qed.

Lemma alter_twice {A} (f g : A -> A) i (l : list A) : alter f i (alter g i l) = alter (fun x => f (g x)) i l.
Proof.
  apply list_eq. intros j. destruct (decide (j = i)) as [->|Hne]; [|now rewrite !list_lookup_alter_ne].
  rewrite !list_lookup_alter_eq. now destruct (l !! i).
Qed.

(** What lookups leave alone: everything but the cache, the table of inodes, the
    variable [de] and processes they wake. *)
Definition dir_frame (k k' : kernel) : Prop :=
  exists m l, (forall a, ~ local_de <= a < local_de + 16 -> m a = k_mem k a) /\ fs_frame (set_k_mem m (set_k_inodes l k)) k'.

Lemma fs_frame_table l k k' : fs_frame k k' -> fs_frame (set_k_inodes l k) (set_k_inodes l k').
Proof.
  intros (g & Hl & (b & h & d & w & ps & Hw & Hn)). exists g. split; [done|]. exists b, h, d, w, ps. split; [done|].
  apply (noise_update (set_k_inodes l)) in Hn; [exact Hn|done..].
Qed.

Lemma dir_frame_fs k k' : fs_frame k k' -> dir_frame k k'.
Proof. intros H. exists (k_mem k), (k_inodes k). split; [done|]. now destruct k. Qed.

Lemma dir_frame_table l k k' : fs_frame (set_k_inodes l k) k' -> dir_frame k k'.
Proof. intros H. exists (k_mem k), l. split; [done|]. now destruct k. Qed.

#[export] Instance dir_frame_preorder : PreOrder dir_frame.
Proof.
  split; [intros k; apply dir_frame_fs; reflexivity|]. intros k1 k2 k3 (m & l & Hm & F) (m' & l' & Hm' & F').
  exists m', l'. split; [intros a Ha; rewrite Hm' by done; rewrite (fs_frame_memory _ _ F); now apply Hm|].
  etrans; [|exact F']. exact (fs_frame_mem m' _ _ (fs_frame_table l' _ _ F)).
Qed.

Section icache.
Context (p : nat) (pid dev st o : Z) (sb : superblock) (D : Z -> list Z).
Notation st_of bl V l k := (istate p pid dev st o sb bl V D l k).

Lemma istate_frame bl V l k k' : st_of bl V l k -> tx p dev st o bl V D ∅ k' -> fs_frame k k' -> st_of bl V l k'.
Proof. intros [H1 H2 H3 H4] T F. split; [done|now rewrite (fs_frame_sb _ _ F)|now rewrite (fs_frame_inodes _ _ F)|now rewrite (fs_frame_pid _ _ _ F)]. Qed.

Lemma istate_noise bl V l k k' : noise k k' -> st_of bl V l k -> st_of bl V l k'.
Proof. intros Hn H. apply (istate_frame bl V l k); [done|exact (tx_noise _ _ _ _ _ _ _ _ _ _ (is_tx _ _ _ _ _ _ _ _ _ _ _ H) Hn)|]. apply fs_frame_bio. now apply noise_frame. Qed.

Lemma istate_table bl V l l' k : st_of bl V l k -> st_of bl V l' (set_k_inodes l' k).
Proof. intros [[(s & Hs & R) T2 T3 T4 T5 T6 T7] H2 H3 H4]. split; [|done..]. split; try done. exists s. split; [now apply stored_inodes|done]. Qed.

Lemma tx_procs bl V H k ps : tx p dev st o bl V D H k -> Forall2 woken (k_procs k) ps -> tx p dev st o bl V D H (set_k_procs ps k).
Proof.
  intros [(s & Hs & R) T2 T3 T4 T5 T6 T7] Hw. split; try done. exists s. split; [|done].
  apply (stored_ext p dev s k); [done..| | |done].
  - destruct (st_proc _ _ _ _ Hs) as [[A1 A2] A3 A4]. split; [split; done|done|]. unfold table_ok in *. cbn. now rewrite <- (Forall2_length _ _ _ Hw).
  - apply (fs_frame_pid p k (set_k_procs ps k)). apply fs_frame_bio. apply (bio_frame_intro _ (set_k_procs ps k)); [now destruct k|done|apply noise_refl].
Qed.

Lemma istate_proc bl V l k : st_of bl V l k -> in_proc p k.
Proof. intros [[(s & Hs & R) _ _ _ _ _ _] _ _ _]. apply Hs. Qed.

(** A critical section under [icache.lock] that changes only the table. *)
Lemma wp_icache_end {B} bl V l l' k (cont : K B) Q :
  st_of bl V l k -> (forall k', st_of bl V l' k' -> fs_frame (set_k_inodes l' k) k' -> wp cont Q k') ->
  wp (release LK_icache ;;; cont) Q (set_k_inodes l' (acquired LK_icache k)).
Proof.
  intros H HQ. destruct (istate_proc _ _ _ _ H) as [[Hr Hf] Hp Ht]. apply wp_bind.
  apply (wp_release LK_icache k (set_k_inodes l' (acquired LK_icache k))); [done|apply Hf|done|done|apply noise_refl|].
  intros k' Hn. assert (Hn' : noise (set_k_inodes l' k) k') by (destruct k; exact Hn).
  apply HQ; [apply (istate_noise bl V l' _ _ Hn'); now apply (istate_table bl V l)|]. apply fs_frame_bio. now apply noise_frame.
Qed.

(** [iget] of an inode that is in the table, and of one that is not. *)
Definition ref_add (d : Z) (x : inode) : inode := set_i_ref (i_ref x + d) x.
Definition new_entry (inum : Z) (x : inode) : inode := set_i_valid false (set_i_ref 1 (set_i_inum inum (set_i_dev dev x))).
Definition iget_table (inum : Z) (l : list inode) : option (nat * list inode) :=
  match iget_scan l 0 None dev inum with
  | (Some i, _) => Some (i, alter (ref_add 1) i l)
  | (None, Some i) => Some (i, alter (new_entry inum) i l)
  | (None, None) => None
  end.

Lemma wp_iget bl V l k inum i l' Q :
  st_of bl V l k -> iget_table inum l = Some (i, l') ->
  (forall k', st_of bl V l' k' -> fs_frame (set_k_inodes l' k) k' -> Q i k') -> wp (iget dev inum) Q k.
Proof.
  intros H Hi HQ. destruct (istate_proc _ _ _ _ H) as [[Hr Hf] Hp Ht]. unfold iget. apply wp_bind, wp_acquire; [apply Hf|].
  apply wp_bind, wp_gets. change (k_inodes (acquired LK_icache k)) with (k_inodes k). rewrite (is_inodes _ _ _ _ _ _ _ _ _ _ _ H).
  unfold iget_table in Hi. destruct (iget_scan l 0 None dev inum) as [[j|] [e|]]; [..|discriminate]; injection Hi as -> <-.
  - apply wp_bind, wp_modify. unfold upd_inode. change (k_inodes (acquired LK_icache k)) with (k_inodes k). rewrite (is_inodes _ _ _ _ _ _ _ _ _ _ _ H).
    apply (wp_icache_end bl V l); [done|]. intros k' H' F. apply wp_ret. now apply HQ.
  - apply wp_bind, wp_modify. unfold upd_inode. change (k_inodes (acquired LK_icache k)) with (k_inodes k). rewrite (is_inodes _ _ _ _ _ _ _ _ _ _ _ H).
    apply (wp_icache_end bl V l); [done|]. intros k' H' F. apply wp_ret. now apply HQ.
  - do 4 (apply wp_bind, wp_modify).
    assert (E : upd_inode i (set_i_valid false) (upd_inode i (set_i_ref 1) (upd_inode i (set_i_inum inum) (upd_inode i (set_i_dev dev) (acquired LK_icache k)))) =
                set_k_inodes (alter (new_entry inum) i l) (acquired LK_icache k)).
    { unfold upd_inode. cbn [k_inodes set_k_inodes]. change (k_inodes (acquired LK_icache k)) with (k_inodes k). rewrite (is_inodes _ _ _ _ _ _ _ _ _ _ _ H).
      now rewrite !alter_twice. }
    rewrite E. apply (wp_icache_end bl V l); [done|]. intros k' H' F. apply wp_ret. now apply HQ.
Qed.

Lemma wp_idup bl V l k ip Q :
  st_of bl V l k -> (forall k', st_of bl V (alter (ref_add 1) ip l) k' -> fs_frame (set_k_inodes (alter (ref_add 1) ip l) k) k' -> Q ip k') -> wp (idup ip) Q k.
Proof.
  intros H HQ. destruct (istate_proc _ _ _ _ H) as [[Hr Hf] Hp Ht]. unfold idup. apply wp_bind, wp_acquire; [apply Hf|].
  apply wp_bind, wp_modify. unfold upd_inode. change (k_inodes (acquired LK_icache k)) with (k_inodes k). rewrite (is_inodes _ _ _ _ _ _ _ _ _ _ _ H).
  apply (wp_icache_end bl V l); [done|]. intros k' H' F. apply wp_ret. now apply HQ.
Qed.

(** The inode after [ilock]: its fields are read from the disk on first use. *)
Definition with_ilock (f : sleeplock -> sleeplock) (x : inode) : inode := set_i_lock (f (i_lock x)) x.
Definition loaded (V : Z -> list Z) (x : inode) : inode :=
  if i_valid x then x else set_i_valid true (load_inode (get_dinode (V (home sb x)) (i_inum x)) x).
Definition locked (V : Z -> list Z) (x : inode) : inode := loaded V (with_ilock (sl_taken pid) x).

Lemma wp_ilock bl V l k ip x Q :
  st_of bl V l k -> l !! ip = Some x -> 1 <= i_ref x -> sl_locked (i_lock x) = false -> i_dev x = dev -> i_type (loaded V x) <> 0 -> (length bl < NBUF)%nat ->
  (forall k', st_of bl V (<[ip := locked V x]> l) k' -> fs_frame (set_k_inodes (<[ip := locked V x]> l) k) k' -> Q tt k') -> wp (ilock ip) Q k.
Proof.
  intros H Hx Hr1 Hfree Hdev Hty Hl HQ. destruct (istate_proc _ _ _ _ H) as [[Hr Hf] Hp Ht]. pose proof (is_inodes _ _ _ _ _ _ _ _ _ _ _ H) as El.
  assert (Eg : get_inode ip k = x) by (apply get_inode_lookup; now rewrite El).
  unfold ilock. apply wp_bind, wp_gets. rewrite Eg, (proj2 (Z.ltb_ge _ _)) by lia.
  apply wp_bind, (wp_acquiresleep (LK_inode ip) p); [done|apply Hf|done|cbn; now rewrite Eg|]. intros k1 Hn1.
  rewrite (is_pid _ _ _ _ _ _ _ _ _ _ _ H) in Hn1. set (y := with_ilock (sl_taken pid) x).
  assert (E1 : upd_sl (LK_inode ip) (sl_taken pid) k = set_k_inodes (<[ip := y]> l) k).
  { cbn [upd_sl]. rewrite (upd_inode_const ip _ k x) by now rewrite El. unfold upd_inode. rewrite El. f_equal. apply list_eq. intros j.
    destruct (decide (j = ip)) as [->|]; [rewrite list_lookup_alter_eq, Hx, list_lookup_insert_eq; [done|now apply lookup_lt_Some in Hx]|now rewrite list_lookup_alter_ne, list_lookup_insert_ne]. }
  rewrite E1 in Hn1. assert (H1 : st_of bl V (<[ip := y]> l) k1) by (apply (istate_noise _ _ _ _ _ Hn1); now apply (istate_table bl V l)).
  assert (F1 : fs_frame (set_k_inodes (<[ip := y]> l) k) k1) by (apply fs_frame_bio; now apply noise_frame).
  assert (Hy : k_inodes k1 !! ip = Some y) by (rewrite (is_inodes _ _ _ _ _ _ _ _ _ _ _ H1), list_lookup_insert_eq; [done|now apply lookup_lt_Some in Hx]).
  apply wp_bind, wp_gets. rewrite (get_inode_lookup _ _ _ Hy). assert (Eval : i_valid y = i_valid x) by done. rewrite Eval. unfold locked, loaded in HQ, Hty. fold y in HQ. rewrite Eval in HQ.
  destruct (i_valid x); [apply wp_ret; now apply HQ|]. apply wp_bind, wp_gets. rewrite (is_sb _ _ _ _ _ _ _ _ _ _ _ H1). change (i_dev y) with (i_dev x). rewrite Hdev.
  apply (wp_tx_read p dev st o _ _ _ _ _ _ _ _ (is_tx _ _ _ _ _ _ _ _ _ _ _ H1)); [apply img_empty|rewrite map_size_empty; lia|].
  intros b k2 Hbn T2 Ed Hcl F2. apply wp_bind, wp_gets. rewrite Ed. apply wp_bind, wp_modify.
  apply (wp_tx_drop p dev st o _ _ _ _ _ _ _ _ _ (tx_inode _ _ _ _ _ _ _ _ _ _ _ T2) Hbn Hcl). intros k3 T3 F3. apply wp_bind, wp_modify, wp_bind, wp_gets.
  set (di := get_dinode (V (home sb y)) (i_inum y)) in *. change (get_dinode (V (IBLOCK (i_inum y) sb)) (i_inum y)) with di in *.
  set (l' := <[ip := set_i_valid true (load_inode di y)]> l) in *.
  assert (E3 : upd_inode ip (set_i_valid true) k3 = set_k_inodes l' k3).
  { unfold upd_inode. f_equal. rewrite (fs_frame_inodes _ _ F3). cbn [upd_inode k_inodes set_k_inodes]. rewrite (fs_frame_inodes _ _ F2), (is_inodes _ _ _ _ _ _ _ _ _ _ _ H1), alter_twice.
    apply list_eq. intros j. unfold l'. destruct (decide (j = ip)) as [->|]; [|now rewrite list_lookup_alter_ne, !list_lookup_insert_ne].
    apply lookup_lt_Some in Hx. now rewrite list_lookup_alter_eq, !list_lookup_insert_eq. }
  rewrite E3. assert (F : fs_frame (set_k_inodes l' k) (set_k_inodes l' k3)).
  { etrans; [exact (fs_frame_table l' _ _ F1)|]. etrans; [exact (fs_frame_table l' _ _ F2)|]. exact (fs_frame_table l' _ _ F3). }
  assert (H3 : st_of bl V l' (set_k_inodes l' k3)).
  { apply (istate_frame bl V l' (set_k_inodes l' k)); [now apply (istate_table bl V l)| |done]. rewrite <- E3. now apply tx_inode. }
  assert (Eg3 : get_inode ip (set_k_inodes l' k3) = set_i_valid true (load_inode di y)) by (apply get_inode_lookup; cbn; unfold l'; apply lookup_lt_Some in Hx; now rewrite list_lookup_insert_eq).
  rewrite Eg3. change (i_type (set_i_valid true (load_inode di y))) with (d_type di). change (d_type di <> 0) in Hty. rewrite (proj2 (Z.eqb_neq _ _) Hty).
  apply wp_ret. now apply HQ.
Qed.

Lemma insert_alter {A} (l : list A) i f x : l !! i = Some x -> alter f i l = <[i := f x]> l.
Proof.
  intros Hx. apply list_eq. intros j. destruct (decide (j = i)) as [->|]; [|now rewrite list_lookup_alter_ne, list_lookup_insert_ne].
  rewrite list_lookup_alter_eq, Hx. apply lookup_lt_Some in Hx. now rewrite list_lookup_insert_eq.
Qed.

(** [iunlock] by the holder. *)
Definition unlocked (x : inode) : inode := with_ilock sl_dropped x.

Lemma wp_iunlock bl V l k ip x Q :
  st_of bl V l k -> l !! ip = Some x -> 1 <= i_ref x -> sl_locked (i_lock x) = true -> sl_pid (i_lock x) = pid ->
  (forall k', st_of bl V (<[ip := unlocked x]> l) k' -> fs_frame (set_k_inodes (<[ip := unlocked x]> l) k) k' -> Q tt k') -> wp (iunlock ip) Q k.
Proof.
  intros H Hx Hr1 Hlk Hpid HQ. destruct (istate_proc _ _ _ _ H) as [[Hr Hf] Hp Ht]. pose proof (is_inodes _ _ _ _ _ _ _ _ _ _ _ H) as El.
  assert (Eg : get_inode ip k = x) by (apply get_inode_lookup; now rewrite El).
  unfold iunlock. apply wp_bind, (wp_holdingsleep (LK_inode ip) p); [done|apply Hf|done|]. intros k1 Hn1. cbn [get_sl]. rewrite Eg, Hlk, Hpid, (is_pid _ _ _ _ _ _ _ _ _ _ _ H), Z.eqb_refl. cbn [andb negb orb].
  pose proof (istate_noise _ _ _ _ _ Hn1 H) as H1. destruct (istate_proc _ _ _ _ H1) as [[Hr' Hf'] Hp' Ht'].
  apply wp_bind, wp_gets. rewrite (noise_eq (get_inode ip) _ _ ltac:(done) Hn1), Eg, (proj2 (Z.ltb_ge _ _)) by lia.
  apply wp_releasesleep; [done|apply Hf'|intros q; apply Hf'|done|done|]. intros k2 Hn2. set (l' := <[ip := unlocked x]> l) in *.
  assert (E : upd_sl (LK_inode ip) sl_dropped k1 = set_k_inodes l' k1).
  { cbn [upd_sl]. unfold upd_inode. f_equal. rewrite (is_inodes _ _ _ _ _ _ _ _ _ _ _ H1). now apply insert_alter. }
  unfold sl_wake in Hn2. rewrite E in Hn2. set (ps := map (wake (CH_sleeplock (LK_inode ip))) (k_procs k1)) in *.
  assert (F : fs_frame (set_k_inodes l' k) k2).
  { etrans; [apply (fs_frame_table l' k k1); now apply fs_frame_bio, noise_frame|]. apply fs_frame_bio.
    apply (bio_frame_intro _ (set_k_procs ps (set_k_inodes l' k1))); [now destruct k1|apply woken_wake|exact Hn2]. }
  apply HQ; [|done]. apply (istate_frame bl V l' (set_k_inodes l' k)); [now apply (istate_table bl V l)| |done].
  apply (tx_noise _ _ _ _ _ _ _ _ _ _ (tx_procs _ _ _ _ _ (is_tx _ _ _ _ _ _ _ _ _ _ _ (istate_table _ _ _ l' _ H1)) (woken_wake _ _)) Hn2).
Qed.

(** [iput] of an inode that stays: other references, or a link on the disk. *)
Lemma wp_iput bl V l k ip x Q :
  st_of bl V l k -> l !! ip = Some x -> (i_valid x = true -> i_nlink x <> 0) ->
  (forall k', st_of bl V (<[ip := ref_add (-1) x]> l) k' -> fs_frame (set_k_inodes (<[ip := ref_add (-1) x]> l) k) k' -> Q tt k') -> wp (iput ip) Q k.
Proof.
  intros H Hx Hnl HQ. destruct (istate_proc _ _ _ _ H) as [[Hr Hf] Hp Ht]. pose proof (is_inodes _ _ _ _ _ _ _ _ _ _ _ H) as El. unfold iput.
  apply wp_bind, wp_acquire; [apply Hf|]. apply wp_bind, wp_gets. change (get_inode ip (acquired LK_icache k)) with (get_inode ip k).
  rewrite (get_inode_lookup ip k x) by now rewrite El. replace ((i_ref x =? 1) && i_valid x && (i_nlink x =? 0)) with false
    by (destruct (i_ref x =? 1), (i_valid x); cbn [andb]; try done; symmetry; apply Z.eqb_neq; auto).
  cbn [when]. apply wp_bind, wp_ret, wp_bind, wp_modify.
  unfold upd_inode. change (k_inodes (acquired LK_icache k)) with (k_inodes k). rewrite El, (insert_alter l ip _ x Hx).
  assert (W : wp (release LK_icache ;;; ret tt) Q (set_k_inodes (<[ip := ref_add (-1) x]> l) (acquired LK_icache k))).
  { apply (wp_icache_end bl V l); [done|]. intros k' H' F. apply wp_ret. now apply HQ. }
  clear -W. unfold wp, bind in *. now destruct (release LK_icache _) as [[] k1| |].
Qed.
End icache.

(** ** Directories *)

Definition dent_inum (V : Z -> list Z) (x : inode) (j : Z) : Z := le_val (fbytes V x (16 * j) 2).
Definition dent_name (V : Z -> list Z) (x : inode) (j : Z) : list Z := fbytes V x (16 * j + 2) 14.
Definition dent_is (V : Z -> list Z) (x : inode) (name : list Z) (j : Z) : bool :=
  nz (dent_inum V x j) && (namecmp name (dent_name V x j) =? 0).
(** The first entry with the name: its inode number and its offset. *)
Definition dir_entry (V : Z -> list Z) (x : inode) (name : list Z) : option (Z * Z) :=
  match List.find (dent_is V x name) (seqZ 0 (i_size x / 16)) with
  | Some j => Some (dent_inum V x j, 16 * j)
  | None => None
  end.

(** A directory: whole entries. *)
Record dir_ok (sb : superblock) (V : Z -> list Z) (x : inode) : Prop := {
  dk_type : i_type x = T_DIR;
  dk_map : map_ok sb V x (i_size x);
  dk_size : i_size x mod 16 = 0 }.

Lemma load_stored_prefix m a l1 l2 : load (Kstring.store m a (l1 ++ l2)) a (length l1) = l1.
Proof.
  rewrite (load_ext _ (Kstring.store m a l1)); [apply load_store|]. intros b Hb. rewrite <- store_app. apply store_other. lia.
Qed.

Lemma load_stored_suffix m a l1 l2 : load (Kstring.store m a (l1 ++ l2)) (a + Z.of_nat (length l1)) (length l2) = l2.
Proof. rewrite (load_ext _ (Kstring.store (Kstring.store m a l1) (a + Z.of_nat (length l1)) l2)); [apply load_store|]. intros b _. symmetry. apply store_app. Qed.

Section lookup.
Context (p : nat) (pid dev st o : Z) (sb : superblock) (D : Z -> list Z).
Notation st_of bl V l k := (istate p pid dev st o sb bl V D l k).

(** Reading one entry into [de]. *)
Lemma wp_read_dirent {B} bl V l k dp x j (cont : Z -> K B) Q :
  st_of bl V l k -> l !! dp = Some x -> i_dev x = dev -> alloc_ok sb V -> dir_ok sb V x -> (length bl + 1 < NBUF)%nat -> 0 <= j < i_size x / 16 ->
  (forall k', st_of bl V l k' -> dir_frame k k' -> le_val (load (k_mem k') local_de 2) = dent_inum V x j -> load (k_mem k') (local_de + 2) DIRSIZ = dent_name V x j ->
     wp (cont 16) Q k') ->
  wp (let* r := readi dp false local_de (16 * j) sizeof_dirent in cont r) Q k.
Proof.
  intros H Hx Hdev Ha [D1 D2 D3] Hbl Hj HQ. destruct H as [T Hsb Hl Hpid]. apply wp_bind. pose proof (mo_len _ _ _ _ D2) as Hlen. change MAXFILE with 268 in Hlen. change BSIZE with 1024 in Hlen.
  assert (F : file_state p dev st o sb dp bl V D x (i_size x) k) by (split; try done; now rewrite Hl).
  assert (Hb : 16 * j + 16 <= i_size x) by zdiv.
  eapply wp_mono; [apply (readi_ok p dev st o sb dp bl V D x k local_de (16 * j) sizeof_dirent F Hbl); unfold sizeof_dirent, local_de; lia|].
  intros r k' (-> & F' & m & R & Em). assert (Ec : read_count (i_size x) (16 * j) sizeof_dirent = 16) by (unfold read_count, sizeof_dirent; rewrite (proj2 (Z.ltb_ge _ _)), (proj2 (Z.leb_gt _ _)) by lia; cbn [orb]; lia).
  rewrite Ec in *. assert (E2 : fbytes V x (16 * j) 16 = fbytes V x (16 * j) 2 ++ dent_name V x j) by (unfold dent_name; apply (fbytes_split V x _ 2 16); lia).
  assert (Hm : k_mem k' = m) by (rewrite (fs_frame_memory _ _ R); done). apply HQ.
  - split; [exact (fst_tx _ _ _ _ _ _ _ _ _ _ _ _ F')|exact (fst_sb _ _ _ _ _ _ _ _ _ _ _ _ F')|rewrite (fs_frame_inodes _ _ R); exact Hl|rewrite (fs_frame_pid _ _ _ R); exact Hpid].
  - exists m, (k_inodes k). split; [|destruct k; exact R]. intros a Hn. rewrite Em. apply store_other. rewrite length_fbytes. lia.
  - rewrite Hm, (load_ext _ (Kstring.store (k_mem k) local_de (fbytes V x (16 * j) 2 ++ dent_name V x j))) by (intros a _; rewrite Em; now rewrite E2).
    exact (f_equal le_val (load_stored_prefix (k_mem k) local_de (fbytes V x (16 * j) 2) (dent_name V x j))).
  - rewrite Hm, (load_ext _ (Kstring.store (k_mem k) local_de (fbytes V x (16 * j) 2 ++ dent_name V x j))) by (intros a _; rewrite Em; now rewrite E2).
    exact (load_stored_suffix (k_mem k) local_de (fbytes V x (16 * j) 2) (dent_name V x j)).
Qed.

Lemma wp_dirlookup_loop fuel bl V l k dp x name j Q :
  st_of bl V l k -> l !! dp = Some x -> i_dev x = dev -> alloc_ok sb V -> dir_ok sb V x -> (length bl + 1 < NBUF)%nat -> 0 <= j <= i_size x / 16 -> i_size x / 16 - j < Z.of_nat fuel ->
  match List.find (dent_is V x name) (seqZ j (i_size x / 16 - j)) with
  | None => forall k', st_of bl V l k' -> dir_frame k k' -> Q None k'
  | Some e => exists i l', iget_table dev (dent_inum V x e) l = Some (i, l') /\ forall k', st_of bl V l' k' -> dir_frame k k' -> Q (Some (i, 16 * e)) k'
  end -> wp (dirlookup_loop fuel dp name (16 * j)) Q k.
Proof.
  revert k j. induction fuel as [|fuel IH]; intros k j H Hx Hdev Ha Hd Hbl Hj Hfuel HQ.
  - lia.
  - cbn [dirlookup_loop]. pose proof (mo_len _ _ _ _ (dk_map _ _ _ Hd)) as Hlen. change MAXFILE with 268 in Hlen. change BSIZE with 1024 in Hlen. pose proof (dk_size _ _ _ Hd) as Hs16.
    apply wp_bind, wp_gets. rewrite (get_inode_lookup dp k x) by now rewrite (is_inodes _ _ _ _ _ _ _ _ _ _ _ H).
    destruct (Z.ltb_spec (16 * j) (i_size x)) as [Hlt|Hge]; cbn [negb].
    2: { rewrite seqZ_nil in HQ by zdiv. apply wp_ret. apply HQ; [done|reflexivity]. }
    apply (wp_read_dirent bl V l k dp x j); try done; [zdiv|]. intros k' H' R En Enm. change (16 =? sizeof_dirent) with true. cbn [negb].
    unfold de_inum, de_name. apply wp_bind, wp_gets, wp_bind, wp_gets. rewrite En, Enm. rewrite seqZ_cons in HQ by zdiv. cbn [List.find] in HQ.
    fold (nz (dent_inum V x j)). change (nz (dent_inum V x j) && (namecmp name (dent_name V x j) =? 0)) with (dent_is V x name j).
    destruct (dent_is V x name j).
    + destruct HQ as (i & l' & Hi & HQ). rewrite Hdev. apply wp_bind. apply (wp_iget p pid dev st o sb D bl V l k' _ i l' _ H' Hi). intros k2 H2 F2.
      apply wp_ret, HQ; [done|]. etrans; [exact R|]. exact (dir_frame_table l' _ _ F2).
    + rewrite u32_small by (unfold sizeof_dirent; lia). replace (16 * j + sizeof_dirent) with (16 * Z.succ j) by (unfold sizeof_dirent; lia).
      apply IH; try done; [zdiv|lia|]. replace (i_size x / 16 - Z.succ j) with (Z.pred (i_size x / 16 - j)) by lia.
      destruct (List.find _ _) as [e|].
      * destruct HQ as (i & l' & Hi & HQ). exists i, l'. split; [done|]. intros k2 H2 R2. apply HQ; [done|]. etrans; [exact R|exact R2].
      * intros k2 H2 R2. apply HQ; [done|]. etrans; [exact R|exact R2].
Qed.

(** The entry with the name, and a reference to its inode; or nothing. *)
Lemma wp_dirlookup bl V l k dp x name Q :
  st_of bl V l k -> l !! dp = Some x -> i_dev x = dev -> alloc_ok sb V -> dir_ok sb V x -> (length bl + 1 < NBUF)%nat ->
  match dir_entry V x name with
  | None => forall k', st_of bl V l k' -> dir_frame k k' -> Q None k'
  | Some (n, off) => exists i l', iget_table dev n l = Some (i, l') /\ forall k', st_of bl V l' k' -> dir_frame k k' -> Q (Some (i, off)) k'
  end -> wp (dirlookup dp name) Q k.
Proof.
  intros H Hx Hdev Ha Hd Hbl HQ. unfold dirlookup. apply wp_bind, wp_gets. rewrite (get_inode_lookup dp k x) by now rewrite (is_inodes _ _ _ _ _ _ _ _ _ _ _ H).
  rewrite (dk_type _ _ _ Hd), Z.eqb_refl. cbn [negb]. pose proof (mo_len _ _ _ _ (dk_map _ _ _ Hd)) as Hlen. pose proof (do_size _ (mo_dinode _ _ _ _ (dk_map _ _ _ Hd))) as Hsz. cbn in Hsz.
  change 0 with (16 * 0) at 1. unfold sizeof_dirent. apply (wp_dirlookup_loop _ bl V l k dp x name 0); try done; [zdiv|rewrite Z2Nat.id; zdiv|].
  rewrite Z.sub_0_r. unfold dir_entry in HQ. now destruct (List.find _ _) as [j|].
Qed.
End lookup.
