(* ===== verification/FsPath.v ===== *)
(** * Path names (kernel/fs.c)

    The elements of a path, the table of inodes as reference counts, and [namex]:
    it resolves a path along the directories on the disk and leaves no reference
    behind, however the walk ends. *)

From stdpp Require Import base numbers list gmap strings.
From S2P Require Import Prelude Kstate Kstring Spinlock Kalloc Vm Sched Sleeplock Bio Blocks Log Tx Fs FsAlloc FsInode FsDir.

(** ** The elements of a path *)

(** A path cut at its slashes. *)
Fixpoint split_slashes (path : list Z) : list (list Z) :=
  match path with
  | [] => [[]]
  | c :: t => if c =? slash then [] :: split_slashes t else
      match split_slashes t with w :: ws => (c :: w) :: ws | [] => [[c]] end
  end.
(** Its elements: the non-empty parts, cut at [DIRSIZ] bytes. *)
Definition path_elems (path : list Z) : list (list Z) := map (take DIRSIZ) (filter (fun w => w <> []) (split_slashes path)).
(** The name in a buffer of [DIRSIZ] bytes: up to the first NUL. *)
Definition cname (name : list Z) : list Z := cstr (list_bytes name) DIRSIZ.

Lemma skip_slashes_elems path : path_elems (skip_slashes path) = path_elems path.
Proof.
  induction path as [|c t IH]; [done|]. cbn [skip_slashes]. destruct (c =? slash) eqn:E; [|done]. rewrite IH. unfold path_elems. cbn [split_slashes]. now rewrite E.
Qed.

Lemma skip_slashes_head path : skip_slashes path = [] \/ exists c t, skip_slashes path = c :: t /\ c <> slash.
Proof. induction path as [|c t IH]; [now left|]. cbn [skip_slashes]. destruct (Z.eqb_spec c slash); [done|right; eauto]. Qed.

Lemma skip_slashes_length path : (length (skip_slashes path) <= length path)%nat.
Proof. induction path as [|c t IH]; [done|]. cbn [skip_slashes]. destruct (c =? slash); cbn [length] in *; lia. Qed.

(** The first part and the rest, which is empty or begins with a slash. *)
Lemma path_elem_split path s r : path_elem path = (s, r) -> path = s ++ r /\ split_slashes path = s :: tail (split_slashes path) /\ filter (fun w => w <> []) (tail (split_slashes path)) = filter (fun w => w <> []) (split_slashes r).
Proof.
  revert s r. induction path as [|c t IH]; intros s r E; cbn [path_elem] in E; [injection E as <- <-; done|]. destruct (c =? slash) eqn:Ec.
  - injection E as <- <-. cbn [split_slashes]. rewrite Ec. done.
  - destruct (path_elem t) as [s' r'] eqn:Et. injection E as <- <-. destruct (IH _ _ eq_refl) as (-> & E2 & E3). split; [done|]. cbn [split_slashes]. rewrite Ec, E2. done.
Qed.

Lemma path_elem_nonempty c t s r : c <> slash -> path_elem (c :: t) = (s, r) -> s <> [].
Proof. intros Hc E. cbn [path_elem] in E. rewrite (proj2 (Z.eqb_neq _ _) Hc) in E. destruct (path_elem t). now injection E as <- <-. Qed.

Lemma cstr_app l1 l2 n : Forall (fun c => c <> 0) l1 -> (length l1 <= n)%nat -> cstr (list_bytes (l1 ++ l2)) n = l1 ++ cstr (list_bytes l2) (n - length l1).
Proof.
  revert n. induction l1 as [|c l1 IH]; intros n Hf Hn; [cbn; now rewrite Nat.sub_0_r|]. inversion Hf as [|? ? Hc Hf']; subst. destruct n; [cbn in Hn; lia|].
  cbn [app cstr]. change (list_bytes (c :: l1 ++ l2) O) with c. rewrite (proj2 (nz_true c) Hc). cbn [app]. f_equal. cbn [length Nat.sub] in *. rewrite <- IH by (done || lia). done.
Qed.

(** [skipelem] takes the first element off the path. *)
Lemma skipelem_elems path name :
  Forall (fun c => c <> 0) path -> length name = DIRSIZ ->
  match path_elems path with
  | [] => skipelem path name = None
  | e :: es => exists rest name', skipelem path name = Some (rest, name') /\ path_elems rest = es /\ cname name' = e /\ length name' = DIRSIZ /\
      Forall (fun c => c <> 0) rest /\ (length rest < length path)%nat /\ (rest = [] <-> es = [])
  end.
Proof.
  intros Hz Hname. rewrite <- (skip_slashes_elems path). unfold skipelem. pose proof (skip_slashes_length path) as Hlen.
  assert (Hz' : Forall (fun c => c <> 0) (skip_slashes path)).
  { clear -Hz. induction Hz as [|c t Hc Hz IH]; [constructor|]. cbn [skip_slashes]. destruct (c =? slash); [done|now constructor]. }
  destruct (skip_slashes_head path) as [->|(c & t & E & Hc)]; [done|]. rewrite E in *. destruct (path_elem (c :: t)) as [s r] eqn:Ep.
  destruct (path_elem_split _ _ _ Ep) as (Eq & E2 & E3). pose proof (path_elem_nonempty _ _ _ _ Hc Ep) as Hs.
  assert (Ee : path_elems (c :: t) = take DIRSIZ s :: path_elems (skip_slashes r)).
  { rewrite skip_slashes_elems. unfold path_elems. rewrite E2, filter_cons_True by done. cbn [map]. now rewrite E3. }
  rewrite Ee. rewrite Eq in Hz', Hlen. apply Forall_app in Hz' as [Hzs Hzr].
  assert (Hs0 : (1 <= length s)%nat) by (destruct s; [done|cbn; lia]). rewrite length_app in Hlen. pose proof (skip_slashes_length r) as Hr.
  eexists _, _. split; [reflexivity|]. split; [done|]. split; [|split; [|split; [|split]]].
  - unfold cname. destruct (Nat.leb_spec DIRSIZ (length s)) as [Hle|Hgt]; unfold list_put; rewrite take_0; cbn [app].
    + rewrite cstr_app; [|now apply Forall_take|rewrite length_take; lia]. rewrite length_take, Nat.min_l, Nat.sub_diag by lia. cbn [cstr]. apply app_nil_r.
    + rewrite <- app_assoc, cstr_app by (done || lia). rewrite take_ge by lia. destruct (DIRSIZ - length s)%nat eqn:Ed; [lia|]. cbn [cstr app]. apply app_nil_r.
  - destruct (Nat.leb_spec DIRSIZ (length s)); rewrite length_list_put; rewrite ?length_take, ?length_app; cbn [length]; lia.
  - clear -Hzr. induction Hzr as [|d u Hd Hz IH]; [constructor|]. cbn [skip_slashes]. destruct (d =? slash); [done|now constructor].
  - lia.
  - destruct (skip_slashes_head r) as [->|(d & u & E' & Hd)]; [done|]. rewrite E'. split; [done|]. intros H.
    destruct (path_elem (d :: u)) as [s' r'] eqn:Ep'. destruct (path_elem_split _ _ _ Ep') as (_ & E2' & _). unfold path_elems in H. rewrite E2', filter_cons_True in H by exact (path_elem_nonempty _ _ _ _ Hd Ep'). done.
Qed.

(** ** The tree of directories on the disk *)

Lemma dinode_of_load di x : dinode_of (load_inode di x) = di.
Proof. now destruct di. Qed.

Section tree.
Context (sb : superblock) (V : Z -> list Z).

Definition disk_inode (n : Z) : dinode := get_dinode (V (IBLOCK n sb)) n.
(** The inode as [ilock] loads it. *)
Definition node (n : Z) : inode := load_inode (disk_inode n) (mk_inode 0 n 1 zero_sleeplock true 0 0 0 0 0 []).
Definition is_dir (n : Z) : bool := d_type (disk_inode n) =? T_DIR.
(** The entry of a directory with the name [e]. *)
Definition has_name (x : inode) (e : list Z) (j : Z) : bool := nz (dent_inum V x j) && bool_decide (e = cname (dent_name V x j)).
Definition child_in (x : inode) (e : list Z) : option Z :=
  match List.find (has_name x e) (seqZ 0 (i_size x / 16)) with
  | Some j => Some (dent_inum V x j)
  | None => None
  end.
Definition child (n : Z) (e : list Z) : option Z := child_in (node n) e.

(** Where a path leads from inode [n]: to the inode it names, or ([parent]) to the
    directory that holds its last element. *)
Fixpoint resolve (parent : bool) (n : Z) (es : list (list Z)) : option Z :=
  match es with
  | [] => if parent then None else Some n
  | e :: es' =>
      if is_dir n then
        if parent && bool_decide (es' = []) then Some n
        else match child n e with Some m => resolve parent m es' | None => None end
      else None
  end.

(** A set of inodes that is closed under the entries of its directories; all are in
    use and have a link. *)
Record tree_ok (I : Z -> Prop) : Prop := {
  to_used : forall n, I n -> d_type (disk_inode n) <> 0 /\ d_nlink (disk_inode n) <> 0;
  to_dir : forall n, I n -> is_dir n = true -> dir_ok sb V (node n);
  to_child : forall n j, I n -> is_dir n = true -> 0 <= j < i_size (node n) / 16 -> dent_inum V (node n) j <> 0 -> I (dent_inum V (node n) j) }.

Lemma child_closed I n e m : tree_ok I -> I n -> is_dir n = true -> child n e = Some m -> I m.
Proof.
  intros Ht Hn Hd. unfold child, child_in. destruct (List.find _ _) as [j|] eqn:E; [|done]. intros [= <-]. apply List.find_some in E as [Hj E].
  apply andb_true_iff in E as [E _]. apply nz_true in E. apply list_elem_of_In, elem_of_seqZ in Hj. apply (to_child _ Ht n j Hn Hd); [lia|done].
Qed.

(** Two copies of the inode agree on the file. *)
Definition same_file (x y : inode) : Prop := i_inum x = i_inum y /\ dinode_of x = dinode_of y.

Lemma same_file_fields x y : same_file x y -> i_inum x = i_inum y /\ i_type x = i_type y /\ i_nlink x = i_nlink y /\ i_size x = i_size y /\ i_addrs x = i_addrs y.
Proof. intros [H1 H2]. unfold dinode_of in H2. injection H2; intros; auto 10. Qed.

Lemma same_file_iblock x y bn : same_file x y -> iblock V x bn = iblock V y bn.
Proof. intros H. destruct (same_file_fields x y H) as (_ & _ & _ & _ & E). unfold iblock, i_ind. now rewrite E. Qed.

Lemma same_file_bytes x y off n : same_file x y -> fbytes V x off n = fbytes V y off n.
Proof. intros H. unfold fbytes. apply map_ext. intros i. unfold fbyte. now rewrite (same_file_iblock x y _ H). Qed.

Lemma same_file_dir x y : same_file x y -> dir_ok sb V x -> dir_ok sb V y.
Proof.
  intros H [D1 [M1 M2 M3 M4 M5 M6 M7] D3]. destruct (same_file_fields x y H) as (E1 & E2 & _ & E3 & E4). pose proof (fun bn => same_file_iblock x y bn H) as Eb.
  assert (Eh : home sb y = home sb x) by (unfold home; now rewrite E1). assert (Ei : i_ind y = i_ind x) by (unfold i_ind; now rewrite E4).
  split; [congruence| |congruence]. rewrite <- E3. split; try done; rewrite ?Eh, ?Ei; try done.
  - destruct H as [_ <-]. done.
  - intros bn Hb. rewrite <- Eb. auto.
  - intros b1 b2. rewrite <- !Eb. auto.
  - intros bn. rewrite <- Eb. auto.
Qed.

(** [dirlookup]'s entry is the child with the name in the buffer. *)
Lemma dir_entry_child x n name :
  same_file x (node n) -> option_map fst (dir_entry V x name) = child n (cname name).
Proof.
  intros H. destruct (same_file_fields _ _ H) as (_ & _ & _ & E & _). unfold dir_entry, child, child_in. rewrite E.
  assert (Ed : forall j, dent_inum V x j = dent_inum V (node n) j /\ dent_name V x j = dent_name V (node n) j).
  { intros j. unfold dent_inum, dent_name. now rewrite !(same_file_bytes x (node n) _ _ H). }
  assert (Ef : forall l, List.find (dent_is V x name) l = List.find (has_name (node n) (cname name)) l).
  { induction l as [|j l IH]; [done|]. cbn [List.find]. rewrite <- IH. unfold dent_is at 1, has_name at 1. destruct (Ed j) as [-> ->].
    assert (En : (namecmp name (dent_name V (node n) j) =? 0) = bool_decide (cname name = cname (dent_name V (node n) j))); [|now rewrite En].
    apply Bool.eq_iff_eq_true. rewrite Z.eqb_eq, bool_decide_eq_true. apply strncmp_zero. }
  rewrite Ef. destruct (List.find _ _) as [j|]; [|done]. cbn. f_equal. apply Ed.
Qed.
End tree.

(** ** Reference counts *)

Definition refs_in (x : inode) (n : Z) : Z := if i_inum x =? n then i_ref x else 0.
(** The references to inode [n] in the table. *)
Fixpoint refs (l : list inode) (n : Z) : Z :=
  match l with
  | [] => 0
  | x :: t => refs_in x n + refs t n
  end.

Lemma refs_insert l i x y n : l !! i = Some x -> refs (<[i := y]> l) n = refs l n - refs_in x n + refs_in y n.
Proof.
  revert i. induction l as [|z l IH]; intros [|i] H; try done.
  - injection H as ->. cbn. lia.
  - change (<[S i := y]> (z :: l)) with (z :: <[i := y]> l). cbn [refs]. rewrite (IH i H). lia.
Qed.

Definition nfreei (l : list inode) : nat := length (filter (fun x => i_ref x = 0) l).

(** The table: each inode in use has one entry, and a loaded entry is as on the disk. *)
Record icache_ok (dev : Z) (sb : superblock) (V : Z -> list Z) (l : list inode) : Prop := {
  ic_ref : forall i x, l !! i = Some x -> 0 <= i_ref x;
  ic_used : forall i x, l !! i = Some x -> 0 < i_ref x -> i_dev x = dev /\ (i_valid x = true -> dinode_of x = disk_inode sb V (i_inum x));
  ic_uniq : forall i j x y, l !! i = Some x -> l !! j = Some y -> 0 < i_ref x -> 0 < i_ref y -> i_inum x = i_inum y -> i = j }.

(** Only inode [h] is locked, by process [pid]. *)
Definition locks_ok (pid : Z) (h : option nat) (l : list inode) : Prop :=
  forall j y, l !! j = Some y -> sl_locked (i_lock y) = bool_decide (h = Some j) /\ (h = Some j -> sl_pid (i_lock y) = pid).

Lemma refs_nonneg l n : (forall i x, l !! i = Some x -> 0 <= i_ref x) -> 0 <= refs l n.
Proof.
  induction l as [|x l IH]; intros H; [done|]. cbn [refs]. pose proof (H 0%nat x eq_refl). pose proof (IH (fun i => H (S i))). unfold refs_in. destruct (i_inum x =? n); lia.
Qed.

(** [n] has references exactly when an entry in use carries it. *)
Lemma refs_entry l n : (forall i x, l !! i = Some x -> 0 <= i_ref x) -> 0 < refs l n <-> exists i x, l !! i = Some x /\ 0 < i_ref x /\ i_inum x = n.
Proof.
  induction l as [|x l IH]; intros H; [cbn; split; [lia|intros (i & x & Hi & _); done]|]. cbn [refs]. pose proof (H 0%nat x eq_refl) as Hx. pose proof (refs_nonneg l n (fun i => H (S i))) as Hl. specialize (IH (fun i => H (S i))).
  unfold refs_in. destruct (Z.eqb_spec (i_inum x) n) as [E|E].
  - destruct (decide (0 < i_ref x)); [split; [intros _; now exists 0%nat, x|lia]|]. rewrite <- (Z.add_0_l (refs l n)) in IH. replace (i_ref x) with 0 by lia. rewrite IH.
    split; [intros (i & y & Hy); now exists (S i), y|]. intros ([|i] & y & Hy & Hr & En); [injection Hy as ->; lia|eauto].
  - rewrite Z.add_0_l, IH. split; [intros (i & y & Hy); now exists (S i), y|]. intros ([|i] & y & Hy & Hr & En); [injection Hy as ->; done|eauto].
Qed.

Lemma iget_scan_spec l i0 empty dev n :
  match iget_scan l i0 empty dev n with
  | (Some i, _) => exists j x, i = (i0 + j)%nat /\ l !! j = Some x /\ 0 < i_ref x /\ i_dev x = dev /\ i_inum x = n
  | (None, e) => (forall j x, l !! j = Some x -> 0 < i_ref x -> i_dev x = dev -> i_inum x <> n) /\
      match empty, e with
      | Some a, Some b => a = b
      | Some _, None => False
      | None, Some b => exists j x, b = (i0 + j)%nat /\ l !! j = Some x /\ i_ref x = 0
      | None, None => nfreei l = 0%nat
      end
  end.
Proof.
  revert i0 empty. induction l as [|x l IH]; intros i0 empty; cbn [iget_scan]; [split; [done|]; now destruct empty|].
  destruct ((0 <? i_ref x) && (i_dev x =? dev) && (i_inum x =? n)) eqn:E.
  - rewrite !andb_true_iff, Z.ltb_lt, !Z.eqb_eq in E. destruct E as [[E1 E2] E3]. exists 0%nat, x. split; [lia|]. done.
  - set (e' := match empty with None => if i_ref x =? 0 then Some i0 else None | Some _ => empty end). specialize (IH (S i0) e'). destruct (iget_scan l (S i0) e' dev n) as [[i|] e].
    + destruct IH as (j & y & -> & H). exists (S j), y. split; [lia|]. done.
    + destruct IH as [H1 H2]. split.
      * intros [|j] y Hy Hr Hd Hn; [injection Hy as ->; rewrite !andb_false_iff, Z.ltb_ge, !Z.eqb_neq in E; destruct E as [[E|E]|E]; [lia|done|done]|]. now apply (H1 j y).
      * unfold e' in H2. destruct empty as [a|]; [done|]. unfold nfreei. destruct (Z.eqb_spec (i_ref x) 0) as [Hz|Hz].
        -- destruct e as [b|]; [|done]. subst. exists 0%nat, x. split; [lia|]. done.
        -- destruct e as [b|]; [destruct H2 as (j & y & -> & H2); exists (S j), y; split; [lia|done]|]. now rewrite filter_cons_False.
Qed.

Definition bump (R : Z -> Z) (n d : Z) : Z -> Z := fun m => if m =? n then R m + d else R m.

(** *** Replacing one entry *)

Lemma lookup_update {A} (l : list A) i x y j : l !! i = Some x -> <[i := y]> l !! j = if decide (i = j) then Some y else l !! j.
Proof. intros Hx. case_decide as E; [subst; apply list_lookup_insert_eq; now apply lookup_lt_Some in Hx|now apply list_lookup_insert_ne]. Qed.

(** The inode number stays, or it is not in use elsewhere. *)
Lemma icache_update dev sb V l i x y :
  icache_ok dev sb V l -> l !! i = Some x -> 0 <= i_ref y -> i_dev y = dev -> (i_valid y = true -> dinode_of y = disk_inode sb V (i_inum y)) ->
  (0 < i_ref x /\ i_inum y = i_inum x) \/ (forall j z, l !! j = Some z -> 0 < i_ref z -> i_inum z <> i_inum y) -> icache_ok dev sb V (<[i := y]> l).
Proof.
  intros [H1 H2 H3] Hx Href Hdev Hval Hn. split.
  - intros j z. rewrite (lookup_update l i x) by done. case_decide; [now intros [= <-]|apply H1].
  - intros j z. rewrite (lookup_update l i x) by done. case_decide; [now intros [= <-]|apply H2].
  - assert (Hone : forall j z, i <> j -> l !! j = Some z -> 0 < i_ref z -> i_inum y <> i_inum z).
    { intros j z Hne Hz Hr E. destruct Hn as [[Hr' En]|Hn]; [apply Hne, (H3 i j x z); congruence|now apply (Hn j z)]. }
    intros j j' z z'. rewrite !(lookup_update l i x) by done. repeat case_decide; subst; [done|..].
    + intros [= <-] Hz' _ Hr' E. destruct (Hone j' z'); done.
    + intros Hz [= <-] Hr _ E. destruct (Hone j z); done.
    + apply H3.
Qed.

Lemma locks_update pid l i x y h : l !! i = Some x -> locks_ok pid h l -> i_lock y = i_lock x -> locks_ok pid h (<[i := y]> l).
Proof. intros Hx Hl E j z. rewrite (lookup_update l i x) by done. case_decide; [intros [= <-]; subst; rewrite E; now apply Hl|apply Hl]. Qed.

(** The entries in use survive. *)
Definition entries_kept (l l' : list inode) : Prop :=
  forall j x, l !! j = Some x -> 0 < i_ref x -> exists x', l' !! j = Some x' /\ same_file x x' /\ i_valid x' = i_valid x /\ 0 < i_ref x'.

Lemma entries_kept_update l i x y : l !! i = Some x -> (0 < i_ref x -> same_file x y /\ i_valid y = i_valid x /\ 0 < i_ref y) -> entries_kept l (<[i := y]> l).
Proof.
  intros Hx H j z Hz Hr. rewrite (lookup_update l i x y j Hx). case_decide as E; [|now exists z]. subst j. rewrite Hx in Hz. injection Hz as ->. exists y. split; [done|]. now apply H.
Qed.

Lemma iget_table_ok dev pid sb V l h n :
  icache_ok dev sb V l -> locks_ok pid h l -> 0 < refs l n \/ (0 < nfreei l)%nat ->
  exists i y, iget_table dev n l = Some (i, <[i := y]> l) /\ (i < length l)%nat /\ i_inum y = n /\ 0 < i_ref y /\
    icache_ok dev sb V (<[i := y]> l) /\ locks_ok pid h (<[i := y]> l) /\ (forall m, refs (<[i := y]> l) m = bump (refs l) n 1 m) /\ entries_kept l (<[i := y]> l).
Proof.
  intros Hok Hlk Hroom. pose proof Hok as [H1 H2 H3]. unfold iget_table. pose proof (iget_scan_spec l 0 None dev n) as Hs.
  destruct (iget_scan l 0 None dev n) as [[i|] e].
  - destruct Hs as (j & x & -> & Hx & Hr & Hd & Hn). rewrite Nat.add_0_l. exists j, (ref_add 1 x). destruct (H2 j x Hx Hr) as [_ Hv]. pose proof (H1 j x Hx).
    split; [f_equal; f_equal; now apply insert_alter|]. split; [now apply lookup_lt_Some in Hx|]. split; [done|]. split; [cbn; lia|].
    split; [apply (icache_update dev sb V l j x); try done; [cbn; lia|now left]|]. split; [now apply (locks_update pid l j x)|]. split.
    + intros m. rewrite (refs_insert l j x _ m Hx). unfold bump, refs_in. cbn. rewrite Hn. rewrite (Z.eqb_sym n m). destruct (m =? n); lia.
    + apply (entries_kept_update l j x); [done|]. intros _. cbn. split_and!; [done|done|lia].
  - destruct Hs as [Hnone He]. assert (Hz : ~ 0 < refs l n).
    { intros Hr. apply (refs_entry l n H1) in Hr as (i & x & Hx & Hr & En). now apply (Hnone i x Hx Hr (proj1 (H2 i x Hx Hr))). }
    destruct e as [b|]; [|destruct Hroom; lia]. destruct He as (j & x & -> & Hx & Hr). rewrite Nat.add_0_l. exists j, (new_entry dev n x).
    split; [f_equal; f_equal; now apply insert_alter|]. split; [now apply lookup_lt_Some in Hx|]. split; [done|]. split; [cbn; lia|].
    split; [apply (icache_update dev sb V l j x); try done; right; intros i z Hi Hz' E; now apply (Hnone i z Hi Hz' (proj1 (H2 i z Hi Hz')))|].
    split; [now apply (locks_update pid l j x)|]. split.
    + intros m. rewrite (refs_insert l j x _ m Hx). unfold bump, refs_in. cbn. rewrite Hr. rewrite (Z.eqb_sym n m). destruct (m =? n); destruct (i_inum x =? m); lia.
    + apply (entries_kept_update l j x); [done|lia].
Qed.

(** At least [m] entries are free when the references count fewer than [NINODE - m] inodes. *)
Definition room (R : Z -> Z) (m : nat) : Prop := exists S : gset Z, (forall n, 0 < R n -> n ∈ S) /\ (size S + m <= NINODE)%nat.

Lemma room_bump R n m : room R (S m) -> room (bump R n 1) m.
Proof.
  intros (S & HS & Hs). exists ({[n]} ∪ S). split.
  - intros k. unfold bump. destruct (Z.eqb_spec k n); [set_solver|]. intros Hk. specialize (HS k Hk). set_solver.
  - rewrite size_union_alt, size_singleton. pose proof (subseteq_size (S ∖ {[n]}) S ltac:(set_solver)). lia.
Qed.

Lemma room_free dev sb V l : icache_ok dev sb V l -> length l = NINODE -> room (refs l) 1 -> (0 < nfreei l)%nat.
Proof.
  intros [H1 H2 H3] Hl (S & HS & Hs). set (U := filter (fun x => 0 < i_ref x) l).
  assert (Hlen : (length U + nfreei l = length l)%nat).
  { unfold U, nfreei. clear -H1. induction l as [|x l IH]; [done|]. specialize (IH (fun i => H1 (Datatypes.S i))). pose proof (H1 0%nat x eq_refl).
    rewrite !filter_cons. destruct (decide (0 < i_ref x)), (decide (i_ref x = 0)); cbn [length]; lia. }
  assert (Hnd : NoDup (map i_inum U)).
  { unfold U. clear -H3. induction l as [|x l IH]; [constructor|]. specialize (IH (fun i j a b Ha Hb Hr Hr' E => eq_add_S _ _ (H3 (Datatypes.S i) (Datatypes.S j) a b Ha Hb Hr Hr' E))).
    rewrite filter_cons. case_decide as Hr; [|done]. cbn [map]. apply NoDup_cons. split; [|done].
    intros (y & E & Hy)%list_elem_of_fmap. apply list_elem_of_filter in Hy as [Hry Hy]. apply list_elem_of_lookup in Hy as [i Hi]. discriminate (H3 0%nat (Datatypes.S i) x y eq_refl Hi Hr Hry E). }
  assert (Hsz : (length U <= size S)%nat).
  { rewrite <- (length_map i_inum U), <- (size_list_to_set (C := gset Z) _ Hnd). apply subseteq_size. intros n Hn. apply elem_of_list_to_set, list_elem_of_fmap in Hn as (x & -> & Hx).
    apply list_elem_of_filter in Hx as [Hr Hx]. apply list_elem_of_lookup in Hx as [i Hi]. apply HS, (refs_entry l _ H1). eauto. }
  lia.
Qed.

(** ** The operations on the table *)

Section walk.
Context (p : nat) (pid dev st o : Z) (sb : superblock) (bl : list Z) (V D : Z -> list Z).

(** Inside a transaction, with the references [R], and inode [h] locked. *)
Record cache_st (h : option nat) (R : Z -> Z) (k : kernel) : Prop := {
  cs_state : istate p pid dev st o sb bl V D (k_inodes k) k;
  cs_table : icache_ok dev sb V (k_inodes k);
  cs_locks : locks_ok pid h (k_inodes k);
  cs_refs : forall n, refs (k_inodes k) n = R n;
  cs_len : length (k_inodes k) = NINODE }.

(** [i] is a reference to inode [n]. *)
Definition ref_to (i : nat) (n : Z) (k : kernel) : Prop := exists x, k_inodes k !! i = Some x /\ i_inum x = n /\ 0 < i_ref x.
(** ... that is locked and loaded. *)
Definition locked_to (i : nat) (n : Z) (k : kernel) : Prop := exists x, k_inodes k !! i = Some x /\ same_file x (node sb V n) /\ i_valid x = true /\ 0 < i_ref x.

Lemma cache_st_ext h R R' k : (forall n, R n = R' n) -> cache_st h R k -> cache_st h R' k.
Proof. intros E [H1 H2 H3 H4 H5]. split; try done. intros n. now rewrite H4. Qed.

Lemma cache_st_istate h R l k' : istate p pid dev st o sb bl V D l k' -> icache_ok dev sb V l -> locks_ok pid h l -> (forall n, refs l n = R n) -> length l = NINODE -> cache_st h R k'.
Proof. intros Hi Hok Hl Hr Hn. pose proof (is_inodes _ _ _ _ _ _ _ _ _ _ _ Hi) as E. split; rewrite ?E; done. Qed.

Lemma entries_kept_ref l l' k k' i n : k_inodes k = l -> k_inodes k' = l' -> entries_kept l l' -> ref_to i n k -> ref_to i n k'.
Proof. intros <- <- Hk (x & Hx & Hn & Hr). destruct (Hk i x Hx Hr) as (x' & Hx' & [E _] & _ & Hr'). exists x'. split; [done|]. split; [congruence|done]. Qed.

Lemma entries_kept_locked l l' k k' i n : k_inodes k = l -> k_inodes k' = l' -> entries_kept l l' -> locked_to i n k -> locked_to i n k'.
Proof.
  intros <- <- Hk (x & Hx & Hs & Hv & Hr). destruct (Hk i x Hx Hr) as (x' & Hx' & [E1 E2] & Hv' & Hr'). exists x'. split; [done|]. destruct Hs as [S1 S2].
  split; [split; congruence|]. split; [congruence|done].
Qed.

Lemma wp_cache_iget h R k n Q :
  cache_st h R k -> 0 < R n \/ room R 1 ->
  (forall i k', cache_st h (bump R n 1) k' -> ref_to i n k' -> dir_frame k k' -> Q i k') -> wp (iget dev n) Q k.
Proof.
  intros H Hroom HQ. pose proof H as [H1 H2 H3 H4 H5].
  destruct (iget_table_ok dev pid sb V (k_inodes k) h n H2 H3) as (i & y & E & Hi & Hn & Hr & Hok & Hlk & Hrefs & Hkept).
  { rewrite H4. destruct Hroom as [|Hroom]; [now left|right]. apply (room_free dev sb V); [done|done|]. destruct Hroom as (S & HS & Hs). exists S. split; [|done]. intros m Hm. apply HS. now rewrite <- H4. }
  apply (wp_iget p pid dev st o sb D bl V _ k n i _ Q H1 E). intros k' H' F. pose proof (is_inodes _ _ _ _ _ _ _ _ _ _ _ H') as Ek. apply HQ.
  - apply (cache_st_istate h _ _ k' H' Hok Hlk); [intros m; rewrite Hrefs; unfold bump; now rewrite H4|now rewrite length_insert].
  - exists y. rewrite Ek. split; [now apply list_lookup_insert_eq|done].
  - exact (dir_frame_table _ _ _ F).
Qed.

Lemma refs_unique l i x : icache_ok dev sb V l -> l !! i = Some x -> 0 < i_ref x -> refs l (i_inum x) = i_ref x.
Proof.
  intros [H1 H2 H3] Hx Hr. assert (Hz : forall j y, l !! j = Some y -> j <> i -> refs_in y (i_inum x) = 0).
  { intros j y Hy Hne. unfold refs_in. destruct (Z.eqb_spec (i_inum y) (i_inum x)); [|done]. pose proof (H1 j y Hy). destruct (decide (0 < i_ref y)); [|lia]. destruct Hne. now apply (H3 j i y x). }
  clear H1 H2 H3. revert i Hx Hz. induction l as [|z l IH]; intros [|i] Hx Hz; try done; cbn [refs].
  - injection Hx as ->. assert (Hall : forall m, (forall j y, m !! j = Some y -> refs_in y (i_inum x) = 0) -> refs m (i_inum x) = 0).
    { induction m as [|y m IHm]; intros Hm; [done|]. cbn [refs]. rewrite (Hm 0%nat y eq_refl), IHm; [done|]. intros j. exact (Hm (S j)). }
    rewrite (Hall l); [unfold refs_in; rewrite Z.eqb_refl; lia|]. intros j y Hy. now apply (Hz (S j)).
  - assert (E0 : refs_in z (i_inum x) = 0) by (apply (Hz 0%nat); [done|lia]). rewrite E0. rewrite (IH i Hx); [lia|]. intros j y Hy Hne. apply (Hz (S j)); [done|lia].
Qed.

Lemma cache_st_noise h R k k' : noise k k' -> cache_st h R k -> cache_st h R k'.
Proof. intros Hn [H1 H2 H3 H4 H5]. pose proof (noise_eq k_inodes _ _ ltac:(done) Hn) as E. split; rewrite ?E; try done. exact (istate_noise _ _ _ _ _ _ _ _ _ _ _ _ Hn H1). Qed.

Lemma ref_to_noise i n k k' : noise k k' -> ref_to i n k -> ref_to i n k'.
Proof. intros Hn (x & H). exists x. now rewrite (noise_eq k_inodes _ _ ltac:(done) Hn). Qed.

Lemma wp_cache_idup h R k i n Q :
  cache_st h R k -> ref_to i n k -> (forall k', cache_st h (bump R n 1) k' -> ref_to i n k' -> dir_frame k k' -> Q i k') -> wp (idup i) Q k.
Proof.
  intros H (x & Hx & Hn & Hr) HQ. pose proof H as [H1 H2 H3 H4 H5]. destruct (ic_used _ _ _ _ H2 i x Hx Hr) as [Hdev Hval].
  apply (wp_idup p pid dev st o sb D bl V (k_inodes k) k i Q H1). rewrite (insert_alter _ i _ x Hx). intros k' H' F. pose proof (is_inodes _ _ _ _ _ _ _ _ _ _ _ H') as Ek.
  apply HQ; [|exists (ref_add 1 x); rewrite Ek|exact (dir_frame_table _ _ _ F)].
  - apply (cache_st_istate h _ _ k' H').
    + apply (icache_update dev sb V _ i x); try done; [cbn; lia|now left].
    + now apply (locks_update pid _ i x).
    + intros m. rewrite (refs_insert _ i x) by done. rewrite H4. unfold bump, refs_in. cbn. rewrite Hn, (Z.eqb_sym n m). destruct (m =? n); lia.
    + now rewrite length_insert.
  - split; [apply list_lookup_insert_eq; now apply lookup_lt_Some in Hx|]. split; [done|cbn; lia].
Qed.

Context (I : Z -> Prop).
Hypothesis Htree : tree_ok sb V I.
Hypothesis Hbl : (length bl + 1 < NBUF)%nat.

Lemma wp_cache_ilock R k i n Q :
  cache_st None R k -> ref_to i n k -> I n ->
  (forall k', cache_st (Some i) R k' -> locked_to i n k' -> dir_frame k k' -> Q tt k') -> wp (ilock i) Q k.
Proof.
  intros H (x & Hx & Hn & Hr) Hi HQ. pose proof H as [H1 H2 H3 H4 H5]. destruct (ic_used _ _ _ _ H2 i x Hx Hr) as [Hdev Hval]. destruct (H3 i x Hx) as [Hlk _].
  rewrite bool_decide_false in Hlk by done. destruct (to_used _ _ _ Htree n Hi) as [Hty _].
  set (y := locked pid sb V x).
  assert (Hy : i_inum y = n /\ i_ref y = i_ref x /\ i_dev y = dev /\ i_valid y = true /\ dinode_of y = disk_inode sb V n /\ i_lock y = sl_taken pid (i_lock x)).
  { unfold y, locked, loaded, home. change (i_valid (with_ilock _ x)) with (i_valid x). change (i_inum (with_ilock _ x)) with (i_inum x). destruct (i_valid x) eqn:Ev.
    - split_and!; try done. rewrite <- Hn, <- Hval by done. done.
    - rewrite Hn. change (get_dinode (V (IBLOCK n sb)) n) with (disk_inode sb V n). generalize (disk_inode sb V n). intros [ty ma mi nl sz ad]. repeat split; done. }
  destruct Hy as (Y1 & Y2 & Y3 & Y4 & Y5 & Y6).
  apply (wp_ilock p pid dev st o sb D bl V (k_inodes k) k i x); try done; [lia| |lia|].
  { unfold loaded, home. destruct (i_valid x) eqn:Ev; [|cbn; rewrite Hn; exact Hty]. specialize (Hval eq_refl). rewrite Hn in Hval. intros E. apply Hty. rewrite <- Hval. exact E. }
  intros k' H' F. fold y in H', F. pose proof (is_inodes _ _ _ _ _ _ _ _ _ _ _ H') as Ek. apply HQ; [|exists y; rewrite Ek|exact (dir_frame_table _ _ _ F)].
  - apply (cache_st_istate (Some i) R _ k' H').
    + apply (icache_update dev sb V _ i x); try done; [lia|intros _; now rewrite Y1|left; now rewrite Y1].
    + intros j z. rewrite (lookup_update _ i x) by done. case_decide as E; [intros [= <-]; subst; rewrite Y6; cbn; now rewrite bool_decide_true|]. intros Hz. rewrite bool_decide_false by congruence.
      split; [|congruence]. destruct (H3 j z Hz) as [-> _]. now rewrite bool_decide_false.
    + intros m. rewrite (refs_insert _ i x) by done. rewrite H4. unfold refs_in. rewrite Y1, Y2, Hn. lia.
    + now rewrite length_insert.
  - split; [apply list_lookup_insert_eq; now apply lookup_lt_Some in Hx|]. split; [split; [done|]|split; [done|lia]]. rewrite Y5. symmetry. apply dinode_of_load.
Qed.

Lemma wp_cache_iunlock R k i n Q :
  cache_st (Some i) R k -> locked_to i n k ->
  (forall k', cache_st None R k' -> ref_to i n k' -> (forall j m, ref_to j m k -> ref_to j m k') -> dir_frame k k' -> Q tt k') -> wp (iunlock i) Q k.
Proof.
  intros H (x & Hx & [S1 S2] & Hv & Hr) HQ. pose proof H as [H1 H2 H3 H4 H5]. destruct (ic_used _ _ _ _ H2 i x Hx Hr) as [Hdev Hval]. destruct (H3 i x Hx) as [Hlk Hpid].
  rewrite bool_decide_true in Hlk by done. cbn in S1. apply (wp_iunlock p pid dev st o sb D bl V (k_inodes k) k i x); try done; [lia|auto|].
  intros k' H' F. pose proof (is_inodes _ _ _ _ _ _ _ _ _ _ _ H') as Ek.
  assert (Hkept : entries_kept (k_inodes k) (<[i := unlocked x]> (k_inodes k))) by (apply (entries_kept_update _ i x); [done|]; intros _; done).
  assert (Hrefs : forall j m, ref_to j m k -> ref_to j m k') by (intros j m; now apply (entries_kept_ref _ _ _ _ j m eq_refl Ek)).
  apply HQ; [|apply Hrefs; exists x; split; [done|now rewrite S1]|exact Hrefs|exact (dir_frame_table _ _ _ F)].
  apply (cache_st_istate None R _ k' H').
  - apply (icache_update dev sb V _ i x); try done; [cbn; lia|now left].
  - intros j z. rewrite (lookup_update _ i x) by done. case_decide as E; [intros [= <-]; done|]. intros Hz. destruct (H3 j z Hz) as [-> _]. rewrite !bool_decide_false by congruence. done.
  - intros m. rewrite (refs_insert _ i x) by done. rewrite H4. unfold refs_in. cbn. lia.
  - now rewrite length_insert.
Qed.

Lemma wp_cache_iput {h} R k i n Q :
  cache_st h R k -> ref_to i n k -> I n ->
  (forall k', cache_st h (bump R n (-1)) k' -> (forall j m, ref_to j m k -> j <> i \/ 1 < R n -> ref_to j m k') -> dir_frame k k' -> Q tt k') -> wp (iput i) Q k.
Proof.
  intros H (x & Hx & Hn & Hr) Hi HQ. pose proof H as [H1 H2 H3 H4 H5]. destruct (ic_used _ _ _ _ H2 i x Hx Hr) as [Hdev Hval].
  assert (Hru : R n = i_ref x) by (rewrite <- H4, <- Hn; exact (refs_unique _ i x H2 Hx Hr)). destruct (to_used _ _ _ Htree n Hi) as [_ Hnl].
  apply (wp_iput p pid dev st o sb D bl V (k_inodes k) k i x Q H1 Hx).
  { intros Hv E. apply Hnl. rewrite <- Hn, <- (Hval Hv). exact E. }
  intros k' H' F. pose proof (is_inodes _ _ _ _ _ _ _ _ _ _ _ H') as Ek. apply HQ; [| |exact (dir_frame_table _ _ _ F)].
  - apply (cache_st_istate h _ _ k' H').
    + apply (icache_update dev sb V _ i x); try done; [cbn; lia|now left].
    + now apply (locks_update pid _ i x).
    + intros m. rewrite (refs_insert _ i x) by done. rewrite H4. unfold bump, refs_in. cbn. rewrite Hn, (Z.eqb_sym n m). destruct (m =? n); lia.
    + now rewrite length_insert.
  - intros j m (y & Hy & Em & Hry) Hor. unfold ref_to. rewrite Ek, (lookup_update _ i x) by done. case_decide as E; [|now exists y].
    subst j. rewrite Hx in Hy. injection Hy as <-. exists (ref_add (-1) x). split; [done|]. split; [done|]. cbn. destruct Hor; [done|lia].
Qed.

Hypothesis Halloc : alloc_ok sb V.

Lemma wp_cache_dirlookup R k i n name Q :
  cache_st (Some i) R k -> locked_to i n k -> I n -> is_dir sb V n = true -> room R 1 ->
  match child sb V n (cname name) with
  | None => forall k', cache_st (Some i) R k' -> locked_to i n k' -> dir_frame k k' -> Q None k'
  | Some m => forall j off k', cache_st (Some i) (bump R m 1) k' -> locked_to i n k' -> ref_to j m k' -> dir_frame k k' -> Q (Some (j, off)) k'
  end -> wp (dirlookup i name) Q k.
Proof.
  intros H Hlock Hi Hdir Hroom HQ. pose proof H as [H1 H2 H3 H4 H5]. pose proof Hlock as (x & Hx & Hs & Hv & Hr). destruct (ic_used _ _ _ _ H2 i x Hx Hr) as [Hdev _].
  assert (Hd : dir_ok sb V x) by (apply (same_file_dir sb V (node sb V n)); [destruct Hs; now split|now apply (to_dir _ _ _ Htree)]).
  apply (wp_dirlookup p pid dev st o sb D bl V (k_inodes k) k i x name Q H1 Hx Hdev Halloc Hd Hbl).
  pose proof (dir_entry_child sb V x n name Hs) as Ec. destruct (dir_entry V x name) as [[m off]|]; cbn [option_map fst] in Ec; rewrite <- Ec in HQ.
  - destruct (iget_table_ok dev pid sb V (k_inodes k) (Some i) m H2 H3) as (j & y & E & Hj & Hn & Hry & Hok & Hlk & Hrefs & Hkept).
    { right. apply (room_free dev sb V); [done|done|]. destruct Hroom as (S & HS & Hsz). exists S. split; [|done]. intros a Ha. apply HS. now rewrite <- H4. }
    exists j, (<[j := y]> (k_inodes k)). split; [done|]. intros k' H' F. pose proof (is_inodes _ _ _ _ _ _ _ _ _ _ _ H') as Ek. apply HQ.
    + apply (cache_st_istate (Some i) _ _ k' H' Hok Hlk); [intros a; rewrite Hrefs; unfold bump; now rewrite H4|now rewrite length_insert].
    + exact (entries_kept_locked _ _ k k' i n eq_refl Ek Hkept Hlock).
    + exists y. rewrite Ek. split; [now apply list_lookup_insert_eq|done].
    + done.
  - intros k' H' F. pose proof (is_inodes _ _ _ _ _ _ _ _ _ _ _ H') as Ek. apply HQ; [|unfold locked_to; rewrite Ek; now exists x|done].
    now apply (cache_st_istate (Some i) _ _ k' H').
Qed.

Lemma wp_cache_iunlockput {B} R k i n (cont : K B) Q :
  cache_st (Some i) R k -> locked_to i n k -> I n ->
  (forall k', cache_st None (bump R n (-1)) k' -> (forall j m, ref_to j m k -> j <> i \/ 1 < R n -> ref_to j m k') -> dir_frame k k' -> wp cont Q k') -> wp (iunlockput i ;;; cont) Q k.
Proof.
  intros H Hl Hi HQ. unfold iunlockput. apply wp_bind, wp_bind. apply (wp_cache_iunlock R k i n _ H Hl). intros k1 H1 Hr1 Hk1 F1.
  apply (wp_cache_iput R k1 i n _ H1 Hr1 Hi). intros k2 H2 Hk2 F2. apply HQ; [done| |etrans; [exact F1|exact F2]]. intros j m Hj. apply Hk2. auto.
Qed.

(** The outcome of a walk that started with one more reference than [R]. *)
Definition walked (parent : bool) (n : Z) (es : list (list Z)) (R : Z -> Z) (r : option nat * list Z) (k' : kernel) : Prop :=
  match resolve sb V parent n es with
  | Some m => exists j, fst r = Some j /\ ref_to j m k' /\ cache_st None (bump R m 1) k' /\ (parent = true -> last es = Some (cname (snd r)))
  | None => fst r = None /\ cache_st None R k'
  end.

Lemma bump_undo R n k h : cache_st h (bump (bump R n 1) n (-1)) k -> cache_st h R k.
Proof. apply cache_st_ext. intros m. unfold bump. destruct (m =? n); lia. Qed.

Lemma bump_swap R n m k h : cache_st h (bump (bump (bump R n 1) m 1) n (-1)) k -> cache_st h (bump R m 1) k.
Proof. apply cache_st_ext. intros a. unfold bump. destruct (a =? n), (a =? m); lia. Qed.

Lemma wp_namex_loop R parent fuel n i path name k Q :
  cache_st None (bump R n 1) k -> ref_to i n k -> I n -> (forall m, 0 <= R m) -> room R 2 -> Forall (fun c => c <> 0) path -> length name = DIRSIZ -> (length path < fuel)%nat ->
  (forall r k', walked parent n (path_elems path) R r k' -> dir_frame k k' -> Q r k') -> wp (namex_loop fuel i path parent name) Q k.
Proof.
  revert n i path name k. induction fuel as [|fuel IH]; intros n i path name k H Hr Hi Hpos Hroom Hz Hname Hf HQ; [lia|]. cbn [namex_loop].
  pose proof (skipelem_elems path name Hz Hname) as Hsk. unfold walked in HQ. destruct (path_elems path) as [|e es] eqn:Ee.
  - rewrite Hsk. cbn [resolve] in HQ. destruct parent; [|apply wp_ret, HQ; [now exists i|reflexivity]]. apply wp_bind. apply (wp_cache_iput _ k i n _ H Hr Hi). intros k' H' _ F.
    apply wp_ret, HQ; [|done]. split; [done|]. now apply (bump_undo R n).
  - destruct Hsk as (rest & name' & -> & Hes & Hcn & Hln & Hzr & Hlen & Hnil). cbn [resolve] in HQ.
    apply wp_bind. apply (wp_cache_ilock _ k i n _ H Hr Hi). intros k1 H1 Hl1 F1. apply wp_bind, wp_gets.
    pose proof Hl1 as (x & Hx & Hs & _). destruct (same_file_fields _ _ Hs) as (_ & Ety & _). rewrite (get_inode_lookup i k1 x Hx), Ety. change (i_type (node sb V n)) with (d_type (disk_inode sb V n)). fold (is_dir sb V n).
    destruct (is_dir sb V n) eqn:Edir; cbn [negb].
    2: { apply (wp_cache_iunlockput _ k1 i n _ _ H1 Hl1 Hi). intros k2 H2 _ F2. apply wp_ret, HQ; [|etrans; [exact F1|exact F2]]. split; [done|]. now apply (bump_undo R n). }
    assert (Epar : parent && bool_decide (rest = []) = parent && bool_decide (es = [])) by (f_equal; now apply bool_decide_ext). rewrite Epar.
    destruct (parent && bool_decide (es = [])) eqn:Ep.
    { apply andb_true_iff in Ep as [-> Ees]. apply bool_decide_eq_true in Ees. apply wp_bind. apply (wp_cache_iunlock _ k1 i n _ H1 Hl1). intros k2 H2 Hr2 _ F2. apply wp_ret, HQ; [|etrans; [exact F1|exact F2]].
      exists i. split; [done|]. split; [done|]. split; [done|]. intros _. rewrite Ees. change (Some e = Some (cname name')). now rewrite Hcn. }
    apply wp_bind. apply (wp_cache_dirlookup _ k1 i n name' _ H1 Hl1 Hi Edir); [now apply room_bump|]. rewrite Hcn. destruct (child sb V n e) as [m|] eqn:Ech.
    + intros j off k2 H2 Hl2 Hr2 F2. apply (wp_cache_iunlockput _ k2 i n _ _ H2 Hl2 Hi). intros k3 H3 Hk3 F3. apply bump_swap in H3.
      assert (Hr3 : ref_to j m k3).
      { apply Hk3; [done|]. destruct (decide (j = i)) as [->|]; [right|now left]. destruct Hr2 as (y & Hy & Ey & _), Hl2 as (y' & Hy' & [Ey' _] & _).
        assert (Emn : m = n) by (rewrite Hy in Hy'; injection Hy' as <-; cbn in Ey'; congruence). unfold bump. rewrite Emn, Z.eqb_refl. specialize (Hpos n). lia. }
      apply (IH m j rest name' k3 H3 Hr3); try done; [exact (child_closed sb V I n e m Htree Hi Edir Ech)|lia|]. rewrite Hes. intros r k4 Hw F4. apply HQ; [|etrans; [exact F1|]; etrans; [exact F2|]; etrans; [exact F3|exact F4]].
      unfold walked in Hw. destruct (resolve sb V parent m es) as [t|] eqn:Er; [|done]. destruct Hw as (j' & W1 & W2 & W3 & W4). exists j'. split; [done|]. split; [done|]. split; [done|].
      intros Hp. specialize (W4 Hp). destruct es as [|e' es']; [done|]. exact W4.
    + intros k2 H2 Hl2 F2. apply (wp_cache_iunlockput _ k2 i n _ _ H2 Hl2 Hi). intros k3 H3 _ F3. apply wp_ret, HQ; [|etrans; [exact F1|]; etrans; [exact F2|exact F3]]. split; [done|]. now apply (bump_undo R n).
Qed.
End walk.

(** ** Path resolution *)

(** C14: [namex] (and with it [namei] and [nameiparent]) resolves path names.  The
    elements of the path are its non-empty parts between slashes, cut at 14 bytes;
    the walk starts at the root inode or at the current directory.  The result is a
    reference to exactly the inode that the entries of the directories on the disk
    lead to (for [nameiparent] the directory of the last element, whose name is left
    in [name]), or 0 when an element does not exist or is not in a directory.  The
    reference counts of all inodes are as before but for the one reference returned,
    no inode stays locked, and nothing else changes, whatever way the walk ends. *)
Theorem namex_correct p pid st o sb bl V D I R k path parent name n0 :
  cache_st p pid ROOTDEV st o sb bl V D None R k -> tree_ok sb V I -> alloc_ok sb V -> (length bl + 1 < NBUF)%nat -> room R 2 ->
  (head path <> Some slash -> exists c, p_cwd (get_proc p k) = Some c /\ ref_to c n0 k /\ I n0) -> I ROOTINO -> Forall (fun b => b <> 0) path -> length name = DIRSIZ ->
  let start := if bool_decide (head path = Some slash) then ROOTINO else n0 in
  wp (namex path parent name) (fun r k' => walked p pid ROOTDEV st o sb bl V D parent start (path_elems path) R r k' /\ dir_frame k k') k.
Proof.
  intros H Htree Ha Hbl Hroom Hcwd Hroot Hz Hname start. unfold namex. pose proof H as [H1 H2 H3 H4 H5].
  assert (Hpos : forall m, 0 <= R m) by (intros m; rewrite <- H4; apply refs_nonneg, (ic_ref _ _ _ _ H2)).
  assert (Hloop : forall i k1, cache_st p pid ROOTDEV st o sb bl V D None (bump R start 1) k1 -> ref_to i start k1 -> dir_frame k k1 ->
    wp (namex_loop (S (length path)) i path parent name) (fun r k' => walked p pid ROOTDEV st o sb bl V D parent start (path_elems path) R r k' /\ dir_frame k k') k1).
  { intros i k1 Hs1 Hr1 F1. apply (wp_namex_loop p pid ROOTDEV st o sb bl V D I Htree Hbl Ha R parent _ start); try done; [unfold start; case_bool_decide as E; [done|now destruct (Hcwd E) as (_ & _ & _ & ?)]|lia|].
    intros r k' Hw F. split; [done|]. etrans; [exact F1|exact F]. }
  unfold start in *. case_bool_decide as E; apply wp_bind.
  - apply (wp_cache_iget p pid ROOTDEV st o sb bl V D None R k); [done|right; destruct Hroom as (S & HS & Hs); exists S; split; [done|lia]|]. intros i k1. apply Hloop.
  - destruct (Hcwd E) as (c & Hc & Hrc & Hn0). destruct (istate_proc _ _ _ _ _ _ _ _ _ _ _ H1) as [[Hr Hf] Hp Ht]. apply (wp_myproc _ _ p k Hr Hp). intros k1 Hn1. apply wp_bind, wp_gets. rewrite (noise_proc _ _ _ Hn1), Hc.
    apply (wp_cache_idup p pid ROOTDEV st o sb bl V D None R k1 c n0); [now apply (cache_st_noise _ _ _ _ _ _ _ _ _ _ _ k)|now apply (ref_to_noise _ _ k)|].
    intros k2 Hs2 Hr2 F2. apply Hloop; [done|done|]. transitivity k1; [apply dir_frame_fs, fs_frame_bio; now apply noise_frame|exact F2].
Qed.

(** ** Inodes between memory and the disk *)

(** The entries of the table besides [ip]: those not in use are not locked, and none in
    use is for the inode [inum]. *)
Definition sole_entry (dev inum : Z) (ip : nat) (l : list inode) : Prop :=
  forall j y, l !! j = Some y -> j <> ip -> 0 <= i_ref y /\ (i_ref y = 0 -> sl_locked (i_lock y) = false) /\ (0 < i_ref y -> i_dev y = dev -> i_inum y <> inum).

Lemma nfreei_some l i x : l !! i = Some x -> i_ref x = 0 -> (0 < nfreei l)%nat.
Proof.
  intros Hx Hr. unfold nfreei. assert (Hin : x ∈ filter (fun x => i_ref x = 0) l) by (apply list_elem_of_filter; split; [done|now apply (list_elem_of_lookup_2 l i)]).
  destruct (filter _ l); [now apply not_elem_of_nil in Hin|cbn; lia].
Qed.

(** The last reference is gone: [iget] takes an entry that is not in use. *)
Lemma iget_table_fresh dev inum ip l z : (ip < length l)%nat -> sole_entry dev inum ip l -> i_ref z = 0 -> sl_locked (i_lock z) = false ->
  exists i y, iget_table dev inum (<[ip := z]> l) = Some (i, <[i := new_entry dev inum y]> (<[ip := z]> l)) /\ <[ip := z]> l !! i = Some y /\ sl_locked (i_lock y) = false.
Proof.
  intros Hip Hs Hz Hlk. unfold iget_table. pose proof (iget_scan_spec (<[ip := z]> l) 0 None dev inum) as Sc.
  assert (Hin : forall j y, <[ip := z]> l !! j = Some y -> y = z \/ (j <> ip /\ l !! j = Some y)).
  { intros j y. destruct (decide (j = ip)) as [->|Hne]; [rewrite list_lookup_insert_eq by done; intros [= <-]; now left|rewrite list_lookup_insert_ne by done; now right]. }
  destruct (iget_scan _ 0 None dev inum) as [[i|] e].
  - destruct Sc as (j & y & -> & Hy & Hr & Hd & Hn). destruct (Hin _ _ Hy) as [->|[Hne Hy']]; [lia|]. now destruct (proj2 (proj2 (Hs _ _ Hy' Hne)) Hr Hd).
  - destruct Sc as [_ He]. destruct e as [i|].
    + destruct He as (j & y & -> & Hy & Hr). exists j, y. split; [f_equal; f_equal; now apply insert_alter|]. split; [done|].
      destruct (Hin _ _ Hy) as [->|[Hne Hy']]; [done|]. now apply (Hs _ _ Hy' Hne).
    + pose proof (list_lookup_insert_eq l ip z Hip) as Hy. pose proof (nfreei_some _ _ _ Hy Hz). lia.
Qed.

Lemma loaded_saved sb V x y : length (V (home sb x)) = Z.to_nat BSIZE -> dinode_ok (dinode_of x) -> i_inum y = i_inum x -> i_valid y = false ->
  loaded sb (saved sb V x) y = set_i_valid true (load_inode (dinode_of x) y).
Proof.
  intros Hl Hok En Ev. unfold loaded. rewrite Ev. assert (Eh : home sb y = home sb x) by (unfold home; now rewrite En). unfold saved. now rewrite Eh, upd_eq, En, get_put_dinode.
Qed.

(** C32: an inode between memory and the disk.  The process that has the inode locked,
    with the only reference, whatever it has changed in it, writes it back ([iupdate]),
    unlocks it and drops the reference, so that the entry of the table can be used for
    any other inode; [iget] of the same number and [ilock] then read in what was written:
    type, device numbers, link count, size and all block addresses are as before, in
    whichever entry, with one reference and locked by the process.  On the disk only this
    inode has changed: the other blocks and the other inodes of its block are the same. *)
Theorem inode_roundtrip p pid dev st o sb bl V D l ip x k :
  istate p pid dev st o sb bl V D l k -> l !! ip = Some x -> i_dev x = dev -> alloc_ok sb V -> map_ok sb V x (i_size x) -> 1 <= o ->
  Z.of_nat (length bl) < LOGSIZE - 1 -> i_ref x = 1 -> sl_locked (i_lock x) = true -> sl_pid (i_lock x) = pid -> i_type x <> 0 -> i_nlink x <> 0 ->
  sole_entry dev (i_inum x) ip l ->
  wp (iupdate ip ;;; iunlock ip ;;; iput ip ;;; let* i := iget dev (i_inum x) in ilock i ;;; ret i)
    (fun i k' => exists y bl' V', k_inodes k' !! i = Some y /\ dinode_of y = dinode_of x /\ i_dev y = dev /\ i_inum y = i_inum x /\ i_ref y = 1 /\
       i_valid y = true /\ sl_locked (i_lock y) = true /\ sl_pid (i_lock y) = pid /\
       istate p pid dev st o sb bl' V' D (k_inodes k') k' /\ get_dinode (V' (home sb x)) (i_inum x) = dinode_of x /\
       (forall b, b <> home sb x -> V' b = V b) /\ neighbours sb V x V' /\
       (forall j, j <> i -> j <> ip -> k_inodes k' !! j = l !! j)) k.
Proof.
  intros H Hx Hdev Ha Hm Ho Hlog Href Hlk Hpid Hty Hnl Hs. pose proof H as [T Hsb Hl Hpd]. pose proof (lookup_lt_Some _ _ _ Hx) as Hlt.
  pose proof (bo_len _ _ _ (mo_home _ _ _ _ Hm)) as Hlen. pose proof (mo_dinode _ _ _ _ Hm) as Hok.
  apply wp_bind. apply (wp_iupdate p dev st o sb ip D Ho bl V x (i_size x)); [split; try done; now rewrite Hl|done|]. intros k1 F1 R1. set (bl1 := absorbed (home sb x) bl) in *. set (V1 := saved sb V x) in *.
  assert (Hbl : (length bl1 < NBUF)%nat) by (pose proof (length_absorbed (home sb x) bl); unfold bl1, LOGSIZE, MAXOPBLOCKS, NBUF in *; lia).
  assert (H1 : istate p pid dev st o sb bl1 V1 D l k1) by (split; [apply F1|apply F1|now rewrite (fs_frame_inodes _ _ R1)|now rewrite (fs_frame_pid _ _ _ R1)]).
  apply wp_bind. apply (wp_iunlock p pid dev st o sb D bl1 V1 l k1 ip x _ H1 Hx ltac:(lia) Hlk Hpid). intros k2 H2 _.
  assert (Hx2 : <[ip := unlocked x]> l !! ip = Some (unlocked x)) by now apply list_lookup_insert_eq.
  apply wp_bind. apply (wp_iput p pid dev st o sb D bl1 V1 _ k2 ip (unlocked x) _ H2 Hx2 ltac:(done)). rewrite list_insert_insert_eq. intros k3 H3 _.
  destruct (iget_table_fresh dev (i_inum x) ip l (ref_add (-1) (unlocked x)) Hlt Hs ltac:(cbn; lia) ltac:(done)) as (i & y & Hg & Hy & Hyl). set (l3 := <[ip := ref_add (-1) (unlocked x)]> l) in *.
  apply wp_bind. apply (wp_iget p pid dev st o sb D bl1 V1 l3 k3 (i_inum x) i _ _ H3 Hg). intros k4 H4 _. pose proof (lookup_lt_Some _ _ _ Hy) as Hi.
  set (z := new_entry dev (i_inum x) y) in *. assert (Hz : <[i := z]> l3 !! i = Some z) by now apply list_lookup_insert_eq.
  assert (Ez : forall u, i_inum u = i_inum x -> i_valid u = false -> loaded sb V1 u = set_i_valid true (load_inode (dinode_of x) u)) by (intros u; now apply loaded_saved).
  apply wp_bind. apply (wp_ilock p pid dev st o sb D bl1 V1 _ k4 i z _ H4 Hz ltac:(cbn; lia) Hyl ltac:(done)); [now rewrite Ez|done|]. rewrite list_insert_insert_eq. intros k5 H5 _. apply wp_ret.
  unfold locked in H5. rewrite Ez in H5 by done. set (w := set_i_valid true _) in H5. rewrite (is_inodes _ _ _ _ _ _ _ _ _ _ _ H5). exists w, bl1, V1. split; [now apply list_lookup_insert_eq|].
  split; [apply dinode_of_load|]. do 6 (split; [done|]). split; [exact H5|]. unfold V1, saved. split; [now rewrite upd_eq, get_put_dinode|].
  split; [intros b Hb; now rewrite upd_ne|]. split; [intros j Hj; now rewrite upd_eq, get_put_dinode_ne|]. intros j Hj1 Hj2. unfold l3. now rewrite !list_lookup_insert_ne.
Qed.

(** ** A concrete tree: the root directory, with one file "a" *)

Definition dirent_bytes (inum : Z) (name : list Z) : list Z := le_bytes 2 inum ++ strncpy (list_bytes name) DIRSIZ.
Definition root_dinode : dinode := mk_dinode T_DIR 0 0 1 48 (47 :: replicate 12 0).
Definition a_dinode : dinode := mk_dinode T_FILE 0 0 1 0 (replicate 13 0).
Definition disk_tree : Z -> list Z :=
  upd (upd disk50 47 (dirent_bytes 1 [46] ++ dirent_bytes 1 [46; 46] ++ dirent_bytes 2 [97] ++ replicate 976 0))
    32 (put_dinode (put_dinode zero_block 1 root_dinode) 2 a_dinode).
Definition state_tree : kernel := fs_machine disk_tree sb50 (replicate NINODE zero_inode).

Lemma tree_root : disk_inode sb50 disk_tree 1 = root_dinode.
Proof. vm_compute. reflexivity. Qed.
Lemma tree_a : disk_inode sb50 disk_tree 2 = a_dinode.
Proof. vm_compute. reflexivity. Qed.

Lemma tree_cache : cache_st 3 7 ROOTDEV 2 1 sb50 [] disk_tree disk_tree None (fun _ => 0) state_tree.
Proof.
  assert (El : k_inodes state_tree = replicate NINODE zero_inode) by reflexivity.
  assert (Hin : forall i x, replicate NINODE zero_inode !! i = Some x -> x = zero_inode) by (intros i x H; now apply lookup_replicate in H as [-> _]).
  split; rewrite ?El.
  - split; [now apply fs_machine_tx|reflexivity|reflexivity|reflexivity].
  - split; [intros i x H; now rewrite (Hin i x H)|intros i x H Hr; rewrite (Hin i x H) in Hr; done|intros i j x y H _ Hr; rewrite (Hin i x H) in Hr; done].
  - intros j y H. rewrite (Hin j y H). done.
  - intros n. generalize NINODE. induction n0 as [|m IH]; [done|]. cbn [replicate refs]. rewrite IH. unfold refs_in. now destruct (i_inum zero_inode =? n).
  - reflexivity.
Qed.

Lemma tree_alloc : alloc_ok sb50 disk_tree.
Proof.
  assert (B : forall V, V 45 = disk50 45 -> forall b, b = 32 \/ b = 47 -> length (V b) = Z.to_nat BSIZE -> block_ok sb50 V b).
  { intros V EV b Hb Hl. split; [cbn; lia| |done| |right; destruct Hb; subst; vm_compute; discriminate].
    - unfold allocated. replace (BBLOCK b sb50) with 45 by (destruct Hb; subst; reflexivity). rewrite EV. destruct Hb; subst; vm_compute; reflexivity.
    - intros b' Hb'. unfold BBLOCK. change BPB with 8192. cbn in *. rewrite Z.div_small by lia. destruct Hb; subst; done. }
  apply data_alloc_ok; [apply B; [reflexivity|now left|reflexivity]|]. apply data_alloc_ok; [apply B; [reflexivity|now right|reflexivity]|].
  split; [exact disk50_bitmap|vm_compute; reflexivity|cbn; lia].
Qed.

Lemma tree_block b : b = 32 \/ b = 47 -> block_ok sb50 disk_tree b.
Proof.
  intros Hb. split; [cbn; lia|destruct Hb; subst; vm_compute; reflexivity|destruct Hb; subst; vm_compute; reflexivity| |right; destruct Hb; subst; vm_compute; discriminate].
  intros b' Hb'. unfold BBLOCK. change BPB with 8192. cbn in *. rewrite Z.div_small by lia. destruct Hb; subst; done.
Qed.

Lemma tree_iblock bn : 0 <= bn -> iblock disk_tree (node sb50 disk_tree 1) bn = if bn =? 0 then 47 else 0.
Proof.
  intros Hb. unfold iblock, node. rewrite tree_root. change (i_ind (load_inode root_dinode _)) with 0. destruct (Z.ltb_spec bn (Z.of_nat NDIRECT)) as [Hlt|Hge].
  - unfold NDIRECT in Hlt. assert (Hc : bn ∈ seqZ 0 12) by (apply elem_of_seqZ; lia).
    assert (A : Forall (fun b => d_addrs root_dinode !!! Z.to_nat b = if b =? 0 then 47 else 0) (seqZ 0 12)) by (apply (bool_decide_unpack _); vm_compute; exact Logic.I).
    rewrite Forall_forall in A. exact (A bn Hc).
  - cbn [Z.eqb]. destruct (Z.eqb_spec bn 0); [unfold NDIRECT in *; lia|done].
Qed.

Lemma tree_map : map_ok sb50 disk_tree (node sb50 disk_tree 1) 48.
Proof.
  split.
  - unfold node. rewrite tree_root, dinode_of_load. split; [vm_compute; split; [discriminate|reflexivity]..|reflexivity|]. apply (bool_decide_unpack _). vm_compute. exact Logic.I.
  - apply tree_block. now left.
  - unfold node. now rewrite tree_root.
  - intros bn [Hb _]. rewrite tree_iblock by done. destruct (bn =? 0); [|done]. intros _. split; [apply tree_block; now right|]. unfold node. now rewrite tree_root.
  - intros b1 b2 [H1 _] [H2 _]. rewrite !tree_iblock by done. destruct (Z.eqb_spec b1 0), (Z.eqb_spec b2 0); done || congruence.
  - intros bn Hb Hl. change BSIZE with 1024 in Hl. rewrite tree_iblock by done. now replace (bn =? 0) with true by lia.
  - vm_compute. split; discriminate.
Qed.

Lemma tree_tree : tree_ok sb50 disk_tree (fun n => n = 1 \/ n = 2).
Proof.
  split.
  - intros n [->| ->]; [rewrite tree_root|rewrite tree_a]; done.
  - intros n [->| ->] Hd; [|unfold is_dir in Hd; rewrite tree_a in Hd; done]. assert (Es : i_size (node sb50 disk_tree 1) = 48) by (unfold node; now rewrite tree_root).
    split; [unfold node; now rewrite tree_root|rewrite Es; exact tree_map|now rewrite Es].
  - intros n j [->| ->] Hd Hj Hz; [|unfold is_dir in Hd; rewrite tree_a in Hd; done]. assert (Es : i_size (node sb50 disk_tree 1) = 48) by (unfold node; now rewrite tree_root).
    rewrite Es in Hj. assert (Hc : j ∈ seqZ 0 3) by (apply elem_of_seqZ; change (48 / 16) with 3 in Hj; lia).
    assert (A : Forall (fun j => dent_inum disk_tree (node sb50 disk_tree 1) j = 1 \/ dent_inum disk_tree (node sb50 disk_tree 1) j = 2) (seqZ 0 3)) by (apply (bool_decide_unpack _); vm_compute; exact Logic.I).
    rewrite Forall_forall in A. exact (A j Hc).
Qed.

(** "//a/" leads to inode 2, "/a/b" nowhere. *)
Example namex_correct_witness :
  wp (namex [47; 47; 97; 47] false (replicate DIRSIZ 0)) (fun r k' => exists j, fst r = Some j /\ ref_to j 2 k' /\
    cache_st 3 7 ROOTDEV 2 1 sb50 [] disk_tree disk_tree None (bump (fun _ => 0) 2 1) k') state_tree /\
  wp (namex [47; 97; 47; 98] false (replicate DIRSIZ 0)) (fun r k' => fst r = None /\
    cache_st 3 7 ROOTDEV 2 1 sb50 [] disk_tree disk_tree None (fun _ => 0) k') state_tree.
Proof.
  assert (T : forall path, head path = Some slash -> Forall (fun b => b <> 0) path ->
    wp (namex path false (replicate DIRSIZ 0)) (fun r k' => walked 3 7 ROOTDEV 2 1 sb50 [] disk_tree disk_tree false ROOTINO (path_elems path) (fun _ => 0) r k' /\ dir_frame state_tree k') state_tree).
  { intros path Hh Hz. pose proof (namex_correct 3 7 2 1 sb50 [] disk_tree disk_tree (fun n => n = 1 \/ n = 2) (fun _ => 0) state_tree path false (replicate DIRSIZ 0) 0
      tree_cache tree_tree tree_alloc ltac:(unfold NBUF; cbn; lia)) as N. rewrite bool_decide_true in N by exact Hh. apply N; [|intros E; destruct (E Hh)|now left|exact Hz|reflexivity].
    exists ∅. split; [lia|]. rewrite size_empty. unfold NINODE. lia. }
  split.
  - refine (wp_mono _ _ _ _ (T [47; 47; 97; 47] eq_refl _) _); [apply (bool_decide_unpack _); exact Logic.I|]. intros r k' [W _]. unfold walked in W.
    assert (E : resolve sb50 disk_tree false ROOTINO (path_elems [47; 47; 97; 47]) = Some 2) by (vm_compute; reflexivity). rewrite E in W. destruct W as (j & W1 & W2 & W3 & _). exists j. auto.
  - refine (wp_mono _ _ _ _ (T [47; 97; 47; 98] eq_refl _) _); [apply (bool_decide_unpack _); exact Logic.I|]. intros r k' [W _]. unfold walked in W.
    assert (E : resolve sb50 disk_tree false ROOTINO (path_elems [47; 97; 47; 98]) = None) by (vm_compute; reflexivity). rewrite E in W. exact W.
Defined.

(** The file of [disk_hello] with two more links than on the disk, locked by process 7,
    and 49 entries that are not in use. *)
Definition file_linked : inode := mk_inode 1 1 1 (mk_sleeplock true "inode" 7) true T_FILE 0 0 3 5 (47 :: replicate 12 0).
Definition table_linked : list inode := replicate 4 zero_inode ++ [file_linked] ++ replicate 45 zero_inode.

Lemma linked_map : map_ok sb50 disk_hello file_linked 5.
Proof.
  destruct hello_map as [_ H2 H3 H4 H5 H6 H7]. split; [|exact H2|exact H3|exact H4|exact H5|exact H6|exact H7].
  split; [vm_compute; split; [discriminate|reflexivity]..|reflexivity|]. apply (bool_decide_unpack _). vm_compute. exact I.
Qed.

Lemma linked_sole : sole_entry 1 1 4 table_linked.
Proof.
  intros j y Hy Hne. assert (y = zero_inode) as ->; [|done]. unfold table_linked in Hy. apply lookup_app_Some in Hy as [Hy|[Hj Hy]]; [now apply lookup_replicate in Hy as [-> _]|].
  rewrite length_replicate in Hj, Hy. apply lookup_app_Some in Hy as [Hy|[Hj' Hy]]; [|now apply lookup_replicate in Hy as [-> _]].
  apply lookup_lt_Some in Hy. cbn in Hy. lia.
Qed.

(** The three links are on the disk, and in whichever entry the inode is read into. *)
Example inode_roundtrip_witness :
  wp (iupdate 4 ;;; iunlock 4 ;;; iput 4 ;;; let* i := iget 1 1 in ilock i ;;; ret i)
    (fun i k' => exists y, k_inodes k' !! i = Some y /\ i_nlink y = 3 /\ i_size y = 5) (fs_machine disk_hello sb50 table_linked).
Proof.
  refine (wp_mono _ _ _ _ (inode_roundtrip 3 7 1 2 1 sb50 [] disk_hello disk_hello table_linked 4 file_linked _ _ _ _ _ linked_map _ _ _ _ _ _ _ linked_sole) _);
    [split; [now apply fs_machine_tx|reflexivity|reflexivity|reflexivity]|reflexivity|reflexivity|exact disk_hello_alloc|lia|reflexivity|reflexivity|reflexivity|reflexivity|discriminate|discriminate|].
  intros i k' (y & bl' & V' & Hy & Ed & _). exists y. split; [exact Hy|]. split; [exact (f_equal d_nlink Ed)|exact (f_equal d_size Ed)].
Defined.
