(* ===== verification/FsLink.v ===== *)
(** * Adding a directory entry (kernel/fs.c)

    [dirlink] on a locked directory: the new entry goes into the first empty slot or
    behind the last one, through [writei]. *)

From stdpp Require Import base numbers list gmap strings.
From S2P Require Import Prelude Kstate Kstring Spinlock Kalloc Vm Sched Sleeplock Bio Blocks Log Tx Fs FsAlloc FsInode FsDir FsPath.

(** The slot [dirlink] takes. *)
Definition empty_slot (V : Z -> list Z) (x : inode) : Z :=
  match List.find (fun j => dent_inum V x j =? 0) (seqZ 0 (i_size x / 16)) with
  | Some j => j
  | None => i_size x / 16
  end.

Lemma empty_slot_spec V x :
  0 <= i_size x ->
  let j := empty_slot V x in
  0 <= j <= i_size x / 16 /\ (j < i_size x / 16 -> dent_inum V x j = 0).
Proof.
  intros Hs j. unfold j, empty_slot. destruct (List.find _ _) as [e|] eqn:E.
  - apply List.find_some in E as [Hin E]. apply list_elem_of_In, elem_of_seqZ in Hin. split; [lia|]. intros _. now apply Z.eqb_eq.
  - split; [zdiv|lia].
Qed.

(** Entries compared with a name after one slot has changed. *)
Lemma find_app {A} (f : A -> bool) l1 l2 : List.find f (l1 ++ l2) = match List.find f l1 with Some a => Some a | None => List.find f l2 end.
Proof. induction l1 as [|a l1 IH]; [done|]. cbn. now destruct (f a). Qed.

Lemma find_ext_in {A} (f g : A -> bool) l : (forall a, a ∈ l -> f a = g a) -> List.find f l = List.find g l.
Proof. induction l as [|a l IH]; intros H; [done|]. cbn. rewrite (H a) by left. rewrite IH; [done|]. intros b Hb. apply H. now right. Qed.

Lemma find_none_all {A} (f : A -> bool) l : (forall a, a ∈ l -> f a = false) -> List.find f l = None.
Proof. intros H. induction l as [|a l IH]; [done|]. cbn. rewrite H by left. apply IH. intros b Hb. apply H. now right. Qed.

Section added.
Context (V V' : Z -> list Z) (x x' : inode) (inum j : Z) (e : list Z).
Hypothesis Hj : 0 <= j <= i_size x / 16.
Hypothesis Hslot : j < i_size x / 16 -> dent_inum V x j = 0.
Hypothesis Hsize : i_size x' / 16 = Z.max (i_size x / 16) (j + 1).
Hypothesis Hnew : dent_inum V' x' j = inum /\ cname (dent_name V' x' j) = e.
Hypothesis Hold : forall t, 0 <= t < i_size x / 16 -> t <> j -> dent_inum V' x' t = dent_inum V x t /\ dent_name V' x' t = dent_name V x t.

Lemma added_found : inum <> 0 -> child_in V x e = None -> child_in V' x' e = Some inum.
Proof.
  intros Hi Hn. unfold child_in in *. destruct (List.find (has_name V x e) _) eqn:E; [done|]. rewrite Hsize.
  replace (Z.max (i_size x / 16) (j + 1)) with (j + (Z.max (i_size x / 16) (j + 1) - j)) by lia.
  rewrite seqZ_app, find_app, Z.add_0_l by lia. rewrite find_none_all.
  - rewrite seqZ_cons by lia. cbn [List.find]. unfold has_name. destruct Hnew as [E1 E2]. rewrite E1, E2, bool_decide_true, (proj2 (nz_true inum) Hi) by done. cbn [andb]. now rewrite E1.
  - intros t Ht. apply elem_of_seqZ in Ht. pose proof (List.find_none _ _ E t) as Hf. unfold has_name in *. destruct (Hold t) as [-> ->]; [lia|lia|]. apply Hf, list_elem_of_In, elem_of_seqZ. lia.
Qed.

Lemma added_others e' : e' <> e -> child_in V' x' e' = child_in V x e'.
Proof.
  intros Hne. assert (Hfj : has_name V' x' e' j = false) by (unfold has_name; destruct Hnew as [_ ->]; rewrite bool_decide_false by done; apply andb_false_r).
  assert (Hfo : forall t, 0 <= t < i_size x / 16 -> has_name V' x' e' t = has_name V x e' t).
  { intros t Ht. destruct (decide (t = j)) as [->|Hne']; [rewrite Hfj; unfold has_name; rewrite Hslot by lia; done|]. unfold has_name. now destruct (Hold t Ht Hne') as [-> ->]. }
  assert (Ef : List.find (has_name V' x' e') (seqZ 0 (i_size x' / 16)) = List.find (has_name V x e') (seqZ 0 (i_size x / 16))).
  { rewrite Hsize. replace (Z.max (i_size x / 16) (j + 1)) with (i_size x / 16 + (Z.max (i_size x / 16) (j + 1) - i_size x / 16)) by lia. rewrite seqZ_app, find_app by lia.
    rewrite (find_none_all _ (seqZ (0 + i_size x / 16) _)).
    - rewrite (find_ext_in _ (has_name V x e')); [now destruct (List.find _ _)|]. intros t Ht. apply elem_of_seqZ in Ht. apply Hfo. lia.
    - intros t Ht. apply elem_of_seqZ in Ht. replace t with j by lia. exact Hfj. }
  unfold child_in. rewrite Ef. destruct (List.find (has_name V x e') _) as [t|] eqn:E; [|done]. f_equal. apply List.find_some in E as [Ht E]. apply list_elem_of_In, elem_of_seqZ in Ht.
  apply Hold; [lia|]. intros ->. rewrite <- Hfo, Hfj in E by lia. done.
Qed.
End added.

Lemma same_file_child V x y e : same_file x y -> child_in V x e = child_in V y e.
Proof.
  intros H. destruct (same_file_fields x y H) as (_ & _ & _ & E & _). unfold child_in. rewrite E.
  assert (Ed : forall j, dent_inum V x j = dent_inum V y j /\ dent_name V x j = dent_name V y j) by (intros j; unfold dent_inum, dent_name; now rewrite !(same_file_bytes V x y _ _ H)).
  rewrite (find_ext_in (has_name V x e) (has_name V y e)) by (intros j _; unfold has_name; now destruct (Ed j) as [-> ->]).
  destruct (List.find _ _) as [j|]; [|done]. f_equal. apply Ed.
Qed.

Lemma same_file_slot V x y : same_file x y -> empty_slot V y = empty_slot V x.
Proof.
  intros H. destruct (same_file_fields x y H) as (_ & _ & _ & E & _). unfold empty_slot. rewrite E.
  rewrite (find_ext_in _ (fun j => dent_inum V x j =? 0)); [done|]. intros j _. unfold dent_inum. now rewrite (same_file_bytes V x y _ _ H).
Qed.

Lemma fbytes_written V x off n m src :
  (forall i, off <= i < off + n -> fbyte V x i = m (src + (i - off))) -> fbytes V x off n = load m src (Z.to_nat n).
Proof.
  intros H. unfold fbytes, load, seqZ. rewrite <- list_fmap_compose. apply list_fmap_ext. intros i t Hi. apply lookup_seq in Hi as [-> Hi]. cbn. rewrite H by lia. f_equal. lia.
Qed.

Lemma fbytes_same V x V' x' off n : (forall i, off <= i < off + n -> fbyte V' x' i = fbyte V x i) -> fbytes V' x' off n = fbytes V x off n.
Proof. intros H. unfold fbytes. apply list_fmap_ext. intros i t Ht. apply lookup_seqZ in Ht as [-> Ht]. apply H. lia. Qed.

Lemma cname_strncpy name : cname (strncpy (list_bytes name) DIRSIZ) = cname name.
Proof.
  unfold cname. destruct (strncpy_shape DIRSIZ (list_bytes name)) as (k & -> & Hk). apply cstr_padded; [apply cstr_nonzero|lia].
Qed.

Section link.
Context (p : nat) (pid dev st o : Z) (sb : superblock) (D : Z -> list Z).
Notation st_of bl V l k := (istate p pid dev st o sb bl V D l k).

Lemma wp_dirlink_loop fuel bl V l k dp x j Q :
  st_of bl V l k -> l !! dp = Some x -> i_dev x = dev -> alloc_ok sb V -> dir_ok sb V x -> (length bl + 1 < NBUF)%nat -> 0 <= j <= i_size x / 16 -> i_size x / 16 - j < Z.of_nat fuel ->
  (forall k', st_of bl V l k' -> dir_frame k k' ->
     Q (16 * match List.find (fun t => dent_inum V x t =? 0) (seqZ j (i_size x / 16 - j)) with Some t => t | None => i_size x / 16 end) k') ->
  wp (dirlink_loop fuel dp (16 * j)) Q k.
Proof.
  revert k j. induction fuel as [|fuel IH]; intros k j H Hx Hdev Ha Hd Hbl Hj Hfuel HQ; [lia|].
  cbn [dirlink_loop]. pose proof (mo_len _ _ _ _ (dk_map _ _ _ Hd)) as Hlen. change MAXFILE with 268 in Hlen. change BSIZE with 1024 in Hlen. pose proof (dk_size _ _ _ Hd) as Hs16.
  apply wp_bind, wp_gets. rewrite (get_inode_lookup dp k x) by now rewrite (is_inodes _ _ _ _ _ _ _ _ _ _ _ H). rewrite u32_small by zdiv.
  destruct (Z.ltb_spec (16 * j) (i_size x)) as [Hlt|Hge]; cbn [negb].
  2: { rewrite seqZ_nil in HQ by zdiv. apply wp_ret. replace (16 * j) with (16 * (i_size x / 16)) by zdiv. apply HQ; [done|reflexivity]. }
  apply (wp_read_dirent p pid dev st o sb D bl V l k dp x j); try done; [zdiv|]. intros k' H' R En _. change (16 =? sizeof_dirent) with true. cbn [negb].
  unfold de_inum. apply wp_bind, wp_gets. rewrite En. rewrite seqZ_cons in HQ by zdiv. cbn [List.find] in HQ. destruct (dent_inum V x j =? 0).
  - apply wp_ret. now apply HQ.
  - rewrite i32_small by (unfold sizeof_dirent; lia). replace (16 * j + sizeof_dirent) with (16 * Z.succ j) by (unfold sizeof_dirent; lia).
    apply IH; try done; [zdiv|lia|]. replace (i_size x / 16 - Z.succ j) with (Z.pred (i_size x / 16 - j)) by lia. intros k2 H2 R2. apply HQ; [done|]. etrans; [exact R|exact R2].
Qed.

(** Writing the entry prepared in [de]. *)
Lemma wp_write_dirent {B} bl V l k dp x j inum name (cont : Z -> K B) Q :
  st_of bl V l k -> l !! dp = Some x -> i_dev x = dev -> alloc_ok sb V -> dir_ok sb V x -> 1 <= o -> Z.of_nat (length bl) + 6 < LOGSIZE - 1 -> 2 <= Z.of_nat (nfree sb V) ->
  0 <= inum < 2 ^ 16 -> i_size x + 16 <= MAXFILE * BSIZE -> 0 <= j <= i_size x / 16 ->
  (forall k' bl' V' x', file_state p dev st o sb dp bl' V' D x' (i_size x') k' -> i_size x' = Z.max (i_size x) (16 * j + 16) ->
     dent_inum V' x' j = inum -> cname (dent_name V' x' j) = cname name ->
     (forall t, 0 <= t < i_size x / 16 -> t <> j -> dent_inum V' x' t = dent_inum V x t /\ dent_name V' x' t = dent_name V x t) ->
     (forall b, block_ok sb V b -> ~ owned V x b -> b <> home sb x -> V' b = V b) ->
     get_dinode (V' (home sb x)) (i_inum x) = dinode_of x' ->
     (forall i, i mod IPB <> i_inum x mod IPB -> get_dinode (V' (home sb x)) i = get_dinode (V (home sb x)) i) ->
     dir_frame (upd_inode dp (fun _ => x') k) k' -> wp (cont 16) Q k') ->
  wp (memwrite (local_de + 2) (strncpy (list_bytes name) DIRSIZ) ;;; memwrite local_de (le_bytes 2 inum) ;;;
      let* r := writei dp false local_de (u32 (16 * j)) sizeof_dirent in cont r) Q k.
Proof.
  intros H Hx Hdev Ha Hd Ho Hlog Hfree Hi Hmax Hj HQ. pose proof (mo_len _ _ _ _ (dk_map _ _ _ Hd)) as Hlen. pose proof (dk_size _ _ _ Hd) as Hs16. destruct H as [T Hsb Hl Hpid].
  change MAXFILE with 268 in *. change BSIZE with 1024 in *.
  unfold memwrite. apply wp_bind, wp_modify, wp_bind, wp_modify, wp_bind. rewrite u32_small by zdiv.
  set (k1 := set_k_mem _ (set_k_mem _ k)). assert (F : file_state p dev st o sb dp bl V D x (i_size x) k1) by (split; try done; [now apply tx_mem, tx_mem|cbn; now rewrite Hl|apply Hd]).
  set (nm := strncpy (list_bytes name) DIRSIZ) in *. assert (Hnm : length nm = DIRSIZ) by apply length_strncpy.
  assert (M1 : load (k_mem k1) local_de 2 = le_bytes 2 inum) by (apply (load_store _ local_de (le_bytes 2 inum))).
  assert (M2 : load (k_mem k1) (local_de + 2) DIRSIZ = nm).
  { rewrite (load_ext _ (Kstring.store (k_mem k) (local_de + 2) nm)); [rewrite <- Hnm; apply load_store|]. intros a Ha'. cbn. apply store_other. cbn. lia. }
  set (de := load (k_mem k1) local_de 16). assert (Hde : Z.of_nat (length de) = sizeof_dirent) by (unfold de; now rewrite length_load).
  assert (Hsrc : source false local_de de k1) by (split; [rewrite Hde; unfold sizeof_dirent, local_de; lia|unfold de; now rewrite length_load]).
  pose proof (writei_ok p dev st o sb dp bl V D x k1 false local_de de (16 * j) F Ho ltac:(unfold sizeof_dirent, local_de; zdiv) ltac:(unfold local_de; lia) Hsrc) as W.
  cbv zeta in W. rewrite Hde in W. specialize (W ltac:(unfold sizeof_dirent; lia)).
  assert (Er : write_refused (i_size x) (16 * j) sizeof_dirent = false) by (unfold write_refused, sizeof_dirent; change (MAXFILE * BSIZE) with 274432; rewrite !orb_false_iff; zdiv).
  assert (Ern : rounds (16 * j) sizeof_dirent = 1) by (unfold rounds, sizeof_dirent; change BSIZE with 1024; cbn [Z.eqb]; zdiv).
  rewrite Er, Ern in W. eapply wp_mono; [apply W; lia|]. clear W. intros r k' (-> & bl' & V' & x' & F' & Es & Hb & Hblk & Hino & Hoth & _ & _ & _ & Hmem & Hfr).
  unfold sizeof_dirent in Es, Hb, Hino.
  assert (Hnew : forall i, 16 * j <= i < 16 * j + 16 -> fbyte V' x' i = k_mem k1 (local_de + (i - 16 * j))).
  { intros i Hi'. rewrite Hb by lia. rewrite (proj2 (Z.leb_le _ _)), (proj2 (Z.ltb_lt _ _)) by lia. cbn [andb]. apply list_lookup_total_correct.
    unfold de, load. rewrite list_lookup_fmap, lookup_seq_lt by lia. cbn. do 2 f_equal. lia. }
  assert (Hold : forall i, 0 <= i < i_size x' -> ~ 16 * j <= i < 16 * j + 16 -> fbyte V' x' i = fbyte V x i).
  { intros i Hi' Hn. rewrite Hb by lia. destruct (Z.leb_spec (16 * j) i), (Z.ltb_spec i (16 * j + 16)); cbn [andb]; done || lia. }
  apply (HQ k' bl' V' x'); try done.
  - unfold dent_inum. rewrite (fbytes_written V' x' _ 2 (k_mem k1) local_de) by (intros i Hi'; apply Hnew; lia). change (Z.to_nat 2) with 2%nat. rewrite M1, le_val_le_bytes. apply Z.mod_small. cbn. lia.
  - unfold dent_name. rewrite (fbytes_written V' x' _ 14 (k_mem k1) (local_de + 2)) by (intros i Hi'; rewrite Hnew by lia; f_equal; lia). change (Z.to_nat 14) with DIRSIZ. rewrite M2. apply cname_strncpy.
  - intros t Ht Hne. unfold dent_inum, dent_name. split; [f_equal|]; apply fbytes_same; intros i Hi'; apply Hold; zdiv.
  - intros b Hb1 Hb2 Hb3. now apply Hblk.
  - apply Hino. lia.
  - destruct Hfr as [y Hfr]. assert (Ey : k_inodes k' !! dp = Some y). { rewrite (fs_frame_inodes _ _ Hfr). cbn. rewrite list_lookup_alter_eq, Hl, Hx. done. }
    pose proof (fst_inode _ _ _ _ _ _ _ _ _ _ _ _ F') as Ex'. assert (y = x') as -> by congruence.
    exists (k_mem k1), (k_inodes (upd_inode dp (fun _ => x') k)). split; [|destruct k; exact Hfr]. intros a Ha'. cbn. rewrite store_other by (cbn; lia). apply store_other. change (~ local_de + 2 <= a < local_de + 2 + Z.of_nat (length nm)). rewrite Hnm. unfold DIRSIZ. lia.
Qed.
End link.

(** C15: [dirlink] adds a directory entry.  When the directory already has the name,
    it returns -1 and neither the blocks nor the reference counts change.  Otherwise
    it returns 0: the directory then leads from the name (cut at 14 bytes) to the
    inode number and from every other name where it led before; the entry takes the
    first empty slot or extends the directory by one; the directory's inode on the
    disk is the one in memory, the other inodes of its block and all blocks that do
    not belong to the directory or the bitmap are untouched. *)
Theorem dirlink_correct p pid dev st o sb bl V D I R k i x n name inum :
  cache_st p pid dev st o sb bl V D (Some i) R k -> k_inodes k !! i = Some x -> same_file x (node sb V n) -> i_valid x = true -> 0 < i_ref x ->
  I n -> tree_ok sb V I -> alloc_ok sb V -> is_dir sb V n = true -> room R 1 -> 1 <= o -> Z.of_nat (length bl) + 6 < LOGSIZE - 1 -> 2 <= Z.of_nat (nfree sb V) ->
  0 < inum < 2 ^ 16 -> i_size x + 16 <= MAXFILE * BSIZE ->
  wp (dirlink i name inum) (fun r k' =>
    match child sb V n (cname name) with
    | Some _ => r = -1 /\ cache_st p pid dev st o sb bl V D (Some i) R k' /\ dir_frame k k'
    | None => r = 0 /\ exists bl' V' x', file_state p dev st o sb i bl' V' D x' (i_size x') k' /\
        i_size x' = Z.max (i_size x) (16 * empty_slot V x + 16) /\
        child_in V' x' (cname name) = Some inum /\ (forall e, e <> cname name -> child_in V' x' e = child sb V n e) /\
        disk_inode sb V' n = dinode_of x' /\
        (forall m, m mod IPB <> n mod IPB -> get_dinode (V' (IBLOCK n sb)) m = get_dinode (V (IBLOCK n sb)) m) /\
        (forall b, block_ok sb V b -> ~ owned V x b -> b <> IBLOCK n sb -> V' b = V b)
    end) k.
Proof.
  intros H Hx Hs Hv Hr Hi Htree Ha Hdir Hroom Ho Hlog Hfree Hin Hmax. assert (Hbl : (length bl + 1 < NBUF)%nat) by (unfold LOGSIZE, MAXOPBLOCKS, NBUF in *; lia).
  assert (Hlk : locked_to sb V i n k) by now exists x. unfold dirlink. apply wp_bind.
  apply (wp_cache_dirlookup p pid dev st o sb bl V D I Htree Hbl Ha R k i n name _ H Hlk Hi Hdir Hroom). destruct (child sb V n (cname name)) as [m|] eqn:Ec.
  - intros j off k1 H1 Hl1 Hr1 F1. apply wp_bind. apply (wp_cache_iput p pid dev st o sb bl V D I Htree Hbl _ k1 j m _ H1 Hr1 (child_closed sb V I n _ m Htree Hi Hdir Ec)).
    intros k2 H2 _ F2. apply wp_ret. split; [done|]. split; [now apply (bump_undo p pid dev st o sb bl V D Hbl R m)|]. etrans; [exact F1|exact F2].
  - intros k1 H1 (y & Hy & Hsy & Hvy & Hry) F1. assert (Hd : dir_ok sb V y) by (apply (same_file_dir sb V (node sb V n)); [destruct Hsy; now split|now apply (to_dir _ _ _ Htree)]).
    assert (Hxy : same_file x y) by (destruct Hs as [S1 S2], Hsy as [S3 S4]; split; congruence). destruct (same_file_fields x y Hxy) as (Exn & _ & _ & Exs & Exa).
    pose proof H1 as [I1 I2 I3 I4 I5]. destruct (ic_used _ _ _ _ I2 i y Hy Hry) as [Hdev _]. pose proof (mo_len _ _ _ _ (dk_map _ _ _ Hd)) as Hlen. pose proof (dk_size _ _ _ Hd) as Hs16.
    apply wp_bind, wp_gets. rewrite (get_inode_lookup i k1 y Hy). apply wp_bind. change 0 with (16 * 0) at 1. unfold sizeof_dirent at 1.
    apply (wp_dirlink_loop p pid dev st o sb D _ bl V (k_inodes k1) k1 i y 0); try done; [zdiv|rewrite Z2Nat.id; zdiv|]. rewrite Z.sub_0_r. fold (empty_slot V y). intros k2 H2 F2.
    destruct (empty_slot_spec V y ltac:(lia)) as [Hj1 Hj2].
    apply (wp_write_dirent p pid dev st o sb D bl V (k_inodes k1) k2 i y (empty_slot V y) inum name); try done; [lia|lia|].
    intros k3 bl' V' x' F' Es N1 N2 Hold Hblk Hino Hoth _. cbn [negb Z.eqb sizeof_dirent Pos.eqb]. apply wp_ret. split; [done|]. exists bl', V', x'.
    assert (Eslot : empty_slot V y = empty_slot V x) by now apply same_file_slot. rewrite Exs, <- Eslot.
    assert (Esz : i_size x' / 16 = Z.max (i_size y / 16) (empty_slot V y + 1)) by (rewrite Es; zdiv).
    assert (Ehome : home sb y = IBLOCK n sb) by (unfold home; now destruct Hsy as [-> _]). rewrite Ehome in *. assert (En : i_inum y = n) by now destruct Hsy. rewrite En in *.
    assert (Eown : forall b, owned V y b <-> owned V x b) by (intros b; unfold owned, i_ind; rewrite Exa; split; intros [?|(bn & ? & ?)]; [now left|right; exists bn; split; [done|]; now rewrite (same_file_iblock V x y bn Hxy)|now left|right; exists bn; split; [done|]; now rewrite <- (same_file_iblock V x y bn Hxy)]).
    unfold child in *. rewrite <- (same_file_child V y _ _ Hsy) in Ec. split; [done|]. split; [done|].
    split; [apply (added_found V V' y x' inum (empty_slot V y)); try done; lia|].
    split; [intros e He; rewrite <- (same_file_child V y _ e Hsy); now apply (added_others V V' y x' inum (empty_slot V y) (cname name))|].
    split; [exact Hino|]. split; [exact Hoth|]. intros b Hb Hno. apply Hblk; [done|]. now rewrite Eown.
Qed.

(** ** A second name for the file of the small tree *)

Definition root_entry : inode := load_inode root_dinode (mk_inode ROOTDEV 1 1 (mk_sleeplock true "inode" 7) true 0 0 0 0 0 []).
Definition state_link : kernel := fs_machine disk_tree sb50 (root_entry :: replicate (pred NINODE) zero_inode).

Lemma link_entries i x : (root_entry :: replicate (pred NINODE) zero_inode) !! i = Some x -> i = 0%nat /\ x = root_entry \/ i <> 0%nat /\ x = zero_inode.
Proof. destruct i as [|i]; [intros [= <-]; now left|]. intros H. right. split; [done|]. change (replicate (pred NINODE) zero_inode !! i = Some x) in H. now apply lookup_replicate in H as [-> _]. Qed.

Lemma link_cache : cache_st 3 7 ROOTDEV 2 1 sb50 [] disk_tree disk_tree (Some 0%nat) (fun n => if n =? 1 then 1 else 0) state_link.
Proof.
  assert (El : k_inodes state_link = root_entry :: replicate (pred NINODE) zero_inode) by reflexivity. split; rewrite ?El.
  - split; [now apply fs_machine_tx|reflexivity|reflexivity|reflexivity].
  - split.
    + intros i x H. destruct (link_entries i x H) as [[_ ->]|[_ ->]]; done.
    + intros i x H Hr. destruct (link_entries i x H) as [[_ ->]|[_ ->]]; [|done]. split; [done|]. intros _. change (i_inum root_entry) with 1. now rewrite tree_root.
    + intros i j x y Hx Hy Hr Hr' _. destruct (link_entries i x Hx) as [[-> _]|[_ ->]]; [|done]. destruct (link_entries j y Hy) as [[-> _]|[_ ->]]; done.
  - intros j y H. destruct (link_entries j y H) as [[-> ->]|[Hj ->]]; [done|]. rewrite bool_decide_false by congruence. split; [done|congruence].
  - intros n. cbn [refs]. assert (E : forall m, refs (replicate m zero_inode) n = 0) by (induction m as [|m IH]; [done|]; cbn [replicate refs]; rewrite IH; unfold refs_in; now destruct (i_inum zero_inode =? n)).
    rewrite E. unfold refs_in. change (i_inum root_entry) with 1. change (i_ref root_entry) with 1. rewrite (Z.eqb_sym 1 n). now destruct (n =? 1).
  - reflexivity.
Qed.

Example dirlink_correct_witness :
  wp (dirlink 0 [98] 2) (fun r k' => r = 0 /\ exists bl' V' x', file_state 3 ROOTDEV 2 1 sb50 0 bl' V' disk_tree x' (i_size x') k' /\
    child_in V' x' [98] = Some 2 /\ child_in V' x' [97] = Some 2) state_link.
Proof.
  refine (wp_mono _ _ _ _ (dirlink_correct 3 7 ROOTDEV 2 1 sb50 [] disk_tree disk_tree (fun n => n = 1 \/ n = 2) (fun n => if n =? 1 then 1 else 0) state_link 0 root_entry 1 [98] 2
    link_cache eq_refl _ eq_refl eq_refl (or_introl eq_refl) tree_tree tree_alloc _ _ ltac:(lia) ltac:(reflexivity) _ ltac:(lia) _) _).
  - split; [reflexivity|]. unfold node. now rewrite tree_root.
  - unfold is_dir. now rewrite tree_root.
  - exists {[1]}. split; [intros n; destruct (Z.eqb_spec n 1); [set_solver|lia]|]. rewrite size_singleton. unfold NINODE. lia.
  - vm_compute. discriminate.
  - vm_compute. discriminate.
  - intros r k'. assert (E : child sb50 disk_tree 1 (cname [98]) = None) by (vm_compute; reflexivity). rewrite E. intros (-> & bl' & V' & x' & F & _ & Hc & Ho & _). split; [reflexivity|].
    exists bl', V', x'. split; [exact F|]. split; [exact Hc|]. rewrite (Ho [97]) by (vm_compute; discriminate). vm_compute. reflexivity.
Defined.
