(* ===== verification/Footprint.v ===== *)
(** * What kernel code leaves alone

    Most functions of the kernel change neither the number of references to an open
    file, nor a process's table of open files, nor the process that runs, nor the blocks
    of the disk, whatever state they start in and however they end.  The instances
    follow the structure of the code, so that type class search decides it. *)

From stdpp Require Import base numbers list gmap strings.
From S2P Require Import Prelude Kstate Kstring Spinlock Kalloc Vm Sched Sleeplock Bio Log Fs.

(** The disk and the history of its writes. *)
Definition on_disk (k : kernel) : (Z -> list Z) * list (Z * list Z) := (k_disk k, k_writes k).

Definition final_state {A} (o : outcome kernel A) : kernel := match o with Ok _ k | Panic _ k | Susp _ k => k end.

(** A process that is not there, or not any more. *)
Definition is_gone (s : procstate) : bool := match s with UNUSED | ZOMBIE => true | _ => false end.

(** A process keeps its open files, and is not made to go. *)
Definition proc_calm (x x' : proc) : Prop := p_ofile x' = p_ofile x /\ (is_gone (p_state x') = true -> p_state x' = p_state x).

(** [w]: writes to the disk are allowed. *)
Record calm (w : bool) (k k' : kernel) : Prop := {
  cm_disk : w = false -> on_disk k' = on_disk k;
  cm_current : h_proc (k_hart k') = h_proc (k_hart k);
  cm_procs : Forall2 proc_calm (k_procs k) (k_procs k');
  cm_files : map f_ref (k_files k') = map f_ref (k_files k) }.

#[export] Instance proc_calm_preorder : PreOrder proc_calm.
Proof. split; [done|]. intros x y z [E1 H1] [E2 H2]. split; [congruence|]. intros Hz. specialize (H2 Hz). rewrite H2 in Hz |- *. auto. Qed.

#[export] Instance calm_preorder w : PreOrder (calm w).
Proof.
  split.
  - intros k. split; try done.
  - intros k1 k2 k3 [A1 A2 A3 A4] [B1 B2 B3 B4]. split; [intros E; rewrite B1, A1 by done; done|congruence|now transitivity (k_procs k2)|congruence].
Qed.

Lemma calm_same w k k' :
  (on_disk k', h_proc (k_hart k'), k_procs k', k_files k') = (on_disk k, h_proc (k_hart k), k_procs k, k_files k) -> calm w k k'.
Proof. intros [= E1 E2 E3 E4 E5]. split; [intros _; unfold on_disk; congruence|done|rewrite E4; reflexivity|now rewrite E5]. Qed.

Lemma calm_proc w p f k : (forall x, proc_calm x (f x)) -> calm w k (upd_proc p f k).
Proof.
  intros Hf. split; try done. cbn. generalize p as q. induction (k_procs k) as [|x l IH]; intros q; [constructor|].
  destruct q as [|q]; constructor; [apply Hf|reflexivity|reflexivity|apply IH].
Qed.

Lemma calm_file w i f k : (forall x, f_ref (f x) = f_ref x) -> calm w k (upd_file i f k).
Proof.
  intros Hf. split; try done. cbn. generalize i. induction (k_files k) as [|x l IH]; intros q; [done|].
  destruct q as [|q]; cbn; f_equal; [apply Hf|apply IH].
Qed.

Lemma calm_writes k k' :
  (h_proc (k_hart k'), k_procs k', k_files k') = (h_proc (k_hart k), k_procs k, k_files k) -> calm true k k'.
Proof. intros [= E1 E2 E3]. split; [done|done|rewrite E2; reflexivity|now rewrite E3]. Qed.

(** Code that is calm from every state. *)
Class Calm {A} (w : bool) (m : K A) : Prop := is_calm : forall k, calm w k (final_state (m k)).

Section rules.
Context {A B : Type} (w : bool).

#[export] Instance ca_ret (a : A) : Calm w (ret a).
Proof. intros k. reflexivity. Qed.

#[export] Instance ca_gets (f : kernel -> A) : Calm w (gets f).
Proof. intros k. reflexivity. Qed.

#[export] Instance ca_panic s : Calm w (panic s : K A).
Proof. intros k. reflexivity. Qed.

#[export] Instance ca_suspend r : Calm w (suspend_with r : K A).
Proof. intros k. reflexivity. Qed.

#[export] Instance ca_undefined : Calm w (undefined : K A).
Proof. intros k. reflexivity. Qed.

#[export] Instance ca_bind (m : K A) (f : A -> K B) : Calm w m -> (forall a, Calm w (f a)) -> Calm w (bind m f).
Proof.
  intros Hm Hf k. specialize (Hm k). unfold bind. destruct (m k) as [a k1|s k1|r k1]; [|done|done]. cbn in Hm. etrans; [exact Hm|apply Hf].
Qed.

#[export] Instance ca_if (b : bool) (m1 m2 : K A) : Calm w m1 -> Calm w m2 -> Calm w (if b then m1 else m2).
Proof. now destruct b. Qed.
End rules.

Lemma ca_modify w (f : kernel -> kernel) : (forall k, calm w k (f k)) -> Calm w (modify f).
Proof. intros H k. exact (H k). Qed.

#[export] Instance ca_when w b m : Calm w m -> Calm w (when b m).
Proof. intros H. destruct b; [exact H|exact (ca_ret w tt)]. Qed.

#[export] Instance ca_for_each {A} w (l : list A) (f : A -> K unit) : (forall x, Calm w (f x)) -> Calm w (for_each l f).
Proof. intros H. induction l as [|x l IH]; cbn; exact _. Qed.

#[export] Instance ca_for_ret {A R} w (l : list A) (f : A -> K (option R)) : (forall x, Calm w (f x)) -> Calm w (for_ret l f).
Proof. intros H. induction l as [|x l IH]; cbn; [exact _|]. apply ca_bind; [exact _|]. intros [r|]; exact _. Qed.

(** An update of one component. *)
Ltac calm_update :=
  intros; cbv zeta; repeat case_match;
  first [ apply calm_same; reflexivity
        | apply calm_proc; intros; split; [reflexivity | first [ done | reflexivity | intros; assumption ] ]
        | apply calm_file; intros; reflexivity
        | apply calm_writes; reflexivity ].

(** One step: an update, a match or what the class knows. *)
Ltac calm_step :=
  match goal with
  | |- Calm _ (modify _) => first [exact _ | apply ca_modify; calm_update]
  | |- Calm _ (match ?x with _ => _ end) => destruct x
  | |- Calm _ (bind _ _) => apply ca_bind; [|intros]
  | |- Calm _ (when _ _) => apply ca_when
  | |- Calm _ (for_each _ _) => apply ca_for_each; intros
  | |- Calm _ (for_ret _ _) => apply ca_for_ret; intros
  | |- Calm _ (let '_ := _ in _) => cbv zeta
  | |- _ => exact _
  end.
Ltac calm_code := repeat calm_step.
#[export] Hint Extern 5 (Calm _ (modify _)) => (apply ca_modify; calm_update) : typeclass_instances.

Section kernel.
Context (w : bool).

(** ** Locks, processes and memory *)

#[export] Instance ca_push_off : Calm w push_off.
Proof. unfold push_off, intr_get, intr_off, r_sstatus, w_sstatus, mycpu. calm_code. Qed.
#[export] Instance ca_pop_off : Calm w pop_off.
Proof. unfold pop_off, intr_get, intr_on, r_sstatus, w_sstatus, mycpu. calm_code. Qed.
#[export] Instance ca_holding lk : Calm w (holding lk).
Proof. unfold holding. calm_code. Qed.
#[export] Instance ca_acquire lk : Calm w (acquire lk).
Proof. unfold acquire, mycpu. calm_code. Qed.
#[export] Instance ca_release lk : Calm w (release lk).
Proof. unfold release. calm_code. Qed.
#[export] Instance ca_myproc : Calm w myproc.
Proof. unfold myproc, mycpu. calm_code. Qed.
#[export] Instance ca_myproc_ix : Calm w myproc_ix.
Proof. unfold myproc_ix. calm_code. Qed.
#[export] Instance ca_wakeup ch : Calm w (wakeup ch).
Proof. unfold wakeup. calm_code. Qed.
#[export] Instance ca_sched : Calm w sched.
Proof. unfold sched, mycpu, intr_get, r_sstatus. calm_code. Qed.
#[export] Instance ca_sleep ch lk : Calm w (sleep ch lk).
Proof. unfold sleep. calm_code. Qed.
#[export] Instance ca_upd_sl lk f : Calm w (modify (upd_sl lk f)).
Proof. apply ca_modify. intros k. destruct lk; apply calm_same; reflexivity. Qed.
#[export] Instance ca_acquiresleep lk : Calm w (acquiresleep lk).
Proof. unfold acquiresleep, acquiresleep_loop. calm_code. Qed.
#[export] Instance ca_releasesleep lk : Calm w (releasesleep lk).
Proof. unfold releasesleep. calm_code. Qed.
#[export] Instance ca_holdingsleep lk : Calm w (holdingsleep lk).
Proof. unfold holdingsleep. calm_code. Qed.
#[export] Instance ca_kalloc : Calm w kalloc.
Proof. unfold kalloc. calm_code. Qed.

#[export] Instance ca_walk_levels l alloc va : forall pagetable, Calm w (walk_levels pagetable va alloc l).
Proof. induction l as [|x l IH]; intros pagetable; cbn [walk_levels]; unfold walk_level, get_pte, set_pte, memsetK; calm_code. Qed.
#[export] Instance ca_walk pagetable va alloc : Calm w (walk pagetable va alloc).
Proof. unfold walk. calm_code. Qed.
#[export] Instance ca_walkaddr pagetable va : Calm w (walkaddr pagetable va).
Proof. unfold walkaddr, get_pte. calm_code. Qed.
#[export] Instance ca_memwrite dst src : Calm w (memwrite dst src).
Proof. unfold memwrite. calm_code. Qed.
#[export] Instance ca_copyout_loop fuel : forall pagetable dst src, Calm w (copyout_loop fuel pagetable dst src).
Proof. induction fuel as [|fuel IH]; intros; cbn [copyout_loop]; calm_code. Qed.
#[export] Instance ca_copyin_loop fuel : forall pagetable src n, Calm w (copyin_loop fuel pagetable src n).
Proof. induction fuel as [|fuel IH]; intros; cbn [copyin_loop]; calm_code. Qed.
#[export] Instance ca_either_copyout user dst src : Calm w (either_copyout user dst src).
Proof. unfold either_copyout, copyout. calm_code. Qed.
#[export] Instance ca_either_copyin user src n : Calm w (either_copyin user src n).
Proof. unfold either_copyin, copyin. calm_code. Qed.

(** ** Buffers and the log *)

#[export] Instance ca_set_next b n : Calm w (set_next b n).
Proof. unfold set_next. calm_code. Qed.
#[export] Instance ca_set_prev b n : Calm w (set_prev b n).
Proof. unfold set_prev. calm_code. Qed.
#[export] Instance ca_push_front b : Calm w (push_front b).
Proof. unfold push_front. calm_code. Qed.
#[export] Instance ca_unlink_buf b : Calm w (unlink_buf b).
Proof. unfold unlink_buf. calm_code. Qed.
#[export] Instance ca_bget_cached fuel : forall b dev n, Calm w (bget_cached fuel b dev n).
Proof. induction fuel as [|fuel IH]; intros; cbn [bget_cached]; calm_code. Qed.
#[export] Instance ca_bget_lru fuel : forall b, Calm w (bget_lru fuel b).
Proof. induction fuel as [|fuel IH]; intros; cbn [bget_lru]; calm_code. Qed.
#[export] Instance ca_bget dev n : Calm w (bget dev n).
Proof. unfold bget. calm_code. Qed.
#[export] Instance ca_disk_read b : Calm w (virtio_disk_rw b false).
Proof. unfold virtio_disk_rw. calm_code. Qed.
#[export] Instance ca_bread dev n : Calm w (bread dev n).
Proof. unfold bread. calm_code. Qed.
#[export] Instance ca_brelse b : Calm w (brelse b).
Proof. unfold brelse. calm_code. Qed.
#[export] Instance ca_bpin b : Calm w (bpin b).
Proof. unfold bpin. calm_code. Qed.
#[export] Instance ca_bunpin b : Calm w (bunpin b).
Proof. unfold bunpin. calm_code. Qed.
#[export] Instance ca_log_write b : Calm w (log_write b).
Proof. unfold log_write, set_lh_block. calm_code. Qed.
#[export] Instance ca_begin_op : Calm w begin_op.
Proof. unfold begin_op, begin_op_loop. calm_code. Qed.

(** ** The file system *)

#[export] Instance ca_bzero dev n : Calm w (bzero dev n).
Proof. unfold bzero. calm_code. Qed.
#[export] Instance ca_balloc dev : Calm w (balloc dev).
Proof. unfold balloc. calm_code. Qed.
#[export] Instance ca_bfree dev b : Calm w (bfree dev b).
Proof. unfold bfree. calm_code. Qed.
#[export] Instance ca_iget dev inum : Calm w (iget dev inum).
Proof. unfold iget. calm_code. Qed.
#[export] Instance ca_ialloc dev type : Calm w (ialloc dev type).
Proof. unfold ialloc. calm_code. Qed.
#[export] Instance ca_iupdate ip : Calm w (iupdate ip).
Proof. unfold iupdate. calm_code. Qed.
#[export] Instance ca_idup ip : Calm w (idup ip).
Proof. unfold idup. calm_code. Qed.
#[export] Instance ca_ilock ip : Calm w (ilock ip).
Proof. unfold ilock. calm_code. Qed.
#[export] Instance ca_iunlock ip : Calm w (iunlock ip).
Proof. unfold iunlock. calm_code. Qed.
#[export] Instance ca_bmap ip bn : Calm w (bmap ip bn).
Proof. unfold bmap, set_inode_addr. calm_code. Qed.
#[export] Instance ca_itrunc ip : Calm w (itrunc ip).
Proof. unfold itrunc, set_inode_addr. calm_code. Qed.
#[export] Instance ca_iput ip : Calm w (iput ip).
Proof. unfold iput. calm_code. Qed.
#[export] Instance ca_iunlockput ip : Calm w (iunlockput ip).
Proof. unfold iunlockput. calm_code. Qed.
#[export] Instance ca_readi_loop fuel : forall ip user dst off tot n, Calm w (readi_loop fuel ip user dst off tot n).
Proof. induction fuel as [|fuel IH]; intros; cbn [readi_loop]; calm_code. Qed.
#[export] Instance ca_readi ip user dst off n : Calm w (readi ip user dst off n).
Proof. unfold readi. calm_code. Qed.
#[export] Instance ca_writei_loop fuel : forall ip user src off tot n, Calm w (writei_loop fuel ip user src off tot n).
Proof. induction fuel as [|fuel IH]; intros; cbn [writei_loop]; calm_code. Qed.
#[export] Instance ca_writei ip user src off n : Calm w (writei ip user src off n).
Proof. unfold writei. calm_code. Qed.
#[export] Instance ca_dirlookup_loop fuel : forall dp name off, Calm w (dirlookup_loop fuel dp name off).
Proof. induction fuel as [|fuel IH]; intros; cbn [dirlookup_loop]; unfold de_inum, de_name; calm_code. Qed.
#[export] Instance ca_dirlookup dp name : Calm w (dirlookup dp name).
Proof. unfold dirlookup. calm_code. Qed.
#[export] Instance ca_dirlink_loop fuel : forall dp off, Calm w (dirlink_loop fuel dp off).
Proof. induction fuel as [|fuel IH]; intros; cbn [dirlink_loop]; unfold de_inum; calm_code. Qed.
#[export] Instance ca_dirlink dp name inum : Calm w (dirlink dp name inum).
Proof. unfold dirlink. calm_code. Qed.
#[export] Instance ca_namex_loop fuel : forall ip path parent name, Calm w (namex_loop fuel ip path parent name).
Proof. induction fuel as [|fuel IH]; intros; cbn [namex_loop]; calm_code. Qed.
#[export] Instance ca_namex path parent name : Calm w (namex path parent name).
Proof. unfold namex. calm_code. Qed.
#[export] Instance ca_nameiparent path name : Calm w (nameiparent path name).
Proof. unfold nameiparent. calm_code. Qed.
#[export] Instance ca_namei path : Calm w (namei path).
Proof. unfold namei. calm_code. Qed.
#[export] Instance ca_stati ip a : Calm w (stati ip a).
Proof. unfold stati. calm_code. Qed.
#[export] Instance ca_readsb dev : Calm w (readsb dev).
Proof. unfold readsb. calm_code. Qed.

End kernel.

(** *** Committing, which writes to the disk *)

#[export] Instance ca_disk_write b : Calm true (virtio_disk_rw b true).
Proof. unfold virtio_disk_rw. calm_code. Qed.
#[export] Instance ca_bwrite b : Calm true (bwrite b).
Proof. unfold bwrite. calm_code. Qed.
#[export] Instance ca_install_trans : Calm true install_trans.
Proof. unfold install_trans. calm_code. Qed.
#[export] Instance ca_write_head : Calm true write_head.
Proof. unfold write_head. calm_code. Qed.
#[export] Instance ca_write_log : Calm true write_log.
Proof. unfold write_log. calm_code. Qed.
#[export] Instance ca_commit : Calm true commit.
Proof. unfold commit. calm_code. Qed.
#[export] Instance ca_end_op : Calm true end_op.
Proof. unfold end_op. calm_code. Qed.
