(* ===== verification/Wal.v ===== *)
(** * The write-ahead rule

    Which functions of bio.c, log.c and fs.c write to the disk: [bwrite] itself, the
    recovery in [fsinit], and the commit in [end_op].  Everything else the file system
    does stays in the cache and the log until the last operation of a transaction ends. *)

From stdpp Require Import base numbers list gmap strings.
From S2P Require Import Prelude Kstate Kstring Spinlock Kalloc Vm Sched Sleeplock Bio Log Fs Footprint.

Notation NoWrite := (Calm false).

Lemma no_write {A} (m : K A) k : NoWrite m -> on_disk (final_state (m k)) = on_disk k.
Proof. intros H. now apply (cm_disk _ _ _ (H k)). Qed.

(** The calls that bio.c, log.c and fs.c offer to the rest of the kernel. *)
Inductive fs_call :=
  | C_bread (dev n : Z) | C_bwrite (b : nat) | C_brelse (b : nat) | C_bpin (b : nat) | C_bunpin (b : nat)
  | C_begin_op | C_log_write (b : nat) | C_end_op
  | C_fsinit (dev : Z) | C_readsb (dev : Z) | C_bzero (dev n : Z) | C_balloc (dev : Z) | C_bfree (dev b : Z)
  | C_ialloc (dev type : Z) | C_iget (dev inum : Z) | C_idup (ip : nat) | C_ilock (ip : nat) | C_iunlock (ip : nat)
  | C_iput (ip : nat) | C_iunlockput (ip : nat) | C_iupdate (ip : nat) | C_itrunc (ip : nat) | C_bmap (ip : nat) (bn : Z)
  | C_stati (ip : nat) (st : Z)
  | C_readi (ip : nat) (user : bool) (dst off n : Z) | C_writei (ip : nat) (user : bool) (src off n : Z)
  | C_dirlookup (dp : nat) (name : list Z) | C_dirlink (dp : nat) (name : list Z) (inum : Z)
  | C_namei (path : list Z) | C_nameiparent (path name : list Z).

Definition run_call (c : fs_call) : K unit :=
  match c with
  | C_bread dev n => bread dev n ;;; ret tt
  | C_bwrite b => bwrite b
  | C_brelse b => brelse b
  | C_bpin b => bpin b
  | C_bunpin b => bunpin b
  | C_begin_op => begin_op
  | C_log_write b => log_write b
  | C_end_op => end_op
  | C_fsinit dev => fsinit dev
  | C_readsb dev => readsb dev
  | C_bzero dev n => bzero dev n
  | C_balloc dev => balloc dev ;;; ret tt
  | C_bfree dev b => bfree dev b
  | C_ialloc dev type => ialloc dev type ;;; ret tt
  | C_iget dev inum => iget dev inum ;;; ret tt
  | C_idup ip => idup ip ;;; ret tt
  | C_ilock ip => ilock ip
  | C_iunlock ip => iunlock ip
  | C_iput ip => iput ip
  | C_iunlockput ip => iunlockput ip
  | C_iupdate ip => iupdate ip
  | C_itrunc ip => itrunc ip
  | C_bmap ip bn => bmap ip bn ;;; ret tt
  | C_stati ip st => stati ip st
  | C_readi ip user dst off n => readi ip user dst off n ;;; ret tt
  | C_writei ip user src off n => writei ip user src off n ;;; ret tt
  | C_dirlookup dp name => dirlookup dp name ;;; ret tt
  | C_dirlink dp name inum => dirlink dp name inum ;;; ret tt
  | C_namei path => namei path ;;; ret tt
  | C_nameiparent path name => nameiparent path name ;;; ret tt
  end.

(** The calls that may write: [bwrite], recovery, and the end of the last operation of a
    transaction that has logged something. *)
Definition may_write (c : fs_call) (k : kernel) : bool :=
  match c with
  | C_bwrite _ | C_fsinit _ => true
  | C_end_op => (l_outstanding (k_log k) =? 1) && (0 <? l_n (k_log k))
  | _ => false
  end.

(** ** The end of an operation *)

(** Code that leaves the variables of the log alone. *)
Notation log_kept m := (forall L, keeps (fun k => k_log k = L) m).

Ltac log_code :=
  intros L; repeat match goal with
  | |- keeps _ (bind _ _) => apply keeps_bind; [|intros]
  | |- keeps _ (modify _) => apply keeps_modify; intros; assumption
  | |- keeps _ (gets _) => apply keeps_gets
  | |- keeps _ (ret _) => apply keeps_ret
  | |- keeps _ (panic _) => apply keeps_panic
  | |- keeps _ (suspend_with _) => apply keeps_susp
  | |- keeps _ (when ?b _) => destruct b; unfold when
  | |- keeps _ (match ?x with _ => _ end) => destruct x
  end.

Lemma acquire_log lk : log_kept (acquire lk).
Proof. unfold acquire, push_off, intr_get, intr_off, r_sstatus, w_sstatus, holding, mycpu. log_code. Qed.
Lemma release_log lk : log_kept (release lk).
Proof. unfold release, pop_off, intr_get, intr_on, r_sstatus, w_sstatus, holding, mycpu. log_code. Qed.

(** A step that is quiet and leaves the log alone. *)
Lemma quiet_bind {A B} (m : K A) (f : A -> K B) k :
  NoWrite m -> log_kept m -> (forall a k', on_disk k' = on_disk k -> k_log k' = k_log k -> on_disk (final_state (f a k')) = on_disk k) ->
  on_disk (final_state (bind m f k)) = on_disk k.
Proof.
  intros Hm Hl Hf. pose proof (no_write m k Hm) as E. specialize (Hl (k_log k) k eq_refl). unfold bind.
  destruct (m k) as [a k'|s k'|r k']; [now apply Hf|exact E|exact E].
Qed.

Lemma commit_empty k : 0 <? l_n (k_log k) = false -> commit k = Ok tt k.
Proof. intros H. unfold commit, bind at 1, gets. now rewrite H. Qed.

(** [end_op] once it has counted the operation off. *)
Lemma end_op_rest k (do_commit : bool) : do_commit && (0 <? l_n (k_log k)) = false ->
  on_disk (final_state (((if do_commit then modify (upd_log (set_l_committing true)) else wakeup CH_log) ;;;
    release LK_log ;;;
    when do_commit (commit ;;; acquire LK_log ;;; modify (upd_log (set_l_committing false)) ;;; wakeup CH_log ;;; release LK_log)) k)) = on_disk k.
Proof.
  intros Hn. destruct do_commit; cbn [andb when] in *; [|apply no_write; exact _].
  rewrite (bind_Ok (modify _) _ k tt (upd_log (set_l_committing true) k)) by reflexivity. set (k1 := upd_log _ k). change (on_disk k) with (on_disk k1).
  apply quiet_bind; [exact _|apply release_log|]. intros [] k2 E L. rewrite <- E, (bind_Ok commit _ k2 tt k2) by (apply commit_empty; now rewrite L).
  cbv beta. apply no_write. calm_code.
Qed.

Lemma end_op_quiet k : may_write C_end_op k = false -> on_disk (final_state (end_op k)) = on_disk k.
Proof.
  cbn [may_write]. intros Hq. unfold end_op. apply quiet_bind; [exact _|apply acquire_log|]. intros [] k1 E1 L1. rewrite <- E1, <- L1 in *.
  rewrite (bind_Ok (modify _) _ k1 tt (upd_log (fun l => set_l_outstanding (l_outstanding l - 1) l) k1)) by reflexivity. set (k2 := upd_log _ k1).
  rewrite (bind_Ok (gets k_log) _ k2 (k_log k2) k2) by reflexivity. change (on_disk k1) with (on_disk k2). destruct (l_committing (k_log k2)); [done|].
  apply end_op_rest. change (l_outstanding (k_log k2)) with (l_outstanding (k_log k1) - 1). change (l_n (k_log k2)) with (l_n (k_log k1)).
  rewrite <- Hq. f_equal. apply Bool.eq_iff_eq_true. rewrite !Z.eqb_eq. lia.
Qed.

Lemma call_quiet c k : may_write c k = false -> on_disk (final_state (run_call c k)) = on_disk k.
Proof.
  intros H. destruct c; try discriminate; try exact (end_op_quiet k H); cbn [run_call]; apply no_write; calm_code.
Qed.

(** C11: the write-ahead rule.  Take any sequence of calls of bio.c, log.c and fs.c from
    any state of the machine, however it ends: by returning, by a panic or asleep.  Either
    the disk is as before, or the first call that may have changed it is [bwrite] itself,
    the recovery in [fsinit], or an [end_op] that ends the last outstanding operation of
    a transaction with at least one block logged; until that call every call returned and
    the disk was as before.  No other call of the three files writes to the disk. *)
Theorem fs_writes_ahead cs k :
  on_disk (final_state (for_each cs run_call k)) = on_disk k \/
  exists before c after k1, cs = before ++ c :: after /\ for_each before run_call k = Ok tt k1 /\
    on_disk k1 = on_disk k /\ may_write c k1 = true.
Proof.
  revert k. induction cs as [|c cs IH]; intros k; [now left|]. destruct (may_write c k) eqn:Ew; [right; now exists [], c, cs, k|].
  pose proof (call_quiet c k Ew) as E. cbn [for_each]. unfold bind. destruct (run_call c k) as [[] k'|s k'|r k'] eqn:Ec; [|now left|now left]. cbn in E.
  destruct (IH k') as [H|(before & c' & after & k1 & -> & Hr & Hd & Hw)]; [left; now rewrite H|right].
  exists (c :: before), c', after, k1. split; [done|]. split; [cbn [for_each]; unfold bind; now rewrite Ec|]. split; [congruence|done].
Qed.
