(* ===== verification/Crash.v ===== *)
(** * Crash safety of file-system operations

    The layers put together: a call of fs.c between [begin_op] and [end_op] changes the
    disk atomically, whatever the moment at which the machine stops. *)

From stdpp Require Import base numbers list gmap strings.
From S2P Require Import Prelude Kstate Kstring Spinlock Kalloc Vm Sched Sleeplock Bio Blocks Log Tx Fs FsAlloc FsInode Footprint Wal.

(** ** Between operations *)

(** No operation is in progress, and what the kernel sees is what the disk holds. *)
Record at_rest (p : nat) (dev st : Z) (D : Z -> list Z) (k : kernel) : Prop := {
  ar_tx : tx p dev st 0 [] D D ∅ k;
  ar_open : l_committing (k_log k) = false;
  ar_head : header_is st [] (D st);
  ar_len : length (D st) = Z.to_nat BSIZE }.

Lemma tx_outstanding p dev st o o' bl V D H k : tx p dev st o bl V D H k -> tx p dev st o' bl V D H (upd_log (set_l_outstanding o') k).
Proof.
  intros [(s & Hs & R) T2 TA T3 T4 T5 T6 T7 T8]. split; try done; [|destruct T3; now split].
  exists s. split; [now apply stored_upd_log|done].
Qed.

(** The transaction of an operation that is over can be committed. *)
Lemma tx_can_commit p dev st o bl V D k : tx p dev st o bl V D ∅ k -> (length bl < Z.to_nat LOGSIZE)%nat ->
  exists s, stored p dev s k /\ committable st bl s /\ (forall n, s_view s n = V n) /\ (forall n, s_disk s n = D n) /\
    (forall n, s_pins s n = one (bool_decide (n ∈ bl))) /\ (s_free s + length bl = NBUF)%nat.
Proof.
  intros T Hl. pose proof T as [(s & Hs & HV & HD & Hh & Hp & Hf) T2 TA T3 T4 T5 T6 T7 T8]. exists s.
  assert (Hp' : forall n, s_pins s n = one (bool_decide (n ∈ bl))).
  { intros n. rewrite Hp. unfold img. rewrite map_img_empty_L, (bool_decide_false (n ∈ ∅)) by set_solver. apply Z.add_0_r. }
  assert (Hsz : size (kept bl ∅) = length bl).
  { unfold kept, img. rewrite map_img_empty_L, union_empty_r_L. now apply size_list_to_set. }
  split; [done|]. split; [|split; [done|split; [done|split; [done|now rewrite Hsz in Hf]]]].
  split; [split; [done|]|done| | | |].
  - intros n. rewrite Hp'. destruct (bool_decide _); cbn; lia.
  - eapply Forall_impl; [exact TA|]. intros n [Hn|Hn]; unfold outside; change (Z.to_nat LOGSIZE) with 30%nat in Hl; change LOGSIZE with 30 in Hn; lia.
  - apply Forall_forall. intros n Hn. rewrite Hp', bool_decide_true by done. done.
  - intros n. rewrite Hp'. destruct (bool_decide _); cbn; lia.
  - unfold NBUF, LOGSIZE, MAXOPBLOCKS in *. lia.
Qed.

Lemma filter_all {A} (P : A -> Prop) `{forall x, Decision (P x)} (l : list A) : (forall x, x ∈ l -> P x) -> filter P l = l.
Proof.
  induction l as [|x l IH]; intros Hl; [done|]. rewrite filter_cons_True by (apply Hl; left). f_equal. apply IH. intros y Hy. apply Hl. now right.
Qed.

Lemma stored_all_free p dev s k : stored p dev s k -> (forall n, s_pins s n = 0) -> s_free s = NBUF.
Proof.
  intros H Hp. rewrite <- (st_free _ _ _ _ H). unfold free_count. rewrite filter_all; [apply length_seq|].
  intros b Hb%elem_of_seq. destruct (st_one _ _ _ _ H b ltac:(lia)) as [Ed|[Er _]]; [|done].
  now rewrite (st_pins _ _ _ _ H b) by (done || lia).
Qed.

(** ** Stopping at any moment *)

(** What the next boot finds, and makes of it, when the machine stopped after the writes
    [ws] of the disk [D]: all of the old blocks, or all of the blocks [V]. *)
Definition atomic (dev st : Z) (D V : Z -> list Z) (ws : list (Z * list Z)) : Prop :=
  forall q kb, rebooted q dev st (replay D ws) kb ->
  wp recover_from_log (fun _ kr =>
    (forall n, apart st n -> k_disk kr n = D n) \/ (forall n, apart st n -> k_disk kr n = V n)) kb.

Lemma wp_recovered q dev st d bl kb :
  rebooted q dev st d kb -> header_is st bl (d st) -> (length bl < Z.to_nat LOGSIZE)%nat ->
  wp recover_from_log (fun _ kr => forall n, k_disk kr n = recovered st d n) kb.
Proof.
  intros Hb Hh Hl. apply (wp_reboot q dev st d bl); [done..|]. intros s kr H W _ n.
  rewrite (st_disk _ _ _ _ H), (wr_disk _ _ _ W). unfold recovered. now rewrite (hd_blocks _ _ _ Hh).
Qed.

Lemma apart_outside st n m : apart st n -> (m < Z.to_nat LOGSIZE)%nat -> outside st m n.
Proof. unfold apart, outside. change LOGSIZE with 30. change (Z.to_nat 30) with 30%nat. lia. Qed.

Lemma op_atomic dev st bl V D :
  NoDup bl -> Forall (apart st) bl -> Forall (fun b => 0 <= b < 2 ^ 31) bl -> (length bl < Z.to_nat LOGSIZE)%nat ->
  header_is st [] (D st) -> length (V st) = Z.to_nat BSIZE -> (forall n, n ∉ bl -> V n = D n) ->
  forall ws, ws `prefix_of` op_trace st bl V -> atomic dev st D V ws.
Proof.
  intros Hd Ha Hr Hl Hh Hv Hcl ws Hws q kb Hb. destruct bl as [|b bl'].
  - apply prefix_nil_inv in Hws as ->. eapply wp_mono; [exact (wp_recovered q dev st _ [] kb Hb Hh Hl)|]. intros [] kr E. left.
    intros n Hn. rewrite E. apply recovered_empty; [done|]. unfold apart in Hn. change LOGSIZE with 30 in Hn. lia.
  - remember (b :: bl') as bl eqn:Ebl. replace (op_trace st bl V) with (commit_trace st bl V) in Hws by (now rewrite Ebl).
    assert (Ho : Forall (outside st (length bl)) bl) by (eapply Forall_impl; [exact Ha|]; intros n Hn; now apply apart_outside).
    assert (Hfit : (lh_off (length bl) <= length (V st))%nat) by (rewrite Hv; unfold lh_off, LOGSIZE, MAXOPBLOCKS, BSIZE in *; lia).
    assert (Hsm : Z.of_nat (length bl) < 2 ^ 31) by (unfold LOGSIZE, MAXOPBLOCKS in *; lia).
    destruct (crash_cases st bl V D Hd Ho Hr Hfit Hsm Hh ws Hws) as (bh & Hh' & Hle & Hrec).
    eapply wp_mono; [exact (wp_recovered q dev st _ bh kb Hb Hh' ltac:(lia))|]. intros [] kr E.
    destruct (decide (length ws <= length bl)%nat); [left|right]; intros m Hm; rewrite E, Hrec by (now apply apart_outside); [done|].
    unfold committed. case_decide; [done|]. symmetry. now apply Hcl.
Qed.

Lemma op_trace_ext st bl V V' : (forall n, V n = V' n) -> op_trace st bl V = op_trace st bl V'.
Proof.
  intros E. assert (El : forall l i, log_trace st i l V = log_trace st i l V') by (induction l as [|b l IH]; intros i; cbn; [done|now rewrite E, IH]).
  unfold op_trace, commit_trace. destruct bl as [|b bl]; [done|]. rewrite El, E. do 2 f_equal. f_equal. apply map_ext. intros h. now rewrite E.
Qed.

Lemma replay_agree ws : forall d d' n, (forall m, m ∉ map fst ws -> d m = d' m) -> replay d ws n = replay d' ws n.
Proof.
  induction ws as [|[m w] ws IH]; intros d d' n H; [apply H, not_elem_of_nil|]. cbn. apply IH. intros x Hx. unfold upd. case_decide; [done|].
  apply H. cbn. now rewrite not_elem_of_cons.
Qed.

Lemma op_trace_keys st bl V n : n ∈ bl -> n ∈ map fst (op_trace st bl V).
Proof.
  intros Hn. unfold op_trace. destruct bl as [|b bl]; [done|]. unfold commit_trace. rewrite !map_app, map_map, map_id, !elem_of_app. auto.
Qed.

Lemma length_encode_head bl d : (lh_off (length bl) <= length d)%nat -> length (encode_head bl d) = length d.
Proof.
  intros H. unfold lh_off in H. assert (E : length (put32 d 0 (Z.of_nat (length bl))) = length d) by (apply length_put32; lia).
  unfold encode_head. rewrite length_put_blocks; rewrite E; done.
Qed.

(** The disk after the commit: the new blocks, and an empty log. *)
Lemma op_trace_disk st bl V D :
  NoDup bl -> Forall (apart st) bl -> Forall (fun b => 0 <= b < 2 ^ 31) bl -> (length bl < Z.to_nat LOGSIZE)%nat ->
  header_is st [] (D st) -> length (D st) = Z.to_nat BSIZE -> (forall n, n ∉ bl -> V n = D n) ->
  let D' := replay D (op_trace st bl V) in
  header_is st [] (D' st) /\ length (D' st) = Z.to_nat BSIZE /\ forall n, apart st n -> D' n = V n.
Proof.
  intros Hd Ha Hr Hl Hh Hlen Hcl D'. assert (Ho : Forall (outside st (length bl)) bl) by (eapply Forall_impl; [exact Ha|]; intros n Hn; now apply apart_outside).
  assert (Hst : V st = D st) by (apply Hcl; intros Hin; rewrite Forall_forall in Ha; specialize (Ha st Hin); unfold apart in Ha; change LOGSIZE with 30 in Ha; lia).
  assert (Hnew : forall n, apart st n -> D' n = V n).
  { intros n Hn. unfold D'. rewrite op_trace_outside by (done || now apply apart_outside). unfold committed. case_decide; [done|]. symmetry. now apply Hcl. }
  destruct bl as [|b bl']; [done|]. remember (b :: bl') as bl eqn:Ebl. assert (Et : D' = replay D (commit_trace st bl V)) by (unfold D'; now rewrite Ebl).
  assert (Hfit : (lh_off (length bl) <= length (V st))%nat) by (rewrite Hst, Hlen; unfold lh_off, LOGSIZE, MAXOPBLOCKS, BSIZE in *; lia).
  rewrite Et. split; [|split; [|now rewrite <- Et]].
  - apply (crash_after st bl V D Hd Hfit (st - 1)). unfold outside. lia.
  - unfold commit_trace. rewrite !replay_app. change (replay ?d [(st, ?w)] st) with (upd d st w st). rewrite upd_eq. assert (E : length (encode_head bl (V st)) = length (D st)) by (rewrite length_encode_head by done; now rewrite Hst).
    rewrite length_encode_head; rewrite E; [done|]. rewrite Hlen. unfold lh_off. cbn. change (Z.to_nat BSIZE) with 1024%nat. lia.
Qed.

(** ** An operation

    [op] runs between [begin_op] and [end_op]; it works in a transaction and never
    writes to the disk itself. *)
Definition operation {A} (op : K A) : K A :=
  begin_op ;;;
  let* a := op in
  end_op ;;;
  ret a.

(** The transaction after the commit. *)
Lemma tx_after p dev st bl V D D' k2 k' s' :
  tx p dev st 1 bl V D ∅ k2 -> stored p dev s' k' -> (forall n, s_view s' n = D' n) -> (forall n, s_disk s' n = D' n) ->
  s_held s' = ∅ /\ (forall n, s_pins s' n = 0) -> k_log k' = set_l_n 0 (set_l_outstanding 0 (k_log k2)) ->
  bio_frame (upd_log (fun l => set_l_n 0 (set_l_outstanding 0 l)) k2) k' -> tx p dev st 0 [] D' D' ∅ k'.
Proof.
  intros [_ _ _ Tl _ Ts Tb Tst Tsb] Hs HV HD [Hh Hp] El F. split; rewrite ?El; try done; [|constructor| |].
  - exists s'. split; [done|]. split; [done|]. split; [done|]. split; [done|]. unfold kept, img. rewrite map_img_empty_L. split.
    + intros n. rewrite Hp, !bool_decide_false by (set_solver || apply not_elem_of_nil). done.
    + rewrite (stored_all_free _ _ _ _ Hs Hp), list_to_set_nil, union_empty_r_L, size_empty. apply Nat.add_0_r.
  - destruct Tl as [L1 L2 L3 (rest & L4) L5 L6]. split; [done|done|done|now exists (l_block (k_log k2))|constructor|cbn; lia].
  - now rewrite (frame_sb _ _ F).
Qed.

Lemma wp_operation {A} (op : K A) p dev st D k (R : A -> (Z -> list Z) -> kernel -> Prop) :
  NoWrite op -> at_rest p dev st D k ->
  (forall k1, tx p dev st 1 [] D D ∅ k1 -> noise (upd_log (set_l_outstanding 1) k) k1 ->
     wp op (fun a k2 => exists bl V, tx p dev st 1 bl V D ∅ k2 /\ l_committing (k_log k2) = false /\
       Z.of_nat (length bl) < LOGSIZE /\ R a V k2) k1) ->
  wp (operation op) (fun a k' => exists V D' tr k2, R a V k2 /\ at_rest p dev st D' k' /\ (forall n, apart st n -> D' n = V n) /\
    D' = replay D tr /\ k_writes k' = k_writes k ++ tr /\ (forall ws, ws `prefix_of` tr -> atomic dev st D V ws) /\
    bio_frame (upd_log (fun l => set_l_n 0 (set_l_outstanding 0 l)) k2) k') k.
Proof.
  intros Hnw [T Hopen Hh Hlen] Hop. pose proof T as [(s0 & Hs0 & _) _ _ T3 T4 _ _ _ _]. unfold operation. apply wp_bind.
  apply wp_begin_op; [exact (tx_ready _ _ _ _ _ _ _ _ _ T)|exact (in_proc_free p k LK_log (st_proc _ _ _ _ Hs0))|done| |].
  { rewrite (li_n _ _ _ _ T3), T4. done. }
  intros k1 N1. rewrite T4 in N1. apply wp_bind.
  pose proof (Hop k1 (tx_noise _ _ _ _ _ _ _ _ _ _ (tx_outstanding _ _ _ 0 1 _ _ _ _ _ T) N1) N1) as W.
  apply wp_run in W as (a & k2 & E & bl & V & T2 & Hc2 & Hl2 & HR).
  apply wp_run. exists a, k2. split; [exact E|]. assert (Ew : k_writes k2 = k_writes k).
  { pose proof (no_write _ k1 Hnw) as Hd. rewrite E in Hd. apply (f_equal snd) in Hd. cbn in Hd. rewrite Hd. exact (noise_eq k_writes _ _ ltac:(done) N1). }
  assert (Hl30 : (length bl < Z.to_nat LOGSIZE)%nat) by (change LOGSIZE with 30 in *; lia).
  destruct (tx_can_commit _ _ _ _ _ _ _ _ T2 Hl30) as (s & Hs & C & HV & HD & Hp & Hf).
  pose proof T2 as [_ Tn Ta Tl To _ _ _ _]. apply wp_bind. apply (wp_end_op_last p dev st bl s); [done..|]. intros s' k' Hs' Wr Hp' El _ F'. apply wp_ret.
  assert (Hcl : forall n, n ∉ bl -> V n = D n) by (intros n Hn; apply (tx_clean _ _ _ _ _ _ _ _ _ n T2); unfold kept, img; rewrite map_img_empty_L; set_solver).
  exists V, (replay D (op_trace st bl V)), (op_trace st bl V), k2. split; [exact HR|].
  rewrite (op_trace_ext st bl (s_view s) V HV) in Wr.
  destruct (op_trace_disk st bl V D Tn Ta (li_home _ _ _ _ Tl) Hl30 Hh Hlen Hcl) as (Hh' & Hlen' & Hnew).
  assert (HVst : length (V st) = Z.to_nat BSIZE).
  { rewrite Hcl; [done|]. intros Hin. rewrite Forall_forall in Ta. specialize (Ta st Hin). unfold apart in Ta. change LOGSIZE with 30 in Ta. lia. }
  split; [split; [|now rewrite El|exact Hh'|exact Hlen']|]; [|split; [exact Hnew|]; split; [done|]; split; [|split; [|exact F']]].
  - apply (tx_after _ _ _ _ _ _ _ k2 _ s' T2 Hs'); [| | |exact El|exact F'].
    + intros n. rewrite (wr_view _ _ _ Wr). apply replay_agree. intros m Hm. rewrite HV. apply Hcl. intros Hin. now apply Hm, op_trace_keys.
    + intros n. rewrite (wr_disk _ _ _ Wr). now apply replay_ext.
    + split; [rewrite (wr_held _ _ _ Wr); apply C|]. intros n. rewrite Hp', Hp. case_decide; [now rewrite bool_decide_true|now rewrite bool_decide_false].
  - now rewrite (st_writes _ _ _ _ Hs'), (wr_writes _ _ _ Wr), <- (st_writes _ _ _ _ Hs), Ew.
  - now apply op_atomic; [done|done|apply (li_home _ _ _ _ Tl)|..].
Qed.

(** ** What the file system reads *)

(** The bitmap, the inodes and the files are apart from the log: they do not change when
    only the log does. *)
Section agree.
Context (sb : superblock) (V V' : Z -> list Z).
Hypothesis Hag : forall n, apart (sb_logstart sb) n -> V' n = V n.

Lemma allocated_agree b : bitmap_ok sb V -> 0 <= b < sb_size sb -> allocated sb V' b = allocated sb V b.
Proof. intros H Hb. unfold allocated. now rewrite Hag by now apply (bm_apart _ _ H). Qed.

Lemma alloc_ok_agree : alloc_ok sb V -> alloc_ok sb V'.
Proof.
  intros [H H0 Hp]. pose proof H as [B1 B2 B3 B4 B5 B6 B7]. split; [split; try done| |done].
  - intros b Hb. rewrite Hag by auto. auto.
  - intros b Hb. rewrite allocated_agree by (done || now apply (BBLOCK_range sb V)). auto.
  - intros b Hb. rewrite allocated_agree by done. auto.
  - rewrite allocated_agree by (done || lia). done.
Qed.

Lemma block_ok_agree b : bitmap_ok sb V -> block_ok sb V b -> block_ok sb V' b.
Proof.
  intros H [B1 B2 B3 B4 B5]. split; [done|rewrite allocated_agree by (done || lia); done|now rewrite Hag|done|done].
Qed.

Lemma iblock_agree x len bn : map_ok sb V x len -> iblock V' x bn = iblock V x bn.
Proof.
  intros M. unfold iblock. destruct (bn <? _); [done|]. destruct (Z.eqb_spec (i_ind x) 0); [done|].
  destruct (mo_ind _ _ _ _ M) as [B _]; [done|]. now rewrite Hag by apply B.
Qed.

Lemma map_ok_agree x len : bitmap_ok sb V -> map_ok sb V x len -> map_ok sb V' x len.
Proof.
  intros H M. pose proof M as [M1 M2 M3 M4 M5 M6 M7]. pose proof (fun bn => iblock_agree x len bn M) as E.
  split; try done; [now apply block_ok_agree|intros Hi; destruct (M3 Hi); split; [now apply block_ok_agree|done]| | |].
  - intros bn Hb. rewrite E. intros Hz. destruct (M4 bn Hb Hz) as (? & ? & ?). split; [now apply block_ok_agree|done].
  - intros bn bn'. rewrite !E. apply M5.
  - intros bn. rewrite E. apply M6.
Qed.

Lemma fbyte_agree x len i : map_ok sb V x len -> 0 <= i < len -> fbyte V' x i = fbyte V x i.
Proof.
  intros M Hi. unfold fbyte. rewrite (iblock_agree x len) by done. pose proof (mo_len _ _ _ _ M) as Hl.
  assert (Hb : blockno_ok (i / BSIZE)) by (unfold blockno_ok; change MAXFILE with 268 in *; change BSIZE with 1024 in *; zdiv).
  destruct (mo_block _ _ _ _ M _ Hb) as (B & _); [|now rewrite Hag by apply B].
  apply (mo_full _ _ _ _ M); change BSIZE with 1024 in *; zdiv.
Qed.

Lemma fbytes_agree x len : map_ok sb V x len -> fbytes V' x 0 len = fbytes V x 0 len.
Proof. intros M. unfold fbytes. apply list_fmap_ext. intros j i Hi. apply lookup_seqZ in Hi. apply (fbyte_agree x len); [done|lia]. Qed.
End agree.

(** The disk [d] holds the inode [x] and the file's contents [c]. *)
Definition holds (sb : superblock) (d : Z -> list Z) (x : inode) (c : list Z) : Prop :=
  get_dinode (d (home sb x)) (i_inum x) = dinode_of x /\ fbytes d x 0 (i_size x) = c.

Lemma holds_agree sb V d x c : (forall n, apart (sb_logstart sb) n -> d n = V n) -> map_ok sb V x (i_size x) -> holds sb V x c -> holds sb d x c.
Proof.
  intros Hag M [H1 H2]. split; [rewrite Hag by apply (mo_home _ _ _ _ M); done|]. rewrite <- H2. now apply (fbytes_agree sb).
Qed.

(** The contents [c] with [data] written over them from [off] on. *)
Definition overwrite (c : list Z) (off : Z) (data : list Z) : list Z :=
  take (Z.to_nat off) c ++ data ++ drop (Z.to_nat off + length data) c.

Lemma overwritten V x V' x' off data :
  0 <= off <= i_size x -> 0 <= i_size x -> i_size x' = Z.max (i_size x) (off + Z.of_nat (length data)) ->
  (forall i, 0 <= i < i_size x' -> fbyte V' x' i =
     if (off <=? i) && (i <? off + Z.of_nat (length data)) then data !!! Z.to_nat (i - off) else fbyte V x i) ->
  fbytes V' x' 0 (i_size x') = overwrite (fbytes V x 0 (i_size x)) off data.
Proof.
  intros Hoff Hs Es Hb. unfold overwrite, fbytes. set (n := Z.of_nat (length data)) in *.
  assert (E : seqZ 0 (i_size x') = seqZ 0 off ++ seqZ off n ++ seqZ (off + n) (i_size x' - off - n)).
  { replace (i_size x') with (off + (n + (i_size x' - off - n))) at 1 by lia. rewrite !seqZ_app by lia. done. }
  assert (Hsame : forall a m, (forall i, a <= i < a + m -> 0 <= i < i_size x' /\ ((off <=? i) && (i <? off + n) = false)) -> map (fbyte V' x') (seqZ a m) = map (fbyte V x) (seqZ a m)).
  { intros a m Ha. apply list_fmap_ext. intros t i Hi%lookup_seqZ. destruct (Ha i ltac:(lia)) as [H1 H2]. now rewrite Hb, H2. }
  rewrite E, !map_app. f_equal; [|f_equal].
  - rewrite Hsame by (intros i Hi; lia). replace (i_size x) with (off + (i_size x - off)) at 1 by lia. rewrite seqZ_app, map_app by lia.
    symmetry. apply take_app_length'. rewrite length_map, length_seqZ. done.
  - apply list_eq. intros j. change (map (fbyte V' x') ?l) with (fbyte V' x' <$> l). rewrite list_lookup_fmap. destruct (decide (j < length data)%nat) as [Hj|Hj].
    + assert (El : seqZ off n !! j = Some (off + Z.of_nat j)) by (apply lookup_seqZ; lia). rewrite El. cbn. rewrite Hb by lia.
      replace ((off <=? off + Z.of_nat j) && (off + Z.of_nat j <? off + n)) with true by lia.
      replace (Z.to_nat (off + Z.of_nat j - off)) with j by lia. symmetry. now apply list_lookup_lookup_total_lt.
    + rewrite !lookup_ge_None_2; [done|lia|rewrite length_seqZ; lia].
  - rewrite Hsame by (intros i Hi; lia). rewrite <- (Nat2Z.id (length data)), <- Z2Nat.inj_add by lia. fold n. destruct (Z.leb_spec (off + n) (i_size x)).
    + replace (i_size x) with (off + n + (i_size x - off - n)) at 1 by lia. rewrite seqZ_app, map_app by lia.
      rewrite drop_app_length' by (rewrite length_map, length_seqZ; done). now replace (i_size x') with (i_size x) by lia.
    + replace (i_size x' - off - n) with 0 by lia. symmetry. apply drop_ge. rewrite length_map, length_seqZ. lia.
Qed.

Lemma source_noise f user src data k k' :
  noise (upd_log f k) k' -> source user src data k -> source user src data k'.
Proof.
  intros N. pose proof (noise_eq k_mem _ _ ltac:(done) N) as Em. cbn in Em. destruct user; cbn; rewrite Em; [|done].
  intros (e & root & G & pr & H1 & H2 & H). exists e, root, G, pr. rewrite (noise_proc _ _ _ N).
  rewrite (noise_eq (fun k => h_proc (k_hart k)) _ _ ltac:(done) N). done.
Qed.

(** An operation is opened: nothing the file system looks at changes. *)
Lemma file_state_open p dev st o sb ip bl V D x len k k' :
  file_state p dev st 0 sb ip bl V D x len k -> noise (upd_log (set_l_outstanding o) k) k' -> file_state p dev st o sb ip bl V D x len k'.
Proof.
  intros [H1 H2 H3 H4 H5 H6] N. split; try done.
  - exact (tx_noise _ _ _ _ _ _ _ _ _ _ (tx_outstanding _ _ _ 0 o _ _ _ _ _ H1) N).
  - now rewrite (noise_eq k_sb _ _ ltac:(done) N).
  - now rewrite (noise_eq k_inodes _ _ ltac:(done) N).
Qed.

(** C3: a write to a file is atomic with respect to crashes.  The call writes [data] at
    [off] in one operation, taking its bytes from kernel or user memory: afterwards the
    disk holds the new inode and the new contents.  If the machine stops after any number
    of the disk writes the operation makes, in order, and the next boot recovers, the disk
    holds either the old inode with the old contents or the new inode with the new
    contents, and every block in use that belongs neither to the file nor to the bitmap
    is as before, and so are the other inodes of the inode's block. *)
Theorem file_write_atomic p dev st sb ip D x k user src data off :
  let n := Z.of_nat (length data) in let old := fbytes D x 0 (i_size x) in let new := overwrite old off data in
  file_state p dev st 0 sb ip [] D D x (i_size x) k -> at_rest p dev st D k -> holds sb D x old ->
  source user src data k -> 0 <= src -> 0 < n -> 0 <= off <= i_size x -> off + n <= MAXFILE * BSIZE ->
  6 * rounds off n < LOGSIZE - 1 -> 2 * rounds off n <= Z.of_nat (nfree sb D) ->
  wp (operation (writei ip user src off n)) (fun r k' => r = n /\ exists x' D' tr,
    file_state p dev st 0 sb ip [] D' D' x' (i_size x') k' /\ at_rest p dev st D' k' /\ home sb x' = home sb x /\ i_inum x' = i_inum x /\
    holds sb D' x' new /\ k_writes k' = k_writes k ++ tr /\
    forall ws, ws `prefix_of` tr -> forall q kb, rebooted q dev st (replay D ws) kb ->
      wp recover_from_log (fun _ kr =>
        (holds sb (k_disk kr) x old \/ holds sb (k_disk kr) x' new) /\
        (forall b, block_ok sb D b -> ~ owned D x b -> b <> home sb x -> k_disk kr b = D b) /\ neighbours sb D x (k_disk kr)) kb) k.
Proof.
  intros n old new F Hrest Hold Hsrc H0 Hn Hoff Hmax Hlog Hfree.
  pose proof F as [T Hsb Hip Hdev Hal Hm]. pose proof (mo_len _ _ _ _ Hm) as Hlen. assert (Hmb : MAXFILE * BSIZE < 2 ^ 31) by done.
  assert (Est : sb_logstart sb = st) by (rewrite <- Hsb; apply T).
  set (R := fun (r : Z) (V : Z -> list Z) (k2 : kernel) => r = n /\ exists bl x', file_state p dev st 1 sb ip bl V D x' (i_size x') k2 /\
    i_inum x' = i_inum x /\ holds sb V x' new /\ spares sb D x V x' /\ neighbours sb D x V).
  eapply wp_mono; [apply (wp_operation _ p dev st D k R); [exact _|exact Hrest|]|].
  - intros k1 T1 N1. pose proof (file_state_open _ _ _ 1 _ _ _ _ _ _ _ _ _ F N1) as F1.
    assert (Hs1 : source user src data k1) by exact (source_noise _ _ _ _ _ _ N1 Hsrc).
    pose proof (writei_ok p dev st 1 sb ip [] D D x k1 user src data off F1 ltac:(lia) ltac:(lia) H0 Hs1 ltac:(lia)) as W. cbv zeta in W. fold n in W.
    assert (Er : write_refused (i_size x) off n = false) by (unfold write_refused; rewrite !orb_false_iff; lia). rewrite Er in W. specialize (W ltac:(cbn [length]; lia) Hfree).
    eapply wp_mono; [exact W|]. intros r k2 (-> & bl & V & x' & F2 & Es & Hb & Hblk & Hino & Hoth & [ad Ex'] & _ & Hbl & _ & Hfr). assert (Hnum : i_inum x' = i_inum x) by now rewrite Ex'.
    exists bl, V. split; [apply F2|]. split; [|split; [cbn [length] in Hbl; lia|]].
    + destruct Hfr as [y (l & (_ & _ & Hc & _) & Fb)]. rewrite (frame_log _ _ Fb). cbn. rewrite Hc. cbn. rewrite (noise_eq k_log _ _ ltac:(done) N1). apply Hrest.
    + split; [done|]. exists bl, x'. split; [done|]. split; [done|]. split; [|exact (conj Hblk Hoth)]. split; [|now apply (overwritten D x)].
      unfold home. rewrite Hnum. now apply Hino.
  - intros r k' (V & D' & tr & k2 & (-> & bl & x' & F2 & Hnum & Hnew & Hblk & Hoth) & Hr' & Hag & _ & Hw & Hat & Fr). split; [done|].
    exists x', D', tr. rewrite <- Est in Hag. pose proof F2 as [T2 Hsb2 Hip2 Hdev2 Hal2 Hm2].
    assert (Hh : home sb x' = home sb x) by (unfold home; now rewrite Hnum).
    split; [|split; [done|split; [done|split; [done|split; [now apply (holds_agree sb V)|split; [done|]]]]]].
    + split; [apply Hr'|now rewrite (frame_sb _ _ Fr)|rewrite (bio_frame_eq k_inodes _ _ ltac:(done) ltac:(done) Fr); done|done|now apply (alloc_ok_agree sb V)|now apply (map_ok_agree sb V); [|apply Hal2|]].
    + intros ws Hws q kb Hb. eapply wp_mono; [exact (Hat ws Hws q kb Hb)|]. intros [] kr Hor. rewrite <- Est in Hor. split; [|split].
      * destruct Hor as [Ho|Ho]; [left; now apply (holds_agree sb D)|right; now apply (holds_agree sb V)].
      * intros b Hb1 Hb2 Hb3. pose proof (bo_apart _ _ _ Hb1). destruct Hor as [Ho|Ho]; rewrite Ho by done; [done|now apply Hblk].
      * intros j Hj. destruct Hor as [Ho|Ho]; rewrite Ho by apply (bo_apart _ _ _ (mo_home _ _ _ _ Hm)); [done|now apply Hoth].
Qed.

(** ** A file on a running machine *)

(** The small file of [disk_hello] with its inode on the disk, no operation in progress. *)
Definition disk_file : Z -> list Z := saved sb50 disk_hello file_hello.
Definition rest_state : kernel := upd_log (set_l_outstanding 0) (fs_machine disk_file sb50 [file_hello]).

Lemma rest_file : file_state 3 1 2 0 sb50 0 [] disk_file disk_file file_hello (i_size file_hello) rest_state.
Proof.
  destruct (saved_ok sb50 disk_hello file_hello 5 hello_map) as [M A].
  split; [apply (tx_outstanding _ _ _ 1); now apply fs_machine_tx|reflexivity|reflexivity|reflexivity|apply A; exact disk_hello_alloc|exact M].
Qed.

Lemma rest_state_rest : at_rest 3 1 2 disk_file rest_state.
Proof.
  split; [apply rest_file|reflexivity| |reflexivity].
  split; [vm_compute; reflexivity|vm_compute; reflexivity|constructor|constructor|constructor].
Qed.

Example file_write_atomic_witness :
  wp (operation (writei 0 false 0x9000 3 5)) (fun r k' => r = 5 /\ exists x' D' tr,
    holds sb50 D' x' [104; 101; 108; 0; 0; 0; 0; 0] /\ k_writes k' = k_writes rest_state ++ tr /\
    forall ws, ws `prefix_of` tr -> forall q kb, rebooted q 1 2 (replay disk_file ws) kb ->
      wp recover_from_log (fun _ kr =>
        holds sb50 (k_disk kr) file_hello [104; 101; 108; 108; 111] \/ holds sb50 (k_disk kr) x' [104; 101; 108; 0; 0; 0; 0; 0]) kb) rest_state.
Proof.
  assert (Hs : source false 0x9000 [0; 0; 0; 0; 0] rest_state) by (split; [cbn [length]; lia|vm_compute; reflexivity]).
  assert (Hold : fbytes disk_file file_hello 0 (i_size file_hello) = [104; 101; 108; 108; 111]) by (vm_compute; reflexivity).
  assert (Hh : holds sb50 disk_file file_hello (fbytes disk_file file_hello 0 (i_size file_hello))) by (split; [vm_compute; reflexivity|reflexivity]).
  pose proof (file_write_atomic 3 1 2 sb50 0 disk_file file_hello rest_state false 0x9000 [0; 0; 0; 0; 0] 3) as T.
  cbv zeta in T. change (Z.of_nat (length [0; 0; 0; 0; 0])) with 5 in T. rewrite Hold in T, Hh.
  refine (wp_mono _ _ _ _ (T rest_file rest_state_rest Hh Hs _ _ _ _ _ _) _); [lia|lia|vm_compute; split; discriminate|vm_compute; discriminate|vm_compute; reflexivity|vm_compute; discriminate|].
  intros r k' (-> & x' & D' & tr & _ & _ & _ & _ & H1 & H2 & H3). split; [reflexivity|]. exists x', D', tr. split; [exact H1|]. split; [exact H2|].
  intros ws Hws q kb Hb. apply (wp_mono _ _ _ _ (H3 ws Hws q kb Hb)). intros [] kr [Hor _]. exact Hor.
Defined.
