(* ===== verification/Mkfs.v ===== *)
(** * Building the file-system image (mkfs/mkfs.c)

    mkfs runs on the host.  Its image file is a table of sectors; the host's [lseek],
    [read] and [write] on that file are a lookup and an update, a read past the end
    failing.  The files to copy are the argument: a name and what successive
    [read(fd, buf, sizeof(buf))] calls return, [None] when [open] fails.  Messages
    on standard output are not modelled.  [assert] and [exit(1)] end the program. *)

From stdpp Require Import base numbers list gmap strings.
From S2P Require Import Prelude Kstate Kstring Spinlock Kalloc Vm Sched Sleeplock Bio Blocks Log Tx Fs FsAlloc FsInode.

Record mkfs := mk_mkfs {
  m_img : Z -> list Z;    (* the sectors of the image *)
  m_nsect : Z;            (* its length in sectors *)
  m_freeinode : Z;
  m_freeblock : Z }.

Definition set_m_freeinode (v : Z) (s : mkfs) : mkfs := mk_mkfs (m_img s) (m_nsect s) v (m_freeblock s).
Definition set_m_freeblock (v : Z) (s : mkfs) : mkfs := mk_mkfs (m_img s) (m_nsect s) (m_freeinode s) v.

Notation F A := (M mkfs A).

Definition NINODES : Z := 200.
Definition nbitmap : Z := FSSIZE / (BSIZE * 8) + 1.
Definition ninodeblocks : Z := NINODES / IPB + 1.
Definition nlog : Z := LOGSIZE.
Definition nmeta : Z := 2 + nlog + ninodeblocks + nbitmap.
Definition nblocks : Z := FSSIZE - nmeta.

(** The host is little-endian: [xint] and [xshort] store the bytes in order. *)
Definition xshort (x : Z) : Z := le_val (le_bytes 2 x).
Definition xint (x : Z) : Z := le_val (le_bytes 4 x).

Definition sb : superblock :=
  mk_superblock FSMAGIC (xint FSSIZE) (xint nblocks) (xint NINODES) (xint nlog) (xint 2) (xint (2 + nlog)) (xint (2 + nlog + ninodeblocks)).
Definition encode_superblock (s : superblock) : list Z :=
  concat (map (le_bytes 4) [sb_magic s; sb_size s; sb_nblocks s; sb_ninodes s; sb_nlog s; sb_logstart s; sb_inodestart s; sb_bmapstart s]).

(** [sec * BSIZE] is computed in 32 bits. *)
Definition sector (sec : Z) : Z := u32 (sec * BSIZE) / BSIZE.
Definition wsect (sec : Z) (buf : list Z) : F unit :=
  modify (fun s => mk_mkfs (upd (m_img s) (sector sec) buf) (Z.max (m_nsect s) (sector sec + 1)) (m_freeinode s) (m_freeblock s)).
Definition rsect (sec : Z) : F (list Z) :=
  let* n := gets m_nsect in
  if n <=? sector sec then panic "read" else gets (fun s => m_img s (sector sec)).

Definition winode (inum : Z) (ip : dinode) : F unit :=
  let bn := IBLOCK inum sb in
  let* buf := rsect bn in
  wsect bn (put_dinode buf inum ip).
Definition rinode (inum : Z) : F dinode :=
  let* buf := rsect (IBLOCK inum sb) in
  ret (get_dinode buf inum).

Definition ialloc (type : Z) : F Z :=
  let* inum := gets m_freeinode in
  modify (set_m_freeinode (u32 (inum + 1))) ;;;
  winode inum (mk_dinode (xshort type) 0 0 (xshort 1) (xint 0) (replicate (NDIRECT + 1) 0)) ;;;
  ret inum.

Definition mark_used (used : Z) : list Z :=
  foldl (fun buf i => set_byte buf (i / 8) (Z.lor (byte_at buf (i / 8)) (Z.shiftl 1 (i mod 8)))) zero_block (seqZ 0 used).
Definition balloc (used : Z) : F unit :=
  if negb (used <? BSIZE * 8) then panic "assert" else
  wsect (sb_bmapstart sb) (mark_used used).

Definition next_block : F Z :=
  let* b := gets m_freeblock in
  modify (set_m_freeblock (u32 (b + 1))) ;;;
  ret (xint b).

Definition set_d_addr (i : nat) (a : Z) (di : dinode) : dinode :=
  mk_dinode (d_type di) (d_major di) (d_minor di) (d_nlink di) (d_size di) (<[i := a]> (d_addrs di)).
Definition set_d_size (sz : Z) (di : dinode) : dinode :=
  mk_dinode (d_type di) (d_major di) (d_minor di) (d_nlink di) sz (d_addrs di).

(** The address [din.addrs[i]], allocated if it is 0. *)
Definition need_addr (din : dinode) (i : nat) : F dinode :=
  if xint (d_addrs din !!! i) =? 0 then
    let* b := next_block in
    ret (set_d_addr i b din)
  else ret din.

(** The block for file block [fbn] in [iappend]. *)
Definition iappend_block (din : dinode) (fbn : Z) : F (dinode * Z) :=
  if fbn <? Z.of_nat NDIRECT then
    let* din := need_addr din (Z.to_nat fbn) in
    ret (din, xint (d_addrs din !!! Z.to_nat fbn))
  else
    let* din := need_addr din NDIRECT in
    let ind := xint (d_addrs din !!! NDIRECT) in
    let i := Z.to_nat (4 * (fbn - Z.of_nat NDIRECT)) in
    let* indirect := rsect ind in
    let* indirect :=
      (if get32 indirect i =? 0 then
         let* b := next_block in
         wsect ind (put32 indirect i b) ;;;
         ret (put32 indirect i b)
       else ret indirect) in
    ret (din, xint (get32 indirect i)).

(** Every iteration consumes at least one byte of [p]. *)
Fixpoint iappend_loop (fuel : nat) (din : dinode) (off : Z) (p : list Z) : F (dinode * Z) :=
  match fuel with
  | O => suspend_with Forever
  | S fuel' =>
      if (length p =? 0)%nat then ret (din, off) else
      let fbn := off / BSIZE in
      if negb (fbn <? MAXFILE) then panic "assert" else
      let* (din, x) := iappend_block din fbn in
      let n1 := Z.min (Z.of_nat (length p)) ((fbn + 1) * BSIZE - off) in
      let* buf := rsect x in
      wsect x (list_put buf (Z.to_nat (off - fbn * BSIZE)) (take (Z.to_nat n1) p)) ;;;
      iappend_loop fuel' din (u32 (off + n1)) (drop (Z.to_nat n1) p)
  end.

Definition iappend (inum : Z) (p : list Z) : F unit :=
  let* din := rinode inum in
  let* (din, off) := iappend_loop (S (length p)) din (xint (d_size din)) p in
  winode inum (set_d_size (xint off) din).

(** [struct dirent] with a zeroed, then filled, name. *)
Definition dirent (inum : Z) (name : list Z) : list Z := le_bytes 2 (xshort inum) ++ name.
Definition dot : list Z := list_put (replicate DIRSIZ 0) 0 [46; 0].
Definition dotdot : list Z := list_put (replicate DIRSIZ 0) 0 [46; 46; 0].

(** The name in the image: without [user/] and without a leading underscore. *)
Definition user_ : list Z := [117; 115; 101; 114; 47].
Definition short_name (arg : list Z) : list Z := if strncmp (list_bytes arg) (list_bytes user_) 5 =? 0 then drop 5 arg else arg.
Definition base_name (shortname : list Z) : list Z := if bool_decide (head shortname = Some 95) then tail shortname else shortname.

Definition add_file (arg : list Z * option (list (list Z))) : F unit :=
  let '(argv, input) := arg in
  let shortname := short_name argv in
  if bool_decide (slash ∈ shortname) then panic "assert" else
  match input with
  | None => panic "open"
  | Some chunks =>
      let* inum := ialloc T_FILE in
      iappend ROOTINO (dirent inum (strncpy (list_bytes (base_name shortname)) DIRSIZ)) ;;;
      for_each chunks (iappend inum)
  end.

Definition main (args : list (list Z * option (list (list Z)))) : F unit :=
  modify (set_m_freeblock nmeta) ;;;
  for_each (seqZ 0 FSSIZE) (fun i => wsect i zero_block) ;;;
  wsect 1 (list_put zero_block 0 (encode_superblock sb)) ;;;
  let* rootino := ialloc T_DIR in
  if negb (rootino =? ROOTINO) then panic "assert" else
  iappend rootino (dirent rootino dot) ;;;
  iappend rootino (dirent rootino dotdot) ;;;
  for_each args add_file ;;;
  let* din := rinode rootino in
  let off := (xint (d_size din) / BSIZE + 1) * BSIZE in
  winode rootino (set_d_size (xint off) din) ;;;
  let* used := gets m_freeblock in
  balloc used.

(** Before [main]: an empty image file. *)
Definition start : mkfs := mk_mkfs (fun _ => zero_block) 0 1 0.

(** ** Sectors and the bitmap to come *)

Lemma xint_id x : 0 <= x < 2 ^ 32 -> xint x = x.
Proof. apply u32_le_bytes. Qed.

Lemma xshort_id x : 0 <= x < 2 ^ 16 -> xshort x = x.
Proof. intros H. unfold xshort. rewrite le_val_le_bytes. now apply Z.mod_small. Qed.

Lemma sector_id n : 0 <= n < FSSIZE -> sector n = n.
Proof. intros H. unfold sector. change FSSIZE with 1000 in H. change BSIZE with 1024. rewrite u32_small by lia. apply Z.div_mul. lia. Qed.

Lemma sb_eq : sb = mk_superblock FSMAGIC 1000 954 200 30 2 32 45.
Proof. reflexivity. Qed.

Lemma BBLOCK_sb b : 0 <= b < FSSIZE -> BBLOCK b sb = 45 /\ b mod BPB = b.
Proof.
  intros H. change FSSIZE with 1000 in H. rewrite sb_eq. unfold BBLOCK. cbn [sb_bmapstart]. change BPB with 8192.
  rewrite Z.div_small, Z.mod_small by lia. done.
Qed.

Lemma IBLOCK_sb i : 0 <= i <= NINODES -> 32 <= IBLOCK i sb < 45.
Proof. intros H. change NINODES with 200 in H. rewrite sb_eq. unfold IBLOCK. cbn [sb_inodestart]. change IPB with 16. rewrite u32_small by zdiv. zdiv. Qed.

Lemma mark_used_next n : 0 <= n -> mark_used (n + 1) = set_bit (mark_used n) n.
Proof. intros H. unfold mark_used. now rewrite seqZ_app, foldl_app by lia. Qed.

Lemma mark_used_spec n :
  0 <= n <= BPB -> length (mark_used n) = Z.to_nat BSIZE /\ forall b, 0 <= b < BPB -> bit (mark_used n) b = (b <? n).
Proof.
  intros [H0 H1]. revert H1. pattern n. apply natlike_ind; [|clear n H0|done].
  - intros _. split; [done|]. intros b Hb. change (mark_used 0) with zero_block. unfold bit, byte_at, zero_block.
    rewrite list_lookup_total_alt, lookup_replicate_2; [|change BPB with 8192 in *; change (Z.to_nat BSIZE) with 1024%nat; zdiv].
    rewrite Z.testbit_0_l. symmetry. apply Z.ltb_ge. lia.
  - intros n Hn IH Hm. destruct IH as [L B]; [lia|]. unfold Z.succ. rewrite mark_used_next by done. split; [unfold set_bit; now rewrite length_set_byte|].
    intros b Hb. rewrite bit_set_bit, B by (done || lia). destruct (Z.eqb_spec b n), (Z.ltb_spec b n), (Z.ltb_spec b (n + 1)); cbn; done || lia.
Qed.

(** [V] is the image with the bitmap [main] would write now. *)
Record tracks (V : Z -> list Z) (s : mkfs) : Prop := {
  tr_img : forall n, n <> 45 -> m_img s n = V n;
  tr_bitmap : V 45 = mark_used (m_freeblock s);
  tr_nsect : m_nsect s = FSSIZE;
  tr_fb : nmeta <= m_freeblock s <= FSSIZE;
  tr_zero : forall n, m_freeblock s <= n < FSSIZE -> V n = zero_block;
  tr_len : forall n, length (V n) = Z.to_nat BSIZE }.

Section tracked.
Context (V : Z -> list Z) (s : mkfs).
Hypothesis T : tracks V s.

Lemma tr_allocated b : 0 <= b < FSSIZE -> allocated sb V b = (b <? m_freeblock s).
Proof.
  intros Hb. pose proof (tr_fb _ _ T) as Hf. unfold allocated. destruct (BBLOCK_sb b Hb) as [-> ->]. rewrite (tr_bitmap _ _ T).
  apply mark_used_spec; change nmeta with 46 in *; change FSSIZE with 1000 in *; change BPB with 8192; lia.
Qed.

Lemma tr_block n : block_ok sb V n <-> 0 < n < m_freeblock s /\ n <> 45 /\ ~ 2 <= n < 32.
Proof.
  pose proof (tr_fb _ _ T) as Hf. change FSSIZE with 1000 in *. assert (Es : sb_size sb = 1000) by reflexivity. split.
  - intros [H1 H2 H3 H4 H5]. rewrite Es in *. rewrite tr_allocated in H2 by (change FSSIZE with 1000; lia). split; [lia|].
    unfold apart in H5. change (sb_logstart sb) with 2 in H5. change LOGSIZE with 30 in H5. split; [|lia].
    intros ->. apply (H4 0); [lia|]. now apply BBLOCK_sb.
  - intros (H1 & H2 & H3). split; rewrite ?Es.
    + lia.
    + rewrite tr_allocated by (change FSSIZE with 1000; lia). lia.
    + apply T.
    + intros b' Hb'. destruct (BBLOCK_sb b') as [-> _]; [done|congruence].
    + unfold apart. change (sb_logstart sb) with 2. change LOGSIZE with 30. lia.
Qed.

Lemma tr_alloc_ok : alloc_ok sb V.
Proof.
  pose proof (tr_fb _ _ T) as Hf. change FSSIZE with 1000 in *. change nmeta with 46 in *. assert (Es : sb_size sb = 1000) by reflexivity. split; [split|..]; rewrite ?Es.
  - lia.
  - done.
  - vm_compute. discriminate.
  - intros b Hb. apply T.
  - intros b Hb. destruct (BBLOCK_sb b) as [-> _]; [done|]. rewrite tr_allocated by done. lia.
  - intros b Hb. destruct (BBLOCK_sb b) as [-> _]; [done|]. right. vm_compute. discriminate.
  - intros b Hb. rewrite tr_allocated by done. intros Ha. right. change (sb_logstart sb) with 2. change LOGSIZE with 30. lia.
  - rewrite tr_allocated by done. lia.
  - lia.
Qed.

Lemma tr_free : m_freeblock s < FSSIZE -> 0 <= m_freeblock s < sb_size sb /\ allocated sb V (m_freeblock s) = false.
Proof.
  intros H. pose proof (tr_fb _ _ T) as Hf. change nmeta with 46 in *. change (sb_size sb) with FSSIZE. split; [lia|]. rewrite tr_allocated by lia. apply Z.ltb_irrefl.
Qed.

Lemma wp_rsect {B} n (cont : list Z -> F B) Q : 0 <= n < FSSIZE -> n <> 45 -> wp (cont (V n)) Q s -> wp (let* buf := rsect n in cont buf) Q s.
Proof.
  intros Hn Hne H. apply wp_bind. unfold rsect. apply wp_bind, wp_gets. rewrite sector_id, (tr_nsect _ _ T), (proj2 (Z.leb_gt _ _)) by lia.
  apply wp_gets. now rewrite (tr_img _ _ T).
Qed.

Lemma wp_wsect n d (Q : unit -> mkfs -> Prop) :
  0 <= n < m_freeblock s -> n <> 45 -> length d = Z.to_nat BSIZE ->
  (forall s', tracks (upd V n d) s' -> m_freeblock s' = m_freeblock s -> m_freeinode s' = m_freeinode s -> Q tt s') -> wp (wsect n d) Q s.
Proof.
  intros Hn Hne Hd HQ. pose proof (tr_fb _ _ T) as Hf. apply wp_modify, HQ; [|done|done]. rewrite sector_id by lia. split; cbn [m_img m_nsect m_freeblock].
  - intros m Hm. unfold upd. case_decide; [done|]. now apply T.
  - rewrite upd_ne by done. apply T.
  - rewrite (tr_nsect _ _ T). lia.
  - done.
  - intros m Hm. rewrite upd_ne by lia. now apply T.
  - intros m. unfold upd. case_decide; [done|apply T].
Qed.

Lemma wp_next_block {B} (cont : Z -> F B) Q :
  m_freeblock s < FSSIZE ->
  (forall s', tracks (alloc_view sb (m_freeblock s) V) s' -> m_freeblock s' = m_freeblock s + 1 -> m_freeinode s' = m_freeinode s ->
     wp (cont (m_freeblock s)) Q s') -> wp (let* b := next_block in cont b) Q s.
Proof.
  intros Hlt HQ. pose proof (tr_fb _ _ T) as Hf. change nmeta with 46 in *. change FSSIZE with 1000 in *.
  apply wp_bind. unfold next_block. apply wp_bind, wp_gets, wp_bind, wp_modify, wp_ret. rewrite u32_small, xint_id by lia.
  destruct (BBLOCK_sb (m_freeblock s)) as [E1 E2]; [change FSSIZE with 1000; lia|]. unfold alloc_view in HQ. rewrite E1, E2, (tr_bitmap _ _ T) in HQ.
  apply HQ; [|done|done]. split; cbn [set_m_freeblock m_img m_nsect m_freeblock].
  - intros n Hn. destruct (decide (n = m_freeblock s)) as [->|Hne].
    + rewrite upd_eq, (tr_img _ _ T) by done. apply T. change FSSIZE with 1000. lia.
    + rewrite !upd_ne by done. now apply T.
  - rewrite upd_ne, upd_eq by lia. rewrite mark_used_next by lia. done.
  - apply T.
  - change nmeta with 46. change FSSIZE with 1000. lia.
  - intros n Hn. unfold upd. case_decide; [done|]. case_decide; [lia|]. apply T. change FSSIZE with 1000 in *. lia.
  - intros n. unfold upd. case_decide; [done|]. case_decide; [|apply T]. unfold set_bit. rewrite length_set_byte. apply mark_used_spec. change BPB with 8192. lia.
Qed.
End tracked.

(** ** Appending to a file *)

(** The in-memory inode the kernel would load. *)
Definition inode_of (inum : Z) (di : dinode) : inode :=
  mk_inode ROOTDEV inum 1 zero_sleeplock true (d_type di) (d_major di) (d_minor di) (d_nlink di) (d_size di) (d_addrs di).

(** The blocks [iappend_block] takes from the free ones. *)
Definition taken_blocks (V : Z -> list Z) (x : inode) (bn : Z) : Z :=
  if iblock V x bn =? 0 then (if (Z.of_nat NDIRECT <=? bn) && (i_ind x =? 0) then 2 else 1) else 0.

Section append.
Context (inum len : Z).

Lemma addr_range V s di i : tracks V s -> map_ok sb V (inode_of inum di) len -> (i < 13)%nat -> xint (d_addrs di !!! i) = d_addrs di !!! i.
Proof.
  intros T Hm Hi. pose proof (do_addr _ (mo_dinode _ _ _ _ Hm)) as Ha. pose proof (do_addrs _ (mo_dinode _ _ _ _ Hm)) as Hl. cbn in Ha, Hl.
  apply xint_id. rewrite Forall_lookup in Ha. apply (Ha i). apply list_lookup_lookup_total_lt. unfold NDIRECT in Hl. lia.
Qed.

Lemma wp_iappend_direct V s di bn Q :
  tracks V s -> map_ok sb V (inode_of inum di) len -> 0 <= bn < Z.of_nat NDIRECT ->
  m_freeblock s + taken_blocks V (inode_of inum di) bn <= FSSIZE ->
  (forall V' di' s', let x := inode_of inum di in let x' := inode_of inum di' in
     tracks V' s' -> grown sb V x V' x' bn -> map_ok sb V' x' len -> iblock V' x' bn <> 0 -> i_ind x' = i_ind x ->
     (iblock V x bn = 0 -> V' (iblock V' x' bn) = zero_block) ->
     m_freeblock s' = m_freeblock s + taken_blocks V x bn -> m_freeinode s' = m_freeinode s -> Q (di', iblock V' x' bn) s') ->
  wp (iappend_block di bn) Q s.
Proof.
  intros T Hm Hb Hfb HQ. cbv zeta in HQ. pose proof (tr_alloc_ok V s T) as Hal.
  assert (Hib : forall V di', iblock V (inode_of inum di') bn = d_addrs di' !!! Z.to_nat bn) by (intros; unfold iblock; now rewrite (proj2 (Z.ltb_lt _ _)) by lia).
  unfold iappend_block. rewrite (proj2 (Z.ltb_lt _ _)) by lia. unfold need_addr. rewrite (addr_range V s di) by (done || (unfold NDIRECT in Hb; lia)).
  unfold taken_blocks in *. rewrite (Hib V di) in Hfb, HQ. rewrite (proj2 (Z.leb_gt (Z.of_nat NDIRECT) bn)) in Hfb, HQ by lia. cbn [andb] in Hfb, HQ.
  set (x := inode_of inum di) in *.
  destruct (Z.eqb_spec (d_addrs di !!! Z.to_nat bn) 0) as [E|E].
  - apply wp_bind. apply (wp_next_block V s T); [lia|]. intros s1 T1 F1 I1. apply wp_ret, wp_ret. destruct (tr_free V s T) as [Ha Hfree]; [lia|].
    destruct (grow_direct sb V x len (m_freeblock s) Hal Hm Ha Hfree bn Hb) as (G & M & Ei); [unfold x; now rewrite Hib|].
    assert (Hz : m_freeblock s <> 0) by (pose proof (tr_fb _ _ T); change nmeta with 46 in *; lia).
    change (put_addr (Z.to_nat bn) (m_freeblock s) x) with (inode_of inum (set_d_addr (Z.to_nat bn) (m_freeblock s) di)) in G, M, Ei.
    rewrite (addr_range _ s1 (set_d_addr (Z.to_nat bn) (m_freeblock s) di)) by (done || (unfold NDIRECT in Hb; lia)).
    rewrite <- (Hib (alloc_view sb (m_freeblock s) V)). apply HQ; [done|done|done|now rewrite Ei| | |done|done].
    + unfold i_ind. cbn [inode_of set_d_addr d_addrs i_addrs]. apply list_lookup_total_insert_ne. lia.
    + intros _. rewrite Ei. apply upd_eq.
  - apply wp_bind, wp_ret, wp_ret. rewrite (addr_range V s di) by (done || (unfold NDIRECT in Hb; lia)). rewrite <- (Hib V).
    apply HQ; [done|now apply grown_refl|done|now rewrite Hib|done|done|lia|done].
Qed.

(** The part of [iappend_block] behind the indirect block. *)
Lemma wp_iappend_entry V s di bn Q :
  tracks V s -> map_ok sb V (inode_of inum di) len -> Z.of_nat NDIRECT <= bn -> blockno_ok bn -> i_ind (inode_of inum di) <> 0 ->
  m_freeblock s + taken_blocks V (inode_of inum di) bn <= FSSIZE ->
  (forall V' s', let x := inode_of inum di in
     tracks V' s' -> grown sb V x V' x bn -> map_ok sb V' x len -> iblock V' x bn <> 0 ->
     (iblock V x bn = 0 -> V' (iblock V' x bn) = zero_block) ->
     m_freeblock s' = m_freeblock s + taken_blocks V x bn -> m_freeinode s' = m_freeinode s -> Q (di, iblock V' x bn) s') ->
  wp (let ind := xint (d_addrs di !!! NDIRECT) in
      let i := Z.to_nat (4 * (bn - Z.of_nat NDIRECT)) in
      let* indirect := rsect ind in
      let* indirect :=
        (if get32 indirect i =? 0 then
           let* b := next_block in
           wsect ind (put32 indirect i b) ;;;
           ret (put32 indirect i b)
         else ret indirect) in
      ret (di, xint (get32 indirect i))) Q s.
Proof.
  intros T Hm Hge Hb Hi Hfb HQ. cbv zeta in HQ. set (x := inode_of inum di) in *. pose proof (tr_alloc_ok V s T) as Hal. pose proof (tr_fb _ _ T) as Hf.
  destruct (mo_ind _ _ _ _ Hm Hi) as [Bi _]. pose proof (proj1 (tr_block V s T _) Bi) as (Ri & Ni & _). cbv zeta.
  rewrite (addr_range V s di) by (done || (unfold NDIRECT; lia)). change (d_addrs di !!! NDIRECT) with (i_ind x).
  change FSSIZE with 1000 in *. change nmeta with 46 in *.
  apply (wp_rsect V s T); [change FSSIZE with 1000; lia|done|]. set (i := Z.to_nat (4 * (bn - Z.of_nat NDIRECT))).
  assert (Hib : forall V', iblock V' x bn = get32 (V' (i_ind x)) i) by (intros; unfold iblock; rewrite (proj2 (Z.ltb_ge _ _)), (proj2 (Z.eqb_neq _ _)) by (done || lia); done).
  unfold taken_blocks in *. rewrite (Hib V) in Hfb, HQ. rewrite (proj2 (Z.eqb_neq (i_ind x) 0)), andb_false_r in Hfb, HQ by done.
  destruct (Z.eqb_spec (get32 (V (i_ind x)) i) 0) as [E|E].
  - apply wp_bind. apply (wp_next_block V s T); [change FSSIZE with 1000; lia|]. intros s1 T1 F1 I1. apply wp_bind.
    destruct (tr_free V s T) as [Ha Hfree]; [change FSSIZE with 1000; lia|].
    destruct (grow_entry sb V x len (m_freeblock s) Hal Hm Ha Hfree bn Hi Hge Hb) as (G & M & Ei); [now rewrite Hib|].
    pose proof (ind_alloc sb V x len (m_freeblock s) Hal Hm Ha Hfree Hi) as Eind. fold i in G, M, Ei.
    assert (Hlen : (i + 4 <= length (V (i_ind x)))%nat).
    { rewrite (tr_len _ _ T). unfold i, blockno_ok in *. change MAXFILE with 268 in Hb. change (Z.to_nat BSIZE) with 1024%nat. unfold NDIRECT in *. lia. }
    apply (wp_wsect (alloc_view sb (m_freeblock s) V) s1 T1); [lia|done|rewrite length_put32 by done; apply T|]. intros s2 T2 F2 I2.
    apply wp_ret, wp_ret. rewrite get32_put32, u32_small, xint_id by (done || lia). rewrite <- Ei at 1.
    apply HQ; [exact T2|exact G|exact M|rewrite Ei; lia| |lia|congruence].
    intros _. rewrite Ei, upd_ne by lia. apply upd_eq.
  - apply wp_bind, wp_ret, wp_ret. rewrite <- (Hib V).
    assert (Hn : iblock V x bn <> 0) by now rewrite Hib. destruct (mo_block _ _ _ _ Hm bn Hb Hn) as [Bb _]. pose proof (proj1 (tr_block V s T _) Bb) as [Rb _].
    rewrite xint_id by lia. apply HQ; [done|now apply grown_refl|done|done|congruence|lia|done].
Qed.

Lemma wp_iappend_block V s di bn Q :
  tracks V s -> map_ok sb V (inode_of inum di) len -> blockno_ok bn ->
  m_freeblock s + taken_blocks V (inode_of inum di) bn <= FSSIZE ->
  (forall V' di' s', let x := inode_of inum di in let x' := inode_of inum di' in
     tracks V' s' -> grown sb V x V' x' bn -> map_ok sb V' x' len -> iblock V' x' bn <> 0 -> (bn < Z.of_nat NDIRECT -> i_ind x' = i_ind x) ->
     (iblock V x bn = 0 -> V' (iblock V' x' bn) = zero_block) ->
     m_freeblock s' = m_freeblock s + taken_blocks V x bn -> m_freeinode s' = m_freeinode s -> Q (di', iblock V' x' bn) s') ->
  wp (iappend_block di bn) Q s.
Proof.
  intros T Hm Hb Hfb HQ. cbv zeta in HQ. destruct (decide (bn < Z.of_nat NDIRECT)) as [Hlt|Hge].
  { apply (wp_iappend_direct V s di bn Q T Hm); [unfold blockno_ok in Hb; lia|done|]. cbv zeta. auto. }
  unfold iappend_block. rewrite (proj2 (Z.ltb_ge bn (Z.of_nat NDIRECT))) by lia. apply wp_bind. unfold need_addr.
  rewrite (addr_range V s di) by (done || (unfold NDIRECT; lia)). change (d_addrs di !!! NDIRECT) with (i_ind (inode_of inum di)).
  destruct (Z.eqb_spec (i_ind (inode_of inum di)) 0) as [Hi|Hi].
  - pose proof (tr_alloc_ok V s T) as Hal. pose proof (tr_fb _ _ T) as Hf. change nmeta with 46 in Hf.
    assert (E0 : iblock V (inode_of inum di) bn = 0) by (apply iblock_zero; [done|lia]).
    unfold taken_blocks in Hfb, HQ. rewrite E0, Hi, (proj2 (Z.leb_le (Z.of_nat NDIRECT) bn)) in Hfb, HQ by lia. cbn [Z.eqb andb] in Hfb, HQ.
    apply (wp_next_block V s T); [lia|]. intros s1 T1 F1 I1. apply wp_ret. destruct (tr_free V s T) as [Ha Hfree]; [lia|].
    destruct (grow_root sb V _ len (m_freeblock s) Hal Hm Ha Hfree bn Hi) as (G & M & Ei & Eb).
    change (put_addr NDIRECT (m_freeblock s) (inode_of inum di)) with (inode_of inum (set_d_addr NDIRECT (m_freeblock s) di)) in G, M, Ei, Eb.
    assert (Ht : taken_blocks (alloc_view sb (m_freeblock s) V) (inode_of inum (set_d_addr NDIRECT (m_freeblock s) di)) bn = 1).
    { unfold taken_blocks. rewrite Eb, E0, Ei, (proj2 (Z.eqb_neq (m_freeblock s) 0)), andb_false_r by (done || lia). done. }
    apply (wp_iappend_entry _ s1 _ bn Q T1 M); [lia|done|lia|lia|]. cbv zeta. rewrite Ht. intros V2 s2 T2 G2 M2 N2 Z2 F2 I2.
    apply HQ; [done|exact (grown_trans sb _ _ _ _ _ _ _ G G2)|done|done|lia| |lia|congruence]. intros _. apply Z2. now rewrite Eb.
  - apply wp_ret. apply (wp_iappend_entry V s di bn Q T Hm); [lia|done|done|done|]. cbv zeta. auto.
Qed.
End append.

(** ** Files of the image *)

(** The blocks a file of [len] bytes takes. *)
Definition blocks (len : Z) : Z := (len + BSIZE - 1) / BSIZE + (if Z.of_nat NDIRECT * BSIZE <? len then 1 else 0).

Lemma blocks_mono a b : 0 <= a <= b -> blocks a <= blocks b.
Proof. intros H. unfold blocks. change BSIZE with 1024. unfold NDIRECT. destruct (Z.ltb_spec (Z.of_nat 12 * 1024) a), (Z.ltb_spec (Z.of_nat 12 * 1024) b); zdiv. Qed.

Definition flen (c : list Z) : Z := Z.of_nat (length c).

(** The inode [x] maps exactly the bytes [c], in blocks behind the metadata. *)
Record body_ok (V : Z -> list Z) (x : inode) (c : list Z) : Prop := {
  bd_map : map_ok sb V x (flen c);
  bd_bytes : fbytes V x 0 (flen c) = c;
  bd_exact : forall bn, blockno_ok bn -> flen c <= bn * BSIZE -> iblock V x bn = 0;
  bd_ind : flen c <= Z.of_nat NDIRECT * BSIZE -> i_ind x = 0;
  bd_tail : forall i, flen c <= i < (flen c + BSIZE - 1) / BSIZE * BSIZE -> fbyte V x i = 0;
  bd_own : forall n, owned V x n -> n <> 0 -> nmeta <= n }.

(** What appending to one file does to the rest. *)
Record appended (V : Z -> list Z) (x : inode) (V' : Z -> list Z) (x' : inode) : Prop := {
  ap_other : forall n, block_ok sb V n -> ~ owned V x n -> V' n = V n;
  ap_own : forall n, block_ok sb V n -> owned V' x' n -> owned V x n }.

Lemma taken_eq V x c n1 :
  body_ok V x c -> 0 < n1 -> flen c + n1 <= (flen c / BSIZE + 1) * BSIZE -> flen c + n1 <= MAXFILE * BSIZE ->
  taken_blocks V x (flen c / BSIZE) = blocks (flen c + n1) - blocks (flen c).
Proof.
  intros [M B E I _ O] Hn Hblk Hmax. unfold taken_blocks, blocks in *. pose proof (mo_full _ _ _ _ M) as Hfull. assert (H0 : 0 <= flen c) by (unfold flen; lia).
  assert (Hb : blockno_ok (flen c / BSIZE)) by (unfold blockno_ok; change MAXFILE with 268 in *; change BSIZE with 1024 in *; zdiv).
  assert (Hi : i_ind x = 0 <-> flen c <= Z.of_nat NDIRECT * BSIZE).
  { split; [|exact I]. intros Ei. destruct (Z.le_gt_cases (flen c) (Z.of_nat NDIRECT * BSIZE)) as [|Hgt]; [done|].
    exfalso. apply (Hfull (Z.of_nat NDIRECT)); [lia|lia|]. now apply iblock_zero. }
  change BSIZE with 1024 in *. unfold NDIRECT in *. change MAXFILE with 268 in *. destruct (Z.eqb_spec (flen c mod 1024) 0) as [Hz|Hz].
  - rewrite E by (done || zdiv). cbn [Z.eqb].
    destruct (Z.leb_spec (Z.of_nat 12) (flen c / 1024)), (Z.eqb_spec (i_ind x) 0) as [Ei|Ei]; cbn [andb];
      destruct (Z.ltb_spec (Z.of_nat 12 * 1024) (flen c + n1)), (Z.ltb_spec (Z.of_nat 12 * 1024) (flen c)); try zdiv.
  - destruct (Z.eqb_spec (iblock V x (flen c / 1024)) 0) as [E0|_]; [exfalso; apply (Hfull (flen c / 1024)); [zdiv|zdiv|done]|].
    destruct (Z.ltb_spec (Z.of_nat 12 * 1024) (flen c + n1)), (Z.ltb_spec (Z.of_nat 12 * 1024) (flen c)); zdiv.
Qed.

Lemma fbytes_lookup V x off n i : 0 <= i < n -> fbytes V x off n !! Z.to_nat i = Some (fbyte V x (off + i)).
Proof. intros H. unfold fbytes. rewrite list_lookup_fmap, lookup_seqZ_lt by lia. cbn. do 2 f_equal. lia. Qed.

(** The new blocks lie behind the metadata. *)
Lemma own_fresh V s V' s' x x' :
  tracks V s -> tracks V' s' -> m_freeblock s <= m_freeblock s' -> (forall n, block_ok sb V n -> owned V' x' n -> owned V x n) ->
  (forall n, owned V x n -> n <> 0 -> nmeta <= n) -> (forall n, owned V' x' n -> n <> 0 -> block_ok sb V' n) -> forall n, owned V' x' n -> n <> 0 -> nmeta <= n.
Proof.
  intros T T' Hf Ho Hold Hblk n Hn Hz. pose proof (proj1 (tr_block V' s' T' n) (Hblk n Hn Hz)) as (R & N & L).
  destruct (decide (n < m_freeblock s)) as [Hlt|Hge]; [|pose proof (tr_fb _ _ T); lia].
  apply Hold; [|done]. apply Ho; [|done]. apply (tr_block V s T). lia.
Qed.

Lemma owned_block V x len n : map_ok sb V x len -> owned V x n -> n <> 0 -> block_ok sb V n.
Proof. intros M [->|(bn & Hb & <-)] Hz; [now apply (mo_ind _ _ _ _ M)|now apply (mo_block _ _ _ _ M bn)]. Qed.

(** One iteration of [iappend]. *)
Lemma body_step V s x c V1 s1 x1 V2 s2 bytes :
  let bn := flen c / BSIZE in let a := iblock V1 x1 bn in
  tracks V s -> body_ok V x c -> tracks V1 s1 -> grown sb V x V1 x1 bn -> map_ok sb V1 x1 (flen c) -> a <> 0 ->
  (bn < Z.of_nat NDIRECT -> i_ind x1 = i_ind x) -> (iblock V x bn = 0 -> V1 a = zero_block) -> m_freeblock s <= m_freeblock s1 -> m_freeblock s2 = m_freeblock s1 ->
  V2 = upd V1 a (list_put (V1 a) (Z.to_nat (flen c mod BSIZE)) bytes) -> tracks V2 s2 ->
  0 < flen bytes -> flen c mod BSIZE + flen bytes <= BSIZE -> flen c + flen bytes <= MAXFILE * BSIZE ->
  body_ok V2 x1 (c ++ bytes) /\ appended V x V2 x1.
Proof.
  intros bn a T [M B E I Tl O] T1 G M1 Ha Hind Hzero Hf1 Hf2 EV2 T2 Hpos Hfit Hmax. assert (H0 : 0 <= flen c) by (unfold flen; lia).
  assert (Hb : blockno_ok bn) by (unfold blockno_ok, bn; change MAXFILE with 268 in *; change BSIZE with 1024 in *; zdiv).
  destruct (edited_block sb V x V1 x1 (flen c) (flen c) bytes M M1 G Ha ltac:(lia) Hb Hfit ltac:(unfold flen in *; lia)) as [ED MD].
  fold bn in ED, MD. fold a in ED, MD. rewrite <- EV2 in ED, MD. fold (flen bytes) in MD. rewrite Z.max_r in MD by lia.
  destruct (mo_block _ _ _ _ M1 bn Hb Ha) as (_ & _ & Hai). fold a in Hai.
  assert (El : flen (c ++ bytes) = flen c + flen bytes) by (unfold flen; rewrite length_app; lia).
  assert (Ei : forall b, iblock V2 x1 b = iblock V1 x1 b) by (intros b; subst V2; now apply (data_iblock sb V1 x1 (flen c))).
  split; [split|split].
  - now rewrite El.
  - rewrite El. apply list_eq. intros i. destruct (decide (Z.of_nat i < flen c + flen bytes)) as [Hi|Hi].
    2: { rewrite !lookup_ge_None_2; [done|unfold flen in *; rewrite length_app; lia|rewrite length_fbytes; lia]. }
    rewrite <- (Nat2Z.id i), fbytes_lookup by lia. rewrite Z.add_0_l. pose proof (ed_bytes _ _ _ _ _ _ _ _ ED (Z.of_nat i)) as Eb. fold (flen bytes) in Eb. rewrite Eb by lia.
    destruct (Z.leb_spec (flen c) (Z.of_nat i)), (Z.ltb_spec (Z.of_nat i) (flen c + flen bytes)); cbn [andb]; try lia.
    + rewrite lookup_app_r by (unfold flen in *; lia). rewrite Nat2Z.id. symmetry. rewrite list_lookup_lookup_total_lt by (unfold flen in *; lia).
      do 2 f_equal. unfold flen. lia.
    + rewrite lookup_app_l by (unfold flen in *; lia). transitivity (fbytes V x 0 (flen c) !! Z.to_nat (Z.of_nat i)); [now rewrite fbytes_lookup by lia|now rewrite B].
  - intros b Hbb Hl. rewrite El in Hl. rewrite Ei, (gr_map _ _ _ _ _ _ G) by (done || (left; unfold bn; change BSIZE with 1024 in *; zdiv)).
    apply E; [done|lia].
  - intros Hl. rewrite El in Hl. rewrite Hind by (unfold bn; change BSIZE with 1024 in *; unfold NDIRECT in *; zdiv). apply I. lia.
  - rewrite El. intros i Hi. unfold fbyte. rewrite Ei. replace (i / BSIZE) with bn by (unfold bn; change BSIZE with 1024 in *; zdiv). fold a.
    subst V2. rewrite upd_eq, list_lookup_total_alt, lookup_list_put by (rewrite (tr_len _ _ T1); unfold flen in *; zdiv).
    rewrite decide_False by (unfold flen in *; change BSIZE with 1024 in *; zdiv). rewrite <- list_lookup_total_alt.
    destruct (decide (iblock V x bn = 0)) as [H1|H1].
    + rewrite Hzero by done. unfold zero_block. apply list_lookup_total_correct, lookup_replicate_2. change BSIZE with 1024 in *. change (Z.to_nat 1024) with 1024%nat. zdiv.
    + assert (Hz : flen c mod BSIZE <> 0) by (intros Hz; apply H1, E; [done|unfold bn; change BSIZE with 1024 in *; zdiv]).
      assert (Et : fbyte V x i = 0) by (apply Tl; change BSIZE with 1024 in *; zdiv). unfold fbyte in Et.
      replace (i / BSIZE) with bn in Et by (unfold bn; change BSIZE with 1024 in *; zdiv).
      destruct (mo_block _ _ _ _ M bn Hb H1) as (B1 & _ & B3). unfold a. rewrite (gr_map _ _ _ _ _ _ G bn Hb) by now right.
      rewrite (gr_data _ _ _ _ _ _ G) by done. exact Et.
  - apply (own_fresh V s V2 s2 x x1 T T2); [lia|apply ED|exact O|]. intros n Hn Hz. now apply (owned_block V2 x1 _ n MD).
  - apply ED.
  - apply ED.
Qed.

Lemma appended_trans V x V1 x1 V2 x2 :
  (forall n, block_ok sb V n -> block_ok sb V1 n) -> appended V x V1 x1 -> appended V1 x1 V2 x2 -> appended V x V2 x2.
Proof.
  intros Hok [A1 A2] [B1 B2]. split.
  - intros n Hn Ho. rewrite <- A1 by done. apply B1; [auto|]. intros H. apply Ho. auto.
  - auto.
Qed.

Lemma tracks_mono V s V' s' n : tracks V s -> tracks V' s' -> m_freeblock s <= m_freeblock s' -> block_ok sb V n -> block_ok sb V' n.
Proof. intros T T' Hf Hn. apply (tr_block V s T) in Hn. apply (tr_block V' s' T'). lia. Qed.

Lemma wp_iappend_loop fuel inum V s di c p Q :
  tracks V s -> body_ok V (inode_of inum di) c -> (length p < fuel)%nat -> flen (c ++ p) <= MAXFILE * BSIZE ->
  m_freeblock s + blocks (flen (c ++ p)) - blocks (flen c) <= FSSIZE ->
  (forall V' di' s', tracks V' s' -> body_ok V' (inode_of inum di') (c ++ p) -> appended V (inode_of inum di) V' (inode_of inum di') ->
     (exists ad, inode_of inum di' = set_i_addrs ad (inode_of inum di)) ->
     m_freeblock s' = m_freeblock s + blocks (flen (c ++ p)) - blocks (flen c) -> m_freeinode s' = m_freeinode s -> Q (di', flen (c ++ p)) s') ->
  wp (iappend_loop fuel di (flen c) p) Q s.
Proof.
  revert V s di c p. induction fuel as [|fuel IH]; intros V s di c p T BD Hfuel Hmax Hfb HQ; [lia|]. cbn [iappend_loop].
  destruct (Nat.eqb_spec (length p) 0) as [Hp|Hp].
  { apply nil_length_inv in Hp as ->. rewrite app_nil_r in *. apply wp_ret. apply (HQ V di s); [done|done|split; auto|exists (d_addrs di); done|lia|done]. }
  assert (H0 : 0 <= flen c) by (unfold flen; lia). assert (Hlen : flen (c ++ p) = flen c + flen p) by (unfold flen; rewrite length_app; lia). rewrite Hlen in Hmax, Hfb.
  assert (Hpp : 0 < flen p) by (unfold flen; lia).
  set (bn := flen c / BSIZE). assert (Hb : blockno_ok bn) by (unfold blockno_ok, bn; change MAXFILE with 268 in *; change BSIZE with 1024 in *; zdiv).
  rewrite (proj2 (Z.ltb_lt bn MAXFILE)) by apply Hb. cbn [negb]. change (Z.of_nat (length p)) with (flen p). set (n1 := Z.min (flen p) ((bn + 1) * BSIZE - flen c)).
  assert (Hn1 : 0 < n1 <= flen p /\ flen c + n1 <= (bn + 1) * BSIZE /\ flen c mod BSIZE + n1 <= BSIZE /\ flen c - bn * BSIZE = flen c mod BSIZE)
    by (unfold n1, bn; change BSIZE with 1024; zdiv).
  destruct Hn1 as (Hn1 & Hfit & Hfit' & Emod). pose proof (taken_eq V _ c n1 BD ltac:(lia) Hfit ltac:(lia)) as Et. fold bn in Et.
  set (bytes := take (Z.to_nat n1) p) in *. assert (Hbytes : flen bytes = n1) by (unfold flen, bytes in *; rewrite length_take; lia).
  assert (Hrest : blocks (flen c + n1) <= blocks (flen c + flen p)).
  { apply blocks_mono. lia. }
  apply wp_bind. apply (wp_iappend_block inum (flen c) V s di bn _ T (bd_map _ _ _ BD) Hb); [lia|]. cbv zeta. intros V1 di1 s1 T1 G M1 Ha Hind Hzero F1 I1.
  destruct (mo_block _ _ _ _ M1 bn Hb Ha) as (Ba & _ & _). pose proof (proj1 (tr_block V1 s1 T1 _) Ba) as (Ra & Na & _). pose proof (tr_fb _ _ T1) as Hf1.
  apply (wp_rsect V1 s1 T1); [lia|done|]. rewrite Emod. apply wp_bind. apply (wp_wsect V1 s1 T1); [lia|done| |].
  { rewrite length_list_put; [apply T1|]. rewrite (tr_len _ _ T1). unfold bytes. rewrite length_take. unfold flen in *. change BSIZE with 1024 in *. change (Z.to_nat 1024) with 1024%nat. zdiv. }
  intros s2 T2 F2 I2.
  assert (Htk : 0 <= taken_blocks V (inode_of inum di) bn) by (unfold taken_blocks; repeat case_match; lia).
  destruct (body_step V s _ c V1 s1 _ _ s2 bytes T BD T1 G M1 Ha Hind Hzero ltac:(lia) F2 eq_refl T2 ltac:(lia) ltac:(lia) ltac:(lia)) as [BD2 AP2].
  assert (E2 : flen c + n1 = flen (c ++ bytes)) by (unfold flen; rewrite length_app; fold (flen bytes); unfold flen in *; lia).
  assert (Ep : (c ++ bytes) ++ drop (Z.to_nat n1) p = c ++ p) by (rewrite <- app_assoc; unfold bytes; now rewrite take_drop).
  change MAXFILE with 268 in *. change BSIZE with 1024 in Hmax. rewrite u32_small by lia. rewrite E2.
  apply (IH _ s2 di1 (c ++ bytes) (drop (Z.to_nat n1) p) T2 BD2); rewrite ?Ep, ?Hlen.
  - rewrite length_drop. unfold flen in *. lia.
  - change MAXFILE with 268. change BSIZE with 1024. lia.
  - rewrite <- E2. lia.
  - intros V' di' s' T' BD' AP' [ad' Ead'] F' I'. rewrite <- Hlen. apply (HQ V' di' s'); try done.
    + apply (appended_trans V _ _ (inode_of inum di1)) with (2 := AP2); [|done]. intros n. apply (tracks_mono V s _ s2 n T T2). lia.
    + destruct (gr_fields _ _ _ _ _ _ G) as [ad Ead]. exists ad'. rewrite Ead', Ead. done.
    + rewrite Hlen. rewrite <- E2 in F'. lia.
    + congruence.
Qed.

(** ** The whole image *)

Definition disk_inode (V : Z -> list Z) (j : Z) : dinode := get_dinode (V (IBLOCK j sb)) j.
Definition xof (V : Z -> list Z) (j : Z) : inode := inode_of j (disk_inode V j).

(** Inode [j] is a file of type [ty] with the bytes [c]. *)
Record file_ok (V : Z -> list Z) (j ty : Z) (c : list Z) : Prop := {
  fl_body : body_ok V (xof V j) c;
  fl_dinode : exists ad, disk_inode V j = mk_dinode ty 0 0 1 (flen c) ad }.

Definition files := Z -> option (Z * list Z).

Record image_ok (fs : files) (V : Z -> list Z) (s : mkfs) : Prop := {
  im_tracks : tracks V s;
  im_sb : V 1 = list_put zero_block 0 (encode_superblock sb);
  im_ino : 1 <= m_freeinode s <= NINODES + 1;
  im_dom : forall j, is_Some (fs j) -> 1 <= j < m_freeinode s;
  im_file : forall j ty c, fs j = Some (ty, c) -> file_ok V j ty c;
  im_disj : forall i j, i <> j -> is_Some (fs i) -> is_Some (fs j) -> forall n, n <> 0 -> owned V (xof V i) n -> ~ owned V (xof V j) n }.

(** A file whose blocks did not change. *)
Lemma body_frame V V' x c :
  body_ok V x c -> (forall n, owned V x n -> n <> 0 -> V' n = V n) -> (forall n, block_ok sb V n -> block_ok sb V' n) ->
  body_ok V' x c /\ forall n, owned V' x n <-> owned V x n.
Proof.
  intros [M B E I Tl O] Hsame Hok. assert (Hi : forall bn, iblock V' x bn = iblock V x bn).
  { intros bn. unfold iblock. destruct (_ <? _); [done|]. destruct (Z.eqb_spec (i_ind x) 0); [done|]. rewrite Hsame; [done|now left|done]. }
  assert (Hown : forall n, owned V' x n <-> owned V x n) by (intros n; unfold owned; setoid_rewrite Hi; done).
  assert (Hby : forall i, 0 <= i -> i / BSIZE < MAXFILE -> iblock V x (i / BSIZE) <> 0 -> fbyte V' x i = fbyte V x i).
  { intros i Hi0 Hi1 Hi2. unfold fbyte. rewrite Hi, Hsame; [done| |done]. right. exists (i / BSIZE). split; [|done]. unfold blockno_ok. change BSIZE with 1024 in *. zdiv. }
  pose proof (mo_len _ _ _ _ M) as Hl. change MAXFILE with 268 in *. pose proof (mo_full _ _ _ _ M) as Hf. change BSIZE with 1024 in *.
  split; [|done]. split; [| |intros bn Hb; rewrite Hi; auto|done| |intros n; rewrite Hown; auto].
  - destruct M as [M1 M2 M3 M4 M5 M6 M7]. split; try done; [auto|intros H; destruct (M3 H); auto|..].
    + intros bn Hb. rewrite Hi. intros Hn. destruct (M4 bn Hb Hn) as (? & ? & ?). auto.
    + intros b1 b2 H1 H2. rewrite !Hi. auto.
    + intros bn H1 H2. rewrite Hi. auto.
  - transitivity (fbytes V x 0 (flen c)); [|exact B]. unfold fbytes. apply map_ext_in. intros i Hin. apply list_elem_of_In, elem_of_seqZ in Hin.
    assert (H0 : 0 <= flen c) by (unfold flen; lia). apply Hby; [lia|zdiv|]. apply Hf; zdiv.
  - intros i Hin. change BSIZE with 1024 in *. assert (H0 : 0 <= flen c) by (unfold flen; lia). rewrite Hby; [auto|lia|zdiv|]. apply Hf; zdiv.
Qed.

Lemma IBLOCK_same i j : 0 <= i <= NINODES -> 0 <= j <= NINODES -> i <> j -> IBLOCK i sb = IBLOCK j sb -> i mod IPB <> j mod IPB.
Proof.
  intros Hi Hj Hne. change NINODES with 200 in *. rewrite sb_eq. unfold IBLOCK. cbn [sb_inodestart]. change IPB with 16.
  rewrite !u32_small by zdiv. zdiv.
Qed.

(** [winode]: the slot of one inode in its block. *)
Lemma wp_winode V s inum di (Q : unit -> mkfs -> Prop) :
  tracks V s -> 0 <= inum <= NINODES -> dinode_ok di ->
  (forall s', let V' := upd V (IBLOCK inum sb) (put_dinode (V (IBLOCK inum sb)) inum di) in
     tracks V' s' -> disk_inode V' inum = di -> (forall j, 0 <= j <= NINODES -> j <> inum -> disk_inode V' j = disk_inode V j) ->
     m_freeblock s' = m_freeblock s -> m_freeinode s' = m_freeinode s -> Q tt s') ->
  wp (winode inum di) Q s.
Proof.
  intros T Hin Hdi HQ. pose proof (IBLOCK_sb inum Hin) as Hb. pose proof (tr_fb _ _ T) as Hf. change nmeta with 46 in Hf.
  unfold winode. apply (wp_rsect V s T); [change FSSIZE with 1000; lia|lia|]. pose proof (tr_len _ _ T (IBLOCK inum sb)) as Hl.
  apply (wp_wsect V s T); [lia|lia| |].
  { unfold put_dinode. rewrite length_list_put; [done|]. rewrite length_encode_dinode by done. now apply dinode_off_bound. }
  intros s' T' F' I'. apply HQ; [done| | |done|done].
  - unfold disk_inode. rewrite upd_eq. now apply get_put_dinode.
  - intros j Hj Hne. unfold disk_inode, upd. case_decide as E; [|done]. rewrite get_put_dinode_ne; [now rewrite E|done|done|]. now apply IBLOCK_same.
Qed.

Lemma wp_rinode {B} V s inum (cont : dinode -> F B) Q :
  tracks V s -> 0 <= inum <= NINODES -> wp (cont (disk_inode V inum)) Q s -> wp (let* di := rinode inum in cont di) Q s.
Proof.
  intros T Hin H. pose proof (IBLOCK_sb inum Hin) as Hb. apply wp_bind. unfold rinode. apply (wp_rsect V s T); [change FSSIZE with 1000; lia|lia|].
  now apply wp_ret.
Qed.

Definition set_file (j ty : Z) (c : list Z) (fs : files) : files := fun i => if i =? j then Some (ty, c) else fs i.

(** Changing one file; [own] are the blocks it had. *)
Lemma image_update fs V s V' s' inum ty c (own : Z -> Prop) :
  image_ok fs V s -> tracks V' s' -> m_freeblock s <= m_freeblock s' -> V' 1 = V 1 ->
  m_freeinode s <= m_freeinode s' <= NINODES + 1 -> 1 <= inum < m_freeinode s' -> file_ok V' inum ty c ->
  (forall j, 0 <= j <= NINODES -> j <> inum -> disk_inode V' j = disk_inode V j) ->
  (forall n, nmeta <= n -> block_ok sb V n -> ~ own n -> V' n = V n) ->
  (forall n, n <> 0 -> block_ok sb V n -> owned V' (xof V' inum) n -> own n) ->
  (forall j n, j <> inum -> is_Some (fs j) -> n <> 0 -> owned V (xof V j) n -> ~ own n) ->
  image_ok (set_file inum ty c fs) V' s'.
Proof.
  intros [I1 I2 I3 I4 I5 I6] T' Hfb E1 Hino Hin Hfile Hdis Hsame Hown Hsep.
  assert (Hx : forall j, j <> inum -> is_Some (fs j) -> xof V' j = xof V j).
  { intros j Hj Hs. unfold xof. rewrite Hdis; [done| |done]. specialize (I4 j Hs). lia. }
  assert (Hkeep : forall j ty' c', j <> inum -> fs j = Some (ty', c') -> body_ok V' (xof V j) c' /\ forall n, owned V' (xof V j) n <-> owned V (xof V j) n).
  { intros j ty' c' Hj Hs. destruct (I5 j ty' c' Hs) as [B _]. apply (body_frame V V' _ c' B).
    - intros n Hn Hz. apply Hsame; [now apply (bd_own _ _ _ B)|now apply (owned_block V _ _ n (bd_map _ _ _ B))|]. apply (Hsep j); eauto.
    - intros n. now apply (tracks_mono V s V' s'). }
  assert (Hother : forall j n, j <> inum -> is_Some (fs j) -> n <> 0 -> owned V' (xof V' j) n -> ~ owned V' (xof V' inum) n).
  { intros j n Hj [[ty' c'] Hs] Hz Hn Hi. rewrite Hx in Hn by eauto. destruct (Hkeep j ty' c' Hj Hs) as [_ Ho]. apply Ho in Hn.
    apply (Hsep j n Hj ltac:(eauto) Hz Hn). apply Hown; [done| |done]. destruct (I5 j ty' c' Hs) as [B _]. exact (owned_block V _ _ n (bd_map _ _ _ B) Hn Hz). }
  split; [done|congruence|lia|..].
  - intros j. unfold set_file. destruct (Z.eqb_spec j inum) as [->|]; [done|]. intros Hs. specialize (I4 j Hs). lia.
  - intros j ty' c'. unfold set_file. destruct (Z.eqb_spec j inum) as [->|Hj]; [intros [= <- <-]; done|]. intros Hs.
    assert (Hs' : is_Some (fs j)) by eauto. destruct (Hkeep j ty' c' Hj Hs) as [B' _]. destruct (I5 j ty' c' Hs) as [_ Ed].
    split; [now rewrite Hx|]. rewrite Hdis; [done| |done]. specialize (I4 j Hs'). lia.
  - intros i j Hij. unfold set_file. destruct (Z.eqb_spec i inum) as [->|Hi], (Z.eqb_spec j inum) as [->|Hj]; try done.
    + intros _ Hs n Hz Hn Hn'. now apply (Hother j n).
    + intros Hs _ n Hz Hn. now apply (Hother i n).
    + intros Hs1 Hs2 n Hz. rewrite !Hx by done. destruct Hs1 as [[t1 c1] Hs1], Hs2 as [[t2 c2] Hs2].
      rewrite (proj2 (Hkeep i t1 c1 Hi Hs1)), (proj2 (Hkeep j t2 c2 Hj Hs2)). apply I6; eauto.
Qed.

Lemma body_set_size V inum di sz c : body_ok V (inode_of inum di) c -> 0 <= sz < 2 ^ 32 -> body_ok V (inode_of inum (set_d_size sz di)) c.
Proof.
  intros [M B E I Tl O] Hs. split; try done. change (inode_of inum (set_d_size sz di)) with (set_i_size sz (inode_of inum di)). now apply map_ok_size.
Qed.

Lemma wp_iappend fs V s inum ty c p (Q : unit -> mkfs -> Prop) :
  image_ok fs V s -> fs inum = Some (ty, c) -> flen (c ++ p) <= MAXFILE * BSIZE ->
  m_freeblock s + blocks (flen (c ++ p)) - blocks (flen c) <= FSSIZE ->
  (forall V' s', image_ok (set_file inum ty (c ++ p) fs) V' s' -> m_freeblock s' = m_freeblock s + blocks (flen (c ++ p)) - blocks (flen c) ->
     m_freeinode s' = m_freeinode s -> Q tt s') -> wp (iappend inum p) Q s.
Proof.
  intros Him Hf Hmax Hfb HQ. pose proof Him as [T I2 I3 I4 I5 I6]. destruct (I5 inum ty c Hf) as [BD [ad Ed]]. pose proof (I4 inum ltac:(eauto)) as Hin.
  assert (Hmax31 : MAXFILE * BSIZE < 2 ^ 31) by done. assert (H0 : 0 <= flen c <= flen (c ++ p)) by (unfold flen; rewrite length_app; lia).
  unfold iappend. apply (wp_rinode V s inum _ _ T); [lia|]. rewrite Ed at 2. cbn [d_size]. rewrite xint_id by lia. apply wp_bind.
  apply (wp_iappend_loop (S (length p)) inum V s (disk_inode V inum) c p); [done|exact BD|lia|done|done|].
  intros V1 di1 s1 T1 BD1 AP [ad1 Ead] F1 N1. set (di2 := set_d_size (xint (flen (c ++ p))) di1).
  assert (BD2 : body_ok V1 (inode_of inum di2) (c ++ p)) by (apply body_set_size; [done|rewrite xint_id by lia; lia]).
  assert (Edi2 : di2 = mk_dinode ty 0 0 1 (flen (c ++ p)) (d_addrs di1)).
  { unfold di2. rewrite xint_id by lia. rewrite Ed in Ead.
    pose proof (f_equal i_type Ead) as E1. pose proof (f_equal i_major Ead) as E2. pose proof (f_equal i_minor Ead) as E3. pose proof (f_equal i_nlink Ead) as E4.
    cbn in E1, E2, E3, E4. unfold set_d_size. now rewrite E1, E2, E3, E4. }
  pose proof (tr_fb _ _ T) as Hfbr. change nmeta with 46 in Hfbr.
  assert (Hge : m_freeblock s <= m_freeblock s1).
  { rewrite F1. pose proof (blocks_mono _ _ H0). lia. }
  apply (wp_winode V1 s1); [done|lia|apply (mo_dinode _ _ _ _ (bd_map _ _ _ BD2))|]. cbv zeta. intros s2 T2 E2 Eo F2 N2.
  set (V2 := upd V1 (IBLOCK inum sb) (put_dinode (V1 (IBLOCK inum sb)) inum di2)) in *. pose proof (IBLOCK_sb inum ltac:(lia)) as Hhome.
  assert (Hlow : forall n, 0 < n < 45 /\ ~ 2 <= n < 32 -> V1 n = V n).
  { intros n Hn. apply (ap_other _ _ _ _ AP); [apply (tr_block V s T); lia|]. intros Ho. pose proof (bd_own _ _ _ BD n Ho ltac:(lia)) as H. change nmeta with 46 in H. lia. }
  destruct (body_frame V1 V2 (inode_of inum di2) (c ++ p) BD2) as [BD3 Hown3].
  { intros n Hn Hz. apply upd_ne. pose proof (bd_own _ _ _ BD2 n Hn Hz) as H. change nmeta with 46 in H. lia. }
  { intros n. apply (tracks_mono V1 s1 V2 s2); [done|done|lia]. }
  apply (HQ V2 s2); [|lia|congruence].
  apply (image_update fs V s V2 s2 inum ty (c ++ p) (owned V (xof V inum)) Him T2); [lia| |lia|lia|..].
  - unfold V2. rewrite upd_ne by lia. apply Hlow. lia.
  - split; [unfold xof; now rewrite E2|]. rewrite E2, Edi2. eauto.
  - intros j Hj Hne. rewrite Eo by done. unfold disk_inode. pose proof (IBLOCK_sb j Hj). now rewrite Hlow by lia.
  - intros n Hn Hb Ho. change nmeta with 46 in Hn. unfold V2. rewrite upd_ne by lia. now apply (ap_other _ _ _ _ AP).
  - intros n Hz Hb Ho. unfold xof in Ho. rewrite E2 in Ho. apply Hown3 in Ho. now apply (ap_own _ _ _ _ AP).
  - intros j n Hj Hs Hz Hn Hi. apply (I6 j inum Hj Hs ltac:(eauto) n Hz Hn Hi).
Qed.

Lemma image_ext fs fs' V s : (forall j, fs j = fs' j) -> image_ok fs V s -> image_ok fs' V s.
Proof.
  intros E [I1 I2 I3 I4 I5 I6]. split; try done.
  - intros j. rewrite <- E. exact (I4 j).
  - intros j ty c. rewrite <- E. exact (I5 j ty c).
  - intros i j Hij. rewrite <- !E. exact (I6 i j Hij).
Qed.

Definition empty_dinode (ty : Z) : dinode := mk_dinode ty 0 0 1 0 (replicate (NDIRECT + 1) 0).

Lemma zero_addr i : (i < NDIRECT + 1)%nat -> replicate (NDIRECT + 1) 0 !!! i = 0.
Proof. intros Hi. apply list_lookup_total_correct, lookup_replicate_2, Hi. Qed.

Lemma empty_map V inum ty : i_ind (inode_of inum (empty_dinode ty)) = 0 /\ forall bn, iblock V (inode_of inum (empty_dinode ty)) bn = 0.
Proof.
  assert (Hi : i_ind (inode_of inum (empty_dinode ty)) = 0) by (apply zero_addr; unfold NDIRECT; lia). split; [done|].
  intros bn. unfold iblock. rewrite Hi. destruct (Z.ltb_spec bn (Z.of_nat NDIRECT)); [apply zero_addr; lia|done].
Qed.

Lemma empty_body V s inum ty : tracks V s -> 0 <= inum <= NINODES -> - 2 ^ 15 <= ty < 2 ^ 15 -> body_ok V (inode_of inum (empty_dinode ty)) [].
Proof.
  intros T Hin Hty. set (x := inode_of inum (empty_dinode ty)).
  destruct (empty_map V inum ty) as [Hi Hb]. fold x in Hi, Hb.
  assert (Ho : forall n, owned V x n -> n = 0) by (intros n [->|(bn & _ & <-)]; auto).
  split; [|done|auto|auto| |intros n Hn Hz; now destruct Hz; apply Ho].
  - split; [|..].
    + split; cbn; try lia. repeat constructor; lia.
    + unfold home. apply (tr_block V s T). pose proof (IBLOCK_sb inum Hin). pose proof (tr_fb _ _ T). change nmeta with 46 in *. cbn [x inode_of i_inum]. lia.
    + done.
    + intros bn _ Hn. now destruct Hn.
    + intros b1 b2 _ _ Hn. now destruct Hn.
    + intros bn Hn Hl. unfold flen in Hl. cbn in Hl. change BSIZE with 1024 in Hl. lia.
    + vm_compute. split; discriminate.
  - intros i Hlt. unfold flen in Hlt. change (_ / BSIZE) with 0 in Hlt. cbn in Hlt. lia.
Qed.

Lemma wp_ialloc {B} fs V s ty (cont : Z -> F B) Q :
  image_ok fs V s -> m_freeinode s <= NINODES -> 0 <= ty < 2 ^ 15 ->
  (forall V' s', image_ok (set_file (m_freeinode s) ty [] fs) V' s' -> m_freeblock s' = m_freeblock s -> m_freeinode s' = m_freeinode s + 1 ->
     wp (cont (m_freeinode s)) Q s') -> wp (let* i := ialloc ty in cont i) Q s.
Proof.
  intros Him Hle Hty HQ. pose proof Him as [T I2 I3 I4 I5 I6]. change NINODES with 200 in *. apply wp_bind. unfold ialloc. apply wp_bind, wp_gets, wp_bind, wp_modify.
  rewrite u32_small, (xshort_id ty), (xshort_id 1), (xint_id 0) by lia. fold (empty_dinode ty). set (inum := m_freeinode s) in *.
  assert (T0 : tracks V (set_m_freeinode (inum + 1) s)) by (destruct T; split; done).
  pose proof (empty_body V _ inum ty T0 ltac:(change NINODES with 200; lia) ltac:(lia)) as BD.
  apply wp_bind. apply (wp_winode V (set_m_freeinode (inum + 1) s)); [done|change NINODES with 200; lia|exact (mo_dinode _ _ _ _ (bd_map _ _ _ BD))|].
  cbv zeta. intros s2 T2 E2 Eo F2 N2. set (V2 := upd V (IBLOCK inum sb) _) in *. apply wp_ret. cbn in F2, N2.
  pose proof (IBLOCK_sb inum ltac:(change NINODES with 200; lia)) as Hhome.
  apply (HQ V2 s2); [|done|done]. apply (image_update fs V s V2 s2 inum ty [] (fun _ => False) Him T2); change NINODES with 200; [lia| |lia|lia|..].
  - unfold V2. now rewrite upd_ne by lia.
  - split; [unfold xof; rewrite E2; apply (empty_body V2 s2); [done|change NINODES with 200; lia|lia]|]. rewrite E2. eexists. reflexivity.
  - exact Eo.
  - intros n Hn _ _. change nmeta with 46 in Hn. unfold V2. now rewrite upd_ne by lia.
  - intros n Hz _ Ho. unfold xof in Ho. rewrite E2 in Ho. destruct Hz. destruct Ho as [->|(bn & _ & <-)].
    + apply empty_map, V2.
    + apply empty_map.
  - auto.
Qed.

(** Reading a file in pieces and appending them. *)
Lemma wp_chunks fs V s inum ty c chunks (Q : unit -> mkfs -> Prop) :
  image_ok fs V s -> fs inum = Some (ty, c) -> flen (c ++ concat chunks) <= MAXFILE * BSIZE ->
  m_freeblock s + blocks (flen (c ++ concat chunks)) - blocks (flen c) <= FSSIZE ->
  (forall V' s', image_ok (set_file inum ty (c ++ concat chunks) fs) V' s' ->
     m_freeblock s' = m_freeblock s + blocks (flen (c ++ concat chunks)) - blocks (flen c) -> m_freeinode s' = m_freeinode s -> Q tt s') ->
  wp (for_each chunks (iappend inum)) Q s.
Proof.
  revert fs V s c. induction chunks as [|p chunks IH]; intros fs V s c Him Hf Hmax Hfb HQ; cbn [concat for_each] in *.
  - rewrite app_nil_r in *. apply wp_ret. apply (HQ V s); [|lia|done]. apply (image_ext fs); [|done]. intros j. unfold set_file. destruct (Z.eqb_spec j inum) as [->|]; done.
  - rewrite app_assoc in *. assert (Hb : blocks (flen (c ++ p)) <= blocks (flen ((c ++ p) ++ concat chunks)) /\ flen (c ++ p) <= flen ((c ++ p) ++ concat chunks)).
    { assert (H : 0 <= flen (c ++ p) <= flen ((c ++ p) ++ concat chunks)) by (unfold flen; rewrite (length_app (c ++ p)); lia). split; [now apply blocks_mono|lia]. }
    apply wp_bind. apply (wp_iappend fs V s inum ty c p _ Him Hf); [lia|lia|]. intros V1 s1 Him1 F1 N1.
    apply (IH _ V1 s1 (c ++ p) Him1); [unfold set_file; now rewrite Z.eqb_refl|lia|lia|]. intros V2 s2 Him2 F2 N2. apply (HQ V2 s2); [|lia|congruence].
    apply (image_ext _ _ V2 s2) with (2 := Him2). intros j. unfold set_file. now destruct (j =? inum).
Qed.

(** ** main *)

(** A file to copy: its name on the command line and the pieces [read] returns. *)
Notation source := (list Z * list (list Z))%type.
Definition input (a : source) : list Z * option (list (list Z)) := (fst a, Some (snd a)).

Definition content (a : source) : list Z := concat (snd a).
Definition entry_name (a : source) : list Z := strncpy (list_bytes (base_name (short_name (fst a)))) DIRSIZ.
Definition root_bytes (args : list source) : list Z :=
  dirent ROOTINO dot ++ dirent ROOTINO dotdot ++ concat (imap (fun i a => dirent (Z.of_nat i + 2) (entry_name a)) args).
Definition tree (args : list source) : files := fun j =>
  if j =? ROOTINO then Some (T_DIR, root_bytes args)
  else if j <? 2 then None
  else match args !! Z.to_nat (j - 2) with Some a => Some (T_FILE, content a) | None => None end.
(** The data blocks the image needs. *)
Definition files_cost (args : list source) : Z := foldr (fun a n => blocks (flen (content a)) + n) 0 args.
Definition cost (args : list source) : Z := blocks (flen (root_bytes args)) + files_cost args.

Lemma files_cost_app l1 l2 : files_cost (l1 ++ l2) = files_cost l1 + files_cost l2.
Proof. induction l1 as [|a l1 IH]; cbn [app files_cost foldr] in *; unfold files_cost in *; lia. Qed.

Lemma blocks_nonneg n : 0 <= n -> 0 <= blocks n.
Proof. intros H. unfold blocks. change BSIZE with 1024. destruct (_ <? _); zdiv. Qed.

Lemma files_cost_nonneg l : 0 <= files_cost l.
Proof. induction l as [|a l IH]; [done|]. cbn. pose proof (blocks_nonneg (flen (content a)) ltac:(unfold flen; lia)). unfold files_cost in IH. lia. Qed.

Lemma root_bytes_snoc l a : root_bytes (l ++ [a]) = root_bytes l ++ dirent (Z.of_nat (length l) + 2) (entry_name a).
Proof. unfold root_bytes. rewrite imap_app, concat_app, <- !app_assoc. cbn [imap concat]. now rewrite app_nil_r, Nat.add_0_r. Qed.

Lemma length_root_bytes l : flen (root_bytes l) = 16 * (Z.of_nat (length l) + 2).
Proof.
  induction l as [|a l IH] using rev_ind; [done|]. rewrite root_bytes_snoc. unfold flen in *. rewrite !length_app. unfold dirent, entry_name.
  rewrite length_app, length_le_bytes, length_strncpy. cbn [length]. unfold DIRSIZ. lia.
Qed.

Lemma cost_prefix l1 l2 : cost l1 <= cost (l1 ++ l2).
Proof.
  unfold cost. rewrite files_cost_app. pose proof (files_cost_nonneg l2). pose proof (blocks_mono (flen (root_bytes l1)) (flen (root_bytes (l1 ++ l2)))) as Hm.
  rewrite !length_root_bytes, length_app in *. lia.
Qed.

(** The image of the files [l]. *)
Definition built (l : list source) (s : mkfs) : Prop :=
  exists V, image_ok (tree l) V s /\ m_freeblock s = nmeta + cost l /\ m_freeinode s = Z.of_nat (length l) + 2.

Lemma wp_add_file l a s :
  built l s -> Z.of_nat (length l) + 2 <= NINODES -> slash ∉ short_name (fst a) -> flen (content a) <= MAXFILE * BSIZE -> nmeta + cost (l ++ [a]) <= FSSIZE ->
  wp (add_file (input a)) (fun _ s' => built (l ++ [a]) s') s.
Proof.
  intros (V & Him & Hfb & Hino) Hn Hslash Hmax Hc. change NINODES with 200 in Hn. unfold add_file, input. rewrite bool_decide_false by done.
  unfold cost in Hc. rewrite root_bytes_snoc, files_cost_app in Hc. cbn [files_cost foldr] in Hc. fold (content a) in *.
  set (de := dirent (Z.of_nat (length l) + 2) (entry_name a)) in *.
  assert (Hroot : flen (root_bytes l ++ de) <= MAXFILE * BSIZE /\ blocks (flen (root_bytes l)) <= blocks (flen (root_bytes l ++ de))).
  { unfold de. rewrite <- root_bytes_snoc, !length_root_bytes, length_app. cbn [length]. change MAXFILE with 268. change BSIZE with 1024. split; [lia|apply blocks_mono; lia]. }
  pose proof (blocks_nonneg (flen (content a)) ltac:(unfold flen; lia)). unfold cost in Hfb.
  apply (wp_ialloc (tree l) V s); [done|change NINODES with 200; lia|unfold T_FILE; lia|]. intros V1 s1 Him1 F1 N1. rewrite Hino in *. set (inum := Z.of_nat (length l) + 2) in *.
  apply wp_bind. apply (wp_iappend _ V1 s1 ROOTINO T_DIR (root_bytes l) de _ Him1); [|lia|lia|].
  { unfold set_file, ROOTINO. destruct (Z.eqb_spec 1 inum); [unfold inum in *; lia|done]. }
  intros V2 s2 Him2 F2 N2. apply (wp_chunks _ V2 s2 inum T_FILE [] (snd a) _ Him2); cbn [app]; fold (content a).
  - unfold set_file, ROOTINO. destruct (Z.eqb_spec inum 1); [unfold inum in *; lia|]. now rewrite Z.eqb_refl.
  - done.
  - change (blocks (flen [])) with 0. lia.
  - change (blocks (flen [])) with 0. intros V3 s3 Him3 F3 N3. exists V3. split; [|split].
    + apply (image_ext _ _ V3 s3) with (2 := Him3). intros j. unfold set_file, tree, ROOTINO. rewrite root_bytes_snoc. fold inum. fold de.
      destruct (Z.eqb_spec j inum) as [->|Hj].
      * rewrite (proj2 (Z.eqb_neq inum 1)), (proj2 (Z.ltb_ge inum 2)) by (unfold inum; lia).
        replace (Z.to_nat (inum - 2)) with (length l) by (unfold inum; lia). now rewrite list_lookup_middle.
      * destruct (Z.eqb_spec j 1); [done|]. destruct (Z.ltb_spec j 2); [done|]. destruct (decide (j < inum)) as [Hlt|Hge].
        -- rewrite lookup_app_l by (unfold inum in *; lia). done.
        -- rewrite !lookup_ge_None_2; [done|rewrite length_app; cbn; unfold inum in *; lia|unfold inum in *; lia].
    + unfold cost. rewrite root_bytes_snoc, files_cost_app. cbn [files_cost foldr]. fold inum. fold de. lia.
    + rewrite length_app. cbn [length]. unfold inum in *. lia.
Qed.

Lemma wp_zero_fill s (Q : unit -> mkfs -> Prop) :
  (forall n, m_img s n = zero_block) -> m_nsect s = 0 ->
  (forall s', (forall n, m_img s' n = zero_block) -> m_nsect s' = FSSIZE -> m_freeinode s' = m_freeinode s -> m_freeblock s' = m_freeblock s -> Q tt s') ->
  wp (for_each (seqZ 0 FSSIZE) (fun i => wsect i zero_block)) Q s.
Proof.
  intros Hz Hn HQ. refine (wp_mono _ _ _ _ (wp_for_each (fun seen s' => (forall n, m_img s' n = zero_block) /\ m_nsect s' = flen seen /\
    m_freeinode s' = m_freeinode s /\ m_freeblock s' = m_freeblock s) (seqZ 0 FSSIZE) _ s _ _) _).
  - done.
  - intros seen i rest s1 El (Z1 & N1 & I1 & B1). apply wp_modify. cbn [m_img m_nsect m_freeinode m_freeblock].
    assert (Hi : i = flen seen /\ 0 <= i < FSSIZE).
    { assert (Hl : seqZ 0 FSSIZE !! length seen = Some i) by (rewrite El; now apply list_lookup_middle). apply lookup_seqZ in Hl as [-> Hl]. unfold flen. lia. }
    destruct Hi as [-> Hi]. rewrite sector_id by done. split; [intros n; unfold upd; now case_decide|]. split; [|done].
    rewrite N1. unfold flen in *. rewrite length_app. cbn [length]. lia.
  - intros [] s' (Z1 & N1 & I1 & B1). apply HQ; [done| |done|done]. rewrite N1. unfold flen. rewrite length_seqZ. done.
Qed.

Definition sb_block : list Z := list_put zero_block 0 (encode_superblock sb).
Definition fresh_view : Z -> list Z := upd (upd (fun _ => zero_block) 45 (mark_used nmeta)) 1 sb_block.

Lemma fresh_image s :
  (forall n, m_img s n = upd (fun _ => zero_block) 1 sb_block n) -> m_nsect s = FSSIZE -> m_freeinode s = 1 -> m_freeblock s = nmeta ->
  image_ok (fun _ => None) fresh_view s.
Proof.
  intros Hi Hn Hf Hb. split; try done.
  - unfold fresh_view. split; rewrite ?Hn, ?Hb; try done.
    + intros n Hne. rewrite Hi. unfold upd. repeat case_decide; done.
    + intros n Hr. change nmeta with 46 in Hr. rewrite !upd_ne by lia. done.
    + intros n. unfold upd. repeat case_decide; reflexivity.
  - rewrite Hf. change NINODES with 200. lia.
Qed.

(** Rounding up the size of the root directory, when its last block is not full. *)
Lemma body_round V x c sz :
  body_ok V x c -> sz = (flen c / BSIZE + 1) * BSIZE -> flen c mod BSIZE <> 0 ->
  map_ok sb V (set_i_size sz x) sz /\ fbytes V (set_i_size sz x) 0 sz = c ++ replicate (Z.to_nat (sz - flen c)) 0.
Proof.
  intros [M B E I Tl O] Hsz Hmod. assert (H0 : 0 <= flen c) by (unfold flen; lia). pose proof (mo_len _ _ _ _ M) as Hl.
  change MAXFILE with 268 in *. change BSIZE with 1024 in *. split.
  - assert (M' : map_ok sb V (set_i_size sz x) (flen c)) by (apply map_ok_size; [done|zdiv]). destruct M' as [M1 M2 M3 M4 M5 M6 M7]. split; try done.
    + intros bn H1 H2. apply M6; [done|]. change BSIZE with 1024 in *. zdiv.
    + change MAXFILE with 268. change BSIZE with 1024. zdiv.
  - change (fbytes V (set_i_size sz x) 0 sz) with (fbytes V x 0 sz). rewrite (fbytes_split V x 0 (flen c) sz) by zdiv. rewrite B. f_equal.
    apply list_eq. intros i. rewrite Z.add_0_l. destruct (decide (Z.of_nat i < sz - flen c)) as [Hi|Hi].
    + rewrite <- (Nat2Z.id i) at 1. rewrite fbytes_lookup, lookup_replicate_2 by lia. f_equal. apply Tl. zdiv.
    + rewrite !lookup_ge_None_2; [done|rewrite length_replicate; lia|rewrite length_fbytes; lia].
Qed.

(** Inode [j] of the image [V] is a file of type [ty] that reads as [c]. *)
Definition readable (V : Z -> list Z) (j ty : Z) (c : list Z) : Prop :=
  let x := xof V j in i_type x = ty /\ i_nlink x = 1 /\ i_size x = flen c /\ map_ok sb V x (i_size x) /\ fbytes V x 0 (i_size x) = c.

Lemma file_readable V j ty c : file_ok V j ty c -> readable V j ty c.
Proof.
  intros [B [ad E]]. unfold readable. assert (Es : i_size (xof V j) = flen c) by (unfold xof; now rewrite E).
  split; [unfold xof; now rewrite E|]. split; [unfold xof; now rewrite E|]. split; [done|]. rewrite Es. split; [apply B|apply B].
Qed.

Lemma decode_sb_block : decode_superblock sb_block = sb.
Proof. vm_compute. reflexivity. Qed.

(** What mkfs accepts: names without a slash, files that fit. *)
Definition acceptable (a : source) : Prop := slash ∉ short_name (fst a) /\ flen (content a) <= MAXFILE * BSIZE.

Lemma wp_add_files rest l s :
  built l s -> Z.of_nat (length (l ++ rest)) < NINODES -> Forall acceptable rest -> nmeta + cost (l ++ rest) <= FSSIZE ->
  wp (for_each (map input rest) add_file) (fun _ s' => built (l ++ rest) s') s.
Proof.
  revert l s. induction rest as [|a rest IH]; intros l s Hb Hn Ha Hc; cbn [map for_each].
  - rewrite app_nil_r. now apply wp_ret.
  - apply Forall_cons in Ha as [[Hs Hm] Ha]. pose proof (cost_prefix (l ++ [a]) rest) as Hp. rewrite <- app_assoc in Hp. cbn [app] in Hp.
    rewrite length_app in Hn. cbn [length] in Hn. apply wp_bind. refine (wp_mono _ _ _ _ (wp_add_file l a s Hb _ Hs Hm _) _); [lia|lia|].
    intros [] s' Hb'. replace (l ++ a :: rest) with ((l ++ [a]) ++ rest) in * by now rewrite <- app_assoc. apply IH; [done| |done|done].
    rewrite !length_app. cbn [length]. lia.
Qed.

(** The root directory with its two first entries. *)
Lemma wp_start {B} s (cont : Z -> F B) Q :
  image_ok (fun _ => None) fresh_view s -> m_freeinode s = 1 -> m_freeblock s = nmeta ->
  (forall s', built [] s' -> wp (cont ROOTINO) Q s') ->
  wp (let* rootino := ialloc T_DIR in
      if negb (rootino =? ROOTINO) then panic "assert" else
      iappend rootino (dirent rootino dot) ;;;
      iappend rootino (dirent rootino dotdot) ;;;
      cont rootino) Q s.
Proof.
  intros Him Hi Hb HQ. apply (wp_ialloc (fun _ => None) fresh_view s); [done|rewrite Hi; done|done|]. rewrite Hi. intros V1 s1 Him1 F1 N1. cbn [Z.eqb negb ROOTINO Pos.eqb].
  apply wp_bind. apply (wp_iappend _ V1 s1 1 T_DIR [] (dirent 1 dot) _ Him1); [done|vm_compute; discriminate|rewrite F1, Hb; vm_compute; discriminate|].
  intros V2 s2 Him2 F2 N2. apply wp_bind.
  apply (wp_iappend _ V2 s2 1 T_DIR (dirent 1 dot) (dirent 1 dotdot) _ Him2); [done|vm_compute; discriminate|rewrite F2, F1, Hb; vm_compute; discriminate|].
  intros V3 s3 Him3 F3 N3. apply HQ. exists V3. split; [|split].
  - apply (image_ext _ _ V3 s3) with (2 := Him3). intros j. unfold set_file, tree, ROOTINO, root_bytes. cbn [imap concat]. rewrite app_nil_r.
    destruct (j =? 1); [done|]. destruct (j <? 2); [done|]. now rewrite lookup_nil.
  - rewrite F3, F2, F1, Hb. reflexivity.
  - rewrite N3, N2, N1. reflexivity.
Qed.

(** The end of [main]: the rounded size of the root directory. *)
Lemma root_rounded args V s V' s' sz :
  let din := disk_inode V ROOTINO in let home := IBLOCK ROOTINO sb in
  image_ok (tree args) V s -> tracks V' s' -> m_freeblock s' = m_freeblock s -> V' = upd V home (put_dinode (V home) ROOTINO (set_d_size sz din)) ->
  disk_inode V' ROOTINO = set_d_size sz din -> (forall j, 0 <= j <= NINODES -> j <> ROOTINO -> disk_inode V' j = disk_inode V j) ->
  sz = (flen (root_bytes args) / BSIZE + 1) * BSIZE -> flen (root_bytes args) mod BSIZE <> 0 ->
  (forall i a, args !! i = Some a -> readable V' (Z.of_nat i + 2) T_FILE (content a)) /\
  readable V' ROOTINO T_DIR (root_bytes args ++ replicate (Z.to_nat (sz - flen (root_bytes args))) 0).
Proof.
  intros din home Him T' Hfb EV Er Eo Hsz Hmod. pose proof Him as [T I2 I3 I4 I5 I6]. pose proof (IBLOCK_sb ROOTINO ltac:(done)) as Hh. fold home in Hh.
  assert (Hkeep : forall j ty c, tree args j = Some (ty, c) -> body_ok V' (xof V j) c).
  { intros j ty c Hj. destruct (I5 j ty c Hj) as [B _]. apply (body_frame V V' _ c B).
    - intros n Hn Hz. subst V'. apply upd_ne. pose proof (bd_own _ _ _ B n Hn Hz) as H. change nmeta with 46 in H. lia.
    - intros n. apply (tracks_mono V s V' s'); [done|done|lia]. }
  split.
  - intros i a Ha. assert (Hj : tree args (Z.of_nat i + 2) = Some (T_FILE, content a)).
    { unfold tree, ROOTINO. rewrite (proj2 (Z.eqb_neq _ _)), (proj2 (Z.ltb_ge _ _)) by lia. replace (Z.to_nat (Z.of_nat i + 2 - 2)) with i by lia. now rewrite Ha. }
    pose proof (I4 _ ltac:(eauto)) as Hr. destruct (I5 _ _ _ Hj) as [_ [ad Ed]]. apply file_readable.
    assert (Ed' : disk_inode V' (Z.of_nat i + 2) = disk_inode V (Z.of_nat i + 2)) by (apply Eo; [lia|unfold ROOTINO; lia]).
    split; [unfold xof; rewrite Ed'; now apply (Hkeep _ T_FILE)|rewrite Ed'; eauto].
  - assert (Hj : tree args ROOTINO = Some (T_DIR, root_bytes args)) by done. destruct (I5 _ _ _ Hj) as [_ [ad Ed]].
    destruct (body_round V' (xof V ROOTINO) (root_bytes args) sz (Hkeep _ _ _ Hj) Hsz Hmod) as [M B].
    assert (Ex : xof V' ROOTINO = set_i_size sz (xof V ROOTINO)) by (unfold xof; rewrite Er; done). fold din in Ed. unfold readable. rewrite Ex.
    assert (Hp : flen (root_bytes args) <= sz) by (rewrite Hsz; change BSIZE with 1024; unfold flen; zdiv).
    split; [unfold xof; fold din; now rewrite Ed|]. split; [unfold xof; fold din; now rewrite Ed|]. split; [|split; [exact M|exact B]].
    unfold flen in *. rewrite length_app, length_replicate. cbn [i_size set_i_size]. lia.
Qed.

(** The image [main] leaves: [V] before and [V'] after the root's size is rounded up. *)
Record finished (args : list source) (V V' : Z -> list Z) (sz : Z) (s : mkfs) : Prop := {
  fi_img : forall n, m_img s n = V' n;
  fi_sb : V' 1 = sb_block;
  fi_size : sz = (flen (root_bytes args) / BSIZE + 1) * BSIZE;
  fi_before : exists s0 s1, image_ok (tree args) V s0 /\ tracks V' s1 /\ m_freeblock s1 = m_freeblock s0 /\ m_freeblock s0 = nmeta + cost args;
  fi_upd : V' = upd V (IBLOCK ROOTINO sb) (put_dinode (V (IBLOCK ROOTINO sb)) ROOTINO (set_d_size sz (disk_inode V ROOTINO)));
  fi_root : disk_inode V' ROOTINO = set_d_size sz (disk_inode V ROOTINO);
  fi_others : forall j, 0 <= j <= NINODES -> j <> ROOTINO -> disk_inode V' j = disk_inode V j }.

Lemma wp_main args :
  Z.of_nat (length args) < NINODES -> Forall acceptable args -> nmeta + cost args <= FSSIZE ->
  wp (main (map input args)) (fun _ s => exists V V' sz, finished args V V' sz s) start.
Proof.
  intros Hn Ha Hc. unfold main. apply wp_bind, wp_modify, wp_bind. apply wp_zero_fill; [done|done|]. intros s1 Z1 N1 I1 B1. cbn in I1, B1.
  apply wp_bind, wp_modify. change (sector 1) with 1. change (list_put zero_block 0 (encode_superblock sb)) with sb_block.
  match goal with |- wp _ _ ?s => set (s2 := s) end.
  assert (Him : image_ok (fun _ => None) fresh_view s2).
  { apply fresh_image; cbn [s2 m_img m_nsect m_freeinode m_freeblock]; [|rewrite N1; done|done|done]. intros n. unfold upd. case_decide; [done|apply Z1]. }
  apply (wp_start s2); [done|exact I1|exact B1|]. clear s2 Him s1 Z1 N1 I1 B1. intros s1 Hb1. apply wp_bind.
  refine (wp_mono _ _ _ _ (wp_add_files args [] s1 Hb1 Hn Ha Hc) _). cbn [app]. intros [] s (V & Him & Hfb & Hino). pose proof Him as [T I2 I3 I4 I5 I6].
  apply (wp_rinode V s ROOTINO); [done|done|]. destruct (I5 ROOTINO T_DIR (root_bytes args) eq_refl) as [BD [ad Ed]].
  assert (Hl : 0 <= flen (root_bytes args) < 4096) by (rewrite length_root_bytes; change NINODES with 200 in Hn; lia).
  assert (Hsz : xint (d_size (disk_inode V ROOTINO)) = flen (root_bytes args)) by (rewrite Ed; apply xint_id; cbn [d_size]; lia). rewrite Hsz.
  rewrite xint_id by (change BSIZE with 1024; zdiv). set (sz := (flen (root_bytes args) / BSIZE + 1) * BSIZE). apply wp_bind.
  apply (wp_winode V s ROOTINO); [done|done| |].
  { apply (mo_dinode sb V (inode_of ROOTINO (set_d_size sz (disk_inode V ROOTINO))) (flen (root_bytes args))), (body_set_size V ROOTINO _ sz _ BD).
    unfold sz. change BSIZE with 1024. zdiv. }
  cbv zeta. intros s' T' Er Eo F' _. apply wp_bind, wp_gets. rewrite F', Hfb. unfold balloc.
  pose proof (tr_fb _ _ T') as Hr. rewrite F', Hfb in Hr. change (BSIZE * 8) with 8192. change FSSIZE with 1000 in *.
  rewrite (proj2 (Z.ltb_lt _ _)) by lia. cbn [negb]. apply wp_modify. change (sb_bmapstart sb) with 45. change (sector 45) with 45. cbn [m_img].
  eexists V, _, sz. split; [| |reflexivity| |reflexivity|exact Er|exact Eo].
  - intros n. cbn [m_img]. unfold upd at 1. case_decide as En; [|now apply T']. subst n. rewrite (tr_bitmap _ _ T'). now rewrite F', Hfb.
  - now rewrite upd_ne by done.
  - now exists s, s'.
Qed.

(** C17: mkfs builds a file system the kernel can read.  Given names without a slash,
    files of at most the largest size, fewer than 200 of them, and enough blocks,
    main succeeds, and in the image: the superblock is the one the kernel expects;
    the bitmap marks exactly the blocks in use and satisfies the invariants of the
    kernel's allocator; inode [i + 2] has a well-formed block map and reads as the
    bytes of file [i]; the root directory reads as [.], [..] and one entry per file,
    zero padded, provided its last block is not full. *)
Theorem mkfs_correct args :
  Z.of_nat (length args) < NINODES -> Forall acceptable args -> nmeta + cost args <= FSSIZE -> flen (root_bytes args) mod BSIZE <> 0 ->
  wp (main (map input args)) (fun _ s => exists V, (forall n, m_img s n = V n) /\ decode_superblock (V 1) = sb /\ alloc_ok sb V /\
    (forall b, 0 <= b < FSSIZE -> allocated sb V b = (b <? nmeta + cost args)) /\
    (forall i a, args !! i = Some a -> readable V (Z.of_nat i + 2) T_FILE (content a)) /\
    exists pad, readable V ROOTINO T_DIR (root_bytes args ++ replicate pad 0)) start.
Proof.
  intros Hn Ha Hc Hmod. refine (wp_mono _ _ _ _ (wp_main args Hn Ha Hc) _). intros [] s (V & V' & sz & [E1 E2 E3 (s0 & s1 & Him & T & F1 & F0) E5 E6 E7]).
  destruct (root_rounded args V s0 V' s1 sz Him T F1 E5 E6 E7 E3 Hmod) as [P1 P2].
  exists V'. split; [exact E1|]. split; [rewrite E2; exact decode_sb_block|]. split; [exact (tr_alloc_ok _ _ T)|].
  split; [|split; [exact P1|eexists; exact P2]]. intros b Hb. rewrite (tr_allocated _ _ T) by done. now rewrite F1, F0.
Qed.

(** When the last block of the root directory is full, the size is still rounded up:
    the directory then claims a block it does not have. *)
Theorem mkfs_root_hole args :
  Z.of_nat (length args) < NINODES -> Forall acceptable args -> nmeta + cost args <= FSSIZE -> flen (root_bytes args) mod BSIZE = 0 ->
  wp (main (map input args)) (fun _ s => exists V, (forall n, m_img s n = V n) /\
    let x := xof V ROOTINO in let bn := flen (root_bytes args) / BSIZE in bn * BSIZE < i_size x /\ iblock V x bn = 0) start.
Proof.
  intros Hn Ha Hc Hmod. refine (wp_mono _ _ _ _ (wp_main args Hn Ha Hc) _). intros [] s (V & V' & sz & [E1 E2 E3 (s0 & s1 & Him & T & F1 & F0) E5 E6 E7]).
  exists V'. split; [exact E1|]. cbv zeta. assert (Ex : xof V' ROOTINO = set_i_size sz (xof V ROOTINO)) by (unfold xof; rewrite E6; done). rewrite Ex.
  cbn [i_size set_i_size]. rewrite length_root_bytes in *. change NINODES with 200 in Hn. change BSIZE with 1024 in *. split; [lia|].
  destruct (im_file _ _ _ Him ROOTINO T_DIR (root_bytes args) eq_refl) as [B _]. change (set_i_size sz (xof V ROOTINO)) with (inode_of ROOTINO (set_d_size sz (disk_inode V ROOTINO))).
  assert (Hf : body_ok V' (xof V ROOTINO) (root_bytes args)).
  { apply (body_frame V V' _ _ B).
    - intros n Ho Hz. rewrite E5. apply upd_ne. pose proof (bd_own _ _ _ B n Ho Hz) as H. change nmeta with 46 in H. pose proof (IBLOCK_sb ROOTINO ltac:(done)). lia.
    - intros n. apply (tracks_mono V s0 V' s1); [apply Him|done|lia]. }
  apply (bd_exact _ _ _ Hf); [|rewrite length_root_bytes; change BSIZE with 1024; zdiv]. unfold blockno_ok. change MAXFILE with 268. zdiv.
Qed.

(** ** A concrete run *)

(** [user/_cat], read in two pieces. *)
Definition cat_source : source := ([117; 115; 101; 114; 47; 95; 99; 97; 116], [[35; 33]; [10; 7; 8]]).

Example mkfs_correct_witness :
  wp (main (map input [cat_source])) (fun _ s => exists V, (forall n, m_img s n = V n) /\ readable V 2 T_FILE [35; 33; 10; 7; 8]) start.
Proof.
  refine (wp_mono _ _ _ _ (mkfs_correct [cat_source] _ _ _ _) _).
  - vm_compute. reflexivity.
  - apply Forall_singleton. split; [|vm_compute; discriminate]. apply (bool_decide_unpack _). vm_compute. exact I.
  - vm_compute. discriminate.
  - vm_compute. discriminate.
  - intros u s (V & E & _ & _ & _ & Hf & _). exists V. split; [exact E|]. exact (Hf 0%nat cat_source eq_refl).
Defined.
