(* ===== verification/Uart.v ===== *)
(** * The UART driver (kernel/uart.c)

    The device is a list of values that the next reads of the line status register
    return (an idle transmitter and no input once the list is used up), the input
    bytes, and the bytes sent so far. *)

From stdpp Require Import base numbers list gmap strings.
From S2P Require Import Prelude Kstate Kstring Spinlock Kalloc Vm Sched.

Definition IER : Z := 1.
Definition FCR : Z := 2.
Definition LCR : Z := 3.
Definition IER_TX_ENABLE : Z := Z.shiftl 1 0.
Definition IER_RX_ENABLE : Z := Z.shiftl 1 1.
Definition FCR_FIFO_ENABLE : Z := Z.shiftl 1 0.
Definition FCR_FIFO_CLEAR : Z := Z.shiftl 3 1.
Definition LCR_EIGHT_BITS : Z := Z.shiftl 3 0.
Definition LCR_BAUD_LATCH : Z := Z.shiftl 1 7.
Definition LSR_RX_READY : Z := Z.shiftl 1 0.
Definition LSR_TX_IDLE : Z := Z.shiftl 1 5.

Definition WriteReg (reg v : Z) : K unit :=
  modify (upd_uart (fun u => set_ua_ctl (ua_ctl u ++ [(reg, v)]) u)).
Definition read_LSR : K Z :=
  let* u := gets k_uart in
  match ua_lsr u with
  | [] => ret LSR_TX_IDLE
  | v :: t => modify (upd_uart (set_ua_lsr t)) ;;; ret v
  end.
Definition read_RHR : K Z :=
  let* u := gets k_uart in
  match ua_rx u with
  | [] => ret 0
  | v :: t => modify (upd_uart (set_ua_rx t)) ;;; ret v
  end.
Definition write_THR (c : Z) : K unit :=
  modify (upd_uart (fun u => set_ua_sent (ua_sent u ++ [u8 c]) u)).

Definition uartinit : K unit :=
  WriteReg IER 0x00 ;;;
  WriteReg LCR LCR_BAUD_LATCH ;;;
  WriteReg 0 0x03 ;;;
  WriteReg 1 0x00 ;;;
  WriteReg LCR LCR_EIGHT_BITS ;;;
  WriteReg FCR (Z.lor FCR_FIFO_ENABLE FCR_FIFO_CLEAR) ;;;
  WriteReg IER (Z.lor IER_TX_ENABLE IER_RX_ENABLE) ;;;
  initlock LK_uart_tx "uart".

(** Every turn removes a byte from the ring, which holds fewer than
    [UART_TX_BUF_SIZE]. *)
Fixpoint uartstart_loop (fuel : nat) : K unit :=
  match fuel with
  | O => suspend_with Forever
  | S fuel' =>
      let* u := gets k_uart in
      if ua_tx_w u =? ua_tx_r u then ret tt else
      let* lsr := read_LSR in
      if Z.land lsr LSR_TX_IDLE =? 0 then ret tt else
      let c := ua_tx_buf u !!! Z.to_nat (ua_tx_r u) in
      modify (upd_uart (set_ua_tx_r ((ua_tx_r u + 1) mod UART_TX_BUF_SIZE))) ;;;
      wakeup CH_uart_tx_r ;;;
      write_THR c ;;;
      uartstart_loop fuel'
  end.
Definition uartstart : K unit := uartstart_loop (Z.to_nat UART_TX_BUF_SIZE).

(** One turn of the [while(1)] of [uartputc], with [uart_tx_lock] held. *)
Definition uartputc_loop (c : Z) : K unit :=
  let* u := gets k_uart in
  if (ua_tx_w u + 1) mod UART_TX_BUF_SIZE =? ua_tx_r u then sleep CH_uart_tx_r LK_uart_tx
  else
    modify (upd_uart (set_ua_tx_buf (<[Z.to_nat (ua_tx_w u) := u8 c]> (ua_tx_buf u)))) ;;;
    modify (upd_uart (set_ua_tx_w ((ua_tx_w u + 1) mod UART_TX_BUF_SIZE))) ;;;
    uartstart ;;;
    release LK_uart_tx.
Definition uartputc (c : Z) : K unit :=
  acquire LK_uart_tx ;;;
  let* panicked := gets k_panicked in
  if (panicked : bool) then suspend_with Forever else
  uartputc_loop c.
Definition uartputc_return (intena : bool) (c : Z) : K unit :=
  sleep_return intena LK_uart_tx ;;; uartputc_loop c.

(** [while((ReadReg(LSR) & LSR_TX_IDLE) == 0);] *)
Fixpoint wait_idle (fuel : nat) : K unit :=
  match fuel with
  | O => suspend_with Forever
  | S fuel' =>
      let* lsr := read_LSR in
      if Z.land lsr LSR_TX_IDLE =? 0 then wait_idle fuel' else ret tt
  end.

Definition uartputc_sync (c : Z) : K unit :=
  push_off ;;;
  let* panicked := gets k_panicked in
  if (panicked : bool) then suspend_with Forever else
  let* n := gets (fun k => length (ua_lsr (k_uart k))) in
  wait_idle (S n) ;;;
  write_THR c ;;;
  pop_off.

Definition uartgetc : K Z :=
  let* lsr := read_LSR in
  if nz (Z.land lsr 0x01) then read_RHR else ret (-1).
