(* ===== verification/Printf.v ===== *)
(** * Formatted output (kernel/printf.c, procdump of kernel/proc.c) *)

From stdpp Require Import base numbers list gmap strings.
From Stdlib Require Ascii String.
From S2P Require Import Prelude Kstate Kstring Spinlock Kalloc Vm Sched Uart.

(** The bytes of a string literal. *)
Definition bytes (s : string) : list Z := map (fun c => Z.of_N (Ascii.N_of_ascii c)) (String.list_ascii_of_string s).

Definition BACKSPACE : Z := 0x100.

Definition consputc (c : Z) : K unit :=
  if c =? BACKSPACE then uartputc_sync 8 ;;; uartputc_sync 32 ;;; uartputc_sync 8
  else uartputc_sync c.

Definition digits : list Z := bytes "0123456789abcdef".
Definition digit (d : Z) : Z := digits !!! Z.to_nat d.

(** The [do .. while] of [printint]: the digits of [x], least significant first.
    A 32-bit number has at most 32 digits. *)
Fixpoint digits_by (digit : Z -> Z) (fuel : nat) (x base : Z) : list Z :=
  match fuel with
  | O => []
  | S fuel' =>
      digit (x mod base) :: (if x / base =? 0 then [] else digits_by digit fuel' (x / base) base)
  end.

(** The content of [buf], in the order it is filled. *)
Definition printint_buf (xx base : Z) (sign : bool) : list Z :=
  let neg := sign && (xx <? 0) in
  let x := u32 (if neg then - xx else xx) in
  digits_by digit 32 x base ++ (if neg then [45] else []).

Definition printint (xx base : Z) (sign : bool) : K unit :=
  for_each (rev (printint_buf xx base sign)) consputc.

(** [digits[x >> 60]], then [x <<= 4], sixteen times. *)
Fixpoint printptr_digits (n : nat) (x : Z) : list Z :=
  match n with
  | O => []
  | S n' => digit (Z.shiftr x 60) :: printptr_digits n' (u64 (Z.shiftl x 4))
  end.
Definition printptr (x : Z) : K unit :=
  consputc 48 ;;; consputc 120 ;;;
  for_each (printptr_digits 16 x) consputc.

(** A variadic argument. *)
Inductive va := VInt (z : Z) | VPtr (z : Z) | VStr (s : option (list Z)).

(** The loop of [printf] over the bytes of the format. *)
Fixpoint printf_loop (fmt : list Z) (ap : list va) : K unit :=
  match fmt with
  | [] => ret tt
  | 37 :: fmt' =>
      match fmt' with
      | [] => ret tt
      | 100 :: rest =>
          match ap with VInt z :: ap' => printint z 10 true ;;; printf_loop rest ap' | _ => undefined end
      | 120 :: rest =>
          match ap with VInt z :: ap' => printint z 16 true ;;; printf_loop rest ap' | _ => undefined end
      | 112 :: rest =>
          match ap with VPtr z :: ap' => printptr z ;;; printf_loop rest ap' | _ => undefined end
      | 115 :: rest =>
          match ap with
          | VStr s :: ap' =>
              for_each (match s with Some l => l | None => bytes "(null)" end) consputc ;;;
              printf_loop rest ap'
          | _ => undefined
          end
      | 37 :: rest => consputc 37 ;;; printf_loop rest ap
      | c :: rest => consputc 37 ;;; consputc c ;;; printf_loop rest ap
      end
  | c :: rest => consputc c ;;; printf_loop rest ap
  end.

Definition printf (fmt : list Z) (ap : list va) : K unit :=
  let* locking := gets k_prlocking in
  when locking (acquire LK_pr) ;;;
  printf_loop fmt ap ;;;
  when locking (release LK_pr).

(** What [panic] does before it stops the hart. *)
Definition panic_body (s : list Z) : K unit :=
  modify (set_k_prlocking false) ;;;
  printf (bytes "panic: ") [] ;;;
  printf s [] ;;;
  printf [10] [] ;;;
  modify (set_k_panicked true) ;;;
  suspend_with Forever.

Definition printfinit : K unit :=
  initlock LK_pr "pr" ;;;
  modify (set_k_prlocking true).

Definition state_name (s : procstate) : list Z :=
  bytes match s with
  | UNUSED => "unused" | SLEEPING => "sleep " | RUNNABLE => "runble"
  | RUNNING => "run   " | ZOMBIE => "zombie"
  end.

Definition procdump : K unit :=
  printf [10] [] ;;;
  for_each all_procs (fun p =>
    let* pr := gets (get_proc p) in
    if bool_decide (p_state pr = UNUSED) then ret tt else
    printf (bytes "%d %s %s")
      [VInt (p_pid pr); VStr (Some (state_name (p_state pr)));
       VStr (Some (cstr (list_bytes (p_name pr)) (length (p_name pr))))] ;;;
    printf [10] []).
