(* ===== verification/Console.v ===== *)
(** * The console (kernel/console.c) and the UART interrupt (kernel/uart.c) *)

From stdpp Require Import base numbers list gmap strings.
From S2P Require Import Prelude Kstate Kstring Spinlock Kalloc Vm Sched Uart Printf.

(** [C(x)] of console.c. *)
Definition ctrl (x : Z) : Z := x - 64.
Definition newline : Z := 10.

Definition cons_byte (i : Z) (c : consst) : Z := c_buf c !!! Z.to_nat (i mod INPUT_BUF).

Fixpoint consolewrite_loop (fuel : nat) (user_src : bool) (src i n : Z) : K Z :=
  match fuel with
  | O => ret i
  | S fuel' =>
      if negb (i <? n) then ret i else
      let* (r, bs) := either_copyin user_src (u64 (src + i)) 1 in
      if r =? -1 then ret i else
      uartputc (bs !!! 0%nat) ;;;
      consolewrite_loop fuel' user_src src (i + 1) n
  end.
Definition consolewrite (user_src : bool) (src n : Z) : K Z :=
  acquire LK_cons ;;;
  let* i := consolewrite_loop (Z.to_nat n) user_src src 0 n in
  release LK_cons ;;;
  ret i.

(** The loop of [consoleread] with [cons.lock] held; [n] goes down by one in every
    turn that does not end it.  Returns the final [n], or [None] when the process
    has been killed (the lock is then released). *)
Fixpoint consoleread_loop (fuel : nat) (user_dst : bool) (dst n target : Z) : K (option Z) :=
  match fuel with
  | O => ret (Some n)
  | S fuel' =>
      if negb (0 <? n) then ret (Some n) else
      let* c := gets k_cons in
      if c_r c =? c_w c then
        let* p := myproc_ix in
        let* pr := gets (get_proc p) in
        if nz (p_killed pr) then release LK_cons ;;; ret None
        else sleep CH_cons_r LK_cons ;;; ret None
      else
      let ch := cons_byte (c_r c) c in
      modify (upd_cons (set_c_r (u32 (c_r c + 1)))) ;;;
      if ch =? ctrl 68 then
        when (n <? target) (modify (upd_cons (fun c => set_c_r (u32 (c_r c - 1)) c))) ;;;
        ret (Some n)
      else
      let* r := either_copyout user_dst dst [ch] in
      if r =? -1 then ret (Some n) else
      let n := n - 1 in
      if ch =? newline then ret (Some n) else
      consoleread_loop fuel' user_dst (u64 (dst + 1)) n target
  end.
Definition consoleread_end (r : option Z) (target : Z) : K Z :=
  match r with
  | None => ret (-1)
  | Some n => release LK_cons ;;; ret (i32 (target - n))
  end.
Definition consoleread (user_dst : bool) (dst n : Z) : K Z :=
  let target := u32 n in
  acquire LK_cons ;;;
  let* r := consoleread_loop (Z.to_nat n) user_dst dst n target in
  consoleread_end r target.
(** What a reader that slept in the loop does next. *)
Definition consoleread_return (intena user_dst : bool) (dst n target : Z) : K Z :=
  sleep_return intena LK_cons ;;;
  let* r := consoleread_loop (Z.to_nat n) user_dst dst n target in
  consoleread_end r target.

(** [^U]: [while(cons.e != cons.w && cons.buf[(cons.e-1) % INPUT_BUF] != '\n')];
    at most [INPUT_BUF] characters are being edited. *)
Fixpoint kill_line (fuel : nat) : K unit :=
  match fuel with
  | O => suspend_with Forever
  | S fuel' =>
      let* c := gets k_cons in
      if negb (c_e c =? c_w c) && negb (cons_byte (u32 (c_e c - 1)) c =? newline) then
        modify (upd_cons (set_c_e (u32 (c_e c - 1)))) ;;;
        consputc BACKSPACE ;;;
        kill_line fuel'
      else ret tt
  end.

(** The [switch(c)] of [consoleintr]. *)
Definition consoleintr_switch (c : Z) : K unit :=
  if c =? ctrl 80 then procdump
  else if c =? ctrl 85 then kill_line (S (Z.to_nat INPUT_BUF))
  else if (c =? ctrl 72) || (c =? 0x7f) then
    let* s := gets k_cons in
    when (negb (c_e s =? c_w s))
      (modify (upd_cons (set_c_e (u32 (c_e s - 1)))) ;;; consputc BACKSPACE)
  else
    let* s := gets k_cons in
    when (nz c && (u32 (c_e s - c_r s) <? INPUT_BUF))
      (let c := if c =? 13 then newline else c in
       consputc c ;;;
       modify (upd_cons (fun s =>
         set_c_e (u32 (c_e s + 1))
           (set_c_buf (<[Z.to_nat (c_e s mod INPUT_BUF) := u8 c]> (c_buf s)) s))) ;;;
       let* s := gets k_cons in
       when ((c =? newline) || (c =? ctrl 68) || (c_e s =? u32 (c_r s + INPUT_BUF)))
         (modify (upd_cons (set_c_w (c_e s))) ;;; wakeup CH_cons_r)).

Definition consoleintr (c : Z) : K unit :=
  acquire LK_cons ;;;
  consoleintr_switch c ;;;
  release LK_cons.

Definition consoleinit : K unit :=
  initlock LK_cons "cons" ;;;
  uartinit ;;;
  modify (fun k => set_k_devsw (<[Z.to_nat CONSOLE := true]> (k_devsw k)) k).

(** The input loop of [uartintr]: every turn reads the line status register, so it
    ends when the device has no more input to report. *)
Fixpoint uartintr_loop (fuel : nat) : K unit :=
  match fuel with
  | O => suspend_with Forever
  | S fuel' =>
      let* c := uartgetc in
      if c =? -1 then ret tt else
      consoleintr c ;;;
      uartintr_loop fuel'
  end.
Definition uartintr : K unit :=
  let* n := gets (fun k => length (ua_lsr (k_uart k))) in
  uartintr_loop (S n) ;;;
  acquire LK_uart_tx ;;;
  uartstart ;;;
  release LK_uart_tx.
