(* ===== verification/Pipe.v ===== *)
(** * Pipes (kernel/pipe.c)

    [struct pipe] fills the beginning of a page from the allocator; its fields are
    kept in the record [k_pipes] under the page's address. *)

From stdpp Require Import base numbers list gmap strings.
From S2P Require Import Prelude Kstate Kstring Spinlock Kalloc Vm Sched Sleeplock.

Definition get_pipe (pi : Z) (k : kernel) : pipe := k_pipes k pi.

Definition pipeclose (pi : Z) (writable : bool) : K unit :=
  acquire (LK_pipe pi) ;;;
  (if writable then
     modify (upd_pipe pi (set_pi_writeopen false)) ;;; wakeup (CH_pipe_nread pi)
   else
     modify (upd_pipe pi (set_pi_readopen false)) ;;; wakeup (CH_pipe_nwrite pi)) ;;;
  let* p := gets (get_pipe pi) in
  if negb (pi_readopen p) && negb (pi_writeopen p) then
    release (LK_pipe pi) ;;; kfree pi
  else release (LK_pipe pi).

Definition pipe_full (p : pipe) : bool := pi_nwrite p =? u32 (pi_nread p + PIPESIZE).
Definition pipe_empty (p : pipe) : bool := pi_nread p =? pi_nwrite p.

(** [pi->data[pi->nwrite++ % PIPESIZE] = ch] *)
Definition pipe_put (ch : Z) (p : pipe) : pipe :=
  set_pi_nwrite (u32 (pi_nwrite p + 1))
    (set_pi_data (<[Z.to_nat (pi_nwrite p mod PIPESIZE) := ch]> (pi_data p)) p).
(** [ch = pi->data[pi->nread++ % PIPESIZE]] *)
Definition pipe_get (p : pipe) : Z := pi_data p !!! Z.to_nat (pi_nread p mod PIPESIZE).
Definition pipe_advance (p : pipe) : pipe := set_pi_nread (u32 (pi_nread p + 1)) p.

(** The body of the loop [while(pi->nwrite == pi->nread + PIPESIZE)]. *)
Definition pipewrite_wait (pr : nat) (pi : Z) : K (option Z) :=
  let* p := gets (get_pipe pi) in
  let* x := gets (get_proc pr) in
  if negb (pi_readopen p) || nz (p_killed x) then release (LK_pipe pi) ;;; ret None
  else
    wakeup (CH_pipe_nread pi) ;;;
    sleep (CH_pipe_nwrite pi) (LK_pipe pi) ;;;
    ret None.

(** The loop of [pipewrite] from byte [i], with [pi->lock] held.  [None]: return -1,
    the lock already released. *)
Fixpoint pipewrite_loop (fuel : nat) (pr : nat) (pi addr i n : Z) : K (option Z) :=
  match fuel with
  | O => ret (Some i)
  | S fuel' =>
      if negb (i <? n) then ret (Some i) else
      let* p := gets (get_pipe pi) in
      if pipe_full p then pipewrite_wait pr pi else
      let* x := gets (get_proc pr) in
      let* (r, bs) := copyin (p_pagetable x) (u64 (addr + i)) 1 in
      if r =? -1 then ret (Some i) else
      modify (upd_pipe pi (pipe_put (bs !!! 0%nat))) ;;;
      pipewrite_loop fuel' pr pi addr (i + 1) n
  end.
Definition pipewrite_end (pi : Z) (r : option Z) : K Z :=
  match r with
  | None => ret (-1)
  | Some i =>
      wakeup (CH_pipe_nread pi) ;;;
      release (LK_pipe pi) ;;;
      ret i
  end.
Definition pipewrite (pi addr n : Z) : K Z :=
  let* pr := myproc_ix in
  acquire (LK_pipe pi) ;;;
  let* r := pipewrite_loop (Z.to_nat n) pr pi addr 0 n in
  pipewrite_end pi r.
(** What a writer that slept at byte [i] does next. *)
Definition pipewrite_return (intena : bool) (pr : nat) (pi addr i n : Z) : K Z :=
  sleep_return intena (LK_pipe pi) ;;;
  let* r := pipewrite_loop (Z.to_nat (n - i)) pr pi addr i n in
  pipewrite_end pi r.

(** The copying loop of [piperead]. *)
Fixpoint piperead_loop (fuel : nat) (pr : nat) (pi addr i n : Z) : K Z :=
  match fuel with
  | O => ret i
  | S fuel' =>
      if negb (i <? n) then ret i else
      let* p := gets (get_pipe pi) in
      if pipe_empty p then ret i else
      let ch := pipe_get p in
      modify (upd_pipe pi pipe_advance) ;;;
      let* x := gets (get_proc pr) in
      let* r := copyout (p_pagetable x) (u64 (addr + i)) [ch] in
      if r =? -1 then ret i else
      piperead_loop fuel' pr pi addr (i + 1) n
  end.
(** [piperead] with [pi->lock] held: the wait, then the copy. *)
Definition piperead_locked (pr : nat) (pi addr n : Z) : K Z :=
  let* p := gets (get_pipe pi) in
  if pipe_empty p && pi_writeopen p then
    let* x := gets (get_proc pr) in
    if nz (p_killed x) then release (LK_pipe pi) ;;; ret (-1)
    else sleep (CH_pipe_nread pi) (LK_pipe pi) ;;; ret (-1)
  else
    let* i := piperead_loop (Z.to_nat n) pr pi addr 0 n in
    wakeup (CH_pipe_nwrite pi) ;;;
    release (LK_pipe pi) ;;;
    ret i.
Definition piperead (pi addr n : Z) : K Z :=
  let* pr := myproc_ix in
  acquire (LK_pipe pi) ;;;
  piperead_locked pr pi addr n.
Definition piperead_return (intena : bool) (pr : nat) (pi addr n : Z) : K Z :=
  sleep_return intena (LK_pipe pi) ;;;
  piperead_locked pr pi addr n.

(** ** The ring as a queue *)

(** The counters run modulo [2 ^ 32]; the bytes in the pipe are those between them. *)
Definition pipe_count (p : pipe) : Z := u32 (pi_nwrite p - pi_nread p).
Definition pipe_bytes (p : pipe) : list Z :=
  map (fun j => pi_data p !!! Z.to_nat ((pi_nread p + j) mod PIPESIZE)) (seqZ 0 (pipe_count p)).

Record pipe_ok (p : pipe) : Prop := {
  po_data : length (pi_data p) = Z.to_nat PIPESIZE;
  po_nread : 0 <= pi_nread p < 2 ^ 32;
  po_nwrite : 0 <= pi_nwrite p < 2 ^ 32;
  po_count : pipe_count p <= PIPESIZE }.

Lemma length_pipe_bytes p : length (pipe_bytes p) = Z.to_nat (pipe_count p).
Proof. unfold pipe_bytes. now rewrite length_map, length_seqZ. Qed.

Lemma u32_sub_succ a b c : u32 (a - b) = c -> c + 1 < 2 ^ 32 -> u32 (u32 (a + 1) - b) = c + 1.
Proof.
  unfold u32. intros <- Hc. rewrite Zminus_mod_idemp_l. replace (a + 1 - b) with (a - b + 1) by lia.
  rewrite <- Zplus_mod_idemp_l. apply Z.mod_small. pose proof (Z.mod_pos_bound (a - b) (2 ^ 32) eq_refl). lia.
Qed.

Lemma u32_sub_pred a b c : u32 (a - b) = c -> 0 < c -> u32 (a - u32 (b + 1)) = c - 1.
Proof.
  unfold u32. intros <- Hc. rewrite Zminus_mod_idemp_r. replace (a - (b + 1)) with (a - b - 1) by lia.
  rewrite <- Zminus_mod_idemp_l. apply Z.mod_small. pose proof (Z.mod_pos_bound (a - b) (2 ^ 32) eq_refl). lia.
Qed.

(** The position in the ring does not notice the wrap-around of the counters. *)
Lemma u32_mod_PIPESIZE x : u32 x mod PIPESIZE = x mod PIPESIZE.
Proof.
  unfold u32, PIPESIZE. symmetry. apply (Znumtheory.Zmod_div_mod 512 (2 ^ 32) x); [lia|lia|]. exists (2 ^ 23). reflexivity.
Qed.

Lemma pipe_slots p j : 0 <= j -> j < pipe_count p -> pipe_count p < PIPESIZE ->
  (pi_nread p + j) mod PIPESIZE <> pi_nwrite p mod PIPESIZE.
Proof.
  intros H0 Hj Hc E.
  assert (Ew : pi_nwrite p mod PIPESIZE = (pi_nread p + pipe_count p) mod PIPESIZE).
  { unfold pipe_count. rewrite <- Zplus_mod_idemp_r, u32_mod_PIPESIZE, Zplus_mod_idemp_r. f_equal. lia. }
  rewrite Ew in E. unfold PIPESIZE in *.
  assert (Hd : (pipe_count p - j) mod 512 = 0).
  { replace (pipe_count p - j) with ((pi_nread p + pipe_count p) - (pi_nread p + j)) by lia.
    rewrite Zminus_mod, <- E, Z.sub_diag. done. }
  rewrite Z.mod_small in Hd; lia.
Qed.

Lemma full_count p : pipe_ok p -> pipe_full p = true <-> pipe_count p = PIPESIZE.
Proof.
  intros [_ Hr Hw Hc]. unfold pipe_full, pipe_count, u32, PIPESIZE in *. split.
  - intros E%Z.eqb_eq. rewrite E, Zminus_mod_idemp_l. replace (pi_nread p + 512 - pi_nread p) with 512 by lia. done.
  - intros E. apply Z.eqb_eq. rewrite <- E, Zplus_mod_idemp_r. replace (pi_nread p + (pi_nwrite p - pi_nread p)) with (pi_nwrite p) by lia.
    symmetry. now apply Z.mod_small.
Qed.

Lemma empty_count p : pipe_ok p -> pipe_empty p = true <-> pipe_count p = 0.
Proof.
  intros [_ Hr Hw Hc]. unfold pipe_empty, pipe_count, u32. split.
  - intros E%Z.eqb_eq. rewrite E, Z.sub_diag. done.
  - intros E. apply Z.eqb_eq. apply Z.mod_divide in E; [|lia]. destruct E as [q E]. lia.
Qed.

Lemma pipe_put_queue ch p :
  pipe_ok p -> pipe_full p = false -> pipe_ok (pipe_put ch p) /\ pipe_bytes (pipe_put ch p) = pipe_bytes p ++ [ch].
Proof.
  intros Hok Hf. pose proof Hok as [Hd Hr Hw Hc].
  assert (Hlt : pipe_count p < PIPESIZE).
  { enough (pipe_count p <> PIPESIZE) by lia. intros E. apply (full_count p Hok) in E. congruence. }
  assert (Hc0 : 0 <= pipe_count p) by apply u32_range.
  assert (Hcnt : pipe_count (pipe_put ch p) = pipe_count p + 1).
  { apply (u32_sub_succ (pi_nwrite p) (pi_nread p) (pipe_count p)); [done|]. unfold PIPESIZE in Hlt. lia. }
  assert (Hm : forall x, 0 <= x mod PIPESIZE < PIPESIZE) by (intros; apply Z.mod_pos_bound; done).
  split; [split; cbn; [now rewrite length_insert|done|apply u32_range|lia]|].
  unfold pipe_bytes at 1. rewrite Hcnt, seqZ_app by lia. rewrite map_app. f_equal.
  - apply map_ext_in. intros j Hj. apply list_elem_of_In, elem_of_seqZ in Hj. cbn [pi_data pi_nread pipe_put set_pi_nwrite set_pi_data].
    rewrite list_lookup_total_insert_ne; [done|]. intros E. apply Z2Nat.inj in E; [|apply Hm..].
    apply (pipe_slots p j); [lia|lia|lia|done].
  - replace (seqZ (0 + pipe_count p) 1) with [pipe_count p] by (cbn; f_equal; lia).
    cbn [map pi_data pi_nread pipe_put set_pi_nwrite set_pi_data]. f_equal.
    rewrite list_lookup_total_alt. replace ((pi_nread p + pipe_count p) mod PIPESIZE) with (pi_nwrite p mod PIPESIZE).
    + rewrite list_lookup_insert_eq; [done|]. rewrite Hd. apply Z2Nat.inj_lt; [apply Hm|done|apply Hm].
    +      unfold pipe_count. rewrite <- (Zplus_mod_idemp_r (u32 _)), u32_mod_PIPESIZE, Zplus_mod_idemp_r. f_equal. lia.
Qed.

Lemma pipe_get_queue p :
  pipe_ok p -> pipe_empty p = false ->
  pipe_ok (pipe_advance p) /\ pipe_bytes p = pipe_get p :: pipe_bytes (pipe_advance p).
Proof.
  intros Hok He. pose proof Hok as [Hd Hr Hw Hc].
  assert (Hc0 : 0 <= pipe_count p) by apply u32_range.
  assert (Hpos : 0 < pipe_count p).
  { enough (pipe_count p <> 0) by lia. intros E. apply (empty_count p Hok) in E. congruence. }
  assert (Hcnt : pipe_count (pipe_advance p) = pipe_count p - 1) by (apply u32_sub_pred; done).
  split; [split; cbn; [done|apply u32_range|done|lia]|].
  unfold pipe_bytes. rewrite Hcnt, seqZ_cons by lia. cbn [map]. f_equal.
  - unfold pipe_get. do 3 f_equal. lia.
  - replace (Z.succ 0) with (0 + 1) by lia. rewrite <- (fmap_add_seqZ 1 0), <- list_fmap_compose.
    replace (Z.pred (pipe_count p)) with (pipe_count p - 1) by lia.
    apply list_fmap_ext. intros i j _. cbn. do 2 f_equal. rewrite <- (Zplus_mod_idemp_l (u32 _)), u32_mod_PIPESIZE, Zplus_mod_idemp_l. f_equal. lia.
Qed.

Definition pipe_puts (bs : list Z) (p : pipe) : pipe := foldl (fun p b => pipe_put b p) p bs.
Definition pipe_room (p : pipe) : Z := PIPESIZE - pipe_count p.

Lemma length_pipe_bytes_Z p : Z.of_nat (length (pipe_bytes p)) = pipe_count p.
Proof. rewrite length_pipe_bytes. apply Z2Nat.id. apply u32_range. Qed.

Lemma pipe_puts_queue bs : forall p, pipe_ok p -> Z.of_nat (length bs) <= pipe_room p ->
  pipe_ok (pipe_puts bs p) /\ pipe_bytes (pipe_puts bs p) = pipe_bytes p ++ bs.
Proof.
  induction bs as [|b bs IH]; intros p Hok Hr; [now rewrite app_nil_r|]. cbn [pipe_puts foldl length] in *.
  assert (Hf : pipe_full p = false).
  { apply not_true_is_false. rewrite (full_count p Hok). unfold pipe_room in Hr. lia. }
  destruct (pipe_put_queue b p Hok Hf) as [Hok' E].
  destruct (IH (pipe_put b p) Hok') as [H1 H2].
  - unfold pipe_room in *. rewrite <- !length_pipe_bytes_Z in *. rewrite E, length_app. cbn [length]. lia.
  - split; [done|]. fold (pipe_puts bs (pipe_put b p)). rewrite H2, E, <- app_assoc. done.
Qed.

Lemma puts_open bs : forall p, pi_readopen (pipe_puts bs p) = pi_readopen p /\ pi_writeopen (pipe_puts bs p) = pi_writeopen p.
Proof. induction bs as [|b bs IH]; intros p; [done|]. exact (IH (pipe_put b p)). Qed.

Lemma get_pipe_upd pi f k : get_pipe pi (upd_pipe pi f k) = f (get_pipe pi k).
Proof. unfold get_pipe, upd_pipe. cbn. now rewrite decide_True. Qed.

(** [k'] is [k] with the pipe [pi] changed to [p]. *)
Definition pipe_is (pi : Z) (p : pipe) (k k' : kernel) : Prop :=
  exists P, k' = set_k_pipes P k /\ P pi = p /\ forall a, a <> pi -> P a = k_pipes k a.

Lemma pipe_is_refl pi k : pipe_is pi (get_pipe pi k) k k.
Proof. exists (k_pipes k). split; [now destruct k|done]. Qed.

Lemma pipe_is_upd pi f k : pipe_is pi (f (get_pipe pi k)) k (upd_pipe pi f k).
Proof.
  eexists. split; [reflexivity|]. cbn. rewrite decide_True by done. split; [done|]. intros a Ha. now rewrite decide_False.
Qed.

Lemma pipe_is_trans pi p p' k1 k2 k3 : pipe_is pi p k1 k2 -> pipe_is pi p' k2 k3 -> pipe_is pi p' k1 k3.
Proof.
  intros (P & -> & _ & HP) (P' & -> & E & HP'). exists P'. split; [done|]. split; [done|]. intros a Ha. rewrite HP' by done. now apply HP.
Qed.

Lemma pipe_is_get pi p k k' : pipe_is pi p k k' -> get_pipe pi k' = p.
Proof. intros (P & -> & E & _). exact E. Qed.

(** ** Writing *)

Section user_memory.
Context (e root : Z) (G : gmap (list Z) Z) (pr : nat) (pi : Z).

(** The caller's address space, as the copies of [pipewrite] and [piperead] see it. *)
Definition caller (k : kernel) : Prop :=
  p_pagetable (get_proc pr k) = root /\ aspace e (k_mem k) root G.

Lemma caller_pipe p k k' : pipe_is pi p k k' -> caller k -> caller k'.
Proof. intros (P & -> & _) H. exact H. Qed.

Lemma copyin_byte k va :
  caller k -> 0 <= va -> va + 1 <= 2 ^ 63 ->
  copyin root va 1 k = if upage (k_mem k) G va then Ok (0, [k_mem k (uaddr (k_mem k) G va)]) k else Ok (-1, []) k.
Proof.
  intros [_ Has] H0 H1. destruct (copyin_loop_run e root G k 1 va 1 Has H0 ltac:(lia) H1 ltac:(lia)) as (n & (Hn & Hup & Hnot) & E).
  unfold copyin. change (Z.to_nat 1) with 1%nat. rewrite E. destruct (decide (n = 1)) as [->|].
  - specialize (Hup 0 ltac:(lia)). rewrite Z.add_0_r in Hup. rewrite Hup. done.
  - assert (n = 0) as -> by lia. specialize (Hnot ltac:(lia)). rewrite Z.add_0_r in Hnot. rewrite Hnot. done.
Qed.

(** How the loop ends after [w] more bytes. *)
Lemma pipewrite_loop_run fuel : forall i n addr k,
  caller k -> pipe_ok (get_pipe pi k) -> 0 <= addr -> 0 <= i <= n -> addr + n <= 2 ^ 63 -> fuel = Z.to_nat (n - i) ->
  exists w k', 0 <= w <= n - i /\ w <= pipe_room (get_pipe pi k) /\
    (forall j, 0 <= j < w -> upage (k_mem k) G (addr + i + j) = true) /\
    pipe_is pi (pipe_puts (ubytes (k_mem k) G (addr + i) w) (get_pipe pi k)) k k' /\
    (w < n - i -> w < pipe_room (get_pipe pi k) -> upage (k_mem k) G (addr + i + w) = false) /\
    pipewrite_loop fuel pr pi addr i n k =
      if (w =? n - i) || (w <? pipe_room (get_pipe pi k)) then Ok (Some (i + w)) k' else pipewrite_wait pr pi k'.
Proof.
  induction fuel as [|fuel IH]; intros i n addr k Hcl Hok Ha Hi Hn Hf.
  - exists 0, k. assert (n = i) as -> by lia. rewrite Z.sub_diag, Z.eqb_refl. cbn [orb pipewrite_loop].
    split; [lia|]. split; [unfold pipe_room; pose proof (po_count _ Hok); lia|]. split; [lia|]. split; [apply pipe_is_refl|]. split; [lia|]. now rewrite Z.add_0_r.
  - cbn [pipewrite_loop]. destruct (Z.ltb_spec i n) as [Hlt|]; [|lia]. cbn [negb]. unfold bind at 1, gets at 1.
    destruct (pipe_full (get_pipe pi k)) eqn:Ef.
    + apply (full_count _ Hok) in Ef. exists 0, k. unfold pipe_room. rewrite Ef, Z.sub_diag.
      rewrite (proj2 (Z.eqb_neq 0 (n - i))) by lia. cbn [orb Z.ltb Z.compare].
      split; [lia|]. split; [lia|]. split; [lia|]. split; [apply pipe_is_refl|]. split; [lia|done].
    + assert (Hroom : 0 < pipe_room (get_pipe pi k)).
      { unfold pipe_room. pose proof (po_count _ Hok). enough (pipe_count (get_pipe pi k) <> PIPESIZE) by lia.
        intros E. apply (full_count _ Hok) in E. congruence. }
      pose proof (copyin_byte k (addr + i) Hcl ltac:(lia) ltac:(lia)) as Ec.
      unfold bind at 1, gets at 1. rewrite (proj1 Hcl), u64_small by lia. unfold bind at 1. rewrite Ec.
      destruct (upage (k_mem k) G (addr + i)) eqn:Hu.
      * change (0 =? -1) with false. cbn iota. unfold bind at 1, modify.
        set (b := k_mem k (uaddr (k_mem k) G (addr + i))) in *.
        destruct (pipe_put_queue b _ Hok Ef) as [Hok1 Eb].
        pose proof (pipe_is_upd pi (pipe_put b) k) as Hp1. set (k1 := upd_pipe pi (pipe_put b) k) in *.
        assert (Hroom1 : pipe_room (get_pipe pi k1) = pipe_room (get_pipe pi k) - 1).
        { unfold pipe_room. rewrite (pipe_is_get _ _ _ _ Hp1), <- !length_pipe_bytes_Z, Eb, length_app. cbn [length]. lia. }
        destruct (IH (i + 1) n addr k1) as (w & k' & W1 & W2 & W3 & W4 & W5 & W6);
          [exact Hcl|now rewrite (pipe_is_get _ _ _ _ Hp1)|lia|lia|lia|lia|].
        change (k_mem k1) with (k_mem k) in *. rewrite Hroom1 in *. rewrite (pipe_is_get _ _ _ _ Hp1) in W4.
        exists (1 + w), k'. split; [lia|]. split; [lia|]. split; [|split; [|split]].
        -- intros j Hj. destruct (decide (j = 0)) as [->|]; [now rewrite Z.add_0_r|].
           replace (addr + i + j) with (addr + (i + 1) + (j - 1)) by lia. apply W3. lia.
        -- rewrite ubytes_app by lia. replace (addr + i + 1) with (addr + (i + 1)) by lia.
           apply (pipe_is_trans _ _ _ _ _ _ Hp1). exact W4.
        -- intros H1 H2. replace (addr + i + (1 + w)) with (addr + (i + 1) + w) by lia. apply W5; lia.
        -- change ([b] !!! 0%nat) with b. fold k1. rewrite W6.
           replace (1 + w =? n - i) with (w =? n - (i + 1)) by (apply Bool.eq_iff_eq_true; lia).
           replace (1 + w <? pipe_room (get_pipe pi k)) with (w <? pipe_room (get_pipe pi k) - 1) by (apply Bool.eq_iff_eq_true; lia).
           now replace (i + (1 + w)) with (i + 1 + w) by lia.
      * change (-1 =? -1) with true. cbn iota. exists 0, k. rewrite (proj2 (Z.ltb_lt 0 _)) by lia. rewrite orb_true_r.
        split; [lia|]. split; [lia|]. split; [lia|]. split; [apply pipe_is_refl|]. split; [intros _ _; now rewrite Z.add_0_r|].
        now rewrite Z.add_0_r.
Qed.

(** The caller of a system call on a pipe: no spin lock held, no pipe lock taken. *)
Record on_pipe (k : kernel) : Prop := {
  op_idle : idle k;
  op_proc : h_proc (k_hart k) = Some pr;
  op_table : table_ok k;
  op_pr : (pr < NPROC)%nat;
  op_caller : caller k;
  op_pipe : pipe_ok (get_pipe pi k) }.

Lemma on_pipe_noise k k' : noise k k' -> on_pipe k -> on_pipe k' /\ k_mem k' = k_mem k /\ get_pipe pi k' = get_pipe pi k /\ k_procs k' = k_procs k.
Proof.
  intros Hn [[Hq Hz] H2 H3 H4 [H5 H6] H7].
  assert (Em : k_mem k' = k_mem k) by exact (noise_eq k_mem _ _ ltac:(done) Hn).
  assert (Ep : get_pipe pi k' = get_pipe pi k) by exact (noise_eq (get_pipe pi) _ _ ltac:(done) Hn).
  pose proof (noise_procs _ _ Hn) as Eps. split; [|done].
  split; [split; [exact (noise_quiet _ _ Hn Hq)|]| |unfold table_ok; now rewrite Eps|done| |now rewrite Ep].
  - destruct Hn as (? & ? & -> & _). exact Hz.
  - destruct Hn as (? & ? & -> & _). exact H2.
  - unfold caller. rewrite (noise_proc _ _ _ Hn), Em. done.
Qed.

(** The loops run with the pipe's lock held: [k1] is such a state. *)
Lemma pipe_locked k k1 p :
  on_pipe k -> pipe_is pi p (acquired (LK_pipe pi) k) k1 ->
  k_hart k1 = k_hart (acquired (LK_pipe pi) k) /\ k_locks k1 = k_locks (acquired (LK_pipe pi) k) /\
  k_procs k1 = k_procs k /\ ready k1 /\ procs_free k1 /\ table_ok k1 /\ h_noff (k_hart k1) = 1.
Proof.
  intros [[[Hr Hf] Hz] H2 H3 _ _ _] (P & -> & _). split; [done|]. split; [done|]. split; [done|].
  split; [exact (acquired_ready (LK_pipe pi) k Hr)|]. split.
  - intros q. exact (acquired_free (LK_pipe pi) (LK_proc q) k ltac:(done) (Hf _)).
  - split; [done|]. cbn. now rewrite Hz.
Qed.

(** Waking the other side and leaving. *)
Lemma wp_pipe_leave k k1 p ch (r : Z) Q :
  on_pipe k -> pipe_is pi p (acquired (LK_pipe pi) k) k1 ->
  (forall k', get_pipe pi k' = p -> k_procs k' = map (wake ch) (k_procs k) -> k_mem k' = k_mem k1 -> quiet k' -> Q r k') ->
  wp (wakeup ch ;;; release (LK_pipe pi) ;;; ret r) Q k1.
Proof.
  intros Hk Hp HQ. destruct (pipe_locked k k1 p Hk Hp) as (Hh & Hl & Eps & Hr & Hf & Ht & _).
  destruct (op_idle _ Hk) as [[Hrk Hfk] _].
  apply wp_bind, wp_wakeup; [done..|]. intros k2 Hn2. apply wp_bind.
  eapply (wp_release (LK_pipe pi) k _ k2); [done|apply Hfk| | |exact Hn2|]; [exact Hh|exact Hl|]. intros k3 Hn3. apply wp_ret.
  assert (Eg : get_pipe pi k1 = p) by exact (pipe_is_get _ _ _ _ Hp). apply HQ.
  - rewrite <- Eg. exact (noise_eq (get_pipe pi) _ _ ltac:(done) Hn3).
  - rewrite (noise_procs _ _ Hn3). cbn. now rewrite Eps.
  - exact (noise_eq k_mem _ _ ltac:(done) Hn3).
  - apply (noise_quiet _ _ Hn3). split; [exact Hrk|]. exact Hfk.
Qed.

(** Waking one side and going to sleep on the other. *)
Lemma pipe_sleep k k1 p ch ch' :
  on_pipe k -> pipe_is pi p (acquired (LK_pipe pi) k) k1 ->
  exists k', (wakeup ch ;;; sleep ch' (LK_pipe pi)) k1 = Susp Swtch k' /\ get_pipe pi k' = p /\
    get_proc pr k' = set_p_state SLEEPING (set_p_chan ch' (wake ch (get_proc pr k))) /\
    forall q, q <> pr -> k_procs k' !! q = wake ch <$> k_procs k !! q.
Proof.
  intros Hk Hp. destruct (pipe_locked k k1 p Hk Hp) as (Hh & Hl & Eps & Hr & Hf & Ht & Hz).
  assert (W : wp (wakeup ch) (fun _ k' => noise (set_k_procs (map (wake ch) (k_procs k1)) k1) k') k1) by (apply wp_wakeup; done).
  apply wp_run in W as ([] & k2 & E2 & Hn2). exists (asleep pr ch' (LK_pipe pi) k2).
  assert (Eps2 : k_procs k2 = map (wake ch) (k_procs k)) by (rewrite (noise_procs _ _ Hn2); cbn; now rewrite Eps).
  assert (Hlt : (pr < length (k_procs k2))%nat) by (rewrite Eps2, length_map, (op_table _ Hk); apply Hk).
  assert (Epr : get_proc pr k2 = wake ch (get_proc pr k)).
  { unfold get_proc. rewrite Eps2, !list_lookup_total_alt, list_lookup_fmap.
    destruct (lookup_lt_is_Some_2 (k_procs k) pr) as [x ->]; [rewrite (op_table _ Hk); apply Hk|done]. }
  assert (Hh2 : h_noff (k_hart k2) = 1 /\ h_proc (k_hart k2) = Some pr).
  { destruct Hn2 as (? & ? & -> & _). cbn. rewrite Hz, Hh. split; [done|]. apply Hk. }
  split; [|split; [|split]].
  - kstep E2. rewrite (sleep_run pr); [now rewrite (proj1 Hh2)|exact (noise_hart_ok _ _ Hn2 Hr)|apply Hh2|lia|done|done| |].
    + apply (noise_held _ _ _ Hn2). unfold held_here. cbn. rewrite Hl, Hh. apply acquired_held.
    + apply (noise_free _ _ _ Hn2). apply Hf.
  - transitivity (get_pipe pi k2); [done|]. transitivity (get_pipe pi k1); [exact (noise_eq (get_pipe pi) _ _ ltac:(done) Hn2)|].
    exact (pipe_is_get _ _ _ _ Hp).
  - unfold asleep. rewrite upd_proc_upd, get_proc_upd by exact Hlt. change (get_proc pr (released _ _)) with (get_proc pr k2). now rewrite Epr.
  - intros q Hq. unfold asleep. rewrite upd_proc_upd. unfold upd_proc. cbn [k_procs set_k_procs]. rewrite list_lookup_alter_ne by done.
    change (k_procs (released (LK_pipe pi) (acquired (LK_proc pr) k2))) with (k_procs k2). rewrite Eps2. apply list_lookup_fmap.
Qed.

(** ** Reading *)

Lemma copyout_byte k va b :
  caller k -> 0 <= va -> va + 1 <= 2 ^ 63 ->
  exists m', copyout root va [b] k = Ok (if upage (k_mem k) G va then 0 else -1) (set_k_mem m' k) /\
    user_written (k_mem k) m' G va (if upage (k_mem k) G va then [b] else []).
Proof.
  intros [_ Has] H0 H1. destruct (copyout_loop_run e root G 1 k va [b] Has H0 H1 ltac:(done)) as (n & m' & (Hn & Hup & Hnot) & E & Hw).
  change (Z.of_nat (length [b])) with 1 in *. unfold copyout. change (length [b]) with 1%nat. rewrite E. exists m'.
  destruct (decide (n = 1)) as [->|].
  - specialize (Hup 0 ltac:(lia)). rewrite Z.add_0_r in Hup. rewrite Hup. eauto.
  - assert (n = 0) as -> by lia. specialize (Hnot ltac:(lia)). rewrite Z.add_0_r in Hnot. rewrite Hnot. eauto.
Qed.

(** [k'] is [k] after [w] of at most [c] bytes went from the pipe to the caller's
    memory at [a].  The copy stops before [c] bytes only at an address that is not
    writable, and the byte meant for it leaves the pipe all the same. *)
Record drained (k k' : kernel) (a c w : Z) : Prop := {
  dr_range : 0 <= w <= c;
  dr_to : forall j, 0 <= j < w -> upage (k_mem k) G (a + j) = true;
  dr_stop : w < c -> upage (k_mem k) G (a + w) = false;
  dr_ok : pipe_ok (get_pipe pi k');
  dr_open : pi_readopen (get_pipe pi k') = pi_readopen (get_pipe pi k) /\ pi_writeopen (get_pipe pi k') = pi_writeopen (get_pipe pi k);
  dr_queue : pipe_bytes (get_pipe pi k') = drop (Z.to_nat (if w <? c then w + 1 else w)) (pipe_bytes (get_pipe pi k));
  dr_mem : user_written (k_mem k) (k_mem k') G a (take (Z.to_nat w) (pipe_bytes (get_pipe pi k))) }.

Lemma drained_none k a c : pipe_ok (get_pipe pi k) -> c = 0 -> drained k k a c 0.
Proof.
  intros Hok ->. split; [lia..|done|done|done|]. split; [intros j b Hj; discriminate|done].
Qed.

(** One byte goes out, then the rest. *)
Lemma drained_cons k k1 k' a c w m1 :
  caller k -> pipe_ok (get_pipe pi k) -> pipe_empty (get_pipe pi k) = false -> 0 <= a -> upage (k_mem k) G a = true ->
  user_written (k_mem k) m1 G a [pipe_get (get_pipe pi k)] ->
  k_mem k1 = m1 -> get_pipe pi k1 = pipe_advance (get_pipe pi k) ->
  drained k1 k' (a + 1) c w -> drained k k' a (1 + c) (1 + w).
Proof.
  intros Hcl Hok Ef Ha Hu Hw1 Em1 Ep1 [W1 W2 W3 W4 [W5 W5'] W6 W7]. destruct (pipe_get_queue _ Hok Ef) as [_ Eq].
  rewrite Em1, Ep1 in *. set (b := pipe_get _) in *. set (q1 := pipe_bytes (pipe_advance _)) in *.
  assert (Hu1 : forall j, (j < length [b])%nat -> upage (k_mem k) G (a + Z.of_nat j) = true).
  { intros j Hj. cbn [length] in Hj. assert (j = 0)%nat as -> by lia. now rewrite Z.add_0_r. }
  destruct (user_written_aspace e _ m1 root G a [b] (proj2 Hcl) Ha Hu1 Hw1) as [_ Hpte].
  assert (Hup : forall x, upage m1 G x = upage (k_mem k) G x) by (intros x; unfold upage; now rewrite Hpte).
  assert (Hall : forall j, 0 <= j < 1 + w -> upage (k_mem k) G (a + j) = true).
  { intros j Hj. destruct (decide (j = 0)) as [->|]; [now rewrite Z.add_0_r|].
    rewrite <- Hup. replace (a + j) with (a + 1 + (j - 1)) by lia. apply W2. lia. }
  split; [lia|exact Hall| |done|done| |].
  - intros Hlt. rewrite <- Hup. replace (a + (1 + w)) with (a + 1 + w) by lia. apply W3. lia.
  - rewrite W6, Eq. replace (1 + w <? 1 + c) with (w <? c) by (apply Bool.eq_iff_eq_true; lia).
    destruct (w <? c); [replace (Z.to_nat (1 + w + 1)) with (S (Z.to_nat (w + 1))) by lia|replace (Z.to_nat (1 + w)) with (S (Z.to_nat w)) by lia]; done.
  - rewrite Eq. replace (Z.to_nat (1 + w)) with (S (Z.to_nat w)) by lia. change (take (S (Z.to_nat w)) (b :: q1)) with ([b] ++ take (Z.to_nat w) q1).
    apply (user_written_app e _ m1 _ root); [apply Hcl|lia| |exact Hw1|exact Hpte|exact W7].
    intros j Hj. rewrite length_app, length_take in Hj. cbn [length] in Hj. apply Hall. lia.
Qed.

Lemma piperead_loop_run fuel : forall i n addr k,
  caller k -> pipe_ok (get_pipe pi k) -> 0 <= addr -> 0 <= i <= n -> addr + n <= 2 ^ 63 -> fuel = Z.to_nat (n - i) ->
  exists w P m', drained k (set_k_mem m' (set_k_pipes P k)) (addr + i) (Z.min (n - i) (pipe_count (get_pipe pi k))) w /\
    (forall a, a <> pi -> P a = k_pipes k a) /\
    piperead_loop fuel pr pi addr i n k = Ok (i + w) (set_k_mem m' (set_k_pipes P k)).
Proof.
  assert (Hid : forall k, set_k_mem (k_mem k) (set_k_pipes (k_pipes k) k) = k) by (now intros []).
  induction fuel as [|fuel IH]; intros i n addr k Hcl Hok Ha Hi Hn Hf.
  - exists 0, (k_pipes k), (k_mem k). rewrite Hid, Z.add_0_r. split; [|done]. apply drained_none; [done|].
    pose proof (u32_range (pi_nwrite (get_pipe pi k) - pi_nread (get_pipe pi k))). unfold pipe_count. lia.
  - cbn [piperead_loop]. destruct (Z.ltb_spec i n) as [Hlt|]; [|lia]. cbn [negb]. unfold bind at 1, gets at 1.
    destruct (pipe_empty (get_pipe pi k)) eqn:Ef.
    + exists 0, (k_pipes k), (k_mem k). rewrite Hid, Z.add_0_r. split; [|done]. apply drained_none; [done|].
      apply (empty_count _ Hok) in Ef. rewrite Ef. lia.
    + destruct (pipe_get_queue _ Hok Ef) as [Hok1 Eq]. set (b := pipe_get (get_pipe pi k)) in *.
      assert (Hc : pipe_count (get_pipe pi k) = 1 + pipe_count (pipe_advance (get_pipe pi k))).
      { rewrite <- !length_pipe_bytes_Z, Eq. cbn [length]. lia. }
      pose proof (u32_range (pi_nwrite (get_pipe pi k) - u32 (pi_nread (get_pipe pi k) + 1)) : 0 <= pipe_count (pipe_advance (get_pipe pi k)) < _).
      unfold bind at 1, modify. set (k1 := upd_pipe pi pipe_advance k).
      assert (Ep1 : get_pipe pi k1 = pipe_advance (get_pipe pi k)) by apply get_pipe_upd.
      destruct (copyout_byte k1 (addr + i) b Hcl ltac:(lia) ltac:(lia)) as (m1 & Eo & Hw1). change (k_mem k1) with (k_mem k) in *.
      unfold bind at 1, gets at 1. change (get_proc pr k1) with (get_proc pr k). rewrite (proj1 Hcl), u64_small by lia. kstep Eo.
      destruct (upage (k_mem k) G (addr + i)) eqn:Hu.
      * change (0 =? -1) with false. cbn iota.
        destruct (user_written_aspace e _ m1 root G (addr + i) [b] (proj2 Hcl) ltac:(lia)) as [Has1 _]; [|exact Hw1|].
        { intros j Hj. cbn [length] in Hj. assert (j = 0)%nat as -> by lia. now rewrite Z.add_0_r. }
        destruct (IH (i + 1) n addr (set_k_mem m1 k1)) as (w & P & m' & D & HP & E);
          [exact (conj (proj1 Hcl) Has1)|change (pipe_ok (get_pipe pi k1)); now rewrite Ep1|lia..|].
        exists (1 + w), P, m'. split; [|split; [|rewrite E; f_equal; lia]].
        2: { intros a Hne. rewrite HP by done. cbn. now rewrite decide_False. }
        replace (Z.min (n - i) (pipe_count (get_pipe pi k))) with (1 + Z.min (n - (i + 1)) (pipe_count (get_pipe pi k1))) by (rewrite Ep1; lia).
        apply (drained_cons k (set_k_mem m1 k1) _ _ _ _ m1); [done|done|done|lia|done|done|done|done|].
        replace (addr + i + 1) with (addr + (i + 1)) by lia. exact D.
      * change (-1 =? -1) with true. cbn iota. exists 0, (k_pipes k1), m1. change (set_k_mem m1 (set_k_pipes (k_pipes k1) k)) with (set_k_mem m1 k1).
        rewrite Z.add_0_r. split; [|split; [intros a Hne; cbn; now rewrite decide_False|done]]. split.
        -- lia.
        -- lia.
        -- intros _. now rewrite Z.add_0_r.
        -- change (pipe_ok (get_pipe pi k1)). now rewrite Ep1.
        -- change (get_pipe pi (set_k_mem m1 k1)) with (get_pipe pi k1). now rewrite Ep1.
        -- change (get_pipe pi (set_k_mem m1 k1)) with (get_pipe pi k1). rewrite Ep1, (proj2 (Z.ltb_lt 0 _)) by lia. now rewrite Eq.
        -- exact Hw1.
Qed.

Lemma drained_ext k1 k2 k1' k2' a c w :
  get_pipe pi k1 = get_pipe pi k1' -> k_mem k1 = k_mem k1' -> get_pipe pi k2 = get_pipe pi k2' -> k_mem k2 = k_mem k2' ->
  drained k1 k2 a c w -> drained k1' k2' a c w.
Proof. intros E1 E2 E3 E4 [H1 H2 H3 H4 H5 H6 H7]. rewrite E1, E3, ?E2, ?E4 in *. now split. Qed.

Lemma pipe_sleep_first k ch :
  on_pipe k ->
  exists k', sleep ch (LK_pipe pi) (acquired (LK_pipe pi) k) = Susp Swtch k' /\ get_pipe pi k' = get_pipe pi k /\
    get_proc pr k' = set_p_state SLEEPING (set_p_chan ch (get_proc pr k)) /\
    forall q, q <> pr -> k_procs k' !! q = k_procs k !! q.
Proof.
  intros Hk. destruct (pipe_locked k _ _ Hk (pipe_is_refl pi (acquired (LK_pipe pi) k))) as (_ & _ & Eps & Hr & Hf & Ht & Hz).
  set (k1 := acquired (LK_pipe pi) k) in *. assert (Hlt : (pr < length (k_procs k1))%nat) by (rewrite Ht; apply Hk).
  exists (asleep pr ch (LK_pipe pi) k1). split; [|split; [done|split]].
  - rewrite (sleep_run pr); [now rewrite Hz|exact Hr|apply Hk|lia|done|done|apply acquired_held|apply Hf].
  - unfold asleep. rewrite upd_proc_upd, get_proc_upd by exact Hlt. done.
  - intros q Hq. unfold asleep. rewrite upd_proc_upd. unfold upd_proc. cbn [k_procs set_k_procs]. now rewrite list_lookup_alter_ne.
Qed.

(** A copy into the caller's memory leaves the caller a caller. *)
Lemma on_pipe_drained k k1 m' P a c w :
  on_pipe k -> 0 <= a -> get_pipe pi k1 = get_pipe pi k -> k_mem k1 = k_mem k ->
  drained k1 (set_k_mem m' (set_k_pipes P k1)) a c w -> on_pipe (set_k_mem m' k).
Proof.
  intros [H1 H2 H3 H4 H5 H6] Ha Ep Em [W1 W2 W3 W4 W5 W6 W7]. rewrite Em in *. split; try done.
  split; [apply H5|]. eapply (user_written_aspace e (k_mem k) m' root G a); [apply H5|exact Ha| |exact W7].
  intros j Hj. rewrite length_take in Hj. apply W2. lia.
Qed.
End user_memory.

(** C36: [pipewrite] appends to the pipe's queue.  It takes the caller's bytes one by
    one until they are all in the pipe, the next one is not readable, or the pipe is
    full.  In the first two cases it returns the number of bytes taken and wakes the
    readers.  When the pipe is full it returns -1 if no reader is left or the caller
    is killed, and otherwise wakes the readers and gives up the CPU, asleep on the
    pipe.  In every case the queue is the old queue followed by the bytes taken, also
    when the 32-bit counters wrap around. *)
Theorem pipewrite_correct e root G pr pi addr n k :
  on_pipe e root G pr pi k -> 0 <= addr -> 0 <= n -> addr + n <= 2 ^ 63 ->
  let p := get_pipe pi k in
  exists w, 0 <= w <= n /\ w <= pipe_room p /\ (forall j, 0 <= j < w -> upage (k_mem k) G (addr + j) = true) /\
    (w < n -> w < pipe_room p -> upage (k_mem k) G (addr + w) = false) /\
    let queued k' := pipe_ok (get_pipe pi k') /\ pipe_bytes (get_pipe pi k') = pipe_bytes p ++ ubytes (k_mem k) G addr w in
    if (w =? n) || (w <? pipe_room p)
    then wp (pipewrite pi addr n) (fun r k' => r = w /\ queued k' /\ k_procs k' = map (wake (CH_pipe_nread pi)) (k_procs k) /\ quiet k') k
    else if negb (pi_readopen p) || nz (p_killed (get_proc pr k))
    then wp (pipewrite pi addr n) (fun r k' => r = -1 /\ queued k' /\ k_procs k' = k_procs k /\ quiet k') k
    else exists k', pipewrite pi addr n k = Susp Swtch k' /\ queued k' /\
      get_proc pr k' = set_p_state SLEEPING (set_p_chan (CH_pipe_nwrite pi) (wake (CH_pipe_nread pi) (get_proc pr k))) /\
      forall q, q <> pr -> k_procs k' !! q = wake (CH_pipe_nread pi) <$> k_procs k !! q.
Proof.
  intros Hk Ha Hn Hmax p. pose proof Hk as [[[Hr _] _] Hp _ _ _ _]. destruct (myproc_run k Hr) as (k0 & Em & Hn0). rewrite Hp in Em.
  destruct (on_pipe_noise _ _ _ _ _ _ _ Hn0 Hk) as (Hk0 & Em0 & Ep0 & Eps0). pose proof Hk0 as [[[Hr0 Hf0] _] _ _ _ Hcl0 Hok0].
  set (k1 := acquired (LK_pipe pi) k0).
  assert (Erun : pipewrite pi addr n k = (let* r := pipewrite_loop (Z.to_nat n) pr pi addr 0 n in pipewrite_end pi r) k1).
  { unfold pipewrite, myproc_ix, bind at 1 2. rewrite Em. cbn [ret]. kstep (acquire_run (LK_pipe pi) k0 (Hf0 _)). done. }
  destruct (pipewrite_loop_run e root G pr pi (Z.to_nat n) 0 n addr k1) as (w & k2 & W1 & W2 & W3 & W4 & W5 & W6);
    [exact Hcl0|exact Hok0|lia|lia|lia|f_equal; lia|].
  change (get_pipe pi k1) with (get_pipe pi k0) in *. change (k_mem k1) with (k_mem k0) in *. rewrite Ep0, Em0 in *. fold p in W2, W4, W5, W6, Hok0.
  rewrite Z.sub_0_r, Z.add_0_r, ?Z.add_0_l in *. exists w. split; [done|]. split; [done|]. split; [done|]. split; [done|].
  assert (Hlenw : length (ubytes (k_mem k) G addr w) = Z.to_nat w) by (unfold ubytes; now rewrite length_fmap, length_seqZ).
  destruct (pipe_puts_queue (ubytes (k_mem k) G addr w) p Hok0 ltac:(lia)) as [Hok2 Eb2]. set (p2 := pipe_puts _ p) in *. intros queued.
  assert (Hq : forall k', get_pipe pi k' = p2 -> queued k') by (intros k' E; unfold queued; rewrite E; done).
  destruct ((w =? n) || (w <? pipe_room p)).
  - unfold wp. rewrite Erun. kstep W6. cbn [pipewrite_end].
    apply (wp_pipe_leave e root G pr pi k0 k2 p2 (CH_pipe_nread pi) w
      (fun r k' => r = w /\ queued k' /\ k_procs k' = map (wake (CH_pipe_nread pi)) (k_procs k) /\ quiet k') Hk0 W4).
    intros k' E1 E2 _ Hq'. rewrite Eps0 in E2. auto.
  - assert (Ep2 : get_pipe pi k2 = p2) by exact (pipe_is_get _ _ _ _ W4).
    assert (Ero : pi_readopen p2 = pi_readopen p) by apply puts_open.
    destruct (pipe_locked _ _ _ _ _ _ _ _ Hk0 W4) as (Hh & Hl & Eps & Hr2 & Hf2 & Ht2 & Hz2).
    assert (Epr : get_proc pr k2 = get_proc pr k) by (unfold get_proc; now rewrite Eps, Eps0).
    assert (Ew : pipewrite pi addr n k = (let* r := pipewrite_wait pr pi in pipewrite_end pi r) k2).
    { rewrite Erun. unfold bind. now rewrite W6. }
    destruct (negb (pi_readopen p) || nz (p_killed (get_proc pr k))) eqn:Ec.
    + destruct (release_noise (LK_pipe pi) k0 k2 k2 Hr0 (Hf0 _) Hh Hl (noise_refl _)) as (k3 & E3 & Hn3).
      unfold wp. rewrite Ew. unfold pipewrite_wait, bind, gets. rewrite Ep2, Ero, Epr, Ec, E3. cbn [ret pipewrite_end].
      split; [done|]. split; [apply Hq; rewrite <- Ep2; exact (noise_eq (get_pipe pi) _ _ ltac:(done) Hn3)|].
      split; [rewrite (noise_procs _ _ Hn3); cbn; now rewrite Eps|]. exact (noise_quiet _ _ Hn3 (conj Hr0 Hf0)).
    + destruct (pipe_sleep e root G pr pi k0 k2 p2 (CH_pipe_nread pi) (CH_pipe_nwrite pi) Hk0 W4) as (k3 & E3 & P3 & S3 & O3).
      exists k3. split; [|split; [now apply Hq|]].
      * rewrite Ew. unfold pipewrite_wait, bind, gets. rewrite Ep2, Ero, Epr, Ec. unfold bind in E3.
        destruct (wakeup (CH_pipe_nread pi) k2); [now rewrite E3|done|now injection E3 as -> ->].
      * split; [rewrite S3; unfold get_proc; now rewrite Eps0|]. intros q Hqn. rewrite O3 by done. now rewrite Eps0.
Qed.

(** C37: [piperead] takes from the front of the pipe's queue.  While the queue is empty
    and a writer is left it returns -1 if the caller is killed, and otherwise goes to
    sleep on the pipe.  Otherwise it moves as many bytes as the queue has, at most [n],
    into the caller's memory in order, leaves the rest of the queue, wakes the writers
    and returns the number of bytes moved: 0 when the last writer is gone and the
    queue is empty.  At the first address that is not writable it stops, and the byte
    meant for that address is lost. *)
Theorem piperead_correct e root G pr pi addr n k :
  on_pipe e root G pr pi k -> 0 <= addr -> 0 <= n -> addr + n <= 2 ^ 63 ->
  let p := get_pipe pi k in
  if pipe_empty p && pi_writeopen p
  then if nz (p_killed (get_proc pr k))
    then wp (piperead pi addr n) (fun r k' => r = -1 /\ get_pipe pi k' = p /\ k_procs k' = k_procs k /\ quiet k') k
    else exists k', piperead pi addr n k = Susp Swtch k' /\ get_pipe pi k' = p /\
      get_proc pr k' = set_p_state SLEEPING (set_p_chan (CH_pipe_nread pi) (get_proc pr k)) /\
      forall q, q <> pr -> k_procs k' !! q = k_procs k !! q
  else wp (piperead pi addr n) (fun r k' => drained G pi k k' addr (Z.min n (pipe_count p)) r /\
         k_procs k' = map (wake (CH_pipe_nwrite pi)) (k_procs k) /\ quiet k') k.
Proof.
  intros Hk Ha Hn Hmax p. pose proof Hk as [[[Hr _] _] Hp _ _ _ _]. destruct (myproc_run k Hr) as (k0 & Em & Hn0). rewrite Hp in Em.
  destruct (on_pipe_noise _ _ _ _ _ _ _ Hn0 Hk) as (Hk0 & Em0 & Ep0 & Eps0). pose proof Hk0 as [[[Hr0 Hf0] _] _ _ _ Hcl0 Hok0].
  set (k1 := acquired (LK_pipe pi) k0).
  assert (Erun : piperead pi addr n k = piperead_locked pr pi addr n k1).
  { unfold piperead, myproc_ix, bind at 1 2. rewrite Em. cbn [ret]. kstep (acquire_run (LK_pipe pi) k0 (Hf0 _)). done. }
  unfold piperead_locked, bind at 1, gets at 1 in Erun. change (get_pipe pi k1) with (get_pipe pi k0) in Erun. rewrite Ep0 in Erun. fold p in Erun.
  assert (Epr : get_proc pr k1 = get_proc pr k) by (unfold get_proc; cbn; now rewrite Eps0).
  destruct (pipe_empty p && pi_writeopen p).
  - unfold bind at 1, gets in Erun. rewrite Epr in Erun. destruct (nz (p_killed (get_proc pr k))).
    + destruct (release_noise (LK_pipe pi) k0 k1 k1 Hr0 (Hf0 _) eq_refl eq_refl (noise_refl _)) as (k3 & E3 & Hn3).
      unfold bind in Erun. rewrite E3 in Erun. unfold wp. rewrite Erun. cbn [ret]. split; [done|].
      split; [unfold p; rewrite <- Ep0; exact (noise_eq (get_pipe pi) _ _ ltac:(done) Hn3)|].
      split; [rewrite (noise_procs _ _ Hn3); exact Eps0|]. exact (noise_quiet _ _ Hn3 (conj Hr0 Hf0)).
    + destruct (pipe_sleep_first e root G pr pi k0 (CH_pipe_nread pi) Hk0) as (k3 & E3 & P3 & S3 & O3).
      exists k3. unfold bind in Erun. fold k1 in E3. rewrite E3 in Erun. split; [done|]. split; [now rewrite P3|].
      split; [rewrite S3; unfold get_proc; now rewrite Eps0|]. intros q Hq. rewrite O3 by done. now rewrite Eps0.
  - destruct (piperead_loop_run e root G pr pi (Z.to_nat n) 0 n addr k1) as (w & P & m' & D & HP & E); [exact Hcl0|exact Hok0|lia|lia|lia|f_equal; lia|].
    rewrite Z.sub_0_r, Z.add_0_r, Z.add_0_l in *. change (get_pipe pi k1) with (get_pipe pi k0) in D. rewrite Ep0 in D. fold p in D.
    set (k2 := set_k_mem m' (set_k_pipes P k1)) in *. unfold wp. rewrite Erun. kstep E.
    pose proof (on_pipe_drained e root G pr pi k0 k1 m' P _ _ _ Hk0 Ha eq_refl eq_refl D) as Hk2.
    assert (Hpi : pipe_is pi (get_pipe pi k2) (acquired (LK_pipe pi) (set_k_mem m' k0)) k2).
    { exists P. done. }
    apply (wp_pipe_leave e root G pr pi (set_k_mem m' k0) k2 (get_pipe pi k2) (CH_pipe_nwrite pi) w
      (fun r k' => drained G pi k k' addr (Z.min n (pipe_count p)) r /\ k_procs k' = map (wake (CH_pipe_nwrite pi)) (k_procs k) /\ quiet k') Hk2 Hpi).
    intros k' E1 E2 E3 Hq'. cbn in E2. rewrite Eps0 in E2. split; [|done]. revert D. apply drained_ext; [exact Ep0|exact Em0|now rewrite E1|now rewrite E3].
Qed.

(** A pipe with two bytes in it, whose write counter has wrapped around; its reader is
    process 3 of [running_state]. *)
Definition pipe_state : kernel :=
  set_k_mem small_mem (set_k_pipes (fun _ => mk_pipe (<[511%nat := 65]> (<[0%nat := 66]> (repeat 0 512))) (2 ^ 32 - 1) 1 true true)
    (upd_proc 3 (set_p_pagetable 0x87ffd000) running_state)).

Lemma pipe_state_on : on_pipe 0x80026000 0x87ffd000 small_table 3 0x87f00000 pipe_state.
Proof.
  split; [split; [split; [exact boot_hart_ok|done]|done]|done|done|cbv; lia|split; [done|exact small_aspace]|].
  split; [done|cbn; lia|cbn; lia|done].
Qed.

Example pipewrite_correct_witness :
  exists w, 0 <= w <= 600 /\ w <= 510 /\
    pipe_bytes (get_pipe 0x87f00000 pipe_state) = [65; 66] /\
    (if (w =? 600) || (w <? 510) then wp (pipewrite 0x87f00000 0x100 600) (fun r k' => r = w) pipe_state
     else exists k', pipewrite 0x87f00000 0x100 600 pipe_state = Susp Swtch k' /\ p_state (get_proc 3 k') = SLEEPING).
Proof.
  pose proof (pipewrite_correct 0x80026000 0x87ffd000 small_table 3 0x87f00000 0x100 600 pipe_state pipe_state_on
    ltac:(done) ltac:(done) ltac:(done)) as T.
  cbv zeta in T. assert (E1 : pipe_room (get_pipe 0x87f00000 pipe_state) = 510) by (vm_compute; reflexivity).
  assert (E2 : negb (pi_readopen (get_pipe 0x87f00000 pipe_state)) || nz (p_killed (get_proc 3 pipe_state)) = false) by (vm_compute; reflexivity).
  rewrite E1, E2 in T. destruct T as (w & H1 & H2 & _ & _ & T).
  exists w. split; [exact H1|]. split; [exact H2|]. split; [vm_compute; reflexivity|].
  destruct ((w =? 600) || (w <? 510)).
  - apply (wp_mono _ _ _ _ T). intros r k' [E _]. exact E.
  - destruct T as (k' & E & _ & S & _). exists k'. split; [exact E|]. rewrite S. reflexivity.
Defined.

Example piperead_correct_witness :
  wp (piperead 0x87f00000 0xfff 10) (fun r k' => drained small_table 0x87f00000 pipe_state k' 0xfff 2 r /\ quiet k') pipe_state.
Proof.
  pose proof (piperead_correct 0x80026000 0x87ffd000 small_table 3 0x87f00000 0xfff 10 pipe_state pipe_state_on
    ltac:(done) ltac:(done) ltac:(done)) as T.
  cbv zeta in T. assert (E1 : pipe_empty (get_pipe 0x87f00000 pipe_state) && pi_writeopen (get_pipe 0x87f00000 pipe_state) = false) by (vm_compute; reflexivity).
  assert (E2 : Z.min 10 (pipe_count (get_pipe 0x87f00000 pipe_state)) = 2) by (vm_compute; reflexivity).
  rewrite E1, E2 in T.
  apply (wp_mono _ _ _ _ T). intros r k' (D & _ & H). exact (conj D H).
Defined.
