(* ===== verification/ConsoleEdit.v ===== *)
(** * Line editing at the console (kernel/console.c)

    What a key does to the line being edited and to the screen, and what a reader
    gets: [consoleintr] and [consoleread] against a line editor of two lists. *)

From stdpp Require Import base numbers list gmap strings.
From S2P Require Import Prelude Kstate Kstring Spinlock Kalloc Vm Sched Uart Printf Console Pipe.

(** ** Printing synchronously *)

(** The state after the bytes [out] have been sent, when [lsr] is left of what the line
    status register will report. *)
Definition shown (out lsr : list Z) (k : kernel) : kernel :=
  upd_uart (fun u => set_ua_lsr lsr (set_ua_sent (ua_sent u ++ out) u)) k.

Lemma shown_nil k : shown [] (ua_lsr (k_uart k)) k = k.
Proof. destruct k as [? ? ? ? ? ? ? ? ? ? ? ? ? ? ? ? ? ? ? ? ? [] ? ? ? ? ? ?]. unfold shown, upd_uart. cbn. now rewrite app_nil_r. Qed.

Lemma shown_shown o1 o2 l1 l2 k : shown o2 l2 (shown o1 l1 k) = shown (o1 ++ o2) l2 k.
Proof. unfold shown, upd_uart. cbn. now rewrite <- app_assoc. Qed.

Lemma shown_noise o l k k' : noise k k' -> noise (shown o l k) (shown o l k').
Proof. now apply (noise_update (shown o l)). Qed.

Section printing.
Context (ps : list proc).

(** States in which code that takes the locks [lks] can print. *)
Definition can_print (lks : lockname -> Prop) (k : kernel) : Prop :=
  ready k /\ (forall lk, lks lk -> lock_free lk k) /\ k_panicked k = false /\ k_procs k = ps.

(** [m] sends the bytes [out] and does nothing else. *)
Definition prints (lks : lockname -> Prop) (m : K unit) (out : list Z) : Prop :=
  forall k, can_print lks k -> wp m (fun _ k' => exists lsr, noise (shown out lsr k) k') k.

Lemma can_print_shown lks o l k k' : noise (shown o l k) k' -> can_print lks k -> can_print lks k'.
Proof.
  intros Hn (H1 & H2 & H3 & H4). split; [exact (noise_hart_ok _ _ Hn H1)|]. split; [intros lk Hlk; exact (noise_free _ _ _ Hn (H2 lk Hlk))|].
  split; [now rewrite (noise_eq k_panicked _ _ ltac:(done) Hn)|now rewrite (noise_procs _ _ Hn)].
Qed.

Lemma prints_ret lks : prints lks (ret tt) [].
Proof. intros k _. apply wp_ret. exists (ua_lsr (k_uart k)). rewrite shown_nil. apply noise_refl. Qed.

Lemma prints_seq lks m1 m2 o1 o2 : prints lks m1 o1 -> prints lks m2 o2 -> prints lks (m1 ;;; m2) (o1 ++ o2).
Proof.
  intros H1 H2 k Hk. apply wp_bind. eapply wp_mono; [exact (H1 k Hk)|]. intros [] k1 [l1 N1].
  eapply wp_mono; [exact (H2 k1 (can_print_shown _ _ _ _ _ N1 Hk))|]. intros [] k2 [l2 N2]. exists l2.
  rewrite <- (shown_shown o1 o2 l1). transitivity (shown o2 l2 k1); [now apply shown_noise|exact N2].
Qed.

Lemma prints_weaken (lks lks' : lockname -> Prop) m out : (forall lk, lks lk -> lks' lk) -> prints lks m out -> prints lks' m out.
Proof. intros Hl H k (H1 & H2 & H3 & H4). apply H. split; [done|]. split; [|done]. intros lk Hlk. apply H2. now apply Hl. Qed.

Lemma prints_each {A} lks (l : list A) (f : A -> K unit) (out : A -> list Z) :
  (forall x, x ∈ l -> prints lks (f x) (out x)) -> prints lks (for_each l f) (concat (map out l)).
Proof.
  induction l as [|x l IH]; intros H; cbn [for_each concat map]; [exact (prints_ret lks)|].
  apply prints_seq; [apply H; left|]. apply IH. intros y Hy. apply H. now right.
Qed.

(** Waiting for the transmitter always ends: the device is idle once the recorded
    values of its status register are used up. *)
Lemma wait_idle_run n : forall k, (length (ua_lsr (k_uart k)) < n)%nat ->
  exists lsr, wait_idle n k = Ok tt (upd_uart (set_ua_lsr lsr) k).
Proof.
  induction n as [|n IH]; intros k Hn; [lia|]. cbn [wait_idle]. unfold read_LSR.
  destruct (ua_lsr (k_uart k)) as [|v t] eqn:E.
  - exists []. unfold bind, gets. rewrite E. cbn. rewrite <- E. now destruct k as [? ? ? ? ? ? ? ? ? ? ? ? ? ? ? ? ? ? ? ? ? [] ? ? ? ? ? ?].
  - unfold bind, gets. rewrite E. unfold modify, ret. destruct (_ =? 0); [|eauto].
    destruct (IH (upd_uart (set_ua_lsr t) k)) as [lsr El]; [cbn in *; lia|]. exists lsr. exact El.
Qed.

Lemma prints_sync lks c : prints lks (uartputc_sync c) [u8 c].
Proof.
  intros k (Hr & _ & Hp & _). unfold uartputc_sync, wp. kstep (push_off_run k). unfold bind at 1, gets at 1.
  change (k_panicked (upd_hart pushed k)) with (k_panicked k). rewrite Hp. unfold bind at 1, gets at 1.
  destruct (wait_idle_run (S (length (ua_lsr (k_uart (upd_hart pushed k))))) (upd_hart pushed k) ltac:(lia)) as [lsr E].
  kstep E. unfold write_THR. unfold bind at 1, modify at 1.
  rewrite pop_off_run; [|exact (pushed_off (k_hart k))|destruct Hr as [? _]; cbn; lia].
  exists lsr. exists (h_intena (popped (pushed (k_hart k)))), (k_locks k). split; [|split; [|auto]].
  - unfold shown, upd_uart, upd_hart. cbn [k_hart set_k_uart set_k_hart k_uart k_locks set_k_locks]. rewrite popped_pushed by done.
    cbn. now destruct k as [? ? ? ? ? ? ? ? ? ? ? ? ? ? ? ? ? ? ? ? ? [] ? ? ? ? ? ?].
  - cbn. destruct (Z.eqb_spec (h_noff (k_hart k)) 0); auto.
Qed.

(** The bytes that [consputc] sends: a backspace overwrites with a space. *)
Definition echo (c : Z) : list Z := if c =? BACKSPACE then [8; 32; 8] else [u8 c].

Lemma prints_consputc lks c : prints lks (consputc c) (echo c).
Proof.
  unfold consputc, echo. destruct (_ =? _); [|apply prints_sync].
  apply (prints_seq _ _ _ [8]); [apply prints_sync|]. apply (prints_seq _ _ _ [32]); apply prints_sync.
Qed.

(** The bytes sent for a string. *)
Definition say (l : list Z) : list Z := concat (map echo l).

Lemma prints_say lks l : prints lks (for_each l consputc) (say l).
Proof. apply prints_each. intros c _. apply prints_consputc. Qed.

(** [printf] takes [pr.lock] around the text, unless locking is off. *)
Lemma prints_printf fmt ap out : prints (fun _ => False) (printf_loop fmt ap) out -> prints (eq LK_pr) (printf fmt ap) out.
Proof.
  intros H k (Hr & Hf & Hp & Hps). specialize (Hf LK_pr eq_refl). unfold printf. apply wp_bind, wp_gets.
  destruct (k_prlocking k); cbn [when].
  - apply wp_bind, wp_acquire; [done|]. apply wp_bind. eapply wp_mono; [apply (H (acquired LK_pr k))|].
    { split; [exact (acquired_ready LK_pr k Hr)|]. split; done. }
    intros [] k1 [lsr Hn]. apply (wp_release LK_pr k (shown out lsr (acquired LK_pr k))); [done..|].
    intros k2 Hn2. exists lsr. replace (relock k (shown out lsr (acquired LK_pr k))) with (shown out lsr k) in Hn2 by now destruct k. exact Hn2.
  - apply wp_bind, wp_ret, wp_bind. eapply wp_mono; [apply H|].
    { split; [done|]. split; done. }
    intros [] k1 [lsr Hn]. apply wp_ret. now exists lsr.
Qed.

(** What ^P shows of a process. *)
Definition proc_line (p : proc) : list Z :=
  if bool_decide (p_state p = UNUSED) then [] else
  say (rev (printint_buf (p_pid p) 10 true)) ++ [32] ++ say (state_name (p_state p)) ++ [32] ++
  say (cstr (list_bytes (p_name p)) (length (p_name p))) ++ [10].

Lemma prints_line : prints (eq LK_pr) (printf [10] []) [10].
Proof. apply prints_printf. cbn. apply (prints_seq _ _ _ [10] []); [apply (prints_consputc _ 10)|apply prints_ret]. Qed.

Lemma prints_proc pid s name :
  prints (eq LK_pr) (printf (bytes "%d %s %s") [VInt pid; VStr (Some s); VStr (Some name)])
    (say (rev (printint_buf pid 10 true)) ++ [32] ++ say s ++ [32] ++ say name).
Proof.
  apply prints_printf. change (bytes "%d %s %s") with [37; 100; 32; 37; 115; 32; 37; 115]. cbn [printf_loop].
  apply prints_seq; [apply prints_say|]. apply prints_seq; [apply (prints_consputc _ 32)|].
  apply prints_seq; [apply prints_say|]. apply prints_seq; [apply (prints_consputc _ 32)|].
  rewrite <- (app_nil_r (say name)). apply prints_seq; [apply prints_say|apply prints_ret].
Qed.

(** The listing of ^P: every slot of the table that is in use. *)
Definition dump : list Z := [10] ++ concat (map (fun p => proc_line (ps !!! p)) all_procs).

Lemma prints_procdump : prints (eq LK_pr) procdump dump.
Proof.
  unfold procdump, dump. apply prints_seq; [apply prints_line|]. apply prints_each. intros p _ k Hk.
  apply wp_bind, wp_gets. unfold get_proc. pose proof Hk as (_ & _ & _ & E). rewrite E. clear E. revert k Hk.
  generalize (ps !!! p). intros q. unfold proc_line. case_bool_decide; [exact (prints_ret (eq LK_pr))|].
  rewrite !(app_assoc _ _ [10]). apply prints_seq; [apply prints_proc|apply prints_line].
Qed.
End printing.

(** ** The ring of characters

    [c_r] and [c_e] count characters modulo [2^32]; the characters between them are the
    queue [q], the one number [i] at index [i mod INPUT_BUF]. *)
Record ring (c : consst) (q : list Z) : Prop := {
  ri_buf : length (c_buf c) = Z.to_nat INPUT_BUF;
  ri_r : 0 <= c_r c < 2 ^ 32;
  ri_e : c_e c = u32 (c_r c + Z.of_nat (length q));
  ri_len : (length q <= Z.to_nat INPUT_BUF)%nat;
  ri_data : forall i x, q !! i = Some x -> c_buf c !! Z.to_nat ((c_r c + Z.of_nat i) mod INPUT_BUF) = Some x }.

Lemma u32_ring x : u32 x mod INPUT_BUF = x mod INPUT_BUF.
Proof. unfold u32. change INPUT_BUF with 128. symmetry. apply Znumtheory.Zmod_div_mod; [lia..|]. exists (2 ^ 25). reflexivity. Qed.

Lemma u32_add_l x y : u32 (u32 x + y) = u32 (x + y).
Proof. unfold u32. now rewrite Zplus_mod_idemp_l. Qed.

Lemma u32_inj r i j : 0 <= i <= 128 -> 0 <= j <= 128 -> u32 (r + i) = u32 (r + j) <-> i = j.
Proof. intros Hi Hj. split; [|now intros ->]. unfold u32. zdiv. Qed.

Lemma ring_index c q i : ring c q -> (i < length q)%nat -> cons_byte (c_r c + Z.of_nat i) c = q !!! i.
Proof.
  intros [_ _ _ _ Hd] Hi. destruct (lookup_lt_is_Some_2 q i Hi) as [x Hx]. unfold cons_byte.
  rewrite (list_lookup_total_correct _ _ _ (Hd i x Hx)). symmetry. now apply list_lookup_total_correct.
Qed.

Lemma cons_byte_u32 i c : cons_byte (u32 i) c = cons_byte i c.
Proof. unfold cons_byte. now rewrite u32_ring. Qed.

Lemma ring_count c q : ring c q -> u32 (c_e c - c_r c) = Z.of_nat (length q).
Proof. intros [_ _ He Hl _]. rewrite He. change (Z.to_nat INPUT_BUF) with 128%nat in Hl. unfold u32. zdiv. Qed.

(** A character goes in at [c_e]. *)
Definition cons_put (x : Z) (c : consst) : consst :=
  set_c_e (u32 (c_e c + 1)) (set_c_buf (<[Z.to_nat (c_e c mod INPUT_BUF) := x]> (c_buf c)) c).

Lemma ring_put c q x : ring c q -> (length q < Z.to_nat INPUT_BUF)%nat -> ring (cons_put x c) (q ++ [x]).
Proof.
  intros [Hb Hr He Hl Hd] Hlt. change (Z.to_nat INPUT_BUF) with 128%nat in *.
  assert (Ei : c_e c mod INPUT_BUF = (c_r c + Z.of_nat (length q)) mod INPUT_BUF) by now rewrite He, u32_ring.
  split; cbn.
  - now rewrite length_insert.
  - done.
  - rewrite length_app, He, u32_add_l. cbn. f_equal. lia.
  - rewrite length_app. change (Z.to_nat INPUT_BUF) with 128%nat. cbn. lia.
  - intros i y Hy. rewrite Ei. change INPUT_BUF with 128. apply lookup_app_Some in Hy as [Hy|[Hge Hy]].
    + pose proof (lookup_lt_Some _ _ _ Hy). rewrite list_lookup_insert_ne; [now apply Hd|]. intros E. apply Z2Nat.inj in E; zdiv.
    + apply list_lookup_singleton_Some in Hy as [Hz <-]. replace i with (length q) by lia.
      apply list_lookup_insert_eq. rewrite Hb. zdiv.
Qed.

(** The last one goes out. *)
Definition cons_erase (c : consst) : consst := set_c_e (u32 (c_e c - 1)) c.

Lemma ring_erase c q x : ring c (q ++ [x]) -> ring (cons_erase c) q /\ cons_byte (u32 (c_e c - 1)) c = x.
Proof.
  intros Hq. pose proof Hq as [Hb Hr He Hl Hd]. rewrite length_app in *. cbn [length] in *. split; [split; cbn|].
  - done.
  - done.
  - rewrite He. unfold Z.sub. rewrite u32_add_l. f_equal. lia.
  - lia.
  - intros i y Hy. apply Hd. now apply lookup_app_l_Some.
  - rewrite He. unfold Z.sub. rewrite u32_add_l. replace (c_r c + _ + -(1)) with (c_r c + Z.of_nat (length q)) by lia.
    rewrite cons_byte_u32, (ring_index c (q ++ [x])); [|done|rewrite length_app; cbn; lia]. now rewrite list_lookup_total_middle.
Qed.

(** The first one goes out. *)
Lemma ring_take c q x : ring c (x :: q) -> ring (set_c_r (u32 (c_r c + 1)) c) q /\ cons_byte (c_r c) c = x.
Proof.
  intros Hq. pose proof Hq as [Hb Hr He Hl Hd]. cbn [length] in *. split; [split; cbn|].
  - done.
  - apply u32_range.
  - rewrite He, u32_add_l. f_equal. lia.
  - lia.
  - intros i y Hy. rewrite <- (Hd (S i) y Hy). f_equal. f_equal. rewrite <- Zplus_mod_idemp_l, u32_ring, Zplus_mod_idemp_l. f_equal. lia.
  - rewrite <- (Z.add_0_r (c_r c)). now apply (ring_index c (x :: q) 0); [|cbn; lia].
Qed.

(** ** The line editor *)

(** Characters that a reader may take, and characters of the line being edited. *)
Record editor := mk_editor { ed_done : list Z; ed_line : list Z }.

Record cons_is (c : consst) (ed : editor) : Prop := {
  ci_ring : ring c (ed_done ed ++ ed_line ed);
  ci_w : c_w c = u32 (c_r c + Z.of_nat (length (ed_done ed)));
  ci_line : newline ∉ ed_line ed }.

Definition ed_full (ed : editor) : bool := bool_decide (length (ed_done ed ++ ed_line ed) = Z.to_nat INPUT_BUF).

(** What a key does: the new state, the bytes shown (those of the process listing being
    [listing]), and whether waiting readers are woken. *)
Definition key (listing : list Z) (c : Z) (ed : editor) : editor * list Z * bool :=
  if c =? ctrl 80 then (ed, listing, false)
  else if c =? ctrl 85 then (mk_editor (ed_done ed) [], concat (replicate (length (ed_line ed)) [8; 32; 8]), false)
  else if (c =? ctrl 72) || (c =? 0x7f) then
    match ed_line ed with
    | [] => (ed, [], false)
    | _ :: _ => (mk_editor (ed_done ed) (removelast (ed_line ed)), [8; 32; 8], false)
    end
  else if (c =? 0) || ed_full ed then (ed, [], false)
  else
    let c := if c =? 13 then newline else c in
    let line := ed_line ed ++ [c] in
    if (c =? newline) || (c =? ctrl 68) || ed_full (mk_editor (ed_done ed) line)
    then (mk_editor (ed_done ed ++ line) [], [c], true)
    else (mk_editor (ed_done ed) line, [c], false).

Lemma cons_is_erase c d l x : cons_is c (mk_editor d (l ++ [x])) ->
  cons_is (cons_erase c) (mk_editor d l) /\ cons_byte (u32 (c_e c - 1)) c = x /\ x <> newline.
Proof.
  intros [Hr Hw Hl]. cbn in *. rewrite app_assoc in Hr. destruct (ring_erase _ _ _ Hr) as [Hr' Hx].
  rewrite elem_of_app, list_elem_of_singleton in Hl. split; [|split; [done|intros ->; tauto]].
  split; [exact Hr'|exact Hw|cbn; tauto].
Qed.

Lemma cons_is_line c ed : cons_is c ed -> (c_e c =? c_w c) = bool_decide (ed_line ed = []).
Proof.
  intros [[_ _ He Hl _] Hw _]. rewrite He, Hw. rewrite length_app in *. change (Z.to_nat INPUT_BUF) with 128%nat in Hl.
  apply Bool.eq_iff_eq_true. rewrite Z.eqb_eq, u32_inj, bool_decide_eq_true by lia.
  rewrite <- length_zero_iff_nil. lia.
Qed.

Lemma cons_is_full c ed : cons_is c ed ->
  (u32 (c_e c - c_r c) <? INPUT_BUF) = negb (ed_full ed) /\ (c_e c =? u32 (c_r c + INPUT_BUF)) = ed_full ed.
Proof.
  intros [Hr _ _]. rewrite (ring_count _ _ Hr). destruct Hr as [_ _ He Hl _]. rewrite He. unfold ed_full.
  change (Z.to_nat INPUT_BUF) with 128%nat in *. change INPUT_BUF with 128 in *.
  split; apply Bool.eq_iff_eq_true; rewrite ?Z.eqb_eq, ?Z.ltb_lt, ?u32_inj, ?negb_true_iff, ?bool_decide_eq_true, ?bool_decide_eq_false by lia; lia.
Qed.

Definition after (ps : list proc) (cs : consst) (out lsr : list Z) (k : kernel) : kernel :=
  set_k_procs ps (set_k_cons cs (shown out lsr k)).

Lemma after_noise ps cs out lsr k k' : noise k k' -> noise (after ps cs out lsr k) (after ps cs out lsr k').
Proof. now apply (noise_update (after ps cs out lsr)). Qed.

Lemma after_after P ps cs cs' o o' lsr lsr' k :
  after P cs' o' lsr' (after ps cs o lsr k) = after P cs' (o ++ o') lsr' k.
Proof. unfold after, shown, upd_uart. cbn. now rewrite <- app_assoc. Qed.

Lemma after_now k : after (k_procs k) (k_cons k) [] (ua_lsr (k_uart k)) k = k.
Proof. unfold after. rewrite shown_nil. now destruct k. Qed.

Section keys.
Context (ps : list proc).

(** From the state [k], if the kernel can print in it and the console is [ed], the code
    gets to a state in which it is [ed'] and [out] has been shown. *)
Definition edits_at (k : kernel) (lks : lockname -> Prop) (m : K unit) (ed : editor) (out : list Z) (ed' : editor) (ps' : list proc) : Prop :=
  can_print ps lks k -> cons_is (k_cons k) ed ->
  wp m (fun _ k' => exists cs lsr, cons_is cs ed' /\ noise (after ps' cs out lsr k) k') k.
Definition edits (lks : lockname -> Prop) (m : K unit) (ed : editor) (out : list Z) (ed' : editor) (ps' : list proc) : Prop :=
  forall k, edits_at k lks m ed out ed' ps'.

Lemma edits_none lks ed : edits lks (ret tt) ed [] ed ps.
Proof.
  intros k (_ & _ & _ & <-) Hc. apply wp_ret. exists (k_cons k), (ua_lsr (k_uart k)). split; [done|].
  rewrite after_now. apply noise_refl.
Qed.

Lemma edits_at_seq k lks m1 m2 ed0 o1 ed1 o2 ed2 ps' :
  edits_at k lks m1 ed0 o1 ed1 ps -> edits lks m2 ed1 o2 ed2 ps' -> edits_at k lks (m1 ;;; m2) ed0 (o1 ++ o2) ed2 ps'.
Proof.
  intros H1 H2 Hk Hc. apply wp_bind. eapply wp_mono; [exact (H1 Hk Hc)|]. intros [] k1 (cs & l1 & Hcs & N1).
  eapply wp_mono; [apply (H2 k1)|].
  - destruct Hk as (Hr & Hf & Hp & Hps). split; [exact (noise_hart_ok _ _ N1 Hr)|]. split; [intros lk Hlk; exact (noise_free _ _ _ N1 (Hf lk Hlk))|].
    split; [now rewrite (noise_eq k_panicked _ _ ltac:(done) N1)|now rewrite (noise_procs _ _ N1)].
  - now rewrite (noise_eq k_cons _ _ ltac:(done) N1).
  - intros [] k2 (cs2 & l2 & Hcs2 & N2). exists cs2, l2. split; [done|]. rewrite <- (after_after _ ps cs _ o1 o2 l1).
    transitivity (after ps' cs2 o2 l2 k1); [now apply after_noise|exact N2].
Qed.

Lemma edits_print lks m out ed : prints ps lks m out -> edits lks m ed out ed ps.
Proof.
  intros H k Hk Hc. eapply wp_mono; [exact (H k Hk)|]. intros [] k' [lsr N]. exists (k_cons k), lsr. split; [done|].
  destruct Hk as (_ & _ & _ & <-). replace (after (k_procs k) (k_cons k) out lsr k) with (shown out lsr k); [exact N|].
  unfold after. now destruct k.
Qed.

Lemma edits_at_modify k lks f ed ed' : cons_is (f (k_cons k)) ed' -> edits_at k lks (modify (upd_cons f)) ed [] ed' ps.
Proof.
  intros H (_ & _ & _ & <-) Hc. apply wp_modify. exists (f (k_cons k)), (ua_lsr (k_uart k)). split; [exact H|].
  unfold after. rewrite shown_nil. now destruct k.
Qed.

(** A character is taken off the line. *)
Lemma edits_backspace k lks d l x : cons_is (k_cons k) (mk_editor d (l ++ [x])) ->
  edits_at k lks (modify (upd_cons (set_c_e (u32 (c_e (k_cons k) - 1)))) ;;; consputc BACKSPACE)
    (mk_editor d (l ++ [x])) [8; 32; 8] (mk_editor d l) ps.
Proof.
  intros Hc. apply (edits_at_seq _ _ _ _ _ [] (mk_editor d l) [8; 32; 8]).
  - apply edits_at_modify. exact (proj1 (cons_is_erase _ _ _ _ Hc)).
  - apply edits_print, (prints_consputc _ _ BACKSPACE).
Qed.

Lemma edits_kill lks fuel : forall d l, (length l < fuel)%nat ->
  edits lks (kill_line fuel) (mk_editor d l) (concat (replicate (length l) [8; 32; 8])) (mk_editor d []) ps.
Proof.
  induction fuel as [|fuel IH]; intros d l Hf k Hk Hc; [lia|]. cbn [kill_line]. apply wp_bind, wp_gets.
  rewrite (cons_is_line _ _ Hc). cbn [ed_line]. induction l as [|x l' _] using rev_ind.
  - rewrite bool_decide_true by done. exact (edits_none lks _ k Hk Hc).
  - destruct (cons_is_erase _ _ _ _ Hc) as (_ & Hx & Hnl). rewrite Hx, bool_decide_false by now destruct l'.
    rewrite (proj2 (Z.eqb_neq _ _) Hnl). cbn [negb andb]. rewrite length_app in *. cbn [length] in *.
    rewrite Nat.add_comm. cbn [replicate concat Nat.add]. pose proof Hc as H. revert Hk Hc.
    apply (edits_at_seq k lks _ _ _ [] (mk_editor d l')); [apply edits_at_modify; exact (proj1 (cons_is_erase _ _ _ _ H))|].
    intros k'. apply (edits_at_seq k' lks _ _ _ [8; 32; 8] (mk_editor d l')); [apply edits_print, (prints_consputc _ _ BACKSPACE)|].
    apply IH. lia.
Qed.

(** A character is added to the line, and the line handed over if it is complete. *)
Lemma cons_is_put c d l x : cons_is c (mk_editor d l) -> ed_full (mk_editor d l) = false -> x <> newline ->
  cons_is (cons_put x c) (mk_editor d (l ++ [x])).
Proof.
  intros [Hr Hw Hl] Hf Hx. unfold ed_full in Hf. apply bool_decide_eq_false in Hf. cbn in *.
  split; cbn; [|done|rewrite elem_of_app, list_elem_of_singleton; intuition].
  rewrite app_assoc. apply ring_put; [done|]. pose proof (ri_len _ _ Hr). lia.
Qed.

Lemma cons_is_commit c d l x : cons_is c (mk_editor d l) -> ed_full (mk_editor d l) = false ->
  cons_is (set_c_w (c_e (cons_put x c)) (cons_put x c)) (mk_editor (d ++ l ++ [x]) []).
Proof.
  intros [Hr Hw Hl] Hf. unfold ed_full in Hf. apply bool_decide_eq_false in Hf. cbn in Hr, Hw, Hl, Hf.
  assert (Hp : ring (cons_put x c) ((d ++ l) ++ [x])) by (apply ring_put; [done|]; pose proof (ri_len _ _ Hr); lia).
  rewrite <- app_assoc in Hp. split; cbn [ed_done ed_line].
  - rewrite app_nil_r. destruct Hp. now split.
  - exact (ri_e _ _ Hp).
  - apply not_elem_of_nil.
Qed.

(** The last part of [consoleintr]: the character [x] is stored, and the line handed over. *)
Definition complete (d l : list Z) (x : Z) : bool :=
  (x =? newline) || (x =? ctrl 68) || ed_full (mk_editor d (l ++ [x])).

Lemma edits_store (lks : lockname -> Prop) d l x :
  length ps = NPROC -> (forall p, lks (LK_proc p)) -> ed_full (mk_editor d l) = false -> 0 <= x < 256 ->
  edits lks
    (modify (upd_cons (fun s =>
       set_c_e (u32 (c_e s + 1)) (set_c_buf (<[Z.to_nat (c_e s mod INPUT_BUF) := u8 x]> (c_buf s)) s))) ;;;
     let* s := gets k_cons in
     when ((x =? newline) || (x =? ctrl 68) || (c_e s =? u32 (c_r s + INPUT_BUF)))
       (modify (upd_cons (set_c_w (c_e s))) ;;; wakeup CH_cons_r))
    (mk_editor d l) [] (if complete d l x then mk_editor (d ++ l ++ [x]) [] else mk_editor d (l ++ [x]))
    (if complete d l x then map (wake CH_cons_r) ps else ps).
Proof.
  intros Ht Hlk Hf Hx k Hk Hc. assert (E8 : u8 x = x) by (unfold u8; now apply Z.mod_small). rewrite E8.
  apply wp_bind, wp_modify. fold (cons_put x (k_cons k)). apply wp_bind, wp_gets.
  change (k_cons (upd_cons _ k)) with (cons_put x (k_cons k)).
  pose proof (cons_is_commit _ _ _ x Hc Hf) as Hcm. pose proof (proj2 (cons_is_full _ _ Hcm)) as Efull.
  change (c_e (set_c_w _ ?c)) with (c_e c) in Efull. change (c_r (set_c_w _ ?c)) with (c_r c) in Efull.
  assert (Ed : ed_full (mk_editor (d ++ l ++ [x]) []) = ed_full (mk_editor d (l ++ [x]))) by (unfold ed_full; cbn; now rewrite app_nil_r).
  rewrite Efull, Ed. fold (complete d l x). destruct (complete d l x) eqn:Ecm; cbn [when].
  - apply wp_bind, wp_modify. destruct Hk as (Hr & Hfr & Hp & Hps).
    apply wp_wakeup; [exact Hr|intros p; exact (Hfr _ (Hlk p))|unfold table_ok; now rewrite <- Hps in Ht|].
    intros k' N. exists (set_c_w (c_e (cons_put x (k_cons k))) (cons_put x (k_cons k))), (ua_lsr (k_uart k)). split; [exact Hcm|].
    unfold after. rewrite shown_nil, <- Hps. exact N.
  - apply wp_ret. exists (cons_put x (k_cons k)), (ua_lsr (k_uart k)). split.
    + apply cons_is_put; [done|done|]. intros ->. unfold complete in Ecm. cbn in Ecm. discriminate.
    + unfold after. rewrite shown_nil. destruct Hk as (_ & _ & _ & Eps). rewrite <- Eps. now destruct k.
Qed.

(** The body of [consoleintr], with [cons.lock] held. *)
Lemma edits_key (lks : lockname -> Prop) d l c :
  length ps = NPROC -> (forall p, lks (LK_proc p)) -> lks LK_pr -> 0 <= c < 256 ->
  let '(ed', out, woken) := key (dump ps) c (mk_editor d l) in
  edits lks (consoleintr_switch c) (mk_editor d l) out ed' (if woken then map (wake CH_cons_r) ps else ps).
Proof.
  intros Ht Hlk Hpr Hc. unfold key, consoleintr_switch. cbn [ed_done ed_line]. destruct (c =? ctrl 80).
  { apply edits_print. eapply prints_weaken; [|apply prints_procdump]. now intros ? <-. }
  destruct (c =? ctrl 85).
  { intros k Hk Hci. refine (edits_kill lks _ d l _ k Hk Hci). pose proof (ri_len _ _ (ci_ring _ _ Hci)) as Hl. cbn in Hl. rewrite length_app in Hl. lia. }
  destruct (_ || _).
  { induction l as [|x l' _] using rev_ind.
    - intros k Hk Hci. apply wp_bind, wp_gets. rewrite (cons_is_line _ _ Hci), bool_decide_true by done. exact (edits_none _ _ k Hk Hci).
    - destruct (l' ++ [x]) eqn:E; [now destruct l'|]. rewrite <- E, removelast_last.
      intros k Hk Hci. apply wp_bind, wp_gets. rewrite (cons_is_line _ _ Hci), bool_decide_false by (cbn; now destruct l').
      exact (edits_backspace k lks d l' x Hci Hk Hci). }
  destruct (_ || _) eqn:Eskip.
  - intros k Hk Hci. apply wp_bind, wp_gets. rewrite (proj1 (cons_is_full _ _ Hci)).
    replace (nz c && negb (ed_full (mk_editor d l))) with (negb ((c =? 0) || ed_full (mk_editor d l))) by (rewrite negb_orb; done).
    rewrite Eskip. exact (edits_none _ _ k Hk Hci).
  - set (c' := if c =? 13 then newline else c). assert (Hc' : 0 <= c' < 256) by (unfold c'; change newline with 10; destruct (_ =? 13); lia).
    fold (complete d l c'). apply orb_false_iff in Eskip as [E0 Efull].
    pose proof (edits_store lks d l c' Ht Hlk Efull Hc') as Hst.
    destruct (complete d l c'); intros k Hk Hci; apply wp_bind, wp_gets;
      rewrite (proj1 (cons_is_full _ _ Hci)), Efull; unfold nz; rewrite E0; cbn [negb andb when];
      revert Hk Hci; apply (edits_at_seq k _ _ _ _ [c'] (mk_editor d l)); try exact Hst; apply edits_print.
    all: replace [c'] with (echo c') by (unfold echo, u8; change BACKSPACE with 256; rewrite (proj2 (Z.eqb_neq _ _)), Z.mod_small by lia; done).
    all: apply prints_consputc.
Qed.

End keys.

(** ** A key is pressed *)

(** The machine takes a character from the keyboard: no lock is held. *)
Definition key_ready (k : kernel) : Prop :=
  quiet k /\ table_ok k /\ k_panicked k = false.

(** C33: what [consoleintr] does with any byte from the keyboard, against a line editor of
    two lists: ^P shows the process listing; ^U erases the line being edited and ^H or
    DEL its last character, never what has been handed over already, each erased
    character being overwritten on the screen; a zero byte, and every character once
    128 are unread, is dropped; any other one (a carriage return as a newline) is shown
    and added to the line; a newline, a ^D or a full buffer hands the line over and
    wakes exactly the readers asleep on the console.  The ring's counters may wrap.
    Nothing else of the kernel changes but lock bookkeeping and the reads of the UART's
    status register. *)
Theorem consoleintr_edits k c ed :
  key_ready k -> cons_is (k_cons k) ed -> 0 <= c < 256 ->
  let '(ed', out, woken) := key (dump (k_procs k)) c ed in
  wp (consoleintr c) (fun _ k' => exists cs lsr, cons_is cs ed' /\
    noise (after (if woken then map (wake CH_cons_r) (k_procs k) else k_procs k) cs out lsr k) k') k.
Proof.
  intros ([Hr Hf] & Ht & Hp) Hc Hb. destruct ed as [d l].
  pose proof (edits_key (k_procs k) (fun lk => lk <> LK_cons) d l c Ht ltac:(done) ltac:(done) Hb) as H.
  destruct (key _ _ _) as [[ed' out] woken]. unfold consoleintr. apply wp_bind, wp_acquire; [done|].
  apply wp_bind. eapply wp_mono; [apply (H (acquired LK_cons k)); [|exact Hc]|].
  - split; [exact (acquired_ready LK_cons k Hr)|]. split; [intros lk Hlk; now apply acquired_free|done].
  - intros [] k1 (cs & lsr & Hcs & N). eapply (wp_release LK_cons k); [done|done| | |exact N|]; [done|done|]. intros k2 N2.
    exists cs, lsr. split; [done|]. match type of N2 with noise ?a _ => replace a with (after (if woken then map (wake CH_cons_r) (k_procs k) else k_procs k) cs out lsr k) in N2 by now destruct k end. exact N2.
Qed.


(** ** A process reads *)

(** What a read of at most [n] characters to the address [a] takes from the characters
    handed over: what it delivers, what it leaves, and whether it has to wait for more.
    [got] says that something has been delivered already: a ^D then stays for the next
    read, which it ends with nothing delivered.  The character meant for an address that
    is not writable is lost. *)
Fixpoint take_line (writable : Z -> bool) (a : Z) (n : nat) (got : bool) (q : list Z) : list Z * list Z * bool :=
  match n, q with
  | O, _ => ([], q, false)
  | S _, [] => ([], [], true)
  | S n', c :: q' =>
      if c =? ctrl 68 then ([], if got then q else q', false)
      else if negb (writable a) then ([], q', false)
      else if c =? newline then ([c], q', false)
      else let '(out, rest, wait) := take_line writable (a + 1) n' true q' in (c :: out, rest, wait)
  end.

Section reader.
Context (e root : Z) (G : gmap (list Z) Z) (pr : nat).

(** The process [pr] runs, with [cons.lock] and nothing else held. *)
Record reading (k : kernel) : Prop := {
  rd_ready : ready k;
  rd_noff : h_noff (k_hart k) = 1;
  rd_proc : h_proc (k_hart k) = Some pr;
  rd_caller : caller e root G pr k }.

(** What [consoleread] does when no character is left. *)
Definition consoleread_wait : K (option Z) :=
  let* p := gets (get_proc pr) in
  if nz (p_killed p) then release LK_cons ;;; ret None
  else sleep CH_cons_r LK_cons ;;; ret None.

Lemma cons_is_take c x q l : cons_is c (mk_editor (x :: q) l) ->
  cons_is (set_c_r (u32 (c_r c + 1)) c) (mk_editor q l) /\ cons_byte (c_r c) c = x /\ (c_r c =? c_w c) = false.
Proof.
  intros [Hr Hw Hl]. cbn in Hr, Hw, Hl. destruct (ring_take _ _ _ Hr) as [Hr' Hx]. split; [|split; [exact Hx|]].
  - split; [exact Hr'| |exact Hl]. cbn. rewrite Hw, u32_add_l. f_equal. lia.
  - pose proof (ri_len _ _ Hr) as Hlen. change (Z.to_nat INPUT_BUF) with 128%nat in Hlen. cbn [length] in *. rewrite length_app in Hlen.
    rewrite Hw. apply Z.eqb_neq. intros E.
    assert (E' : u32 (c_r c + 0) = u32 (c_r c + Z.of_nat (S (length q)))) by now rewrite Z.add_0_r, u32_small by apply (ri_r _ _ Hr).
    apply u32_inj in E'; lia.
Qed.

(** The ^D is put back. *)
Lemma cons_is_untake c ed : cons_is c ed -> set_c_r (u32 (u32 (c_r c + 1) - 1)) (set_c_r (u32 (c_r c + 1)) c) = c.
Proof.
  intros [[_ Hr _ _ _] _ _]. unfold Z.sub. rewrite u32_add_l. replace (c_r c + 1 + -(1)) with (c_r c) by lia.
  rewrite u32_small by done. now destruct c.
Qed.

Lemma consoleread_copyout k a x : reading k -> 0 <= a -> a + 1 <= 2 ^ 63 ->
  exists m', either_copyout true a [x] k = Ok (if upage (k_mem k) G a then 0 else -1) (set_k_mem m' k) /\
    user_written (k_mem k) m' G a (if upage (k_mem k) G a then [x] else []).
Proof.
  intros [Hr Hn Hp Hc] H0 H1. destruct (copyout_byte e root G pr k a x Hc H0 H1) as (m' & E & Hw). exists m'. split; [|exact Hw].
  unfold either_copyout. kstep (myproc_held k Hr ltac:(lia)). rewrite Hp. unfold bind, gets. rewrite (proj1 Hc). exact E.
Qed.

Lemma take_line_ext w w' n : (forall a, w a = w' a) -> forall a got q, take_line w a n got q = take_line w' a n got q.
Proof. intros Hw. induction n as [|n IH]; intros a got [|c q]; cbn; [done..|]. now rewrite Hw, IH. Qed.

(** The reader after the loop has moved [out] to [dst]. *)
Definition moved (k : kernel) (dst : Z) (out : list Z) (m' : mem) : Prop :=
  user_written (k_mem k) m' G dst out /\ forall j, (j < length out)%nat -> upage (k_mem k) G (dst + Z.of_nat j) = true.

Lemma moved_nil k dst : moved k dst [] (k_mem k).
Proof. split; [split; [intros i b Hb; discriminate|done]|cbn; lia]. Qed.

Lemma moved_one k dst x m1 : reading k -> 0 <= dst -> upage (k_mem k) G dst = true -> user_written (k_mem k) m1 G dst [x] ->
  moved k dst [x] m1 /\ aspace e m1 root G /\ forall a, pte_of m1 G a = pte_of (k_mem k) G a.
Proof.
  intros Hk Ha Hu Hw. assert (Hj : forall j, (j < length [x])%nat -> upage (k_mem k) G (dst + Z.of_nat j) = true).
  { intros j Hj. cbn in Hj. assert (j = 0)%nat as -> by lia. now rewrite Z.add_0_r. }
  split; [now split|]. exact (user_written_aspace e _ m1 root G dst [x] (proj2 (rd_caller _ Hk)) Ha Hj Hw).
Qed.

Lemma moved_cons k dst x m1 out m2 c1 : reading k -> 0 <= dst -> upage (k_mem k) G dst = true -> user_written (k_mem k) m1 G dst [x] ->
  moved (set_k_cons c1 (set_k_mem m1 k)) (dst + 1) out m2 -> moved k dst (x :: out) m2.
Proof.
  intros Hk Ha Hu Hw [Hw2 Hj2]. destruct (moved_one k dst x m1 Hk Ha Hu Hw) as (_ & _ & Hp). cbn [k_mem set_k_cons set_k_mem] in *.
  assert (Hj : forall j, (j < length (x :: out))%nat -> upage (k_mem k) G (dst + Z.of_nat j) = true).
  { intros [|j] Hj; [now rewrite Z.add_0_r|]. cbn in Hj. unfold upage in *. rewrite <- Hp.
    replace (dst + Z.of_nat (S j)) with (dst + 1 + Z.of_nat j) by lia. apply Hj2. lia. }
  split; [|exact Hj]. change (x :: out) with ([x] ++ out). apply (user_written_app e _ m1 _ root); [apply (rd_caller _ Hk)|lia|exact Hj|exact Hw|exact Hp|exact Hw2].
Qed.

Lemma consoleread_loop_run n : forall k dst target q l,
  reading k -> cons_is (k_cons k) (mk_editor q l) -> 0 <= dst -> dst + Z.of_nat n <= 2 ^ 63 -> Z.of_nat n <= target ->
  let '(out, rest, wait) := take_line (upage (k_mem k) G) dst n (Z.of_nat n <? target) q in
  exists m' cs, cons_is cs (mk_editor rest l) /\ moved k dst out m' /\ (length out <= n)%nat /\
    consoleread_loop n true dst (Z.of_nat n) target k =
      (if wait then consoleread_wait else ret (Some (Z.of_nat n - Z.of_nat (length out)))) (set_k_cons cs (set_k_mem m' k)).
Proof.
  assert (Hid : forall k, set_k_cons (k_cons k) (set_k_mem (k_mem k) k) = k) by now intros [].
  induction n as [|n IH]; intros k dst target q l Hk Hc Ha Hn Ht; cbn [take_line consoleread_loop].
  { exists (k_mem k), (k_cons k). rewrite Hid. split; [done|]. split; [apply moved_nil|]. done. }
  rewrite (proj2 (Z.ltb_lt 0 _)) by lia. cbn [negb]. unfold bind at 1, gets at 1. destruct q as [|x q].
  { exists (k_mem k), (k_cons k). rewrite Hid. split; [done|]. split; [apply moved_nil|]. split; [cbn; lia|].
    rewrite (proj2 (Z.eqb_eq (c_r (k_cons k)) _)).
    - kstep (myproc_nested pr k (rd_ready _ Hk) ltac:(rewrite (rd_noff _ Hk); lia) (rd_proc _ Hk)). done.
    - destruct Hc as [[_ Hr _ _ _] Hw _]. rewrite Hw, Z.add_0_r. symmetry. now apply u32_small. }
  destruct (cons_is_take _ _ _ _ Hc) as (Hc1 & Hx & Hne). rewrite Hne, Hx. unfold bind at 1, modify at 1.
  change (upd_cons _ k) with (set_k_cons (set_c_r (u32 (c_r (k_cons k) + 1)) (k_cons k)) k). set (c1 := set_c_r _ _) in *.
  destruct (x =? ctrl 68).
  { destruct (_ <? target); cbn [when]; unfold bind, modify, ret.
    - exists (k_mem k), (k_cons k). split; [done|]. split; [apply moved_nil|]. split; [cbn; lia|]. rewrite Z.sub_0_r. f_equal.
      transitivity (set_k_cons (set_c_r (u32 (u32 (c_r (k_cons k) + 1) - 1)) c1) k); [done|]. unfold c1. rewrite (cons_is_untake _ _ Hc). now destruct k.
    - exists (k_mem k), c1. split; [done|]. split; [apply moved_nil|]. split; [cbn; lia|]. rewrite Z.sub_0_r. now destruct k. }
  destruct (consoleread_copyout (set_k_cons c1 k) dst x) as (m1 & Ec & Hw1); [now destruct Hk|lia..|].
  change (k_mem (set_k_cons c1 k)) with (k_mem k) in *. kstep Ec. destruct (upage (k_mem k) G dst) eqn:Hu; cbn [negb].
  2: { exists m1, c1. split; [done|]. split; [split; [exact Hw1|cbn; lia]|]. split; [cbn; lia|]. change (-1 =? -1) with true. cbn iota. rewrite Z.sub_0_r. done. }
  change (0 =? -1) with false. cbn iota. destruct (moved_one k dst x m1 Hk Ha Hu Hw1) as (Hone & Has & Hpte). destruct (x =? newline).
  { exists m1, c1. split; [done|]. split; [done|]. split; [cbn; lia|]. unfold ret. cbn [length]. replace (Z.of_nat (S n) - _) with (Z.of_nat (S n) - 1) by lia. done. }
  rewrite u64_small by lia. replace (Z.of_nat (S n) - 1) with (Z.of_nat n) by lia. set (k1 := set_k_mem m1 (set_k_cons c1 k)).
  specialize (IH k1 (dst + 1) target q l).
  rewrite (take_line_ext (upage (k_mem k)  G) (upage (k_mem k1) G)) by (intros a; unfold upage; cbn; now rewrite Hpte).
  rewrite (proj2 (Z.ltb_lt (Z.of_nat n) target)) in IH by lia. destruct (take_line _ _ _ _ _) as [[out rest] wait].
  destruct IH as (m2 & c2 & I1 & I2 & I3 & I4); [|exact Hc1|lia..|].
  - destruct Hk as [H1 H2 H3 [H4 _]]. split; [done..|]. split; [exact H4|exact Has].
  - exists m2, c2. split; [done|]. split; [exact (moved_cons k dst x m1 out m2 c1 Hk Ha Hu Hw1 I2)|]. split; [cbn; lia|].
    rewrite I4. destruct wait; [done|]. unfold ret. cbn [length]. replace (Z.of_nat (S n) - _) with (Z.of_nat n - Z.of_nat (length out)) by lia. done.
Qed.
End reader.

(** C34: a process reads at most [n] bytes from the console.  The read takes from what has
    been handed over exactly what [take_line] says: up to [n] characters, none after a
    newline, none at or after a ^D, which is consumed only by a read that delivers
    nothing; it stops where the buffer is not writable, and loses the character meant
    for that address.  It returns the number of characters it stored, and the line being
    edited is untouched.  When it runs out of characters before the end of a line it
    keeps what it stored and sleeps on the console, or returns -1 if the process has
    been killed. *)
Theorem consoleread_line e root G pr k dst n ed :
  idle k -> h_proc (k_hart k) = Some pr -> table_ok k -> (pr < NPROC)%nat -> caller e root G pr k ->
  cons_is (k_cons k) ed -> 0 <= dst -> dst + Z.of_nat n <= 2 ^ 63 -> Z.of_nat n < 2 ^ 31 ->
  let '(out, rest, wait) := take_line (upage (k_mem k) G) dst n false (ed_done ed) in
  let taken k' := cons_is (k_cons k') (mk_editor rest (ed_line ed)) /\ user_written (k_mem k) (k_mem k') G dst out in
  if wait then
    if nz (p_killed (get_proc pr k))
    then wp (consoleread true dst (Z.of_nat n)) (fun r k' => r = -1 /\ taken k' /\ k_procs k' = k_procs k /\ quiet k') k
    else exists k', consoleread true dst (Z.of_nat n) k = Susp Swtch k' /\ taken k' /\
      get_proc pr k' = set_p_state SLEEPING (set_p_chan CH_cons_r (get_proc pr k)) /\
      forall q, q <> pr -> k_procs k' !! q = k_procs k !! q
  else wp (consoleread true dst (Z.of_nat n))
         (fun r k' => r = Z.of_nat (length out) /\ taken k' /\ k_procs k' = k_procs k /\ quiet k') k.
Proof.
  intros [[Hr Hf] Hz] Hp Ht Hlt Hcl Hc Hd Hn H31. destruct ed as [q l]. cbn [ed_done ed_line].
  set (k1 := acquired LK_cons k). assert (Hlt' : (pr < length (k_procs k))%nat) by (unfold table_ok in Ht; lia).
  pose proof (consoleread_loop_run e root G pr n k1 dst (Z.of_nat n) q l) as L. rewrite Z.ltb_irrefl in L.
  change (k_mem k1) with (k_mem k) in L. change (k_cons k1) with (k_cons k) in L.
  destruct (take_line _ _ _ _ _) as [[out rest] wait].
  destruct L as (m' & cs & L1 & [L2 _] & L3 & L4); [|done|lia..|].
  { split; [exact (acquired_ready LK_cons k Hr)|cbn; lia|exact Hp|exact Hcl]. }
  set (k2 := set_k_cons cs (set_k_mem m' k1)) in *.
  assert (Erun : consoleread true dst (Z.of_nat n) k = (let* r := (if wait then consoleread_wait pr else ret (Some (Z.of_nat n - Z.of_nat (length out)))) in consoleread_end r (Z.of_nat n)) k2).
  { unfold consoleread. rewrite u32_small by lia. kstep (acquire_run LK_cons k (Hf _)). fold k1. rewrite Nat2Z.id. unfold bind at 1. rewrite L4. done. }
  destruct (release_noise LK_cons k k2 k2 Hr (Hf _) eq_refl eq_refl (noise_refl _)) as (k3 & E3 & N3).
  assert (Hafter : (cons_is (k_cons k3) (mk_editor rest l) /\ user_written (k_mem k) (k_mem k3) G dst out) /\ k_procs k3 = k_procs k /\ quiet k3).
  { rewrite (noise_eq k_cons _ _ ltac:(done) N3), (noise_eq k_mem _ _ ltac:(done) N3), (noise_procs _ _ N3).
    split; [done|]. split; [done|]. apply (noise_quiet _ _ N3). split; [exact Hr|exact Hf]. }
  cbv zeta. destruct wait; [destruct (nz (p_killed (get_proc pr k))) eqn:Ek|].
  - unfold wp. rewrite Erun. unfold consoleread_wait, bind, gets. change (get_proc pr k2) with (get_proc pr k). rewrite Ek, E3. done.
  - exists (asleep pr CH_cons_r LK_cons k2). split; [|split; [done|split]].
    + rewrite Erun. unfold consoleread_wait, bind at 1 2, gets. change (get_proc pr k2) with (get_proc pr k). rewrite Ek.
      unfold bind. rewrite (sleep_run pr); [|exact (acquired_ready LK_cons k Hr)|exact Hp|cbn; lia|exact Hlt'|done|exact (acquired_held LK_cons k)|now apply (acquired_free LK_cons (LK_proc pr) k)].
      replace (h_noff (k_hart k2)) with 1 by (cbn; lia). done.
    + unfold asleep. rewrite upd_proc_upd, get_proc_upd by (exact Hlt'). done.
    + intros p Hne. unfold asleep. rewrite upd_proc_upd. unfold upd_proc. cbn [k_procs set_k_procs]. now rewrite list_lookup_alter_ne.
  - unfold wp. rewrite Erun. unfold bind at 1, ret at 1, consoleread_end, bind. rewrite E3. cbn [ret]. split; [|done].
    replace (Z.of_nat n - _) with (Z.of_nat (length out)) by lia. apply i32_small. lia.
Qed.

(** ** Keys and reads on a running machine *)

Lemma boot_cons : cons_is (k_cons running_state) (mk_editor [] []).
Proof. split; [split; [done|cbn; lia|done|cbn; lia|intros i x Hx; discriminate]|done|apply not_elem_of_nil]. Qed.

(** Return is pressed at the beginning of a line. *)
Example consoleintr_edits_witness :
  wp (consoleintr 13) (fun _ k' => exists cs lsr, cons_is cs (mk_editor [10] []) /\
    noise (after (map (wake CH_cons_r) (k_procs running_state)) cs [10] lsr running_state) k') running_state.
Proof.
  pose proof (consoleintr_edits running_state 13 (mk_editor [] []) (conj (proj1 running_idle) (conj eq_refl eq_refl)) boot_cons ltac:(lia)) as T.
  assert (E : forall d, key d 13 (mk_editor [] []) = (mk_editor [10] [], [10], true)) by reflexivity.
  rewrite E in T. exact T.
Defined.

(** Process 3 of [pipe_state] reads a line of two characters that wraps around the ring,
    of which it asks for ten. *)
Definition typed_cons : consst := mk_consst (<[127%nat := 104]> (<[0%nat := 10]> (replicate 128 0))) 127 129 129.
Definition typed_state : kernel := set_k_cons typed_cons pipe_state.

Lemma typed_cons_is : cons_is typed_cons (mk_editor [104; 10] []).
Proof.
  split; [split; [done|cbn; lia|done|apply Nat.leb_le; reflexivity|]|done|apply not_elem_of_nil].
  intros [|[|i]] x Hx; [injection Hx as <-; done|injection Hx as <-; done|discriminate].
Qed.

Example consoleread_line_witness :
  wp (consoleread true 0xffe (Z.of_nat 10)) (fun r k' => r = 2 /\ cons_is (k_cons k') (mk_editor [] [])) typed_state.
Proof.
  pose proof (consoleread_line 0x80026000 0x87ffd000 small_table 3 typed_state 0xffe 10 (mk_editor [104; 10] [])
    (op_idle _ _ _ _ _ _ pipe_state_on) eq_refl eq_refl ltac:(cbv; lia) (op_caller _ _ _ _ _ _ pipe_state_on) typed_cons_is
    ltac:(lia) ltac:(lia) ltac:(lia)) as T.
  cbn [ed_done ed_line] in T.
  assert (E : take_line (upage (k_mem typed_state) small_table) 0xffe 10 false [104; 10] = ([104; 10], [], false)) by (vm_compute; reflexivity).
  rewrite E in T. apply (wp_mono _ _ _ _ T). intros r k' (-> & [H _] & _). exact (conj eq_refl H).
Defined.
