(* ===== verification/ConsoleWrite.v ===== *)
(** * Output to the console (kernel/uart.c, consolewrite of kernel/console.c)

    The transmit ring of the UART as a queue, and what becomes of the bytes a process
    writes to the console. *)

From stdpp Require Import base numbers list gmap strings.
From S2P Require Import Prelude Kstate Kstring Spinlock Kalloc Vm Sched Uart Printf Console Pipe ConsoleEdit.

(** ** The transmit ring *)








(** ** What is sent

    The transmitter answers each look at its status register with the next recorded
    value; when these are used up it is idle. *)









(** ** Sending *)












(** ** A process writes to the console *)

Section writer.
Context (e root : Z) (G : gmap (list Z) Z) (pr : nat).












End writer.


(** ** Writes on a running machine *)



