(* ===== verification/File.v ===== *)
(** * Open files (kernel/file.c) and [pipealloc] of kernel/pipe.c *)

From stdpp Require Import base numbers list gmap strings.
From S2P Require Import Prelude Kstate Kstring Spinlock Kalloc Vm Sched Sleeplock Bio Log Fs Uart Printf Console Pipe.

Definition fileinit : K unit := initlock LK_ftable "ftable".

(** The index of the first entry with no references. *)
Fixpoint file_scan (l : list file) (i : nat) : option nat :=
  match l with
  | [] => None
  | f :: t => if f_ref f =? 0 then Some i else file_scan t (S i)
  end.

Definition filealloc : K (option nat) :=
  acquire LK_ftable ;;;
  let* l := gets k_files in
  match file_scan l 0 with
  | Some f =>
      modify (upd_file f (set_f_ref 1)) ;;;
      release LK_ftable ;;;
      ret (Some f)
  | None => release LK_ftable ;;; ret None
  end.

Definition filedup (f : nat) : K nat :=
  acquire LK_ftable ;;;
  let* x := gets (get_file f) in
  if f_ref x <? 1 then panic "filedup" else
  modify (upd_file f (fun x => set_f_ref (f_ref x + 1) x)) ;;;
  release LK_ftable ;;;
  ret f.

Definition fileclose (f : nat) : K unit :=
  acquire LK_ftable ;;;
  let* x := gets (get_file f) in
  if f_ref x <? 1 then panic "fileclose" else
  modify (upd_file f (fun x => set_f_ref (f_ref x - 1) x)) ;;;
  let* ff := gets (get_file f) in
  if 0 <? f_ref ff then release LK_ftable else
  modify (upd_file f (set_f_ref 0)) ;;;
  modify (upd_file f (set_f_type FD_NONE)) ;;;
  release LK_ftable ;;;
  match f_type ff with
  | FD_PIPE => pipeclose (f_pipe ff) (f_writable ff)
  | FD_INODE | FD_DEVICE =>
      begin_op ;;;
      iput (f_ip ff) ;;;
      end_op
  | FD_NONE => ret tt
  end.

Definition sizeof_stat : nat := 24.

Definition filestat (f : nat) (addr : Z) : K Z :=
  let* p := myproc_ix in
  let* x := gets (get_file f) in
  match f_type x with
  | FD_INODE | FD_DEVICE =>
      ilock (f_ip x) ;;;
      stati (f_ip x) local_st ;;;
      iunlock (f_ip x) ;;;
      let* st := gets (fun k => load (k_mem k) local_st sizeof_stat) in
      let* pr := gets (get_proc p) in
      let* r := copyout (p_pagetable pr) addr st in
      ret (if r <? 0 then -1 else 0)
  | _ => ret (-1)
  end.

(** [devsw[major].read] and [.write]: [CONSOLE] is the only device the kernel
    connects. *)
Definition dev_connected (major : Z) (k : kernel) : bool :=
  (0 <=? major) && (major <? NDEV) && nth (Z.to_nat major) (k_devsw k) false.
Definition devsw_read (major addr n : Z) : K Z :=
  if major =? CONSOLE then consoleread true addr n else undefined.
Definition devsw_write (major addr n : Z) : K Z :=
  if major =? CONSOLE then consolewrite true addr n else undefined.

Definition fileread (f : nat) (addr n : Z) : K Z :=
  let* x := gets (get_file f) in
  if negb (f_readable x) then ret (-1) else
  match f_type x with
  | FD_PIPE => piperead (f_pipe x) addr n
  | FD_DEVICE =>
      let* c := gets (dev_connected (f_major x)) in
      if negb c then ret (-1) else devsw_read (f_major x) addr n
  | FD_INODE =>
      ilock (f_ip x) ;;;
      let* r := readi (f_ip x) true addr (f_off x) (u32 n) in
      when (0 <? r) (modify (upd_file f (fun x => set_f_off (u32 (f_off x + r)) x))) ;;;
      iunlock (f_ip x) ;;;
      ret r
  | FD_NONE => panic "fileread"
  end.

(** [max] of [filewrite]: [((MAXOPBLOCKS-1-1-2) / 2) * BSIZE]. *)
Definition filewrite_max : Z := (MAXOPBLOCKS - 1 - 1 - 2) / 2 * BSIZE.

(** The loop of [filewrite]: every turn but the last writes [filewrite_max] bytes. *)
Fixpoint filewrite_loop (fuel : nat) (f : nat) (ip : nat) (addr i n : Z) : K Z :=
  match fuel with
  | O => suspend_with Forever
  | S fuel' =>
      if negb (i <? n) then ret i else
      let n1 := if filewrite_max <? n - i then filewrite_max else n - i in
      begin_op ;;;
      ilock ip ;;;
      let* off := gets (fun k => f_off (get_file f k)) in
      let* r := writei ip true (u64 (addr + i)) off n1 in
      when (0 <? r) (modify (upd_file f (fun x => set_f_off (u32 (f_off x + r)) x))) ;;;
      iunlock ip ;;;
      end_op ;;;
      if r <? 0 then ret i else
      if negb (r =? n1) then panic "short filewrite" else
      filewrite_loop fuel' f ip addr (i + r) n
  end.

Definition filewrite (f : nat) (addr n : Z) : K Z :=
  let* x := gets (get_file f) in
  if negb (f_writable x) then ret (-1) else
  match f_type x with
  | FD_PIPE => pipewrite (f_pipe x) addr n
  | FD_DEVICE =>
      let* c := gets (dev_connected (f_major x)) in
      if negb c then ret (-1) else devsw_write (f_major x) addr n
  | FD_INODE =>
      let* i := filewrite_loop (Z.to_nat (n / filewrite_max + 2)) f (f_ip x) addr 0 n in
      ret (if i =? n then n else -1)
  | FD_NONE => panic "filewrite"
  end.

(** The two ends of a new pipe, [None] for the result -1. *)
Definition pipealloc : K (option (nat * nat)) :=
  let bad (pi : Z) (f0 f1 : option nat) :=
    when (nz pi) (kfree pi) ;;;
    match f0 with Some f => fileclose f | None => ret tt end ;;;
    match f1 with Some f => fileclose f | None => ret tt end ;;;
    ret None in
  let* f0 := filealloc in
  match f0 with
  | None => bad 0 None None
  | Some r =>
  let* f1 := filealloc in
  match f1 with
  | None => bad 0 f0 None
  | Some w =>
  let* pi := kalloc in
  if negb (nz pi) then bad 0 f0 f1 else
  modify (upd_pipe pi (fun p => set_pi_nread 0 (set_pi_nwrite 0
    (set_pi_writeopen true (set_pi_readopen true p))))) ;;;
  initlock (LK_pipe pi) "pipe" ;;;
  modify (upd_file r (fun f => set_f_pipe pi (set_f_writable false (set_f_readable true (set_f_type FD_PIPE f))))) ;;;
  modify (upd_file w (fun f => set_f_pipe pi (set_f_writable true (set_f_readable false (set_f_type FD_PIPE f))))) ;;;
  ret (Some (r, w))
  end
  end.
