(* ===== verification/FileWrite.v ===== *)
(** * Writing to an open file (filewrite of kernel/file.c)

    [filewrite] cuts a write into pieces of at most [filewrite_max] bytes, each an
    operation of its own, so that no piece overflows the log. *)

From stdpp Require Import base numbers list gmap strings.
From S2P Require Import Prelude Kstate Kstring Spinlock Kalloc Vm Sched Sleeplock Bio Blocks Log Tx Fs FsAlloc FsInode FsDir Footprint Wal Crash Uart Printf Console Pipe File.

(** ** One piece *)

(** What [filewrite] does between [begin_op] and [end_op]. *)
Definition write_piece (f ip : nat) (addr n : Z) : K Z :=
  ilock ip ;;;
  let* off := gets (fun k => f_off (get_file f k)) in
  let* r := writei ip true addr off n in
  when (0 <? r) (modify (upd_file f (fun x => set_f_off (u32 (f_off x + r)) x))) ;;;
  iunlock ip ;;;
  ret r.

#[export] Instance ca_write_piece w f ip addr n : Calm w (write_piece f ip addr n).
Proof. unfold write_piece. calm_code. Qed.

Lemma filewrite_loop_step fuel f ip addr i n k : i < n ->
  filewrite_loop (S fuel) f ip addr i n k =
  (let n1 := if filewrite_max <? n - i then filewrite_max else n - i in
   let* r := operation (write_piece f ip (u64 (addr + i)) n1) in
   if r <? 0 then ret i else
   if negb (r =? n1) then panic "short filewrite" else
   filewrite_loop fuel f ip addr (i + r) n) k.
Proof.
  intros Hi. cbn [filewrite_loop]. rewrite (proj2 (Z.ltb_lt i n) Hi). cbn [negb]. cbv zeta. unfold operation, write_piece, bind, gets, ret.
  repeat (match goal with |- context [match ?m with Ok _ _ => _ | _ => _ end] => destruct m as [? ?| |] end; try reflexivity).
Qed.

Lemma stored_files p dev s k files : stored p dev s k -> stored p dev s (set_k_files files k).
Proof. intros H. apply (stored_ext p dev s k); [done..| |done|done]. destruct (st_proc _ _ _ _ H) as [[A1 A2] A3 A4]. split; [split|..]; done. Qed.

Lemma tx_file p dev st o bl V D H k files : tx p dev st o bl V D H k -> tx p dev st o bl V D H (set_k_files files k).
Proof. intros [(s & Hs & R) T2 TA T3 T4 T5 T6 T7 T8]. split; try done. exists s. split; [now apply stored_files|done]. Qed.

(** The lock of an inode is no part of what the disk knows of it. *)
Lemma map_ok_lock sb V x len g : map_ok sb V x len -> map_ok sb V (with_ilock g x) len.
Proof. intros [M1 M2 M3 M4 M5 M6 M7]. now split. Qed.

Lemma source_table user src data l fs k k' :
  fs_frame (set_k_files fs (set_k_inodes l k)) k' -> source user src data k -> source user src data k'.
Proof.
  intros F. pose proof (fs_frame_memory _ _ F) as Em. cbn in Em. destruct user; cbn; rewrite Em; [|done].
  intros (e & root & G & pr & H1 & H2 & H). exists e, root, G, pr. rewrite (fs_frame_proc p_pagetable pr _ _ ltac:(done) F).
  rewrite (fs_frame_eq (fun k => h_proc (k_hart k)) _ _ ltac:(done) ltac:(done) F). done.
Qed.

Lemma source_take user src data k m : 0 <= m <= Z.of_nat (length data) ->
  source user src data k -> source user src (take (Z.to_nat m) data) k.
Proof.
  intros Hm. assert (El : Z.of_nat (length (take (Z.to_nat m) data)) = m) by (rewrite length_take; lia).
  destruct user; cbn zeta; unfold source; rewrite El.
  - intros (e & root & G & pr & H1 & H2 & H3 & H4 & H5 & H6). exists e, root, G, pr. split; [done|]. split; [done|]. split; [done|]. split; [lia|].
    split; [intros j Hj; apply H5; lia|]. rewrite H6 at 1.
    replace (Z.of_nat (length data)) with (m + (Z.of_nat (length data) - m)) at 1 by lia. rewrite ubytes_app by lia.
    apply take_app_length'. pose proof (length_ubytes (k_mem k) G src m ltac:(lia)). lia.
  - intros [H1 H2]. split; [lia|]. rewrite length_take. rewrite H2 at 1. rewrite <- (Nat2Z.id (length data)) at 1. rewrite (load_split _ _ m) by lia.
    rewrite take_app_length' by (rewrite length_load; done). f_equal. lia.
Qed.

Lemma fs_frame_files fs k k' : fs_frame k k' -> fs_frame (set_k_files fs k) (set_k_files fs k').
Proof.
  intros (g & Hl & (b & h & d & w & ps & Hw & Hn)). exists g. split; [done|]. exists b, h, d, w, ps. split; [done|].
  apply (noise_update (set_k_files fs)) in Hn; [exact Hn|done..].
Qed.

(** A piece never fills the log. *)
Lemma piece_rounds off n : 0 <= off -> 0 <= n <= filewrite_max -> 0 <= rounds off n <= 4.
Proof. intros H0 H. change filewrite_max with 3072 in H. unfold rounds. change BSIZE with 1024. destruct (Z.eqb_spec n 0); zdiv. Qed.

Lemma wp_filewrite_step fuel f ip addr i n Q k :
  let n1 := Z.min (n - i) filewrite_max in 0 < n - i ->
  wp (operation (write_piece f ip (u64 (addr + i)) n1)) (fun r k' => r = n1 /\ wp (filewrite_loop fuel f ip addr (i + n1) n) Q k') k ->
  wp (filewrite_loop (S fuel) f ip addr i n) Q k.
Proof.
  intros n1 Hi W. assert (E : (if filewrite_max <? n - i then filewrite_max else n - i) = n1) by (unfold n1; destruct (Z.ltb_spec filewrite_max (n - i)); lia).
  assert (Hn1 : 0 < n1) by (unfold n1; change filewrite_max with 3072; lia).
  unfold wp. rewrite filewrite_loop_step by lia. cbv zeta. rewrite E.
  change (wp (let* r := operation (write_piece f ip (u64 (addr + i)) n1) in if r <? 0 then ret i else if negb (r =? n1) then panic "short filewrite" else filewrite_loop fuel f ip addr (i + r) n) Q k).
  apply wp_bind. eapply wp_mono; [exact W|]. intros r k' [-> W']. rewrite (proj2 (Z.ltb_ge n1 0)), Z.eqb_refl by lia. exact W'.
Qed.

Lemma rounds_split off m n : 0 <= off -> 0 <= m -> 0 <= n -> rounds off m + rounds (off + m) n <= rounds off (m + n) + 1.
Proof.
  intros H0 Hm Hn. unfold rounds. change BSIZE with 1024. destruct (Z.eqb_spec m 0), (Z.eqb_spec n 0), (Z.eqb_spec (m + n) 0); subst; rewrite ?Z.add_0_r, ?Z.add_0_l; try lia; zdiv.
Qed.

(** What writing to a file leaves alone: the blocks of others and the other inodes. *)
Definition leaves (sb : superblock) (D : Z -> list Z) (x : inode) (D' : Z -> list Z) (x' : inode) : Prop := spares sb D x D' x' /\ neighbours sb D x D'.

Section piece.
Context (p : nat) (pid dev st : Z) (sb : superblock) (f ip : nat).

(** The inode of an open file between operations: in use, loaded and not locked. *)
Record inode_idle (x : inode) : Prop := {
  ii_ref : 1 <= i_ref x;
  ii_free : sl_locked (i_lock x) = false;
  ii_valid : i_valid x = true;
  ii_type : i_type x <> 0 }.

(** An operation that has the file's inode as its own. *)
Record in_piece (bl : list Z) (V D : Z -> list Z) (x : inode) (off : Z) (k : kernel) : Prop := {
  ip_file : file_state p dev st 1 sb ip bl V D x (i_size x) k;
  ip_idle : inode_idle x;
  ip_pid : p_pid (get_proc p k) = pid;
  ip_open : (f < length (k_files k))%nat;
  ip_off : f_off (get_file f k) = off }.

(** The rest of a piece, after [writei]. *)
Lemma wp_piece_end bl V D x off n l k k2 Q :
  file_state p dev st 1 sb ip bl V D x (i_size x) k2 -> fs_frame (set_k_inodes l k) k2 ->
  inode_idle (unlocked x) -> sl_locked (i_lock x) = true -> sl_pid (i_lock x) = pid -> p_pid (get_proc p k) = pid ->
  (f < length (k_files k))%nat -> f_off (get_file f k) = off -> 0 <= off -> 0 < n -> off + n < 2 ^ 32 ->
  (forall k' l', in_piece bl V D (unlocked x) (off + n) k' -> fs_frame (upd_file f (set_f_off (off + n)) (set_k_inodes l' k)) k' -> Q n k') ->
  wp (when (0 <? n) (modify (upd_file f (fun y => set_f_off (u32 (f_off y + n)) y))) ;;; iunlock ip ;;; ret n) Q k2.
Proof.
  intros [T Hsb Hip Hdev Hal Hm] F2 Hid Hlk Hlp Hpid Hopen Hoff H0 Hn Hb HQ. rewrite (proj2 (Z.ltb_lt 0 n)) by lia. apply wp_bind, wp_modify.
  assert (Ef : k_files k2 = k_files k) by exact (fs_frame_eq k_files _ _ ltac:(done) ltac:(done) F2).
  destruct (lookup_lt_is_Some_2 _ _ Hopen) as [y Hy]. assert (Ey : f_off y = off) by (rewrite <- Hoff; unfold get_file; now rewrite (list_lookup_total_correct _ _ _ Hy)).
  set (fs := alter (set_f_off (off + n)) f (k_files k)).
  assert (E : upd_file f (fun y => set_f_off (u32 (f_off y + n)) y) k2 = set_k_files fs k2).
  { unfold upd_file. f_equal. rewrite Ef. apply list_eq. intros i. unfold fs. destruct (decide (i = f)) as [->|Hne]; [|now rewrite !list_lookup_alter_ne].
    rewrite !list_lookup_alter_eq, Hy. cbn. now rewrite Ey, u32_small by lia. }
  rewrite E. pose proof (fs_frame_files fs _ _ F2) as F3. set (k3 := set_k_files fs k2) in *.
  assert (S3 : istate p pid dev st 1 sb bl V D (k_inodes k2) k3) by (split; [now apply tx_file|done|done|rewrite (fs_frame_pid p _ _ F3); exact Hpid]).
  apply wp_bind. apply (wp_iunlock p pid dev st 1 sb D bl V (k_inodes k2) k3 ip x _ S3 Hip); [apply Hid|done|done|]. intros k4 S4 F4. apply wp_ret.
  set (l' := <[ip := unlocked x]> (k_inodes k2)) in *. assert (F : fs_frame (set_k_files fs (set_k_inodes l' k)) k4).
  { etrans; [|exact F4]. exact (fs_frame_table l' _ _ F3). }
  assert (Ef4 : k_files k4 = fs) by exact (fs_frame_eq k_files _ _ ltac:(done) ltac:(done) F).
  apply (HQ k4 l'); [|exact F]. pose proof S4 as [T4 Hsb4 Hi4 Hp4]. split; [split; try done| |done| |].
  - rewrite Hi4. apply list_lookup_insert_eq. exact (lookup_lt_Some _ _ _ Hip).
  - now apply map_ok_lock.
  - exact Hid.
  - rewrite Ef4. unfold fs. now rewrite length_alter.
  - unfold get_file. rewrite Ef4. unfold fs. now rewrite list_lookup_total_alter_eq.
Qed.

Lemma wp_write_piece D x off addr data k :
  let n := Z.of_nat (length data) in
  in_piece [] D D x off k -> source true addr data k -> 0 <= addr -> 0 < n <= filewrite_max ->
  0 <= off <= i_size x -> off + n <= MAXFILE * BSIZE -> 2 * rounds off n <= Z.of_nat (nfree sb D) ->
  wp (write_piece f ip addr n) (fun r k' => r = n /\ exists bl V x' l,
    in_piece bl V D x' (off + n) k' /\ i_inum x' = i_inum x /\ i_size x' = Z.max (i_size x) (off + n) /\
    holds sb V x' (overwrite (fbytes D x 0 (i_size x)) off data) /\
    leaves sb D x V x' /\ Z.of_nat (nfree sb D) <= Z.of_nat (nfree sb V) + 2 * rounds off n /\ Z.of_nat (length bl) < LOGSIZE /\
    fs_frame (upd_file f (set_f_off (off + n)) (set_k_inodes l k)) k') k.
Proof.
  intros n [F [I1 I2 I3 I4] Hpid Hopen Hfo] Hsrc H0 Hn Hoff Hmax Hfree. pose proof F as [T Hsb Hip Hdev Hal Hm]. pose proof (piece_rounds off n ltac:(lia) ltac:(lia)) as Hr.
  assert (Hst : istate p pid dev st 1 sb [] D D (k_inodes k) k) by now split. set (y := with_ilock (sl_taken pid) x).
  assert (Hlo : loaded sb D x = x) by (unfold loaded; now rewrite I3). assert (Hlk : locked pid sb D x = y) by (unfold locked, loaded; change (i_valid (with_ilock _ x)) with (i_valid x); now rewrite I3).
  unfold write_piece. apply wp_bind. apply (wp_ilock p pid dev st 1 sb D [] D (k_inodes k) k ip x _ Hst Hip I1 I2 Hdev); [now rewrite Hlo|cbn; unfold NBUF; lia|].
  rewrite Hlk. intros k1 S1 F1. pose proof (lookup_lt_Some _ _ _ Hip) as Hlt. set (l1 := <[ip := y]> (k_inodes k)) in *.
  assert (Hy : l1 !! ip = Some y) by now apply list_lookup_insert_eq. apply wp_bind, wp_gets.
  assert (Ef1 : k_files k1 = k_files k) by exact (fs_frame_eq k_files _ _ ltac:(done) ltac:(done) F1). unfold get_file in Hfo |- *. rewrite Ef1, Hfo.
  assert (FS1 : file_state p dev st 1 sb ip [] D D y (i_size y) k1).
  { split; [apply S1|apply S1|now rewrite (is_inodes _ _ _ _ _ _ _ _ _ _ _ S1)|done|done|now apply map_ok_lock]. }
  assert (Hs1 : source true addr data k1) by (apply (source_table _ _ _ l1 (k_files k) k); [destruct k; exact F1|done]).
  assert (Hmb : MAXFILE * BSIZE < 2 ^ 31) by done.
  pose proof (writei_ok p dev st 1 sb ip [] D D y k1 true addr data off FS1 ltac:(lia) ltac:(lia) H0 Hs1) as W. cbv zeta in W. fold n in W. specialize (W ltac:(lia)).
  assert (Er : write_refused (i_size y) off n = false) by (unfold write_refused; change (i_size y) with (i_size x); pose proof (mo_len _ _ _ _ Hm); rewrite !orb_false_iff; lia).
  rewrite Er in W. specialize (W ltac:(cbn [length]; change LOGSIZE with 30; lia) Hfree). apply wp_bind. eapply wp_mono; [exact W|].
  intros r k2 (-> & bl & V & x' & F2 & Es & Hb & Hblk & Hino & Hoth & [ad Ex'] & Hnf & Hbl & _ & Hfr).
  assert (Hx' : inode_idle (unlocked x') /\ i_lock x' = sl_taken pid (i_lock x) /\ i_inum x' = i_inum x) by (rewrite Ex'; now split; [split|]).
  destruct Hx' as (Hid & Elk & Enum). destruct Hfr as [z Fr].
  assert (Fk : exists l, fs_frame (set_k_inodes l k) k2).
  { exists (alter (fun _ => z) ip (k_inodes k1)). etrans; [|exact Fr]. unfold upd_inode. exact (fs_frame_table _ _ _ F1). }
  destruct Fk as [l2 Fk]. eapply wp_piece_end; [exact F2|exact Fk|done|now rewrite Elk|now rewrite Elk|done|done|exact Hfo|lia|lia|lia|].
  intros k' l' Hp Fr'. split; [done|]. exists bl, V, (unlocked x'), l'. split; [done|]. split; [done|]. split; [exact Es|]. split.
  - split; [|exact (overwritten D x V x' off data ltac:(lia) ltac:(lia) Es Hb)]. change (dinode_of (unlocked x')) with (dinode_of x').
    unfold home, unlocked, with_ilock. cbn [i_inum set_i_lock]. rewrite Enum. apply Hino. lia.
  - split; [exact (conj Hblk Hoth)|]. split; [done|]. split; [|done]. cbn [length] in Hbl. change LOGSIZE with 30. lia.
Qed.

(** ** A piece as an operation *)

(** The open file between operations. *)
Record file_open (D : Z -> list Z) (x : inode) (off : Z) (k : kernel) : Prop := {
  fo_rest : at_rest p dev st D k;
  fo_file : file_state p dev st 0 sb ip [] D D x (i_size x) k;
  fo_idle : inode_idle x;
  fo_pid : p_pid (get_proc p k) = pid;
  fo_open : (f < length (k_files k))%nat;
  fo_off : f_off (get_file f k) = off }.

Lemma file_open_piece D x off k k1 :
  file_open D x off k -> noise (upd_log (set_l_outstanding 1) k) k1 -> in_piece [] D D x off k1.
Proof.
  intros [H1 H2 H3 H4 H5 H6] N. pose proof (noise_eq k_files _ _ ltac:(done) N) as Ef. cbn in Ef.
  split; [now apply (file_state_open _ _ _ 1 _ _ _ _ _ _ _ k)|done|rewrite (noise_proc _ _ _ N); done|now rewrite Ef|unfold get_file in *; now rewrite Ef].
Qed.

Lemma piece_file_open bl V D D' x off g k k' :
  in_piece bl V D x off k -> at_rest p dev st D' k' -> (forall n, apart st n -> D' n = V n) -> bio_frame (upd_log g k) k' -> file_open D' x off k'.
Proof.
  intros [[T Hsb Hip Hdev Hal Hm] H2 H3 H4 H5] R Hag F. assert (Est : sb_logstart sb = st) by (rewrite <- Hsb; apply T). rewrite <- Est in Hag.
  assert (Ef : k_files k' = k_files k) by exact (bio_frame_eq k_files _ _ ltac:(done) ltac:(done) F).
  split; [done| |done|rewrite (fs_frame_pid p _ _ (fs_frame_bio _ _ F)); exact H3|now rewrite Ef|unfold get_file in *; now rewrite Ef].
  split; [apply R|now rewrite (frame_sb _ _ F)|rewrite (bio_frame_eq k_inodes _ _ ltac:(done) ltac:(done) F); done|done|now apply (alloc_ok_agree sb V)|].
  apply (map_ok_agree sb V); [done|apply Hal|done].
Qed.

Lemma owned_agree V V' x len b : (forall n, apart (sb_logstart sb) n -> V' n = V n) -> map_ok sb V x len -> owned V' x b <-> owned V x b.
Proof.
  intros Hag M. unfold owned. split; (intros [H|(bn & Hb & H)]; [now left|right; exists bn; split; [done|]]); [rewrite <- H; symmetry|rewrite <- H]; now apply (iblock_agree sb V V' Hag x len).
Qed.

Lemma leaves_agree D x V D' x' len : (forall n, apart (sb_logstart sb) n -> D' n = V n) -> bitmap_ok sb V -> map_ok sb V x' len -> i_inum x' = i_inum x ->
  leaves sb D x V x' -> leaves sb D x D' x'.
Proof.
  intros Hag Hb M Ei [S N]. split.
  2: { intros j Hj. rewrite Hag, N; [done|done|]. pose proof (bo_apart _ _ _ (mo_home _ _ _ _ M)) as A. unfold home in A. now rewrite Ei in A. }
  intros b Hok. destruct (S b Hok) as (S1 & S2 & S3). split; [now apply (block_ok_agree sb V)|]. split.
  - intros Ho. apply S2. now apply (owned_agree V D' x' len).
  - intros Hno Hne. rewrite Hag by apply S1. auto.
Qed.

Lemma leaves_refl D x : leaves sb D x D x.
Proof. split; [now intros b H|now intros j]. Qed.

Lemma leaves_trans D x D1 x1 D2 x2 : i_inum x1 = i_inum x -> leaves sb D x D1 x1 -> leaves sb D1 x1 D2 x2 -> leaves sb D x D2 x2.
Proof.
  intros Ei [S1 N1] [S2 N2]. assert (Eh : home sb x1 = home sb x) by (unfold home; now rewrite Ei).
  split; [|intros j Hj; specialize (N1 j Hj); specialize (N2 j); rewrite Ei, Eh in N2; now rewrite N2]. intros b Hb. destruct (S1 b Hb) as (A1 & A2 & A3). destruct (S2 b A1) as (B1 & B2 & B3). split; [done|]. split; [auto|].
  intros Hno Hne. rewrite B3 by (rewrite ?Eh; auto). auto.
Qed.

Lemma nfree_agree V V' : (forall n, apart (sb_logstart sb) n -> V' n = V n) -> bitmap_ok sb V -> nfree sb V' = nfree sb V.
Proof. intros Hag H. unfold nfree. f_equal. apply filter_ext_in. intros b Hb%elem_of_seqZ. now rewrite (allocated_agree sb V V' Hag) by (done || lia). Qed.

(** What the next boot makes of the disk [replay D ws]. *)
Definition after_crash (D : Z -> list Z) (ws : list (Z * list Z)) (P : (Z -> list Z) -> Prop) : Prop :=
  forall q kb, rebooted q dev st (replay D ws) kb -> wp recover_from_log (fun _ kr => P (k_disk kr)) kb.

Definition agrees (V d : Z -> list Z) : Prop := forall n, apart (sb_logstart sb) n -> d n = V n.

Lemma wp_piece_op D x off addr data k :
  let n := Z.of_nat (length data) in
  file_open D x off k -> source true addr data k -> 0 <= addr -> 0 < n <= filewrite_max ->
  0 <= off <= i_size x -> off + n <= MAXFILE * BSIZE -> 2 * rounds off n <= Z.of_nat (nfree sb D) ->
  wp (operation (write_piece f ip addr n)) (fun r k' => r = n /\ exists x' tr, let D' := replay D tr in
    file_open D' x' (off + n) k' /\ i_inum x' = i_inum x /\ i_size x' = Z.max (i_size x) (off + n) /\
    holds sb D' x' (overwrite (fbytes D x 0 (i_size x)) off data) /\ leaves sb D x D' x' /\
    Z.of_nat (nfree sb D) <= Z.of_nat (nfree sb D') + 2 * rounds off n /\ k_writes k' = k_writes k ++ tr /\
    (forall ws, ws `prefix_of` tr -> after_crash D ws (fun d => agrees D d \/ agrees D' d)) /\
    (forall src more, source true src more k -> source true src more k') /\
    k_files k' = alter (set_f_off (off + n)) f (k_files k)) k.
Proof.
  intros n FO Hsrc H0 Hn Hoff Hmax Hfree. pose proof FO as [Hrest F _ _ _ _]. pose proof (piece_rounds off n ltac:(lia) ltac:(lia)) as Hr.
  set (R := fun (r : Z) (V : Z -> list Z) (k2 : kernel) => r = n /\ exists bl x' l k1, in_piece bl V D x' (off + n) k2 /\ i_inum x' = i_inum x /\
    i_size x' = Z.max (i_size x) (off + n) /\ holds sb V x' (overwrite (fbytes D x 0 (i_size x)) off data) /\ leaves sb D x V x' /\
    Z.of_nat (nfree sb D) <= Z.of_nat (nfree sb V) + 2 * rounds off n /\ noise (upd_log (set_l_outstanding 1) k) k1 /\
    fs_frame (upd_file f (set_f_off (off + n)) (set_k_inodes l k1)) k2).
  eapply wp_mono; [apply (wp_operation _ p dev st D k R); [exact _|exact Hrest|]|].
  - intros k1 _ N1. pose proof (file_open_piece _ _ _ _ _ FO N1) as P1. assert (Hs1 : source true addr data k1) by exact (source_noise _ _ _ _ _ _ N1 Hsrc).
    eapply wp_mono; [apply (wp_write_piece D x off addr data k1 P1 Hs1 H0 Hn Hoff Hmax); fold n; lia|]. intros r k2 (-> & bl & V & x' & l & P2 & E1 & E2 & E3 & E4 & E5 & E6 & Fr).
    exists bl, V. split; [apply P2|]. split; [|split; [done|split; [done|now exists bl, x', l, k1]]].
    destruct Fr as (g & (_ & _ & Hc & _) & Fb). rewrite (frame_log _ _ Fb). cbn. rewrite Hc. cbn. rewrite (noise_eq k_log _ _ ltac:(done) N1). apply Hrest.
  - intros r k' (V & D' & tr & k2 & (-> & bl & x' & l & k1 & P2 & E1 & E2 & E3 & E4 & E5 & N1 & Fr) & Hr' & Hag & ED & Hw & Hat & Fb). split; [done|]. exists x', tr. cbv zeta. subst D'.
    pose proof P2 as [[T2 Hsb2 _ _ Hal2 Hm2] _ _ _ _]. pose proof (piece_file_open _ _ _ _ _ _ _ _ _ P2 Hr' Hag Fb) as FO'.
    assert (Est : sb_logstart sb = st) by (rewrite <- Hsb2; apply T2). rewrite <- Est in Hag.
    split; [done|]. split; [done|]. split; [done|]. split; [now apply (holds_agree sb V)|]. split; [apply (leaves_agree D x V _ x' (i_size x')); [done|apply Hal2|done|done|done]|].
    split; [rewrite (nfree_agree V (replay D tr)) by (done || apply Hal2); lia|]. split; [done|]. split; [|split].
    + intros ws Hws q kb Hb. eapply wp_mono; [exact (Hat ws Hws q kb Hb)|]. intros [] kr Hor. unfold agrees. rewrite Est.
      destruct Hor as [Ho|Ho]; [now left|right]. intros m Hm. rewrite Ho by done. symmetry. apply Hag. now rewrite Est.
    + intros src more Hs. apply (source_noise _ _ _ _ _ _ N1) in Hs. apply (source_table _ _ _ l _ _ _ Fr) in Hs.
      apply (source_table true src more (k_inodes k2) (k_files k2) _ k' (fs_frame_bio _ _ Fb)). exact Hs.
    + rewrite (bio_frame_eq k_files _ _ ltac:(done) ltac:(done) Fb). change (k_files k2 = alter (set_f_off (off + n)) f (k_files k)).
      rewrite (fs_frame_eq k_files _ _ ltac:(done) ltac:(done) Fr). cbn. now rewrite (noise_eq k_files _ _ ltac:(done) N1).
Qed.

(** ** All pieces *)

(** A disk on which the first [j] bytes of [data] have been written, a whole number of
    pieces, and nothing else but the file has changed. *)
Definition written_part (D : Z -> list Z) (x : inode) (off : Z) (data : list Z) (d : Z -> list Z) : Prop :=
  exists j x', (j = length data \/ (j < length data /\ j mod Z.to_nat filewrite_max = 0))%nat /\ i_inum x' = i_inum x /\
    holds sb d x' (overwrite (fbytes D x 0 (i_size x)) off (take j data)) /\
    (forall b, block_ok sb D b -> ~ owned D x b -> b <> home sb x -> d b = D b) /\ neighbours sb D x d.

Lemma overwrite_nil c off : overwrite c off [] = c.
Proof. unfold overwrite. cbn [length app]. rewrite Nat.add_0_r. apply take_drop. Qed.

Lemma overwrite_app c off d1 d2 : 0 <= off <= Z.of_nat (length c) ->
  overwrite (overwrite c off d1) (off + Z.of_nat (length d1)) d2 = overwrite c off (d1 ++ d2).
Proof.
  intros H. unfold overwrite. set (o := Z.to_nat off). assert (Ho : (o <= length c)%nat) by lia. replace (Z.to_nat (off + Z.of_nat (length d1))) with (o + length d1)%nat by lia.
  rewrite !app_assoc. rewrite take_app_length' by (rewrite length_app, length_take; lia). rewrite <- !app_assoc. do 3 f_equal.
  rewrite app_assoc, drop_app_ge by (rewrite length_app, length_take; lia). rewrite drop_drop, !length_app, length_take. f_equal. lia.
Qed.

Lemma written_none D x off data d : agrees D d -> map_ok sb D x (i_size x) -> holds sb D x (fbytes D x 0 (i_size x)) ->
  written_part D x off data d.
Proof.
  intros Ha M H. exists 0%nat, x. split; [destruct data; [now left|right]; split; [cbn; lia|done]|]. split; [done|]. cbn [take]. rewrite overwrite_nil.
  split; [now apply (holds_agree sb D)|]. split; [intros b Hb _ _; apply Ha; apply Hb|].
  intros j Hj. rewrite Ha; [done|apply (bo_apart _ _ _ (mo_home _ _ _ _ M))].
Qed.

(** The state after a piece is one of the states of the whole write, and so are the
    states of what follows. *)
Lemma written_more D x off d1 d2 d D' x' :
  d2 = [] \/ length d1 = Z.to_nat filewrite_max -> 0 <= off <= i_size x -> i_inum x' = i_inum x -> leaves sb D x D' x' ->
  fbytes D' x' 0 (i_size x') = overwrite (fbytes D x 0 (i_size x)) off d1 ->
  written_part D' x' (off + Z.of_nat (length d1)) d2 d -> written_part D x off (d1 ++ d2) d.
Proof.
  intros Hl Hoff Hi [S N] Ec (j & y & Hj & Ej & Hh & Ho & No). exists (length d1 + j)%nat, y. rewrite length_app. split; [|split; [congruence|split; [|split]]].
  - destruct Hj as [->|[Hj Hm]]; [now left|right]. split; [lia|]. destruct Hl as [->|Hl]; [cbn in Hj; lia|]. rewrite <- Hl in Hm |- *. rewrite <- (Nat.mul_1_l (length d1)) at 1. rewrite Nat.add_comm, Nat.Div0.mod_add. exact Hm.
  - rewrite take_app_add. rewrite <- (overwrite_app _ off d1) by (rewrite length_fbytes; lia). now rewrite <- Ec.
  - intros b Hb Hno Hne. destruct (S b Hb) as (A1 & A2 & A3). rewrite Ho; [now apply A3|done|auto|]. unfold home. now rewrite Hi.
  - intros i Hin. specialize (No i). unfold home in No. rewrite Hi in No. fold (home sb x) in No. now rewrite No, N.
Qed.

Definition pieces (n : Z) : Z := (n + filewrite_max - 1) / filewrite_max.

Lemma pieces_step n : 0 < n -> pieces n = 1 + pieces (n - Z.min n filewrite_max) /\ (filewrite_max < n -> n - Z.min n filewrite_max <> 0).
Proof. unfold pieces. change filewrite_max with 3072. intros H. split; [|lia]. destruct (Z.min_spec n 3072) as [[? ->]|[? ->]]; zdiv. Qed.


(** What a write of [data] at [off] did, and what the disk may be after a crash in it. *)
Definition wrote (D : Z -> list Z) (x : inode) (off : Z) (data : list Z) (k k' : kernel) : Prop :=
  exists x' tr, let D' := replay D tr in let end_ := off + Z.of_nat (length data) in
    file_open D' x' end_ k' /\ i_inum x' = i_inum x /\ holds sb D' x' (overwrite (fbytes D x 0 (i_size x)) off data) /\
    leaves sb D x D' x' /\ k_writes k' = k_writes k ++ tr /\
    (forall ws, ws `prefix_of` tr -> after_crash D ws (written_part D x off data)) /\
    k_files k' = alter (set_f_off end_) f (k_files k).

Lemma file_open_map D x off k : file_open D x off k -> map_ok sb D x (i_size x).
Proof. intros H. apply H. Qed.

(** A crash outside of operations. *)
Lemma crash_idle D x off k : file_open D x off k -> after_crash D [] (agrees D).
Proof.
  intros [[T _ Hh _] [_ Hsb _ _ _ _] _ _ _ _] q kb Hb. assert (Est : sb_logstart sb = st) by (rewrite <- Hsb; apply T).
  eapply wp_mono; [exact (wp_recovered q dev st _ [] kb Hb Hh ltac:(change (Z.to_nat LOGSIZE) with 30%nat; cbn; lia))|]. intros [] kr E n Hn. rewrite E. apply recovered_empty; [done|].
  rewrite Est in Hn. unfold apart in Hn. change LOGSIZE with 30 in Hn. lia.
Qed.

Lemma wrote_nothing D x off k : file_open D x off k -> holds sb D x (fbytes D x 0 (i_size x)) -> wrote D x off [] k k.
Proof.
  intros FO Hold. exists x, []. cbn [replay length Z.of_nat]. cbv zeta. rewrite Z.add_0_r, overwrite_nil, app_nil_r. split; [done|]. split; [done|]. split; [done|].
  split; [apply leaves_refl|]. split; [done|]. split.
  - intros ws ->%prefix_nil_inv q kb Hb. eapply wp_mono; [exact (crash_idle _ _ _ _ FO q kb Hb)|]. intros [] kr Ha.
    exact (written_none D x off [] _ Ha (file_open_map _ _ _ _ FO) Hold).
  - apply list_eq. intros i. destruct (decide (i = f)) as [->|Hne]; [|now rewrite list_lookup_alter_ne]. rewrite list_lookup_alter_eq.
    pose proof (fo_off _ _ _ _ FO) as Ho. unfold get_file in Ho. destruct (k_files k !! f) as [y|] eqn:E; [|done].
    rewrite (list_lookup_total_correct _ _ _ E) in Ho. cbn. rewrite <- Ho. now destruct y.
Qed.

(** What [wp_piece_op] says of a piece, and the rest of the write after it. *)
Lemma wrote_more D x off d1 d2 x1 tr k k1 k2 : let D1 := replay D tr in let off1 := off + Z.of_nat (length d1) in
  d2 = [] \/ length d1 = Z.to_nat filewrite_max -> 0 <= off <= i_size x ->
  map_ok sb D x (i_size x) -> holds sb D x (fbytes D x 0 (i_size x)) ->
  file_open D1 x1 off1 k1 -> i_inum x1 = i_inum x -> holds sb D1 x1 (overwrite (fbytes D x 0 (i_size x)) off d1) -> leaves sb D x D1 x1 ->
  k_writes k1 = k_writes k ++ tr -> (forall ws, ws `prefix_of` tr -> after_crash D ws (fun d => agrees D d \/ agrees D1 d)) ->
  k_files k1 = alter (set_f_off off1) f (k_files k) ->
  wrote D1 x1 off1 d2 k1 k2 -> wrote D x off (d1 ++ d2) k k2.
Proof.
  intros D1 off1 Hl Hoff M Hold FO1 Hi1 Hh1 S1 Hw1 Hat1 Hf1 (x2 & tr2 & FO2 & Hi2 & Hh2 & S2 & Hw2 & Hat2 & Hf2). pose proof Hh1 as [Hd1 Ec1].
  exists x2, (tr ++ tr2). cbv zeta. rewrite length_app, Nat2Z.inj_add, Z.add_assoc, replay_app. fold off1 D1. split; [done|]. split; [congruence|]. split; [|split; [|split; [|split]]].
  - rewrite <- (overwrite_app _ off d1) by (rewrite length_fbytes; lia). now rewrite <- Ec1.
  - now apply (leaves_trans _ _ D1 x1).
  - now rewrite Hw2, Hw1, app_assoc.
  - intros ws Hws. apply prefix_app_cases in Hws as [Hp|(ws' & _ & -> & Hp)]; intros q kb Hb.
    + eapply wp_mono; [exact (Hat1 ws Hp q kb Hb)|]. intros [] kr [Ha|Ha]; [now apply written_none|].
      apply (written_more D x off d1 d2 _ D1 x1); try done. apply written_none; [done|now apply (file_open_map _ _ off1 k1)|now rewrite Ec1].
    + rewrite replay_app in Hb. eapply wp_mono; [exact (Hat2 ws' Hp q kb Hb)|]. intros [] kr Hp2. now apply (written_more D x off d1 d2 _ D1 x1).
  - rewrite Hf2, Hf1. fold off1. rewrite alter_twice. done.
Qed.

Lemma wp_filewrite_loop fuel : forall D x off addr i data k,
  let len := Z.of_nat (length data) in
  file_open D x off k -> holds sb D x (fbytes D x 0 (i_size x)) -> source true (addr + i) data k -> 0 <= addr -> 0 <= i ->
  0 <= off <= i_size x -> off + len <= MAXFILE * BSIZE -> 2 * (rounds off len + pieces len - 1) <= Z.of_nat (nfree sb D) -> pieces len < Z.of_nat fuel ->
  wp (filewrite_loop fuel f ip addr i (i + len)) (fun r k' => r = i + len /\ wrote D x off data k k') k.
Proof.
  induction fuel as [|fuel IH]; intros D x off addr i data k len FO Hold Hsrc H0 Hi Hoff Hmax Hfree Hfuel.
  { unfold pieces in Hfuel. change filewrite_max with 3072 in *. zdiv. }
  destruct (Z.ltb_spec 0 len) as [Hpos|Hz].
  2: { assert (data = []) as -> by (destruct data; [done|cbn in len; lia]). cbn [filewrite_loop]. rewrite (proj2 (Z.ltb_ge i (i + len))) by lia. cbn [negb]. apply wp_ret.
    split; [lia|]. now apply wrote_nothing. }
  pose proof (source_bound _ _ _ _ Hsrc) as Hsb. fold len in Hsb. destruct (pieces_step len Hpos) as [Ep _].
  apply wp_filewrite_step; [lia|]. replace (i + len - i) with len by lia. set (n1 := Z.min len filewrite_max) in *.
  assert (Hn1 : 0 < n1 <= len /\ n1 <= filewrite_max) by (unfold n1; change filewrite_max with 3072; lia).
  set (d1 := take (Z.to_nat n1) data). set (d2 := drop (Z.to_nat n1) data). assert (El1 : Z.of_nat (length d1) = n1) by (unfold d1; rewrite length_take; lia).
  assert (El2 : Z.of_nat (length d2) = len - n1) by (unfold d2; rewrite length_drop; lia). assert (Hp0 : 0 <= pieces (len - n1)) by (unfold pieces; change filewrite_max with 3072; zdiv).
  pose proof (rounds_split off n1 (len - n1) ltac:(lia) ltac:(lia) ltac:(lia)) as Hrs. replace (n1 + (len - n1)) with len in Hrs by lia.
  assert (Hr1 : rounds off n1 <= rounds off len + pieces len - 1 /\ rounds off n1 + (rounds (off + n1) (len - n1) + pieces (len - n1) - 1) <= rounds off len + pieces len - 1).
  { pose proof (rounds_pos (off + n1) (len - n1) ltac:(lia)). split; [|lia]. destruct (Z.eqb_spec (len - n1) 0) as [E|E]; [assert (rounds off len = rounds off n1) by (f_equal; lia); lia|].
    assert (1 <= pieces (len - n1)) by (unfold pieces; change filewrite_max with 3072; zdiv). lia. }
  rewrite u64_small by lia. pose proof (wp_piece_op D x off (addr + i) d1 k FO ltac:(apply source_take; [lia|done]) ltac:(lia)) as W. cbv zeta in W. rewrite El1 in W.
  eapply wp_mono; [apply W; lia|]. intros r k1 (-> & x1 & tr & FO1 & Hi1 & Hsz1 & Hh1 & S1 & Hnf & Hw1 & Hat1 & Hs1 & Hf1). split; [done|].
  assert (Hs2 : source true (addr + (i + n1)) d2 k1) by (apply Hs1; rewrite Z.add_assoc; apply source_advance; [lia|done]).
  pose proof (IH _ x1 (off + n1) addr (i + n1) d2 k1 FO1) as W2. cbv zeta in W2. rewrite El2 in W2. replace (i + n1 + (len - n1)) with (i + len) in W2 by lia.
  eapply wp_mono; [apply W2; try done; try lia; rewrite (proj2 Hh1); exact Hh1|]. intros r k2 [-> W3]. split; [done|].
  rewrite <- (take_drop (Z.to_nat n1) data). fold d1 d2.
  apply (wrote_more D x off d1 d2 x1 tr k k1 k2); rewrite ?El1; try done; [|now apply (file_open_map _ _ off k)].
  unfold n1 in *. destruct (Z.min_spec len filewrite_max) as [[? E]|[? E]]; [left; apply length_zero_iff_nil; lia|right; lia].
Qed.
End piece.

(** C1: [filewrite] to a file.  With the file open for writing and nobody holding its
    inode, the call writes all of [data] from the process's memory at the file's offset,
    and never runs out of log space whatever the length: it returns [n], the disk holds
    the new contents and the inode, the offset is [off + n], and other files' blocks
    and the other inodes of the inode's block are as before.  If the machine stops after any number of the disk writes the call makes,
    the next boot recovers a disk on which the file holds its old contents overwritten by
    a prefix of [data], a whole number of pieces of [filewrite_max] bytes or all of it,
    and other files' blocks and inodes are as before. *)
Theorem filewrite_correct p pid dev st sb f ip D x off addr data k :
  let n := Z.of_nat (length data) in
  file_open p pid dev st sb f ip D x off k -> holds sb D x (fbytes D x 0 (i_size x)) ->
  f_writable (get_file f k) = true -> f_type (get_file f k) = FD_INODE -> f_ip (get_file f k) = ip ->
  source true addr data k -> 0 <= addr -> 0 <= off <= i_size x -> off + n <= MAXFILE * BSIZE ->
  2 * (rounds off n + pieces n - 1) <= Z.of_nat (nfree sb D) ->
  wp (filewrite f addr n) (fun r k' => r = n /\ exists x' tr, let D' := replay D tr in
    file_open p pid dev st sb f ip D' x' (off + n) k' /\ i_inum x' = i_inum x /\
    holds sb D' x' (overwrite (fbytes D x 0 (i_size x)) off data) /\ leaves sb D x D' x' /\
    k_files k' = alter (set_f_off (off + n)) f (k_files k) /\ k_writes k' = k_writes k ++ tr /\
    forall ws, ws `prefix_of` tr -> forall q kb, rebooted q dev st (replay D ws) kb ->
      wp recover_from_log (fun _ kr => written_part sb D x off data (k_disk kr)) kb) k.
Proof.
  intros n FO Hold Hwr Hty Hip Hsrc H0 Hoff Hmax Hfree. unfold filewrite. apply wp_bind, wp_gets. rewrite Hwr, Hty, Hip. cbn [negb]. apply wp_bind.
  assert (Hfuel : pieces n < Z.of_nat (Z.to_nat (n / filewrite_max + 2))) by (unfold pieces; change filewrite_max with 3072; rewrite Z2Nat.id; zdiv).
  pose proof (wp_filewrite_loop p pid dev st sb f ip _ D x off addr 0 data k FO Hold ltac:(now rewrite Z.add_0_r) H0 ltac:(lia) Hoff Hmax Hfree Hfuel) as W.
  eapply wp_mono; [exact W|]. intros r k' [-> (x' & tr & F' & Hi & Hh & S & Hw & Hc & Hf)]. apply wp_ret. rewrite Z.add_0_l, Z.eqb_refl. split; [done|].
  exists x', tr. cbv zeta in *. fold n in F', Hf. split; [done|]. split; [done|]. split; [done|]. split; [done|]. split; [done|]. split; [done|]. exact Hc.
Qed.

(** ** A process with a file open *)

Lemma tx_pagetable p dev st o bl V D H k q a : tx p dev st o bl V D H k -> tx p dev st o bl V D H (upd_proc q (set_p_pagetable a) k).
Proof.
  intros [(s & Hs & R) T2 TA T3 T4 T5 T6 T7 T8]. split; try done. exists s. split; [|done]. apply (stored_ext p dev s k); [done..| | |done].
  - destruct (st_proc _ _ _ _ Hs) as [[A1 A2] A3 A4]. split; [split; done|done|]. unfold table_ok in *. cbn. now rewrite length_alter.
  - unfold get_proc. cbn. rewrite !list_lookup_total_alt. destruct (decide (p = q)) as [->|Hne]; [|now rewrite list_lookup_alter_ne].
    rewrite list_lookup_alter_eq. now destruct (k_procs k !! q).
Qed.

(** A process with its own address space and a table of open files. *)
Definition with_user (q : nat) (root : Z) (m : mem) (fs : list file) (k : kernel) : kernel :=
  set_k_files fs (set_k_mem m (upd_proc q (set_p_pagetable root) k)).

Lemma at_rest_user p dev st D q root m fs k : at_rest p dev st D k -> at_rest p dev st D (with_user q root m fs k).
Proof. intros [T R2 R3 R4]. split; [now apply tx_file, tx_mem, tx_pagetable|done..]. Qed.

Lemma file_state_user p dev st sb ip D x len q root m fs k :
  file_state p dev st 0 sb ip [] D D x len k -> file_state p dev st 0 sb ip [] D D x len (with_user q root m fs k).
Proof. intros [T H2 H3 H4 H5 H6]. split; [now apply tx_file, tx_mem, tx_pagetable|done..]. Qed.

Definition open_state : kernel := with_user 3 0x87ffd000 small_mem [mk_file FD_INODE 1 true true 0 0 3 0] rest_state.

Lemma open_state_open : file_open 3 7 1 2 sb50 0 0 disk_file file_hello 3 open_state.
Proof.
  split; [apply at_rest_user, rest_state_rest|apply file_state_user, rest_file| |vm_compute; reflexivity|exact (le_n 1)|reflexivity].
  split; [exact (Z.le_refl 1)|reflexivity|reflexivity|discriminate].
Qed.

Example filewrite_correct_witness :
  exists data, length data = 5%nat /\ wp (filewrite 0 0x100 5) (fun r k' => r = 5 /\ exists x' tr,
    holds sb50 (replay disk_file tr) x' ([104; 101; 108] ++ data) /\ f_off (get_file 0 k') = 8) open_state.
Proof.
  set (data := ubytes small_mem small_table 0x100 5). exists data. split; [reflexivity|].
  assert (Hs : source true 0x100 data open_state).
  { exists 0x80026000, 0x87ffd000, small_table, 3%nat. split; [reflexivity|]. split; [vm_compute; reflexivity|]. split; [exact small_aspace|]. split; [vm_compute; discriminate|]. split; [|reflexivity].
    intros j Hj. assert (A : Forall (fun j => upage small_mem small_table (0x100 + j) = true) (seqZ 0 5)) by (apply (bool_decide_unpack _); vm_compute; exact I).
    rewrite Forall_forall in A. apply A, elem_of_seqZ. exact Hj. }
  assert (Hold : fbytes disk_file file_hello 0 (i_size file_hello) = [104; 101; 108; 108; 111]) by (vm_compute; reflexivity).
  assert (Hh : holds sb50 disk_file file_hello (fbytes disk_file file_hello 0 (i_size file_hello))) by (split; [vm_compute; reflexivity|reflexivity]).
  pose proof (filewrite_correct 3 7 1 2 sb50 0 0 disk_file file_hello 3 0x100 data open_state) as T.
  cbv zeta in T. change (Z.of_nat (length data)) with 5 in T. rewrite Hold in T, Hh.
  refine (wp_mono _ _ _ _ (T open_state_open Hh eq_refl eq_refl eq_refl Hs _ _ _ _) _); [lia|vm_compute; split; discriminate|vm_compute; discriminate|vm_compute; discriminate|].
  intros r k' (-> & x' & tr & F' & _ & H & _). split; [reflexivity|]. exists x', tr. split; [exact H|]. exact (fo_off _ _ _ _ _ _ _ _ _ _ _ F').
Defined.
