(* ===== verification/Proc.v ===== *)
(** * Processes (kernel/proc.c): creation, growth, fork, exit and wait *)

From stdpp Require Import base numbers list gmap strings.
From S2P Require Import Prelude Kstate Kstring Spinlock Kalloc Vm Sched Sleeplock Bio Log Fs Uart Printf Console Pipe File.

(** ** The trapframe page

    Offsets of the fields of [struct trapframe]. *)
Definition TF_kernel_satp : Z := 0.
Definition TF_kernel_sp : Z := 8.
Definition TF_kernel_trap : Z := 16.
Definition TF_epc : Z := 24.
Definition TF_kernel_hartid : Z := 32.
Definition TF_sp : Z := 48.
Definition TF_a0 : Z := 112.
Definition TF_a1 : Z := 120.
Definition TF_a7 : Z := 168.
Definition sizeof_trapframe : Z := 288.

Definition get_tf (p : nat) (field : Z) : K Z :=
  gets (fun k => load64 (k_mem k) (p_trapframe (get_proc p k) + field)).
Definition set_tf (p : nat) (field v : Z) : K unit :=
  modify (fun k => set_k_mem (store64 (k_mem k) (p_trapframe (get_proc p k) + field) v) k).

(** ** Page tables and table entries *)

Definition procinit : K unit :=
  initlock LK_pid "nextpid" ;;;
  for_each all_procs (fun p =>
    initlock (LK_proc p) "proc" ;;;
    let* pa := kalloc in
    if negb (nz pa) then panic "kalloc" else
    let va := KSTACK (Z.of_nat p) in
    kvmmap va pa PGSIZE (Z.lor PTE_R PTE_W) ;;;
    modify (upd_proc p (set_p_kstack va))) ;;;
  kvminithart.

Definition proc_pagetable (p : nat) : K Z :=
  let* pagetable := uvmcreate in
  if negb (nz pagetable) then ret 0 else
  let* sym := gets k_sym in
  let* r := mappages pagetable TRAMPOLINE PGSIZE (sym_trampoline sym) (Z.lor PTE_R PTE_X) in
  if r <? 0 then uvmfree pagetable 0 ;;; ret 0 else
  let* pr := gets (get_proc p) in
  let* r := mappages pagetable TRAPFRAME PGSIZE (p_trapframe pr) (Z.lor PTE_R PTE_W) in
  if r <? 0 then
    uvmunmap pagetable TRAMPOLINE 1 false ;;;
    uvmfree pagetable 0 ;;;
    ret 0
  else ret pagetable.

Definition proc_freepagetable (pagetable sz : Z) : K unit :=
  uvmunmap pagetable TRAMPOLINE 1 false ;;;
  uvmunmap pagetable TRAPFRAME 1 false ;;;
  uvmfree pagetable sz.

(** The fields [freeproc] resets. *)
Definition freed_proc (pr : proc) : proc :=
  set_p_state UNUSED (set_p_xstate 0 (set_p_killed 0 (set_p_chan CH_none
    (set_p_name (<[0%nat := 0]> (p_name pr)) (set_p_parent None (set_p_pid 0 (set_p_sz 0
      (set_p_pagetable 0 (set_p_trapframe 0 pr))))))))).

Definition freeproc (p : nat) : K unit :=
  let* pr := gets (get_proc p) in
  when (nz (p_trapframe pr)) (kfree (p_trapframe pr)) ;;;
  modify (upd_proc p (set_p_trapframe 0)) ;;;
  let* pr := gets (get_proc p) in
  when (nz (p_pagetable pr)) (proc_freepagetable (p_pagetable pr) (p_sz pr)) ;;;
  modify (upd_proc p freed_proc).

Definition allocproc : K (option nat) :=
  let* r := for_ret all_procs (fun p =>
    acquire (LK_proc p) ;;;
    let* pr := gets (get_proc p) in
    if bool_decide (p_state pr = UNUSED) then ret (Some p)
    else release (LK_proc p) ;;; ret None) in
  match r with
  | None => ret None
  | Some p =>
      let* pid := allocpid in
      modify (upd_proc p (set_p_pid pid)) ;;;
      let* tf := kalloc in
      modify (upd_proc p (set_p_trapframe tf)) ;;;
      if negb (nz tf) then release (LK_proc p) ;;; ret None else
      let* pt := proc_pagetable p in
      modify (upd_proc p (set_p_pagetable pt)) ;;;
      if negb (nz pt) then freeproc p ;;; release (LK_proc p) ;;; ret None else
      let* sym := gets k_sym in
      let* pr := gets (get_proc p) in
      modify (upd_proc p (set_p_context
        (mk_context (sym_forkret sym) (u64 (p_kstack pr + PGSIZE)) (replicate 12 0)))) ;;;
      ret (Some p)
  end.

Definition initcode : list Z :=
  [0x17; 0x05; 0x00; 0x00; 0x13; 0x05; 0x45; 0x02;
   0x97; 0x05; 0x00; 0x00; 0x93; 0x85; 0x35; 0x02;
   0x93; 0x08; 0x70; 0x00; 0x73; 0x00; 0x00; 0x00;
   0x93; 0x08; 0x20; 0x00; 0x73; 0x00; 0x00; 0x00;
   0xef; 0xf0; 0x9f; 0xff; 0x2f; 0x69; 0x6e; 0x69;
   0x74; 0x00; 0x00; 0x24; 0x00; 0x00; 0x00; 0x00;
   0x00; 0x00; 0x00; 0x00].

Definition set_name (p : nat) (name : list Z) : K unit :=
  modify (upd_proc p (fun pr => set_p_name (safestrcpy (p_name pr) (list_bytes name) 16) pr)).

Definition userinit : K unit :=
  let* r := allocproc in
  match r with
  | None => undefined
  | Some p =>
      modify (set_k_initproc (Some p)) ;;;
      let* pr := gets (get_proc p) in
      uvminit (p_pagetable pr) initcode ;;;
      modify (upd_proc p (set_p_sz PGSIZE)) ;;;
      set_tf p TF_epc 0 ;;;
      set_tf p TF_sp PGSIZE ;;;
      set_name p (bytes "initcode") ;;;
      let* cwd := namei (bytes "/") in
      modify (upd_proc p (set_p_cwd cwd)) ;;;
      modify (upd_proc p (set_p_state RUNNABLE)) ;;;
      release (LK_proc p)
  end.

Definition growproc (n : Z) : K Z :=
  let* p := myproc_ix in
  let* pr := gets (get_proc p) in
  let sz := u32 (p_sz pr) in
  if 0 <? n then
    let* r := uvmalloc (p_pagetable pr) sz (u32 (sz + n)) in
    let sz := u32 r in
    if sz =? 0 then ret (-1) else
    modify (upd_proc p (set_p_sz sz)) ;;; ret 0
  else
    let* sz :=
      (if n <? 0 then
         let* r := uvmdealloc (p_pagetable pr) sz (u32 (sz + n)) in ret (u32 r)
       else ret sz) in
    modify (upd_proc p (set_p_sz sz)) ;;; ret 0.

(** ** Fork, exit, wait *)

Definition set_ofile (p fd : nat) (f : option nat) : K unit :=
  modify (upd_proc p (fun pr => set_p_ofile (<[fd := f]> (p_ofile pr)) pr)).
Definition get_ofile (p fd : nat) : K (option nat) :=
  gets (fun k => default None (p_ofile (get_proc p k) !! fd)).

Definition fork : K Z :=
  let* p := myproc_ix in
  let* r := allocproc in
  match r with
  | None => ret (-1)
  | Some np =>
      let* pr := gets (get_proc p) in
      let* npr := gets (get_proc np) in
      let* r := uvmcopy (p_pagetable pr) (p_pagetable npr) (p_sz pr) in
      if r <? 0 then freeproc np ;;; release (LK_proc np) ;;; ret (-1) else
      modify (upd_proc np (set_p_sz (p_sz pr))) ;;;
      modify (upd_proc np (set_p_parent (Some p))) ;;;
      memmoveK (p_trapframe npr) (p_trapframe pr) sizeof_trapframe ;;;
      set_tf np TF_a0 0 ;;;
      for_each (seq 0 NOFILE) (fun i =>
        let* f := get_ofile p i in
        match f with
        | Some f => let* d := filedup f in set_ofile np i (Some d)
        | None => ret tt
        end) ;;;
      let* c := (match p_cwd pr with Some c => idup c | None => undefined end) in
      modify (upd_proc np (set_p_cwd (Some c))) ;;;
      modify (fun k => upd_proc np (fun x =>
        set_p_name (safestrcpy (p_name x) (list_bytes (p_name (get_proc p k))) 16) x) k) ;;;
      let* pid := gets (fun k => p_pid (get_proc np k)) in
      modify (upd_proc np (set_p_state RUNNABLE)) ;;;
      release (LK_proc np) ;;;
      ret pid
  end.

Definition reparent (p : nat) : K unit :=
  for_each all_procs (fun pp =>
    let* x := gets (get_proc pp) in
    when (bool_decide (p_parent x = Some p))
      (acquire (LK_proc pp) ;;;
       let* ip := gets k_initproc in
       modify (upd_proc pp (set_p_parent ip)) ;;;
       release (LK_proc pp))).

Definition exit (status : Z) : K unit :=
  let* p := myproc_ix in
  let* ip := gets k_initproc in
  if bool_decide (Some p = ip) then panic "init exiting" else
  for_each (seq 0 NOFILE) (fun fd =>
    let* f := get_ofile p fd in
    match f with
    | Some f => fileclose f ;;; set_ofile p fd None
    | None => ret tt
    end) ;;;
  begin_op ;;;
  let* pr := gets (get_proc p) in
  (match p_cwd pr with Some c => iput c | None => undefined end) ;;;
  end_op ;;;
  modify (upd_proc p (set_p_cwd None)) ;;;
  let* ip := gets k_initproc in
  match ip with
  | None => undefined
  | Some init =>
      acquire (LK_proc init) ;;;
      wakeup1 init ;;;
      release (LK_proc init) ;;;
      acquire (LK_proc p) ;;;
      let* parent := gets (fun k => p_parent (get_proc p k)) in
      release (LK_proc p) ;;;
      match parent with
      | None => undefined
      | Some original_parent =>
          acquire (LK_proc original_parent) ;;;
          acquire (LK_proc p) ;;;
          reparent p ;;;
          wakeup1 original_parent ;;;
          modify (upd_proc p (set_p_xstate status)) ;;;
          modify (upd_proc p (set_p_state ZOMBIE)) ;;;
          release (LK_proc original_parent) ;;;
          sched ;;;
          panic "zombie exit"
      end
  end.

(** The scan of [wait] over the table from one child to the next: the result of
    [wait], or whether a child was seen. *)
Fixpoint wait_scan (l : list nat) (p : nat) (addr : Z) (havekids : bool) : K (Z + bool) :=
  match l with
  | [] => ret (inr havekids)
  | np :: t =>
      let* x := gets (get_proc np) in
      if bool_decide (p_parent x = Some p) then
        acquire (LK_proc np) ;;;
        let* x := gets (get_proc np) in
        if bool_decide (p_state x = ZOMBIE) then
          let pid := p_pid x in
          let* r :=
            (if nz addr then
               let* pr := gets (get_proc p) in
               copyout (p_pagetable pr) addr (le_bytes 4 (p_xstate x))
             else ret 0) in
          if r <? 0 then
            release (LK_proc np) ;;; release (LK_proc p) ;;; ret (inl (-1))
          else
            freeproc np ;;;
            release (LK_proc np) ;;;
            release (LK_proc p) ;;;
            ret (inl pid)
        else
          release (LK_proc np) ;;;
          wait_scan t p addr true
      else wait_scan t p addr havekids
  end.
(** One turn of the [for(;;)] of [wait], with [p->lock] held. *)
Definition wait_loop (p : nat) (addr : Z) : K Z :=
  let* r := wait_scan all_procs p addr false in
  match r with
  | inl v => ret v
  | inr havekids =>
      let* pr := gets (get_proc p) in
      if negb havekids || nz (p_killed pr) then release (LK_proc p) ;;; ret (-1)
      else sleep (CH_proc p) (LK_proc p) ;;; ret (-1)
  end.
Definition wait (addr : Z) : K Z :=
  let* p := myproc_ix in
  acquire (LK_proc p) ;;;
  wait_loop p addr.
Definition wait_return (intena : bool) (p : nat) (addr : Z) : K Z :=
  sleep_return intena (LK_proc p) ;;;
  wait_loop p addr.

(** ** The scheduler

    [scheduler] runs its table scan until it switches to a process; when the
    process switches back, [scheduler_resume] goes on with the rest of the scan. *)
Definition scheduler_pass : K unit :=
  intr_on ;;;
  for_each all_procs scheduler_visit.
Definition scheduler : K unit :=
  modify (upd_hart (set_h_proc None)) ;;;
  scheduler_pass.
Definition scheduler_resume (p : nat) : K unit :=
  scheduler_return p ;;;
  for_each (seq (S p) (NPROC - S p)) scheduler_visit.
