(* ===== verification/Exec.v ===== *)
(** * [exec] (kernel/exec.c)

    The ELF header and the program headers are read into stack variables, which
    have addresses of their own; [argv] is the list of the argument strings (the
    bytes before each NUL). *)

From stdpp Require Import base numbers list gmap strings.
From S2P Require Import Prelude Kstate Kstring Spinlock Kalloc Vm Sched Sleeplock Bio Log Fs Uart Printf Console Pipe File Proc.

Definition local_elf : Z := 0x1200.
Definition local_ph : Z := 0x1300.
Definition sizeof_elfhdr : Z := 64.
Definition sizeof_proghdr : Z := 56.
Definition ELF_MAGIC : Z := 0x464C457F.
Definition ELF_PROG_LOAD : Z := 1.

(** Fields of [struct elfhdr] and [struct proghdr]. *)
Definition field (base off : Z) (n : nat) : K Z := gets (fun k => le_val (load (k_mem k) (base + off) n)).
Definition elf_magic : K Z := field local_elf 0 4.
Definition elf_entry : K Z := field local_elf 24 8.
Definition elf_phoff : K Z := field local_elf 32 8.
Definition elf_phnum : K Z := field local_elf 56 2.
Definition ph_type : K Z := field local_ph 0 4.
Definition ph_off : K Z := field local_ph 8 8.
Definition ph_vaddr : K Z := field local_ph 16 8.
Definition ph_filesz : K Z := field local_ph 32 8.
Definition ph_memsz : K Z := field local_ph 40 8.

Fixpoint loadseg_loop (fuel : nat) (pagetable va : Z) (ip : nat) (offset sz i : Z) : K Z :=
  match fuel with
  | O => suspend_with Forever
  | S fuel' =>
      if negb (i <? sz) then ret 0 else
      let* pa := walkaddr pagetable (u64 (va + i)) in
      if negb (nz pa) then panic "loadseg: address should exist" else
      let n := if sz - i <? PGSIZE then sz - i else PGSIZE in
      let* r := readi ip false pa (u32 (offset + i)) n in
      if negb (u32 r =? n) then ret (-1) else
      loadseg_loop fuel' pagetable va ip offset sz (u32 (i + PGSIZE))
  end.
Definition loadseg (pagetable va : Z) (ip : nat) (offset sz : Z) : K Z :=
  if negb (va mod PGSIZE =? 0) then panic "loadseg: va must be page aligned" else
  loadseg_loop (Z.to_nat (sz / PGSIZE + 2)) pagetable va ip offset sz 0.

(** The loop over the program headers; [inr sz] when it is done, [inl sz] for
    [goto bad] with [sz] bytes allocated. *)
Fixpoint exec_load (n : nat) (pagetable : Z) (ip : nat) (off sz : Z) : K (Z + Z) :=
  match n with
  | O => ret (inr sz)
  | S n' =>
      let* r := readi ip false local_ph (u32 off) sizeof_proghdr in
      if negb (r =? sizeof_proghdr) then ret (inl sz) else
      let off := i32 (off + sizeof_proghdr) in
      let* type := ph_type in
      if negb (type =? ELF_PROG_LOAD) then exec_load n' pagetable ip off sz else
      let* memsz := ph_memsz in
      let* filesz := ph_filesz in
      if memsz <? filesz then ret (inl sz) else
      let* vaddr := ph_vaddr in
      if u64 (vaddr + memsz) <? vaddr then ret (inl sz) else
      let* sz1 := uvmalloc pagetable sz (u64 (vaddr + memsz)) in
      if sz1 =? 0 then ret (inl sz) else
      let sz := sz1 in
      if negb (vaddr mod PGSIZE =? 0) then ret (inl sz) else
      let* poff := ph_off in
      let* r := loadseg pagetable vaddr ip (u32 poff) (u32 filesz) in
      if r <? 0 then ret (inl sz) else
      exec_load n' pagetable ip off sz
  end.

(** Pushes the argument strings: the stack pointer and [ustack], or [None] for
    [goto bad]. *)
Fixpoint push_args (argv : list (list Z)) (argc : nat) (pagetable sp stackbase : Z) (ustack : list Z)
    : K (option (Z * list Z)) :=
  match argv with
  | [] => ret (Some (sp, ustack))
  | s :: t =>
      if (MAXARG <=? argc)%nat then ret None else
      let sp := u64 (sp - (Z.of_nat (length s) + 1)) in
      let sp := sp - sp mod 16 in
      if sp <? stackbase then ret None else
      let* r := copyout pagetable sp (s ++ [0]) in
      if r <? 0 then ret None else
      push_args t (S argc) pagetable sp stackbase (ustack ++ [sp])
  end.

(** The part of the path after the last slash. *)
Fixpoint last_elem (path last : list Z) : list Z :=
  match path with
  | [] => last
  | c :: t => last_elem t (if c =? slash then t else last)
  end.

Definition exec (path : list Z) (argv : list (list Z)) : K Z :=
  let* p := myproc_ix in
  begin_op ;;;
  let* r := namei path in
  match r with
  | None => end_op ;;; ret (-1)
  | Some ip =>
  ilock ip ;;;
  let bad_ip (pagetable sz : Z) :=
    when (nz pagetable) (proc_freepagetable pagetable sz) ;;;
    iunlockput ip ;;;
    end_op ;;;
    ret (-1) in
  let* r := readi ip false local_elf 0 sizeof_elfhdr in
  if negb (r =? sizeof_elfhdr) then bad_ip 0 0 else
  let* magic := elf_magic in
  if negb (magic =? ELF_MAGIC) then bad_ip 0 0 else
  let* pagetable := proc_pagetable p in
  if negb (nz pagetable) then bad_ip 0 0 else
  let* phoff := elf_phoff in
  let* phnum := elf_phnum in
  let* r := exec_load (Z.to_nat phnum) pagetable ip (i32 phoff) 0 in
  match r with
  | inl sz => bad_ip pagetable sz
  | inr sz =>
  iunlockput ip ;;;
  end_op ;;;
  let bad (sz : Z) := proc_freepagetable pagetable sz ;;; ret (-1) in
  let* p := myproc_ix in
  let* oldsz := gets (fun k => p_sz (get_proc p k)) in
  let sz := PGROUNDUP sz in
  let* sz1 := uvmalloc pagetable sz (u64 (sz + 2 * PGSIZE)) in
  if sz1 =? 0 then bad sz else
  let sz := sz1 in
  uvmclear pagetable (u64 (sz - 2 * PGSIZE)) ;;;
  let stackbase := u64 (sz - PGSIZE) in
  let* r := push_args argv 0 pagetable sz stackbase [] in
  match r with
  | None => bad sz
  | Some (sp, ustack) =>
  let argc := Z.of_nat (length argv) in
  let sp := u64 (sp - (argc + 1) * 8) in
  let sp := sp - sp mod 16 in
  if sp <? stackbase then bad sz else
  let* r := copyout pagetable sp (concat (map (le_bytes 8) (ustack ++ [0]))) in
  if r <? 0 then bad sz else
  set_tf p TF_a1 sp ;;;
  set_name p (last_elem path path) ;;;
  let* oldpagetable := gets (fun k => p_pagetable (get_proc p k)) in
  modify (upd_proc p (set_p_pagetable pagetable)) ;;;
  modify (upd_proc p (set_p_sz sz)) ;;;
  let* entry := elf_entry in
  set_tf p TF_epc entry ;;;
  set_tf p TF_sp sp ;;;
  proc_freepagetable oldpagetable oldsz ;;;
  ret (i32 argc)
  end
  end
  end.
