(* ===== verification/Syscall.v ===== *)
(** * System calls (kernel/syscall.c, kernel/sysproc.c, kernel/sysfile.c) *)

From stdpp Require Import base numbers list gmap strings.
From S2P Require Import Prelude Kstate Kstring Spinlock Kalloc Vm Sched Sleeplock Bio Log Fs Uart Printf Console Pipe File Proc Exec.

(** ** Arguments (syscall.c) *)

Definition fetchaddr (addr : Z) : K (option Z) :=
  let* p := myproc_ix in
  let* pr := gets (get_proc p) in
  if (p_sz pr <=? addr) || (p_sz pr <? u64 (addr + 8)) then ret None else
  let* (r, bs) := copyin (p_pagetable pr) addr 8 in
  if negb (r =? 0) then ret None else ret (Some (le_val bs)).

(** The string in [buf] (without its NUL) or [None]; the C function returns its
    length or -1. *)
Definition fetchstr (addr max : Z) : K (option (list Z)) :=
  let* p := myproc_ix in
  let* pr := gets (get_proc p) in
  let* (err, bs) := copyinstr (p_pagetable pr) addr max in
  if err <? 0 then ret None else ret (Some (cstr (list_bytes bs) (length bs))).

Definition argraw (n : Z) : K Z :=
  let* p := myproc_ix in
  if (0 <=? n) && (n <=? 5) then get_tf p (TF_a0 + 8 * n) else panic "argraw".

Definition argint (n : Z) : K Z := let* v := argraw n in ret (i32 v).
Definition argaddr (n : Z) : K Z := argraw n.
Definition argstr (n max : Z) : K (option (list Z)) :=
  let* addr := argaddr n in fetchstr addr max.

(** ** Process calls (sysproc.c) *)

Definition sys_exit : K Z :=
  let* n := argint 0 in
  exit n ;;;
  ret 0.

Definition sys_getpid : K Z :=
  let* p := myproc_ix in
  let* pr := gets (get_proc p) in
  ret (p_pid pr).

Definition sys_fork : K Z := fork.

Definition sys_wait : K Z := let* p := argaddr 0 in wait p.

Definition sys_sbrk : K Z :=
  let* n := argint 0 in
  let* p := myproc_ix in
  let* pr := gets (get_proc p) in
  let addr := i32 (p_sz pr) in
  let* r := growproc n in
  if r <? 0 then ret (-1) else ret addr.

(** The loop of [sys_sleep], with [tickslock] held; [ticks - ticks0 < n] compares
    unsigned numbers. *)
Definition sys_sleep_loop (ticks0 n : Z) : K Z :=
  let* ticks := gets k_ticks in
  if u32 (ticks - ticks0) <? u32 n then
    let* p := myproc_ix in
    let* pr := gets (get_proc p) in
    if nz (p_killed pr) then release LK_ticks ;;; ret (-1)
    else sleep CH_ticks LK_ticks ;;; ret (-1)
  else release LK_ticks ;;; ret 0.
Definition sys_sleep : K Z :=
  let* n := argint 0 in
  acquire LK_ticks ;;;
  let* ticks0 := gets k_ticks in
  sys_sleep_loop ticks0 n.
Definition sys_sleep_return (intena : bool) (ticks0 n : Z) : K Z :=
  sleep_return intena LK_ticks ;;; sys_sleep_loop ticks0 n.

Definition sys_kill : K Z := let* pid := argint 0 in kill pid.

Definition sys_uptime : K Z :=
  acquire LK_ticks ;;;
  let* xticks := gets k_ticks in
  release LK_ticks ;;;
  ret xticks.

(** ** File calls (sysfile.c) *)

Definition argfd (n : Z) : K (option (nat * nat)) :=
  let* fd := argint n in
  if (fd <? 0) || (Z.of_nat NOFILE <=? fd) then ret None else
  let* p := myproc_ix in
  let* f := get_ofile p (Z.to_nat fd) in
  ret (match f with Some f => Some (Z.to_nat fd, f) | None => None end).

(** The first empty slot of the descriptor table. *)
Fixpoint fd_scan (l : list (option nat)) (i : nat) : option nat :=
  match l with
  | [] => None
  | None :: _ => Some i
  | Some _ :: t => fd_scan t (S i)
  end.
Definition fdalloc (f : nat) : K (option nat) :=
  let* p := myproc_ix in
  let* pr := gets (get_proc p) in
  match fd_scan (p_ofile pr) 0 with
  | Some fd => set_ofile p fd (Some f) ;;; ret (Some fd)
  | None => ret None
  end.

Definition sys_dup : K Z :=
  let* a := argfd 0 in
  match a with
  | None => ret (-1)
  | Some (_, f) =>
      let* fd := fdalloc f in
      match fd with
      | None => ret (-1)
      | Some fd => filedup f ;;; ret (Z.of_nat fd)
      end
  end.

Definition sys_read : K Z :=
  let* a := argfd 0 in
  match a with
  | None => ret (-1)
  | Some (_, f) =>
      let* n := argint 2 in
      let* p := argaddr 1 in
      fileread f p n
  end.

Definition sys_write : K Z :=
  let* a := argfd 0 in
  match a with
  | None => ret (-1)
  | Some (_, f) =>
      let* n := argint 2 in
      let* p := argaddr 1 in
      filewrite f p n
  end.

Definition sys_close : K Z :=
  let* a := argfd 0 in
  match a with
  | None => ret (-1)
  | Some (fd, f) =>
      let* p := myproc_ix in
      set_ofile p fd None ;;;
      fileclose f ;;;
      ret 0
  end.

Definition sys_fstat : K Z :=
  let* a := argfd 0 in
  match a with
  | None => ret (-1)
  | Some (_, f) => let* st := argaddr 1 in filestat f st
  end.

Definition add_nlink (ip : nat) (d : Z) : K unit :=
  modify (upd_inode ip (fun x => set_i_nlink (i16 (i_nlink x + d)) x)) ;;;
  iupdate ip.

(** [name] of sysfile.c's functions is an uninitialised array. *)
Definition fresh_name : list Z := replicate DIRSIZ 0.

Definition sys_link : K Z :=
  let* old := argstr 0 MAXPATH in
  match old with None => ret (-1) | Some old =>
  let* new := argstr 1 MAXPATH in
  match new with None => ret (-1) | Some new =>
  begin_op ;;;
  let* r := namei old in
  match r with None => end_op ;;; ret (-1) | Some ip =>
  ilock ip ;;;
  let* x := gets (get_inode ip) in
  if i_type x =? T_DIR then iunlockput ip ;;; end_op ;;; ret (-1) else
  add_nlink ip 1 ;;;
  iunlock ip ;;;
  let bad :=
    ilock ip ;;;
    add_nlink ip (-1) ;;;
    iunlockput ip ;;;
    end_op ;;;
    ret (-1) in
  let* (r, name) := nameiparent new fresh_name in
  match r with None => bad | Some dp =>
  ilock dp ;;;
  let* x := gets (get_inode ip) in
  let* d := gets (get_inode dp) in
  let* ok := (if negb (i_dev d =? i_dev x) then ret false
              else let* r := dirlink dp name (i_inum x) in ret (0 <=? r)) in
  if negb ok then iunlockput dp ;;; bad else
  iunlockput dp ;;;
  iput ip ;;;
  end_op ;;;
  ret 0
  end end end end.

Fixpoint isdirempty_loop (fuel : nat) (dp : nat) (off : Z) : K bool :=
  match fuel with
  | O => suspend_with Forever
  | S fuel' =>
      let* x := gets (get_inode dp) in
      if negb (u32 off <? i_size x) then ret true else
      let* r := readi dp false local_de (u32 off) sizeof_dirent in
      if negb (r =? sizeof_dirent) then panic "isdirempty: readi" else
      let* inum := de_inum in
      if nz inum then ret false else isdirempty_loop fuel' dp (i32 (off + sizeof_dirent))
  end.
Definition isdirempty (dp : nat) : K bool :=
  let* x := gets (get_inode dp) in
  isdirempty_loop (Z.to_nat (i_size x / sizeof_dirent + 2)) dp (2 * sizeof_dirent).

Definition sys_unlink : K Z :=
  let* path := argstr 0 MAXPATH in
  match path with None => ret (-1) | Some path =>
  begin_op ;;;
  let* (r, name) := nameiparent path fresh_name in
  match r with None => end_op ;;; ret (-1) | Some dp =>
  ilock dp ;;;
  let bad := iunlockput dp ;;; end_op ;;; ret (-1) in
  if (namecmp name (bytes ".") =? 0) || (namecmp name (bytes "..") =? 0) then bad else
  let* r := dirlookup dp name in
  match r with None => bad | Some (ip, off) =>
  ilock ip ;;;
  let* x := gets (get_inode ip) in
  if i_nlink x <? 1 then panic "unlink: nlink < 1" else
  let* stop := (if i_type x =? T_DIR then let* e := isdirempty ip in ret (negb e) else ret false) in
  if (stop : bool) then iunlockput ip ;;; bad else
  memwrite local_de (replicate (Z.to_nat sizeof_dirent) 0) ;;;
  let* r := writei dp false local_de off sizeof_dirent in
  if negb (r =? sizeof_dirent) then panic "unlink: writei" else
  when (i_type x =? T_DIR) (add_nlink dp (-1)) ;;;
  iunlockput dp ;;;
  add_nlink ip (-1) ;;;
  iunlockput ip ;;;
  end_op ;;;
  ret 0
  end end end.

(** The new inode, locked. *)
Definition create (path : list Z) (type major minor : Z) : K (option nat) :=
  let* (r, name) := nameiparent path fresh_name in
  match r with None => ret None | Some dp =>
  ilock dp ;;;
  let* r := dirlookup dp name in
  match r with
  | Some (ip, _) =>
      iunlockput dp ;;;
      ilock ip ;;;
      let* x := gets (get_inode ip) in
      if (type =? T_FILE) && ((i_type x =? T_FILE) || (i_type x =? T_DEVICE)) then ret (Some ip)
      else iunlockput ip ;;; ret None
  | None =>
      let* d := gets (get_inode dp) in
      let* ip := ialloc (i_dev d) type in
      ilock ip ;;;
      modify (upd_inode ip (set_i_major major)) ;;;
      modify (upd_inode ip (set_i_minor minor)) ;;;
      modify (upd_inode ip (set_i_nlink 1)) ;;;
      iupdate ip ;;;
      let* x := gets (get_inode ip) in
      when (type =? T_DIR)
        (add_nlink dp 1 ;;;
         let* r1 := dirlink ip (bytes ".") (i_inum x) in
         if r1 <? 0 then panic "create dots" else
         let* r2 := dirlink ip (bytes "..") (i_inum d) in
         if r2 <? 0 then panic "create dots" else ret tt) ;;;
      let* r := dirlink dp name (i_inum x) in
      if r <? 0 then panic "create: dirlink" else
      iunlockput dp ;;;
      ret (Some ip)
  end end.

(** [sys_open] once the inode is found and locked. *)
Definition open_inode (ip : nat) (omode : Z) : K Z :=
  let fail := iunlockput ip ;;; end_op ;;; ret (-1) in
  let* x := gets (get_inode ip) in
  if (i_type x =? T_DEVICE) && ((i_major x <? 0) || (NDEV <=? i_major x)) then fail else
  let* f := filealloc in
  match f with None => fail | Some f =>
  let* fd := fdalloc f in
  match fd with None => fileclose f ;;; fail | Some fd =>
  (if i_type x =? T_DEVICE then
     modify (upd_file f (set_f_type FD_DEVICE)) ;;; modify (upd_file f (set_f_major (i_major x)))
   else
     modify (upd_file f (set_f_type FD_INODE)) ;;; modify (upd_file f (set_f_off 0))) ;;;
  modify (upd_file f (set_f_ip ip)) ;;;
  modify (upd_file f (set_f_readable (negb (nz (Z.land omode O_WRONLY))))) ;;;
  modify (upd_file f (set_f_writable (nz (Z.land omode O_WRONLY) || nz (Z.land omode O_RDWR)))) ;;;
  when (nz (Z.land omode O_TRUNC) && (i_type x =? T_FILE)) (itrunc ip) ;;;
  iunlock ip ;;;
  end_op ;;;
  ret (Z.of_nat fd)
  end end.

Definition sys_open : K Z :=
  let* path := argstr 0 MAXPATH in
  match path with None => ret (-1) | Some path =>
  let* omode := argint 1 in
  begin_op ;;;
  if nz (Z.land omode O_CREATE) then
    let* r := create path T_FILE 0 0 in
    match r with None => end_op ;;; ret (-1) | Some ip => open_inode ip omode end
  else
    let* r := namei path in
    match r with None => end_op ;;; ret (-1) | Some ip =>
    ilock ip ;;;
    let* x := gets (get_inode ip) in
    if (i_type x =? T_DIR) && negb (omode =? O_RDONLY) then iunlockput ip ;;; end_op ;;; ret (-1)
    else open_inode ip omode
    end
  end.

Definition create_and_put (r : option nat) : K Z :=
  match r with
  | None => end_op ;;; ret (-1)
  | Some ip => iunlockput ip ;;; end_op ;;; ret 0
  end.

Definition sys_mkdir : K Z :=
  begin_op ;;;
  let* path := argstr 0 MAXPATH in
  match path with
  | None => end_op ;;; ret (-1)
  | Some path => let* r := create path T_DIR 0 0 in create_and_put r
  end.

Definition sys_mknod : K Z :=
  begin_op ;;;
  let* path := argstr 0 MAXPATH in
  match path with
  | None => end_op ;;; ret (-1)
  | Some path =>
      let* major := argint 1 in
      let* minor := argint 2 in
      let* r := create path T_DEVICE (i16 major) (i16 minor) in
      create_and_put r
  end.

Definition sys_chdir : K Z :=
  let* p := myproc_ix in
  begin_op ;;;
  let* path := argstr 0 MAXPATH in
  match path with None => end_op ;;; ret (-1) | Some path =>
  let* r := namei path in
  match r with None => end_op ;;; ret (-1) | Some ip =>
  ilock ip ;;;
  let* x := gets (get_inode ip) in
  if negb (i_type x =? T_DIR) then iunlockput ip ;;; end_op ;;; ret (-1) else
  iunlock ip ;;;
  let* pr := gets (get_proc p) in
  (match p_cwd pr with Some c => iput c | None => undefined end) ;;;
  end_op ;;;
  modify (upd_proc p (set_p_cwd (Some ip))) ;;;
  ret 0
  end end.

(** The loop of [sys_exec] that fetches the arguments: the pages allocated, and
    the strings unless the loop ends in [bad].  [n] is [NELEM(argv) - i]. *)
Fixpoint exec_args (n : nat) (uargv i : Z) (pages : list Z) (argv : list (list Z))
    : K (list Z * option (list (list Z))) :=
  match n with
  | O => ret (pages, None)
  | S n' =>
      let* r := fetchaddr (u64 (uargv + 8 * i)) in
      match r with
      | None => ret (pages, None)
      | Some uarg =>
          if uarg =? 0 then ret (pages, Some argv) else
          let* page := kalloc in
          if negb (nz page) then ret (pages, None) else
          let* s := fetchstr uarg PGSIZE in
          match s with
          | None => ret (pages ++ [page], None)
          | Some s =>
              memwrite page (s ++ [0]) ;;;
              exec_args n' uargv (i + 1) (pages ++ [page]) (argv ++ [s])
          end
      end
  end.

Definition sys_exec : K Z :=
  let* path := argstr 0 MAXPATH in
  match path with None => ret (-1) | Some path =>
  let* uargv := argaddr 1 in
  let* (pages, argv) := exec_args MAXARG uargv 0 [] [] in
  match argv with
  | None => for_each pages kfree ;;; ret (-1)
  | Some argv =>
      let* r := exec path argv in
      for_each pages kfree ;;;
      ret r
  end
  end.

Definition sys_pipe : K Z :=
  let* p := myproc_ix in
  let* fdarray := argaddr 0 in
  let* r := pipealloc in
  match r with None => ret (-1) | Some (rf, wf) =>
  let close2 := fileclose rf ;;; fileclose wf ;;; ret (-1) in
  let* fd0 := fdalloc rf in
  match fd0 with None => close2 | Some fd0 =>
  let* fd1 := fdalloc wf in
  match fd1 with None => set_ofile p fd0 None ;;; close2 | Some fd1 =>
  let* pr := gets (get_proc p) in
  let* r0 := copyout (p_pagetable pr) fdarray (le_bytes 4 (Z.of_nat fd0)) in
  let* r1 := (if r0 <? 0 then ret (-1)
              else copyout (p_pagetable pr) (u64 (fdarray + 4)) (le_bytes 4 (Z.of_nat fd1))) in
  if r1 <? 0 then
    set_ofile p fd0 None ;;;
    set_ofile p fd1 None ;;;
    close2
  else ret 0
  end end end.

(** ** Dispatch (syscall.c, syscall.h) *)

Definition syscalls (num : Z) : option (K Z) :=
  match num with
  | 1 => Some sys_fork | 2 => Some sys_exit | 3 => Some sys_wait | 4 => Some sys_pipe
  | 5 => Some sys_read | 6 => Some sys_kill | 7 => Some sys_exec | 8 => Some sys_fstat
  | 9 => Some sys_chdir | 10 => Some sys_dup | 11 => Some sys_getpid | 12 => Some sys_sbrk
  | 13 => Some sys_sleep | 14 => Some sys_uptime | 15 => Some sys_open | 16 => Some sys_write
  | 17 => Some sys_mknod | 18 => Some sys_unlink | 19 => Some sys_link | 20 => Some sys_mkdir
  | 21 => Some sys_close
  | _ => None
  end.

Definition syscall : K unit :=
  let* p := myproc_ix in
  let* a7 := get_tf p TF_a7 in
  let num := i32 a7 in
  match syscalls num with
  | Some f =>
      let* r := f in
      set_tf p TF_a0 (u64 r)
  | None =>
      let* pr := gets (get_proc p) in
      printf (bytes "%d %s: unknown sys call %d" ++ [10])
        [VInt (p_pid pr); VStr (Some (cstr (list_bytes (p_name pr)) (length (p_name pr)))); VInt num] ;;;
      set_tf p TF_a0 (u64 (-1))
  end.
