(* ===== verification/FileTable.v ===== *)
(** * The table of open files (kernel/file.c, kernel/sysfile.c, kernel/proc.c)

    Every system call keeps the reference counts of the open files equal to the number
    of descriptors that refer to them. *)

From stdpp Require Import base numbers list gmap strings.
From S2P Require Import Prelude Kstate Kstring Spinlock Kalloc Vm Sched Sleeplock Bio Log Fs Footprint Uart Printf Console Pipe File Proc Exec Syscall.

(** ** Code that leaves the table alone *)

Section quiet_code.
Context (w : bool).

#[export] Instance ca_kfree pa : Calm w (kfree pa).
Proof. unfold kfree. calm_code. Qed.
#[export] Instance ca_mappages_loop fuel : forall pagetable a last pa perm, Calm w (mappages_loop fuel pagetable a last pa perm).
Proof. induction fuel as [|fuel IH]; intros; cbn [mappages_loop]; unfold get_pte, set_pte; calm_code. Qed.
#[export] Instance ca_mappages pagetable va size pa perm : Calm w (mappages pagetable va size pa perm).
Proof. unfold mappages. calm_code. Qed.
#[export] Instance ca_uvmunmap_loop fuel : forall pagetable a stop do_free, Calm w (uvmunmap_loop fuel pagetable a stop do_free).
Proof. induction fuel as [|fuel IH]; intros; cbn [uvmunmap_loop]; unfold get_pte, set_pte; calm_code. Qed.
#[export] Instance ca_uvmunmap pagetable va n do_free : Calm w (uvmunmap pagetable va n do_free).
Proof. unfold uvmunmap. calm_code. Qed.
#[export] Instance ca_uvmcreate : Calm w uvmcreate.
Proof. unfold uvmcreate, memsetK. calm_code. Qed.
#[export] Instance ca_uvmdealloc pagetable oldsz newsz : Calm w (uvmdealloc pagetable oldsz newsz).
Proof. unfold uvmdealloc. calm_code. Qed.
#[export] Instance ca_uvmalloc_loop fuel : forall pagetable oldsz a newsz, Calm w (uvmalloc_loop fuel pagetable oldsz a newsz).
Proof. induction fuel as [|fuel IH]; intros; cbn [uvmalloc_loop]; unfold memsetK; calm_code. Qed.
#[export] Instance ca_uvmalloc pagetable oldsz newsz : Calm w (uvmalloc pagetable oldsz newsz).
Proof. unfold uvmalloc. calm_code. Qed.
#[export] Instance ca_freewalk depth : forall pagetable, Calm w (freewalk depth pagetable).
Proof. induction depth as [|depth IH]; intros; cbn [freewalk]; unfold get_pte, set_pte; calm_code. Qed.
#[export] Instance ca_uvmfree pagetable sz : Calm w (uvmfree pagetable sz).
Proof. unfold uvmfree. calm_code. Qed.
#[export] Instance ca_uvmcopy_loop fuel : forall old new i sz, Calm w (uvmcopy_loop fuel old new i sz).
Proof. induction fuel as [|fuel IH]; intros; cbn [uvmcopy_loop]; unfold get_pte, memmoveK; calm_code. Qed.
#[export] Instance ca_uvmcopy old new sz : Calm w (uvmcopy old new sz).
Proof. unfold uvmcopy. calm_code. Qed.
#[export] Instance ca_uvmclear pagetable va : Calm w (uvmclear pagetable va).
Proof. unfold uvmclear, get_pte, set_pte. calm_code. Qed.
#[export] Instance ca_copyout pagetable dst src : Calm w (copyout pagetable dst src).
Proof. unfold copyout. calm_code. Qed.
#[export] Instance ca_copyin pagetable src n : Calm w (copyin pagetable src n).
Proof. unfold copyin. calm_code. Qed.
#[export] Instance ca_copyinstr_loop fuel : forall pagetable src max, Calm w (copyinstr_loop fuel pagetable src max).
Proof. induction fuel as [|fuel IH]; intros; cbn [copyinstr_loop]; calm_code. Qed.
#[export] Instance ca_copyinstr pagetable src max : Calm w (copyinstr pagetable src max).
Proof. unfold copyinstr. calm_code. Qed.

#[export] Instance ca_read_LSR : Calm w read_LSR.
Proof. unfold read_LSR. calm_code. Qed.
#[export] Instance ca_uartstart_loop fuel : Calm w (uartstart_loop fuel).
Proof. induction fuel as [|fuel IH]; cbn [uartstart_loop]; unfold write_THR; calm_code. Qed.
#[export] Instance ca_uartputc c : Calm w (uartputc c).
Proof. unfold uartputc, uartputc_loop, uartstart. calm_code. Qed.
#[export] Instance ca_wait_idle fuel : Calm w (wait_idle fuel).
Proof. induction fuel as [|fuel IH]; cbn [wait_idle]; calm_code. Qed.
#[export] Instance ca_uartputc_sync c : Calm w (uartputc_sync c).
Proof. unfold uartputc_sync, write_THR. calm_code. Qed.
#[export] Instance ca_consputc c : Calm w (consputc c).
Proof. unfold consputc. calm_code. Qed.
#[export] Instance ca_printint xx base sign : Calm w (printint xx base sign).
Proof. unfold printint. calm_code. Qed.
#[export] Instance ca_printptr x : Calm w (printptr x).
Proof. unfold printptr. calm_code. Qed.
Lemma printf_loop_calm n : forall fmt ap, (length fmt <= n)%nat -> Calm w (printf_loop fmt ap).
Proof.
  induction n as [|n IH]; intros [|c fmt] ap Hn; cbn [length] in Hn; try lia; cbn [printf_loop]; try exact _.
  assert (H1 : forall ap, Calm w (printf_loop fmt ap)) by (intros; apply IH; lia).
  assert (H2 : forall c' rest ap, fmt = c' :: rest -> Calm w (printf_loop rest ap)) by (intros ? ? ? ->; apply IH; cbn in Hn; lia).
  repeat first [match goal with |- Calm w (match ?x with _ => _ end) => destruct x eqn:? end | calm_step | eapply H2; reflexivity].
Qed.
#[export] Instance ca_printf fmt ap : Calm w (printf fmt ap).
Proof. unfold printf. pose proof (fun fmt ap => printf_loop_calm _ fmt ap (le_n _)). calm_code. Qed.
#[export] Instance ca_consolewrite_loop fuel : forall user src i n, Calm w (consolewrite_loop fuel user src i n).
Proof. induction fuel as [|fuel IH]; intros; cbn [consolewrite_loop]; calm_code. Qed.
#[export] Instance ca_consolewrite user src n : Calm w (consolewrite user src n).
Proof. unfold consolewrite. calm_code. Qed.
#[export] Instance ca_consoleread_loop fuel : forall user dst n target, Calm w (consoleread_loop fuel user dst n target).
Proof. induction fuel as [|fuel IH]; intros; cbn [consoleread_loop]; calm_code. Qed.
#[export] Instance ca_consoleread user dst n : Calm w (consoleread user dst n).
Proof. unfold consoleread, consoleread_end. calm_code. Qed.
#[export] Instance ca_pipeclose pi writable : Calm w (pipeclose pi writable).
Proof. unfold pipeclose. calm_code. Qed.
#[export] Instance ca_pipewrite_loop fuel : forall pr pi addr i n, Calm w (pipewrite_loop fuel pr pi addr i n).
Proof. induction fuel as [|fuel IH]; intros; cbn [pipewrite_loop]; unfold pipewrite_wait; calm_code. Qed.
#[export] Instance ca_pipewrite pi addr n : Calm w (pipewrite pi addr n).
Proof. unfold pipewrite, pipewrite_end. calm_code. Qed.
#[export] Instance ca_piperead_loop fuel : forall pr pi addr i n, Calm w (piperead_loop fuel pr pi addr i n).
Proof. induction fuel as [|fuel IH]; intros; cbn [piperead_loop]; calm_code. Qed.
#[export] Instance ca_piperead pi addr n : Calm w (piperead pi addr n).
Proof. unfold piperead, piperead_locked. calm_code. Qed.

#[export] Instance ca_kill pid : Calm w (kill pid).
Proof. unfold kill. calm_code. Qed.
#[export] Instance ca_allocpid : Calm w allocpid.
Proof. unfold allocpid. calm_code. Qed.
#[export] Instance ca_proc_pagetable p : Calm w (proc_pagetable p).
Proof. unfold proc_pagetable. calm_code. Qed.
#[export] Instance ca_proc_freepagetable pagetable sz : Calm w (proc_freepagetable pagetable sz).
Proof. unfold proc_freepagetable. calm_code. Qed.
#[export] Instance ca_growproc n : Calm w (growproc n).
Proof. unfold growproc. calm_code. Qed.
#[export] Instance ca_set_tf p field v : Calm w (set_tf p field v).
Proof. unfold set_tf. calm_code. Qed.
#[export] Instance ca_set_name p name : Calm w (set_name p name).
Proof. unfold set_name. calm_code. Qed.
#[export] Instance ca_argraw n : Calm w (argraw n).
Proof. unfold argraw, get_tf. calm_code. Qed.
#[export] Instance ca_argint n : Calm w (argint n).
Proof. unfold argint. calm_code. Qed.
#[export] Instance ca_argaddr n : Calm w (argaddr n).
Proof. unfold argaddr. calm_code. Qed.
#[export] Instance ca_fetchaddr addr : Calm w (fetchaddr addr).
Proof. unfold fetchaddr. calm_code. Qed.
#[export] Instance ca_fetchstr addr max : Calm w (fetchstr addr max).
Proof. unfold fetchstr. calm_code. Qed.
#[export] Instance ca_argstr n max : Calm w (argstr n max).
Proof. unfold argstr. calm_code. Qed.
#[export] Instance ca_argfd n : Calm w (argfd n).
Proof. unfold argfd, get_ofile. calm_code. Qed.
#[export] Instance ca_filestat f addr : Calm w (filestat f addr).
Proof. unfold filestat. calm_code. Qed.
#[export] Instance ca_fileread f addr n : Calm w (fileread f addr n).
Proof. unfold fileread, devsw_read. calm_code. Qed.
#[export] Instance ca_add_nlink ip d : Calm w (add_nlink ip d).
Proof. unfold add_nlink. calm_code. Qed.
#[export] Instance ca_isdirempty_loop fuel : forall dp off, Calm w (isdirempty_loop fuel dp off).
Proof. induction fuel as [|fuel IH]; intros; cbn [isdirempty_loop]; unfold de_inum; calm_code. Qed.
#[export] Instance ca_isdirempty dp : Calm w (isdirempty dp).
Proof. unfold isdirempty. calm_code. Qed.
#[export] Instance ca_create path type major minor : Calm w (create path type major minor).
Proof. unfold create. calm_code. Qed.
#[export] Instance ca_loadseg_loop fuel : forall pagetable va ip offset sz i, Calm w (loadseg_loop fuel pagetable va ip offset sz i).
Proof. induction fuel as [|fuel IH]; intros; cbn [loadseg_loop]; calm_code. Qed.
#[export] Instance ca_loadseg pagetable va ip offset sz : Calm w (loadseg pagetable va ip offset sz).
Proof. unfold loadseg. calm_code. Qed.
#[export] Instance ca_exec_load n : forall pagetable ip off sz, Calm w (exec_load n pagetable ip off sz).
Proof. induction n as [|n IH]; intros; cbn [exec_load]; unfold ph_type, ph_memsz, ph_filesz, ph_vaddr, ph_off, field; calm_code. Qed.
#[export] Instance ca_push_args argv : forall argc pagetable sp stackbase ustack, Calm w (push_args argv argc pagetable sp stackbase ustack).
Proof. induction argv as [|s argv IH]; intros; cbn [push_args]; calm_code. Qed.
#[export] Instance ca_exec_args n : forall uargv i pages argv, Calm w (exec_args n uargv i pages argv).
Proof. induction n as [|n IH]; intros; cbn [exec_args]; calm_code. Qed.
End quiet_code.

(** With operations on the disk. *)
#[export] Instance ca_filewrite_loop fuel : forall f ip addr i n, Calm true (filewrite_loop fuel f ip addr i n).
Proof. induction fuel as [|fuel IH]; intros; cbn [filewrite_loop]; calm_code. Qed.
#[export] Instance ca_filewrite f addr n : Calm true (filewrite f addr n).
Proof. unfold filewrite, devsw_write. calm_code. Qed.
#[export] Instance ca_exec path argv : Calm true (exec path argv).
Proof. unfold exec, elf_magic, elf_phoff, elf_phnum, elf_entry, field. calm_code. Qed.
#[export] Instance ca_create_and_put r : Calm true (create_and_put r).
Proof. unfold create_and_put. calm_code. Qed.

(** ** Counting references *)

(** The files the descriptors of all processes refer to. *)
Definition opened (procs : list proc) : list nat := concat (map (fun x => omap id (p_ofile x)) procs).

(** How often [f] occurs. *)
Definition times (f : nat) (l : list nat) : Z := Z.of_nat (length (filter (fun g => g = f) l)).

(** The reference counts, up to references a call holds itself ([e]) and has given up
    before its descriptor ([d]). *)
Record counted (d e : list nat) (k : kernel) : Prop := {
  ct_ref : forall f r, map f_ref (k_files k) !! f = Some r -> r + times f d = times f (opened (k_procs k) ++ e);
  ct_in : Forall (fun f => (f < length (k_files k))%nat) (opened (k_procs k) ++ e);
  ct_procs : length (k_procs k) = NPROC;
  ct_slots : Forall (fun x => length (p_ofile x) = NOFILE) (k_procs k) }.

(** Processes that are gone have no open files, but for the unused entry [ex], of which a
    process is being made. *)
Definition vacant (ex : option nat) (k : kernel) : Prop :=
  forall q x, k_procs k !! q = Some x -> is_gone (p_state x) = true -> Some q <> ex \/ p_state x = ZOMBIE -> Forall (fun o => o = None) (p_ofile x).

(** Process [q] is not one that has ended. *)
Definition unborn (q : nat) (k : kernel) : Prop := forall x, k_procs k !! q = Some x -> p_state x <> ZOMBIE.

(** The table in a system call of process [p]. *)
Record ftable (d e : list nat) (ex : option nat) (p : nat) (k : kernel) : Prop := {
  ft_counted : counted d e k;
  ft_vacant : vacant ex k;
  ft_current : h_proc (k_hart k) = Some p;
  ft_running : forall x, k_procs k !! p = Some x -> is_gone (p_state x) = false;
  ft_making : forall q, ex = Some q -> unborn q k }.

#[export] Instance times_perm f : Proper (Permutation ==> eq) (times f).
Proof. intros l l' H. unfold times. f_equal. apply Permutation_length. now rewrite H. Qed.

Lemma times_app f l l' : times f (l ++ l') = times f l + times f l'.
Proof. unfold times. rewrite filter_app, length_app. lia. Qed.

Lemma times_cons f g l : times f (g :: l) = (if decide (g = f) then 1 else 0) + times f l.
Proof. unfold times. rewrite filter_cons. case_decide; [cbn [length]|]; lia. Qed.

Lemma times_nonneg f l : 0 <= times f l.
Proof. unfold times. lia. Qed.

Lemma opened_calm procs procs' : Forall2 proc_calm procs procs' -> opened procs' = opened procs.
Proof. induction 1 as [|x x' l l' [E _] _ IH]; [done|]. unfold opened in *. cbn. now rewrite E, IH. Qed.

Lemma counted_calm w d e k k' : calm w k k' -> counted d e k -> counted d e k'.
Proof.
  intros [_ _ Hp Hf] [C1 C2 C3 C4]. pose proof (opened_calm _ _ Hp) as Eo.
  assert (El : length (k_files k') = length (k_files k)) by (rewrite <- (length_map f_ref), Hf; apply length_map).
  split; [now rewrite Hf, Eo|now rewrite Eo, El|now rewrite <- (Forall2_length _ _ _ Hp)|].
  clear -Hp C4. induction Hp as [|x x' l l' [E _] _ IH]; [done|]. inversion C4; subst. constructor; [congruence|auto].
Qed.

Lemma vacant_calm w ex k k' : calm w k k' -> vacant ex k -> vacant ex k'.
Proof.
  intros [_ _ Hp _] V q x Hx Hg Hne. destruct (Forall2_lookup_r _ _ _ _ _ Hp Hx) as (y & Hy & E & Hi). rewrite E. specialize (Hi Hg). rewrite Hi in Hg, Hne. eapply V; eauto.
Qed.

Lemma unborn_calm w q k k' : calm w k k' -> unborn q k -> unborn q k'.
Proof.
  intros C U x Hx E. destruct (Forall2_lookup_r _ _ _ _ _ (cm_procs _ _ _ C) Hx) as (y & Hy & _ & Hi). apply (U y Hy). rewrite <- Hi, E; [done|]. now rewrite E.
Qed.

Lemma ftable_calm w d e ex p k k' : calm w k k' -> ftable d e ex p k -> ftable d e ex p k'.
Proof.
  intros C [F1 F2 F3 F4 F5]. split; [now apply (counted_calm w _ _ k)|now apply (vacant_calm w _ k)|now rewrite (cm_current _ _ _ C)| |intros q Hq; now apply (unborn_calm w q k), F5].
  intros x Hx. destruct (Forall2_lookup_r _ _ _ _ _ (cm_procs _ _ _ C) Hx) as (y & Hy & _ & Hi). specialize (F4 y Hy).
  destruct (is_gone (p_state x)) eqn:Eg; [|done]. rewrite <- (Hi eq_refl) in F4. congruence.
Qed.

(** A reference given up and one held that are the same. *)
Lemma counted_cancel f d e k : counted (f :: d) (f :: e) k -> counted d e k.
Proof.
  intros [C1 C2 C3 C4]. split; [|rewrite Forall_app in C2 |- *; destruct C2 as [? C2]; inversion C2; now subst|done|done].
  intros g r Hg. specialize (C1 g r Hg). rewrite times_app, !times_cons in C1. rewrite times_app. lia.
Qed.

Lemma ftable_cancel f d e ex p k : ftable (f :: d) (f :: e) ex p k -> ftable d e ex p k.
Proof. intros [F1 F2 F3 F4 F5]. split; [now apply (counted_cancel f)|done..]. Qed.

(** *** Changing a count *)

Lemma refs_alter f g c files i r :
  (forall x, files !! f = Some x -> f_ref (g x) = f_ref x + c) -> map f_ref (alter g f files) !! i = Some r ->
  exists r', map f_ref files !! i = Some r' /\ r = r' + (if decide (f = i) then c else 0).
Proof.
  intros Hg. change (map f_ref) with (fmap (M := list) f_ref). rewrite !list_lookup_fmap. destruct (decide (f = i)) as [->|Hne].
  - rewrite list_lookup_alter_eq. destruct (files !! i) as [x|]; cbn; [|done]. intros [= <-]. rewrite (Hg x eq_refl). eauto.
  - rewrite list_lookup_alter_ne by done. destruct (files !! i) as [x|]; cbn; [|done]. intros [= <-]. eexists. split; [done|lia].
Qed.

Lemma counted_more f g d e k :
  (forall x, k_files k !! f = Some x -> f_ref (g x) = f_ref x + 1) -> (f < length (k_files k))%nat -> counted d e k -> counted d (f :: e) (upd_file f g k).
Proof.
  intros Hg Hf [C1 C2 C3 C4]. split; [| |done|done].
  - intros i r Hr. destruct (refs_alter f g 1 (k_files k) i r Hg Hr) as (r' & Hr' & ->). specialize (C1 i r' Hr'). cbn [k_procs upd_file set_k_files]. rewrite times_app, times_cons. rewrite times_app in C1. repeat case_decide; lia.
  - cbn. rewrite length_alter. rewrite Forall_app in C2 |- *. split; [apply C2|constructor; [done|apply C2]].
Qed.

Lemma counted_less f g d e k : (forall x, k_files k !! f = Some x -> f_ref (g x) = f_ref x + -1) -> counted d e k -> counted (f :: d) e (upd_file f g k).
Proof.
  intros Hg [C1 C2 C3 C4]. split; [| |done|done].
  - intros i r Hr. destruct (refs_alter f g (-1) (k_files k) i r Hg Hr) as (r' & Hr' & ->). specialize (C1 i r' Hr'). cbn [k_procs upd_file set_k_files]. rewrite times_cons. repeat case_decide; lia.
  - cbn. now rewrite length_alter.
Qed.

Lemma counted_same f g d e k : (forall x, k_files k !! f = Some x -> f_ref (g x) = f_ref x + 0) -> counted d e k -> counted d e (upd_file f g k).
Proof.
  intros Hg [C1 C2 C3 C4]. split; [|cbn; now rewrite length_alter|done|done].
  intros i r Hr. destruct (refs_alter f g 0 (k_files k) i r Hg Hr) as (r' & Hr' & ->). specialize (C1 i r' Hr'). cbn [k_procs upd_file set_k_files]. case_decide; lia.
Qed.

(** *** Changing a descriptor *)

Definition slot (fd : nat) (o : option nat) (x : proc) : proc := set_p_ofile (<[fd := o]> (p_ofile x)) x.
Definition olist (o : option nat) : list nat := match o with Some f => [f] | None => [] end.

Lemma omap_insert fd o o' (l : list (option nat)) : l !! fd = Some o -> omap id (<[fd := o']> l) ++ olist o ≡ₚ omap id l ++ olist o'.
Proof.
  revert fd. induction l as [|y l IH]; intros [|fd]; cbn [lookup list_lookup insert list_insert]; try done.
  - intros [= ->]. cbn. destruct o, o'; cbn; rewrite ?app_nil_r; try done; rewrite <- ?Permutation_cons_append; try done. apply Permutation_swap.
  - intros H. specialize (IH fd H). cbn. destruct y as [f|]; cbn; [now rewrite IH|done].
Qed.

Lemma opened_slot procs q x fd o o' : procs !! q = Some x -> p_ofile x !! fd = Some o ->
  opened (alter (slot fd o') q procs) ++ olist o ≡ₚ opened procs ++ olist o'.
Proof.
  revert q. induction procs as [|y procs IH]; intros [|q]; cbn; try done.
  - intros [= ->] Ho. unfold opened. cbn. rewrite <- !app_assoc, (Permutation_app_comm _ (olist o)), (Permutation_app_comm _ (olist o')), !app_assoc. f_equiv. now apply omap_insert.
  - intros Hq Ho. unfold opened in *. cbn. rewrite <- !app_assoc. f_equiv. now apply IH.
Qed.

Lemma counted_perm d e e' procs k :
  length procs = NPROC -> Forall (fun x => length (p_ofile x) = NOFILE) procs -> opened procs ++ e' ≡ₚ opened (k_procs k) ++ e ->
  counted d e k -> counted d e' (set_k_procs procs k).
Proof. intros Hl Hs Hp [C1 C2 C3 C4]. split; cbn; [intros f r Hr; rewrite Hp; auto|now rewrite Hp|done|done]. Qed.

Lemma slot_tables q fd o d e k : counted d e k ->
  length (k_procs (upd_proc q (slot fd o) k)) = NPROC /\ Forall (fun x => length (p_ofile x) = NOFILE) (k_procs (upd_proc q (slot fd o) k)).
Proof.
  intros [_ _ C3 C4]. cbn. rewrite length_alter. split; [done|]. apply Forall_alter; [done|]. intros x _ Hx. cbn. now rewrite length_insert.
Qed.

Lemma counted_fill q x fd f d e k : k_procs k !! q = Some x -> p_ofile x !! fd = Some None ->
  counted d (f :: e) k -> counted d e (upd_proc q (slot fd (Some f)) k).
Proof.
  intros Hx Ho C. destruct (slot_tables q fd (Some f) _ _ _ C) as [H1 H2]. apply (counted_perm d (f :: e)); [done|done| |done].
  pose proof (opened_slot _ q x fd None (Some f) Hx Ho) as Hp. cbn in Hp. rewrite app_nil_r in Hp. rewrite Hp. now rewrite <- app_assoc.
Qed.

Lemma counted_clear q x fd f d e k : k_procs k !! q = Some x -> p_ofile x !! fd = Some (Some f) ->
  counted d e k -> counted d (f :: e) (upd_proc q (slot fd None) k).
Proof.
  intros Hx Ho C. destruct (slot_tables q fd None _ _ _ C) as [H1 H2]. apply (counted_perm d e); [done|done| |done].
  pose proof (opened_slot _ q x fd (Some f) None Hx Ho) as Hp. cbn in Hp. rewrite app_nil_r in Hp. rewrite <- Hp. now rewrite <- app_assoc.
Qed.

Lemma ftable_counted d e d' e' ex p k k' :
  (k_procs k', h_proc (k_hart k')) = (k_procs k, h_proc (k_hart k)) -> (counted d e k -> counted d' e' k') -> ftable d e ex p k -> ftable d' e' ex p k'.
Proof. intros [= E1 E2] H [F1 F2 F3 F4 F5]. split; [auto|unfold vacant; now rewrite E1|now rewrite E2|now rewrite E1|unfold unborn; now rewrite E1]. Qed.

Lemma slot_lookup q fd o k i y : k_procs (upd_proc q (slot fd o) k) !! i = Some y ->
  exists x, k_procs k !! i = Some x /\ p_state y = p_state x /\ p_ofile y = if decide (i = q) then <[fd := o]> (p_ofile x) else p_ofile x.
Proof.
  cbn. destruct (decide (i = q)) as [->|Hne].
  - rewrite list_lookup_alter_eq. destruct (k_procs k !! q) as [x|]; cbn; [|done]. intros [= <-]. now exists x.
  - rewrite list_lookup_alter_ne by done. intros H. now exists y.
Qed.

Lemma slot_running q fd o p k : (forall x, k_procs k !! p = Some x -> is_gone (p_state x) = false) ->
  forall y, k_procs (upd_proc q (slot fd o) k) !! p = Some y -> is_gone (p_state y) = false.
Proof. intros H y Hy. destruct (slot_lookup _ _ _ _ _ _ Hy) as (x & Hx & E & _). rewrite E. auto. Qed.

Lemma slot_unborn q fd o i k : unborn i k -> unborn i (upd_proc q (slot fd o) k).
Proof. intros U y Hy. destruct (slot_lookup _ _ _ _ _ _ Hy) as (x & Hx & E & _). rewrite E. now apply U. Qed.

Lemma ftable_fill q x fd f d e ex p k : k_procs k !! q = Some x -> p_ofile x !! fd = Some None -> is_gone (p_state x) = false \/ ex = Some q ->
  ftable d (f :: e) ex p k -> ftable d e ex p (upd_proc q (slot fd (Some f)) k).
Proof.
  intros Hx Ho Hq [F1 F2 F3 F4 F5]. split; [now apply (counted_fill q x)| |done|now apply slot_running|intros j Hj; now apply slot_unborn, F5].
  intros i y Hy Hg Hne. destruct (slot_lookup _ _ _ _ _ _ Hy) as (z & Hz & Es & Eo). rewrite Es in Hg, Hne. rewrite Eo. case_decide as Ei; [|eapply F2; eauto].
  subst i. destruct Hq as [Hq|Hq]; [|destruct Hne; [congruence|now destruct (F5 q Hq z Hz)]]. assert (z = x) as -> by congruence. congruence.
Qed.

Lemma ftable_clear q x fd f d e ex p k : k_procs k !! q = Some x -> p_ofile x !! fd = Some (Some f) ->
  ftable d e ex p k -> ftable d (f :: e) ex p (upd_proc q (slot fd None) k).
Proof.
  intros Hx Ho [F1 F2 F3 F4 F5]. split; [now apply (counted_clear q x)| |done|now apply slot_running|intros j Hj; now apply slot_unborn, F5].
  intros i y Hy Hg Hne. destruct (slot_lookup _ _ _ _ _ _ Hy) as (z & Hz & Es & Eo). rewrite Es in Hg, Hne. rewrite Eo. case_decide as Ei; [|eapply F2; eauto].
  apply Forall_insert; [|done]. eapply F2; eauto.
Qed.

(** ** The calls *)

(** What a call may have in hand when it stops to wait: how many references to files
    that are not those of a descriptor, how many references it has given up that are
    still those of a descriptor of its own, and whether it may be making a process. *)
Record allowance := mk_allowance { may_hold : nat; may_owe : nat; may_make : bool }.

(** By the number of the call: [fork] holds the reference it is about to give to the
    child, [exit] and [dup] have a descriptor whose reference is gone or not yet there,
    [pipe] holds the two ends, [open] the new file and [close] the old one.  All other
    calls have nothing in hand. *)
Definition in_call (num : Z) : allowance :=
  match num with
  | 1 => mk_allowance 1 0 true
  | 2 | 10 => mk_allowance 0 1 false
  | 4 => mk_allowance 2 0 false
  | 15 | 21 => mk_allowance 1 0 false
  | _ => mk_allowance 0 0 false
  end.

(** The tables of descriptors. *)
Definition slots (k : kernel) : list (list (option nat)) := map p_ofile (k_procs k).
Definition has_fd (p f : nat) (s : list (list (option nat))) : Prop := exists l fd, s !! p = Some l /\ l !! fd = Some (Some f).

(** The state of the table when a call of process [p] stops to wait. *)
Definition paused (a : allowance) (p : nat) (k : kernel) : Prop :=
  exists d e ex, counted d e k /\ vacant ex k /\ (length e <= may_hold a)%nat /\ (length d <= may_owe a)%nat /\
    Forall (fun f => has_fd p f (slots k)) d /\ (ex <> None -> may_make a = true).

Definition pauses (a : allowance) (d e : list nat) (ex : option nat) (p : nat) (s : list (list (option nat))) : Prop :=
  forall k, slots k = s -> counted d e k -> vacant ex k -> paused a p k.

Lemma pauses_fits a d e ex p s :
  (length e <= may_hold a)%nat -> (length d <= may_owe a)%nat -> Forall (fun f => has_fd p f s) d -> (ex <> None -> may_make a = true) -> pauses a d e ex p s.
Proof. intros He Hd Hf Hx k <- C V. now exists d, e, ex. Qed.

(** A reference that is both held and owed is neither. *)
Lemma pauses_cancel a f d e ex p s : pauses a d e ex p s -> pauses a (f :: d) (f :: e) ex p s.
Proof. intros H k Hs C V. apply H; [done|now apply (counted_cancel f)|done]. Qed.

Lemma slots_calm w k k' : calm w k k' -> slots k' = slots k.
Proof. intros C. unfold slots. induction (cm_procs _ _ _ C) as [|x x' l l' [E _] _ IH]; [done|]. cbn. now rewrite E, IH. Qed.

(** The code keeps to the allowance when it waits, and ends with [Q] when it returns. *)
Definition tri {A} (a : allowance) (p : nat) (m : K A) (Q : A -> kernel -> Prop) (k : kernel) : Prop :=
  match m k with
  | Ok x k' => Q x k'
  | Susp _ k' => paused a p k'
  | Panic _ _ => True
  end.

Section tri.
Context {A B : Type} (a : allowance) (p : nat).

Lemma tri_bind (m : K A) (f : A -> K B) Q k : tri a p m (fun x k' => tri a p (f x) Q k') k -> tri a p (bind m f) Q k.
Proof. unfold tri, bind. destruct (m k); done. Qed.
Lemma tri_ret (x : A) (Q : A -> kernel -> Prop) k : Q x k -> tri a p (ret x) Q k.
Proof. done. Qed.
Lemma tri_gets (f : kernel -> A) Q k : Q (f k) k -> tri a p (gets f) Q k.
Proof. done. Qed.
Lemma tri_panic s (Q : A -> kernel -> Prop) k : tri a p (panic s) Q k.
Proof. done. Qed.
Lemma tri_mono (m : K A) (Q Q' : A -> kernel -> Prop) k : tri a p m Q k -> (forall x k', Q x k' -> Q' x k') -> tri a p m Q' k.
Proof. unfold tri. destruct (m k); auto. Qed.

Lemma tri_calm d e ex (m : K A) Q k : Calm true m -> pauses a d e ex p (slots k) -> ftable d e ex p k ->
  (forall v k', calm true k k' -> ftable d e ex p k' -> Q v k') -> tri a p m Q k.
Proof.
  intros Hm Hd F HQ. specialize (Hm k). unfold tri. destruct (m k) as [x k'|s k'|r k']; [|done|]; cbn in Hm.
  - apply HQ; [done|]. now apply (ftable_calm true _ _ _ _ k).
  - destruct (ftable_calm true _ _ _ _ _ _ Hm F) as [F1 F2 _ _ _]. apply Hd; [exact (slots_calm _ _ _ Hm)|done|done].
Qed.
End tri.

Lemma tri_modify a p f (Q : unit -> kernel -> Prop) k : Q tt (f k) -> tri a p (modify f) Q k.
Proof. done. Qed.

(** Within the allowance: given for another state with the same descriptors, or by counting. *)
Ltac fit :=
  repeat match goal with
  | C : calm _ _ ?k' |- pauses _ _ _ _ _ (slots ?k') => rewrite (slots_calm _ _ _ C)
  | E : slots ?k' = _ |- pauses _ _ _ _ _ (slots ?k') => rewrite E
  end;
  first [assumption | match goal with H : forall f, pauses _ _ _ _ _ _ |- _ => apply H end
        | apply pauses_fits; [cbn; lia|cbn; lia|now constructor|done] ].

(** A step that is calm. *)
Ltac tcalm F k' C F' :=
  apply tri_bind; eapply tri_calm; [exact _| |exact F|]; [fit|intros ? k' C F'].

Lemma file_scan_found l : forall i f, file_scan l i = Some f -> exists j x, f = (i + j)%nat /\ l !! j = Some x /\ f_ref x = 0.
Proof.
  induction l as [|x l IH]; intros i f; cbn; [done|]. destruct (Z.eqb_spec (f_ref x) 0) as [E|E].
  - intros [= <-]. exists 0%nat, x. split; [lia|done].
  - intros H. destruct (IH _ _ H) as (j & y & -> & Hj & Hy). exists (S j), y. split; [lia|done].
Qed.

Section files.
Context (a : allowance) (p : nat).

Lemma tri_filealloc d e ex k Q : pauses a d e ex p (slots k) -> (forall f, pauses a d (f :: e) ex p (slots k)) -> ftable d e ex p k ->
  (forall k', ftable d e ex p k' -> Q None k') -> (forall f k', ftable d (f :: e) ex p k' -> Q (Some f) k') -> tri a p filealloc Q k.
Proof.
  intros Hd Hd' F HN HS. unfold filealloc. tcalm F k1 C1 F1. apply tri_bind, tri_gets. destruct (file_scan (k_files k1) 0) as [f|] eqn:E.
  - apply file_scan_found in E as (j & x & -> & Hx & Hr). rewrite Nat.add_0_l. apply tri_bind, tri_modify.
    assert (F2 : ftable d (j :: e) ex p (upd_file j (set_f_ref 1) k1)).
    { apply (ftable_counted d e _ _ _ _ k1); [done| |done]. apply counted_more; [|exact (lookup_lt_Some _ _ _ Hx)]. intros y Hy. assert (y = x) as -> by congruence. cbn. lia. }
    assert (S2 : slots (upd_file j (set_f_ref 1) k1) = slots k) by exact (slots_calm _ _ _ C1).
    tcalm F2 k3 C3 F3. apply tri_ret. auto.
  - tcalm F1 k3 C3 F3. apply tri_ret. auto.
Qed.

Lemma get_file_ref f k : 1 <= f_ref (get_file f k) -> exists x, k_files k !! f = Some x /\ get_file f k = x.
Proof.
  unfold get_file. rewrite list_lookup_total_alt. destruct (k_files k !! f) as [x|]; [|cbn; lia]. intros _. now exists x.
Qed.

Lemma tri_filedup f d e ex k Q : pauses a d e ex p (slots k) -> pauses a d (f :: e) ex p (slots k) -> ftable d e ex p k ->
  (forall k', ftable d (f :: e) ex p k' -> slots k' = slots k -> Q f k') -> tri a p (filedup f) Q k.
Proof.
  intros Hd Hd' F HQ. unfold filedup. tcalm F k1 C1 F1. apply tri_bind, tri_gets. destruct (Z.ltb_spec (f_ref (get_file f k1)) 1) as [|Hr]; [apply tri_panic|].
  destruct (get_file_ref _ _ Hr) as (x & Hx & _). apply tri_bind, tri_modify. set (k2 := upd_file f _ k1).
  assert (F2 : ftable d (f :: e) ex p k2).
  { apply (ftable_counted d e _ _ _ _ k1); [done| |done]. apply counted_more; [done|exact (lookup_lt_Some _ _ _ Hx)]. }
  assert (S2 : slots k2 = slots k) by exact (slots_calm _ _ _ C1).
  tcalm F2 k3 C3 F3. apply tri_ret. apply HQ; [done|]. now rewrite (slots_calm _ _ _ C3).
Qed.

(** [fileclose] gives up a reference: one the call holds, or that of a descriptor. *)
Lemma tri_fileclose f d e d' e' ex k Q :
  pauses a d' e' ex p (slots k) -> (forall k, ftable (f :: d) e ex p k -> ftable d' e' ex p k) -> pauses a d e ex p (slots k) -> ftable d e ex p k ->
  (forall k', ftable d' e' ex p k' -> slots k' = slots k -> Q tt k') -> tri a p (fileclose f) Q k.
Proof.
  intros Hd' Hc Hd F HQ. unfold fileclose. tcalm F k1 C1 F1. apply tri_bind, tri_gets. destruct (Z.ltb_spec (f_ref (get_file f k1)) 1) as [|Hr]; [apply tri_panic|].
  destruct (get_file_ref _ _ Hr) as (x & Hx & Ex). apply tri_bind, tri_modify. set (k2 := upd_file f _ k1).
  assert (F2 : ftable d' e' ex p k2).
  { apply Hc. apply (ftable_counted d e _ _ _ _ k1); [done| |done]. apply counted_less. intros y _. cbn. lia. }
  assert (S2 : slots k2 = slots k) by exact (slots_calm _ _ _ C1).
  assert (Hx2 : get_file f k2 = set_f_ref (f_ref x - 1) x) by (unfold get_file, k2; cbn; rewrite list_lookup_total_alt, list_lookup_alter_eq, Hx; done).
  apply tri_bind, tri_gets. rewrite Hx2. destruct (0 <? f_ref (set_f_ref (f_ref x - 1) x)) eqn:E; [cbn in E; apply Z.ltb_lt in E|cbn in E; apply Z.ltb_ge in E].
  { eapply tri_calm; [exact _| |exact F2|]; [fit|]. intros [] k3 C3 F3. apply HQ; [done|]. now rewrite (slots_calm _ _ _ C3). }
  apply tri_bind, tri_modify. set (k3 := upd_file f (set_f_ref 0) k2).
  assert (F3 : ftable d' e' ex p k3).
  { apply (ftable_counted d' e' _ _ _ _ k2); [done| |done]. apply counted_same. intros y Hy. unfold k2 in Hy. cbn in Hy. rewrite list_lookup_alter_eq, Hx in Hy.
    injection Hy as <-. cbn. rewrite Ex in Hr. lia. }
  change (slots k3 = slots k) in S2. eapply tri_calm; [unfold pipeclose; calm_code| |exact F3|]; [fit|]. intros [] k4 C4 F4. apply HQ; [done|]. now rewrite (slots_calm _ _ _ C4).
Qed.

Lemma tri_myproc_ix d e ex k Q : pauses a d e ex p (slots k) -> ftable d e ex p k ->
  (forall k', ftable d e ex p k' -> slots k' = slots k -> Q p k') -> tri a p myproc_ix Q k.
Proof.
  intros Hd F HQ. unfold myproc_ix, myproc, mycpu. apply tri_bind. tcalm F k1 C1 F1. apply tri_bind, tri_gets.
  tcalm F1 k2 C2 F2. apply tri_ret. rewrite (ft_current _ _ _ _ _ F1). apply tri_ret. apply HQ; [done|].
  rewrite (slots_calm _ _ _ C2). exact (slots_calm _ _ _ C1).
Qed.

Lemma fd_scan_found l : forall i fd, fd_scan l i = Some fd -> exists j, fd = (i + j)%nat /\ l !! j = Some None.
Proof.
  induction l as [|[g|] l IH]; intros i fd; cbn; [done| |].
  - intros H. destruct (IH _ _ H) as (j & -> & Hj). exists (S j). split; [lia|done].
  - intros [= <-]. exists 0%nat. split; [lia|done].
Qed.

Lemma get_proc_slots q k : slots k !! q = Some (p_ofile (get_proc q k)) \/ (k_procs k !! q = None /\ p_ofile (get_proc q k) = []).
Proof.
  unfold slots, get_proc. rewrite list_lookup_total_alt. change (map p_ofile) with (fmap (M := list) p_ofile). rewrite list_lookup_fmap. destruct (k_procs k !! q); [left|right]; done.
Qed.

Lemma slots_proc q l k : slots k !! q = Some l -> exists x, k_procs k !! q = Some x /\ p_ofile x = l.
Proof.
  unfold slots. change (map p_ofile) with (fmap (M := list) p_ofile). rewrite list_lookup_fmap. destruct (k_procs k !! q) as [x|]; [|done]. intros [= <-]. now exists x.
Qed.

Lemma slots_slot q l fd o k : slots k !! q = Some l -> slots (upd_proc q (slot fd o) k) = <[q := <[fd := o]> l]> (slots k).
Proof.
  intros Hl. unfold slots in *. cbn. change (map p_ofile) with (fmap (M := list) p_ofile) in *. apply list_eq. intros i. rewrite list_lookup_fmap. destruct (decide (i = q)) as [->|Hne].
  - rewrite list_lookup_alter_eq, list_lookup_insert_eq by exact (lookup_lt_Some _ _ _ Hl). rewrite list_lookup_fmap in Hl. destruct (k_procs k !! q) as [x|]; [|done]. injection Hl as <-. done.
  - rewrite list_lookup_alter_ne, list_lookup_insert_ne by done. symmetry. apply list_lookup_fmap.
Qed.

Lemma tri_fdalloc f d e ex k Q : pauses a d (f :: e) ex p (slots k) -> ftable d (f :: e) ex p k ->
  (forall k', ftable d (f :: e) ex p k' -> slots k' = slots k -> Q None k') ->
  (forall fd l k', ftable d e ex p k' -> slots k !! p = Some l -> l !! fd = Some None -> slots k' = <[p := <[fd := Some f]> l]> (slots k) -> Q (Some fd) k') ->
  tri a p (fdalloc f) Q k.
Proof.
  intros Hd F HN HS. unfold fdalloc. apply tri_bind. eapply tri_myproc_ix; [exact Hd|exact F|]. intros k1 F1 S1. apply tri_bind, tri_gets.
  destruct (fd_scan (p_ofile (get_proc p k1)) 0) as [fd|] eqn:E; [|apply tri_ret; auto].
  apply fd_scan_found in E as (j & -> & Hj). rewrite Nat.add_0_l. destruct (get_proc_slots p k1) as [Hs|[_ Hs]]; [|rewrite Hs in Hj; done].
  destruct (slots_proc _ _ _ Hs) as (x & Hx & Ex). rewrite <- Ex in Hs, Hj. unfold set_ofile. apply tri_bind, tri_modify, tri_ret. rewrite S1 in Hs.
  apply (HS j (p_ofile x)); [|done|done|rewrite <- S1; apply slots_slot; now rewrite S1].
  apply (ftable_fill p x j f d e ex p k1); [done|done|left; now apply (ft_running _ _ _ _ _ F1)|done].
Qed.

(** A descriptor of the calling process is emptied. *)
Lemma tri_clear fd f l d e ex k Q : ftable d e ex p k -> slots k !! p = Some l -> l !! fd = Some (Some f) ->
  (forall k', ftable d (f :: e) ex p k' -> slots k' = <[p := <[fd := None]> l]> (slots k) -> Q tt k') -> tri a p (set_ofile p fd None) Q k.
Proof.
  intros F Hl Hfd HQ. destruct (slots_proc _ _ _ Hl) as (x & Hx & Ex). unfold set_ofile. apply tri_modify. apply HQ; [|now apply slots_slot].
  apply (ftable_clear p x fd f); [done|congruence|done].
Qed.

Lemma tri_argfd i d e ex k Q : pauses a d e ex p (slots k) -> ftable d e ex p k -> 
  (forall k', ftable d e ex p k' -> Q None k') ->
  (forall fd f l k', ftable d e ex p k' -> slots k' !! p = Some l -> l !! fd = Some (Some f) -> Q (Some (fd, f)) k') -> tri a p (argfd i) Q k.
Proof.
  intros Hd F HN HS. unfold argfd. tcalm F k1 C1 F1. rename v into fd. destruct (_ || _); [apply tri_ret; auto|]. apply tri_bind.
  eapply tri_myproc_ix; [|exact F1|]; [fit|]. intros k2 F2 S2. apply tri_bind, tri_gets.
  destruct (p_ofile (get_proc p k2) !! Z.to_nat fd) as [[f|]|] eqn:E; cbn; apply tri_ret; auto.
  destruct (get_proc_slots p k2) as [Hs|[_ Hs]]; [|rewrite Hs in E; done]. eapply HS; eauto.
Qed.
End files.

Lemma counted_hold f d e k : (f < length (k_files k))%nat -> counted d e k -> counted (f :: d) (f :: e) k.
Proof.
  intros Hf [C1 C2 C3 C4]. split; [|rewrite Forall_app in C2 |- *; split; [apply C2|constructor; [done|apply C2]]|done|done].
  intros g r Hg. specialize (C1 g r Hg). rewrite times_app, !times_cons. rewrite times_app in C1. lia.
Qed.

Lemma ftable_hold f d e ex p k : (f < length (k_files k))%nat -> ftable d e ex p k -> ftable (f :: d) (f :: e) ex p k.
Proof. intros Hf [F1 F2 F3 F4 F5]. split; [now apply counted_hold|done..]. Qed.

Lemma ftable_swap f g d e ex p k : ftable d (f :: g :: e) ex p k -> ftable d (g :: f :: e) ex p k.
Proof.
  apply ftable_counted; [done|]. intros [C1 C2 C3 C4]. assert (P : opened (k_procs k) ++ g :: f :: e ≡ₚ opened (k_procs k) ++ f :: g :: e) by (f_equiv; apply Permutation_swap).
  split; [intros h r Hr; rewrite P; auto|now rewrite P|done|done].
Qed.

(** A file some descriptor refers to is in the table. *)
Lemma ftable_in d e ex p k l fd f : ftable d e ex p k -> slots k !! p = Some l -> l !! fd = Some (Some f) -> (f < length (k_files k))%nat.
Proof.
  intros F Hl Hfd. destruct (slots_proc _ _ _ Hl) as (x & Hx & <-). pose proof (ct_in _ _ _ (ft_counted _ _ _ _ _ F)) as H. rewrite Forall_forall in H. apply H.
  apply elem_of_app. left. unfold opened. rewrite list_elem_of_In, in_concat. exists (omap id (p_ofile x)). split.
  - apply in_map_iff. exists x. split; [done|]. apply list_elem_of_In. exact (list_elem_of_lookup_2 _ _ _ Hx).
  - apply list_elem_of_In, list_elem_of_omap. exists (Some f). split; [exact (list_elem_of_lookup_2 _ _ _ Hfd)|done].
Qed.

(** The whole call leaves the table right. *)
Definition keeps {A} (a : allowance) (m : K A) : Prop := forall p k, (p < NPROC)%nat -> ftable [] [] None p k -> tri a p m (fun _ k' => ftable [] [] None p k') k.

Lemma keeps_calm {A} a (m : K A) : Calm true m -> keeps a m.
Proof. intros Hm p k _ F. eapply tri_calm; [done| |exact F|]; [fit|auto]. Qed.

Lemma keeps_sys_dup : keeps (in_call 10) sys_dup.
Proof.
  intros p k Hp F. unfold sys_dup. apply tri_bind. eapply tri_argfd; [|exact F|intros; now apply tri_ret|]; [fit|].
  intros fd f l k1 F1 Hl Hfd. pose proof (ftable_in _ _ _ _ _ _ _ _ F1 Hl Hfd) as Hf. apply tri_bind.
  eapply tri_fdalloc; [|exact (ftable_hold f _ _ _ _ _ Hf F1)| |]; [apply pauses_cancel; fit|intros k2 F2 _; apply tri_ret; now apply (ftable_cancel f)|].
  intros fd' l' k2 F2 Hl' Hfd' S2. assert (Ho : has_fd p f (slots k2)).
  { exists (<[fd' := Some f]> l'), fd'. rewrite S2. split; apply list_lookup_insert_eq; [exact (lookup_lt_Some _ _ _ Hl')|exact (lookup_lt_Some _ _ _ Hfd')]. }
  apply tri_bind. eapply tri_filedup; [| |exact F2|]; [apply pauses_fits; [cbn; lia|cbn; lia|now repeat constructor|done]|apply pauses_cancel; fit|]. intros k3 F3 _. apply tri_ret. now apply (ftable_cancel f).
Qed.

Lemma keeps_sys_close : keeps (in_call 21) sys_close.
Proof.
  intros p k Hp F. unfold sys_close. apply tri_bind. eapply tri_argfd; [|exact F|intros; now apply tri_ret|]; [fit|].
  intros fd f l k1 F1 Hl Hfd. apply tri_bind. eapply tri_myproc_ix; [|exact F1|]; [fit|]. intros k2 F2 S2. rewrite <- S2 in Hl.
  apply tri_bind. eapply tri_clear; [exact F2|exact Hl|exact Hfd|]. intros k3 F3 _. apply tri_bind.
  eapply (tri_fileclose _ _ f [] [f] [] []); [fit|intros k'; apply ftable_cancel|fit|exact F3|]. intros k4 F4 _. now apply tri_ret.
Qed.

(** A file the call holds is closed. *)
Lemma tri_close_held a f e p k Q : (S (length e) <= may_hold a)%nat -> ftable [] (f :: e) None p k ->
  (forall k', ftable [] e None p k' -> slots k' = slots k -> Q tt k') -> tri a p (fileclose f) Q k.
Proof. intros Ha F HQ. eapply (tri_fileclose _ _ f [] (f :: e) [] e); [fit|intros k'; apply ftable_cancel|fit|exact F|done]. Qed.

Lemma tri_pipealloc p k Q : ftable [] [] None p k ->
  (forall k', ftable [] [] None p k' -> Q None k') -> (forall r w k', ftable [] [w; r] None p k' -> Q (Some (r, w)) k') -> tri (in_call 4) p pipealloc Q k.
Proof.
  intros F HN HS. unfold pipealloc. apply tri_bind. eapply tri_filealloc; [| |exact F| |]; [fit|intros ?; fit| |].
  { intros k1 F1. cbn [when nz Z.eqb negb]. apply tri_bind, tri_ret, tri_bind, tri_ret, tri_bind, tri_ret, tri_ret. auto. }
  intros r k1 F1. apply tri_bind. eapply tri_filealloc; [| |exact F1| |]; [fit|intros ?; fit| |].
  { intros k2 F2. cbn [when nz Z.eqb negb]. apply tri_bind, tri_ret, tri_bind. eapply tri_close_held; [|exact F2|]; [cbn; lia|]. intros k3 F3 _. apply tri_bind, tri_ret, tri_ret. auto. }
  intros w k2 F2. tcalm F2 k3 C3 F3. rename v into pi. destruct (nz pi); cbn [negb].
  - tcalm F3 k4 C4 F4. unfold initlock. tcalm F4 k5 C5 F5. tcalm F5 k6 C6 F6. tcalm F6 k7 C7 F7. apply tri_ret. auto.
  - cbn [when nz Z.eqb negb]. apply tri_bind, tri_ret, tri_bind. eapply tri_close_held; [|exact (ftable_swap _ _ _ _ _ _ _ F3)|]; [cbn; lia|]. intros k4 F4 _.
    apply tri_bind. eapply tri_close_held; [|exact F4|]; [cbn; lia|]. intros k5 F5 _. apply tri_ret. auto.
Qed.

Lemma tri_close_both r w p k : ftable [] [r; w] None p k -> tri (in_call 4) p (fileclose r ;;; fileclose w ;;; ret (-1)) (fun _ k' => ftable [] [] None p k') k.
Proof.
  intros F. apply tri_bind. eapply tri_close_held; [|exact F|]; [cbn; lia|]. intros k1 F1 _. apply tri_bind. eapply tri_close_held; [|exact F1|]; [cbn; lia|]. intros k2 F2 _. now apply tri_ret.
Qed.

Lemma keeps_sys_pipe : keeps (in_call 4) sys_pipe.
Proof.
  intros p k Hp F. unfold sys_pipe. apply tri_bind. eapply tri_myproc_ix; [|exact F|]; [fit|]. intros k0 F0 _. tcalm F0 k1 C1 F1. rename v into arr. apply tri_bind.
  eapply tri_pipealloc; [exact F1|intros; now apply tri_ret|]. intros r w k2 F2. apply ftable_swap in F2. apply tri_bind.
  eapply tri_fdalloc; [|exact F2| |]; [fit|intros k3 F3 _; now apply tri_close_both|]. intros fd0 l k3 F3 Hl Hfd0 S3. apply tri_bind.
  assert (Hl3 : slots k3 !! p = Some (<[fd0 := Some r]> l)) by (rewrite S3; apply list_lookup_insert_eq; exact (lookup_lt_Some _ _ _ Hl)).
  assert (Hr : <[fd0 := Some r]> l !! fd0 = Some (Some r)) by (apply list_lookup_insert_eq; exact (lookup_lt_Some _ _ _ Hfd0)).
  eapply tri_fdalloc; [|exact F3| |]; [fit| |].
  { intros k4 F4 S4. rewrite <- S4 in Hl3. apply tri_bind. eapply tri_clear; [exact F4|exact Hl3|exact Hr|]. intros k5 F5 _. now apply tri_close_both. }
  intros fd1 l1 k4 F4 Hl1 Hfd1 S4. assert (l1 = <[fd0 := Some r]> l) as -> by congruence.
  assert (Hne : fd1 <> fd0) by (intros ->; congruence). set (l4 := <[fd1 := Some w]> (<[fd0 := Some r]> l)) in *.
  assert (Hl4 : slots k4 !! p = Some l4) by (rewrite S4; apply list_lookup_insert_eq; exact (lookup_lt_Some _ _ _ Hl1)).
  assert (Hr4 : l4 !! fd0 = Some (Some r)) by (unfold l4; now rewrite list_lookup_insert_ne).
  assert (Hw4 : l4 !! fd1 = Some (Some w)) by (apply list_lookup_insert_eq; exact (lookup_lt_Some _ _ _ Hfd1)).
  apply tri_bind, tri_gets. tcalm F4 k5 C5 F5. tcalm F5 k6 C6 F6. destruct (_ <? 0); [|now apply tri_ret].
  assert (Hl6 : slots k6 !! p = Some l4) by (rewrite (slots_calm _ _ _ C6), (slots_calm _ _ _ C5); done).
  apply tri_bind. eapply tri_clear; [exact F6|exact Hl6|exact Hr4|]. intros k7 F7 S7.
  assert (Hl7 : slots k7 !! p = Some (<[fd0 := None]> l4)) by (rewrite S7; apply list_lookup_insert_eq; exact (lookup_lt_Some _ _ _ Hl6)).
  apply tri_bind. eapply (tri_clear _ _ fd1 w); [exact F7|exact Hl7|now rewrite list_lookup_insert_ne|]. intros k8 F8 _. apply tri_close_both. now apply ftable_swap.
Qed.

Lemma keeps_open_inode ip omode : keeps (in_call 15) (open_inode ip omode).
Proof.
  intros p k Hp F. unfold open_inode.
  assert (Hfail : forall k', ftable [] [] None p k' -> tri (in_call 15) p (iunlockput ip ;;; end_op ;;; ret (-1)) (fun _ k'' => ftable [] [] None p k'') k').
  { intros k' F'. apply keeps_calm; [exact _|exact Hp|exact F']. }
  apply tri_bind, tri_gets. destruct (_ && _); [auto|]. apply tri_bind. eapply tri_filealloc; [| |exact F|auto|]; [fit|intros ?; fit|]. intros f k1 F1. apply tri_bind.
  eapply tri_fdalloc; [|exact F1| |]; [fit| |].
  { intros k2 F2 _. apply tri_bind. eapply tri_close_held; [|exact F2|]; [cbn; lia|]. intros k3 F3 _. auto. }
  intros fd l k2 F2 _ _ _. apply keeps_calm; [calm_code|exact Hp|exact F2].
Qed.

Lemma keeps_bind_calm {A B} a (m : K A) (f : A -> K B) : Calm true m -> (forall x, keeps a (f x)) -> keeps a (bind m f).
Proof. intros Hm Hf p k Hp F. apply tri_bind. eapply tri_calm; [exact Hm| |exact F|]; [fit|]. intros v k' _ F'. now apply Hf. Qed.

Lemma keeps_sys_open : keeps (in_call 15) sys_open.
Proof.
  unfold sys_open. apply keeps_bind_calm; [exact _|]. intros [path|]; [|apply keeps_calm; exact _]. apply keeps_bind_calm; [exact _|]. intros omode.
  apply keeps_bind_calm; [exact _|]. intros []. destruct (nz _).
  - apply keeps_bind_calm; [exact _|]. intros [ip|]; [apply keeps_open_inode|apply keeps_calm; exact _].
  - apply keeps_bind_calm; [exact _|]. intros [ip|]; [|apply keeps_calm; exact _]. apply keeps_bind_calm; [exact _|]. intros [].
    apply keeps_bind_calm; [exact _|]. intros x. destruct (_ && _); [apply keeps_calm; exact _|apply keeps_open_inode].
Qed.

(** *** Processes come and go *)

Lemma counted_slots d e k k' : slots k' = slots k -> k_files k' = k_files k -> counted d e k -> counted d e k'.
Proof.
  intros Es Ef [C1 C2 C3 C4]. unfold slots in Es. assert (Eo : opened (k_procs k') = opened (k_procs k)).
  { unfold opened. rewrite <- !(map_map p_ofile (omap id)). now rewrite Es. }
  split; [now rewrite Ef, Eo|now rewrite Ef, Eo|rewrite <- C3, <- !(length_map p_ofile); now rewrite Es|].
  assert (H : Forall (fun l => length l = NOFILE) (map p_ofile (k_procs k'))) by (rewrite Es; apply Forall_fmap; exact C4). now apply Forall_fmap in H.
Qed.

Lemma slots_upd_proc q f k : (forall x, p_ofile (f x) = p_ofile x) -> slots (upd_proc q f k) = slots k.
Proof.
  intros Hf. unfold slots. cbn. generalize q. induction (k_procs k) as [|x l IH]; intros i; [done|]. destruct i as [|i]; cbn; [now rewrite Hf|now rewrite IH].
Qed.

(** Process [q] changes its state, and is then not being made any more. *)
Lemma ftable_state q f d e ex p k :
  (forall x, p_ofile (f x) = p_ofile x) -> q <> p ->
  (forall x, k_procs k !! q = Some x -> is_gone (p_state (f x)) = true -> Forall (fun o => o = None) (p_ofile x)) ->
  (forall i, i <> q -> Some i <> ex) ->
  ftable d e ex p k -> ftable d e None p (upd_proc q f k).
Proof.
  intros Hf Hq Hg Hex [F1 F2 F3 F4 F5]. split; [apply (counted_slots _ _ k); [now apply slots_upd_proc|done|done]| |done|cbn; now rewrite list_lookup_alter_ne|done].
  intros i x Hx Hgone Hne. cbn in Hx. destruct (decide (i = q)) as [->|Hi].
  - rewrite list_lookup_alter_eq in Hx. destruct (k_procs k !! q) as [y|] eqn:Ey; [|done]. injection Hx as <-. rewrite Hf. auto.
  - rewrite list_lookup_alter_ne in Hx by done. eapply F2; eauto.
Qed.

Lemma tri_freeproc a q l p k Q : q <> p -> ftable [] [] None p k -> slots k !! q = Some l -> Forall (fun o => o = None) l ->
  (forall k', ftable [] [] None p k' -> slots k' = slots k -> Q tt k') -> tri a p (freeproc q) Q k.
Proof.
  intros Hq F Hl Hn HQ. unfold freeproc. apply tri_bind, tri_gets. tcalm F k1 C1 F1. tcalm F1 k2 C2 F2. apply tri_bind, tri_gets. tcalm F2 k3 C3 F3. apply tri_modify.
  assert (S3 : slots k3 = slots k) by (rewrite (slots_calm _ _ _ C3), (slots_calm _ _ _ C2); exact (slots_calm _ _ _ C1)).
  apply HQ; [|rewrite slots_upd_proc by done; done]. apply (ftable_state q freed_proc _ _ None); [done|done| |done|done].
  intros x Hx _. rewrite <- S3 in Hl. destruct (slots_proc _ _ _ Hl) as (y & Hy & <-). assert (y = x) as -> by congruence. done.
Qed.

Lemma tri_for_ret {A R} a p (Inv : kernel -> Prop) (P : R -> kernel -> Prop) (l : list A) (f : A -> K (option R)) Q : forall k,
  (forall x k, x ∈ l -> Inv k -> tri a p (f x) (fun r k' => match r with Some r => P r k' | None => Inv k' end) k) ->
  (forall k, Inv k -> Q None k) -> (forall r k, P r k -> Q (Some r) k) -> Inv k -> tri a p (for_ret l f) Q k.
Proof.
  induction l as [|x l IH]; intros k Hf HN HS Hk; cbn; [apply tri_ret; auto|]. apply tri_bind. eapply tri_mono; [apply Hf; [left|exact Hk]|].
  intros [r|] k' H; [apply tri_ret; auto|]. apply IH; auto. intros y k2 Hy. apply Hf. now right.
Qed.

Lemma gone_proc d e p k q : ftable d e None p k -> (q < NPROC)%nat -> is_gone (p_state (get_proc q k)) = true ->
  q <> p /\ exists l, slots k !! q = Some l /\ length l = NOFILE /\ Forall (fun o => o = None) l.
Proof.
  intros [F1 F2 F3 F4 F5] Hq Hg. rewrite <- (ct_procs _ _ _ F1) in Hq. destruct (lookup_lt_is_Some_2 _ _ Hq) as [x Hx].
  unfold get_proc in Hg. rewrite (list_lookup_total_correct _ _ _ Hx) in Hg. split; [intros ->; rewrite (F4 x Hx) in Hg; done|].
  exists (p_ofile x). split; [unfold slots; change (map p_ofile) with (fmap (M := list) p_ofile); now rewrite list_lookup_fmap, Hx|].
  split; [exact (proj1 (Forall_lookup _ _) (ct_slots _ _ _ F1) q x Hx)|apply (F2 q); [done..|now left]].
Qed.

Lemma tri_allocproc a p k Q : ftable [] [] None p k -> (forall k', ftable [] [] None p k' -> Q None k') ->
  (forall np l k', ftable [] [] None p k' -> np <> p -> unborn np k' -> slots k' !! np = Some l -> length l = NOFILE -> Forall (fun o => o = None) l -> Q (Some np) k') -> tri a p allocproc Q k.
Proof.
  intros F HN HS. unfold allocproc. apply tri_bind.
  apply (tri_for_ret a p (ftable [] [] None p) (fun np k' => ftable [] [] None p k' /\ unborn np k' /\ np <> p /\ exists l, slots k' !! np = Some l /\ length l = NOFILE /\ Forall (fun o => o = None) l)); [| | |exact F].
  - intros q k1 Hq F1. apply elem_of_seq in Hq. tcalm F1 k2 C2 F2. apply tri_bind, tri_gets. destruct (bool_decide_reflect (p_state (get_proc q k2) = UNUSED)) as [E|E].
    + apply tri_ret. split; [done|]. split; [|apply (gone_proc [] []); [done|lia|now rewrite E]]. intros x Hx. unfold get_proc in E. rewrite (list_lookup_total_correct _ _ _ Hx) in E. congruence.
    + tcalm F2 k3 C3 F3. now apply tri_ret.
  - intros k1 F1. apply tri_ret. auto.
  - intros np k1 (F1 & U1 & Hne & l & Hl & Hlen & Hnone). tcalm F1 k2 C2 F2. tcalm F2 k3 C3 F3. tcalm F3 k4 C4 F4. tcalm F4 k5 C5 F5.
    assert (S5 : slots k5 = slots k1) by (rewrite (slots_calm _ _ _ C5), (slots_calm _ _ _ C4), (slots_calm _ _ _ C3); exact (slots_calm _ _ _ C2)).
    destruct (negb _); [tcalm F5 k6 C6 F6; apply tri_ret; auto|]. tcalm F5 k6 C6 F6. tcalm F6 k7 C7 F7.
    assert (S7 : slots k7 !! np = Some l) by (rewrite (slots_calm _ _ _ C7), (slots_calm _ _ _ C6), S5; done). destruct (negb _).
    + apply tri_bind. eapply tri_freeproc; [exact Hne|exact F7|exact S7|exact Hnone|]. intros k8 F8 _. tcalm F8 k9 C9 F9. apply tri_ret. auto.
    + apply tri_bind, tri_gets, tri_bind, tri_gets. tcalm F7 k8 C8 F8. apply tri_ret. apply (HS np l); [done|done| |now rewrite (slots_calm _ _ _ C8)|done|done].
      do 7 (eapply unborn_calm; [eassumption|]). exact U1.
Qed.

Lemma tri_for_seq al p (Inv : nat -> kernel -> Prop) (f : nat -> K unit) len : forall a k,
  (forall i k, (a <= i < a + len)%nat -> Inv i k -> tri al p (f i) (fun _ k' => Inv (S i) k') k) -> Inv a k ->
  tri al p (for_each (seq a len) f) (fun _ k' => Inv (a + len)%nat k') k.
Proof.
  induction len as [|len IH]; intros a k Hf Hk; cbn [seq for_each]; [apply tri_ret; now rewrite Nat.add_0_r|]. apply tri_bind. eapply tri_mono; [apply Hf; [lia|exact Hk]|].
  intros [] k' H. rewrite <- Nat.add_succ_comm. apply IH; [|done]. intros i k2 Hi. apply Hf. lia.
Qed.

Lemma vacant_weaken ex k : vacant None k -> vacant ex k.
Proof. intros V q x Hx Hg _. apply (V q x Hx Hg). now left. Qed.

(** The descriptors from [i] on are empty. *)
Definition empty_from (i : nat) (l : list (option nat)) : Prop := length l = NOFILE /\ forall j, (i <= j < NOFILE)%nat -> l !! j = Some None.

(** The loop of [fork] that copies the descriptors of [p] to [np]. *)
Lemma tri_fork_files p np k l : np <> p -> ftable [] [] (Some np) p k -> slots k !! np = Some l -> empty_from 0 l ->
  tri (in_call 1) p (for_each (seq 0 NOFILE) (fun i =>
        let* f := get_ofile p i in
        match f with
        | Some f => let* d := filedup f in set_ofile np i (Some d)
        | None => ret tt
        end)) (fun _ k' => ftable [] [] (Some np) p k') k.
Proof.
  intros Hne F Hl He. eapply tri_mono; [apply (tri_for_seq _ _ (fun i k' => ftable [] [] (Some np) p k' /\ exists l, slots k' !! np = Some l /\ empty_from i l))|].
  - intros i k1 Hi (F1 & l1 & Hl1 & Hlen & He1). apply tri_bind, tri_gets. destruct (default None _) as [f|].
    + apply tri_bind. eapply tri_filedup; [| |exact F1|]; [fit|fit|]. intros k2 F2 S2. rewrite <- S2 in Hl1. destruct (slots_proc _ _ _ Hl1) as (x & Hx & Ex).
      unfold set_ofile. apply tri_modify. split; [apply (ftable_fill np x i f [] []); [done|rewrite Ex; apply He1; lia|now right|done]|].
      exists (<[i := Some f]> l1). split; [etransitivity; [exact (f_equal (lookup np) (slots_slot np l1 i (Some f) k2 Hl1))|apply list_lookup_insert_eq; exact (lookup_lt_Some _ _ _ Hl1)]|].
      split; [now rewrite length_insert|]. intros j Hj. rewrite list_lookup_insert_ne by lia. apply He1. lia.
    + apply tri_ret. split; [done|]. exists l1. split; [done|]. split; [done|]. intros j Hj. apply He1. lia.
  - split; [done|]. now exists l.
  - now intros [] k' [H _].
Qed.

Lemma keeps_fork : keeps (in_call 1) fork.
Proof.
  intros p k Hp F. unfold fork. apply tri_bind. eapply tri_myproc_ix; [|exact F|]; [fit|]. intros k1 F1 _. apply tri_bind.
  eapply tri_allocproc; [exact F1|intros; now apply tri_ret|]. intros np l k2 F2 Hne U2 Hl Hlen Hnone. apply tri_bind, tri_gets, tri_bind, tri_gets.
  apply tri_bind. eapply tri_calm; [exact _| |exact F2|]; [fit|]. intros r k3 C3 F3. assert (S3 : slots k3 !! np = Some l) by now rewrite (slots_calm _ _ _ C3). destruct (r <? 0).
  { apply tri_bind. eapply tri_freeproc; [exact Hne|exact F3|exact S3|exact Hnone|]. intros k4 F4 _. tcalm F4 k5 C5 F5. now apply tri_ret. }
  tcalm F3 k4 C4 F4. tcalm F4 k5 C5 F5. unfold memmoveK. tcalm F5 k6 C6 F6. tcalm F6 k7 C7 F7.
  assert (S7 : slots k7 !! np = Some l) by (rewrite (slots_calm _ _ _ C7), (slots_calm _ _ _ C6), (slots_calm _ _ _ C5), (slots_calm _ _ _ C4); done).
  assert (U7 : unborn np k7) by (do 5 (eapply unborn_calm; [eassumption|]); exact U2).
  assert (F7' : ftable [] [] (Some np) p k7) by (destruct F7; split; [done|now apply vacant_weaken|done|done|now intros q [= <-]]). apply tri_bind.
  eapply tri_mono; [apply (tri_fork_files p np k7 l Hne F7' S7)|].
  { split; [done|]. intros j Hj. destruct (lookup_lt_is_Some_2 l j ltac:(lia)) as [o Ho]. rewrite Ho. f_equal. exact (proj1 (Forall_lookup _ _) Hnone j o Ho). }
  intros [] k8 F8. apply tri_bind. eapply tri_calm; [| |exact F8|]; [calm_code|fit|]. intros c k9 C9 F9. tcalm F9 k10 C10 F10. tcalm F10 k11 C11 F11.
  apply tri_bind, tri_gets, tri_bind, tri_modify. assert (F12 : ftable [] [] None p (upd_proc np (set_p_state RUNNABLE) k11)).
  { apply (ftable_state np (set_p_state RUNNABLE) _ _ (Some np)); [done|done|done|congruence|done]. }
  tcalm F12 k12 C12 F13. now apply tri_ret.
Qed.

(** *** Exit *)

(** The descriptors before [i] are empty. *)
Definition empty_to (i : nat) (l : list (option nat)) : Prop := length l = NOFILE /\ forall j, (j < i)%nat -> (j < NOFILE)%nat -> l !! j = Some None.

Lemma ftable_slots_some d e ex p q k : ftable d e ex p k -> (q < NPROC)%nat -> exists l, slots k !! q = Some l /\ length l = NOFILE.
Proof.
  intros [F1 _ _ _ _] Hq. rewrite <- (ct_procs _ _ _ F1) in Hq. destruct (lookup_lt_is_Some_2 _ _ Hq) as [x E]. exists (p_ofile x).
  split; [unfold slots; change (map p_ofile) with (fmap (M := list) p_ofile); now rewrite list_lookup_fmap, E|exact (proj1 (Forall_lookup _ _) (ct_slots _ _ _ F1) q x E)].
Qed.

Lemma tri_exit_files p k l : ftable [] [] None p k -> slots k !! p = Some l -> length l = NOFILE ->
  tri (in_call 2) p (for_each (seq 0 NOFILE) (fun fd =>
    let* f := get_ofile p fd in
    match f with
    | Some f => fileclose f ;;; set_ofile p fd None
    | None => ret tt
    end)) (fun _ k' => ftable [] [] None p k' /\ exists l, slots k' !! p = Some l /\ Forall (fun o => o = None) l) k.
Proof.
  intros F Hl Hlen. eapply tri_mono; [apply (tri_for_seq _ _ (fun i k' => ftable [] [] None p k' /\ exists l, slots k' !! p = Some l /\ empty_to i l))|].
  - intros i k1 Hi (F1 & l1 & Hl1 & Hlen1 & He1). apply tri_bind, tri_gets. destruct (slots_proc _ _ _ Hl1) as (x & Hx & Ex).
    unfold get_proc. rewrite (list_lookup_total_correct _ _ _ Hx), Ex. destruct (lookup_lt_is_Some_2 l1 i ltac:(lia)) as [o Ho]. rewrite Ho. cbn [default]. destruct o as [f|].
    + apply tri_bind. eapply (tri_fileclose _ _ f [] [] [f] []); [apply pauses_fits; [cbn; lia|cbn; lia|constructor; [now exists l1, i|done]|done]|done|fit|exact F1|]. intros k2 F2 S2. rewrite <- S2 in Hl1.
      eapply tri_clear; [exact F2|exact Hl1|exact Ho|]. intros k3 F3 S3. split; [now apply (ftable_cancel f)|]. exists (<[i := None]> l1).
      split; [rewrite S3; apply list_lookup_insert_eq; exact (lookup_lt_Some _ _ _ Hl1)|]. split; [now rewrite length_insert|]. intros j Hj Hj'.
      destruct (decide (j = i)) as [->|Hne]; [apply list_lookup_insert_eq; lia|]. rewrite list_lookup_insert_ne by done. apply He1; lia.
    + apply tri_ret. split; [done|]. exists l1. split; [done|]. split; [done|]. intros j Hj Hj'. destruct (decide (j = i)) as [->|Hne]; [done|]. apply He1; lia.
  - split; [done|]. exists l. split; [done|]. split; [done|]. lia.
  - intros [] k' (F' & l' & Hl' & Hlen' & He'). split; [done|]. exists l'. split; [done|]. apply Forall_lookup. intros j o Ho. pose proof (lookup_lt_Some _ _ _ Ho) as Hj.
    rewrite He' in Ho by lia. congruence.
Qed.

#[export] Instance ca_wakeup1 w p : Calm w (wakeup1 p).
Proof. unfold wakeup1. calm_code. Qed.
#[export] Instance ca_reparent w p : Calm w (reparent p).
Proof. unfold reparent. calm_code. Qed.

(** A process that ends, once its descriptors are empty: the rest of [exit] does not
    return. *)
Lemma tri_zombie {A} a p d e ex (m : K A) Q k : Calm true m -> pauses a d e ex p (slots k) -> counted d e k -> vacant ex k ->
  (forall x k', counted d e k' -> vacant ex k' -> Q x k') -> tri a p m Q k.
Proof.
  intros Hm Hd C V HQ. specialize (Hm k). unfold tri. destruct (m k) as [x k'|s k'|r k']; [|done|]; cbn in Hm;
    pose proof (counted_calm _ _ _ _ _ Hm C); pose proof (vacant_calm _ _ _ _ Hm V); [auto|]. apply Hd; [exact (slots_calm _ _ _ Hm)|done|done].
Qed.

Lemma keeps_exit status : keeps (in_call 2) (exit status).
Proof.
  intros p k Hp F. unfold exit. apply tri_bind. eapply tri_myproc_ix; [|exact F|]; [fit|]. intros k1 F1 _. apply tri_bind, tri_gets. destruct (bool_decide _); [apply tri_panic|].
  destruct (ftable_slots_some _ _ _ _ p _ F1 Hp) as (l & Hl & Hlen). apply tri_bind. eapply tri_mono; [exact (tri_exit_files p k1 l F1 Hl Hlen)|].
  intros [] k2 (F2 & l2 & Hl2 & Hn2). tcalm F2 k3 C3 F3. apply tri_bind, tri_gets, tri_bind. eapply tri_calm; [| |exact F3|]; [calm_code|fit|]. intros [] k4 C4 F4.
  tcalm F4 k5 C5 F5. tcalm F5 k6 C6 F6. apply tri_bind, tri_gets. destruct (k_initproc k6) as [init|]; [|apply tri_panic].
  tcalm F6 k7 C7 F7. tcalm F7 k8 C8 F8. tcalm F8 k9 C9 F9. tcalm F9 k10 C10 F10. apply tri_bind, tri_gets. tcalm F10 k11 C11 F11.
  destruct (p_parent _) as [parent|]; [|apply tri_panic]. tcalm F11 k12 C12 F12. tcalm F12 k13 C13 F13. tcalm F13 k14 C14 F14. tcalm F14 k15 C15 F15. tcalm F15 k16 C16 F16.
  assert (S16 : slots k16 !! p = Some l2).
  { repeat match goal with C : calm true ?a ?b |- slots ?b !! p = _ => rewrite (slots_calm _ _ _ C); clear C end. done. }
  apply tri_bind, tri_modify. assert (C17 : counted [] [] (upd_proc p (set_p_state ZOMBIE) k16)) by (apply (counted_slots _ _ k16); [now apply slots_upd_proc|done|apply F16]).
  assert (V17 : vacant None (upd_proc p (set_p_state ZOMBIE) k16)).
  { intros i x Hx Hg _. cbn in Hx. destruct (decide (i = p)) as [->|Hi].
    - rewrite list_lookup_alter_eq in Hx. destruct (slots_proc _ _ _ S16) as (y & Hy & Ey). rewrite Hy in Hx. injection Hx as <-. cbn. now rewrite Ey.
    - rewrite list_lookup_alter_ne in Hx by done. eapply (ft_vacant _ _ _ _ _ F16); [done|done|now left]. }
  apply tri_bind. eapply tri_zombie; [exact _| |exact C17|exact V17|]; [fit|]. intros [] k18 C18 V18. apply tri_bind.
  eapply tri_zombie; [exact _| |exact C18|exact V18|]; [fit|]. intros [] k19 _ _. apply tri_panic.
Qed.

(** *** Wait *)

Lemma tri_wait_scan p addr l : forall havekids k, Forall (fun q => (q < NPROC)%nat) l -> ftable [] [] None p k ->
  tri (in_call 3) p (wait_scan l p addr havekids) (fun _ k' => ftable [] [] None p k') k.
Proof.
  induction l as [|np l IH]; intros havekids k Hl F; cbn [wait_scan]; [now apply tri_ret|]. inversion Hl as [|? ? Hnp Hl']; subst. apply tri_bind, tri_gets. destruct (bool_decide _); [|now apply IH].
  tcalm F k1 C1 F1. apply tri_bind, tri_gets. destruct (bool_decide_reflect (p_state (get_proc np k1) = ZOMBIE)) as [E|E]; [|tcalm F1 k2 C2 F2; now apply IH].
  destruct (gone_proc [] [] p k1 np F1 Hnp ltac:(now rewrite E)) as (Hne & ll & Hll & _ & Hn). apply tri_bind. eapply tri_calm; [| |exact F1|]; [calm_code|fit|]. intros r k2 C2 F2.
  destruct (r <? 0); [tcalm F2 k3 C3 F3; tcalm F3 k4 C4 F4; now apply tri_ret|]. apply tri_bind.
  eapply tri_freeproc; [exact Hne|exact F2|rewrite (slots_calm _ _ _ C2); exact Hll|exact Hn|]. intros k3 F3 _. tcalm F3 k4 C4 F4. tcalm F4 k5 C5 F5. now apply tri_ret.
Qed.

Lemma keeps_wait addr : keeps (in_call 3) (wait addr).
Proof.
  intros p k Hp F. unfold wait. apply tri_bind. eapply tri_myproc_ix; [|exact F|]; [fit|]. intros k1 F1 _. tcalm F1 k2 C2 F2. unfold wait_loop. apply tri_bind.
  eapply tri_mono; [apply tri_wait_scan; [|exact F2]|]; [apply Forall_forall; intros q Hq%elem_of_seq; lia|]. intros [r|b] k3 F3; [now apply tri_ret|].
  apply tri_bind, tri_gets. destruct (_ || _); [|]; (tcalm F3 k4 C4 F4; now apply tri_ret).
Qed.

(** ** Dispatch *)

Lemma keeps_syscalls num f : syscalls num = Some f -> keeps (in_call num) f.
Proof.
  assert (Hx : keeps (in_call 2) sys_exit).
  { unfold sys_exit. apply keeps_bind_calm; [exact _|]. intros v p k Hp F. apply tri_bind. eapply tri_mono; [exact (keeps_exit v p k Hp F)|]. intros [] k' F'. now apply tri_ret. }
  assert (Hw : keeps (in_call 3) sys_wait) by (unfold sys_wait; apply keeps_bind_calm; [exact _|apply keeps_wait]).
  intros H. unfold syscalls in H.
  repeat match type of H with (match ?x with _ => _ end) = _ => destruct x; try done end; injection H as <-;
    first [exact Hx | exact Hw | exact keeps_fork | exact keeps_sys_pipe | exact keeps_sys_dup | exact keeps_sys_open | exact keeps_sys_close | apply keeps_calm].
  all: try (unfold sys_read, sys_kill, sys_exec, sys_fstat, sys_chdir, sys_getpid, sys_sbrk, sys_sleep, sys_sleep_loop, sys_uptime, sys_write, sys_mknod, sys_unlink, sys_link, sys_mkdir; calm_code).
Qed.

(** The number of the system call process [p] makes. *)
Definition call_number (p : nat) (k : kernel) : Z := i32 (load64 (k_mem k) (p_trapframe (get_proc p k) + TF_a7)).

Lemma myproc_ix_number p k : match myproc_ix k with Ok _ k' => call_number p k' = call_number p k | _ => True end.
Proof.
  unfold myproc_ix, myproc, push_off, pop_off, mycpu, intr_get, intr_off, intr_on, r_sstatus, w_sstatus, when, bind, ret, gets, modify, panic.
  repeat (cbn; match goal with |- context [if ?b then _ else _] => destruct b | |- context [match ?o with Some _ => _ | None => _ end] => destruct o end); done.
Qed.

(** C2: the reference counts of open files.  Before and after every system call of a
    running process, whichever it is and whatever its arguments and its result: the
    count of each file is the number of descriptors, of all processes, that refer to it,
    every descriptor refers to an entry of the table, and a process that is unused or a
    zombie has no descriptors.  When the call goes to sleep, or gives up the processor
    for good, that holds up to what is allowed to this call ([in_call]) and to no other:
    [fork] may hold one reference more and have given some to the unused entry it makes
    the child of, [pipe] holds up to two references, [open] and [close] one, and [exit]
    and [dup] have at most one descriptor of their own process whose reference is
    missing.  All other calls have the counts exact whenever they wait.  So a process
    that has ended has closed all its files. *)
Theorem syscall_counts_files p k : (p < NPROC)%nat -> ftable [] [] None p k ->
  match syscall k with
  | Ok _ k' => ftable [] [] None p k'
  | Susp _ k' => paused (in_call (call_number p k)) p k'
  | Panic _ _ => True
  end.
Proof.
  intros Hp F. change (tri (in_call (call_number p k)) p syscall (fun _ k' => ftable [] [] None p k') k). unfold syscall. apply tri_bind.
  pose proof (myproc_ix_number p k) as En. pose proof (tri_myproc_ix (in_call (call_number p k)) p [] [] None k (fun q k' => q = p /\ ftable [] [] None p k') ltac:(fit) F ltac:(done)) as Hm.
  unfold tri at 1. unfold tri in Hm. destruct (myproc_ix k) as [q k1|s k1|r k1]; [|done|done]. destruct Hm as [-> F1]. rewrite <- En.
  apply tri_bind, tri_gets. fold (call_number p k1). destruct (syscalls _) as [f|] eqn:E.
  - apply tri_bind. eapply tri_mono; [exact (keeps_syscalls _ f E p k1 Hp F1)|]. intros r k2 F2. apply keeps_calm; [exact _|exact Hp|exact F2].
  - apply keeps_calm; [calm_code|exact Hp|exact F1].
Qed.

(** ** A process with two descriptors of one file *)

Definition dup_state : kernel :=
  set_k_files (<[0%nat := mk_file FD_DEVICE 2 true true 0 0 0 1]> (replicate NFILE (mk_file FD_NONE 0 false false 0 0 0 0)))
    (upd_proc 3 (fun x => set_p_trapframe 0x87fff000 (set_p_ofile (Some 0%nat :: Some 0%nat :: replicate 14 None) x))
       (set_k_mem (store64 (fun _ => 0) (0x87fff000 + TF_a7) 10) running_state)).

Lemma dup_state_table : ftable [] [] None 3 dup_state.
Proof.
  assert (Eo : opened (k_procs dup_state) = [0; 0]%nat) by (vm_compute; reflexivity). split; [split| |reflexivity| |done].
  - rewrite Eo. intros f r Hr. destruct f as [|f]; [vm_compute in Hr; injection Hr as <-; reflexivity|]. 
    change (map f_ref (k_files dup_state) !! S f) with (map f_ref (replicate 99 (mk_file FD_NONE 0 false false 0 0 0 0)) !! f) in Hr.
    change (map f_ref) with (fmap (M := list) f_ref) in Hr. rewrite fmap_replicate in Hr. apply lookup_replicate in Hr as [-> _]. unfold times. reflexivity.
  - rewrite Eo. repeat constructor.
  - vm_compute. reflexivity.
  - apply (bool_decide_unpack _). vm_compute. exact I.
  - assert (A : Forall (fun x => is_gone (p_state x) = true -> Forall (fun o => o = None) (p_ofile x)) (k_procs dup_state)).
    { apply (bool_decide_unpack _). vm_compute. exact I. }
    intros q x Hx Hg _. exact (proj1 (Forall_lookup _ _) A q x Hx Hg).
  - intros x Hx. vm_compute in Hx. injection Hx as <-. reflexivity.
Qed.

(** [dup(0)] on that process: afterwards the count is three. *)
Example syscall_counts_files_witness :
  match syscall dup_state with
  | Ok _ k' => ftable [] [] None 3 k' /\ f_ref (get_file 0 k') = 3
  | Susp _ k' => paused (in_call 10) 3 k'
  | Panic _ _ => True
  end.
Proof.
  pose proof (syscall_counts_files 3 dup_state ltac:(unfold NPROC; lia) dup_state_table) as T.
  assert (E : match syscall dup_state with Ok _ k' => f_ref (get_file 0 k') = 3 | _ => False end) by (vm_compute; reflexivity).
  destruct (syscall dup_state) as [u k'|s k'|r k']; [exact (conj T E)|exact T|exact T].
Defined.
