(* ===== verification/Virtio.v ===== *)
(** * The virtio disk driver (kernel/virtio_disk.c)

    The driver shares a queue of descriptors with the device.  [virtio_disk_rw]
    formats a request, hands it to the device and sleeps; [virtio_disk_intr] runs
    when the device has finished.  The device is a parameter of [disk_request], which
    relates the driver to the transfer [Bio] uses. *)

From stdpp Require Import base numbers list gmap strings.
From S2P Require Import Prelude Kstate Kstring Spinlock Kalloc Vm Sched Sleeplock Bio.

Definition VIRTIO_MMIO_MAGIC_VALUE : Z := 0x000.
Definition VIRTIO_MMIO_VERSION : Z := 0x004.
Definition VIRTIO_MMIO_DEVICE_ID : Z := 0x008.
Definition VIRTIO_MMIO_VENDOR_ID : Z := 0x00c.
Definition VIRTIO_MMIO_DEVICE_FEATURES : Z := 0x010.
Definition VIRTIO_MMIO_DRIVER_FEATURES : Z := 0x020.
Definition VIRTIO_MMIO_GUEST_PAGE_SIZE : Z := 0x028.
Definition VIRTIO_MMIO_QUEUE_SEL : Z := 0x030.
Definition VIRTIO_MMIO_QUEUE_NUM_MAX : Z := 0x034.
Definition VIRTIO_MMIO_QUEUE_NUM : Z := 0x038.
Definition VIRTIO_MMIO_QUEUE_PFN : Z := 0x040.
Definition VIRTIO_MMIO_QUEUE_NOTIFY : Z := 0x050.
Definition VIRTIO_MMIO_INTERRUPT_STATUS : Z := 0x060.
Definition VIRTIO_MMIO_INTERRUPT_ACK : Z := 0x064.
Definition VIRTIO_MMIO_STATUS : Z := 0x070.
Definition VIRTIO_CONFIG_S_ACKNOWLEDGE : Z := 1.
Definition VIRTIO_CONFIG_S_DRIVER : Z := 2.
Definition VIRTIO_CONFIG_S_DRIVER_OK : Z := 4.
Definition VIRTIO_CONFIG_S_FEATURES_OK : Z := 8.
(** RO, SCSI, CONFIG_WCE, MQ, ANY_LAYOUT, EVENT_IDX, INDIRECT_DESC *)
Definition refused_features : list Z := [5; 7; 11; 12; 27; 29; 28].
Definition VRING_DESC_F_NEXT : Z := 1.
Definition VRING_DESC_F_WRITE : Z := 2.
Definition VIRTIO_BLK_T_IN : Z := 0.
Definition VIRTIO_BLK_T_OUT : Z := 1.

Definition read_R (r : Z) : K Z := gets (fun k => v_regs (k_vdisk k) r).
Definition write_R (r v : Z) : K unit :=
  modify (upd_vdisk (fun d => set_v_regw (v_regw d ++ [(r, v)]) d)).

(** [disk.pages], a page-aligned static array. *)
Definition virtio_disk_init (pages : Z) : K unit :=
  initlock LK_vdisk "virtio_disk" ;;;
  let* magic := read_R VIRTIO_MMIO_MAGIC_VALUE in
  let* version := read_R VIRTIO_MMIO_VERSION in
  let* device := read_R VIRTIO_MMIO_DEVICE_ID in
  let* vendor := read_R VIRTIO_MMIO_VENDOR_ID in
  if negb (magic =? 0x74726976) || negb (version =? 1) || negb (device =? 2) || negb (vendor =? 0x554d4551)
  then panic "could not find virtio disk" else
  let status := VIRTIO_CONFIG_S_ACKNOWLEDGE in
  write_R VIRTIO_MMIO_STATUS status ;;;
  let status := Z.lor status VIRTIO_CONFIG_S_DRIVER in
  write_R VIRTIO_MMIO_STATUS status ;;;
  let* features := read_R VIRTIO_MMIO_DEVICE_FEATURES in
  let features := foldl (fun f bit => Z.land f (u64 (Z.lnot (Z.shiftl 1 bit)))) features refused_features in
  write_R VIRTIO_MMIO_DRIVER_FEATURES (u32 features) ;;;
  let status := Z.lor status VIRTIO_CONFIG_S_FEATURES_OK in
  write_R VIRTIO_MMIO_STATUS status ;;;
  let status := Z.lor status VIRTIO_CONFIG_S_DRIVER_OK in
  write_R VIRTIO_MMIO_STATUS status ;;;
  write_R VIRTIO_MMIO_GUEST_PAGE_SIZE PGSIZE ;;;
  write_R VIRTIO_MMIO_QUEUE_SEL 0 ;;;
  let* max := read_R VIRTIO_MMIO_QUEUE_NUM_MAX in
  if max =? 0 then panic "virtio disk has no queue 0" else
  if max <? Z.of_nat NUM then panic "virtio disk max queue too short" else
  write_R VIRTIO_MMIO_QUEUE_NUM (Z.of_nat NUM) ;;;
  modify (upd_vdisk (fun d =>
    set_v_desc (replicate NUM (mk_vdesc A_null 0 0 0)) (set_v_avail_idx 0 (set_v_avail (replicate NUM 0)
      (set_v_used_id 0 (set_v_used (replicate NUM 0) d)))))) ;;;
  write_R VIRTIO_MMIO_QUEUE_PFN (u32 (Z.shiftr pages PGSHIFT)) ;;;
  modify (upd_vdisk (set_v_free (replicate NUM true))).

(** ** Descriptors *)

Definition desc (i : Z) (k : kernel) : vdesc := v_desc (k_vdisk k) !!! Z.to_nat i.
Definition upd_desc (i : Z) (f : vdesc -> vdesc) : K unit :=
  modify (upd_vdisk (fun d => set_v_desc (alter f (Z.to_nat i) (v_desc d)) d)).
Definition set_free (i : Z) (b : bool) : K unit :=
  modify (upd_vdisk (fun d => set_v_free (<[Z.to_nat i := b]> (v_free d)) d)).

Fixpoint free_scan (l : list bool) (i : Z) : Z :=
  match l with
  | [] => -1
  | b :: t => if b then i else free_scan t (i + 1)
  end.

Definition alloc_desc : K Z :=
  let* d := gets k_vdisk in
  let i := free_scan (v_free d) 0 in
  when (0 <=? i) (set_free i false) ;;;
  ret i.

Definition free_desc (i : Z) : K unit :=
  if Z.of_nat NUM <=? i then panic "virtio_disk_intr 1" else
  let* f := gets (fun k => v_free (k_vdisk k) !!! Z.to_nat i) in
  if (f : bool) then panic "virtio_disk_intr 2" else
  upd_desc i (set_vd_addr A_null) ;;;
  set_free i true ;;;
  wakeup CH_vdisk_free.

(** A chain visits a descriptor at most once: [free_desc] panics on a free one. *)
Fixpoint free_chain_loop (fuel : nat) (i : Z) : K unit :=
  match fuel with
  | O => suspend_with Forever
  | S fuel' =>
      free_desc i ;;;
      let* d := gets (desc i) in
      if nz (Z.land (vd_flags d) VRING_DESC_F_NEXT) then free_chain_loop fuel' (vd_next d) else ret tt
  end.
Definition free_chain (i : Z) : K unit := free_chain_loop (S NUM) i.

(** The [for] loop of [alloc3_desc] from the [i]-th descriptor, [idx] holding those
    already taken. *)
Fixpoint alloc3_loop (n : nat) (idx : list Z) : K (option (list Z)) :=
  match n with
  | O => ret (Some idx)
  | S n' =>
      let* i := alloc_desc in
      if i <? 0 then for_each idx free_desc ;;; ret None
      else alloc3_loop n' (idx ++ [i])
  end.
Definition alloc3_desc : K (option (list Z)) := alloc3_loop 3 [].

(** ** Requests *)

Definition VBSECT : Z := BSIZE / 512.

(** Formats the request for buffer [b] in the descriptors [i0], [i1], [i2] and
    notifies the device; [buf0] is the address of the header on the caller's kernel
    stack. *)
Definition submit (buf0 : Z) (b : nat) (write : bool) (i0 i1 i2 : Z) : K unit :=
  let* bno := gets (fun k => b_blockno (get_buf b k)) in
  let sector := u64 (u32 (bno * VBSECT)) in
  let* pa := kvmpa buf0 in
  memwrite pa (le_bytes 4 (if write then VIRTIO_BLK_T_OUT else VIRTIO_BLK_T_IN) ++ le_bytes 4 0 ++ le_bytes 8 sector) ;;;
  upd_desc i0 (fun _ => mk_vdesc (A_hdr pa) 16 VRING_DESC_F_NEXT i1) ;;;
  upd_desc i1 (fun _ => mk_vdesc (A_data b) BSIZE
    (Z.lor (if write then 0 else VRING_DESC_F_WRITE) VRING_DESC_F_NEXT) i2) ;;;
  modify (upd_vdisk (fun d => set_v_info_status (<[Z.to_nat i0 := 0]> (v_info_status d)) d)) ;;;
  upd_desc i2 (fun _ => mk_vdesc (A_status (Z.to_nat i0)) 1 VRING_DESC_F_WRITE 0) ;;;
  modify (upd_buf b (set_b_disk true)) ;;;
  modify (upd_vdisk (fun d => set_v_info_b (<[Z.to_nat i0 := Some b]> (v_info_b d)) d)) ;;;
  modify (upd_vdisk (fun d =>
    set_v_avail (<[Z.to_nat (v_avail_idx d mod Z.of_nat NUM) := i0]> (v_avail d)) d)) ;;;
  modify (upd_vdisk (fun d => set_v_avail_idx (u16 (v_avail_idx d + 1)) d)) ;;;
  write_R VIRTIO_MMIO_QUEUE_NOTIFY 0.

(** [while(b->disk == 1) sleep(b, ..)] and the end of the function. *)
Definition rw_wait (b : nat) (i0 : Z) : K unit :=
  let* x := gets (get_buf b) in
  if b_disk x then sleep (CH_buf b) LK_vdisk else
  modify (upd_vdisk (fun d => set_v_info_b (<[Z.to_nat i0 := None]> (v_info_b d)) d)) ;;;
  free_chain i0 ;;;
  release LK_vdisk.

(** The loop that waits for descriptors, with [vdisk_lock] held. *)
Definition rw_alloc (buf0 : Z) (b : nat) (write : bool) : K unit :=
  let* r := alloc3_desc in
  match r with
  | Some [i0; i1; i2] => submit buf0 b write i0 i1 i2 ;;; rw_wait b i0
  | _ => sleep CH_vdisk_free LK_vdisk
  end.

Module Driver.
Definition virtio_disk_rw (buf0 : Z) (b : nat) (write : bool) : K unit :=
  acquire LK_vdisk ;;;
  rw_alloc buf0 b write.
(** After a sleep for descriptors, and after a sleep for the device. *)
Definition virtio_disk_rw_return_alloc (intena : bool) (buf0 : Z) (b : nat) (write : bool) : K unit :=
  sleep_return intena LK_vdisk ;;; rw_alloc buf0 b write.
Definition virtio_disk_rw_return (intena : bool) (b : nat) (i0 : Z) : K unit :=
  sleep_return intena LK_vdisk ;;; rw_wait b i0.
End Driver.

(** The loop of [virtio_disk_intr]: [used_idx] runs after [used->id] modulo [NUM]. *)
Fixpoint intr_loop (fuel : nat) : K unit :=
  match fuel with
  | O => suspend_with Forever
  | S fuel' =>
      let* d := gets k_vdisk in
      if v_used_idx d mod Z.of_nat NUM =? v_used_id d mod Z.of_nat NUM then ret tt else
      let id := v_used d !!! Z.to_nat (v_used_idx d) in
      if negb (v_info_status d !!! Z.to_nat id =? 0) then panic "virtio_disk_intr status" else
      match v_info_b d !!! Z.to_nat id with
      | None => undefined
      | Some b =>
          modify (upd_buf b (set_b_disk false)) ;;;
          wakeup (CH_buf b) ;;;
          modify (upd_vdisk (set_v_used_idx ((v_used_idx d + 1) mod Z.of_nat NUM))) ;;;
          intr_loop fuel'
      end
  end.
Definition virtio_disk_intr : K unit :=
  acquire LK_vdisk ;;;
  intr_loop (S NUM) ;;;
  let* st := read_R VIRTIO_MMIO_INTERRUPT_STATUS in
  write_R VIRTIO_MMIO_INTERRUPT_ACK (Z.land st 0x3) ;;;
  release LK_vdisk.

(** ** A request and the device

    The cache ([Bio]) is verified against what a request does once it is served,
    [Bio.virtio_disk_rw].  Here that is shown of the driver: the process that makes the
    request sleeps, the device serves it, the interrupt wakes the process, and when that
    comes back the buffer, the disk and the order of the writes are those. *)

Definition upd_free (i : nat) (b : bool) (d : vdisk) : vdisk := set_v_free (<[i := b]> (v_free d)) d.
Definition free_count (d : vdisk) : nat := length (filter (fun b => b = true) (v_free d)).

Lemma free_scan_spec l : forall i, (exists j, l !! j = Some true /\ free_scan l i = i + Z.of_nat j) \/ filter (fun b => b = true) l = [].
Proof.
  induction l as [|[] l IH]; intros i; cbn [free_scan]; [now right|left; exists 0%nat; split; [done|lia]|].
  destruct (IH (i + 1)) as [(j & Hj & E)|E]; [left; exists (S j); split; [done|lia]|right]. rewrite filter_cons_False by done. exact E.
Qed.

Lemma count_insert l i : l !! i = Some true -> length (filter (fun b => b = true) l) = S (length (filter (fun b => b = true) (<[i := false]> l))).
Proof.
  revert i. induction l as [|b l IH]; intros [|i]; cbn [lookup list_lookup insert list_insert]; try done.
  - intros [= ->]. rewrite filter_cons_True, filter_cons_False by done. done.
  - intros H. rewrite !filter_cons. case_decide; cbn [length]; now rewrite (IH i H).
Qed.

(** A descriptor is free: [alloc_desc] takes one. *)
Lemma alloc_desc_run k : (0 < free_count (k_vdisk k))%nat ->
  exists i, v_free (k_vdisk k) !! i = Some true /\ alloc_desc k = Ok (Z.of_nat i) (upd_vdisk (upd_free i false) k) /\
    free_count (k_vdisk k) = S (free_count (upd_free i false (k_vdisk k))).
Proof.
  intros Hc. unfold free_count in Hc. destruct (free_scan_spec (v_free (k_vdisk k)) 0) as [(j & Hj & E)|E]; [|rewrite E in Hc; cbn in Hc; lia].
  exists j. split; [done|]. split; [|now apply count_insert]. unfold alloc_desc, bind, gets. rewrite E, Z.add_0_l, (proj2 (Z.leb_le _ _)) by lia.
  cbn [when]. unfold set_free, modify, ret. now rewrite Nat2Z.id.
Qed.

Lemma insert_false_true (l : list bool) i j : <[i := false]> l !! j = Some true -> j <> i /\ l !! j = Some true.
Proof.
  destruct (decide (j = i)) as [->|Hne]; [|now rewrite list_lookup_insert_ne]. intros H. apply list_lookup_insert_Some in H as [(_ & ? & _)|[? _]]; done.
Qed.

Definition taken (i0 i1 i2 : nat) (d : vdisk) : vdisk := upd_free i2 false (upd_free i1 false (upd_free i0 false d)).

Lemma alloc3_run k : (3 <= free_count (k_vdisk k))%nat ->
  exists i0 i1 i2, i0 <> i1 /\ i0 <> i2 /\ i1 <> i2 /\ Forall (fun i => v_free (k_vdisk k) !! i = Some true) [i0; i1; i2] /\
    alloc3_desc k = Ok (Some [Z.of_nat i0; Z.of_nat i1; Z.of_nat i2]) (upd_vdisk (taken i0 i1 i2) k).
Proof.
  intros Hc. destruct (alloc_desc_run k ltac:(lia)) as (i0 & H0 & E0 & C0). set (k1 := upd_vdisk (upd_free i0 false) k) in *.
  destruct (alloc_desc_run k1) as (i1 & H1 & E1 & C1); [change (0 < free_count (upd_free i0 false (k_vdisk k)))%nat; lia|]. set (k2 := upd_vdisk (upd_free i1 false) k1) in *.
  destruct (alloc_desc_run k2) as (i2 & H2 & E2 & C2); [change (0 < free_count (upd_free i1 false (k_vdisk k1)))%nat; change (free_count (k_vdisk k1)) with (free_count (upd_free i0 false (k_vdisk k))) in C1; lia|].
  cbn in H1, H2. destruct (insert_false_true _ _ _ H1) as [N1 H1']. destruct (insert_false_true _ _ _ H2) as [N2 H2']. destruct (insert_false_true _ _ _ H2') as [N3 H2''].
  exists i0, i1, i2. do 3 (split; [done|]). split; [now repeat constructor|]. unfold alloc3_desc. cbn [alloc3_loop].
  assert (Hb : forall n, (Z.of_nat n <? 0) = false) by (intros n; apply Z.ltb_ge; lia).
  kstep E0. rewrite Hb. kstep E1. rewrite Hb. kstep E2. rewrite Hb. reflexivity.
Qed.

(** [kvmpa] only reads the page table. *)
Fixpoint levels_read (m : mem) (pagetable va : Z) (levels : list Z) : option Z :=
  match levels with
  | [] => Some pagetable
  | level :: rest =>
      let e := load64 m (pagetable + 8 * PX level va) in
      if nz (Z.land e PTE_V) then levels_read m (PTE2PA e) va rest else None
  end.

Lemma walk_levels_read va k levels : forall pagetable, walk_levels pagetable va false levels k = Ok (levels_read (k_mem k) pagetable va levels) k.
Proof.
  induction levels as [|level rest IH]; intros pt; cbn [walk_levels levels_read]; [done|]. unfold walk_level, get_pte. unfold bind at 1. unfold bind at 1, gets.
  destruct (nz _); [apply IH|done].
Qed.

Definition kpa_of (m : mem) (root va : Z) : option Z :=
  if MAXVA <=? va then None else
  match levels_read m root va [2; 1] with
  | Some pt =>
      let pte := pt + 8 * PX 0 va in
      let e := load64 m pte in
      if nz pte && nz (Z.land e PTE_V) then Some (u64 (PTE2PA e + va mod PGSIZE)) else None
  | None => None
  end.

Lemma kvmpa_read va k : kvmpa va k = match kpa_of (k_mem k) (k_kpgtbl k) va with Some pa => Ok pa k | None => Panic (if MAXVA <=? va then "walk" else "kvmpa") k end.
Proof.
  unfold kvmpa, walk, bind, gets, kpa_of. cbv beta iota. destruct (MAXVA <=? va); [reflexivity|]. rewrite walk_levels_read.
  unfold get_pte, gets, ret, panic. destruct (levels_read _ _ _ _) as [pt|]; cbv beta iota zeta.
  2: { reflexivity. }
  destruct (nz (pt + _)); cbn [negb andb]; [|reflexivity]. destruct (nz (Z.land _ _)); reflexivity.
Qed.

(** The queue after [submit]. *)
Definition submitted (pa : Z) (b : nat) (write : bool) (i0 i1 i2 : nat) (d : vdisk) : vdisk :=
  let d := set_v_desc (alter (fun _ => mk_vdesc (A_hdr pa) 16 VRING_DESC_F_NEXT (Z.of_nat i1)) i0 (v_desc d)) d in
  let d := set_v_desc (alter (fun _ => mk_vdesc (A_data b) BSIZE (Z.lor (if write then 0 else VRING_DESC_F_WRITE) VRING_DESC_F_NEXT) (Z.of_nat i2)) i1 (v_desc d)) d in
  let d := set_v_info_status (<[i0 := 0]> (v_info_status d)) d in
  let d := set_v_desc (alter (fun _ => mk_vdesc (A_status i0) 1 VRING_DESC_F_WRITE 0) i2 (v_desc d)) d in
  let d := set_v_info_b (<[i0 := Some b]> (v_info_b d)) d in
  let d := set_v_avail (<[Z.to_nat (v_avail_idx d mod Z.of_nat NUM) := Z.of_nat i0]> (v_avail d)) d in
  let d := set_v_avail_idx (u16 (v_avail_idx d + 1)) d in
  set_v_regw (v_regw d ++ [(VIRTIO_MMIO_QUEUE_NOTIFY, 0)]) d.

(** The header of a request for block [n]. *)
Definition blk_header (write : bool) (n : Z) : list Z :=
  le_bytes 4 (if write then VIRTIO_BLK_T_OUT else VIRTIO_BLK_T_IN) ++ le_bytes 4 0 ++ le_bytes 8 (n * VBSECT).

Definition requested (pa : Z) (b : nat) (write : bool) (i0 i1 i2 : nat) (k : kernel) : kernel :=
  set_k_mem (store (k_mem k) pa (blk_header write (b_blockno (get_buf b k))))
    (upd_vdisk (submitted pa b write i0 i1 i2) (upd_buf b (set_b_disk true) k)).

Lemma upd_vdisk_twice f g k : upd_vdisk f (upd_vdisk g k) = upd_vdisk (fun d => f (g d)) k.
Proof. reflexivity. Qed.
Lemma upd_vdisk_buf f b g k : upd_vdisk f (upd_buf b g k) = upd_buf b g (upd_vdisk f k).
Proof. reflexivity. Qed.

Lemma submit_run buf0 pa b write i0 i1 i2 k : kvmpa buf0 k = Ok pa k -> 0 <= b_blockno (get_buf b k) < 2 ^ 31 ->
  submit buf0 b write (Z.of_nat i0) (Z.of_nat i1) (Z.of_nat i2) k = Ok tt (requested pa b write i0 i1 i2 k).
Proof.
  intros Hpa Hb. unfold submit. unfold bind at 1, gets. kstep Hpa. unfold memwrite, upd_desc, write_R, bind, modify. cbv beta iota. rewrite !Nat2Z.id.
  replace (u64 (u32 (b_blockno (get_buf b k) * VBSECT))) with (b_blockno (get_buf b k) * VBSECT)
    by (change VBSECT with 2; rewrite (u32_small (_ * 2)), u64_small by lia; done).
  rewrite !upd_vdisk_twice, !upd_vdisk_buf, !upd_vdisk_twice. fold (blk_header write (b_blockno (get_buf b k))). unfold requested. rewrite upd_vdisk_buf.
  set (m := store _ _ _). reflexivity.
Qed.

(** The queue with no request outstanding and room for one. *)
Record vq_ok (d : vdisk) : Prop := {
  vq_desc : length (v_desc d) = NUM;
  vq_avail : length (v_avail d) = NUM;
  vq_used : length (v_used d) = NUM;
  vq_info : length (v_info_b d) = NUM /\ length (v_info_status d) = NUM;
  vq_frees : length (v_free d) = NUM;
  vq_done : v_avail_idx d = v_used_id d;
  vq_id : 0 <= v_used_id d < 2 ^ 16;
  vq_idx : v_used_idx d = v_used_id d mod Z.of_nat NUM }.

(** Exactly one request is outstanding: the chain from descriptor [i0], to read block [n]
    into the buffer [b] or to write it from there. *)
Record queued (i0 b : nat) (write : bool) (n : Z) (k : kernel) : Prop := {
  qd_block : 0 <= n < 2 ^ 31;
  qd_one : v_avail_idx (k_vdisk k) = u16 (v_used_id (k_vdisk k) + 1);
  qd_head : v_avail (k_vdisk k) !! Z.to_nat (v_used_id (k_vdisk k) mod Z.of_nat NUM) = Some (Z.of_nat i0);
  qd_chain : exists i1 i2 pa,
    v_desc (k_vdisk k) !! i0 = Some (mk_vdesc (A_hdr pa) 16 VRING_DESC_F_NEXT (Z.of_nat i1)) /\
    load (k_mem k) pa 16 = blk_header write n /\
    v_desc (k_vdisk k) !! i1 = Some (mk_vdesc (A_data b) BSIZE (Z.lor (if write then 0 else VRING_DESC_F_WRITE) VRING_DESC_F_NEXT) (Z.of_nat i2)) /\
    v_desc (k_vdisk k) !! i2 = Some (mk_vdesc (A_status i0) 1 VRING_DESC_F_WRITE 0) }.

(** What the device does with it: it transfers the block, stores the status 0 and puts
    the chain into the ring of requests it has finished. *)
Definition finish (i0 : nat) (d : vdisk) : vdisk :=
  set_v_used_id (u16 (v_used_id d + 1)) (set_v_used (<[Z.to_nat (v_used_id d mod Z.of_nat NUM) := Z.of_nat i0]> (v_used d))
    (set_v_info_status (<[i0 := 0]> (v_info_status d)) d)).
Definition transfer (b : nat) (write : bool) (n : Z) (k : kernel) : kernel :=
  if write then set_k_writes (k_writes k ++ [(n, b_data (get_buf b k))]) (set_k_disk (fun m => if decide (m = n) then b_data (get_buf b k) else k_disk k m) k)
  else upd_buf b (set_b_data (k_disk k n)) k.
Definition served (i0 b : nat) (write : bool) (n : Z) (k : kernel) : kernel := upd_vdisk (finish i0) (transfer b write n k).

(** What the interrupt does: the queue, and the whole state. *)
Definition intr_queue (d : vdisk) : vdisk :=
  set_v_regw (v_regw d ++ [(VIRTIO_MMIO_INTERRUPT_ACK, Z.land (v_regs d VIRTIO_MMIO_INTERRUPT_STATUS) 0x3)]) (set_v_used_idx ((v_used_idx d + 1) mod Z.of_nat NUM) d).
Definition intr_done (b : nat) (k : kernel) : kernel :=
  set_k_procs (map (wake (CH_buf b)) (k_procs k)) (upd_vdisk intr_queue (upd_buf b (set_b_disk false) k)).

(** The interrupt for one finished request. *)
Lemma wp_virtio_disk_intr u i0 b k Q : quiet k -> table_ok k ->
  0 <= u < 2 ^ 16 -> v_used_idx (k_vdisk k) = u mod Z.of_nat NUM -> v_used_id (k_vdisk k) = u16 (u + 1) ->
  v_used (k_vdisk k) !! Z.to_nat (u mod Z.of_nat NUM) = Some (Z.of_nat i0) -> v_info_status (k_vdisk k) !! i0 = Some 0 -> v_info_b (k_vdisk k) !! i0 = Some (Some b) ->
  (forall k', noise (intr_done b k) k' -> Q tt k') -> wp virtio_disk_intr Q k.
Proof.
  intros [Hr Hf] Ht Hu Hi Hid Hus Hst Hb HQ. unfold virtio_disk_intr. apply wp_bind, wp_acquire; [apply Hf|]. set (ka := acquired LK_vdisk k).
  assert (Ea : k_vdisk ka = k_vdisk k) by done. assert (E8 : Z.of_nat NUM = 8) by done. rewrite E8 in *.
  apply wp_bind. change (S NUM) with 9%nat. cbn [intr_loop]. apply wp_bind, wp_gets. rewrite Ea, ?E8.
  rewrite Hi, Hid. replace (u mod 8 mod 8 =? u16 (u + 1) mod 8) with false by (symmetry; apply Z.eqb_neq; unfold u16; zdiv).
  rewrite (list_lookup_total_correct _ _ _ Hus), Nat2Z.id, (list_lookup_total_correct _ _ _ Hst), (list_lookup_total_correct _ _ _ Hb). cbn [Z.eqb negb].
  apply wp_bind, wp_modify, wp_bind. apply wp_wakeup; [exact (hart_ok_pushed _ Hr)|intros q; now apply acquired_free|done|]. intros k1 N1.
  apply wp_bind, wp_modify, wp_bind, wp_gets. cbn [k_vdisk upd_vdisk set_k_vdisk set_v_used_idx v_used_idx v_used_id].
  assert (Ev : k_vdisk k1 = k_vdisk k) by (rewrite (noise_eq k_vdisk _ _ ltac:(done) N1); done). rewrite Ev, Hid, ?E8.
  replace ((u mod 8 + 1) mod 8 mod 8 =? u16 (u + 1) mod 8) with true by (symmetry; apply Z.eqb_eq; unfold u16; zdiv).
  apply wp_ret, wp_bind, wp_gets, wp_bind, wp_modify.
  set (f := fun k : kernel => upd_vdisk (fun d => set_v_regw (v_regw d ++ [(VIRTIO_MMIO_INTERRUPT_ACK, Z.land (v_regs d VIRTIO_MMIO_INTERRUPT_STATUS) 0x3)])
                           (set_v_used_idx ((u mod 8 + 1) mod 8) d)) k).
  apply (noise_update f) in N1; [|done..].
  eapply (wp_release LK_vdisk k _ _ _ Hr (Hf _) _ _ N1). intros k2 N2. apply HQ. unfold f in N2. rewrite <- Hi in N2. exact N2.
  Unshelve. all: done.
Qed.

(** *** Freeing a chain *)

Definition freed (i : nat) (d : vdisk) : vdisk := upd_free i true (set_v_desc (alter (set_vd_addr A_null) i (v_desc d)) d).
Definition freeds (l : list nat) (d : vdisk) : vdisk := foldl (fun d i => freed i d) d l.

Fixpoint chain (d : vdisk) (i : nat) (rest : list nat) : Prop :=
  exists x, v_desc d !! i = Some x /\
  match rest with
  | [] => nz (Z.land (vd_flags x) VRING_DESC_F_NEXT) = false
  | j :: rest => nz (Z.land (vd_flags x) VRING_DESC_F_NEXT) = true /\ vd_next x = Z.of_nat j /\ chain d j rest
  end.

Lemma freed_desc d m i x : v_desc d !! i = Some x -> exists y, v_desc (freed m d) !! i = Some y /\ vd_flags y = vd_flags x /\ vd_next y = vd_next x.
Proof.
  intros Hx. cbn. destruct (decide (i = m)) as [->|Hne]; [|rewrite list_lookup_alter_ne by done; now exists x].
  rewrite list_lookup_alter_eq, Hx. now exists (set_vd_addr A_null x).
Qed.

Lemma freed_chain d m rest : forall i, chain d i rest -> chain (freed m d) i rest.
Proof.
  induction rest as [|j rest IH]; intros i (x & Hx & H); destruct (freed_desc d m i x Hx) as (y & Hy & Ef & En); exists y; (split; [done|]); rewrite Ef, ?En; [done|].
  destruct H as (H1 & H2 & H3). auto.
Qed.

Lemma wp_free_desc i k Q : ready k -> procs_free k -> table_ok k -> (i < NUM)%nat -> v_free (k_vdisk k) !! i = Some false ->
  (forall k', noise (set_k_procs (map (wake CH_vdisk_free) (k_procs k)) (upd_vdisk (freed i) k)) k' -> Q tt k') -> wp (free_desc (Z.of_nat i)) Q k.
Proof.
  intros Hr Hf Ht Hi Hb HQ. unfold free_desc. rewrite (proj2 (Z.leb_gt _ _)) by lia. apply wp_bind, wp_gets. rewrite Nat2Z.id, (list_lookup_total_correct _ _ _ Hb).
  unfold upd_desc, set_free. rewrite Nat2Z.id. apply wp_bind, wp_modify, wp_bind, wp_modify. now apply wp_wakeup.
Qed.

Lemma wp_free_chain rest : forall fuel i k Q, (length rest < fuel)%nat -> ready k -> procs_free k -> table_ok k -> chain (k_vdisk k) i rest ->
  NoDup (i :: rest) -> Forall (fun j => (j < NUM)%nat /\ v_free (k_vdisk k) !! j = Some false) (i :: rest) ->
  (forall ps k', length ps = NPROC -> noise (set_k_procs ps (upd_vdisk (freeds (i :: rest)) k)) k' -> Q tt k') -> wp (free_chain_loop fuel (Z.of_nat i)) Q k.
Proof.
  induction rest as [|j rest IH]; intros [|fuel] i k Q Hfuel Hr Hf Ht Hc Hnd Hall HQ; cbn [length] in Hfuel; try lia; cbn [free_chain_loop];
    apply Forall_cons in Hall as [[Hi Hb] Hall]; apply wp_bind, wp_free_desc; try done; intros k1 N1; apply wp_bind, wp_gets; unfold desc; rewrite Nat2Z.id;
    pose proof (noise_eq k_vdisk _ _ ltac:(done) N1) as Ev; change (k_vdisk (set_k_procs _ (upd_vdisk (freed i) k))) with (freed i (k_vdisk k)) in Ev; rewrite Ev;
    destruct Hc as (x & Hx & Hn); destruct (freed_desc _ i i x Hx) as (y & Hy & Ef & En); rewrite (list_lookup_total_correct _ _ _ Hy), Ef, ?En;
    assert (Hlen : length (map (wake CH_vdisk_free) (k_procs k)) = NPROC) by (now rewrite length_map).
  - rewrite Hn. apply wp_ret. now apply (HQ (map (wake CH_vdisk_free) (k_procs k))).
  - destruct Hn as (Hn & -> & Hc). rewrite Hn. apply NoDup_cons in Hnd as [Hni Hnd]. apply IH; [lia|exact (noise_hart_ok _ _ N1 Hr)|intros q; exact (noise_free _ _ _ N1 (Hf q))| | |done| |].
    + unfold table_ok. now rewrite (noise_procs _ _ N1).
    + rewrite Ev. now apply freed_chain.
    + rewrite Ev. apply Forall_forall. intros m Hm. rewrite Forall_forall in Hall. destruct (Hall m Hm) as [? ?]. split; [done|].
      cbn. rewrite list_lookup_insert_ne; [done|]. intros <-. now apply Hni.
    + intros ps k2 Hps N2. apply (HQ ps); [done|]. eapply noise_trans; [|exact N2]. apply (noise_update (fun k => set_k_procs ps (upd_vdisk (freeds (j :: rest)) k))) in N1; [exact N1|done..].
Qed.

(** *** The request of a process *)

(** The three descriptors a request gets, and the state it leaves when it sleeps. *)
Definition three_free (d : vdisk) (i0 i1 i2 : nat) : Prop :=
  NoDup [i0; i1; i2] /\ Forall (fun i => v_free d !! i = Some true) [i0; i1; i2].
Definition asked (pa : Z) (b : nat) (write : bool) (i0 i1 i2 : nat) (k : kernel) : kernel :=
  requested pa b write i0 i1 i2 (upd_vdisk (taken i0 i1 i2) k).

Lemma request_sleeps p buf0 pa b write k :
  idle k -> h_proc (k_hart k) = Some p -> table_ok k -> (p < NPROC)%nat -> (3 <= free_count (k_vdisk k))%nat ->
  kpa_of (k_mem k) (k_kpgtbl k) buf0 = Some pa -> (b < length (k_bufs k))%nat -> 0 <= b_blockno (get_buf b k) < 2 ^ 31 ->
  exists i0 i1 i2, three_free (k_vdisk k) i0 i1 i2 /\
    Driver.virtio_disk_rw buf0 b write k = Susp Swtch (asleep p (CH_buf b) LK_vdisk (asked pa b write i0 i1 i2 (acquired LK_vdisk k))).
Proof.
  intros [[Hr Hf] Hn] Hp Ht Hlt Hc Hpa Hb Hblk. set (ka := acquired LK_vdisk k). destruct (alloc3_run ka Hc) as (i0 & i1 & i2 & N1 & N2 & N3 & Hall & E).
  exists i0, i1, i2. split; [split; [|exact Hall]; repeat (constructor; [set_solver|]); constructor|]. unfold Driver.virtio_disk_rw. kstep (acquire_run LK_vdisk k (Hf _)). fold ka. unfold rw_alloc. kstep E. cbv beta iota.
  assert (Es : submit buf0 b write (Z.of_nat i0) (Z.of_nat i1) (Z.of_nat i2) (upd_vdisk (taken i0 i1 i2) ka) = Ok tt (asked pa b write i0 i1 i2 ka)).
  { apply submit_run; [|exact Hblk]. rewrite kvmpa_read. change (k_mem (upd_vdisk _ _)) with (k_mem k). change (k_kpgtbl (upd_vdisk _ _)) with (k_kpgtbl k). now rewrite Hpa. }
  kstep Es. unfold rw_wait. unfold bind at 1, gets. set (kr := asked pa b write i0 i1 i2 ka).
  assert (Ed : b_disk (get_buf b kr) = true).
  { destruct (lookup_lt_is_Some_2 _ _ Hb) as [x Hx]. unfold get_buf. change (k_bufs kr) with (alter (set_b_disk true) b (k_bufs k)).
    rewrite (list_lookup_total_correct _ _ (set_b_disk true x)); [done|]. now rewrite list_lookup_alter_eq, Hx. }
  rewrite Ed. apply cycle_sleep; [exact (hart_ok_pushed _ Hr)|done|change (h_noff (k_hart k) + 1 = 1); lia|done|done|done|exact (acquired_held LK_vdisk k)|]. intros l Hl. now apply (acquired_free LK_vdisk l k).
Qed.

Lemma taken_false d i0 i1 i2 : three_free d i0 i1 i2 -> Forall (fun i => v_free (taken i0 i1 i2 d) !! i = Some false) [i0; i1; i2].
Proof.
  intros [Hnd Hall]. apply Forall_forall. intros i Hi. rewrite Forall_forall in Hall. cbn. assert (Hlt : forall j, j ∈ [i0; i1; i2] -> (j < length (v_free d))%nat) by (intros j Hj; eapply lookup_lt_Some, Hall, Hj).
  destruct (decide (i = i2)) as [->|N2]; [apply list_lookup_insert_eq; rewrite !length_insert; auto|]. rewrite list_lookup_insert_ne by done.
  destruct (decide (i = i1)) as [->|N1]; [apply list_lookup_insert_eq; rewrite !length_insert; auto|]. rewrite list_lookup_insert_ne by done.
  assert (i = i0) as -> by set_solver. apply list_lookup_insert_eq. auto.
Qed.

(** The chain of the request, and that it is what [queued] says. *)
Lemma submitted_desc pa b write i0 i1 i2 d : length (v_desc d) = NUM -> NoDup [i0; i1; i2] -> Forall (fun i => (i < NUM)%nat) [i0; i1; i2] ->
  v_desc (submitted pa b write i0 i1 i2 d) !! i0 = Some (mk_vdesc (A_hdr pa) 16 VRING_DESC_F_NEXT (Z.of_nat i1)) /\
  v_desc (submitted pa b write i0 i1 i2 d) !! i1 = Some (mk_vdesc (A_data b) BSIZE (Z.lor (if write then 0 else VRING_DESC_F_WRITE) VRING_DESC_F_NEXT) (Z.of_nat i2)) /\
  v_desc (submitted pa b write i0 i1 i2 d) !! i2 = Some (mk_vdesc (A_status i0) 1 VRING_DESC_F_WRITE 0).
Proof.
  intros Hl Hnd Hall. assert (Hne : i0 <> i1 /\ i0 <> i2 /\ i1 <> i2) by (rewrite !NoDup_cons in Hnd; set_solver). destruct Hne as (N1 & N2 & N3).
  apply Forall_cons in Hall as [H0 Hall]. apply Forall_cons in Hall as [H1 Hall]. apply Forall_cons in Hall as [H2 _]. rewrite <- Hl in H0, H1, H2.
  destruct (lookup_lt_is_Some_2 _ _ H0) as [x0 E0]. destruct (lookup_lt_is_Some_2 _ _ H1) as [x1 E1]. destruct (lookup_lt_is_Some_2 _ _ H2) as [x2 E2].
  unfold submitted. cbn [v_desc set_v_desc set_v_regw set_v_avail set_v_avail_idx set_v_info_b set_v_info_status]. split; [|split].
  - rewrite !list_lookup_alter_ne, list_lookup_alter_eq, E0 by done. done.
  - rewrite list_lookup_alter_ne, list_lookup_alter_eq, list_lookup_alter_ne, E1 by done. done.
  - rewrite list_lookup_alter_eq, !list_lookup_alter_ne, E2 by done. done.
Qed.

Lemma three_free_lt d i0 i1 i2 : vq_ok d -> three_free d i0 i1 i2 -> Forall (fun i => (i < NUM)%nat) [i0; i1; i2].
Proof. intros V [_ H]. eapply Forall_impl; [exact H|]. intros i Hi. rewrite <- (vq_frees _ V). now apply lookup_lt_Some in Hi. Qed.

Lemma asked_queued pa b write i0 i1 i2 k : vq_ok (k_vdisk k) -> three_free (k_vdisk k) i0 i1 i2 -> 0 <= b_blockno (get_buf b k) < 2 ^ 31 ->
  queued i0 b write (b_blockno (get_buf b k)) (asked pa b write i0 i1 i2 k).
Proof.
  intros V H3 Hn. pose proof (three_free_lt _ _ _ _ V H3) as Hlt. destruct V as [V1 V2 V3 [V4 V5] V6 V7 V8 V9]. destruct H3 as [Hnd _]. split.
  - exact Hn.
  - cbn. now rewrite V7.
  - cbn. rewrite V7. apply list_lookup_insert_eq. rewrite V2. change (Z.of_nat NUM) with 8. change NUM with 8%nat. zdiv.
  - exists i1, i2, pa. destruct (submitted_desc pa b write i0 i1 i2 (taken i0 i1 i2 (k_vdisk k)) V1 Hnd Hlt) as (D0 & D1 & D2). split; [exact D0|]. split; [|split; [exact D1|exact D2]].
    change (k_mem (asked pa b write i0 i1 i2 k)) with (store (k_mem k) pa (blk_header write (b_blockno (get_buf b k)))).
    apply (load_store _ pa (blk_header write (b_blockno (get_buf b k)))).
Qed.

(** What the request does to the queue, from taking the descriptors to freeing them, ... *)
Definition drop_info (i0 : nat) (d : vdisk) : vdisk := set_v_info_b (<[i0 := None]> (v_info_b d)) d.
Definition rw_queue (pa : Z) (b : nat) (write : bool) (i0 i1 i2 : nat) (d : vdisk) : vdisk :=
  freeds [i0; i1; i2] (drop_info i0 (intr_queue (finish i0 (submitted pa b write i0 i1 i2 (taken i0 i1 i2 d))))).
(** ... and to the state, but for locks and processes. *)
Definition rw_done (pa : Z) (b : nat) (write : bool) (i0 i1 i2 : nat) (k : kernel) : kernel :=
  upd_vdisk (freeds [i0; i1; i2]) (upd_vdisk (drop_info i0) (upd_vdisk intr_queue
    (upd_buf b (set_b_disk false) (served i0 b write (b_blockno (get_buf b k)) (asked pa b write i0 i1 i2 k))))).

Lemma upd_vdisk_mem f m k : upd_vdisk f (set_k_mem m k) = set_k_mem m (upd_vdisk f k).
Proof. reflexivity. Qed.
Lemma upd_vdisk_transfer f b write n k : transfer b write n (upd_vdisk f k) = upd_vdisk f (transfer b write n k).
Proof. destruct write; reflexivity. Qed.
Lemma transfer_mem b write n m k : transfer b write n (set_k_mem m k) = set_k_mem m (transfer b write n k).
Proof. destruct write; reflexivity. Qed.
Lemma upd_buf_mem b f m k : upd_buf b f (set_k_mem m k) = set_k_mem m (upd_buf b f k).
Proof. reflexivity. Qed.

(** The flag [b->disk] is set during the transfer only. *)
Lemma transfer_flagged b write n k : (b < length (k_bufs k))%nat -> b_disk (get_buf b k) = false ->
  upd_buf b (set_b_disk false) (transfer b write n (upd_buf b (set_b_disk true) k)) = transfer b write n k.
Proof.
  intros Hb Hd. destruct (lookup_lt_is_Some_2 _ _ Hb) as [x Hx]. assert (Eg : get_buf b k = x) by (unfold get_buf; now apply list_lookup_total_correct). rewrite Eg in Hd.
  assert (Eg' : get_buf b (upd_buf b (set_b_disk true) k) = set_b_disk true x) by (unfold get_buf; apply list_lookup_total_correct; cbn; now rewrite list_lookup_alter_eq, Hx).
  assert (Ex : set_b_disk false x = x) by (destruct x; cbn in Hd; now subst).
  unfold transfer. destruct write.
  - rewrite Eg', Eg. assert (Ea : alter (set_b_disk false) b (alter (set_b_disk true) b (k_bufs k)) = k_bufs k).
    { apply list_eq. intros i. destruct (decide (i = b)) as [->|Hne]; [|now rewrite !list_lookup_alter_ne]. rewrite !list_lookup_alter_eq, Hx. cbn. f_equal. exact Ex. }
    unfold upd_buf. cbn [k_bufs set_k_bufs set_k_disk set_k_writes k_disk k_writes]. rewrite Ea. destruct k; reflexivity.
  - set (v := k_disk k n). change (set_k_bufs (alter (set_b_disk false) b (alter (set_b_data v) b (alter (set_b_disk true) b (k_bufs k)))) k = set_k_bufs (alter (set_b_data v) b (k_bufs k)) k). f_equal.
    apply list_eq. intros i. destruct (decide (i = b)) as [->|Hne]; [|now rewrite !list_lookup_alter_ne]. rewrite !list_lookup_alter_eq, Hx. cbn. f_equal. exact (f_equal (set_b_data v) Ex).
Qed.

(** That is what [Bio.virtio_disk_rw] says of the buffers and the disk. *)
Lemma rw_done_effect pa b write i0 i1 i2 k kb : (b < length (k_bufs k))%nat -> b_disk (get_buf b k) = false -> virtio_disk_rw b write k = Ok tt kb ->
  rw_done pa b write i0 i1 i2 k = set_k_mem (store (k_mem k) pa (blk_header write (b_blockno (get_buf b k)))) (upd_vdisk (rw_queue pa b write i0 i1 i2) kb).
Proof.
  intros Hb Hd E. injection E as <-. change (if write then _ else _) with (transfer b write (b_blockno (get_buf b k)) k). set (n := b_blockno (get_buf b k)).
  unfold rw_done, served, asked, requested. change (b_blockno (get_buf b (upd_vdisk (taken i0 i1 i2) k))) with n. change (k_mem (upd_vdisk (taken i0 i1 i2) k)) with (k_mem k).
  fold n. set (m := store _ _ _). rewrite transfer_mem, upd_vdisk_transfer, upd_vdisk_mem, upd_buf_mem, !upd_vdisk_mem. f_equal.
  rewrite <- !upd_vdisk_buf, upd_vdisk_transfer, <- upd_vdisk_buf, (transfer_flagged b write n k Hb Hd). rewrite !upd_vdisk_twice. reflexivity.
Qed.

Lemma rw_queue_ok pa b write i0 i1 i2 d : vq_ok d -> three_free d i0 i1 i2 ->
  vq_ok (rw_queue pa b write i0 i1 i2 d) /\ v_free (rw_queue pa b write i0 i1 i2 d) = v_free d.
Proof.
  intros V H3. assert (Ef : v_free (rw_queue pa b write i0 i1 i2 d) = v_free d).
  { destruct H3 as [_ H]. rewrite !Forall_cons in H. destruct H as (H0 & H1 & H2 & _).
    change (<[i2 := true]> (<[i1 := true]> (<[i0 := true]> (<[i2 := false]> (<[i1 := false]> (<[i0 := false]> (v_free d)))))) = v_free d).
    apply list_eq. intros j. rewrite !list_lookup_insert, !length_insert. repeat case_decide; destruct_and?; subst; try done; exfalso; eauto using lookup_lt_Some. }
  split; [|exact Ef]. destruct V as [V1 V2 V3 [V4 V5] V6 V7 V8 V9]. split; [| | |split| | | |].
  - cbn. now rewrite !length_alter.
  - cbn. now rewrite length_insert.
  - cbn. now rewrite length_insert.
  - cbn. now rewrite !length_insert.
  - cbn. now rewrite !length_insert.
  - rewrite Ef. exact V6.
  - cbn. now rewrite V7.
  - cbn. unfold u16. zdiv.
  - cbn. rewrite V9. change (Z.of_nat NUM) with 8. unfold u16. zdiv.
Qed.

(** *** The device *)

Lemma bookkept_acquired lk k : bookkept k (acquired lk k).
Proof. eexists _, _, _. reflexivity. Qed.
Lemma bookkept_released lk k : bookkept k (released lk k).
Proof. eexists _, _, _. reflexivity. Qed.

Lemma bookkept_vdisk f k k' : bookkept k k' -> bookkept (upd_vdisk f k) (upd_vdisk f k').
Proof. now apply (bookkept_update (upd_vdisk f)). Qed.
Lemma bookkept_buf b f k k' : bookkept k k' -> bookkept (upd_buf b f k) (upd_buf b f k').
Proof. now apply (bookkept_update (upd_buf b f)). Qed.
Lemma bookkept_mem m k k' : bookkept k k' -> bookkept (set_k_mem m k) (set_k_mem m k').
Proof. now apply (bookkept_update (set_k_mem m)). Qed.
Lemma bookkept_served i0 b write n k k' : bookkept k k' -> bookkept (served i0 b write n k) (served i0 b write n k').
Proof. intros H. apply bookkept_vdisk. destruct write; [now apply (bookkept_update (transfer b true n))|now apply (bookkept_update (transfer b false n))]. Qed.

Lemma bookkept_asked pa b write i0 i1 i2 k k' : bookkept k k' -> bookkept (asked pa b write i0 i1 i2 k) (asked pa b write i0 i1 i2 k').
Proof.
  intros H. unfold asked, requested. change (k_mem (upd_vdisk (taken i0 i1 i2) ?x)) with (k_mem x). change (get_buf b (upd_vdisk (taken i0 i1 i2) ?x)) with (get_buf b x).
  rewrite (bookkept_eq k_mem k k'), (bookkept_eq (get_buf b) k k') by done. now apply bookkept_mem, bookkept_vdisk, bookkept_buf, bookkept_vdisk.
Qed.

Lemma queued_bookkept i0 b write n k k' : bookkept k k' -> queued i0 b write n k -> queued i0 b write n k'.
Proof. intros H [Q0 Q1 Q2 Q3]. split; rewrite ?(bookkept_eq k_vdisk k k'), ?(bookkept_eq k_mem k k') by done; done. Qed.

Lemma served_hart i0 b write n k : k_hart (served i0 b write n k) = k_hart k /\ k_locks (served i0 b write n k) = k_locks k /\ k_procs (served i0 b write n k) = k_procs k.
Proof. destruct write; done. Qed.

Section device.
Context (device : kernel -> kernel) (p : nat) (pa : Z) (b : nat) (write : bool) (i0 i1 i2 : nat) (k : kernel).
Hypothesis device_serves : forall i0 b write n k, queued i0 b write n k -> device k = served i0 b write n k.
Hypothesis Hidle : idle k.
Hypothesis Hproc : h_proc (k_hart k) = Some p.
Hypothesis Htable : table_ok k.
Hypothesis Hlt : (p < NPROC)%nat.
Hypothesis Hq : vq_ok (k_vdisk k).
Hypothesis H3 : three_free (k_vdisk k) i0 i1 i2.
Hypothesis Hb : (b < length (k_bufs k))%nat.
Hypothesis Hblk : 0 <= b_blockno (get_buf b k) < 2 ^ 31.

Let n := b_blockno (get_buf b k).
Let kr := asked pa b write i0 i1 i2 (acquired LK_vdisk k).

(** After the interrupt. *)
Definition woken_state : kernel := upd_vdisk intr_queue (upd_buf b (set_b_disk false) (served i0 b write n (asked pa b write i0 i1 i2 k))).

Lemma served_queue X : vq_ok (k_vdisk k) -> bookkept (asked pa b write i0 i1 i2 k) X -> let d := k_vdisk (served i0 b write n X) in let u := v_used_id (k_vdisk k) in
  v_used_idx d = u mod Z.of_nat NUM /\ v_used_id d = u16 (u + 1) /\ v_used d !! Z.to_nat (u mod Z.of_nat NUM) = Some (Z.of_nat i0) /\
  v_info_status d !! i0 = Some 0 /\ v_info_b d !! i0 = Some (Some b).
Proof.
  intros [V1 V2 V3 [V4 V5] V6 V7 V8 V9] B d u. pose proof (three_free_lt _ _ _ _ Hq H3) as Hl. rewrite !Forall_cons in Hl. destruct Hl as (L0 & _).
  assert (Ed : d = finish i0 (submitted pa b write i0 i1 i2 (taken i0 i1 i2 (k_vdisk k)))).
  { unfold d. change (k_vdisk (served i0 b write n X)) with (finish i0 (k_vdisk (transfer b write n X))). f_equal. destruct B as (h & l & ps & ->). unfold transfer. destruct write; reflexivity. }
  rewrite Ed. split; [exact V9|]. split; [done|]. split; [apply list_lookup_insert_eq; cbn; rewrite V3; change (Z.of_nat NUM) with 8; change NUM with 8%nat; zdiv|].
  split; [apply list_lookup_insert_eq; cbn; rewrite length_insert; lia|]. cbn. apply list_lookup_insert_eq. lia.
Qed.

Lemma wp_until_woken Q :
  (forall k2, idle k2 -> length (k_procs k2) = NPROC -> p_state (get_proc p k2) = RUNNABLE -> bookkept woken_state k2 -> Q tt k2) ->
  wp (scheduler_return p ;;; modify device ;;; virtio_disk_intr) Q (asleep p (CH_buf b) LK_vdisk kr).
Proof.
  intros HQ. destruct Hidle as [[Hr Hf] Hz]. assert (R1 : ready kr) by exact (hart_ok_pushed _ Hr). assert (R2 : h_noff (k_hart kr) = 1) by (change (h_noff (k_hart k) + 1 = 1); lia).
  assert (R3 : held_here LK_vdisk kr) by exact (acquired_held LK_vdisk k). assert (R4 : forall l, l <> LK_vdisk -> lock_free l kr) by (intros l Hl; now apply (acquired_free LK_vdisk l k)).
  pose proof (asleep_hart p (CH_buf b) LK_vdisk kr R1 R2 Hlt) as Eh. pose proof (asleep_proc p (CH_buf b) LK_vdisk kr Htable Hlt) as Ep.
  pose proof (asleep_held p (CH_buf b) LK_vdisk kr R1 R2 Hlt ltac:(done) R3 R4) as Eheld. pose proof (asleep_locks p (CH_buf b) LK_vdisk kr R4) as El.
  assert (Hlen : length (k_procs (asleep p (CH_buf b) LK_vdisk kr)) = NPROC) by (cbn; rewrite !length_alter; exact Htable).
  assert (B1 : bookkept (asked pa b write i0 i1 i2 k) (asleep p (CH_buf b) LK_vdisk kr)).
  { etrans; [|apply bookkept_asleep]. apply bookkept_asked, bookkept_acquired. }
  set (k1 := asleep p (CH_buf b) LK_vdisk kr) in *. clearbody k1.
  destruct (scheduler_return_run p k1) as (k1' & E & [Hq1 Hz1] & Hps & _ & B2); [unfold ready; now rewrite Eh|now rewrite Eh|done|done|].
  unfold wp. kstep E. apply (wp_bind (modify device)), wp_modify. rewrite (device_serves i0 b write n k1').
  2: { apply (queued_bookkept _ _ _ _ (asked pa b write i0 i1 i2 k)); [exact (transitivity B1 B2)|now apply asked_queued]. }
  pose proof (transitivity B1 B2) as B3. destruct (served_queue k1' Hq B3) as (S1 & S2 & S3 & S4 & S5).
  destruct (served_hart i0 b write n k1') as (Hh & Hk & Hpp). pose proof (bookkept_served i0 b write n _ _ B3) as B4. set (ks := served i0 b write n k1') in *. clearbody ks.
  assert (Hqs : quiet ks) by (destruct Hq1 as [A1 A2]; split; [unfold ready; now rewrite Hh|intros l; unfold lock_free; rewrite Hk; apply A2]).
  apply (wp_virtio_disk_intr (v_used_id (k_vdisk k)) i0 b ks); [done|unfold table_ok; now rewrite Hpp, Hps|apply Hq|done..|]. intros k2 N2.
  assert (Ep2 : k_procs k2 = map (wake (CH_buf b)) (k_procs k1)) by (rewrite (noise_procs _ _ N2); cbn; now rewrite Hpp, Hps).
  apply HQ.
  - split; [exact (noise_quiet _ _ N2 Hqs)|]. destruct N2 as (? & ? & -> & _). cbn. now rewrite Hh.
  - now rewrite Ep2, length_map.
  - unfold get_proc. rewrite Ep2. destruct (lookup_lt_is_Some_2 (k_procs k1) p ltac:(lia)) as [x Hx]. unfold get_proc in Ep. rewrite (list_lookup_total_correct _ _ _ Hx) in Ep.
    rewrite (list_lookup_total_correct _ _ (wake (CH_buf b) x)); [|change (map (wake (CH_buf b)) (k_procs k1)) with (wake (CH_buf b) <$> k_procs k1); now rewrite list_lookup_fmap, Hx].
    rewrite Ep. unfold wake. cbn. now rewrite !bool_decide_true.
  - etrans; [|exact (bookkept_noise _ _ N2)]. transitivity (upd_vdisk intr_queue (upd_buf b (set_b_disk false) ks)).
    + apply bookkept_vdisk, bookkept_buf. exact B4.
    + exists (k_hart ks), (k_locks ks), (map (wake (CH_buf b)) (k_procs ks)). reflexivity.
Qed.
Lemma woken_vdisk : k_vdisk woken_state = intr_queue (finish i0 (submitted pa b write i0 i1 i2 (taken i0 i1 i2 (k_vdisk k)))).
Proof. unfold woken_state, served, transfer. destruct write; reflexivity. Qed.

Lemma after_desc X : v_desc (drop_info i0 (intr_queue (finish i0 X))) = v_desc X /\ v_free (drop_info i0 (intr_queue (finish i0 X))) = v_free X.
Proof. done. Qed.
Lemma submitted_free X : v_free (submitted pa b write i0 i1 i2 X) = v_free X.
Proof. reflexivity. Qed.

Lemma woken_chain : let d := drop_info i0 (k_vdisk woken_state) in
  chain d i0 [i1; i2] /\ NoDup [i0; i1; i2] /\ Forall (fun i => (i < NUM)%nat /\ v_free d !! i = Some false) [i0; i1; i2].
Proof.
  rewrite woken_vdisk. pose proof (three_free_lt _ _ _ _ Hq H3) as Hl. pose proof (taken_false _ _ _ _ H3) as Hfree. pose proof (proj1 H3) as Hnd. intros d.
  destruct (after_desc (submitted pa b write i0 i1 i2 (taken i0 i1 i2 (k_vdisk k)))) as [Ed Ef]. fold d in Ed, Ef. rewrite submitted_free in Ef. clearbody d. cbn [chain]. rewrite Ed, Ef. split; [|split; [done|]].
  - destruct (submitted_desc pa b write i0 i1 i2 (taken i0 i1 i2 (k_vdisk k)) (vq_desc _ Hq) Hnd Hl) as (D0 & D1 & D2).
    eexists. split; [exact D0|]. split; [done|]. split; [done|]. eexists. split; [exact D1|]. split; [now destruct write|]. split; [done|]. eexists. split; [exact D2|done].
  - apply Forall_and. split; [exact Hl|exact Hfree].
Qed.

Lemma woken_buf : b_disk (get_buf b woken_state) = false.
Proof.
  assert (Hl : (b < length (k_bufs (served i0 b write n (asked pa b write i0 i1 i2 k))))%nat) by (unfold served, transfer; destruct write; cbn; rewrite ?length_alter; exact Hb).
  destruct (lookup_lt_is_Some_2 _ _ Hl) as [x Hx]. unfold get_buf, woken_state. change (k_bufs (upd_vdisk intr_queue ?y)) with (k_bufs y). cbn [k_bufs upd_buf set_k_bufs].
  rewrite (list_lookup_total_correct _ _ (set_b_disk false x)); [done|]. now rewrite list_lookup_alter_eq, Hx.
Qed.

Lemma wp_rw_back intena k2 Q : idle k2 -> length (k_procs k2) = NPROC -> bookkept woken_state k2 ->
  (forall k4, quiet k4 -> h_proc (k_hart k4) = Some p -> bookkept (rw_done pa b write i0 i1 i2 k) k4 -> Q tt k4) ->
  wp (Driver.virtio_disk_rw_return intena b (Z.of_nat i0)) Q (dispatched p k2).
Proof.
  intros Hid Hlen B HQ. unfold Driver.virtio_disk_rw_return. apply wp_bind. eapply wp_mono; [apply (wp_sleep_return intena p LK_vdisk k2 Hid); [lia|done]|].
  intros [] k5 (K1 & K2 & K3 & K4 & K5 & K6 & B5). pose proof (transitivity B B5) as B6. unfold rw_wait. apply wp_bind, wp_gets. rewrite (bookkept_eq (get_buf b) _ _ ltac:(done) B6), woken_buf.
  rewrite Nat2Z.id. apply wp_bind, wp_modify. fold (drop_info i0). set (k6 := upd_vdisk (drop_info i0) k5).
  assert (Ev : k_vdisk k6 = drop_info i0 (k_vdisk woken_state)) by (change (k_vdisk k6) with (drop_info i0 (k_vdisk k5)); now rewrite (bookkept_eq k_vdisk _ _ ltac:(done) B6)).
  destruct woken_chain as (C1 & C2 & C3). rewrite <- Ev in C1, C3. apply wp_bind. unfold free_chain. change (S NUM) with 9%nat.
  apply (wp_free_chain [i1; i2] 9 i0 k6); [cbn; lia|exact K6|intros q; now apply K2|unfold table_ok; change (k_procs k6) with (k_procs k5); rewrite K5, length_alter; exact Hlen|done|done|done|].
  intros ps k7 Hps N7. assert (R7 : ready k7) by exact (noise_hart_ok _ _ N7 K6). assert (Z7 : h_noff (k_hart k7) = 1) by (destruct N7 as (? & ? & -> & _); exact K3).
  assert (Hd7 : held_here LK_vdisk k7) by exact (noise_held LK_vdisk (set_k_procs ps (upd_vdisk (freeds [i0; i1; i2]) k6)) _ N7 K1).
  unfold wp. rewrite (release_run LK_vdisk k7 Hd7) by (lia || (destruct R7 as (_ & _ & Hi); apply Hi; lia)). apply HQ.
  - split; [apply (popped_ok (k_hart k7) R7 Z7)|]. intros l. unfold lock_free. rewrite released_lookup. case_decide as Hl; [done|]. apply (noise_free l _ _ N7). now apply K2.
  - destruct N7 as (? & ? & -> & _). exact K4.
  - etrans; [|apply bookkept_released]. etrans; [|exact (bookkept_noise _ _ N7)]. transitivity (upd_vdisk (freeds [i0; i1; i2]) k6).
    + unfold rw_done. fold n woken_state. now apply bookkept_vdisk, bookkept_vdisk.
    + exists (k_hart k6), (k_locks k6), ps. reflexivity.
Qed.
End device.

(** C10: the driver implements what the cache relies on.  A process that asks for a block to be
    read or written, with no request outstanding and three descriptors free, goes to
    sleep; the scheduler takes over, the device serves the request and its interrupt is
    handled; the scheduler can then switch to the process, which returns.  For any device
    that serves the one request in the queue: the buffers, the disk and the sequence of
    writes are then as [Bio.virtio_disk_rw] says, and nothing else has changed but the
    queue, the request's header in memory and what scheduling changes; no lock is held,
    and the queue is ready for the next request with the same descriptors free. *)
Theorem disk_request device p buf0 pa b write intena k kb :
  (forall i0 b write n k, queued i0 b write n k -> device k = served i0 b write n k) ->
  idle k -> h_proc (k_hart k) = Some p -> table_ok k -> (p < NPROC)%nat -> vq_ok (k_vdisk k) -> (3 <= free_count (k_vdisk k))%nat ->
  kpa_of (k_mem k) (k_kpgtbl k) buf0 = Some pa -> (b < length (k_bufs k))%nat -> 0 <= b_blockno (get_buf b k) < 2 ^ 31 -> b_disk (get_buf b k) = false ->
  virtio_disk_rw b write k = Ok tt kb ->
  exists i0 k1, Driver.virtio_disk_rw buf0 b write k = Susp Swtch k1 /\
    wp (scheduler_return p ;;; modify device ;;; virtio_disk_intr) (fun _ k2 =>
      exists k3, scheduler_visit p k2 = Susp Swtch k3 /\
        wp (Driver.virtio_disk_rw_return intena b i0) (fun _ k4 =>
          quiet k4 /\ h_proc (k_hart k4) = Some p /\ vq_ok (k_vdisk k4) /\ v_free (k_vdisk k4) = v_free (k_vdisk k) /\
          bookkept (set_k_mem (store (k_mem k) pa (blk_header write (b_blockno (get_buf b k)))) (set_k_vdisk (k_vdisk k4) kb)) k4) k3) k1.
Proof.
  intros Hdev Hid Hp Ht Hlt Hq Hc Hpa Hb Hblk Hd Hkb. destruct (request_sleeps p buf0 pa b write k Hid Hp Ht Hlt Hc Hpa Hb Hblk) as (i0 & i1 & i2 & H3 & E).
  exists (Z.of_nat i0). eexists. split; [exact E|]. apply (wp_until_woken device p pa b write i0 i1 i2 k); try done. intros k2 I2 L2 S2 B2.
  exists (dispatched p k2). split; [apply scheduler_visit_run; [apply I2|done]|]. apply (wp_rw_back p pa b write i0 i1 i2 k); try done. intros k4 Q4 P4 B4.
  rewrite (rw_done_effect pa b write i0 i1 i2 k kb Hb Hd Hkb) in B4. destruct (rw_queue_ok pa b write i0 i1 i2 (k_vdisk k) Hq H3) as [V4 F4].
  assert (Ev : k_vdisk k4 = rw_queue pa b write i0 i1 i2 (k_vdisk k)).
  { rewrite (bookkept_eq k_vdisk _ _ ltac:(done) B4). injection Hkb as <-. destruct write; done. }
  rewrite Ev. do 4 (split; [done|]). assert (Ek : upd_vdisk (rw_queue pa b write i0 i1 i2) kb = set_k_vdisk (rw_queue pa b write i0 i1 i2 (k_vdisk k)) kb).
  { injection Hkb as <-. destruct write; reflexivity. }
  now rewrite Ek in B4.
Qed.

(** ** A device and a process that reads a block *)

(** A device that follows the queue: it takes the chain at the head of the ring of
    requests, reads the header and transfers the block. *)
Definition block_device (k : kernel) : kernel :=
  let d := k_vdisk k in
  let i0 := Z.to_nat (v_avail d !!! Z.to_nat (v_used_id d mod Z.of_nat NUM)) in
  match vd_addr (v_desc d !!! i0), vd_addr (v_desc d !!! Z.to_nat (vd_next (v_desc d !!! i0))) with
  | A_hdr pa, A_data b =>
      let h := load (k_mem k) pa 16 in
      served i0 b (le_val (take 4 h) =? VIRTIO_BLK_T_OUT) (le_val (drop 8 h) / VBSECT) k
  | _, _ => k
  end.

Lemma block_device_serves i0 b write n k : queued i0 b write n k -> block_device k = served i0 b write n k.
Proof.
  intros [Q0 Q1 Q2 (i1 & i2 & pa & D0 & Hh & D1 & D2)]. unfold block_device. rewrite (list_lookup_total_correct _ _ _ Q2), Nat2Z.id, (list_lookup_total_correct _ _ _ D0).
  cbn [vd_addr vd_next]. rewrite Nat2Z.id, (list_lookup_total_correct _ _ _ D1). cbn [vd_addr]. rewrite Hh. unfold blk_header.
  assert (E1 : take 4 (le_bytes 4 (if write then VIRTIO_BLK_T_OUT else VIRTIO_BLK_T_IN) ++ le_bytes 4 0 ++ le_bytes 8 (n * VBSECT)) = le_bytes 4 (if write then VIRTIO_BLK_T_OUT else VIRTIO_BLK_T_IN)) by reflexivity.
  assert (E2 : drop 8 (le_bytes 4 (if write then VIRTIO_BLK_T_OUT else VIRTIO_BLK_T_IN) ++ le_bytes 4 0 ++ le_bytes 8 (n * VBSECT)) = le_bytes 8 (n * VBSECT)) by reflexivity.
  rewrite E1, E2, !le_val_le_bytes. change VBSECT with 2. rewrite (Z.mod_small (n * 2)) by (cbn; lia). rewrite Z.div_mul by lia. now destruct write.
Qed.

(** Process 3 with the kernel stack page at 0x8000_5000 mapped, and a buffer for block 9. *)
Definition stack_pages : mem :=
  store64 (store64 (store64 (fun _ => 0) 0x80001010 (Z.lor (PA2PTE 0x80002000) PTE_V)) 0x80002000 (Z.lor (PA2PTE 0x80003000) PTE_V)) 0x80003028 (Z.lor (PA2PTE 0x80005000) PTE_V).
Definition reading_state : kernel :=
  set_k_disk (fun n => [n]) (set_k_bufs [mk_buf false false 1 9 zero_sleeplock 1 0 0 []]
    (upd_vdisk (set_v_free (replicate NUM true)) (set_k_kpgtbl 0x80001000 (set_k_mem stack_pages running_state)))).

Example disk_request_witness : exists i0 k1, Driver.virtio_disk_rw 0x80005f00 0 false reading_state = Susp Swtch k1 /\
  wp (scheduler_return 3 ;;; modify block_device ;;; virtio_disk_intr) (fun _ k2 =>
    exists k3, scheduler_visit 3 k2 = Susp Swtch k3 /\
      wp (Driver.virtio_disk_rw_return true 0 i0) (fun _ k4 => quiet k4 /\ b_data (get_buf 0 k4) = [9] /\ b_disk (get_buf 0 k4) = false) k3) k1.
Proof.
  destruct (disk_request block_device 3 0x80005f00 0x80005f00 0 false true reading_state (upd_buf 0 (set_b_data [9]) reading_state) block_device_serves) as (i0 & k1 & E & W).
  - split; [split; [exact boot_hart_ok|done]|reflexivity].
  - reflexivity.
  - vm_compute. reflexivity.
  - unfold NPROC. lia.
  - split; [vm_compute; reflexivity..|split; vm_compute; reflexivity|vm_compute; reflexivity|vm_compute; reflexivity|vm_compute; split; [discriminate|reflexivity]|vm_compute; reflexivity].
  - vm_compute. lia.
  - vm_compute. reflexivity.
  - cbn. lia.
  - vm_compute. split; [discriminate|reflexivity].
  - reflexivity.
  - reflexivity.
  - exists i0, k1. split; [exact E|]. refine (wp_mono _ _ _ _ W _). intros [] k2 (k3 & E3 & W3). exists k3. split; [exact E3|]. refine (wp_mono _ _ _ _ W3 _).
    intros [] k4 (Q4 & _ & _ & _ & B4). split; [exact Q4|]. rewrite (bookkept_eq (get_buf 0) _ _ (fun _ _ _ _ => eq_refl) B4). split; reflexivity.
Defined.
