(* ===== verification/Trap.v ===== *)
(** * Traps (kernel/trap.c), the interrupt controller (kernel/plic.c), [forkret]
      of kernel/proc.c *)

From stdpp Require Import base numbers list gmap strings.
From S2P Require Import Prelude Kstate Kstring Spinlock Kalloc Vm Sched Sleeplock Bio Log Fs Uart Printf Console Pipe File Proc Exec Syscall Virtio.

(** ** The interrupt controller *)

Definition PLIC_SENABLE (hart : Z) : Z := PLIC + 0x2080 + hart * 0x100.
Definition PLIC_SPRIORITY (hart : Z) : Z := PLIC + 0x201000 + hart * 0x2000.
Definition PLIC_SCLAIM (hart : Z) : Z := PLIC + 0x201004 + hart * 0x2000.

Definition plic_write (a v : Z) : K unit :=
  modify (upd_plic (fun p => set_pl_writes (pl_writes p ++ [(a, v)]) p)).

Definition plicinit : K unit :=
  plic_write (PLIC + UART0_IRQ * 4) 1 ;;;
  plic_write (PLIC + VIRTIO0_IRQ * 4) 1.

Definition plicinithart : K unit :=
  let* hart := cpuid in
  plic_write (PLIC_SENABLE (Z.of_nat hart)) (Z.lor (Z.shiftl 1 UART0_IRQ) (Z.shiftl 1 VIRTIO0_IRQ)) ;;;
  plic_write (PLIC_SPRIORITY (Z.of_nat hart)) 0.

(** A read of the claim register returns the pending interrupt, 0 for none. *)
Definition plic_claim : K Z :=
  let* p := gets k_plic in
  match pl_claims p with
  | [] => ret 0
  | irq :: t => modify (upd_plic (set_pl_claims t)) ;;; ret irq
  end.

Definition plic_complete (irq : Z) : K unit :=
  let* hart := cpuid in
  plic_write (PLIC_SCLAIM (Z.of_nat hart)) irq.

(** ** Registers *)

Definition r_sepc : K Z := gets (fun k => h_sepc (k_hart k)).
Definition w_sepc (x : Z) : K unit := modify (upd_hart (set_h_sepc x)).
Definition r_scause : K Z := gets (fun k => h_scause (k_hart k)).
Definition r_stval : K Z := gets (fun k => h_stval (k_hart k)).
Definition r_sip : K Z := gets (fun k => h_sip (k_hart k)).
Definition w_sip (x : Z) : K unit := modify (upd_hart (set_h_sip x)).
Definition w_stvec (x : Z) : K unit := modify (upd_hart (set_h_stvec x)).
Definition r_satp : K Z := gets (fun k => h_satp (k_hart k)).

(** ** Traps *)

Definition trapinit : K unit := initlock LK_ticks "time".
Definition trapinithart : K unit :=
  let* s := gets k_sym in w_stvec (sym_kernelvec s).

Definition clockintr : K unit :=
  acquire LK_ticks ;;;
  modify (fun k => set_k_ticks (u32 (k_ticks k + 1)) k) ;;;
  wakeup CH_ticks ;;;
  release LK_ticks.

Definition scause_external (scause : Z) : bool :=
  nz (Z.land scause 0x8000000000000000) && (Z.land scause 0xff =? 9).
Definition scause_timer (scause : Z) : bool := scause =? 0x8000000000000001.

Definition devintr : K Z :=
  let* scause := r_scause in
  if scause_external scause then
    let* irq := plic_claim in
    (if irq =? UART0_IRQ then uartintr
     else if irq =? VIRTIO0_IRQ then virtio_disk_intr
     else when (nz irq) (printf (bytes "unexpected interrupt irq=%d" ++ [10]) [VInt irq])) ;;;
    when (nz irq) (plic_complete irq) ;;;
    ret 1
  else if scause_timer scause then
    let* id := cpuid in
    when (bool_decide (id = 0%nat)) clockintr ;;;
    let* sip := r_sip in
    w_sip (Z.land sip (u64 (Z.lnot 2))) ;;;
    ret 2
  else ret 0.

(** [usertrapret] ends with the jump to [userret] in the trampoline. *)
Definition usertrapret : K unit :=
  let* p := myproc_ix in
  intr_off ;;;
  let* sym := gets k_sym in
  w_stvec (u64 (TRAMPOLINE + (sym_uservec sym - sym_trampoline sym))) ;;;
  let* satp := r_satp in
  set_tf p TF_kernel_satp satp ;;;
  let* pr := gets (get_proc p) in
  set_tf p TF_kernel_sp (u64 (p_kstack pr + PGSIZE)) ;;;
  set_tf p TF_kernel_trap (sym_usertrap sym) ;;;
  let* hart := cpuid in
  set_tf p TF_kernel_hartid (Z.of_nat hart) ;;;
  let* x := r_sstatus in
  let x := Z.land x (u64 (Z.lnot SSTATUS_SPP)) in
  let x := Z.lor x SSTATUS_SPIE in
  w_sstatus x ;;;
  let* epc := get_tf p TF_epc in
  w_sepc epc ;;;
  suspend_with ToUser.

(** The user page table [userret] switches to. *)
Definition usertrapret_satp (p : nat) (k : kernel) : Z := MAKE_SATP (p_pagetable (get_proc p k)).

(** [usertrap] after its three-way branch. *)
Definition usertrap_end (p : nat) (which_dev : Z) : K unit :=
  let* pr := gets (get_proc p) in
  when (nz (p_killed pr)) (exit (-1)) ;;;
  when (which_dev =? 2) yield ;;;
  usertrapret.

Definition usertrap : K unit :=
  let* sstatus := r_sstatus in
  if nz (Z.land sstatus SSTATUS_SPP) then panic "usertrap: not from user mode" else
  let* sym := gets k_sym in
  w_stvec (sym_kernelvec sym) ;;;
  let* p := myproc_ix in
  let* sepc := r_sepc in
  set_tf p TF_epc sepc ;;;
  let* scause := r_scause in
  let* which_dev :=
    (if scause =? 8 then
       let* pr := gets (get_proc p) in
       when (nz (p_killed pr)) (exit (-1)) ;;;
       let* epc := get_tf p TF_epc in
       set_tf p TF_epc (u64 (epc + 4)) ;;;
       intr_on ;;;
       syscall ;;;
       ret 0
     else
       let* which_dev := devintr in
       if nz which_dev then ret which_dev else
       let* pr := gets (get_proc p) in
       let* sepc := r_sepc in
       let* stval := r_stval in
       printf (bytes "usertrap(): unexpected scause %p pid=%d" ++ [10]) [VPtr scause; VInt (p_pid pr)] ;;;
       printf (bytes "            sepc=%p stval=%p" ++ [10]) [VPtr sepc; VPtr stval] ;;;
       modify (upd_proc p (set_p_killed 1)) ;;;
       ret 0) in
  usertrap_end p which_dev.
(** [usertrap] after the [yield] it makes for a timer interrupt. *)
Definition usertrap_return (intena : bool) : K unit :=
  yield_return intena ;;; usertrapret.

Definition kerneltrap : K unit :=
  let* sepc := r_sepc in
  let* sstatus := r_sstatus in
  let* scause := r_scause in
  if negb (nz (Z.land sstatus SSTATUS_SPP)) then panic "kerneltrap: not from supervisor mode" else
  let* i := intr_get in
  if (i : bool) then panic "kerneltrap: interrupts enabled" else
  let* which_dev := devintr in
  if which_dev =? 0 then
    printf (bytes "scause %p" ++ [10]) [VPtr scause] ;;;
    let* sepc := r_sepc in
    let* stval := r_stval in
    printf (bytes "sepc=%p stval=%p" ++ [10]) [VPtr sepc; VPtr stval] ;;;
    panic "kerneltrap"
  else
  (if which_dev =? 2 then
     let* p := myproc in
     match p with
     | None => ret tt
     | Some p =>
         let* pr := gets (get_proc p) in
         when (bool_decide (p_state pr = RUNNING)) yield
     end
   else ret tt) ;;;
  w_sepc sepc ;;;
  w_sstatus sstatus.
(** [kerneltrap] after the [yield]: the trap registers it saved come back. *)
Definition kerneltrap_return (intena : bool) (sepc sstatus : Z) : K unit :=
  yield_return intena ;;;
  w_sepc sepc ;;;
  w_sstatus sstatus.

Definition forkret : K unit :=
  let* p := myproc_ix in
  release (LK_proc p) ;;;
  let* first := gets k_first in
  when first (modify (set_k_first false) ;;; fsinit ROOTDEV) ;;;
  usertrapret.
