(* ===== verification/Boot.v ===== *)
(** * Start-up (kernel/start.c, kernel/main.c) *)

From stdpp Require Import base numbers list gmap strings.
From S2P Require Import Prelude Kstate Kstring Spinlock Kalloc Vm Sched Sleeplock Bio Log Fs Uart Printf Console Pipe File Proc Exec Syscall Virtio Trap.

(** ** Machine mode

    [start] runs in machine mode, before the kernel proper; its state is the
    machine-mode registers, the CLINT and [mscratch0]. *)

Record machine := mk_machine {
  m_hartid : Z; m_tp : Z;
  m_mstatus : Z; m_mepc : Z; m_mie : Z; m_mtvec : Z; m_mscratch : Z;
  m_medeleg : Z; m_mideleg : Z; m_satp : Z; m_sie : Z;
  m_mtime : Z;
  m_mtimecmp : Z -> Z;          (* per hart *)
  m_scratch : Z -> Z;           (* mscratch0, in 64-bit words *)
  m_main : Z; m_timervec : Z; m_mscratch0 : Z; (* addresses *)
  m_supervisor : bool           (* mret has been executed *) }.

Definition MSTATUS_MPP_MASK : Z := Z.shiftl 3 11.
Definition MSTATUS_MPP_S : Z := Z.shiftl 1 11.
Definition MSTATUS_MIE : Z := Z.shiftl 1 3.
Definition MIE_MTIE : Z := Z.shiftl 1 7.
Definition SIE_SEIE : Z := Z.shiftl 1 9.
Definition SIE_STIE : Z := Z.shiftl 1 5.
Definition SIE_SSIE : Z := Z.shiftl 1 1.
Definition CLINT_MTIMECMP (hartid : Z) : Z := CLINT + 0x4000 + 8 * hartid.
Definition timer_interval : Z := 1000000.

Definition timerinit (m : machine) : machine :=
  let id := m_hartid m in
  let base := 32 * id in
  mk_machine id (m_tp m)
    (Z.lor (m_mstatus m) MSTATUS_MIE) (m_mepc m) (Z.lor (m_mie m) MIE_MTIE)
    (m_timervec m) (m_mscratch0 m + 8 * base)
    (m_medeleg m) (m_mideleg m) (m_satp m) (m_sie m) (m_mtime m)
    (fun h => if decide (h = id) then u64 (m_mtime m + timer_interval) else m_mtimecmp m h)
    (fun i => if decide (i = base + 4) then CLINT_MTIMECMP id
              else if decide (i = base + 5) then timer_interval else m_scratch m i)
    (m_main m) (m_timervec m) (m_mscratch0 m) (m_supervisor m).

Definition start (m : machine) : machine :=
  let x := m_mstatus m in
  let x := Z.land x (u64 (Z.lnot MSTATUS_MPP_MASK)) in
  let x := Z.lor x MSTATUS_MPP_S in
  let m := mk_machine (m_hartid m) (m_tp m) x (m_main m) (m_mie m) (m_mtvec m) (m_mscratch m)
             0xffff 0xffff 0 (Z.lor (Z.lor (Z.lor (m_sie m) SIE_SEIE) SIE_STIE) SIE_SSIE)
             (m_mtime m) (m_mtimecmp m) (m_scratch m) (m_main m) (m_timervec m) (m_mscratch0 m)
             (m_supervisor m) in
  let m := timerinit m in
  mk_machine (m_hartid m) (m_hartid m) (m_mstatus m) (m_mepc m) (m_mie m) (m_mtvec m) (m_mscratch m)
    (m_medeleg m) (m_mideleg m) (m_satp m) (m_sie m) (m_mtime m) (m_mtimecmp m) (m_scratch m)
    (m_main m) (m_timervec m) (m_mscratch0 m) true.

(** ** [main]

    [pages] is the address of the virtio queue.  The other harts spin until hart 0
    has set [started]. *)
Definition main (pages : Z) : K unit :=
  let* id := cpuid in
  (if bool_decide (id = 0%nat) then
     consoleinit ;;;
     printfinit ;;;
     printf [10] [] ;;;
     printf (bytes "xv6 kernel is booting" ++ [10]) [] ;;;
     printf [10] [] ;;;
     kinit ;;;
     kvminit ;;;
     kvminithart ;;;
     procinit ;;;
     trapinit ;;;
     trapinithart ;;;
     plicinit ;;;
     plicinithart ;;;
     binit ;;;
     iinit ;;;
     fileinit ;;;
     virtio_disk_init pages ;;;
     userinit ;;;
     modify (set_k_started true)
   else
     let* started := gets k_started in
     if negb started then suspend_with Spin else
     printf (bytes "hart %d starting" ++ [10]) [VInt (Z.of_nat id)] ;;;
     kvminithart ;;;
     trapinithart ;;;
     plicinithart) ;;;
  scheduler.
