(* ===== verification/Umalloc.v ===== *)
(** * The user-level allocator (user/umalloc.c)

    The Kernighan and Ritchie allocator: a circular list of free blocks in address
    order, threaded through their headers in the process's memory.  The parameters
    are the address of the static variable [base] and whether the kernel grants a
    given [sbrk]. *)

From stdpp Require Import base numbers list gmap strings sorting.
From S2P Require Import Prelude Kstate Kstring.

Record heap := mk_heap { u_mem : mem; u_freep : Z; u_brk : Z }.
Definition set_u_mem (m : mem) (s : heap) : heap := mk_heap m (u_freep s) (u_brk s).
Definition set_u_freep (p : Z) (s : heap) : heap := mk_heap (u_mem s) p (u_brk s).
Definition set_u_brk (b : Z) (s : heap) : heap := mk_heap (u_mem s) (u_freep s) b.

Notation H A := (M heap A).

(** [union header]: the pointer at offset 0, the size (in headers) at 8. *)
Definition sizeof_header : Z := 16.
Definition hptr (m : mem) (a : Z) : Z := load64 m a.
Definition hsize (m : mem) (a : Z) : Z := le_val (load m (a + 8) 4).
Definition with_ptr (m : mem) (a v : Z) : mem := store64 m a v.
Definition with_size (m : mem) (a v : Z) : mem := store m (a + 8) (le_bytes 4 v).

Definition ptr_of (a : Z) : H Z := gets (fun s => hptr (u_mem s) a).
Definition size_of (a : Z) : H Z := gets (fun s => hsize (u_mem s) a).
Definition set_ptr (a v : Z) : H unit := modify (fun s => set_u_mem (with_ptr (u_mem s) a v) s).
Definition set_size (a v : Z) : H unit := modify (fun s => set_u_mem (with_size (u_mem s) a v) s).

(** [p + n] for a header pointer. *)
Definition hplus (p n : Z) : Z := u64 (p + sizeof_header * n).

(** The loop of [free]: the free block behind which [bp] belongs. *)
Fixpoint free_find (fuel : nat) (bp p : Z) : H Z :=
  match fuel with
  | O => suspend_with Forever
  | S fuel' =>
      let* n := ptr_of p in
      if (p <? bp) && (bp <? n) then ret p
      else if (n <=? p) && ((p <? bp) || (bp <? n)) then ret p
      else free_find fuel' bp n
  end.

(** There are at most as many free blocks as bytes below the break. *)
Definition free (ap : Z) : H unit :=
  let bp := u64 (ap - sizeof_header) in
  let* freep := gets u_freep in
  let* brk := gets u_brk in
  let* p := free_find (Z.to_nat brk) bp freep in
  let* bs := size_of bp in
  let* n := ptr_of p in
  (if hplus bp bs =? n then
     let* ns := size_of n in
     set_size bp (u32 (bs + ns)) ;;;
     let* nn := ptr_of n in
     set_ptr bp nn
   else set_ptr bp n) ;;;
  let* ps := size_of p in
  (if hplus p ps =? bp then
     let* bs := size_of bp in
     set_size p (u32 (ps + bs)) ;;;
     let* bn := ptr_of bp in
     set_ptr p bn
   else set_ptr p bp) ;;;
  modify (set_u_freep p).

Section umalloc.
Context (base : Z) (can_grow : Z -> Z -> bool).

(** [sbrk(int n)]: the old break, or [(char* )-1]. *)
Definition sbrk (n : Z) : H Z :=
  let* brk := gets u_brk in
  if can_grow brk (i32 n) then modify (set_u_brk (brk + i32 n)) ;;; ret brk
  else ret (2 ^ 64 - 1).

Definition morecore (nu : Z) : H Z :=
  let nu := if nu <? 4096 then 4096 else nu in
  let* p := sbrk (nu * sizeof_header) in
  if p =? 2 ^ 64 - 1 then ret 0 else
  set_size p nu ;;;
  free (hplus p 1) ;;;
  gets u_freep.

(** The loop of [malloc]: once around the list, and once more after [morecore]. *)
Fixpoint malloc_loop (fuel : nat) (nunits prevp p : Z) : H Z :=
  match fuel with
  | O => suspend_with Forever
  | S fuel' =>
      let* size := size_of p in
      if nunits <=? size then
        let* r :=
          (if size =? nunits then
             let* n := ptr_of p in
             set_ptr prevp n ;;;
             ret p
           else
             set_size p (u32 (size - nunits)) ;;;
             let* rest := size_of p in
             let p := hplus p rest in
             set_size p nunits ;;;
             ret p) in
        modify (set_u_freep prevp) ;;;
        ret (hplus r 1)
      else
        let* freep := gets u_freep in
        if p =? freep then
          let* p := morecore nunits in
          if p =? 0 then ret 0 else
          let* n := ptr_of p in
          malloc_loop fuel' nunits p n
        else
          let* n := ptr_of p in
          malloc_loop fuel' nunits p n
  end.

(** [nbytes + sizeof(Header) - 1] is computed in 64 bits. *)
Definition nunits_of (nbytes : Z) : Z := u32 ((nbytes + sizeof_header - 1) / sizeof_header + 1).

Definition malloc (nbytes : Z) : H Z :=
  let nunits := nunits_of nbytes in
  let* prevp := gets u_freep in
  let* prevp :=
    (if prevp =? 0 then
       modify (set_u_freep base) ;;;
       set_ptr base base ;;;
       set_size base 0 ;;;
       ret base
     else ret prevp) in
  let* brk := gets u_brk in
  let* p := ptr_of prevp in
  malloc_loop (Z.to_nat (2 * (brk + sizeof_header * (nunits + 4096)))) nunits prevp p.
End umalloc.

(** ** Headers in memory *)

Definition clear (a b : Z) : Prop := a + 16 <= b \/ b + 16 <= a.

Lemma ptr_with_ptr m a v : 0 <= v < 2 ^ 64 -> hptr (with_ptr m a v) a = v.
Proof. intros Hv. unfold hptr, with_ptr. rewrite load64_store64. now apply u64_small. Qed.

Lemma ptr_with_ptr_ne m a b v : clear a b -> hptr (with_ptr m a v) b = hptr m b.
Proof. intros Hc. apply load64_store64_ne. unfold clear in Hc. lia. Qed.

Lemma ptr_with_size m a b v : a = b \/ clear a b -> hptr (with_size m a v) b = hptr m b.
Proof.
  intros Hc. apply load64_ext. intros x Hx. apply store_other. rewrite length_le_bytes. unfold clear in Hc. lia.
Qed.

Lemma size_with_size m a v : 0 <= v < 2 ^ 32 -> hsize (with_size m a v) a = v.
Proof.
  intros Hv. unfold hsize, with_size. pose proof (load_store m (a + 8) (le_bytes 4 v)) as E. rewrite length_le_bytes in E. rewrite E, le_val_le_bytes.
  now apply Z.mod_small.
Qed.

Lemma size_with_size_ne m a b v : clear a b -> hsize (with_size m a v) b = hsize m b.
Proof. intros Hc. unfold hsize. f_equal. apply load_ext. intros x Hx. apply store_other. rewrite length_le_bytes. unfold clear in Hc. lia. Qed.

Lemma size_with_ptr m a b v : a = b \/ clear a b -> hsize (with_ptr m a v) b = hsize m b.
Proof. intros Hc. unfold hsize, with_ptr. f_equal. apply load_ext. intros x Hx. apply store64_other. unfold clear in Hc. lia. Qed.

(** Writing a header changes nothing else. *)
Definition beyond (a x : Z) : Prop := ~ a <= x < a + 16.

Lemma with_ptr_other m a v x : beyond a x -> with_ptr m a v x = m x.
Proof. intros Hb. apply store64_other. unfold beyond in Hb. lia. Qed.

Lemma with_size_other m a v x : beyond a x -> with_size m a v x = m x.
Proof. intros Hb. apply store_other. rewrite length_le_bytes. unfold beyond in Hb. lia. Qed.

(** ** The circular list *)

(** Each element of [l] points to the next, the last one to [z]. *)
Fixpoint chain (nx : Z -> Z) (l : list Z) (z : Z) : Prop :=
  match l with
  | [] => True
  | a :: t => nx a = hd z t /\ chain nx t z
  end.

Lemma chain_app nx l l' z : chain nx (l ++ l') z <-> chain nx l (hd z l') /\ chain nx l' z.
Proof. induction l as [|a [|b t] IH]; cbn in *; tauto. Qed.

Lemma chain_ext nx nx' l z : (forall a, a ∈ l -> nx' a = nx a) -> chain nx l z -> chain nx' l z.
Proof.
  induction l as [|a l IH]; intros He; [done|]. cbn. intros [H1 H2]. split; [rewrite He by left; done|]. apply IH; [|done]. intros b Hb. apply He. now right.
Qed.

(** Redirecting the last element. *)
Lemma chain_last nx nx' l p z z' :
  chain nx (l ++ [p]) z -> (forall a, a ∈ l -> nx' a = nx a) -> nx' p = z' -> chain nx' (l ++ [p]) z'.
Proof. rewrite !chain_app. intros [H1 _] He Hp. split; [now apply (chain_ext nx)|]. done. Qed.

(** ** Blocks *)

Notation block := (Z * Z)%type.
Definition bend (x : block) : Z := x.1 + 16 * x.2.
Definition disj (x y : block) : Prop := bend x <= y.1 \/ bend y <= x.1.

Lemma in_snoc {A} (l : list A) x : x ∈ l ++ [x].
Proof. apply elem_of_app. right. left. Qed.

Lemma disj_sym x y : disj x y -> disj y x.
Proof. unfold disj. tauto. Qed.

(** The free blocks in address order, with a gap after each (adjacent ones are merged). *)
Definition ordered (l : list block) : Prop := StronglySorted (fun x y => bend x < y.1) l.

Record heap_ok (base : Z) (tl al : list block) (s : heap) : Prop := {
  hk_base : 0 < base;
  hk_ring : chain (hptr (u_mem s)) (base :: map fst tl) base;
  hk_bsize : hsize (u_mem s) base = 0;
  hk_block : forall x, x ∈ tl ++ al -> hsize (u_mem s) x.1 = x.2 /\ 1 <= x.2 /\ base + 16 <= x.1 /\ bend x <= u_brk s;
  hk_order : ordered tl;
  hk_alloc : StronglySorted disj al;
  hk_disj : forall x y, x ∈ tl -> y ∈ al -> disj x y;
  hk_freep : u_freep s ∈ base :: map fst tl;
  hk_brk : base + 16 <= u_brk s < 2 ^ 36 }.

Lemma ordered_app l1 l2 : ordered (l1 ++ l2) <-> ordered l1 /\ ordered l2 /\ forall x y, x ∈ l1 -> y ∈ l2 -> bend x < y.1.
Proof.
  unfold ordered. induction l1 as [|a l1 IH]; cbn [app].
  - split; [intros H; split; [constructor|]; split; [done|set_solver]|tauto].
  - split.
    + intros H. inversion H as [|? ? H1 H2]; subst. apply IH in H1 as (H3 & H4 & H5). rewrite Forall_app in H2. destruct H2 as [H6 H7].
      split; [now constructor|]. split; [done|]. intros x y Hx Hy. apply elem_of_cons in Hx as [->|Hx]; [|auto]. rewrite Forall_forall in H7. auto.
    + intros (H1 & H2 & H3). inversion H1 as [|? ? H4 H5]; subst. constructor; [apply IH; split; [done|]; split; [done|]; intros; apply H3; [now right|done]|].
      rewrite Forall_app. split; [done|]. apply Forall_forall. intros y Hy. apply H3; [left|done].
Qed.

(** Where a block disjoint from the free ones belongs. *)
Lemma ordered_split tl (b : block) :
  1 <= b.2 -> (forall x, x ∈ tl -> 1 <= x.2 /\ disj x b) -> ordered tl ->
  exists l1 l2, tl = l1 ++ l2 /\ (forall x, x ∈ l1 -> bend x <= b.1) /\ (forall y, y ∈ l2 -> bend b <= y.1).
Proof.
  intros Hb. induction tl as [|x tl IH]; intros Hx Ho; [exists [], []; set_solver|].
  destruct (Hx x ltac:(left)) as [H1 [H2|H2]].
  - inversion Ho as [|? ? Ho1 Ho2]; subst. destruct IH as (l1 & l2 & -> & L1 & L2); [intros y Hy; apply Hx; now right|done|].
    exists (x :: l1), l2. split; [done|]. split; [|done]. intros y Hy. apply elem_of_cons in Hy as [->|Hy]; auto.
  - exists [], (x :: tl). split; [done|]. split; [set_solver|]. intros y Hy. apply elem_of_cons in Hy as [->|Hy]; [done|].
    inversion Ho as [|? ? Ho1 Ho2]; subst. rewrite Forall_forall in Ho2. specialize (Ho2 y Hy). unfold bend in *. lia.
Qed.

(** ** Finding the place in [free] *)

Definition stops (bp a n : Z) : bool := (a <? bp) && (bp <? n) || (n <=? a) && ((a <? bp) || (bp <? n)).

Lemma free_find_run rest fuel bp p z pred s :
  chain (hptr (u_mem s)) (p :: rest) z -> pred ∈ p :: rest -> (forall a, a ∈ p :: rest -> stops bp a (hptr (u_mem s) a) = bool_decide (a = pred)) ->
  (length rest < fuel)%nat -> free_find fuel bp p s = Ok pred s.
Proof.
  revert fuel p. induction rest as [|q rest IH]; intros [|fuel] p Hc Hp Hs Hf; cbn [length] in Hf; try lia; cbn [free_find]; unfold bind at 1, ptr_of, gets;
    pose proof (Hs p ltac:(left)) as E; unfold stops in E.
  - assert (p = pred) as -> by set_solver. rewrite bool_decide_true in E by done. destruct (_ && _); [done|]. cbn in E. now rewrite E.
  - destruct (decide (p = pred)) as [->|Hne].
    + rewrite bool_decide_true in E by done. destruct (_ && _); [done|]. cbn in E. now rewrite E.
    + rewrite bool_decide_false in E by done. apply orb_false_iff in E as [-> ->]. destruct Hc as [E Hc]. cbn in E. rewrite E.
      apply IH; [done|set_solver| |lia]. intros a Ha. apply Hs. now right.
Qed.

Lemma sorted_middle X a Y :
  StronglySorted Z.lt (X ++ a :: Y) -> (forall b, b ∈ X -> b < a) /\ (forall b, b ∈ Y -> a < b) /\ StronglySorted Z.lt Y.
Proof.
  induction X as [|x X IH]; cbn [app]; intros Hs; inversion Hs as [|? ? H1 H2]; subst; rewrite Forall_forall in H2.
  - split; [set_solver|]. auto.
  - destruct (IH H1) as (I1 & I2 & I3). split; [|auto]. intros b Hb. apply elem_of_cons in Hb as [->|Hb]; [apply H2; set_solver|auto].
Qed.

(** In a sorted ring the walk stops at the last element below [bp]. *)
Lemma stops_at nx base l bp pred a :
  StronglySorted Z.lt (base :: l) -> chain nx (base :: l) base -> base < bp -> (forall b, b ∈ base :: l -> b <> bp) ->
  pred ∈ base :: l -> pred < bp -> (forall b, b ∈ base :: l -> b < bp -> b <= pred) -> a ∈ base :: l ->
  stops bp a (nx a) = bool_decide (a = pred).
Proof.
  intros Hso Hc Hb Hne Hp Hpb Hmax Ha. apply list_elem_of_split in Ha as (X & Y & E). rewrite E in *.
  destruct (sorted_middle X a Y Hso) as (HX & HY & HsY). apply chain_app in Hc as [_ [Hn _]].
  assert (Hba : base <= a) by (destruct X as [|x X]; injection E as -> E'; [lia|]; specialize (HX x ltac:(left)); lia).
  assert (Hpr : pred < a \/ pred = a \/ pred ∈ Y).
  { apply elem_of_app in Hp as [Hp|Hp]; [left; auto|]. apply elem_of_cons in Hp as [->|Hp]; auto. }
  pose proof (Hne a ltac:(set_solver)) as Hna. pose proof (Hmax a ltac:(set_solver)) as Hma. unfold stops. rewrite Hn.
  apply Bool.eq_iff_eq_true. rewrite bool_decide_eq_true. destruct Y as [|y Y]; cbn [hd].
  - split; [|intros ->; lia]. intros Hs. destruct Hpr as [H1|[H1|H1]]; [lia|done|set_solver].
  - pose proof (HY y ltac:(left)) as Hay. split.
    + intros Hs. destruct Hpr as [H1|[H1|H1]]; [lia|done|]. assert (y <= pred); [|lia].
      inversion HsY as [|? ? _ H2]; subst. rewrite Forall_forall in H2. apply elem_of_cons in H1 as [->|H1]; [lia|]. specialize (H2 pred H1). lia.
    + intros ->. pose proof (Hne y ltac:(set_solver)). pose proof (Hmax y ltac:(set_solver)). lia.
Qed.

(** ** What [free] writes *)

Definition join_next (m : mem) (bp n : Z) : mem :=
  if hplus bp (hsize m bp) =? n then
    let m' := with_size m bp (u32 (hsize m bp + hsize m n)) in with_ptr m' bp (hptr m' n)
  else with_ptr m bp n.
Definition join_prev (m : mem) (p bp : Z) : mem :=
  if hplus p (hsize m p) =? bp then
    let m' := with_size m p (u32 (hsize m p + hsize m bp)) in with_ptr m' p (hptr m' bp)
  else with_ptr m p bp.

Lemma free_run ap p s :
  free_find (Z.to_nat (u_brk s)) (u64 (ap - sizeof_header)) (u_freep s) s = Ok p s ->
  let bp := u64 (ap - sizeof_header) in
  free ap s = Ok tt (mk_heap (join_prev (join_next (u_mem s) bp (hptr (u_mem s) p)) p bp) p (u_brk s)).
Proof.
  intros E bp. unfold free. unfold bind at 1, gets at 1. unfold bind at 1, gets at 1. rewrite (bind_Ok _ _ _ _ _ E).
  unfold bind at 1, size_of at 1, gets at 1. unfold bind at 1, ptr_of at 1, gets at 1. unfold join_next. fold bp.
  destruct (hplus bp (hsize (u_mem s) bp) =? hptr (u_mem s) p);
    (unfold bind at 1; cbv beta iota delta [bind size_of ptr_of gets set_size set_ptr modify]; cbn [u_mem set_u_mem u_freep u_brk];
     unfold join_prev; match goal with |- context [if ?c then _ else _] => destruct c end; reflexivity).
Qed.

(** The new block and what follows it. *)
Lemma join_next_spec m base l2 (b : block) :
  chain (hptr m) (map fst l2) base -> hsize m b.1 = b.2 -> 1 <= b.2 -> 0 < base < b.1 -> bend b < 2 ^ 36 -> ordered l2 ->
  (forall y, y ∈ l2 -> hsize m y.1 = y.2 /\ 1 <= y.2 /\ bend b <= y.1 /\ bend y < 2 ^ 36) ->
  let m1 := join_next m b.1 (hd base (map fst l2)) in
  exists l2' z1, hsize m1 b.1 = z1 /\ b.2 <= z1 /\ chain (hptr m1) (b.1 :: map fst l2') base /\
    (l2' = l2 /\ z1 = b.2 \/ exists s2, l2 = (bend b, s2) :: l2' /\ z1 = b.2 + s2) /\
    (forall y, y ∈ l2' -> bend (b.1, z1) < y.1) /\
    (forall a, clear b.1 a -> hptr m1 a = hptr m a /\ hsize m1 a = hsize m a) /\ (forall x, beyond b.1 x -> m1 x = m x).
Proof.
  intros Hc Hs Hb Hbase Hbb Ho Hl m1. unfold m1, join_next. rewrite Hs. unfold hplus, sizeof_header. rewrite u64_small by (unfold bend in *; lia).
  change (b.1 + 16 * b.2) with (bend b). destruct l2 as [|[n s2] l2]; cbn [map hd fst].
  - rewrite (proj2 (Z.eqb_neq _ _)) by (unfold bend; lia). exists [], b.2.
    split; [rewrite size_with_ptr by auto; done|]. split; [lia|]. split; [split; [apply (ptr_with_ptr m b.1 base); unfold bend in *; lia|done]|]. split; [now left|]. split; [set_solver|].
    split; [intros a Ha; split; [now apply ptr_with_ptr_ne|apply size_with_ptr; auto]|]. intros x Hx. now apply with_ptr_other.
  - destruct (Hl (n, s2) ltac:(left)) as (H1 & H2 & H3 & H4). cbn [fst snd] in *. cbn [map fst] in Hc. inversion_clear Ho as [|? ? Ho1 Ho2]. rewrite Forall_forall in Ho2.
    assert (Hcl : clear b.1 n) by (unfold clear, bend in *; lia).
    assert (Hrest : forall a, a ∈ map fst l2 -> clear b.1 a).
    { intros a [y [-> Hy]]%list_elem_of_fmap. destruct (Hl y ltac:(now right)) as (_ & _ & H5 & _). unfold clear, bend in *. lia. }
    destruct (Z.eqb_spec (bend b) n) as [Hn0|Hne].
    + subst n. exists l2, (b.2 + s2). rewrite H1. rewrite u32_small by (unfold bend in *; cbn in *; lia).
      assert (Hz : hsize (with_ptr (with_size m b.1 (b.2 + s2)) b.1 (hptr (with_size m b.1 (b.2 + s2)) (bend b))) b.1 = b.2 + s2)
        by (rewrite size_with_ptr by auto; apply size_with_size; unfold bend in *; cbn in *; lia).
      rewrite (ptr_with_size m b.1 (bend b)) in * by auto. destruct Hc as [Hn Hc].
      split; [exact Hz|]. split; [lia|]. split; [|split; [right; eauto|split; [|split]]].
      * assert (Hnb : 0 <= hptr m (bend b) < 2 ^ 64).
        { rewrite Hn. destruct l2 as [|[n' s'] l2]; cbn; [unfold bend in *; lia|]. destruct (Hl (n', s') ltac:(set_solver)) as (_ & H7 & H5 & H6). unfold bend in *. cbn in *. lia. }
        split; [rewrite ptr_with_ptr by done; exact Hn|]. apply (chain_ext (hptr m)); [|done]. intros a Ha.
        rewrite ptr_with_ptr_ne, ptr_with_size by auto. done.
      * intros y Hy. specialize (Ho2 y Hy). unfold bend in *. cbn in *. lia.
      * intros a Ha. rewrite ptr_with_ptr_ne, ptr_with_size, size_with_ptr, size_with_size_ne by auto. done.
      * intros x Hx. now rewrite with_ptr_other, with_size_other.
    + exists ((n, s2) :: l2), b.2. split; [rewrite size_with_ptr by auto; done|]. split; [lia|]. split; [|split; [now left|split; [|split]]].
      * split; [apply ptr_with_ptr; unfold bend in *; cbn in *; lia|]. apply (chain_ext (hptr m)); [|exact Hc].
        intros a Ha. cbn [map fst] in Ha. apply ptr_with_ptr_ne. apply elem_of_cons in Ha as [->|Ha]; [done|auto].
      * intros y Hy. change (bend (b.1, b.2)) with (bend b). apply elem_of_cons in Hy as [->|Hy]; [cbn; lia|]. specialize (Ho2 y Hy). unfold bend in *. cbn in *. lia.
      * intros a Ha. split; [now apply ptr_with_ptr_ne|apply size_with_ptr; auto].
      * intros x Hx. now apply with_ptr_other.
Qed.

(** The free block before it, or the list head. *)
Definition pred_of (base : Z) (l1 : list block) : Z := match last l1 with Some x => x.1 | None => base end.

Lemma relink m nodes p bp z l2 base :
  chain (hptr m) (nodes ++ [p]) z -> chain (hptr m) (bp :: l2) base -> 0 <= bp < 2 ^ 64 ->
  (forall a, a ∈ nodes ++ bp :: l2 -> clear p a) -> chain (hptr (with_ptr m p bp)) (nodes ++ p :: bp :: l2) base.
Proof.
  intros H1 H2 Hb Hcl. change (p :: bp :: l2) with ([p] ++ (bp :: l2)). rewrite app_assoc, chain_app. split.
  - apply (chain_last (hptr m) _ _ _ z); [done| |now apply ptr_with_ptr]. intros a Ha. apply ptr_with_ptr_ne, Hcl. set_solver.
  - apply (chain_ext (hptr m)); [|done]. intros a Ha. apply ptr_with_ptr_ne, Hcl. set_solver.
Qed.

Lemma join_prev_spec m base l1 l2 bp z w :
  let p := pred_of base l1 in
  chain (hptr m) (base :: map fst l1) w -> chain (hptr m) (bp :: map fst l2) base -> hsize m bp = z -> 1 <= z ->
  0 < base -> hsize m base = 0 -> base + 16 <= bp -> bend (bp, z) < 2 ^ 36 -> ordered l1 ->
  (forall x, x ∈ l1 -> hsize m x.1 = x.2 /\ 1 <= x.2 /\ base + 16 <= x.1 /\ bend x <= bp) -> (forall y, y ∈ l2 -> bp + 16 <= y.1 < 2 ^ 36) ->
  let m2 := join_prev m p bp in
  exists l1' node, chain (hptr m2) (base :: map fst (l1' ++ node :: l2)) base /\ z <= node.2 /\
    (l1' = l1 /\ node = (bp, z) /\ bend (p, hsize m2 p) <> bp /\ hsize m2 p = hsize m p \/ exists ps, l1 = l1' ++ [(p, ps)] /\ bend (p, ps) = bp /\ node = (p, ps + z)) /\
    hsize m2 node.1 = node.2 /\
    (forall a, clear p a -> hptr m2 a = hptr m a /\ hsize m2 a = hsize m a) /\ (forall x, beyond p x -> m2 x = m x).
Proof.
  intros p Hc Hcb Hz Hz1 Hb0 Hbs Hbp Hbb Ho Hl Hl2 m2.
  assert (H2 : forall a, a ∈ map fst l2 -> bp + 16 <= a) by (intros a [y [-> Hy]]%list_elem_of_fmap; now apply Hl2).
  unfold m2, join_prev, hplus, sizeof_header. clear m2. induction l1 as [|[q qs] l0 _] using rev_ind; subst p; unfold pred_of in *.
  - cbn [last]. rewrite Hbs, Z.mul_0_r, Z.add_0_r, u64_small, (proj2 (Z.eqb_neq base bp)) by (unfold bend in *; cbn in *; lia).
    exists [], (bp, z). cbn [app map fst snd]. split; [apply (relink m [] base bp w (map fst l2) base); [done|done|unfold bend in *; cbn in *; lia|]|].
    { intros a Ha. apply elem_of_cons in Ha as [->|Ha]; unfold clear; [lia|]. specialize (H2 a Ha). lia. }
    assert (Hcl : clear base bp) by (unfold clear; lia).
    split; [lia|]. rewrite !size_with_ptr by auto. split; [left; split_and!; try done; rewrite Hbs; unfold bend; cbn; lia|]. split; [done|].
    split; [intros a Ha; now rewrite ptr_with_ptr_ne, size_with_ptr by auto|]. intros x Hx. now apply with_ptr_other.
  - rewrite last_snoc in *. cbn [fst]. destruct (Hl (q, qs) ltac:(set_solver)) as (E1 & E2 & E3 & E4). cbn [fst snd] in *. rewrite E1.
    apply ordered_app in Ho as (Ho1 & _ & Ho2). unfold bend in E4. cbn in E4.
    assert (Hq : forall a, a ∈ base :: map fst l0 -> a + 16 <= q).
    { intros a Ha. apply elem_of_cons in Ha as [->|Ha]; [lia|]. apply list_elem_of_fmap in Ha as [x [-> Hx]]. specialize (Ho2 x (q, qs) Hx ltac:(left)).
      destruct (Hl x ltac:(set_solver)) as (_ & G & _). unfold bend in Ho2. cbn in Ho2. lia. }
    rewrite map_app in Hc. change (base :: (map fst l0 ++ map fst [(q, qs)])) with ((base :: map fst l0) ++ [q]) in Hc.
    rewrite u64_small by (unfold bend in *; cbn in *; lia). destruct (Z.eqb_spec (q + 16 * qs) bp) as [Hj|Hj].
    + exists l0, (q, qs + z). cbn [fst snd]. rewrite Hz, u32_small by (unfold bend in *; cbn in *; lia).
      assert (Hcl : clear q bp) by (unfold clear; lia). rewrite (ptr_with_size m q bp) by auto. destruct Hcb as [Hn Hcb].
      assert (Hnb : 0 <= hptr m bp < 2 ^ 64).
      { rewrite Hn. destruct l2 as [|[n' s'] l2]; cbn; [unfold bend in *; cbn in *; lia|]. destruct (Hl2 (n', s') ltac:(left)). cbn in *. lia. }
      split; [|split; [lia|split; [right; eauto|split; [|split]]]].
      * rewrite map_app. cbn [map fst]. change (base :: (map fst l0 ++ q :: map fst l2)) with ((base :: map fst l0) ++ [q] ++ map fst l2).
        rewrite app_assoc, chain_app. split.
        -- apply (chain_last (hptr m) _ _ _ w); [done| |rewrite ptr_with_ptr by done; exact Hn]. intros a Ha. specialize (Hq a Ha).
           rewrite ptr_with_ptr_ne, ptr_with_size by (unfold clear; auto with lia). done.
        -- apply (chain_ext (hptr m)); [|done]. intros a Ha. specialize (H2 a Ha). rewrite ptr_with_ptr_ne, ptr_with_size by (unfold clear in *; auto with lia). done.
      * rewrite size_with_ptr by auto. apply size_with_size. unfold bend in *. cbn in *. lia.
      * intros a Ha. rewrite ptr_with_ptr_ne, ptr_with_size, size_with_ptr, size_with_size_ne by auto. done.
      * intros x Hx. now rewrite with_ptr_other, with_size_other.
    + exists (l0 ++ [(q, qs)]), (bp, z). cbn [fst snd]. assert (Hcl : clear q bp) by (unfold clear; lia). rewrite !size_with_ptr by auto.
      split; [|split; [lia|split; [left; split_and!; try done; now rewrite E1|split; [done|split]]]].
      * rewrite !map_app. cbn [map fst]. change (base :: (map fst l0 ++ [q]) ++ bp :: map fst l2) with (((base :: map fst l0) ++ [q]) ++ bp :: map fst l2).
        rewrite <- app_assoc. apply (relink m _ q bp w _ base); [done|done|unfold bend in *; cbn in *; lia|].
        intros a Ha. apply elem_of_app in Ha as [Ha|Ha]; [specialize (Hq a Ha); unfold clear; lia|]. apply elem_of_cons in Ha as [->|Ha]; [done|]. specialize (H2 a Ha). unfold clear in *. lia.
      * intros a Ha. now rewrite ptr_with_ptr_ne, size_with_ptr by auto.
      * intros x Hx. now apply with_ptr_other.
Qed.

(** ** free *)

Lemma ordered_length tl lo hi :
  lo <= hi -> ordered tl -> (forall x, x ∈ tl -> 1 <= x.2 /\ lo <= x.1 /\ bend x <= hi) -> 16 * Z.of_nat (length tl) <= hi - lo.
Proof.
  revert lo. induction tl as [|x tl IH]; intros lo Hlh Ho Hx; cbn [length]; [lia|]. inversion Ho as [|? ? Ho1 Ho2]; subst. rewrite Forall_forall in Ho2.
  destruct (Hx x ltac:(left)) as (H1 & H2 & H3). assert (16 * Z.of_nat (length tl) <= hi - bend x); [|unfold bend in *; lia].
  apply IH; [done|done|]. intros y Hy. destruct (Hx y ltac:(now right)) as (H4 & H5 & H6). specialize (Ho2 y Hy). lia.
Qed.

Lemma nodes_sorted base tl : ordered tl -> (forall x, x ∈ tl -> 1 <= x.2 /\ base + 16 <= x.1) -> StronglySorted Z.lt (base :: map fst tl).
Proof.
  intros Ho Hx. constructor.
  - induction tl as [|x tl IH]; cbn; [constructor|]. inversion Ho as [|? ? Ho1 Ho2]; subst. rewrite Forall_forall in Ho2.
    constructor; [apply IH; [done|]; intros y Hy; apply Hx; now right|]. apply Forall_forall. intros a [y [-> Hy]]%list_elem_of_fmap.
    specialize (Ho2 y Hy). destruct (Hx x ltac:(left)). unfold bend in Ho2. lia.
  - apply Forall_forall. intros a [y [-> Hy]]%list_elem_of_fmap. destruct (Hx y Hy). lia.
Qed.

(** A ring can be walked from any of its elements. *)
Lemma chain_rotate nx base l p : chain nx (base :: l) base -> p ∈ base :: l -> exists rest, chain nx (p :: rest) p /\ base :: l ≡ₚ p :: rest.
Proof.
  intros Hc Hp. apply list_elem_of_split in Hp as (A & B & E). exists (B ++ A). rewrite E in *. split; [|solve_Permutation].
  apply chain_app in Hc as [H1 H2]. change (p :: B ++ A) with ((p :: B) ++ A). apply chain_app. split; [|exact H1].
  destruct A as [|a A]; injection E as -> E'; [exact H2|exact H2].
Qed.

Lemma pred_of_spec base l1 bp :
  base < bp -> (forall x, x ∈ l1 -> 1 <= x.2 /\ bend x <= bp) -> ordered l1 -> (forall x, x ∈ l1 -> base < x.1) ->
  pred_of base l1 ∈ base :: map fst l1 /\ pred_of base l1 < bp /\ forall b, b ∈ base :: map fst l1 -> b <= pred_of base l1.
Proof.
  intros Hb Hx Ho Hbase. unfold pred_of. induction l1 as [|x l1 _] using rev_ind; cbn [last].
  - split; [left|]. split; [done|]. intros b Hb'. apply elem_of_cons in Hb' as [->|Hb']; [lia|]. cbn in Hb'. set_solver.
  - rewrite last_snoc. destruct (Hx x ltac:(set_solver)) as [H1 H2]. split; [right; rewrite map_app; set_solver|]. split; [unfold bend in H2; lia|].
    intros b Hb'. apply elem_of_cons in Hb' as [->|Hb']; [specialize (Hbase x ltac:(set_solver)); lia|].
    rewrite map_app in Hb'. apply elem_of_app in Hb' as [Hb'|Hb']; [|cbn in Hb'; assert (b = x.1) as -> by set_solver; lia].
    apply list_elem_of_fmap in Hb' as [y [-> Hy]]. apply ordered_app in Ho as (_ & _ & Ho). specialize (Ho y x Hy ltac:(left)). destruct (Hx y ltac:(set_solver)). unfold bend in Ho. lia.
Qed.

(** The walk of [free] finds the place of a block that is not free. *)
Lemma free_find_pred base tl al b s l1 l2 :
  heap_ok base tl (b :: al) s -> tl = l1 ++ l2 -> (forall x, x ∈ l1 -> bend x <= b.1) -> (forall y, y ∈ l2 -> bend b <= y.1) ->
  free_find (Z.to_nat (u_brk s)) b.1 (u_freep s) s = Ok (pred_of base l1) s.
Proof.
  intros [K1 K2 K3 K4 K5 K6 K7 K8 K9] E L1 L2. destruct (K4 b ltac:(set_solver)) as (B1 & B2 & B3 & B4).
  assert (Hn : StronglySorted Z.lt (base :: map fst tl)) by (apply nodes_sorted; [done|]; intros x Hx; destruct (K4 x ltac:(set_solver)) as (_ & ? & ? & _); done).
  destruct (pred_of_spec base l1 b.1) as (P1 & P2 & P3).
  { lia. } { intros x Hx. split; [|auto]. apply K4. set_solver. } { subst tl. now apply ordered_app in K5 as (? & _). }
  { intros x Hx. destruct (K4 x ltac:(set_solver)) as (_ & _ & ? & _). lia. }
  destruct (chain_rotate _ base (map fst tl) (u_freep s) K2 K8) as (rest & Hr & Hp).
  assert (Hin : forall a, a ∈ u_freep s :: rest <-> a ∈ base :: map fst tl) by (intros a; now rewrite Hp).
  assert (Hpt : pred_of base l1 ∈ base :: map fst tl) by (subst tl; rewrite map_app; set_solver).
  apply (free_find_run rest _ b.1 (u_freep s) (u_freep s)); [done|now apply Hin| |].
  - intros a Ha. apply Hin in Ha. apply (stops_at _ base (map fst tl)); try done; [lia|..].
    + intros c Hc ->. apply elem_of_cons in Hc as [Hc|Hc]; [lia|]. apply list_elem_of_fmap in Hc as [x [Hc Hx]].
      destruct (K4 x ltac:(apply elem_of_app; now left)) as (_ & ? & _). destruct (K7 x b Hx ltac:(left)) as [H'|H']; unfold bend in H'; lia.
    + intros c Hc Hlt. subst tl. rewrite map_app in Hc. apply elem_of_cons in Hc as [->|Hc]; [apply P3; left|]. apply elem_of_app in Hc as [Hc|Hc]; [apply P3; now right|].
      apply list_elem_of_fmap in Hc as [y [-> Hy]]. specialize (L2 y Hy). unfold bend in L2. lia.
  - apply Permutation_length in Hp. cbn [length] in Hp. rewrite length_map in Hp.
    pose proof (ordered_length tl (base + 16) (u_brk s) ltac:(lia) K5 ltac:(intros x Hx; destruct (K4 x ltac:(set_solver)) as (_ & ? & ? & ?); done)). lia.
Qed.

Lemma disj_join a s t y : 1 <= y.2 -> disj (a, s) y -> disj (a + 16 * s, t) y -> disj (a, s + t) y.
Proof. unfold disj, bend. cbn. lia. Qed.

(** The list after [free] has joined the block with its neighbours. *)
Lemma ordered_join l1 l1' (node : block) l2' l2 (b : block) p z1 q :
  ordered l1 -> ordered l2 -> 1 <= z1 -> (forall x, x ∈ l1 -> bend x <= b.1 /\ 1 <= x.2) -> p = pred_of q l1 ->
  (l2' = l2 \/ exists y, l2 = y :: l2') -> (forall y, y ∈ l2' -> bend (b.1, z1) < y.1) ->
  (l1' = l1 /\ node = (b.1, z1) /\ (forall ps, last l1 = Some (p, ps) -> bend (p, ps) <> b.1) \/
   exists ps, l1 = l1' ++ [(p, ps)] /\ bend (p, ps) = b.1 /\ node = (p, ps + z1)) ->
  ordered (l1' ++ node :: l2').
Proof.
  intros Ho1 Ho2 Hz1 Hl1 Hp Hl2 Hy Hc. assert (Hord2 : ordered l2') by (destruct Hl2 as [->|[y ->]]; [done|now inversion Ho2]).
  assert (Ebend : bend node = bend (b.1, z1)) by (destruct Hc as [(_ & -> & _)|(ps & _ & E & ->)]; [done|unfold bend in *; cbn in *; lia]).
  assert (Hn2 : ordered (node :: l2')) by (constructor; [done|]; apply Forall_forall; intros y Hyin; specialize (Hy y Hyin); unfold bend in *; cbn in *; lia).
  apply ordered_app. destruct Hc as [(-> & -> & Hne)|(ps & -> & E & ->)].
  - split; [done|]. split; [done|]. assert (Hx : forall x, x ∈ l1 -> bend x < b.1).
    { intros x Hx. clear -Ho1 Hl1 Hp Hne Hx. induction l1 as [|y l1 _] using rev_ind; [set_solver|]. unfold pred_of in Hp. rewrite last_snoc in *.
      destruct y as [ya ys]. cbn in Hp. subst ya. apply ordered_app in Ho1 as (_ & _ & Ho). destruct (Hl1 (p, ys) ltac:(set_solver)) as [H1 H2].
      specialize (Hne ys eq_refl). apply elem_of_app in Hx as [Hx|Hx]; [|assert (x = (p, ys)) as -> by set_solver; lia].
      specialize (Ho x (p, ys) Hx ltac:(left)). unfold bend in *. cbn in *. lia. }
    intros x y Hxin Hyin. specialize (Hx x Hxin). apply elem_of_cons in Hyin as [->|Hyin]; [done|]. specialize (Hy y Hyin). unfold bend in *. cbn in *. lia.
  - apply ordered_app in Ho1 as (Ho1 & _ & Ho). split; [done|]. split; [done|]. intros x y Hxin Hyin. specialize (Ho x (p, ps) Hxin ltac:(left)).
    destruct (Hl1 (p, ps) ltac:(set_solver)) as [_ H2]. apply elem_of_cons in Hyin as [->|Hyin]; [done|]. specialize (Hy y Hyin). unfold bend in *. cbn in *. lia.
Qed.

(** The heap after [free], given what the writes did to the headers. *)
Lemma heap_joined base tl al (b : block) s l1 l2 l1' l2' (node : block) p z1 (m1 m2 : mem) :
  heap_ok base tl (b :: al) s -> tl = l1 ++ l2 -> (forall x, x ∈ l1 -> bend x <= b.1) -> (forall y, y ∈ l2 -> bend b <= y.1) -> p = pred_of base l1 ->
  b.2 <= z1 -> (l2' = l2 /\ z1 = b.2 \/ exists s2, l2 = (bend b, s2) :: l2' /\ z1 = b.2 + s2) -> (forall y, y ∈ l2' -> bend (b.1, z1) < y.1) -> bend (b.1, z1) <= u_brk s ->
  (l1' = l1 /\ node = (b.1, z1) /\ bend (p, hsize m2 p) <> b.1 /\ hsize m2 p = hsize m1 p \/
   exists ps, l1 = l1' ++ [(p, ps)] /\ bend (p, ps) = b.1 /\ node = (p, ps + z1)) ->
  chain (hptr m2) (base :: map fst (l1' ++ node :: l2')) base -> hsize m2 node.1 = node.2 ->
  (forall a, clear b.1 a -> hsize m1 a = hsize (u_mem s) a) -> (forall a, clear p a -> clear b.1 a -> hsize m2 a = hsize (u_mem s) a) ->
  heap_ok base (l1' ++ node :: l2') al (mk_heap m2 p (u_brk s)).
Proof.
  intros [K1 K2 K3 K4 K5 K6 K7 K8 K9] E L1 L2 Hp Hz Hl2 Hy2 Hze Hl1 Hring Hn Hm1 Hm2. destruct (K4 b ltac:(set_solver)) as (B1 & B2 & B3 & B4).
  assert (Htl : forall x, x ∈ l1 \/ x ∈ l2 -> hsize (u_mem s) x.1 = x.2 /\ 1 <= x.2 /\ base + 16 <= x.1 /\ bend x <= u_brk s).
  { intros x Hx. apply K4. rewrite E, !elem_of_app. tauto. }
  assert (Hal : forall y, y ∈ al -> hsize (u_mem s) y.1 = y.2 /\ 1 <= y.2 /\ base + 16 <= y.1 /\ bend y <= u_brk s) by (intros y Hy; apply K4; set_solver).
  assert (Hab : forall y, y ∈ al -> disj b y) by (intros y Hy; inversion K6 as [|? ? _ Hf]; subst; rewrite Forall_forall in Hf; auto).
  assert (Hat : forall x y, x ∈ l1 \/ x ∈ l2 -> y ∈ al -> disj x y) by (intros x y Hx Hy; apply K7; [rewrite E, elem_of_app; tauto|now right]).
  assert (Ho : ordered l1 /\ ordered l2 /\ forall x y, x ∈ l1 -> y ∈ l2 -> bend x < y.1) by (subst tl; now apply ordered_app in K5). destruct Ho as (Ho1 & Ho2 & Ho12).
  assert (H1 : forall x, x ∈ l1 -> bend x <= b.1 /\ 1 <= x.2) by (intros x Hx; split; [auto|now apply Htl; left]).
  assert (Hs2 : forall y, y ∈ l2' -> y ∈ l2) by (intros y Hy; destruct Hl2 as [[-> _]|(s2 & -> & _)]; [done|now right]).
  destruct (pred_of_spec base l1 b.1) as (P1 & P2 & P3); [lia|intros x Hx; specialize (H1 x Hx); tauto|done|intros x Hx; destruct (Htl x (or_introl Hx)) as (_ & _ & ? & _); lia|].
  rewrite <- Hp in P1, P2, P3.
  assert (Hlast : p = base /\ l1 = [] \/ exists l0 ps, l1 = l0 ++ [(p, ps)]).
  { rewrite Hp. unfold pred_of. clear. destruct l1 as [|[q qs] l0 _] using rev_ind; [now left|right]. rewrite last_snoc. eauto. }
  assert (Hnode : base + 16 <= node.1 /\ bend node = bend (b.1, z1) /\ 1 <= node.2 /\ node.1 <= b.1).
  { destruct Hl1 as [(_ & -> & _)|(ps & El & Eb & ->)]; [cbn; lia|]. destruct (Htl (p, ps)) as (_ & ? & ? & _); [left; rewrite El; apply in_snoc|]. unfold bend in *. cbn in *. lia. }
  destruct Hnode as (N1 & N2 & N3 & N4). pose proof K9.
  assert (Hcp : forall a, base + 16 <= a -> (forall ps, (p, ps) ∈ l1 -> 1 <= ps -> bend (p, ps) <= a \/ a + 16 <= p) -> clear p a).
  { intros a Ha Hps. destruct Hlast as [[-> _]|(l0 & ps & El)]; [unfold clear; lia|]. destruct (Htl (p, ps)) as (_ & Hp1 & _); [left; rewrite El; apply in_snoc|].
    specialize (Hps ps ltac:(rewrite El; apply in_snoc) Hp1). unfold clear, bend in *. cbn in *. lia. }
  assert (Hl1' : forall x, x ∈ l1' -> x ∈ l1) by (intros x Hx; destruct Hl1 as [(-> & _)|(ps & -> & _)]; [done|apply elem_of_app; now left]).
  assert (Hx1 : forall x, x ∈ l1 -> x.1 = p \/ bend x <= p).
  { intros x Hx. destruct Hlast as [[_ E0]|(l0 & ps & E0)]; [subst; set_solver|]. rewrite E0 in Hx, Ho1. apply ordered_app in Ho1 as (_ & _ & Hlt).
    apply elem_of_app in Hx as [Hx|Hx]; [right; specialize (Hlt x (p, ps) Hx ltac:(left)); cbn in Hlt; lia|left; assert (x = (p, ps)) as -> by set_solver; done]. }
  assert (Hpb : forall ps, (p, ps) ∈ l1 -> bend (p, ps) <= b.1) by (intros ps Hps; now apply L1).
  assert (Hcpb : clear p b.1) by (apply Hcp; [done|]; intros ps Hps _; left; auto).
  assert (Hsz : forall x, x ∈ l1' ++ l2' ++ al -> hsize m2 x.1 = x.2).
  { intros x Hx. rewrite !elem_of_app in Hx. destruct Hx as [Hx|[Hx|Hx]].
    - specialize (Hl1' x Hx). destruct (Htl x (or_introl Hl1')) as (Hsx & Hx2 & Hx3 & _). specialize (L1 x Hl1'). rewrite <- Hsx.
      assert (Hcb : clear b.1 x.1) by (unfold clear, bend in *; lia). destruct (Hx1 x Hl1') as [Ep|Hlt]; [|apply Hm2; [unfold clear, bend in *; lia|done]].
      rewrite Ep in *. destruct Hl1 as [(_ & _ & _ & ->)|(ps & El & _ & _)]; [now apply Hm1|]. exfalso. rewrite El in Ho1. apply ordered_app in Ho1 as (_ & _ & Hlt).
      specialize (Hlt x (p, ps) Hx ltac:(left)). unfold bend in Hlt. cbn in Hlt. lia.
    - destruct (Htl x (or_intror (Hs2 x Hx))) as (Hsx & Hx2 & Hx3 & _). specialize (Hy2 x Hx). rewrite <- Hsx. unfold bend in Hy2. cbn in Hy2.
      apply Hm2; [apply Hcp; [done|]; intros ps Hps _; specialize (Hpb ps Hps); lia|unfold clear; lia].
    - destruct (Hal x Hx) as (Hsx & Hx2 & Hx3 & _). rewrite <- Hsx. apply Hm2.
      + apply Hcp; [done|]. intros ps Hps _. destruct (Hat (p, ps) x (or_introl Hps) Hx) as [Hd|Hd]; unfold bend in *; cbn in *; lia.
      + destruct (Hab x Hx) as [Hd|Hd]; unfold clear, bend in *; lia. }
  assert (Hdn : forall y, y ∈ al -> disj node y).
  { intros y Hy. destruct (Hal y Hy) as (_ & Hy1 & _). assert (Hd : disj (b.1, z1) y).
    { destruct Hl2 as [[_ ->]|(s2 & E2 & ->)]; [now apply Hab|]. apply disj_join; [done|now apply Hab|]. apply Hat; [right; rewrite E2; left|done]. }
    destruct Hl1 as [(_ & -> & _)|(ps & El & Eb & ->)]; [done|]. apply disj_join; [done|apply Hat; [left; rewrite El; apply in_snoc|done]|].
    unfold bend in Eb. cbn in Eb. rewrite Eb. exact Hd. }
  split; cbn [u_mem u_freep u_brk]; [done|exact Hring|..].
  - destruct Hlast as [[E0 El]|(l0 & ps & El)].
    + destruct Hl1 as [(_ & _ & _ & Hs)|(ps & El' & _)]; [|rewrite El in El'; now destruct l1']. rewrite E0 in Hs. rewrite Hs, Hm1 by (unfold clear; lia). done.
    + rewrite Hm2; [done| |unfold clear; lia]. destruct (Htl (p, ps)) as (_ & _ & ? & _); [left; rewrite El; apply in_snoc|]. unfold clear. cbn in *. lia.
  - intros x Hx. rewrite <- app_assoc in Hx. cbn [app] in Hx. rewrite elem_of_app, elem_of_cons, elem_of_app in Hx.
    destruct Hx as [Hx|[->|[Hx|Hx]]]; [| |destruct (Htl x (or_intror (Hs2 x Hx))) as (_ & ? & ? & ?)|destruct (Hal x Hx) as (_ & ? & ? & ?)].
    + destruct (Htl x (or_introl (Hl1' x Hx))) as (_ & ? & ? & ?). split; [|done]. apply Hsz. apply elem_of_app. now left.
    + split; [done|]. split; [done|]. split; [done|]. lia.
    + split; [|done]. apply Hsz. rewrite !elem_of_app. tauto.
    + split; [|done]. apply Hsz. rewrite !elem_of_app. tauto.
  - apply (ordered_join l1 l1' node l2' l2 b p z1 base); try done; [lia|destruct Hl2 as [[-> _]|(s2 & -> & _)]; eauto|].
    destruct Hl1 as [(-> & -> & Hne & Hs)|Hr]; [left|now right]. split; [done|]. split; [done|]. intros ps Hls Heq. apply Hne. rewrite Hs, Hm1 by (unfold clear in *; lia).
    destruct (Htl (p, ps)) as (Hps & _); [left; now apply last_Some_elem_of|]. cbn [fst snd] in Hps. now rewrite Hps.
  - now inversion K6.
  - intros x y Hx Hy. rewrite elem_of_app, elem_of_cons in Hx. destruct Hx as [Hx|[->|Hx]]; [apply Hat; auto|auto|apply Hat; auto].
  - destruct Hl1 as [(-> & _)|(ps & _ & _ & ->)]; rewrite map_app; [apply elem_of_cons in P1 as [->|P1]; [left|right; apply elem_of_app; now left]|right; apply elem_of_app; right; left].
  - exact K9.
Qed.

Lemma wp_free base tl al (b : block) s :
  heap_ok base tl (b :: al) s ->
  wp (free (b.1 + 16)) (fun _ s' => u_brk s' = u_brk s /\ exists tl', heap_ok base tl' al s' /\ (exists x, x ∈ tl' /\ b.2 <= x.2) /\
    forall x, base + 16 <= x -> (forall y, y ∈ tl -> beyond y.1 x) -> beyond b.1 x -> u_mem s' x = u_mem s x) s.
Proof.
  intros Hk. pose proof Hk as [K1 K2 K3 K4 K5 K6 K7 K8 K9]. destruct (K4 b ltac:(set_solver)) as (B1 & B2 & B3 & B4).
  assert (Htl : forall x, x ∈ tl -> hsize (u_mem s) x.1 = x.2 /\ 1 <= x.2 /\ base + 16 <= x.1 /\ bend x <= u_brk s) by (intros x Hx; apply K4; set_solver).
  destruct (ordered_split tl b B2) as (l1 & l2 & E & L1 & L2); [intros x Hx; split; [now apply Htl|apply K7; [done|left]]|done|].
  assert (Hap : u64 (b.1 + 16 - sizeof_header) = b.1) by (unfold sizeof_header; replace (b.1 + 16 - 16) with b.1 by lia; apply u64_small; unfold bend in *; lia).
  pose proof (free_find_pred base tl al b s l1 l2 Hk E L1 L2) as Hfind. rewrite <- Hap in Hfind at 1.
  apply (wp_ok _ _ _ _ _ (free_run (b.1 + 16) _ s Hfind)). rewrite Hap. set (p := pred_of base l1) in *. set (m := u_mem s) in *.
  assert (Ho : ordered l1 /\ ordered l2) by (subst tl; apply ordered_app in K5; tauto). destruct Ho as [Ho1 Ho2].
  assert (Hring : chain (hptr m) (base :: map fst l1) (hd base (map fst l2)) /\ chain (hptr m) (map fst l2) base).
  { subst tl. rewrite map_app in K2. change (base :: map fst l1 ++ map fst l2) with ((base :: map fst l1) ++ map fst l2) in K2. now apply chain_app in K2. }
  destruct Hring as [R1 R2].
  assert (Hnext : hptr m p = hd base (map fst l2)).
  { unfold p, pred_of. induction l1 as [|x l0 _] using rev_ind; [apply R1|]. rewrite last_snoc. rewrite map_app in R1. cbn [map] in R1.
    change (base :: map fst l0 ++ [x.1]) with ((base :: map fst l0) ++ [x.1]) in R1. apply chain_app in R1 as [_ [R1 _]]. exact R1. }
  rewrite Hnext. destruct (join_next_spec m base l2 b R2 B1 B2 ltac:(lia) ltac:(lia) Ho2) as (l2' & z1 & N1 & N2 & N3 & N4 & N5 & N6 & N7).
  { intros y Hy. destruct (Htl y ltac:(set_solver)) as (? & ? & ? & ?). specialize (L2 y Hy). split_and!; [done|done|done|lia]. }
  set (m1 := join_next m b.1 (hd base (map fst l2))) in *.
  assert (Hc1 : forall x, x ∈ l1 -> clear b.1 x.1) by (intros x Hx; specialize (L1 x Hx); destruct (Htl x ltac:(set_solver)) as (_ & ? & _); unfold clear, bend in *; lia).
  assert (Hcb : clear b.1 base) by (unfold clear; lia).
  assert (Hl2' : forall y, y ∈ l2' -> y ∈ l2) by (intros y Hy; destruct N4 as [[-> _]|(s2 & -> & _)]; [done|now right]).
  assert (Hz1 : bend (b.1, z1) <= u_brk s).
  { destruct N4 as [[_ ->]|(s2 & E2 & ->)]; [done|]. destruct (Htl (bend b, s2) ltac:(subst; set_solver)) as (_ & _ & _ & H). unfold bend in *. cbn in *. lia. }
  destruct (join_prev_spec m1 base l1 l2' b.1 z1 (hd base (map fst l2))) as (l1' & node & P1 & P2 & P3 & P4 & P5 & P6); try done; try lia.
  { apply (chain_ext (hptr m)); [|done]. intros a Ha. apply N6. apply elem_of_cons in Ha as [->|Ha]; [done|]. apply list_elem_of_fmap in Ha as [x [-> Hx]]. auto. }
  { rewrite <- K3. now apply N6. }
  { intros x Hx. destruct (Htl x ltac:(set_solver)) as (H1 & H2 & H3 & _). rewrite (proj2 (N6 x.1 (Hc1 x Hx))). auto. }
  { intros y Hy. specialize (N5 y Hy). destruct (Htl y) as (_ & ? & _ & ?); [subst tl; apply elem_of_app; right; auto|]. unfold bend in *. cbn in *. lia. }
  fold p in P3, P5, P6. set (m2 := join_prev m1 p b.1) in *. split; [done|]. exists (l1' ++ node :: l2').
  split; [|split; [exists node; split; [set_solver|lia]|]].
  - apply (heap_joined base tl al b s l1 l2 l1' l2' node p z1 m1 m2 Hk E L1 L2 eq_refl N2 N4 N5 Hz1 P3); try done.
    + intros a Ha. now apply N6.
    + intros a Ha Hb. rewrite (proj2 (P5 a Ha)). now apply N6.
  - intros x Hx Hy Hxb. cbn [u_mem]. rewrite P6; [now apply N7|]. unfold p, pred_of. destruct (last l1) as [y|] eqn:El; [|unfold beyond; lia].
    apply Hy. subst tl. apply elem_of_app. left. now apply last_Some_elem_of.
Qed.

(** ** Taking a block off the list *)

Lemma in_block_clear (x y : block) : 1 <= x.2 -> 1 <= y.2 -> disj x y -> clear x.1 y.1.
Proof. unfold disj, clear, bend. lia. Qed.

Lemma sorted_remove {A} (R : A -> A -> Prop) l1 x l2 : StronglySorted R (l1 ++ x :: l2) -> StronglySorted R (l1 ++ l2).
Proof.
  induction l1 as [|y l1 IH]; cbn; intros Hs; inversion Hs as [|? ? Hs' Hf]; subst; [done|]. constructor; [auto|].
  rewrite Forall_forall in *. intros z Hz. apply Hf. set_solver.
Qed.

Lemma sorted_apart {A} (R : A -> A -> Prop) l x y : StronglySorted R l -> x ∈ l -> y ∈ l -> x = y \/ R x y \/ R y x.
Proof.
  induction 1 as [|z l _ IH Hf]; [set_solver|]. rewrite Forall_forall in Hf. intros Hx Hy.
  apply elem_of_cons in Hx as [->|Hx]; apply elem_of_cons in Hy as [->|Hy]; auto.
Qed.

Lemma heap_disj base tl al s (x y : block) : heap_ok base tl al s -> x ∈ tl ++ al -> y ∈ tl ++ al -> x = y \/ disj x y.
Proof.
  intros [K1 K2 K3 K4 K5 K6 K7 K8 K9] Hx Hy. rewrite !elem_of_app in Hx, Hy. destruct Hx as [Hx|Hx], Hy as [Hy|Hy].
  - destruct (sorted_apart _ tl x y K5 Hx Hy) as [?|[?|?]]; [now left|right; left; lia|right; right; lia].
  - right. now apply K7.
  - right. apply disj_sym. now apply K7.
  - destruct (sorted_apart _ al x y K6 Hx Hy) as [?|[?|?]]; [now left|now right|right; now apply disj_sym].
Qed.

Lemma heap_apart base tl al s a b :
  heap_ok base tl al s -> a ∈ base :: map fst (tl ++ al) -> b ∈ base :: map fst (tl ++ al) -> a = b \/ clear a b.
Proof.
  intros Hk Ha Hb. assert (Hx : forall x, x ∈ tl ++ al -> 1 <= x.2 /\ base + 16 <= x.1) by (intros x Hx; destruct (hk_block _ _ _ _ Hk x Hx) as (_ & ? & ? & _); done).
  apply elem_of_cons in Ha as [->|Ha]; apply elem_of_cons in Hb as [->|Hb]; [now left|..].
  - apply list_elem_of_fmap in Hb as [y [-> Hy]]. destruct (Hx y Hy). right. unfold clear. lia.
  - apply list_elem_of_fmap in Ha as [y [-> Hy]]. destruct (Hx y Hy). right. unfold clear. lia.
  - apply list_elem_of_fmap in Ha as [x [-> Hxi]]. apply list_elem_of_fmap in Hb as [y [-> Hy]].
    destruct (heap_disj _ _ _ _ x y Hk Hxi Hy) as [->|Hd]; [now left|right]. apply in_block_clear; [apply Hx|apply Hx|]; done.
Qed.

Lemma pred_of_nodes base l1 : exists N, base :: map fst l1 = N ++ [pred_of base l1].
Proof.
  unfold pred_of. destruct l1 as [|x l1 _] using rev_ind; [now exists []|]. rewrite last_snoc, map_app. now exists (base :: map fst l1).
Qed.

(** An exact fit: the node is unlinked. *)
Lemma heap_unlink base l1 l2 al (x : block) s prevp :
  heap_ok base (l1 ++ x :: l2) al s -> prevp = pred_of base l1 ->
  heap_ok base (l1 ++ l2) (x :: al) (mk_heap (with_ptr (u_mem s) prevp (hptr (u_mem s) x.1)) prevp (u_brk s)).
Proof.
  intros Hk ->. pose proof Hk as [K1 K2 K3 K4 K5 K6 K7 K8 K9]. set (m := u_mem s) in *. set (p := pred_of base l1).
  assert (Hx : forall y, y ∈ (l1 ++ l2) ++ x :: al -> y ∈ (l1 ++ x :: l2) ++ al) by (intros y; rewrite !elem_of_app, !elem_of_cons; tauto).
  destruct (pred_of_nodes base l1) as [N HN]. fold p in HN.
  assert (Hp : p ∈ base :: map fst ((l1 ++ x :: l2) ++ al)) by (rewrite !map_app, <- !app_assoc, app_comm_cons, HN; set_solver).
  assert (Hd : forall a, a ∈ base :: map fst ((l1 ++ x :: l2) ++ al) -> p = a \/ clear p a) by (intros a Ha; now apply (heap_apart _ _ _ _ _ _ Hk)).
  assert (Hs : StronglySorted Z.lt (base :: map fst (l1 ++ x :: l2))) by (apply nodes_sorted; [done|]; intros y Hy; destruct (K4 y ltac:(set_solver)) as (_ & ? & ? & _); done).
  rewrite map_app in K2, Hs. change (base :: map fst l1 ++ map fst (x :: l2)) with ((base :: map fst l1) ++ x.1 :: map fst l2) in K2, Hs. rewrite HN in K2, Hs.
  apply chain_app in K2 as [R1 [R2 R3]]. cbn [hd] in R1.
  rewrite <- app_assoc in Hs. destruct (sorted_middle _ _ _ Hs) as (HX & HY & _).
  assert (Hin : forall a, a ∈ N \/ a ∈ map fst l2 -> a ∈ base :: map fst ((l1 ++ x :: l2) ++ al)).
  { intros a Ha. rewrite !map_app, <- !app_assoc, app_comm_cons, HN. cbn [map]. rewrite !elem_of_app, !elem_of_cons. tauto. }
  split; cbn [u_mem u_freep u_brk]; [done|..|done].
  - rewrite map_app, app_comm_cons, HN. apply chain_app. split.
    + apply (chain_last (hptr m) _ _ _ x.1); [done| |rewrite R2; apply ptr_with_ptr].
      * intros a Ha. apply ptr_with_ptr_ne. specialize (HX a Ha). destruct (Hd a (Hin a (or_introl Ha))); [lia|done].
      * destruct l2 as [|y l2]; cbn; [lia|]. destruct (K4 y ltac:(set_solver)) as (_ & ? & ? & ?). unfold bend in *. lia.
    + apply (chain_ext (hptr m)); [|done]. intros a Ha. apply ptr_with_ptr_ne.
      specialize (HY a ltac:(set_solver)). destruct (Hd a (Hin a (or_intror Ha))); [lia|done].
  - rewrite size_with_ptr; [done|]. apply Hd. left.
  - intros y Hy. destruct (K4 y (Hx y Hy)) as (? & ? & ? & ?). split; [|done]. rewrite size_with_ptr; [done|]. apply Hd. right. now apply list_elem_of_fmap_2, Hx.
  - now apply (sorted_remove _ l1 x l2).
  - constructor; [done|]. apply Forall_forall. intros y Hy. apply K7; [set_solver|done].
  - intros a y Ha Hy. apply elem_of_cons in Hy as [->|Hy]; [|apply K7; [set_solver|done]].
    apply ordered_app in K5 as (_ & Ho & Hlt). inversion Ho as [|? ? _ Hf]; subst. rewrite Forall_forall in Hf.
    apply elem_of_app in Ha as [Ha|Ha]; [left; specialize (Hlt a x Ha ltac:(left)); lia|right; specialize (Hf a Ha); cbn in Hf; lia].
  - rewrite map_app, app_comm_cons, HN. set_solver.
Qed.

(** A larger node keeps its front part, the block is its tail. *)
Lemma heap_shrink base l1 l2 al (x : block) s prevp n :
  heap_ok base (l1 ++ x :: l2) al s -> prevp ∈ base :: map fst (l1 ++ x :: l2) -> 1 <= n < x.2 ->
  let r := x.1 + 16 * (x.2 - n) in
  heap_ok base (l1 ++ (x.1, x.2 - n) :: l2) ((r, n) :: al) (mk_heap (with_size (with_size (u_mem s) x.1 (x.2 - n)) r n) prevp (u_brk s)).
Proof.
  intros Hk Hp Hn r. pose proof Hk as [K1 K2 K3 K4 K5 K6 K7 K8 K9]. destruct (K4 x ltac:(set_solver)) as (X1 & X2 & X3 & X4).
  assert (Hr : forall y, y ∈ (l1 ++ l2) ++ al -> disj x y).
  { intros y Hy. apply elem_of_app in Hy as [Hy|Hy]; [|apply K7; set_solver]. apply ordered_app in K5 as (_ & Ho & Hlt).
    inversion Ho as [|? ? _ Hf]; subst. rewrite Forall_forall in Hf. cbn in Hf.
    apply elem_of_app in Hy as [Hy|Hy]; [right; specialize (Hlt y x Hy ltac:(left)); lia|left; specialize (Hf y Hy); lia]. }
  assert (Hm : forall y, y ∈ l1 \/ y ∈ l2 \/ y ∈ al -> y ∈ (l1 ++ l2) ++ al) by (intros y; rewrite !elem_of_app; tauto).
  assert (Hc : forall y, y ∈ (l1 ++ l2) ++ al -> clear x.1 y.1 /\ clear r y.1).
  { intros y Hy. destruct (K4 y) as (_ & Y1 & _); [rewrite !elem_of_app, elem_of_cons in *; tauto|]. destruct (Hr y Hy); unfold clear, bend, r in *; lia. }
  assert (Em : map fst (l1 ++ (x.1, x.2 - n) :: l2) = map fst (l1 ++ x :: l2)) by now rewrite !map_app.
  split; cbn [u_mem u_freep u_brk]; rewrite ?Em; try done.
  - apply (chain_ext (hptr (u_mem s))); [|done]. intros a Ha. rewrite !ptr_with_size; [done|..]; (apply elem_of_cons in Ha as [->|Ha]; [right; unfold clear, r; lia|]);
      apply list_elem_of_fmap in Ha as [y [-> Hy]]; (apply elem_of_app in Hy as [Hy|[->|Hy]%elem_of_cons]; [right; apply Hc, Hm; tauto| |right; apply Hc, Hm; tauto]).
    + now left.
    + right. unfold clear, r. lia.
  - rewrite !size_with_size_ne; [done|..]; unfold clear, r; lia.
  - intros y Hy. rewrite elem_of_app, elem_of_app, !elem_of_cons in Hy.
    assert (Hy' : y = (x.1, x.2 - n) \/ y = (r, n) \/ y ∈ (l1 ++ l2) ++ al) by (rewrite !elem_of_app; tauto).
    destruct Hy' as [->|[->|Hy']]; cbn [fst snd].
    + rewrite size_with_size_ne by (unfold clear, r; lia). rewrite size_with_size by (unfold bend in *; lia). unfold bend in *. cbn. lia.
    + rewrite size_with_size by (unfold bend in *; lia). unfold bend, r in *. cbn. lia.
    + destruct (Hc y Hy') as [C1 C2]. rewrite !size_with_size_ne by done. apply K4. rewrite !elem_of_app, elem_of_cons in *. tauto.
  - apply ordered_app in K5 as (Ho1 & Ho & Hlt). inversion Ho as [|? ? Ho2 Hf]; subst. rewrite Forall_forall in Hf. cbn in Hf. apply ordered_app. split; [done|]. split.
    + constructor; [done|]. apply Forall_forall. intros y Hy. specialize (Hf y Hy). unfold bend in *. cbn. lia.
    + intros y z Hy Hz. apply elem_of_cons in Hz as [->|Hz]; [apply (Hlt y x Hy); left|apply Hlt; [done|now right]].
  - constructor; [done|]. apply Forall_forall. intros y Hy. destruct (Hr y (Hm y ltac:(tauto))); unfold disj, bend, r in *; cbn; [left|right]; lia.
  - intros a y Ha Hy. rewrite elem_of_app, elem_of_cons in Ha. apply elem_of_cons in Hy as [->|Hy].
    + destruct Ha as [Ha|[->|Ha]]; [|left; unfold bend, r; cbn; lia|]; (destruct (Hr a (Hm a ltac:(tauto))); unfold disj, bend, r in *; cbn; [right|left]; lia).
    + destruct Ha as [Ha|[->|Ha]]; [apply K7; [apply elem_of_app; tauto|done]| |apply K7; [apply elem_of_app; right; now right|done]]. destruct (Hr y (Hm y ltac:(tauto))); unfold disj, bend, r in *; cbn; [left|right]; lia.
Qed.

Lemma chain_next nx l z a : chain nx l z -> a ∈ l -> nx a = z \/ nx a ∈ tail l.
Proof.
  induction l as [|b l IH]; [set_solver|]. intros [H1 H2] Ha. cbn [tail]. apply elem_of_cons in Ha as [->|Ha].
  - rewrite H1. destruct l; [now left|right; left].
  - destruct (IH H2 Ha) as [H|H]; [now left|right]. destruct l; [set_solver|now right].
Qed.

Lemma chain_inj nx l z a b : chain nx l z -> NoDup l -> z ∉ tail l -> a ∈ l -> b ∈ l -> nx a = nx b -> a = b.
Proof.
  revert a b. induction l as [|c l IH]; [set_solver|]. intros a b [H1 H2] [Hc Hnd]%NoDup_cons Hz. cbn [tail] in Hz.
  assert (Hhd : forall x, x ∈ l -> nx x <> nx c).
  { intros x Hx E. rewrite H1 in E. destruct l as [|d l]; [set_solver|]. cbn [hd] in E. apply NoDup_cons in Hnd as [Hd _].
    destruct (chain_next _ _ _ _ H2 Hx) as [H|H]; rewrite E in H; [subst; apply Hz; left|done]. }
  intros Ha Hb E. apply elem_of_cons in Ha as [->|Ha]; apply elem_of_cons in Hb as [->|Hb]; [done|destruct (Hhd b Hb); congruence|destruct (Hhd a Ha); congruence|].
  apply IH; try done. intros Hz'. apply Hz. destruct l; [set_solver|now right].
Qed.

Lemma heap_nodup base tl al s : heap_ok base tl al s -> NoDup (base :: map fst tl) /\ base ∉ map fst tl.
Proof.
  intros [K1 K2 K3 K4 K5 K6 K7 K8 K9].
  assert (Hs : StronglySorted Z.lt (base :: map fst tl)) by (apply nodes_sorted; [done|]; intros y Hy; destruct (K4 y ltac:(set_solver)) as (_ & ? & ? & _); done).
  assert (Hnd : forall l, StronglySorted Z.lt l -> NoDup l).
  { induction 1 as [|a l _ IH Hf]; constructor; [|done]. rewrite Forall_forall in Hf. intros Ha. specialize (Hf a Ha). lia. }
  pose proof (Hnd _ Hs) as H. split; [done|]. now apply NoDup_cons in H as [? _].
Qed.

Lemma take_run can_grow fuel n prevp p s :
  n <= hsize (u_mem s) p ->
  malloc_loop can_grow (S fuel) n prevp p s =
  if hsize (u_mem s) p =? n then Ok (hplus p 1) (mk_heap (with_ptr (u_mem s) prevp (hptr (u_mem s) p)) prevp (u_brk s))
  else let m1 := with_size (u_mem s) p (u32 (hsize (u_mem s) p - n)) in
       let r := hplus p (hsize m1 p) in
       Ok (hplus r 1) (mk_heap (with_size m1 r n) prevp (u_brk s)).
Proof.
  intros H. cbn [malloc_loop]. unfold bind at 1, size_of at 1, gets at 1. rewrite (proj2 (Z.leb_le _ _) H). now destruct (hsize (u_mem s) p =? n).
Qed.

Lemma wp_take base can_grow tl al s fuel n prevp (x : block) :
  heap_ok base tl al s -> x ∈ tl -> prevp ∈ base :: map fst tl -> hptr (u_mem s) prevp = x.1 -> 1 <= n <= x.2 ->
  wp (malloc_loop can_grow (S fuel) n prevp x.1) (fun r s' => exists tl' b, b.2 = n /\ r = b.1 + 16 /\ heap_ok base tl' (b :: al) s' /\
    forall a, base + 16 <= a -> (forall y, y ∈ tl -> ~ y.1 <= a < bend y) -> u_mem s' a = u_mem s a) s.
Proof.
  intros Hk Hx Hp Hpx Hn. pose proof Hk as [K1 K2 K3 K4 K5 K6 K7 K8 K9]. destruct (K4 x ltac:(set_solver)) as (X1 & X2 & X3 & X4). destruct (heap_nodup _ _ _ _ Hk) as [Hnd Hb].
  pose proof Hx as Hx'. apply list_elem_of_split in Hx' as (l1 & l2 & E). destruct (pred_of_nodes base l1) as [N HN].
  assert (Hpred : prevp = pred_of base l1).
  { apply (chain_inj _ _ _ _ _ K2 Hnd Hb Hp); rewrite E, map_app, app_comm_cons, HN in *; [set_solver|].
    rewrite Hpx. apply chain_app in K2 as [K2 _]. apply chain_app in K2 as [_ [K2 _]]. rewrite K2. done. }
  assert (Hfst : hplus x.1 1 = x.1 + 16) by (unfold hplus, sizeof_header; rewrite u64_small; unfold bend in *; lia).
  unfold wp. rewrite take_run by lia. rewrite X1. destruct (Z.eqb_spec x.2 n) as [En|En].
  - exists (l1 ++ l2), x. split; [done|]. split; [done|]. rewrite E in Hk. split; [now apply heap_unlink|]. intros a Ha Hay. cbn [u_mem]. apply with_ptr_other.
    apply elem_of_cons in Hp as [->|Hp]; [unfold beyond; lia|]. apply list_elem_of_fmap in Hp as [y [-> Hy]].
    destruct (K4 y ltac:(set_solver)) as (_ & Y2 & _). specialize (Hay y Hy). unfold beyond, bend in *. lia.
  - cbn zeta. rewrite (u32_small (x.2 - n)), size_with_size by (unfold bend in *; lia). set (r := hplus x.1 (x.2 - n)).
    assert (Hr : r = x.1 + 16 * (x.2 - n)) by (unfold r, hplus, sizeof_header; apply u64_small; unfold bend in *; lia).
    rewrite E in Hk, Hp. exists (l1 ++ (x.1, x.2 - n) :: l2), (r, n). split; [done|]. split; [unfold hplus, sizeof_header; rewrite u64_small; unfold bend in *; cbn [fst]; lia|].
    split; [rewrite Hr; apply heap_shrink; [done|done|lia]|]. intros a Ha Hay. cbn [u_mem]. specialize (Hay x Hx). unfold bend in Hay.
    rewrite !with_size_other; [done|unfold beyond; lia|unfold beyond; lia].
Qed.

(** ** The walk of [malloc] *)

(** The rest of the list up to [freep] holds a block that is large enough: the walk reaches the first such. *)
Lemma malloc_walk can_grow n (nodes : list Z) fuel prevp l z s Q :
  chain (hptr (u_mem s)) (prevp :: l) z -> (forall a, a ∈ prevp :: l -> a ∈ nodes) -> last l = Some (u_freep s) -> NoDup l -> (length l <= fuel)%nat ->
  (forall f pv a, pv ∈ nodes -> a ∈ nodes -> hptr (u_mem s) pv = a -> n <= hsize (u_mem s) a -> wp (malloc_loop can_grow (S f) n pv a) Q s) ->
  ((forall a, a ∈ l -> hsize (u_mem s) a < n) ->
   wp (let* p := morecore can_grow n in if p =? 0 then ret 0 else let* q := ptr_of p in malloc_loop can_grow (fuel - length l) n p q) Q s) ->
  wp (malloc_loop can_grow fuel n prevp (hd z l)) Q s.
Proof.
  intros Hc Hin Hl Hnd Hf Htake. revert fuel prevp Hc Hin Hl Hnd Hf. induction l as [|a l IH]; intros [|fuel] prevp Hc Hin Hl Hnd Hf Hmore; cbn [length] in Hf; try done; try lia.
  destruct Hc as [H1 H2]. cbn [hd] in *. destruct (Z.le_gt_cases n (hsize (u_mem s) a)) as [Hn|Hn]; [apply Htake; auto; apply Hin; set_solver|].
  cbn [malloc_loop]. apply wp_bind, wp_gets. rewrite (proj2 (Z.leb_gt _ _)) by lia. apply wp_bind, wp_gets.
  apply NoDup_cons in Hnd as [Ha Hnd]. destruct l as [|b l].
  - cbn in Hl. injection Hl as ->. rewrite Z.eqb_refl. cbn [length] in Hmore. replace (S fuel - 1)%nat with fuel in Hmore by lia. apply Hmore. intros c Hc. set_solver.
  - rewrite last_cons_cons in Hl. destruct (Z.eqb_spec a (u_freep s)) as [->|Hne]; [apply last_Some_elem_of in Hl; done|].
    apply wp_bind, wp_gets. destruct H2 as [H2 H3]. rewrite H2. apply IH; [done|set_solver|done|done|lia|].
    intros Hall. cbn [length] in *. apply Hmore. intros c Hc. apply elem_of_cons in Hc as [->|Hc]; [lia|auto].
Qed.

(** ** Growing the heap *)

(** The fresh memory behind the break, with its size set, is an allocated block. *)
Lemma heap_grow base tl al s nu :
  heap_ok base tl al s -> 1 <= nu -> u_brk s + 16 * nu < 2 ^ 36 ->
  heap_ok base tl ((u_brk s, nu) :: al) (mk_heap (with_size (u_mem s) (u_brk s) nu) (u_freep s) (u_brk s + 16 * nu)).
Proof.
  intros [K1 K2 K3 K4 K5 K6 K7 K8 K9] Hn Hb.
  assert (Hc : forall x, x ∈ tl ++ al -> clear (u_brk s) x.1) by (intros x Hx; destruct (K4 x Hx) as (_ & ? & _ & ?); unfold clear, bend in *; lia).
  assert (Hd : forall x, x ∈ tl ++ al -> disj x (u_brk s, nu)) by (intros x Hx; left; destruct (K4 x Hx) as (_ & _ & _ & ?); done).
  split; cbn [u_mem u_freep u_brk]; try done; [..|lia].
  - apply (chain_ext (hptr (u_mem s))); [|done]. intros a Ha. apply ptr_with_size. right. apply elem_of_cons in Ha as [->|Ha]; [unfold clear; lia|].
    apply list_elem_of_fmap in Ha as [x [-> Hx]]. apply Hc, elem_of_app. now left.
  - rewrite size_with_size_ne; [done|unfold clear; lia].
  - intros x Hx. assert (Hx' : x = (u_brk s, nu) \/ x ∈ tl ++ al) by (rewrite !elem_of_app, elem_of_cons in *; tauto). destruct Hx' as [->|Hx']; cbn [fst snd].
    + rewrite size_with_size by lia. unfold bend. cbn. lia.
    + rewrite size_with_size_ne by auto. destruct (K4 x Hx') as (? & ? & ? & ?). split_and!; try done. lia.
  - constructor; [done|]. apply Forall_forall. intros y Hy. apply disj_sym, Hd, elem_of_app. now right.
  - intros x y Hx Hy. apply elem_of_cons in Hy as [->|Hy]; [apply Hd, elem_of_app; now left|now apply K7].
Qed.

(** [morecore] either leaves the heap alone, or puts a block of the wanted size on the free list. *)
Lemma wp_morecore base can_grow tl al s n :
  heap_ok base tl al s -> 1 <= n -> 16 * n < 2 ^ 31 -> (forall b k, can_grow b k = true -> b + k < 2 ^ 36) ->
  wp (morecore can_grow n) (fun p s' =>
    p = 0 /\ s' = s /\ can_grow (u_brk s) (16 * Z.max n 4096) = false \/
    p = u_freep s' /\ u_brk s' = u_brk s + 16 * Z.max n 4096 /\ exists tl', heap_ok base tl' al s' /\ (exists x, x ∈ tl' /\ n <= x.2) /\
      forall x, base + 16 <= x < u_brk s -> (forall y, y ∈ tl -> beyond y.1 x) -> u_mem s' x = u_mem s x) s.
Proof.
  intros Hk Hn Hs Hg. pose proof Hk as [K1 K2 K3 K4 K5 K6 K7 K8 K9]. unfold morecore. replace (if n <? 4096 then 4096 else n) with (Z.max n 4096) by (destruct (Z.ltb_spec n 4096); lia).
  set (nu := Z.max n 4096). assert (Hnu : 4096 <= nu /\ n <= nu /\ 16 * nu < 2 ^ 31) by lia.
  assert (Ei : i32 (nu * sizeof_header) = 16 * nu) by (unfold sizeof_header; rewrite i32_small; lia).
  unfold sbrk. do 2 apply wp_bind. apply wp_gets. rewrite Ei. destruct (can_grow (u_brk s) (16 * nu)) eqn:Eg; [|apply wp_ret, wp_ret; now left].
  specialize (Hg _ _ Eg). apply wp_bind, wp_modify, wp_ret. rewrite (proj2 (Z.eqb_neq (u_brk s) (2 ^ 64 - 1))) by lia.
  apply wp_bind, wp_modify. cbn [set_u_brk set_u_mem u_mem u_freep u_brk]. replace (hplus (u_brk s) 1) with (u_brk s + 16) by (unfold hplus, sizeof_header; rewrite u64_small; lia).
  apply wp_bind. pose proof (wp_free base tl al _ _ (heap_grow base tl al s nu Hk ltac:(lia) ltac:(lia))) as Hf. eapply wp_mono; [exact Hf|].
  intros [] s' (Hb & tl' & Hk' & (x & Hx & Hxn) & Hm). cbn [fst snd u_mem u_brk] in *. apply wp_gets. right. split; [done|]. split; [done|].
  exists tl'. split; [done|]. split; [exists x; split; [done|lia]|]. intros a Ha Hy. rewrite Hm; [|lia|done|unfold beyond; lia]. apply with_size_other. unfold beyond. lia.
Qed.

(** What [malloc] promises when it finds a block. *)
Definition granted (base n : Z) (tl al : list block) (s : heap) (r : Z) (s' : heap) : Prop :=
  exists tl' b, b.2 = n /\ r = b.1 + 16 /\ heap_ok base tl' (b :: al) s' /\
    forall a, base + 16 <= a -> (forall y, y ∈ tl -> ~ y.1 <= a < bend y) -> u_mem s' a = u_mem s a.

(** Once around the list. *)
Lemma malloc_scan base can_grow tl al s n fuel Q :
  heap_ok base tl al s -> (length tl < fuel)%nat -> 1 <= n -> (forall r s', granted base n tl al s r s' -> Q r s') ->
  ((forall x, x ∈ tl -> x.2 < n) ->
   wp (let* p := morecore can_grow n in if p =? 0 then ret 0 else let* q := ptr_of p in malloc_loop can_grow (fuel - S (length tl)) n p q) Q s) ->
  wp (malloc_loop can_grow fuel n (u_freep s) (hptr (u_mem s) (u_freep s))) Q s.
Proof.
  intros Hk Hf Hn HQ Hmore. pose proof Hk as [K1 K2 K3 K4 K5 K6 K7 K8 K9]. destruct (heap_nodup _ _ _ _ Hk) as [Hnd Hb].
  destruct (chain_rotate _ base (map fst tl) (u_freep s) K2 K8) as (rest & Hr & Hp).
  assert (Hin : forall a, a ∈ rest ++ [u_freep s] <-> a ∈ base :: map fst tl) by (intros a; rewrite Hp, elem_of_app, list_elem_of_singleton, elem_of_cons; tauto).
  assert (Hlen : length (rest ++ [u_freep s]) = S (length tl)) by (apply Permutation_length in Hp; cbn [length] in Hp; rewrite length_map in Hp; rewrite length_app; cbn; lia).
  replace (hptr (u_mem s) (u_freep s)) with (hd (hd (u_freep s) rest) (rest ++ [u_freep s])) by (destruct Hr as [-> _]; now destruct rest).
  apply (malloc_walk _ _ (base :: map fst tl)).
  - rewrite app_comm_cons. apply chain_app. split; [done|]. split; [apply Hr|done].
  - intros a Ha. apply elem_of_cons in Ha as [->|Ha]; [done|now apply Hin].
  - apply last_snoc.
  - rewrite Hp in Hnd. apply NoDup_cons in Hnd as [H1 H2]. apply NoDup_app. split; [done|]. split; [intros a Ha ->%list_elem_of_singleton; done|apply NoDup_singleton].
  - lia.
  - intros f pv a Hpv Ha E Hs. apply elem_of_cons in Ha as [->|Ha]; [lia|]. apply list_elem_of_fmap in Ha as [x [-> Hx]].
    eapply wp_mono; [apply (wp_take base can_grow tl al s f n pv x Hk Hx Hpv E)|exact HQ]. destruct (K4 x ltac:(set_solver)) as [H _]. lia.
  - rewrite Hlen. intros Hall. apply Hmore. intros x Hx. destruct (K4 x ltac:(set_solver)) as [<- _]. apply Hall, Hin. right. now apply list_elem_of_fmap_2.
Qed.

(** ** Correctness of [malloc] and [free] *)

(** The heap with the allocated blocks [al] (header address, size in units): before the first [malloc], or with a free list. *)
Definition heap_inv (base : Z) (al : list block) (s : heap) : Prop :=
  (al = [] /\ u_freep s = 0 /\ 0 < base /\ base + 16 <= u_brk s < 2 ^ 36) \/ exists tl, heap_ok base tl al s.

(** The bytes of the blocks [al], headers included, are the same. *)
Definition same_blocks (al : list block) (s s' : heap) : Prop :=
  forall y a, y ∈ al -> y.1 <= a < bend y -> u_mem s' a = u_mem s a.

Lemma outside_free base tl al s (y x : block) a : heap_ok base tl al s -> y ∈ al -> y.1 <= a < bend y -> x ∈ tl -> ~ x.1 <= a < bend x.
Proof. intros Hk Hy Ha Hx. destruct (hk_disj _ _ _ _ Hk x y Hx Hy); lia. Qed.

Lemma granted_same base n tl al s r s' : heap_ok base tl al s -> granted base n tl al s r s' -> same_blocks al s s'.
Proof.
  intros Hk (tl' & b & _ & _ & _ & Hm) y a Hy Ha. destruct (hk_block _ _ _ _ Hk y ltac:(apply elem_of_app; now right)) as (_ & _ & ? & _).
  apply Hm; [lia|]. intros x Hx. now apply (outside_free base tl al s y).
Qed.

(** The outcomes of [malloc] for [n] units. *)
Definition malloc_post (base : Z) (can_grow : Z -> Z -> bool) (n : Z) (al : list block) (s : heap) (r : Z) (s' : heap) : Prop :=
  same_blocks al s s' /\
  (r = 0 /\ (exists tl, heap_ok base tl al s' /\ forall x, x ∈ tl -> x.2 < n) /\ can_grow (u_brk s) (16 * Z.max n 4096) = false \/
   exists tl b, b.2 = n /\ r = b.1 + 16 /\ heap_ok base tl (b :: al) s').

Lemma free_list_length base tl al s : heap_ok base tl al s -> Z.of_nat (length tl) < u_brk s.
Proof.
  intros [K1 K2 K3 K4 K5 K6 K7 K8 K9].
  pose proof (ordered_length tl (base + 16) (u_brk s) ltac:(lia) K5 ltac:(intros x Hx; destruct (K4 x ltac:(apply elem_of_app; now left)) as (_ & ? & ? & ?); done)). lia.
Qed.

Lemma freep_set base tl al s : heap_ok base tl al s -> u_freep s <> 0.
Proof.
  intros [K1 K2 K3 K4 K5 K6 K7 K8 K9]. apply elem_of_cons in K8 as [->|K8]; [lia|].
  apply list_elem_of_fmap in K8 as [z [-> Hz]]. destruct (K4 z ltac:(apply elem_of_app; now left)) as (_ & _ & ? & _). lia.
Qed.

Lemma wp_malloc_loop base can_grow tl al s n fuel :
  heap_ok base tl al s -> 1 <= n -> 16 * n < 2 ^ 31 -> (forall b k, can_grow b k = true -> b + k < 2 ^ 36) -> 2 * (u_brk s + 16 * (n + 4096)) <= Z.of_nat fuel ->
  wp (malloc_loop can_grow fuel n (u_freep s) (hptr (u_mem s) (u_freep s))) (malloc_post base can_grow n al s) s.
Proof.
  intros Hk Hn Hs Hg Hf. pose proof (free_list_length _ _ _ _ Hk) as Hlen. apply (malloc_scan base can_grow tl al); [done|lia|done|..].
  - intros r s' Hgr. split; [now apply (granted_same base n tl al s r)|right]. destruct Hgr as (tl' & b & ? & ? & ? & _). eauto.
  - intros Hsm. apply wp_bind. eapply wp_mono; [apply (wp_morecore base can_grow tl al s n Hk Hn Hs Hg)|].
    intros p s' [(-> & -> & Hno)|(-> & Hb & tl' & Hk' & (x & Hx & Hxn) & Hm)]; [apply wp_ret; split; [done|]; left; eauto|].
    assert (Hsame : same_blocks al s s').
    { intros y a Hy Ha. destruct (hk_block _ _ _ _ Hk y ltac:(apply elem_of_app; now right)) as (_ & _ & ? & ?). apply Hm; [lia|]. intros z Hz.
      pose proof (outside_free base tl al s y z a Hk Hy Ha Hz). destruct (hk_block _ _ _ _ Hk z ltac:(apply elem_of_app; now left)) as (_ & ? & _). unfold beyond, bend in *. lia. }
    rewrite (proj2 (Z.eqb_neq _ _) (freep_set _ _ _ _ Hk')). apply wp_bind, wp_gets. pose proof (free_list_length _ _ _ _ Hk'). apply (malloc_scan base can_grow tl' al); [done|lia|done|..].
    + intros r s2 Hgr. pose proof (granted_same base n tl' al s' r s2 Hk' Hgr) as Hs2. split; [intros y a Hy Ha; rewrite (Hs2 y a Hy Ha); now apply (Hsame y)|right].
      destruct Hgr as (tl2 & b & ? & ? & ? & _). now exists tl2, b.
    + intros Hall. specialize (Hall x Hx). lia.
Qed.

(** [r] is a block of the heap with room for [nbytes], apart from the blocks [al]; or [r] is 0 and the heap could not grow. *)
Definition malloc_served (base : Z) (can_grow : Z -> Z -> bool) (nbytes : Z) (al : list block) (s : heap) (r : Z) (s' : heap) : Prop :=
  r = 0 /\ heap_inv base al s' /\ can_grow (u_brk s) (16 * Z.max (nunits_of nbytes) 4096) = false \/
  exists size, heap_inv base ((r - 16, size) :: al) s' /\ nbytes <= 16 * (size - 1) /\ base + 32 <= r /\ r + nbytes <= u_brk s' /\
    forall y, y ∈ al -> r + nbytes <= y.1 \/ bend y <= r - 16.

Lemma nunits_room nbytes : 0 <= nbytes < 2 ^ 31 - 32 -> nbytes <= 16 * (nunits_of nbytes - 1) /\ 1 <= nunits_of nbytes /\ 16 * nunits_of nbytes < 2 ^ 31.
Proof. intros Hb. unfold nunits_of, sizeof_header. rewrite u32_small; zdiv. Qed.

Lemma malloc_post_served base can_grow nbytes al s r s' :
  0 <= nbytes < 2 ^ 31 - 32 -> malloc_post base can_grow (nunits_of nbytes) al s r s' -> same_blocks al s s' /\ malloc_served base can_grow nbytes al s r s'.
Proof.
  intros Hb [Hsm Hr]. split; [done|]. destruct (nunits_room nbytes Hb) as (N1 & N2 & N3). destruct Hr as [(-> & (tl' & Hk' & _) & Hno)|(tl' & [ba bs] & Hb2 & -> & Hk')].
  - left. split; [done|]. split; [right; eauto|done].
  - right. exists (nunits_of nbytes). cbn [fst snd] in *. replace (ba + 16 - 16) with ba by lia. subst bs. split; [right; eauto|]. split; [done|].
    destruct (hk_block _ _ _ _ Hk' (ba, nunits_of nbytes) ltac:(apply elem_of_app; right; left)) as (_ & _ & B3 & B4). unfold bend in B4. cbn [fst snd] in B3, B4. split; [lia|]. split; [lia|].
    intros y Hy. pose proof (hk_alloc _ _ _ _ Hk') as Ha. inversion Ha as [|? ? _ Hf]; subst. rewrite Forall_forall in Hf. destruct (Hf y Hy) as [H1|H1]; unfold bend in *; cbn [fst snd] in H1; lia.
Qed.

(** C19: [malloc] of fewer than 2 GB on a well-formed heap always returns. It
    leaves every byte of every allocated block alone, and either gives a
    block that has room for the request, lies between the end of the list
    head and the break and overlaps no allocated block, or returns 0 because
    the system refused to grow the heap. Either way the heap stays
    well-formed: the free list is a ring in address order, its blocks are
    disjoint from the allocated ones and from each other, and no two of them
    touch. This includes the first call, which sets the list up. *)
Theorem malloc_correct base can_grow al s nbytes :
  heap_inv base al s -> 0 <= nbytes < 2 ^ 31 - 32 -> (forall b k, can_grow b k = true -> b + k < 2 ^ 36) ->
  wp (malloc base can_grow nbytes) (fun r s' => same_blocks al s s' /\ malloc_served base can_grow nbytes al s r s') s.
Proof.
  intros Hi Hb Hg. destruct (nunits_room nbytes Hb) as (N1 & N2 & N3).
  assert (Hrun : forall tl s0, heap_ok base tl al s0 ->
    wp (malloc_loop can_grow (Z.to_nat (2 * (u_brk s0 + sizeof_header * (nunits_of nbytes + 4096)))) (nunits_of nbytes) (u_freep s0) (hptr (u_mem s0) (u_freep s0)))
      (fun r s' => same_blocks al s0 s' /\ malloc_served base can_grow nbytes al s0 r s') s0).
  { intros tl s0 Hk. unfold sizeof_header. pose proof (hk_base _ _ _ _ Hk). pose proof (hk_brk _ _ _ _ Hk).
    eapply wp_mono; [apply (wp_malloc_loop base can_grow tl al s0); try done; lia|]. intros r s'. now apply malloc_post_served. }
  unfold malloc. apply wp_bind, wp_gets, wp_bind. destruct Hi as [(-> & Ef & Hbase & Hbrk)|[tl Hk]].
  - rewrite Ef. cbn [Z.eqb]. do 3 (apply wp_bind, wp_modify). apply wp_ret. do 2 (apply wp_bind, wp_gets).
    eapply wp_mono; [apply (Hrun [])|intros r s' [_ H]; split; [intros y a Hy; set_solver|exact H]].
    split; cbn [set_u_mem set_u_freep u_mem u_freep u_brk map app chain hd]; try done; [|now apply size_with_size|set_solver|constructor|constructor|set_solver|left].
    split; [|done]. rewrite ptr_with_size by now left. apply ptr_with_ptr. lia.
  - rewrite (proj2 (Z.eqb_neq _ _) (freep_set _ _ _ _ Hk)). apply wp_ret. do 2 (apply wp_bind, wp_gets). now apply (Hrun tl).
Qed.

Lemma sorted_perm {A} (R : A -> A -> Prop) l l' : (forall x y, R x y -> R y x) -> l ≡ₚ l' -> StronglySorted R l -> StronglySorted R l'.
Proof.
  intros Hsym. induction 1 as [|x l l' Hp IH|x y l|l1 l2 l3 _ IH1 _ IH2]; intros Hs; [done|..|auto].
  - inversion Hs as [|? ? H1 H2]; subst. constructor; [auto|]. now rewrite <- Hp.
  - inversion Hs as [|? ? H1 H2]; subst. inversion H1 as [|? ? H3 H4]; subst. inversion H2; subst. repeat constructor; auto.
Qed.

(** The order in which the allocated blocks are listed does not matter. *)
Lemma heap_ok_perm base tl al al' s : al ≡ₚ al' -> heap_ok base tl al s -> heap_ok base tl al' s.
Proof.
  intros Hp [K1 K2 K3 K4 K5 K6 K7 K8 K9]. split; try done.
  - intros x Hx. apply K4. rewrite elem_of_app in *. now rewrite Hp.
  - apply (sorted_perm _ al); [|done|done]. intros x y. apply disj_sym.
  - intros x y Hx Hy. apply K7; [done|]. now rewrite Hp.
Qed.

(** C20: [free] of any allocated block always returns, keeps the heap
    well-formed with exactly that block no longer allocated, changes no byte
    of the other allocated blocks, and leaves on the free list one block at
    least as large as the freed one (it is merged with the neighbours it
    touches), so that the space can be allocated again. *)
Theorem free_correct base al1 (b : block) al2 s :
  heap_inv base (al1 ++ b :: al2) s ->
  wp (free (b.1 + 16)) (fun _ s' =>
    u_brk s' = u_brk s /\ same_blocks (al1 ++ al2) s s' /\
    exists tl, heap_ok base tl (al1 ++ al2) s' /\ exists x, x ∈ tl /\ b.2 <= x.2) s.
Proof.
  intros [[E _]|[tl Hk]]; [now destruct al1|]. apply (heap_ok_perm _ _ _ (b :: al1 ++ al2)) in Hk; [|now rewrite Permutation_middle].
  eapply wp_mono; [apply (wp_free base tl (al1 ++ al2) b s Hk)|]. intros [] s' (Hb & tl' & Hk' & Hx & Hm). split; [done|]. split; [|eauto].
  intros y a Hy Ha. destruct (hk_block _ _ _ _ Hk y ltac:(apply elem_of_app; right; now right)) as (_ & _ & ? & _).
  destruct (hk_block _ _ _ _ Hk b ltac:(apply elem_of_app; right; left)) as (_ & B2 & _). apply Hm; [lia|..].
  - intros z Hz. pose proof (outside_free base tl _ s y z a Hk ltac:(now right) Ha Hz).
    destruct (hk_block _ _ _ _ Hk z ltac:(apply elem_of_app; now left)) as (_ & ? & _). unfold beyond, bend in *. lia.
  - pose proof (hk_alloc _ _ _ _ Hk) as Hal. inversion Hal as [|? ? _ Hf]; subst. rewrite Forall_forall in Hf.
    destruct (Hf y Hy); unfold beyond, bend in *; lia.
Qed.

(** [sbrk] takes an [int]: from 2 GB on, [morecore]'s [nu * sizeof(Header)]
    is negative there, and the heap shrinks where it should grow. *)
Lemma morecore_shrinks can_grow nbytes s :
  2 ^ 31 <= nbytes < 2 ^ 32 - 32 -> can_grow (u_brk s) (16 * nunits_of nbytes - 2 ^ 32) = true ->
  sbrk can_grow (nunits_of nbytes * sizeof_header) s = Ok (u_brk s) (set_u_brk (u_brk s + (16 * nunits_of nbytes - 2 ^ 32)) s) /\
  16 * nunits_of nbytes - 2 ^ 32 < 0.
Proof.
  intros Hb Hg. assert (Hn : nunits_of nbytes = (nbytes + 15) / 16 + 1) by (unfold nunits_of, sizeof_header; rewrite u32_small; zdiv).
  assert (Ei : i32 (nunits_of nbytes * sizeof_header) = 16 * nunits_of nbytes - 2 ^ 32) 
    by (unfold i32, sgn, sizeof_header; rewrite Z.mod_small by zdiv; destruct (Z.ltb_spec (nunits_of nbytes * 16) (2 ^ (32 - 1))); zdiv).
  split; [|zdiv]. unfold sbrk, bind, gets. now rewrite Ei, Hg.
Qed.

(** ** Witnesses *)

Definition heap0 : heap := mk_heap (fun _ => 0) 0 16384.

Lemma malloc_correct_witness :
  heap_inv 4096 [] heap0 /\
  wp (malloc 4096 (fun b k => b + k <? 2 ^ 30) 100) (fun r s' => same_blocks [] heap0 s' /\ malloc_served 4096 (fun b k => b + k <? 2 ^ 30) 100 [] heap0 r s') heap0.
Proof.
  assert (H : heap_inv 4096 [] heap0) by (left; cbn; repeat split; lia). split; [exact H|].
  apply (malloc_correct 4096 (fun b k => b + k <? 2 ^ 30) [] heap0 100 H); [lia|]. intros b k Hk. apply Z.ltb_lt in Hk. lia.
Defined.

(** A list head at 4096 and one allocated block of three units at 8192. *)
Definition heap1 : heap := mk_heap (with_size (with_size (with_ptr (fun _ => 0) 4096 4096) 4096 0) 8192 3) 4096 16384.

Lemma heap1_ok : heap_inv 4096 [(8192, 3)] heap1.
Proof.
  right. exists []. split; cbn [heap1 u_freep u_brk]; [lia|split; [vm_compute; reflexivity|exact I]|vm_compute; reflexivity| |constructor|repeat constructor|set_solver|left|lia].
  intros x ->%list_elem_of_singleton. split; [vm_compute; reflexivity|]. unfold bend. cbn. lia.
Qed.

Lemma free_correct_witness :
  heap_inv 4096 [(8192, 3)] heap1 /\
  wp (free (8192 + 16)) (fun _ s' => u_brk s' = u_brk heap1 /\ same_blocks [] heap1 s' /\ exists tl, heap_ok 4096 tl [] s' /\ exists x, x ∈ tl /\ 3 <= x.2) heap1.
Proof. split; [exact heap1_ok|]. exact (free_correct 4096 [] (8192, 3) [] heap1 heap1_ok). Defined.
