(* ===== verification/User.v ===== *)
(** * User programs: the system call interface (user/user.h, user/usys.pl) and the
    library routines that use it (user/ulib.c, user/printf.c)

    A user program is an interaction tree whose events are the system calls; its own
    computation is ordinary Rocq code.  A call's result carries what the kernel
    stores into the caller's buffers.  Strings are the lists of their bytes before
    the terminating NUL. *)

From stdpp Require Import base numbers list gmap strings.
From ITree Require Import Core.ITreeDefinition.
From S2P Require Import Prelude Kstate Kstring Printf.

(** The fields of [struct stat]. *)
Record stat := mk_stat { st_dev : Z; st_ino : Z; st_type : Z; st_nlink : Z; st_size : Z }.

(** A string argument: its bytes, or an address at which the kernel is to find it. *)
Inductive ustr := Str (bs : list Z) | At (addr : Z).

Inductive sysE : Type -> Type :=
| Fork : sysE Z
| Exit (status : Z) : sysE Empty_set
| Wait : sysE (Z * Z)  (* pid, exit status *)
| Pipe : sysE (Z * (Z * Z))
| Write (fd : Z) (bs : list Z) : sysE Z
| Read (fd n : Z) : sysE (Z * list Z)
| Close (fd : Z) : sysE Z
| Kill (pid : Z) : sysE Z
| Exec (path : list Z) (argv : list (list Z)) : sysE Z
| Open (path : list Z) (mode : Z) : sysE Z
| Mknod (path : list Z) (major minor : Z) : sysE Z
| Unlink (path : list Z) : sysE Z
| Fstat (fd : Z) : sysE (Z * stat)
| Link (old new : list Z) : sysE Z
| Mkdir (path : list Z) : sysE Z
| Chdir (path : list Z) : sysE Z
| Dup (fd : Z) : sysE Z
| Getpid : sysE Z
| Sbrk (n : Z) : sysE Z
| Sleep (n : Z) : sysE Z
| Uptime : sysE Z
(* the same calls with an address of the program's choice *)
| WriteAt (fd addr n : Z) : sysE Z
| ReadAt (fd addr n : Z) : sysE Z
| OpenAt (path : ustr) (mode : Z) : sysE Z
| UnlinkAt (path : ustr) : sysE Z
| LinkAt (old new : ustr) : sysE Z
| ExecAt (path : ustr) (argv : list ustr) : sysE Z
| PipeAt (fds : Z) : sysE Z
(* the program's own accesses to its address space, which can fault *)
| Load (addr : Z) : sysE Z
| Store (addr v : Z) : sysE unit
| GetSp : sysE Z  (* r_sp *)
| Undefined : sysE Empty_set.  (* undefined behaviour of the program itself *)

Definition uprog (A : Type) : Type := itree sysE A.

Notation "'let!' x ':=' c 'in' k" := (ITree.bind c (fun x => k))
  (at level 200, x pattern, c at level 100, k at level 200, right associativity).
Notation "c ';!' k" := (ITree.bind c (fun _ => k)) (at level 100, right associativity).

Definition sys {X} (e : sysE X) : uprog X := ITree.trigger e.
Definition uret {A} (a : A) : uprog A := Ret a.
Definition exit {A} (n : Z) : uprog A := Vis (Exit n) (fun x : Empty_set => match x with end).
Definition crash {A} : uprog A := Vis Undefined (fun x : Empty_set => match x with end).

(** [for(x in l) body], and [while(1) body] with the loop's variables as its state. *)
Fixpoint each {B} (l : list B) (body : B -> uprog unit) : uprog unit :=
  match l with
  | [] => uret tt
  | x :: l' => body x ;! each l' body
  end.
Definition loop {I R} (body : I -> uprog (I + R)) : I -> uprog R := ITree.iter body.
Definition continue {I R} (i : I) : uprog (I + R) := Ret (inl i).
Definition break {I R} (r : R) : uprog (I + R) := Ret (inr r).

(** A variable that may not have a value yet; using it then is undefined. *)
Definition the {A} (x : option A) : uprog A := match x with Some a => uret a | None => crash end.
(** [wait(&x)], which leaves [x] as it was when it fails: the result and [x]. *)
Definition wait_in (x : option Z) : uprog (Z * option Z) :=
  let! (r, st) := sys Wait in uret (r, if r <? 0 then x else Some st).
(** [int x; wait(&x);] and the use of [x] that follows. *)
Definition wait_status : uprog (option Z) := let! (_, x) := wait_in None in uret x.

(** ** printf.c *)

Definition putc (fd c : Z) : uprog unit := sys (Write fd [u8 c]) ;! uret tt.

Definition digits_upper : list Z := bytes "0123456789ABCDEF".
Definition udigit (d : Z) : Z := digits_upper !!! Z.to_nat d.

Definition uprintint_buf (xx base : Z) (sgn : bool) : list Z :=
  let neg := sgn && (xx <? 0) in
  let x := u32 (if neg then - xx else xx) in
  digits_by udigit 32 x base ++ (if neg then [45] else []).
(** What [printint] and [printptr] pass to [putc], in order. *)
Definition uprintint (xx base : Z) (sgn : bool) : list Z := rev (uprintint_buf xx base sgn).

Fixpoint uprintptr_digits (n : nat) (x : Z) : list Z :=
  match n with
  | O => []
  | S n' => udigit (Z.shiftr x 60) :: uprintptr_digits n' (u64 (Z.shiftl x 4))
  end.
Definition uprintptr (x : Z) : list Z := 48 :: 120 :: uprintptr_digits 16 x.

(** The branches of [vprintf] in state ['%'] at byte [c]: what they print, and the
    arguments left.  [None]: the next argument does not have the type asked for. *)
Definition conversion (c : Z) (ap : list va) : option (list Z * list va) :=
  if c =? 100 then match ap with VInt z :: ap' => Some (uprintint z 10 true, ap') | _ => None end
  else if c =? 108 then match ap with VPtr z :: ap' => Some (uprintint (i32 z) 10 false, ap') | _ => None end
  else if c =? 120 then match ap with VInt z :: ap' => Some (uprintint z 16 false, ap') | _ => None end
  else if c =? 112 then match ap with VPtr z :: ap' => Some (uprintptr z, ap') | _ => None end
  else if c =? 115 then
    match ap with VStr s :: ap' => Some (match s with Some l => l | None => bytes "(null)" end, ap') | _ => None end
  else if c =? 99 then match ap with VInt z :: ap' => Some ([z], ap') | _ => None end
  else if c =? 37 then Some ([c], ap)
  else Some ([37; c], ap).

(** The loop of [vprintf]; after a [%] it is in state ['%'] for one byte. *)
Fixpoint vprintf (fd : Z) (fmt : list Z) (ap : list va) : uprog unit :=
  match fmt with
  | [] => uret tt
  | c :: fmt' =>
      if c =? 37 then
        match fmt' with
        | [] => uret tt
        | c' :: rest =>
            match conversion c' ap with
            | Some (bs, ap') => each bs (putc fd) ;! vprintf fd rest ap'
            | None => crash
            end
        end
      else putc fd c ;! vprintf fd fmt' ap
  end.
Definition fprintf (fd : Z) (fmt : string) (ap : list va) : uprog unit := vprintf fd (bytes fmt) ap.
Definition uprintf (fmt : string) (ap : list va) : uprog unit := vprintf 1 (bytes fmt) ap.

(** ** ulib.c: the routines that call the kernel *)

(** [gets(buf, max)]: the bytes before the NUL it stores. *)
Fixpoint gets_loop (room : nat) (buf : list Z) : uprog (list Z) :=
  match room with
  | O => uret buf
  | S room' =>
      let! (cc, bs) := sys (Read 0 1) in
      if cc <? 1 then uret buf else
      let c := bs !!! 0%nat in
      if (c =? 10) || (c =? 13) then uret (buf ++ [c]) else gets_loop room' (buf ++ [c])
  end.
Definition gets (max : Z) : uprog (list Z) := gets_loop (Z.to_nat (max - 1)) [].

Definition stat_of (n : list Z) : uprog (Z * stat) :=
  let! fd := sys (Open n 0) in
  if fd <? 0 then uret (-1, mk_stat 0 0 0 0 0) else
  let! r := sys (Fstat fd) in
  sys (Close fd) ;! uret r.

(** ** Total correctness of a program against a kernel

    [handle e w x w'] says that the kernel may answer call [e] in world [w] with [x]
    and world [w'].  [must Q t w]: whatever the kernel answers, the program ends, and
    [Q] holds of how it ends.  A call that can neither return nor end the program
    (undefined behaviour among them) satisfies nothing. *)

Inductive uend (A : Type) :=
| Returned (a : A)
| Exited (status : Z)
| Replaced (path : list Z) (argv : list (list Z)).
Arguments Returned {A}. Arguments Exited {A}. Arguments Replaced {A}.

(** The bytes the program knows of a string. *)
Definition seen (a : ustr) : list Z := match a with Str bs => bs | At _ => [] end.

(** How a call can end the program instead of returning. *)
Definition ends {A X} (e : sysE X) : option (uend A) :=
  match e with
  | Exit n => Some (Exited n)
  | Exec path argv => Some (Replaced path argv)
  | ExecAt path argv => Some (Replaced (seen path) (map seen argv))
  | _ => None
  end.

(** The rest of a program that ended in [r], with [k] to follow. *)
Definition then_end {A B} (r : uend A) (next : A -> Prop) (stop : uend B -> Prop) : Prop :=
  match r with
  | Returned a => next a
  | Exited n => stop (Exited n)
  | Replaced p a => stop (Replaced p a)
  end.

Section semantics.
Context {W : Type} (handle : forall X, sysE X -> W -> X -> W -> Prop).

Inductive must {A} (Q : uend A -> W -> Prop) (t : uprog A) (w : W) : Prop :=
| must_ret a : observe t = RetF a -> Q (Returned a) w -> must Q t w
| must_tau t' : observe t = TauF t' -> must Q t' w -> must Q t w
| must_sys X (e : sysE X) k :
    observe t = VisF e k ->
    (exists x w', handle X e w x w') \/ is_Some (ends (A := A) e) ->
    (forall x w', handle X e w x w' -> must Q (k x) w') ->
    (forall r, ends e = Some r -> Q r w) ->
    must Q t w.

Lemma must_mono {A} (Q Q' : uend A -> W -> Prop) t w :
  must Q t w -> (forall r w', Q r w' -> Q' r w') -> must Q' t w.
Proof.
  intros H HQ. induction H as [t w a E Hq|t w t' E _ IH|t w X e k E Hp _ IH Hr].
  - exact (must_ret _ _ _ a E (HQ _ _ Hq)).
  - exact (must_tau _ _ _ t' E IH).
  - apply (must_sys _ _ _ X e k E Hp IH). auto.
Qed.

Lemma observe_bind {A B} (t : uprog A) (k : A -> uprog B) :
  observe (ITree.bind t k) =
    match observe t with
    | RetF a => observe (k a)
    | TauF t' => TauF (ITree.bind t' k)
    | VisF e h => VisF e (fun x => ITree.bind (h x) k)
    end.
Proof.
  transitivity (observe match observe t with
    | RetF a => k a
    | TauF t' => Tau (ITree.bind t' k)
    | VisF e h => Vis e (fun x => ITree.bind (h x) k) end); [reflexivity|].
  now destruct (observe t).
Qed.

Lemma must_observe {A} (Q : uend A -> W -> Prop) t t' w : observe t = observe t' -> must Q t w -> must Q t' w.
Proof.
  intros E H. destruct H as [a E' Hq|t1 E' H|X e k E' Hp H Hr]; rewrite E in E'.
  - exact (must_ret _ _ _ a E' Hq).
  - exact (must_tau _ _ _ t1 E' H).
  - exact (must_sys _ _ _ X e k E' Hp H Hr).
Qed.

Lemma must_bind {A B} (Q : uend B -> W -> Prop) (t : uprog A) (k : A -> uprog B) w :
  must (fun r w' => then_end r (fun a => must Q (k a) w') (fun r' => Q r' w')) t w ->
  must Q (ITree.bind t k) w.
Proof.
  intros H. induction H as [t w a E Hq|t w t' E _ IH|t w X e h E Hp _ IH Hr].
  - refine (must_observe _ _ _ _ _ Hq). now rewrite observe_bind, E.
  - refine (must_tau _ _ _ (ITree.bind t' k) _ IH). now rewrite observe_bind, E.
  - refine (must_sys _ _ _ X e (fun x => ITree.bind (h x) k) _ _ IH _); [now rewrite observe_bind, E| |].
    + destruct Hp as [?|[r Hr']]; [now left|right]. destruct e; now try discriminate; eexists.
    + intros r Er. destruct e; try discriminate; injection Er as <-; exact (Hr _ eq_refl).
Qed.

Lemma must_uret {A} (Q : uend A -> W -> Prop) a w : Q (Returned a) w -> must Q (uret a) w.
Proof. intros H. exact (must_ret Q (uret a) w a eq_refl H). Qed.

Lemma must_exit {A} (Q : uend A -> W -> Prop) n w : Q (Exited n) w -> must Q (exit n) w.
Proof.
  intros H. refine (must_sys Q (exit n) w _ (Exit n) _ eq_refl _ _ _); [right; now eexists|now intros []|].
  intros r [= <-]. exact H.
Qed.

(** A call that only returns. *)
Lemma must_call {X} (Q : uend X -> W -> Prop) (e : sysE X) w :
  ends (A := X) e = None -> (exists x w', handle X e w x w') ->
  (forall x w', handle X e w x w' -> Q (Returned x) w') -> must Q (sys e) w.
Proof.
  intros He Hp H. refine (must_sys Q (sys e) w _ e _ eq_refl (or_introl Hp) _ _).
  - intros x w' Hh. now apply must_uret, H.
  - intros r Hr. congruence.
Qed.

Lemma must_loop {I R} (Q : uend R -> W -> Prop) (body : I -> uprog (I + R)) i w :
  must (fun r w' => then_end r (fun lr => match lr with
    | inl i' => must Q (loop body i') w'
    | inr a => Q (Returned a) w' end) (fun r' => Q r' w')) (body i) w ->
  must Q (loop body i) w.
Proof.
  intros H. refine (must_observe _ (ITree.bind (body i) (fun lr => match lr with inl l => Tau (loop body l) | inr a => Ret a end)) (loop body i) w eq_refl _).
  apply must_bind. apply (must_mono _ _ _ _ H). intros [[i'|a]|n|p a] w' Hr; try exact Hr; cbn in *.
  - exact (must_tau Q (Tau (loop body i')) w' (loop body i') eq_refl Hr).
  - now apply must_uret.
Qed.

(** A loop over a list, with an invariant on what is left of it. *)
Lemma must_each {B} (I : list B -> W -> Prop) (Q : uend unit -> W -> Prop) body : forall l w,
  I l w ->
  (forall x l' w', I (x :: l') w' -> must (fun r w'' => then_end r (fun _ => I l' w'') (fun r' => Q r' w'')) (body x) w') ->
  (forall w', I [] w' -> Q (Returned tt) w') -> must Q (each l body) w.
Proof.
  induction l as [|x l IH]; intros w Hi Hb Hq; cbn [each].
  - apply must_uret. auto.
  - apply must_bind. apply (must_mono _ _ _ _ (Hb x l w Hi)). intros [[]|n|p a] w' Hr; try exact Hr. now apply IH.
Qed.
End semantics.

(** ** Printing

    A kernel that takes what is written to [fd]; [out bs w w'] is the effect of [bs] on
    the world. *)
Class Console {W} (handle : forall X, sysE X -> W -> X -> W -> Prop) (fd : Z) (out : list Z -> W -> W -> Prop) : Prop := {
  out_nil w : out [] w w;
  out_app b1 b2 w1 w2 w3 : out b1 w1 w2 -> out b2 w2 w3 -> out (b1 ++ b2) w1 w3;
  must_out bs (Q : uend Z -> W -> Prop) w :
    (forall r w', out bs w w' -> Q (Returned r) w') -> must handle Q (sys (Write fd bs)) w }.

(** What [vprintf] prints. *)
Fixpoint format (fmt : list Z) (ap : list va) : option (list Z) :=
  match fmt with
  | [] => Some []
  | c :: fmt' =>
      if c =? 37 then
        match fmt' with
        | [] => Some []
        | c' :: rest => '(bs, ap') ← conversion c' ap; out ← format rest ap'; Some (map u8 bs ++ out)
        end
      else out ← format fmt' ap; Some (u8 c :: out)
  end.

Section print.
Context {W : Type} (handle : forall X, sysE X -> W -> X -> W -> Prop) (fd : Z) (out : list Z -> W -> W -> Prop).
Context `{!Console handle fd out}.

Lemma must_putc c (Q : uend unit -> W -> Prop) w :
  (forall w', out [u8 c] w w' -> Q (Returned tt) w') -> must handle Q (putc fd c) w.
Proof.
  intros H. unfold putc. apply must_bind, must_out. intros r w' Hw. cbn. now apply must_uret, H.
Qed.

Lemma must_puts l (Q : uend unit -> W -> Prop) w :
  (forall w', out (map u8 l) w w' -> Q (Returned tt) w') -> must handle Q (each l (putc fd)) w.
Proof.
  intros H. apply (must_each _ (fun l' w' => exists l0, l = l0 ++ l' /\ out (map u8 l0) w w')).
  - exists []. split; [done|apply out_nil].
  - intros x l' w' (l0 & -> & Hw). apply must_putc. intros w'' Hw'. exists (l0 ++ [x]). rewrite <- app_assoc. split; [done|].
    rewrite map_app. exact (out_app _ _ _ _ _ Hw Hw').
  - intros w' (l0 & E & Hw). rewrite app_nil_r in E. subst. auto.
Qed.

Lemma must_print fmt ap bs (Q : uend unit -> W -> Prop) w :
  format fmt ap = Some bs -> (forall w', out bs w w' -> Q (Returned tt) w') -> must handle Q (vprintf fd fmt ap) w.
Proof.
  remember (length fmt) as n eqn:Hn. apply eq_sym, Nat.eq_le_incl in Hn. revert fmt ap bs Q w Hn.
  induction n as [|n IH]; intros fmt ap bs Q w Hn Hf HQ.
  - destruct fmt; [|cbn in Hn; lia]. injection Hf as <-. apply must_uret, HQ, out_nil.
  - destruct fmt as [|c fmt]; [injection Hf as <-; apply must_uret, HQ, out_nil|]. cbn [length format vprintf] in *.
    destruct (c =? 37).
    + destruct fmt as [|c' fmt]; [injection Hf as <-; apply must_uret, HQ, out_nil|].
      apply bind_Some in Hf as ([b1 ap'] & E1 & Hf). rewrite E1. apply bind_Some in Hf as (b2 & E2 & [= <-]).
      apply must_bind, must_puts. intros w1 H1. cbn [then_end length] in *. apply (IH fmt ap' b2); [lia|done|].
      intros w2 H2. apply HQ. exact (out_app _ _ _ _ _ H1 H2).
    + apply bind_Some in Hf as (b2 & E2 & [= <-]). apply must_bind, must_putc. intros w1 H1. cbn [then_end] in *.
      apply (IH fmt ap b2); [lia|done|]. intros w2 H2. apply HQ. exact (out_app [u8 c] _ _ _ _ H1 H2).
Qed.
End print.

(** ** The kernel as the filters see it: byte streams

    Each descriptor open for reading has bytes still to come, each descriptor has the
    bytes written so far.  A read gives any non-empty piece of at most the size asked
    for, and nothing at the end; a write takes everything.  Either may fail at any
    time, which [w_fault] records. *)
Record world := mk_world {
  w_files : list Z -> option (list Z);
  w_in : gmap Z (list Z);
  w_out : Z -> list Z;
  w_fault : bool }.

Definition put_in (fd : Z) (bs : list Z) (w : world) : world :=
  mk_world (w_files w) (<[fd := bs]> (w_in w)) (w_out w) (w_fault w).
Definition put_out (fd : Z) (bs : list Z) (w : world) : world :=
  mk_world (w_files w) (w_in w) (fun f => if f =? fd then w_out w f ++ bs else w_out w f) (w_fault w).
Definition faulted (w : world) : world := mk_world (w_files w) (w_in w) (w_out w) true.
Definition drop_fd (fd : Z) (w : world) : world := mk_world (w_files w) (delete fd (w_in w)) (w_out w) (w_fault w).

Definition streams (X : Type) (e : sysE X) : world -> X -> world -> Prop :=
  match e with
  | Read fd n => fun w x w' =>
      (exists bs rest, w_in w !! fd = Some (bs ++ rest) /\ bs <> [] /\ Z.of_nat (length bs) <= n /\
         x = (Z.of_nat (length bs), bs) /\ w' = put_in fd rest w) \/
      ((w_in w !! fd = Some [] \/ n = 0) /\ x = (0, []) /\ w' = w) \/
      (x = (-1, []) /\ w' = faulted w)
  | Write fd bs => fun w x w' =>
      (x = Z.of_nat (length bs) /\ w' = put_out fd bs w) \/
      (x = -1 /\ exists pre, pre `prefix_of` bs /\ w' = faulted (put_out fd pre w))
  | Open path _ => fun w x w' =>
      (exists d, w_files w path = Some d /\ 0 <= x /\ w_in w !! x = None /\ w' = put_in x d w) \/
      (x = -1 /\ w' = w)
  | Close fd => fun w x w' => x = 0 /\ w' = drop_fd fd w
  | _ => fun _ _ _ => False
  end.

(** Writing and not looking at the result, as [printf] does: the output grows by the
    bytes, unless something fails. *)
Definition wrote (fd : Z) (bs : list Z) (w w' : world) : Prop :=
  w_files w' = w_files w /\ w_in w' = w_in w /\ (w_fault w = true -> w_fault w' = true) /\
  (forall f, f <> fd -> w_out w' f = w_out w f) /\
  (w_fault w' = false -> w_out w' fd = w_out w fd ++ bs).

Lemma wrote_nil fd w : wrote fd [] w w.
Proof. repeat split; auto. intros _. now rewrite app_nil_r. Qed.

Lemma wrote_app fd b1 b2 w1 w2 w3 : wrote fd b1 w1 w2 -> wrote fd b2 w2 w3 -> wrote fd (b1 ++ b2) w1 w3.
Proof.
  intros (A1 & A2 & A3 & A4 & A5) (B1 & B2 & B3 & B4 & B5). split; [congruence|]. split; [congruence|]. split; [auto|].
  split; [intros f Hf; rewrite B4, A4; auto|]. intros Hf. rewrite B5 by done.
  rewrite A5; [now rewrite app_assoc|]. destruct (w_fault w2); [|done]. now rewrite B3 in Hf.
Qed.

Lemma must_write fd bs (Q : uend Z -> world -> Prop) w :
  (forall r w', wrote fd bs w w' ->
     (r = Z.of_nat (length bs) /\ w_fault w' = w_fault w) \/ (r = -1 /\ w_fault w' = true) -> Q (Returned r) w') ->
  must streams Q (sys (Write fd bs)) w.
Proof.
  intros H. apply must_call; [done|do 2 eexists; left; done|]. intros x w' [[-> ->]|[-> (pre & _ & ->)]]; apply H; try done; auto.
  - repeat split; auto; cbn; intros; [now rewrite (proj2 (Z.eqb_neq _ _))|now rewrite Z.eqb_refl].
  - repeat split; auto; cbn; intros; [now rewrite (proj2 (Z.eqb_neq _ _))|done].
Qed.

#[export] Instance streams_console fd : Console streams fd (wrote fd).
Proof.
  split; [apply wrote_nil|intros *; apply wrote_app|]. intros bs Q w HQ. apply must_write. intros r w' Hw _. now apply HQ.
Qed.

(** From [w] to [w'], [fd] was read up to [rest] and [bs] was written to the standard
    output, as far as nothing failed. *)
Definition fed (fd : Z) (rest bs : list Z) (w w' : world) : Prop := wrote 1 bs (put_in fd rest w) w'.

Lemma fed_read fd rest w : fed fd rest [] w (put_in fd rest w).
Proof. apply wrote_nil. Qed.

Lemma fed_same fd d w : w_in w !! fd = Some d -> fed fd d [] w w.
Proof. intros H. repeat split; try done; [cbn; now rewrite insert_id|intros _; now rewrite app_nil_r]. Qed.

Lemma fed_left fd rest bs w w' : fed fd rest bs w w' -> w_in w' !! fd = Some rest.
Proof. intros (_ & E & _). rewrite E. apply lookup_insert_eq. Qed.

Lemma fed_app fd r1 r2 b1 b2 w1 w2 w3 : fed fd r1 b1 w1 w2 -> fed fd r2 b2 w2 w3 -> fed fd r2 (b1 ++ b2) w1 w3.
Proof.
  intros (A1 & A2 & A3 & A4 & A5) (B1 & B2 & B3 & B4 & B5). unfold fed, wrote. cbn in *. split; [congruence|]. split; [rewrite B2, A2; apply insert_insert_eq|].
  split; [auto|]. split; [intros f Hf; rewrite B4, A4; auto|]. intros Hf. rewrite B5 by done.
  rewrite A5; [now rewrite app_assoc|]. destruct (w_fault w2); [|done]. now rewrite B3 in Hf.
Qed.

Lemma fed_wrote fd rest b1 b2 w1 w2 w3 : fed fd rest b1 w1 w2 -> wrote 1 b2 w2 w3 -> fed fd rest (b1 ++ b2) w1 w3.
Proof. apply wrote_app. Qed.

Lemma fed_fault fd d w : w_in w !! fd = Some d -> fed fd d [] w (faulted w).
Proof. intros H. repeat split; try done; cbn; now rewrite insert_id. Qed.

(** A read of at least one byte: a piece, the end, or a failure. *)
Lemma must_read fd n d (Q : uend (Z * list Z) -> world -> Prop) w :
  w_in w !! fd = Some d -> 0 < n ->
  (forall bs rest, d = bs ++ rest -> bs <> [] -> Z.of_nat (length bs) <= n ->
     Q (Returned (Z.of_nat (length bs), bs)) (put_in fd rest w)) ->
  (d = [] -> Q (Returned (0, [])) w) -> Q (Returned (-1, [])) (faulted w) ->
  must streams Q (sys (Read fd n)) w.
Proof.
  intros Hd Hn H1 H2 H3. apply must_call; [done|exists (-1, []), (faulted w); right; now right|].
  intros x w' [(bs & rest & E & Hne & Hle & -> & ->)|[([E|E] & -> & ->)|(-> & ->)]]; [|apply H2; congruence|lia|done].
  apply H1; [congruence|done|done].
Qed.

Lemma must_vprintf fd fmt ap bs (Q : uend unit -> world -> Prop) w :
  format fmt ap = Some bs -> (forall w', wrote fd bs w w' -> Q (Returned tt) w') ->
  must streams Q (vprintf fd fmt ap) w.
Proof. exact (must_print streams fd (wrote fd) fmt ap bs Q w). Qed.

(** ** Numbers in print *)

Lemma digits_by_map digit fuel : forall x base, digits_by digit fuel x base = map digit (digits_by (fun v => v) fuel x base).
Proof.
  induction fuel as [|fuel IH]; intros x base; [done|]. cbn [digits_by map]. rewrite IH. now destruct (x / base =? 0).
Qed.

Lemma digits_by_values fuel : forall x base,
  2 <= base -> 0 <= x < base ^ Z.of_nat fuel -> (fuel <> 0)%nat ->
  let vs := digits_by (fun v => v) fuel x base in
  Forall (fun v => 0 <= v < base) vs /\
  foldr (fun v acc => v + base * acc) 0 vs = x /\ vs <> [] /\ (last vs = Some 0 -> vs = [0]) /\
  forall n, x < base ^ Z.of_nat n -> (1 <= n)%nat -> (length vs <= n)%nat.
Proof.
  induction fuel as [|fuel IH]; intros x base Hb Hx Hf; [done|]. cbn [digits_by].
  pose proof (Z.mod_pos_bound x base ltac:(lia)). pose proof (Z.div_mod x base ltac:(lia)) as Ex.
  destruct (Z.eqb_spec (x / base) 0) as [E|E].
  - cbn. split; [now constructor|]. split; [lia|]. split; [done|]. split; [now intros [= ->]|lia].
  - assert (Hq : 0 < x / base < base ^ Z.of_nat fuel).
    { split; [pose proof (Z.div_pos x base ltac:(lia) ltac:(lia)); lia|]. apply Z.div_lt_upper_bound; [lia|].
      rewrite <- Z.pow_succ_r by lia. now rewrite <- Nat2Z.inj_succ. }
    assert (fuel <> 0%nat) by (intros ->; cbn in Hq; lia).
    destruct (IH (x / base) base Hb ltac:(lia) ltac:(done)) as (Hvs & Hval & Hne & Hlast & Hlen).
    set (vs := digits_by (fun v => v) fuel (x / base) base) in *.
    split; [now constructor|]. cbn [foldr length]. split; [lia|]. split; [done|]. split.
    + destruct vs as [|v vs']; [done|]. change (last (x mod base :: v :: vs')) with (last (v :: vs')). intros Hl.
      rewrite (Hlast Hl) in Hval. cbn in Hval. lia.
    + intros n Hn H1. destruct n as [|n]; [lia|]. apply le_n_S. apply Hlen.
      * apply Z.div_lt_upper_bound; [lia|]. rewrite <- Z.pow_succ_r by lia. now rewrite <- Nat2Z.inj_succ.
      * destruct n; [|lia]. rewrite Z.pow_1_r in Hn. rewrite Z.div_small in E by lia. done.
Qed.

Lemma decimal_digit v : 0 <= v < 10 -> udigit v = 48 + v /\ digit v = 48 + v.
Proof.
  intros H. assert (v = 0 \/ v = 1 \/ v = 2 \/ v = 3 \/ v = 4 \/ v = 5 \/ v = 6 \/ v = 7 \/ v = 8 \/ v = 9) as Hv by lia.
  repeat destruct Hv as [->|Hv]; try subst; done.
Qed.

Lemma decimal_digits (vs : list Z) : Forall (fun v => 0 <= v < 10) vs -> map udigit vs = map (Z.add 48) vs /\ map digit vs = map (Z.add 48) vs.
Proof.
  induction 1 as [|v vs Hv _ [IH1 IH2]]; [done|]. destruct (decimal_digit v Hv) as [E1 E2]. cbn [map]. now rewrite E1, E2, IH1, IH2.
Qed.

Lemma atoi_decimal vs : forall acc, Forall (fun v => 0 <= v < 10) vs ->
  Ulib.atoi_loop (map (Z.add 48) (rev vs)) acc = acc * 10 ^ Z.of_nat (length vs) + foldr (fun v a => v + 10 * a) 0 vs.
Proof.
  assert (Happ : forall l acc d, Forall (fun v => 0 <= v < 10) l -> 0 <= d < 10 ->
    Ulib.atoi_loop (map (Z.add 48) (l ++ [d])) acc = Ulib.atoi_loop (map (Z.add 48) l) acc * 10 + d).
  { induction l as [|v l IH]; intros acc d Hl Hd; cbn [map app Ulib.atoi_loop].
    - rewrite (proj2 (Z.leb_le _ _)), (proj2 (Z.leb_le _ _)) by lia. cbn [andb]. lia.
    - apply Forall_cons_1 in Hl as [Hv Hl]. rewrite (proj2 (Z.leb_le _ _)), (proj2 (Z.leb_le _ _)) by lia. cbn [andb]. now apply IH. }
  intros acc Hvs. revert acc. induction Hvs as [|v vs Hv Hvs IH]; intros acc; [cbn; lia|].
  cbn [rev foldr length]. rewrite Happ; [|apply Forall_rev; done|done].
  rewrite IH, Nat2Z.inj_succ, Z.pow_succ_r by lia. ring.
Qed.

(** The decimal numerals of [printint], in the kernel's and in the user's [printf].
    Every [int] is printed as an optional minus sign and the digits of its absolute
    value, without leading zeros, [atoi] reads a printed number back, and the digits
    of either base fit into [buf]. *)
Theorem printint_correct xx :
  - 2 ^ 31 <= xx < 2 ^ 31 ->
  rev (printint_buf xx 10 true) = uprintint xx 10 true /\
  (length (uprintint_buf xx 10 true) <= 11)%nat /\ (length (uprintint_buf xx 16 false) <= 8)%nat /\
  (exists ds, uprintint xx 10 true = (if xx <? 0 then [45] else []) ++ ds /\
    Forall (fun d => 48 <= d <= 57) ds /\ ds <> [] /\ (head ds = Some 48 -> ds = [48]) /\ Ulib.atoi_loop ds 0 = Z.abs xx) /\
  (0 <= xx -> Ulib.atoi (uprintint xx 10 true) = xx).
Proof.
  intros Hx. unfold printint_buf, uprintint, uprintint_buf, uprintint. cbn [andb].
  assert (Habs : u32 (if xx <? 0 then - xx else xx) = Z.abs xx) by (destruct (Z.ltb_spec xx 0); rewrite u32_small; lia).
  rewrite Habs, !(digits_by_map udigit), (digits_by_map digit).
  destruct (digits_by_values 32 (Z.abs xx) 10) as (Hvs & Hval & Hne & Hlast & Hlen); [lia|lia|done|].
  destruct (digits_by_values 32 (u32 xx) 16) as (_ & _ & _ & _ & Hlen16); [lia|pose proof (u32_range xx); lia|done|].
  set (vs := digits_by (fun v => v) 32 (Z.abs xx) 10) in *. destruct (decimal_digits vs Hvs) as [-> ->].
  specialize (Hlen 10%nat ltac:(lia) ltac:(lia)). specialize (Hlen16 8%nat ltac:(pose proof (u32_range xx); lia) ltac:(lia)).
  assert (Hrev : rev (map (Z.add 48) vs ++ (if xx <? 0 then [45] else [])) = (if xx <? 0 then [45] else []) ++ map (Z.add 48) (rev vs)).
  { rewrite rev_app_distr, map_rev. now destruct (xx <? 0). }
  assert (Hat : Ulib.atoi_loop (map (Z.add 48) (rev vs)) 0 = Z.abs xx) by (rewrite atoi_decimal; [now rewrite Hval|done]).
  split; [done|]. split; [rewrite length_app, length_map; destruct (xx <? 0); cbn [length]; lia|].
  split; [rewrite length_app, length_map; cbn [length]; lia|]. rewrite Hrev. split.
  - exists (map (Z.add 48) (rev vs)). split; [done|]. split.
    + apply Forall_map, Forall_rev. apply (Forall_impl _ _ _ Hvs). cbn. lia.
    + split; [|split; [|done]].
      * intros E. apply map_eq_nil in E. apply Hne. apply (f_equal (@rev Z)) in E. now rewrite rev_involutive in E.
      * intros Hh. assert (Hl : last vs = Some 0).
        { destruct vs as [|v l] using rev_ind; [done|]. rewrite rev_unit in Hh. cbn in Hh. injection Hh as Hv. rewrite last_snoc. f_equal. lia. }
        rewrite (Hlast Hl). done.
  - intros H0. rewrite (proj2 (Z.ltb_ge xx 0)) by lia. cbn [app]. unfold Ulib.atoi. rewrite Hat, i32_small; lia.
Qed.

Example printint_correct_witness :
  uprintint (-120) 10 true = [45; 49; 50; 48] /\ rev (printint_buf (-120) 10 true) = uprintint (-120) 10 true.
Proof. split; [vm_compute; reflexivity|]. apply (printint_correct (-120)). lia. Defined.
