(* ===== verification/Grep.v ===== *)
(** * grep (user/grep.c)

    The matcher against a denotation of the regular expressions it supports, and the
    filter against the list of matching lines, however the input is cut into reads. *)

From stdpp Require Import base numbers list gmap strings.
From ITree Require Import Core.ITreeDefinition.
From S2P Require Import Prelude Kstate Kstring Printf User.

(** ** The matcher *)

Section star.
Context (matchhere_re : list Z -> bool).

(** [matchstar(c, re, text)], given [matchhere] at [re]. *)
Fixpoint matchstar (c : Z) (text : list Z) : bool :=
  matchhere_re text ||
  match text with
  | [] => false
  | x :: text' => ((x =? c) || (c =? 46)) && matchstar c text'
  end.
End star.

Fixpoint matchhere (re text : list Z) : bool :=
  match re with
  | [] => true
  | c :: re1 =>
      let rest :=
        if (c =? 36) && bool_decide (re1 = []) then bool_decide (text = [])
        else match text with
             | x :: text' => ((c =? 46) || (c =? x)) && matchhere re1 text'
             | [] => false
             end in
      match re1 with
      | y :: re2 => if y =? 42 then matchstar (matchhere re2) c text else rest
      | [] => rest
      end
  end.

(** The [do .. while] of [match]. *)
Fixpoint match_anywhere (re text : list Z) : bool :=
  matchhere re text ||
  match text with
  | [] => false
  | _ :: text' => match_anywhere re text'
  end.
Definition match_ (re text : list Z) : bool :=
  match re with
  | c :: re' => if c =? 94 then matchhere re' text else match_anywhere re text
  | [] => match_anywhere re text
  end.

(** ** The filter *)

(** [while((q = strchr(p, '\n')) != 0)]: [p] is the part of [buf] not looked at yet.
    The result is where [p] ends up. *)
Fixpoint grep_lines (fuel : nat) (pattern p : list Z) : uprog (list Z) :=
  match fuel with
  | O => uret p
  | S fuel' =>
      match Ulib.strchr p 10 with
      | None => uret p
      | Some q =>
          let line := take (length p - length q) p in
          (if match_ pattern line then sys (Write 1 (line ++ [10])) ;! uret tt else uret tt) ;!
          grep_lines fuel' pattern (drop 1 q)
      end
  end.

(** The outer loop; [buf] holds the [m] bytes of its argument. *)
Definition grep_loop (pattern : list Z) (fd : Z) : list Z -> uprog unit :=
  loop (fun buf =>
    let! (n, bs) := sys (Read fd (1024 - Z.of_nat (length buf) - 1)) in
    if 0 <? n then
      let buf' := buf ++ bs in
      let! p := grep_lines (length buf') pattern buf' in
      continue p
    else break tt).
Definition grep (pattern : list Z) (fd : Z) : uprog unit := grep_loop pattern fd [].

Definition grep_file (pattern name : list Z) : uprog unit :=
  let! fd := sys (Open name 0) in
  if fd <? 0 then uprintf "grep: cannot open %s
" [VStr (Some name)] ;! exit 1
  else grep pattern fd ;! sys (Close fd) ;! uret tt.

(** [main]; the arguments are those after the program's name. *)
Definition grep_main (argv : list (list Z)) : uprog unit :=
  match argv with
  | [] => fprintf 2 "usage: grep pattern [file ...]
" [] ;! exit 1
  | pattern :: [] => grep pattern 0 ;! exit 0
  | pattern :: files => each files (grep_file pattern) ;! exit 0
  end.

(** ** What a pattern means *)

Inductive atom := Any | Lit (c : Z).
Inductive item := One (a : atom) | Star (a : atom) | Eol.

Definition accepts (a : atom) (x : Z) : bool := match a with Any => true | Lit c => x =? c end.

(** The items of a pattern: a byte followed by [*] is a repetition, a final [$] the end
    of the line, every other byte stands for itself or, if it is [.], for any byte. *)
Definition atom_of (c : Z) : atom := if c =? 46 then Any else Lit c.
Fixpoint items (re : list Z) : list item :=
  match re with
  | [] => []
  | c :: re1 =>
      let rest := if (c =? 36) && bool_decide (re1 = []) then [Eol] else One (atom_of c) :: items re1 in
      match re1 with
      | y :: re2 => if y =? 42 then Star (atom_of c) :: items re2 else rest
      | [] => rest
      end
  end.

(** [denotes its s rest]: the items match the bytes [s], in front of [rest]. *)
Inductive denotes : list item -> list Z -> list Z -> Prop :=
| denotes_nil rest : denotes [] [] rest
| denotes_one a x s rest its : accepts a x = true -> denotes its s rest -> denotes (One a :: its) (x :: s) rest
| denotes_star a xs s rest its :
    Forall (fun x => accepts a x = true) xs -> denotes its s rest -> denotes (Star a :: its) (xs ++ s) rest
| denotes_eol : denotes [Eol] [] [].

Definition found (its : list item) (text : list Z) : Prop := exists s rest, text = s ++ rest /\ denotes its s rest.

Lemma accepts_atom c x : accepts (atom_of c) x = (x =? c) || (c =? 46).
Proof. unfold atom_of. destruct (c =? 46); cbn; [now rewrite orb_true_r|now rewrite orb_false_r]. Qed.

Lemma found_star a its text :
  found (Star a :: its) text <->
  found its text \/ exists x text', text = x :: text' /\ accepts a x = true /\ found (Star a :: its) text'.
Proof.
  split.
  - intros (s & rest & -> & H). inversion H as [| |? [|x xs] s' ? ? Hxs Hd|]; subst.
    + left. exists s', rest. done.
    + right. apply Forall_cons_1 in Hxs as [Hx Hxs]. exists x, ((xs ++ s') ++ rest). split; [done|]. split; [done|].
      exists (xs ++ s'), rest. split; [done|]. now constructor.
  - intros [(s & rest & -> & H)|(x & text' & -> & Hx & (s & rest & -> & H))].
    + exists s, rest. split; [done|]. now apply (denotes_star a []).
    + inversion H as [| |? xs s' ? ? Hxs Hd|]; subst. exists (x :: xs ++ s'), rest. split; [done|].
      apply (denotes_star a (x :: xs)); [now constructor|done].
Qed.

Lemma found_one a its text :
  found (One a :: its) text <-> exists x text', text = x :: text' /\ accepts a x = true /\ found its text'.
Proof.
  split.
  - intros (s & rest & -> & H). inversion H as [|? x s' ? ? Hx Hd| |]; subst. exists x, (s' ++ rest). split; [done|]. split; [done|]. now exists s', rest.
  - intros (x & text' & -> & Hx & (s & rest & -> & H)). exists (x :: s), rest. split; [done|]. now constructor.
Qed.

Lemma found_eol text : found [Eol] text <-> text = [].
Proof.
  split; [intros (s & rest & -> & H); now inversion H|]. intros ->. exists [], []. split; [done|constructor].
Qed.

Lemma matchstar_correct here its c : (forall text, here text = true <-> found its text) ->
  forall text, matchstar here c text = true <-> found (Star (atom_of c) :: its) text.
Proof.
  intros Hh. induction text as [|x text IH]; rewrite found_star; cbn [matchstar]; rewrite orb_true_iff, Hh.
  - split; [intros [?|?]; [now left|done]|intros [?|(? & ? & ? & _)]; [now left|done]].
  - rewrite andb_true_iff, <- accepts_atom, IH. naive_solver.
Qed.

Lemma matchhere_correct re : forall text, matchhere re text = true <-> found (items re) text.
Proof.
  enough (H : forall n re, (length re <= n)%nat -> forall text, matchhere re text = true <-> found (items re) text) by (now apply (H (length re))).
  clear re. induction n as [|n IH]; intros re Hn text.
  { destruct re; [|cbn in Hn; lia]. cbn. split; [|done]. intros _. exists [], text. split; [done|constructor]. }
  destruct re as [|c re1]; [split; [|done]; intros _; exists [], text; split; [done|constructor]|]. cbn [length] in Hn.
  assert (Hrest : (if (c =? 36) && bool_decide (re1 = []) then bool_decide (text = []) else
      match text with x :: text' => ((c =? 46) || (c =? x)) && matchhere re1 text' | [] => false end) = true <->
      found (if (c =? 36) && bool_decide (re1 = []) then [Eol] else One (atom_of c) :: items re1) text).
  { destruct ((c =? 36) && bool_decide (re1 = [])); [rewrite bool_decide_eq_true, found_eol; done|].
    rewrite found_one. destruct text as [|x text]; [split; [done|intros (? & ? & ? & _); done]|].
    rewrite andb_true_iff, (IH re1) by lia. rewrite orb_comm, (Z.eqb_sym c x), <- accepts_atom. naive_solver. }
  cbn [matchhere items]. destruct re1 as [|y re2]; [exact Hrest|]. destruct (y =? 42); [|exact Hrest].
  apply matchstar_correct. intros text'. apply IH. cbn in Hn. lia.
Qed.

(** C25: [match] decides the language of the pattern.  It answers yes exactly when the
    items of the pattern match a contiguous part of the text, at its beginning if the
    pattern starts with [^], and up to its end if the pattern ends in [$]. *)
Theorem match_correct re text :
  match_ re text = true <->
  match re with
  | c :: re' => if c =? 94 then found (items re') text else exists pre post, text = pre ++ post /\ found (items re) post
  | [] => exists pre post, text = pre ++ post /\ found (items re) post
  end.
Proof.
  assert (Hany : forall re text, match_anywhere re text = true <-> exists pre post, text = pre ++ post /\ found (items re) post).
  { clear. intros re. induction text as [|x text IH]; cbn [match_anywhere]; rewrite orb_true_iff, matchhere_correct.
    - split; [intros [H|?]; [now exists [], []|done]|]. intros (pre & post & E & H). left. symmetry in E. now apply app_eq_nil in E as [-> ->].
    - rewrite IH. split.
      + intros [H|(pre & post & -> & H)]; [now exists [], (x :: text)|now exists (x :: pre), post].
      + intros ([|y pre] & post & E & H); [left; now rewrite E|right]. injection E as -> ->. now exists pre, post. }
  unfold match_. destruct re as [|c re]; [apply Hany|]. destruct (c =? 94); [apply matchhere_correct|apply Hany].
Qed.

(** ** The filter's output *)

(** The lines of some data, without their newlines, and what follows the last newline. *)
Fixpoint lines (d : list Z) : list (list Z) * list Z :=
  match d with
  | [] => ([], [])
  | c :: d' =>
      let '(ls, r) := lines d' in
      if c =? 10 then ([] :: ls, r)
      else match ls with
           | [] => ([], c :: r)
           | l :: ls' => ((c :: l) :: ls', r)
           end
  end.

(** The matching lines. *)
Definition grep_output (pattern : list Z) (ls : list (list Z)) : list Z :=
  concat (map (fun l => if match_ pattern l then l ++ [10] else []) ls).

(** The program has room for the longest line and sees no NUL. *)
Definition grep_input (d : list Z) : Prop :=
  Forall (fun c => nz c = true) d /\
  Forall (fun l => (length l <= 1022)%nat) (lines d).1 /\ (length (lines d).2 <= 1022)%nat.

Lemma grep_output_app pattern l1 l2 : grep_output pattern (l1 ++ l2) = grep_output pattern l1 ++ grep_output pattern l2.
Proof. unfold grep_output. now rewrite map_app, concat_app. Qed.

Lemma lines_app d1 : forall d2, lines (d1 ++ d2) =
  ((lines d1).1 ++ (lines ((lines d1).2 ++ d2)).1, (lines ((lines d1).2 ++ d2)).2).
Proof.
  induction d1 as [|c d1 IH]; intros d2; cbn [app lines fst snd]; [now destruct (lines d2)|].
  rewrite IH. destruct (lines d1) as [ls r] eqn:E1. cbn [fst snd].
  destruct (c =? 10) eqn:Ec; [done|]. destruct ls as [|l ls]; cbn [fst snd app lines]; [|done].
  rewrite Ec. now destruct (lines (r ++ d2)) as [[|l' ls'] r'].
Qed.

Lemma lines_rest_free d : 10 ∉ (lines d).2.
Proof.
  induction d as [|c d IH]; cbn; [set_solver|]. destruct (lines d) as [ls r]. destruct (Z.eqb_spec c 10); [done|].
  destruct ls; cbn in *; [set_solver|done].
Qed.

Lemma lines_free l : 10 ∉ l -> lines l = ([], l).
Proof.
  induction l as [|c l IH]; [done|]. intros H. cbn. rewrite IH by set_solver. now rewrite (proj2 (Z.eqb_neq c 10)) by set_solver.
Qed.

Lemma lines_line l d : 10 ∉ l -> lines (l ++ 10 :: d) = (l :: (lines d).1, (lines d).2).
Proof.
  induction l as [|c l IH]; intros Hl; cbn [app lines]; [now destruct (lines d)|]. rewrite IH by set_solver.
  now rewrite (proj2 (Z.eqb_neq c 10)) by set_solver.
Qed.

Lemma strchr_lines p : Forall (fun c => nz c = true) p ->
  (Ulib.strchr p 10 = None /\ 10 ∉ p) \/ exists l d, p = l ++ 10 :: d /\ 10 ∉ l /\ Ulib.strchr p 10 = Some (10 :: d).
Proof.
  induction 1 as [|c p Hc Hp IH]; [left; set_solver|]. cbn [Ulib.strchr]. rewrite Hc. destruct (Z.eqb_spec c 10) as [->|Hne].
  - right. exists [], p. set_solver.
  - destruct IH as [[-> H]|(l & d & -> & Hl & ->)]; [left; set_solver|right]. exists (c :: l), d. set_solver.
Qed.

Lemma grep_lines_run pattern fuel : forall p (Q : uend (list Z) -> world -> Prop) w,
  (length p <= fuel)%nat -> Forall (fun c => nz c = true) p ->
  (forall w', wrote 1 (grep_output pattern (lines p).1) w w' -> Q (Returned (lines p).2) w') ->
  must streams Q (grep_lines fuel pattern p) w.
Proof.
  induction fuel as [|fuel IH]; intros p Q w Hlen Hp HQ.
  - destruct p; [|cbn in Hlen; lia]. apply must_uret, HQ, wrote_nil.
  - cbn [grep_lines]. destruct (strchr_lines p Hp) as [[-> H]|(l & d & -> & Hl & ->)].
    + rewrite (lines_free p H) in HQ. apply must_uret, HQ, wrote_nil.
    + assert (El : take (length (l ++ 10 :: d) - length (10 :: d)) (l ++ 10 :: d) = l).
      { rewrite length_app. replace (length l + _ - _)%nat with (length l) by lia. apply take_app_length. }
      rewrite El, (lines_line l d Hl) in *. cbn [fst snd drop] in *.
      assert (Hrest : forall w1, wrote 1 (if match_ pattern l then l ++ [10] else []) w w1 -> must streams Q (grep_lines fuel pattern d) w1).
      { intros w1 H1. apply IH; [rewrite length_app in Hlen; cbn in Hlen; lia|apply Forall_app in Hp as [_ Hp]; now apply Forall_cons_1 in Hp|].
        intros w2 H2. apply HQ. exact (wrote_app _ _ _ _ _ _ H1 H2). }
      apply must_bind. destruct (match_ pattern l).
      * apply must_bind, must_write. intros r w1 H1 _. cbn. apply must_uret. now apply Hrest.
      * apply must_uret. apply Hrest, wrote_nil.
Qed.

(** The buffer never fills up before the end of a line. *)
Lemma grep_room d1 d2 : grep_input (d1 ++ d2) -> (length (lines d1).2 <= 1022)%nat.
Proof.
  intros (_ & Hls & Hr). rewrite lines_app in *. cbn [fst snd] in *. set (r := (lines d1).2) in *.
  assert (Hfree : 10 ∉ r) by apply lines_rest_free.
  assert (Hpre : (lines (r ++ d2)).1 = [] /\ (length r <= length (lines (r ++ d2)).2)%nat \/
    exists l ls, (lines (r ++ d2)).1 = l :: ls /\ (length r <= length l)%nat).
  { rewrite lines_app, (lines_free r Hfree). cbn [fst snd app]. clear -Hfree. induction r as [|c r IH]; cbn [app lines].
    - destruct (lines d2) as [[|l ls] r]; cbn; [left|right]; [split; [done|lia]|do 2 eexists; split; [done|lia]].
    - specialize (IH ltac:(set_solver)). rewrite (proj2 (Z.eqb_neq c 10)) by set_solver.
      destruct (lines (r ++ d2)) as [[|l ls] r']; cbn in *.
      + left. destruct IH as [[_ ?]|(? & ? & ? & _)]; [split; [done|lia]|done].
      + right. destruct IH as [[? _]|(? & ? & [= -> ->] & ?)]; [done|]. do 2 eexists. split; [done|]. cbn. lia. }
  destruct Hpre as [[_ ?]|(l & ls & E & ?)]; [lia|]. rewrite E in Hls. apply Forall_app in Hls as [_ Hls]. apply Forall_cons_1 in Hls. lia.
Qed.

Lemma grep_loop_run pattern fd data w : grep_input data -> forall n d1 d2 w1,
  (length d2 <= n)%nat -> data = d1 ++ d2 -> fed fd d2 (grep_output pattern (lines d1).1) w w1 ->
  must streams (fun r w' => r = Returned tt /\ exists used rest, data = used ++ rest /\
    fed fd rest (grep_output pattern (lines used).1) w w' /\ (w_fault w' = false -> rest = [])) (grep_loop pattern fd (lines d1).2) w1.
Proof.
  intros Hin. induction n as [|n IH]; intros d1 d2 w1 Hn E H1; pose proof Hin as Hin1; rewrite E in Hin1; pose proof (grep_room d1 d2 Hin1) as Hroom.
  all: apply must_loop, must_bind; apply (must_read fd _ d2); [exact (fed_left _ _ _ _ _ H1)|lia| | |].
  2, 5: intros ->; apply must_uret; split; [done|]; exists d1, []; now rewrite app_nil_r in *.
  2, 4: apply must_uret; split; [done|]; exists d1, d2; split; [done|]; split; [|done].
  2, 3: rewrite <- (app_nil_r (grep_output _ _)); apply (fed_app _ _ _ _ _ _ _ _ H1), fed_fault, (fed_left _ _ _ _ _ H1).
  - intros bs rest -> Hne _. destruct bs; [done|]. cbn in Hn. lia.
  - intros bs rest -> Hne _. cbn [then_end]. assert (Hpos : (0 < length bs)%nat) by (destruct bs; [done|cbn; lia]).
    rewrite (proj2 (Z.ltb_lt 0 _)) by lia. apply must_bind. apply grep_lines_run; [done| |].
    { destruct Hin1 as [Hnz _]. apply Forall_app in Hnz as [Hnz1 Hnz2]. apply Forall_app in Hnz2 as [Hnz2 _].
      apply Forall_app. split; [|done]. clear -Hnz1. induction Hnz1 as [|c d Hc _ IH]; cbn; [done|].
      destruct (lines d) as [ls r]. destruct (c =? 10); [done|]. destruct ls; cbn in *; [now constructor|done]. }
    intros w2 H2. cbn [then_end]. apply must_uret. cbn [then_end].
    replace (lines ((lines d1).2 ++ bs)).2 with (lines (d1 ++ bs)).2 by now rewrite lines_app.
    apply (IH (d1 ++ bs) rest); [rewrite length_app in Hn; lia|now rewrite <- app_assoc|].
    rewrite lines_app. cbn [fst]. rewrite grep_output_app. apply (fed_wrote fd rest _ _ w (put_in fd rest w1)); [|exact H2].
    rewrite <- (app_nil_r (grep_output _ _)). apply (fed_app fd _ _ _ _ _ _ _ H1), fed_read.
Qed.

(** C26: [grep] is a filter.  On input whose lines fit into its buffer and that has no NUL,
    it ends whatever pieces the reads return, and unless a read or write fails it
    has read everything and written exactly the lines that match, in order; bytes
    after the last newline are dropped. *)
Theorem grep_correct pattern fd data w :
  w_in w !! fd = Some data -> grep_input data ->
  must streams (fun r w' => r = Returned tt /\ exists used rest, data = used ++ rest /\
    fed fd rest (grep_output pattern (lines used).1) w w' /\ (w_fault w' = false -> rest = [])) (grep pattern fd) w.
Proof.
  intros Hw Hin. apply (grep_loop_run pattern fd data w Hin (length data) [] data w); [done|done|now apply fed_same].
Qed.

Example grep_correct_witness :
  let data := bytes "abc
a*c
xyz" in
  grep_output (bytes "^a.c$") (lines data).1 = bytes "abc
a*c
" /\
  must streams (fun r w' => r = Returned tt /\ exists used rest, data = used ++ rest /\
    fed 0 rest (grep_output (bytes "^a.c$") (lines used).1) (mk_world (fun _ => None) {[0 := data]} (fun _ => []) false) w' /\
    (w_fault w' = false -> rest = [])) (grep (bytes "^a.c$") 0) (mk_world (fun _ => None) {[0 := data]} (fun _ => []) false).
Proof.
  intros data. split; [vm_compute; reflexivity|]. apply (grep_correct (bytes "^a.c$") 0 data); [reflexivity|].
  split; [|split]; [apply (bool_decide_unpack _); vm_compute; reflexivity..|vm_compute; lia].
Defined.
