(* ===== verification/Utils.v ===== *)
(** * The small user programs (user/echo.c, cat.c, wc.c, kill.c, ln.c, mkdir.c, rm.c,
    sleep.c, zombie.c, init.c, stressfs.c, forktest.c, pingpong.c, xargs.c, ls.c, find.c)

    [argv] includes the program's name, as in the sources. *)

From stdpp Require Import base numbers list gmap strings.
From ITree Require Import Core.ITreeDefinition.
From S2P Require Import Prelude Kstate Kstring Printf User Grep.

Notation LF := "
"%string (only parsing).

(** ** echo, cat, wc *)

Fixpoint echo_args (args : list (list Z)) : uprog unit :=
  match args with
  | [] => uret tt
  | a :: rest =>
      sys (Write 1 (take (Z.to_nat (strlen a)) a)) ;!
      sys (Write 1 (if bool_decide (rest = []) then [10] else [32])) ;!
      echo_args rest
  end.
Definition echo_main (argv : list (list Z)) : uprog unit := echo_args (drop 1 argv) ;! exit 0.

Definition cat_loop (fd : Z) : unit -> uprog Z :=
  loop (fun _ =>
    let! (n, buf) := sys (Read fd 512) in
    if 0 <? n then
      let! r := sys (Write 1 (take (Z.to_nat n) buf)) in
      if r =? n then continue tt
      else fprintf 2 ("cat: write error" ++ LF) [] ;! exit 1
    else break n).
Definition cat (fd : Z) : uprog unit :=
  let! n := cat_loop fd tt in
  if n <? 0 then fprintf 2 ("cat: read error" ++ LF) [] ;! exit 1 else uret tt.
Definition cat_main (argv : list (list Z)) : uprog unit :=
  match drop 1 argv with
  | [] => cat 0 ;! exit 0
  | files =>
      each files (fun name =>
        let! fd := sys (Open name 0) in
        if fd <? 0 then fprintf 2 ("cat: cannot open %s" ++ LF) [VStr (Some name)] ;! exit 1
        else cat fd ;! sys (Close fd) ;! uret tt) ;!
      exit 0
  end.

(** The counters of [wc]. *)
Record counts := mk_counts { wc_l : Z; wc_w : Z; wc_c : Z; wc_inword : bool }.

Definition wc_space : list Z := [32; 13; 9; 10; 11].
Definition wc_byte (s : counts) (b : Z) : counts :=
  let c := i32 (wc_c s + 1) in
  let l := if b =? 10 then i32 (wc_l s + 1) else wc_l s in
  if Ulib.strchr wc_space b then mk_counts l (wc_w s) c false
  else if wc_inword s then mk_counts l (wc_w s) c true
  else mk_counts l (i32 (wc_w s + 1)) c true.
Definition wc_loop (fd : Z) : counts -> uprog (Z * counts) :=
  loop (fun s =>
    let! (n, buf) := sys (Read fd 512) in
    if 0 <? n then continue (foldl wc_byte s (take (Z.to_nat n) buf)) else break (n, s)).
Definition wc (fd : Z) (name : list Z) : uprog unit :=
  let! (n, s) := wc_loop fd (mk_counts 0 0 0 false) in
  if n <? 0 then uprintf ("wc: read error" ++ LF) [] ;! exit 1
  else uprintf ("%d %d %d %s" ++ LF) [VInt (wc_l s); VInt (wc_w s); VInt (wc_c s); VStr (Some name)].
Definition wc_main (argv : list (list Z)) : uprog unit :=
  match drop 1 argv with
  | [] => wc 0 [] ;! exit 0
  | files =>
      each files (fun name =>
        let! fd := sys (Open name 0) in
        if fd <? 0 then uprintf ("wc: cannot open %s" ++ LF) [VStr (Some name)] ;! exit 1
        else wc fd name ;! sys (Close fd) ;! uret tt) ;!
      exit 0
  end.

(** ** kill, ln, mkdir, rm, sleep, zombie *)

Definition kill_main (argv : list (list Z)) : uprog unit :=
  if (length argv <? 2)%nat then fprintf 2 ("usage: kill pid..." ++ LF) [] ;! exit 1 else
  each (drop 1 argv) (fun a => sys (Kill (Ulib.atoi a)) ;! uret tt) ;! exit 0.

Definition ln_main (argv : list (list Z)) : uprog unit :=
  match argv with
  | [_; old; new] =>
      let! r := sys (Link old new) in
      (if r <? 0 then fprintf 2 ("link %s %s: failed" ++ LF) [VStr (Some old); VStr (Some new)] else uret tt) ;!
      exit 0
  | _ => fprintf 2 ("Usage: ln old new" ++ LF) [] ;! exit 1
  end.

(** The loops of mkdir and rm, which stop at the first failure. *)
Fixpoint until_failure (args : list (list Z)) (call : list Z -> sysE Z) (msg : string) : uprog unit :=
  match args with
  | [] => uret tt
  | a :: rest =>
      let! r := sys (call a) in
      if r <? 0 then fprintf 2 msg [VStr (Some a)] else until_failure rest call msg
  end.
Definition mkdir_main (argv : list (list Z)) : uprog unit :=
  if (length argv <? 2)%nat then fprintf 2 ("Usage: mkdir files..." ++ LF) [] ;! exit 1 else
  until_failure (drop 1 argv) Mkdir ("mkdir: %s failed to create" ++ LF) ;! exit 0.
Definition rm_main (argv : list (list Z)) : uprog unit :=
  if (length argv <? 2)%nat then fprintf 2 ("Usage: rm files..." ++ LF) [] ;! exit 1 else
  until_failure (drop 1 argv) Unlink ("rm: %s failed to delete" ++ LF) ;! exit 0.

Definition sleep_main (argv : list (list Z)) : uprog unit :=
  match argv with
  | [_; a] => sys (Sleep (Ulib.atoi a)) ;! exit 0
  | _ => fprintf 2 ("usage: sleep <time>" ++ LF) [] ;! exit 1
  end.

Definition zombie_main : uprog unit :=
  let! pid := sys Fork in
  (if 0 <? pid then sys (Sleep 5) ;! uret tt else uret tt) ;! exit 0.

(** ** init, stressfs, forktest *)

Definition init_wait (pid : Z) : unit -> uprog unit :=
  loop (fun _ =>
    let! (wpid, _) := sys Wait in
    if wpid =? pid then break tt
    else if wpid <? 0 then uprintf ("init: wait returned an error" ++ LF) [] ;! exit 1
    else continue tt).
Definition init_main : uprog Empty_set :=
  let! fd := sys (Open (bytes "console") O_RDWR) in
  (if fd <? 0 then
     sys (Mknod (bytes "console") CONSOLE 0) ;! sys (Open (bytes "console") O_RDWR) ;! uret tt
   else uret tt) ;!
  sys (Dup 0) ;! sys (Dup 0) ;!
  loop (fun _ : unit =>
    uprintf ("init: starting sh" ++ LF) [] ;!
    let! pid := sys Fork in
    if pid <? 0 then uprintf ("init: fork failed" ++ LF) [] ;! exit 1 else
    if pid =? 0 then
      sys (Exec (bytes "sh") [bytes "sh"]) ;!
      uprintf ("init: exec sh failed" ++ LF) [] ;! exit 1
    else init_wait pid tt ;! continue tt) tt.

(** The first loop: [i] when it stops. *)
Fixpoint stressfs_fork (k : nat) (i : Z) : uprog Z :=
  match k with
  | O => uret i
  | S k' => let! pid := sys Fork in if 0 <? pid then uret i else stressfs_fork k' (i + 1)
  end.
Definition stressfs_main : uprog unit :=
  let data := replicate 512 97 in
  uprintf ("stressfs starting" ++ LF) [] ;!
  let! i := stressfs_fork 4 0 in
  uprintf ("write %d" ++ LF) [VInt i] ;!
  let path := bytes "stressfs" ++ [48 + i] in
  let! fd := sys (Open path (Z.lor O_CREATE O_RDWR)) in
  each (seq 0 20) (fun _ => sys (Write fd data) ;! uret tt) ;!
  sys (Close fd) ;!
  uprintf ("read" ++ LF) [] ;!
  let! fd := sys (Open path 0) in
  each (seq 0 20) (fun _ => sys (Read fd 512) ;! uret tt) ;!
  sys (Close fd) ;!
  sys Wait ;! exit 0.

Definition print (s : list Z) : uprog unit := sys (Write 1 s) ;! uret tt.
(** The number of forks before the first that fails. *)
Fixpoint fork_all (k : nat) (n : Z) : uprog Z :=
  match k with
  | O => uret n
  | S k' =>
      let! pid := sys Fork in
      if pid <? 0 then uret n else if pid =? 0 then exit 0 else fork_all k' (n + 1)
  end.
Definition forktest : uprog unit :=
  print (bytes ("fork test" ++ LF)) ;!
  let! n := fork_all 1000 0 in
  if n =? 1000 then print (bytes ("fork claimed to work N times!" ++ LF)) ;! exit 1 else
  each (seq 0 (Z.to_nat n)) (fun _ =>
    let! (r, _) := sys Wait in
    if r <? 0 then print (bytes ("wait stopped early" ++ LF)) ;! exit 1 else uret tt) ;!
  let! (r, _) := sys Wait in
  if negb (r =? -1) then print (bytes ("wait got too many" ++ LF)) ;! exit 1 else
  print (bytes ("fork test OK" ++ LF)).
Definition forktest_main : uprog unit := forktest ;! exit 0.

(** ** pingpong

    The program passes the addresses 0 and 1 as buffers, so it sends bytes of its own
    text and overwrites them; [text] is its memory. *)
Section pingpong.
Context (text : Z -> Z).
Definition text_bytes (m : Z -> Z) (a : Z) (n : nat) : list Z := map (fun i => m (a + Z.of_nat i)) (seq 0 n).
Definition text_after (bs : list Z) : Z -> Z := fun a => if (0 <=? a) && (a <? Z.of_nat (length bs)) then bs !!! Z.to_nat a else text a.

Definition pingpong_parent (p1 p2 : Z * Z) : uprog unit :=
  sys (Close p1.1) ;! sys (Close p2.2) ;!
  let! r := sys (Write p1.2 (text_bytes text 0 4)) in
  if negb (r =? 4) then
    fprintf 2 "parent write error" [] ;! sys (Close p1.2) ;! sys (Close p2.1) ;! exit 0
  else
    let! (r, _) := sys (Read p2.1 4) in
    if negb (r =? 4) then
      fprintf 2 "parent read error" [] ;! sys (Close p1.2) ;! sys (Close p2.1) ;! exit 0
    else
      let! pid := sys Getpid in
      uprintf ("%d: received pong" ++ LF) [VInt pid] ;!
      sys (Close p1.2) ;! sys (Close p2.1) ;! sys Wait ;! exit 0.
Definition pingpong_child (p1 p2 : Z * Z) : uprog unit :=
  sys (Close p1.2) ;! sys (Close p2.1) ;!
  let! (r, bs) := sys (Read p1.1 4) in
  if negb (r =? 4) then
    fprintf 2 "child read error" [] ;! sys (Close p1.2) ;! sys (Close p2.1) ;! exit 0
  else
    let! pid := sys Getpid in
    uprintf ("%d: received ping" ++ LF) [VInt pid] ;!
    let! r := sys (Write p2.2 (text_bytes (text_after bs) 1 4)) in
    (if negb (r =? 4) then fprintf 2 "child write error" [] else uret tt) ;!
    sys (Close p1.2) ;! sys (Close p2.1) ;! exit 0.
Definition pingpong_main : uprog unit :=
  let! (_, p1) := sys Pipe in
  let! (_, p2) := sys Pipe in
  let! pid := sys Fork in
  if 0 <? pid then pingpong_parent p1 p2
  else if pid =? 0 then pingpong_child p1 p2
  else
    fprintf 2 "fork error" [] ;!
    sys (Close p1.1) ;! sys (Close p2.1) ;! sys (Close p1.2) ;! sys (Close p2.2) ;! exit 0.
End pingpong.

(** ** xargs

    [garbage] is what [buf] holds before the read. *)
Definition MSGSIZE : nat := 16.

(** The child for the line that starts at [p] and ends at [i]. *)
Definition xargs_child (xargv : list (list Z)) (buf : list Z) (p i : nat) : uprog unit :=
  let buf' := <[i := 0]> buf in
  if (30 <? length xargv)%nat then crash else
  let argv := xargv ++ [cstr (list_bytes (drop p buf')) MSGSIZE] in
  sys (Exec (argv !!! 0%nat) argv) ;! exit 0.

Fixpoint xargs_lines (fuel : nat) (xargv : list (list Z)) (buf : list Z) (p i : nat) : uprog unit :=
  match fuel with
  | O => uret tt
  | S fuel' =>
      if buf !!! i =? 10 then
        let! pid := sys Fork in
        if pid <? 0 then fprintf 2 "pid fork error" [] ;! exit 1 else
        if pid =? 0 then xargs_child xargv buf p i
        else xargs_lines fuel' xargv buf (i + 1) (i + 1)
      else xargs_lines fuel' xargv buf p (i + 1)
  end.

Definition xargs_main (garbage : list Z) (argv : list (list Z)) : uprog unit :=
  let! (r, bs) := sys (Read 0 (Z.of_nat MSGSIZE)) in
  if r <? 0 then fprintf 2 "read msg error" [] ;! exit 1 else
  let buf := take MSGSIZE (bs ++ drop (length bs) garbage) in
  if (32 <? length (drop 1 argv))%nat then crash else
  xargs_lines MSGSIZE (drop 1 argv) buf 0 0 ;!
  loop (fun _ : unit => let! (pid, _) := sys Wait in if 0 <? pid then continue tt else break tt) tt ;!
  exit 0.

(** ** ls *)

(** The part of a path after its last slash. *)
Fixpoint after_slash (path : list Z) : list Z :=
  match path with
  | [] => []
  | c :: rest => if existsb (Z.eqb 47) rest then after_slash rest else if c =? 47 then rest else path
  end.
Definition fmtname (path : list Z) : list Z :=
  let p := after_slash path in
  if (DIRSIZ <=? length p)%nat then p else p ++ replicate (DIRSIZ - length p) 32.

(** The inode number and the name of a directory entry as read. *)
Definition dirent_inum (de : list Z) : Z := get16 de 0.
Definition dirent_name (de : list Z) : list Z := list_sub de 2 DIRSIZ.
(** [buf] after [memmove(p, de.name, DIRSIZ); p[DIRSIZ] = 0], as a string. *)
Definition entry_path (path de : list Z) : list Z := path ++ [47] ++ cstr (list_bytes (dirent_name de)) DIRSIZ.

Definition ls_dir (fd : Z) (path : list Z) : unit -> uprog unit :=
  loop (fun _ =>
    let! (r, de) := sys (Read fd sizeof_dirent) in
    if negb (r =? sizeof_dirent) then break tt else
    if dirent_inum de =? 0 then continue tt else
    let buf := entry_path path de in
    let! (r, st) := stat_of buf in
    if r <? 0 then uprintf ("ls: cannot stat %s" ++ LF) [VStr (Some buf)] ;! continue tt else
    uprintf ("%s %d %d %d" ++ LF) [VStr (Some (fmtname buf)); VInt (st_type st); VInt (i32 (st_ino st)); VInt (i32 (st_size st))] ;!
    continue tt).

Definition ls (path : list Z) : uprog unit :=
  let! fd := sys (Open path 0) in
  if fd <? 0 then fprintf 2 ("ls: cannot open %s" ++ LF) [VStr (Some path)] else
  let! (r, st) := sys (Fstat fd) in
  if r <? 0 then fprintf 2 ("ls: cannot stat %s" ++ LF) [VStr (Some path)] ;! sys (Close fd) ;! uret tt else
  (if st_type st =? T_FILE then
     uprintf ("%s %d %d %l" ++ LF) [VStr (Some (fmtname path)); VInt (st_type st); VInt (i32 (st_ino st)); VPtr (st_size st)]
   else if st_type st =? T_DIR then
     if 512 <? Z.of_nat (length path) + 1 + Z.of_nat DIRSIZ + 1 then uprintf ("ls: path too long" ++ LF) []
     else ls_dir fd path tt
   else uret tt) ;!
  sys (Close fd) ;! uret tt.
Definition ls_main (argv : list (list Z)) : uprog unit :=
  match drop 1 argv with
  | [] => ls [46] ;! exit 0
  | paths => each paths ls ;! exit 0
  end.

(** ** find

    [find_dir] puts a path of any length into [buf[512]]; storing past its end is
    undefined behaviour.  That bounds the recursion: every level makes the path
    longer, and a level whose path has more than 496 bytes never calls the next, so
    a depth of 512 is never used up.  [beyond] is what follows [de] on the stack, where [strcmp]
    reads on when a name has no NUL. *)
Section find.
Context (tar_fn beyond : list Z).

Definition name_of (de : list Z) : list Z := dirent_name de ++ beyond.
Definition find_entry (find_dir : list Z -> uprog unit) (path de : list Z) : uprog unit :=
  if dirent_inum de =? 0 then uret tt else
  if 512 <? Z.of_nat (length path) + 1 + Z.of_nat DIRSIZ + 1 then crash else
  let buf := entry_path path de in
  let! (r, st) := stat_of buf in
  if r <? 0 then uprintf "filename:%s stat get failed" [VStr (Some buf)]
  else if st_type st =? T_DIR then
    if negb (Ulib.strcmp [46] (name_of de) =? 0) && negb (Ulib.strcmp [46; 46] (name_of de) =? 0) then find_dir buf else uret tt
  else if st_type st =? T_FILE then
    if Ulib.strcmp tar_fn (name_of de) =? 0 then uprintf ("%s" ++ LF) [VStr (Some buf)] else uret tt
  else uret tt.

Fixpoint find_dir (depth : nat) (path : list Z) : uprog unit :=
  match depth with
  | O => crash
  | S depth' =>
      let! fd := sys (Open path 0) in
      if fd <? 0 then fprintf 2 "dir open faild" [] ;! exit 1 else
      let! (r, st) := sys (Fstat fd) in
      if r <? 0 then fprintf 2 "dir fstat get failed" [] ;! sys (Close fd) ;! exit 1 else
      if negb (st_type st =? T_DIR) then fprintf 2 "path is not a dir" [] ;! sys (Close fd) ;! exit 1 else
      if 512 <? Z.of_nat (length path) + 1 then crash else
      loop (fun _ : unit =>
        let! (r, de) := sys (Read fd sizeof_dirent) in
        if negb (r =? sizeof_dirent) then break tt
        else find_entry (find_dir depth') path de ;! continue tt) tt ;!
      sys (Close fd) ;! uret tt
  end.
End find.
Definition find_main (beyond : list Z) (argv : list (list Z)) : uprog unit :=
  match argv with
  | [_; path; tar_fn] => find_dir tar_fn beyond 512 path ;! exit 0
  | _ => fprintf 2 ("error input! you should input like:find <path> <filename>" ++ LF) [] ;! exit 1
  end.

(** ** The filters *)

Lemma must_fprintf_exit fd fmt ap bs (Q : uend unit -> world -> Prop) n w :
  format (bytes fmt) ap = Some bs -> (forall w', wrote fd bs w w' -> Q (Exited n) w') ->
  must streams Q (fprintf fd fmt ap ;! exit n) w.
Proof.
  intros E H. apply must_bind. unfold fprintf. apply (must_vprintf fd _ _ bs _ _ E). intros w' Hw. apply must_exit. auto.
Qed.

Lemma cat_loop_run fd data w : forall n d1 d2 w1,
  (length d2 <= n)%nat -> data = d1 ++ d2 -> fed fd d2 d1 w w1 -> w_fault w1 = false ->
  must streams (fun r w' => (r = Returned 0 /\ fed fd [] data w w' /\ w_fault w' = false) \/
    ((r = Returned (-1) \/ r = Exited 1) /\ w_fault w' = true)) (cat_loop fd tt) w1.
Proof.
  induction n as [|n IH]; intros d1 d2 w1 Hn -> H1 Hf; apply must_loop, must_bind; apply (must_read fd _ d2); try done.
  all: try exact (fed_left _ _ _ _ _ H1).
  all: try (intros ->; apply must_uret; left; rewrite app_nil_r; done).
  all: try (apply must_uret; right; auto).
  - intros bs rest -> Hne _. destruct bs; [done|]. cbn in Hn. lia.
  - intros bs rest -> Hne _. cbn [then_end]. assert (Hpos : (0 < length bs)%nat) by (destruct bs; [done|cbn; lia]).
    rewrite (proj2 (Z.ltb_lt 0 _)), Nat2Z.id, firstn_all by lia. apply must_bind, must_write. cbn [then_end].
    intros r w2 H2 [[-> Hf2]|[-> Hf2]].
    + rewrite Z.eqb_refl. apply must_uret. cbn [then_end]. apply (IH (d1 ++ bs) rest); [rewrite length_app in Hn; lia|now rewrite app_assoc| |now rewrite Hf2].
      apply (fed_wrote fd rest _ _ w (put_in fd rest w1)); [|exact H2]. rewrite <- (app_nil_r d1). exact (fed_app fd _ _ _ _ _ _ _ H1 (fed_read fd rest w1)).
    + rewrite (proj2 (Z.eqb_neq (-1) _)) by lia. apply must_bind. eapply (must_vprintf 2); [reflexivity|].
      intros w3 (_ & _ & Hm & _). apply must_exit. right. auto.
Qed.

(** [cat] copies its input to the standard output, byte for byte, whatever pieces the
    reads return; if a read or a write fails it exits with status 1. *)
Theorem cat_correct fd data w :
  w_in w !! fd = Some data -> w_fault w = false ->
  must streams (fun r w' => (r = Returned tt /\ fed fd [] data w w' /\ w_fault w' = false) \/
    (r = Exited 1 /\ w_fault w' = true)) (cat fd) w.
Proof.
  intros Hw Hf. apply must_bind. apply (must_mono _ _ _ _ _ (cat_loop_run fd data w _ [] data w (le_n _) eq_refl (fed_same _ _ _ Hw) Hf)).
  intros r w' [(-> & H & Hf')|([->| ->] & Hf')]; cbn [then_end Z.ltb Z.compare].
  - apply must_uret. auto.
  - eapply (must_fprintf_exit 2); [reflexivity|]. intros w2 (_ & _ & Hm & _). auto.
  - auto.
Qed.

(** Counting by definition: bytes, newlines, and the bytes that start a word. *)
Definition spaceb (b : Z) : bool := if Ulib.strchr wc_space b then true else false.
Definition line_count (d : list Z) : Z := Z.of_nat (length (List.filter (Z.eqb 10) d)).
Definition word_starts (prev : bool) (d : list Z) : list (bool * Z) :=
  List.filter (fun '(p, c) => p && negb (spaceb c)) (zip (prev :: map spaceb d) d).
Definition word_count (d : list Z) : Z := Z.of_nat (length (word_starts true d)).
Definition wc_counts (d : list Z) : counts :=
  mk_counts (line_count d) (word_count d) (Z.of_nat (length d)) (negb (default true (spaceb <$> last d))).

Lemma word_starts_cons prev c d :
  word_starts prev (c :: d) = (if prev && negb (spaceb c) then [(prev, c)] else []) ++ word_starts (spaceb c) d.
Proof. unfold word_starts. cbn. now destruct (prev && negb (spaceb c)). Qed.

Lemma word_starts_app d1 d2 : forall prev,
  word_starts prev (d1 ++ d2) = word_starts prev d1 ++ word_starts (default prev (spaceb <$> last d1)) d2.
Proof.
  induction d1 as [|c d1 IH]; intros prev; [done|]. cbn [app]. rewrite !word_starts_cons, IH, <- app_assoc.
  assert (El : default prev (spaceb <$> last (c :: d1)) = default (spaceb c) (spaceb <$> last d1)); [|now rewrite El].
  destruct d1 as [|c' d1]; [done|]. rewrite last_cons_cons. destruct (last (c' :: d1)) eqn:E; [done|]. now apply last_None in E.
Qed.

Lemma wc_counts_snoc d b : wc_counts (d ++ [b]) =
  mk_counts (line_count d + (if b =? 10 then 1 else 0))
    (word_count d + (if default true (spaceb <$> last d) && negb (spaceb b) then 1 else 0)) (Z.of_nat (length d) + 1) (negb (spaceb b)).
Proof.
  unfold wc_counts, line_count, word_count. rewrite last_snoc, List.filter_app, word_starts_app, !length_app. cbn [length fmap option_fmap option_map default].
  f_equal; [| |lia].
  - destruct (Z.eqb_spec b 10) as [->|Hne]; [cbn; lia|]. change (List.filter (Z.eqb 10) [b]) with (if 10 =? b then [b] else []).
    rewrite (proj2 (Z.eqb_neq 10 b)) by lia. cbn. lia.
  - rewrite word_starts_cons. destruct (default true _ && _); cbn; lia.
Qed.

Lemma wc_counts_range d : 0 <= line_count d <= Z.of_nat (length d) /\ 0 <= word_count d <= Z.of_nat (length d).
Proof.
  unfold line_count, word_count, word_starts. pose proof (filter_length_le (Z.eqb 10) d).
  pose proof (filter_length_le (fun '(p, c) => p && negb (spaceb c)) (zip (true :: map spaceb d) d)) as H2.
  rewrite length_zip_with in H2. cbn [length] in H2. lia.
Qed.

Lemma wc_byte_counts d b : Z.of_nat (length d) + 1 < 2 ^ 31 -> wc_byte (wc_counts d) b = wc_counts (d ++ [b]).
Proof.
  intros Hd. rewrite wc_counts_snoc. destruct (wc_counts_range d) as [Hl Hw]. unfold wc_byte, wc_counts. cbn [wc_l wc_w wc_c wc_inword].
  assert (Ei : forall x, 0 <= x <= Z.of_nat (length d) -> i32 (x + 1) = x + 1) by (intros; apply i32_small; lia).
  rewrite !Ei by lia. unfold spaceb. destruct (Ulib.strchr wc_space b); cbn [negb andb].
  - rewrite andb_false_r. f_equal; destruct (b =? 10); lia.
  - rewrite andb_true_r. destruct (default true _); cbn [negb]; f_equal; destruct (b =? 10); lia.
Qed.

Lemma wc_bytes bs : forall d, Z.of_nat (length (d ++ bs)) < 2 ^ 31 -> foldl wc_byte (wc_counts d) bs = wc_counts (d ++ bs).
Proof.
  induction bs as [|b bs IH]; intros d Hd; [now rewrite app_nil_r|]. cbn [foldl]. rewrite length_app in Hd. cbn [length] in Hd.
  rewrite wc_byte_counts by lia. rewrite IH; [now rewrite <- app_assoc|]. rewrite !length_app. cbn [length]. lia.
Qed.

Lemma wc_loop_run fd data w : Z.of_nat (length data) < 2 ^ 31 -> forall n d1 d2 w1,
  (length d2 <= n)%nat -> data = d1 ++ d2 -> fed fd d2 [] w w1 -> w_fault w1 = false ->
  must streams (fun r w' => (r = Returned (0, wc_counts data) /\ fed fd [] [] w w' /\ w_fault w' = false) \/
    (exists s, r = Returned (-1, s)) /\ w_fault w' = true) (wc_loop fd (wc_counts d1)) w1.
Proof.
  intros Hmax. induction n as [|n IH]; intros d1 d2 w1 Hn -> H1 Hf; apply must_loop, must_bind; apply (must_read fd _ d2); try done.
  all: try exact (fed_left _ _ _ _ _ H1).
  all: try (intros ->; apply must_uret; left; rewrite app_nil_r; done).
  all: try (apply must_uret; right; cbn; eauto).
  - intros bs rest -> Hne _. destruct bs; [done|]. cbn in Hn. lia.
  - intros bs rest -> Hne _. cbn [then_end]. assert (Hpos : (0 < length bs)%nat) by (destruct bs; [done|cbn; lia]).
    rewrite (proj2 (Z.ltb_lt 0 _)), Nat2Z.id, firstn_all by lia. apply must_uret. cbn [then_end].
    rewrite wc_bytes by (rewrite !length_app in *; lia).
    apply (IH (d1 ++ bs) rest); [rewrite length_app in Hn; lia|now rewrite app_assoc| |done].
    exact (fed_app fd _ _ [] _ _ _ _ H1 (fed_read fd rest w1)).
Qed.

(** [wc] counts.  Whatever pieces the reads return, it prints the numbers of
    newlines, words and bytes of its input and the name, where a word starts at every
    byte that is not white space and has white space or nothing before it; after a
    failed read it exits with status 1. *)
Theorem wc_correct fd name data w :
  w_in w !! fd = Some data -> w_fault w = false -> Z.of_nat (length data) < 2 ^ 31 ->
  must streams (fun r w' =>
    (r = Exited 1 /\ w_fault w' = true) \/
    (r = Returned tt /\ exists out, format (bytes ("%d %d %d %s" ++ LF)) [VInt (line_count data); VInt (word_count data); VInt (Z.of_nat (length data)); VStr (Some name)] = Some out /\
      fed fd [] out w w')) (wc fd name) w.
Proof.
  intros Hw Hf Hmax. apply must_bind.
  apply (must_mono _ _ _ _ _ (wc_loop_run fd data w Hmax _ [] data w (le_n _) eq_refl (fed_same _ _ _ Hw) Hf)).
  intros r w' [(-> & H & Hf')|([s ->] & Hf')]; cbn [then_end Z.ltb Z.compare].
  - eapply must_vprintf; [reflexivity|]. intros w2 H2. right. split; [done|]. eexists. split; [reflexivity|].
    exact (fed_wrote fd [] [] _ _ _ _ H H2).
  - apply must_bind. eapply must_vprintf; [reflexivity|]. intros w2 (_ & _ & Hm & _). apply must_exit. auto.
Qed.

Definition stdin_world (d : list Z) : world := mk_world (fun _ => None) {[0 := d]} (fun _ => []) false.

Example cat_correct_witness :
  must streams (fun r w' => (r = Returned tt /\ fed 0 [] (bytes "hello") (stdin_world (bytes "hello")) w' /\ w_fault w' = false) \/
    (r = Exited 1 /\ w_fault w' = true)) (cat 0) (stdin_world (bytes "hello")).
Proof. apply (cat_correct 0 (bytes "hello")); reflexivity. Defined.

Example wc_correct_witness :
  must streams (fun r w' => (r = Exited 1 /\ w_fault w' = true) \/
    (r = Returned tt /\ fed 0 [] (bytes ("1 2 13 " ++ LF)) (stdin_world (bytes ("hello, world" ++ LF))) w')) (wc 0 [])
    (stdin_world (bytes ("hello, world" ++ LF))).
Proof.
  eapply must_mono; [apply (wc_correct 0 [] (bytes ("hello, world" ++ LF))); [reflexivity|reflexivity|vm_compute; reflexivity]|].
  intros r w' [H|(-> & out & E & H)]; [now left|right]. vm_compute in E. injection E as <-. split; [done|]. exact H.
Defined.
