(* ===== verification/Primes.v ===== *)
(** * The prime sieve (user/primes.c)

    A chain of processes connected by pipes: the first feeds the numbers 2 to 35, each
    further one prints the first number it receives and passes on those that are not
    multiples of it.  The processes run concurrently; one step is one system call (or
    the computation up to the next one) of any of them.  [pipe] and [fork] are taken
    to succeed (the chain has 13 processes and 12 pipes, within NPROC, NFILE and
    NOFILE); writes to a pipe nobody can read fail as [pipewrite] does. *)

From stdpp Require Import base numbers list gmap strings.
From S2P Require Import Prelude Kstate Printf User.

(** Where a process is.  The first three are of [main]'s parent branch, the others of
    [sub_pid]. *)
Inductive pc :=
| Feeding (i : Z)                  (* main: the test of its loop *)
| Born                             (* sub_pid: close(r_pipe[1]) *)
| Reading                          (* the read of [prime] *)
| Printing (prime : Z) (rest : list Z)  (* printf, [rest] still to be written *)
| Forking (prime : Z)              (* pipe and fork *)
| Copying (prime : Z)              (* the read of the loop *)
| Passing (prime temp : Z)         (* the test and the write *)
| Closing                          (* close(sub_pipe[1]) after the loop *)
| Waiting                          (* wait(0) *)
| Exited_with (status : Z).

(** A process with the numbers of the pipes [r_pipe] and [sub_pipe] and of its child. *)
Record proc := mk_proc { at_pc : pc; in_link : nat; out_link : nat; child : nat }.

(** A pipe of [int]s: all that was ever written to it, how much of that was read, and
    whether the writing process still has it open. *)
Record link := mk_link { sent : list Z; taken : nat; wopen : bool }.

Record state := mk_state { procs : list proc; links : list link; output : list Z }.

Definition set_pc (c : pc) (p : proc) : proc := mk_proc c (in_link p) (out_link p) (child p).
Definition at_proc (i : nat) (c : pc) (p : proc) (s : state) : state :=
  mk_state (<[i := set_pc c p]> (procs s)) (links s) (output s).
Definition set_link (l : nat) (x : link) (s : state) : state := mk_state (procs s) (<[l := x]> (links s)) (output s).

(** [PIPESIZE] bytes hold 128 numbers. *)
Definition full (x : link) : bool := bool_decide (length (sent x) - taken x = 128)%nat.
Definition empty (x : link) : bool := bool_decide (length (sent x) = taken x).

Definition prime_line (p : Z) : list Z := bytes "prime " ++ uprintint p 10 true ++ [10].
Definition alive (p : proc) : bool := match at_pc p with Exited_with _ => false | _ => true end.
(** The read end of a pipe is open in the process that reads it and, since no process
    closes what it inherits but its own pipe, in all its descendants. *)
Definition ropen (l : nat) (s : state) : bool := existsb alive (drop (S l) (procs s)).

Inductive step (s : state) : state -> Prop :=
| step_feed i p n x :
    procs s !! i = Some p -> at_pc p = Feeding n -> n <= 35 ->
    links s !! out_link p = Some x -> full x = false ->
    step s (set_link (out_link p) (mk_link (sent x ++ [n]) (taken x) (wopen x)) (at_proc i (Feeding (n + 1)) p s))
| step_fed i p n x :
    procs s !! i = Some p -> at_pc p = Feeding n -> 35 < n -> links s !! out_link p = Some x ->
    step s (set_link (out_link p) (mk_link (sent x) (taken x) false) (at_proc i Waiting p s))
| step_feed_error i p n x :
    procs s !! i = Some p -> at_pc p = Feeding n -> n <= 35 ->
    links s !! out_link p = Some x -> full x = true -> ropen (out_link p) s = false ->
    step s (set_link (out_link p) (mk_link (sent x) (taken x) false) (at_proc i (Exited_with 0) p s))
| step_born i p :
    procs s !! i = Some p -> at_pc p = Born -> step s (at_proc i Reading p s)
| step_first i p x n :
    procs s !! i = Some p -> at_pc p = Reading -> links s !! in_link p = Some x ->
    sent x !! taken x = Some n ->
    step s (set_link (in_link p) (mk_link (sent x) (S (taken x)) (wopen x)) (at_proc i (Printing n (prime_line n)) p s))
| step_none i p x :
    procs s !! i = Some p -> at_pc p = Reading -> links s !! in_link p = Some x ->
    empty x = true -> wopen x = false -> step s (at_proc i (Exited_with 0) p s)
| step_print i p n b rest :
    procs s !! i = Some p -> at_pc p = Printing n (b :: rest) ->
    step s (mk_state (<[i := set_pc (Printing n rest) p]> (procs s)) (links s) (output s ++ [b]))
| step_printed i p n :
    procs s !! i = Some p -> at_pc p = Printing n [] -> step s (at_proc i (Forking n) p s)
| step_fork i p n :
    procs s !! i = Some p -> at_pc p = Forking n ->
    step s (mk_state
      (<[i := mk_proc (Copying n) (in_link p) (length (links s)) (length (procs s))]> (procs s)
         ++ [mk_proc Born (length (links s)) 0 0])
      (links s ++ [mk_link [] 0 true]) (output s))
| step_read i p n x t :
    procs s !! i = Some p -> at_pc p = Copying n -> links s !! in_link p = Some x ->
    sent x !! taken x = Some t ->
    step s (set_link (in_link p) (mk_link (sent x) (S (taken x)) (wopen x)) (at_proc i (Passing n t) p s))
| step_eof i p n x :
    procs s !! i = Some p -> at_pc p = Copying n -> links s !! in_link p = Some x ->
    empty x = true -> wopen x = false -> step s (at_proc i Closing p s)
| step_drop i p n t :
    procs s !! i = Some p -> at_pc p = Passing n t -> Z.rem t n = 0 -> step s (at_proc i (Copying n) p s)
| step_pass i p n t x :
    procs s !! i = Some p -> at_pc p = Passing n t -> Z.rem t n <> 0 ->
    links s !! out_link p = Some x -> full x = false ->
    step s (set_link (out_link p) (mk_link (sent x ++ [t]) (taken x) (wopen x)) (at_proc i (Copying n) p s))
| step_pass_error i p n t x :
    procs s !! i = Some p -> at_pc p = Passing n t -> Z.rem t n <> 0 ->
    links s !! out_link p = Some x -> full x = true -> ropen (out_link p) s = false ->
    step s (set_link (out_link p) (mk_link (sent x) (taken x) false) (at_proc i (Exited_with 1) p s))
| step_close i p x :
    procs s !! i = Some p -> at_pc p = Closing -> links s !! out_link p = Some x ->
    step s (set_link (out_link p) (mk_link (sent x) (taken x) false) (at_proc i Waiting p s))
| step_wait i p q st :
    procs s !! i = Some p -> at_pc p = Waiting -> procs s !! child p = Some q -> at_pc q = Exited_with st ->
    step s (at_proc i (Exited_with 0) p s).

(** After [main]'s pipe and fork. *)
Definition start : state :=
  mk_state [mk_proc (Feeding 2) 0 0 1; mk_proc Born 0 0 0] [mk_link [] 0 true] [].

(** ** The numbers that reach each process *)

Definition sieve (p : Z) (xs : list Z) : list Z := List.filter (fun t => negb (Z.rem t p =? 0)) xs.
Fixpoint stream (i : nat) : list Z :=
  match i with
  | O => seqZ 2 34
  | S i' => match stream i' with [] => [] | p :: xs => sieve p xs end
  end.

Lemma sieve_app p a b : sieve p (a ++ b) = sieve p a ++ sieve p b.
Proof. apply List.filter_app. Qed.

(** ** The invariant *)

#[local] Instance link_inhabited : Inhabited link := populate (mk_link [] 0 true).

(** What a process that is done with its loop has achieved: it has read all of [L] and
    written the rest of its numbers to [O]. *)
Definition sieved (L O : link) : Prop :=
  exists p xs, sent L = p :: xs /\ taken L = length (sent L) /\ wopen L = false /\ sent O = sieve p xs.
Definition passed (i : nat) (L O : link) : Prop :=
  wopen O = false /\ if decide (i = 0)%nat then sent O = seqZ 2 34 else sieved L O.

(** Process [i] with its input [L] and its output [O]; [lst] says that it has not forked. *)
Definition stage_ok (lst : bool) (i : nat) (c : pc) (L O : link) : Prop :=
  match c with
  | Feeding n => lst = false /\ i = 0%nat /\ 2 <= n <= 36 /\ sent O = seqZ 2 (n - 2) /\ wopen O = true
  | Born | Reading => lst = true /\ i <> 0%nat /\ taken L = 0%nat
  | Printing p rest => lst = true /\ i <> 0%nat /\ taken L = 1%nat /\ head (sent L) = Some p /\ rest `suffix_of` prime_line p
  | Forking p => lst = true /\ i <> 0%nat /\ taken L = 1%nat /\ head (sent L) = Some p
  | Copying p => lst = false /\ i <> 0%nat /\ wopen O = true /\
      exists xs, take (taken L) (sent L) = p :: xs /\ sent O = sieve p xs
  | Passing p t => lst = false /\ i <> 0%nat /\ wopen O = true /\
      exists xs, take (taken L) (sent L) = p :: xs ++ [t] /\ sent O = sieve p xs
  | Closing => lst = false /\ i <> 0%nat /\ wopen O = true /\ sieved L O
  | Waiting => lst = false /\ passed i L O
  | Exited_with st => st = 0 /\ if lst then i <> 0%nat /\ sent L = [] /\ taken L = 0%nat /\ wopen L = false else passed i L O
  end.

(** What the youngest process has printed already. *)
Definition partly (c : pc) : list Z :=
  match c with
  | Printing p rest => take (length (prime_line p) - length rest) (prime_line p)
  | Forking p => prime_line p
  | _ => []
  end.
Definition first_of (i : nat) : Z := default 0 (head (stream i)).
Definition printed (n : nat) : list Z := concat (map (fun i => prime_line (first_of i)) (seq 0 n)).

Definition is_last (s : state) (i : nat) : bool := bool_decide (S i = length (procs s)).
Definition lk (s : state) (l : nat) : link := links s !!! l.

Record inv (s : state) : Prop := {
  iv_len : length (procs s) = S (length (links s));
  iv_two : (1 <= length (links s))%nat;
  iv_taken : forall l x, links s !! l = Some x -> (taken x <= length (sent x))%nat;
  iv_wired : forall i p, procs s !! i = Some p ->
    (i <> 0%nat -> in_link p = pred i) /\ (is_last s i = false -> out_link p = i /\ child p = S i);
  iv_stage : forall i p, procs s !! i = Some p ->
    stage_ok (is_last s i) i (at_pc p) (lk s (pred i)) (lk s i);
  iv_out : forall p, procs s !! length (links s) = Some p ->
    output s = printed (pred (length (links s))) ++ partly (at_pc p) }.

Lemma start_inv : inv start.
Proof.
  split; cbn; [done|lia| | | |].
  - intros [|l] x E; [injection E as <-; done|done].
  - intros [|[|i]] p E; [injection E as <-; done|injection E as <-; done|done].
  - intros [|[|i]] p E; [injection E as <-; cbn; done|injection E as <-; cbn; done|done].
  - intros p [= <-]. done.
Qed.

(** Links as other processes see them change: the reader's side and the writer's side. *)
Definition extends (L L' : link) : Prop :=
  taken L' = taken L /\ (exists more, sent L' = sent L ++ more) /\ (wopen L = false -> L' = L).

Lemma stage_reader lst i c L L' O :
  (taken L <= length (sent L))%nat -> extends L L' -> stage_ok lst i c L O -> stage_ok lst i c L' O.
Proof.
  intros Hle (Ht & (more & Hs) & Hw). 
  assert (Hsieved : sieved L O -> sieved L' O).
  { intros H. pose proof H as (p & xs & _ & _ & Hf & _). now rewrite (Hw Hf). }
  assert (Hhd : forall p, head (sent L) = Some p -> head (sent L') = Some p) by (intros p H; rewrite Hs; now destruct (sent L)).
  assert (Htk : take (taken L') (sent L') = take (taken L) (sent L)) by (rewrite Ht, Hs; now apply take_app_le).
  assert (Hpassed : passed i L O -> passed i L' O) by (unfold passed; intros [? ?]; split; [done|case_decide; auto]).
  destruct c; cbn; rewrite ?Htk, ?Ht; try done.
  - intros (? & ? & ? & ? & ?). auto 10.
  - intros (? & ? & ? & ?). auto 10.
  - intros (? & ? & ? & ?). auto 10.
  - intros (? & ?). auto.
  - destruct lst; [|intros (? & ?); auto]. intros (-> & Hi & He & Ht0 & Hf). now rewrite (Hw Hf).
Qed.

Lemma stage_writer lst i c L O O' : sent O' = sent O -> wopen O' = wopen O -> stage_ok lst i c L O -> stage_ok lst i c L O'.
Proof.
  intros Hs Hw. destruct c; cbn; unfold passed, sieved; rewrite ?Hs, ?Hw; done.
Qed.

Lemma stage_main lst c L L' O : stage_ok lst 0 c L O -> stage_ok lst 0 c L' O.
Proof. destruct c; cbn; unfold passed; try tauto; try (intros (? & ? & _); done). destruct lst; tauto. Qed.

(** The links a step of process [i] may change, and how. *)
Definition own_link (s : state) (i l : nat) (x' : link) : Prop :=
  (l = pred i /\ i <> 0%nat /\ sent x' = sent (lk s l) /\ wopen x' = wopen (lk s l)) \/
  (l = i /\ extends (lk s l) x').

Lemma own_link_others s i l x' j c :
  inv s -> (l < length (links s))%nat -> own_link s i l x' -> j <> i ->
  stage_ok (is_last s j) j c (lk s (pred j)) (lk s j) ->
  stage_ok (is_last s j) j c (<[l := x']> (links s) !!! pred j) (<[l := x']> (links s) !!! j).
Proof.
  intros Hi Hl Hown Hj H. unfold lk in *.
  assert (Hx : (taken (links s !!! l) <= length (sent (links s !!! l)))%nat).
  { destruct (lookup_lt_is_Some_2 (links s) l Hl) as [x E]. rewrite (list_lookup_total_correct _ _ _ E). exact (iv_taken _ Hi _ _ E). }
  destruct Hown as [(-> & Hi0 & Hs & Hw)|(-> & He)].
  - destruct (decide (j = pred i)) as [->|Hne].
    + rewrite (list_lookup_total_insert_eq (links s) (pred i)) by done. apply (stage_writer _ _ _ _ (lk s (pred i))); [done|done|].
      destruct (decide (pred (pred i) = pred i)) as [E|E].
      * assert (pred i = 0)%nat as Ep by lia. rewrite Ep in *. exact (stage_main _ _ _ _ _ H).
      * now rewrite list_lookup_total_insert_ne.
    + rewrite (list_lookup_total_insert_ne _ _ j) by done.
      destruct (decide (j = 0%nat)) as [->|Hj0]; [exact (stage_main _ _ _ _ _ H)|]. rewrite list_lookup_total_insert_ne by lia. done.
  - rewrite (list_lookup_total_insert_ne _ _ j) by done. destruct (decide (j = 0%nat)) as [->|Hj0]; [exact (stage_main _ _ _ _ _ H)|].
    destruct (decide (pred j = i)) as [E|Hne]; [|now rewrite list_lookup_total_insert_ne].
    rewrite E in *. rewrite list_lookup_total_insert_eq by done. exact (stage_reader _ _ _ _ _ _ Hx He H).
Qed.

(** A step that moves process [i] to [c] and changes one of its links. *)
Lemma chain_move s i p c l x' out' :
  inv s -> procs s !! i = Some p -> (l < length (links s))%nat -> (taken x' <= length (sent x'))%nat ->
  own_link s i l x' ->
  stage_ok (is_last s i) i c (<[l := x']> (links s) !!! pred i) (<[l := x']> (links s) !!! i) ->
  out' = (if is_last s i then printed (pred (length (links s))) ++ partly c else output s) ->
  inv (mk_state (<[i := set_pc c p]> (procs s)) (<[l := x']> (links s)) out').
Proof.
  intros Hi Hp Hl Hx Hown Hst ->. pose proof (lookup_lt_Some _ _ _ Hp) as Hlt.
  assert (Hlast : forall j, is_last (mk_state (<[i := set_pc c p]> (procs s)) (<[l := x']> (links s)) (if is_last s i then printed (pred (length (links s))) ++ partly c else output s)) j = is_last s j).
  { intros j. unfold is_last. cbn. now rewrite length_insert. }
  split; cbn [procs links output].
  - rewrite !length_insert. apply Hi.
  - rewrite length_insert. apply Hi.
  - intros l0 x0 E. apply list_lookup_insert_Some in E as [(-> & <- & _)|(_ & E)]; [done|]. exact (iv_taken _ Hi _ _ E).
  - intros j q E. rewrite Hlast. apply list_lookup_insert_Some in E as [(-> & <- & _)|(_ & E)]; exact (iv_wired _ Hi _ _ ltac:(eassumption)).
  - intros j q E. rewrite Hlast. apply list_lookup_insert_Some in E as [(-> & <- & _)|(Hne & E)]; [exact Hst|].
    apply (own_link_others s i l x'); [done|done|done|done|]. exact (iv_stage _ Hi _ _ E).
  - intros q E. rewrite length_insert in *. apply list_lookup_insert_Some in E as [(Hil & <- & _)|(Hne & E)].
    + unfold is_last. rewrite bool_decide_true; [done|]. rewrite (iv_len _ Hi). lia.
    + unfold is_last. rewrite bool_decide_false by (rewrite (iv_len _ Hi); lia). exact (iv_out _ Hi _ E).
Qed.

Lemma lk_some s l x : links s !! l = Some x -> lk s l = x /\ (l < length (links s))%nat.
Proof. intros E. split; [exact (list_lookup_total_correct _ _ _ E)|exact (lookup_lt_Some _ _ _ E)]. Qed.

Lemma proc_of s i : inv s -> (i <= length (links s))%nat -> exists p, procs s !! i = Some p.
Proof. intros Hi Hl. apply lookup_lt_is_Some_2. rewrite (iv_len _ Hi). lia. Qed.

Lemma sieve_prefix p xs ys : xs `prefix_of` ys -> sieve p xs `prefix_of` sieve p ys.
Proof. intros [zs ->]. rewrite sieve_app. now eexists. Qed.

(** What a process writes is what the next one in an endless run would receive. *)
Lemma sent_stream s : inv s -> forall l, (l < length (links s))%nat ->
  sent (lk s l) `prefix_of` stream l /\ (wopen (lk s l) = false -> sent (lk s l) = stream l).
Proof.
  intros Hi. induction l as [|l IH]; intros Hl.
  - destruct (proc_of s 0 Hi ltac:(lia)) as [p Hp]. pose proof (iv_stage _ Hi _ _ Hp) as Hs.
    assert (Hlast : is_last s 0 = false) by (unfold is_last; rewrite (iv_len _ Hi); apply bool_decide_false; lia).
    rewrite Hlast in Hs. destruct (at_pc p); cbn in Hs; try (now destruct Hs as (? & ? & _)).
    + destruct Hs as (_ & _ & Hn & -> & ->). split; [|done]. cbn [stream]. exists (seqZ i (36 - i)).
      replace 34 with (i - 2 + (36 - i)) by lia. rewrite seqZ_app by lia. do 2 f_equal. lia.
    + destruct Hs as (_ & _ & ->). done.
    + destruct Hs as (_ & _ & ->). done.
  - destruct (IH ltac:(lia)) as [Hpre Hall]. destruct (proc_of s (S l) Hi ltac:(lia)) as [p Hp]. pose proof (iv_stage _ Hi _ _ Hp) as Hs.
    assert (Hlast : is_last s (S l) = false) by (unfold is_last; rewrite (iv_len _ Hi); apply bool_decide_false; lia).
    rewrite Hlast in Hs. cbn [pred] in Hs. cbn [stream].
    assert (Hsv : sieved (lk s l) (lk s (S l)) -> sent (lk s (S l)) = match stream l with [] => [] | p :: xs => sieve p xs end).
    { intros (q & xs & E1 & _ & Hf & ->). now rewrite <- (Hall Hf), E1. }
    assert (Hcp : forall q xs, take (taken (lk s l)) (sent (lk s l)) = q :: xs ->
      sieve q xs `prefix_of` match stream l with [] => [] | p :: xs => sieve p xs end).
    { intros q xs E. assert (Hq : q :: xs `prefix_of` stream l) by (rewrite <- E; etrans; [apply prefix_take|exact Hpre]).
      destruct Hq as [zs ->]. apply sieve_prefix. now eexists. }
    destruct (at_pc p); cbn in Hs; try (now destruct Hs as (? & ? & _)).
    + destruct Hs as (_ & _ & -> & xs & E & ->). split; [now apply Hcp|done].
    + destruct Hs as (_ & _ & -> & xs & E & ->). split; [|done]. etrans; [|exact (Hcp _ _ E)]. apply sieve_prefix. now eexists.
    + destruct Hs as (_ & _ & -> & H). rewrite (Hsv H). done.
    + destruct Hs as (_ & _ & H). rewrite (Hsv H). done.
    + destruct Hs as (_ & _ & H). rewrite (Hsv H). done.
Qed.

Lemma stream_length l : (length (stream l) <= 34)%nat.
Proof.
  induction l as [|l IH]; cbn [stream]; [now rewrite length_seqZ|]. destruct (stream l) as [|p xs]; [cbn; lia|].
  unfold sieve. pose proof (filter_length_le (fun t => negb (Z.rem t p =? 0)) xs). cbn in IH. lia.
Qed.

(** No pipe ever fills up. *)
Lemma never_full s l : inv s -> (l < length (links s))%nat -> full (lk s l) = false.
Proof.
  intros Hi Hl. destruct (sent_stream s Hi l Hl) as [Hp%prefix_length _]. pose proof (stream_length l). apply bool_decide_false. lia.
Qed.

Lemma inv_move_pc s i p c out' :
  inv s -> procs s !! i = Some p ->
  stage_ok (is_last s i) i c (lk s (pred i)) (lk s i) ->
  out' = (if is_last s i then printed (pred (length (links s))) ++ partly c else output s) ->
  inv (mk_state (<[i := set_pc c p]> (procs s)) (links s) out').
Proof.
  intros Hi Hp Hst Hout. pose proof (lookup_lt_Some _ _ _ Hp) as Hlt. rewrite (iv_len _ Hi) in Hlt. pose proof (iv_two _ Hi).
  destruct (lookup_lt_is_Some_2 (links s) (pred i) ltac:(lia)) as [x E]. destruct (lk_some _ _ _ E) as [El Hl].
  assert (Eid : <[pred i := x]> (links s) = links s) by now apply list_insert_id.
  rewrite <- Eid. apply chain_move; try done.
  - exact (iv_taken _ Hi _ _ E).
  - destruct (decide (i = 0%nat)) as [->|Hi0]; [right|left; now rewrite El]. split; [done|]. rewrite El.
    split; [done|]. split; [exists []; now rewrite app_nil_r|done].
  - now rewrite Eid.
Qed.

(** The branches in which the process writes to its child. *)
Lemma inv_send s i p c x t :
  inv s -> procs s !! i = Some p -> is_last s i = false -> links s !! out_link p = Some x -> wopen x = true ->
  stage_ok false i c (lk s (pred i)) (mk_link (sent x ++ t) (taken x) (wopen x)) ->
  inv (set_link (out_link p) (mk_link (sent x ++ t) (taken x) (wopen x)) (at_proc i c p s)).
Proof.
  intros Hi Hp Hlast Hx Hw Hst. destruct (iv_wired _ Hi _ _ Hp) as [_ Hwr]. destruct (Hwr Hlast) as [Eo _]. rewrite Eo in *.
  destruct (lk_some _ _ _ Hx) as [El Hl]. pose proof (iv_taken _ Hi _ _ Hx).
  apply (chain_move s i p c i _ (output s)); [done|done|done|cbn; rewrite length_app; lia| | |now rewrite Hlast].
  - right. split; [done|]. rewrite El. split; [done|]. split; [now exists t|]. rewrite Hw. done.
  - rewrite Hlast, list_lookup_total_insert_eq by done. destruct (decide (i = 0%nat)) as [->|Hi0]; [exact (stage_main _ _ _ _ _ Hst)|].
    now rewrite list_lookup_total_insert_ne by lia.
Qed.

(** Closing the pipe to the child. *)
Lemma inv_shut s i p c x :
  inv s -> procs s !! i = Some p -> is_last s i = false -> links s !! out_link p = Some x -> wopen x = true ->
  stage_ok false i c (lk s (pred i)) (mk_link (sent x) (taken x) false) ->
  inv (set_link (out_link p) (mk_link (sent x) (taken x) false) (at_proc i c p s)).
Proof.
  intros Hi Hp Hlast Hx Hw Hst. destruct (iv_wired _ Hi _ _ Hp) as [_ Hwr]. destruct (Hwr Hlast) as [Eo _]. rewrite Eo in *.
  destruct (lk_some _ _ _ Hx) as [El Hl]. pose proof (iv_taken _ Hi _ _ Hx).
  apply (chain_move s i p c i _ (output s)); [done|done|done|done| | |now rewrite Hlast].
  - right. split; [done|]. rewrite El. split; [done|]. split; [exists []; now rewrite app_nil_r|]. rewrite Hw. done.
  - rewrite Hlast, list_lookup_total_insert_eq by done. destruct (decide (i = 0%nat)) as [->|Hi0]; [exact (stage_main _ _ _ _ _ Hst)|].
    now rewrite list_lookup_total_insert_ne by lia.
Qed.

(** Reading the next number. *)
Lemma inv_receive s i p c x t :
  inv s -> procs s !! i = Some p -> i <> 0%nat -> links s !! in_link p = Some x -> sent x !! taken x = Some t ->
  stage_ok (is_last s i) i c (mk_link (sent x) (S (taken x)) (wopen x)) (lk s i) ->
  output s = (if is_last s i then printed (pred (length (links s))) ++ partly c else output s) ->
  inv (set_link (in_link p) (mk_link (sent x) (S (taken x)) (wopen x)) (at_proc i c p s)).
Proof.
  intros Hi Hp Hi0 Hx Ht Hst Hout. destruct (iv_wired _ Hi _ _ Hp) as [Hwr _]. rewrite (Hwr Hi0) in *.
  destruct (lk_some _ _ _ Hx) as [El Hl]. apply lookup_lt_Some in Ht.
  apply (chain_move s i p c (pred i) _ (output s)); [done|done|done|cbn; lia| | |exact Hout].
  - left. now rewrite El.
  - rewrite list_lookup_total_insert_eq by done. rewrite list_lookup_total_insert_ne by lia. done.
Qed.

Lemma head_first s l p : inv s -> (l < length (links s))%nat -> head (sent (lk s l)) = Some p -> first_of l = p.
Proof.
  intros Hi Hl Hh. destruct (sent_stream s Hi l Hl) as [[zs E] _]. unfold first_of. rewrite E. destruct (sent (lk s l)); [done|].
  now injection Hh as ->.
Qed.

Lemma printed_S n : printed (S n) = printed n ++ prime_line (first_of n).
Proof. unfold printed. rewrite seq_S, map_app, concat_app. cbn [map concat Nat.add]. now rewrite app_nil_r. Qed.

Lemma inv_fork s i p n :
  inv s -> procs s !! i = Some p -> at_pc p = Forking n ->
  inv (mk_state
      (<[i := mk_proc (Copying n) (in_link p) (length (links s)) (length (procs s))]> (procs s) ++ [mk_proc Born (length (links s)) 0 0])
      (links s ++ [mk_link [] 0 true]) (output s)).
Proof.
  intros Hi Hp Hpc. pose proof (iv_stage _ Hi _ _ Hp) as Hst. rewrite Hpc in Hst. destruct Hst as (Hlast & Hi0 & Ht & Hh).
  unfold is_last in Hlast. apply bool_decide_eq_true in Hlast. pose proof (iv_len _ Hi) as Hlen.
  assert (i = length (links s)) as -> by lia. set (m := length (links s)) in *.
  set (P := <[m := _]> (procs s) ++ _). set (s' := mk_state P _ _).
  assert (HlenP : length P = S (S m)) by (unfold P; rewrite length_app, length_insert; cbn; lia).
  assert (Hlk : forall l, (l < m)%nat -> lk s' l = lk s l) by (intros l Hl; unfold lk; cbn; now rewrite lookup_total_app_l by (fold m; lia)).
  assert (HlkM : lk s' m = mk_link [] 0 true) by (unfold lk; cbn; rewrite lookup_total_app_r by (fold m; lia); now rewrite Nat.sub_diag).
  assert (Hget : forall j q, P !! j = Some q ->
    (j < m /\ procs s !! j = Some q)%nat \/ (j = m /\ q = mk_proc (Copying n) (in_link p) m (length (procs s))) \/ (j = S m /\ q = mk_proc Born m 0 0)).
  { intros j q E. unfold P in E. apply lookup_app_Some in E as [E|[Hj E]].
    - apply list_lookup_insert_Some in E as [(-> & <- & _)|(Hne & E)]; [auto|]. left. split; [|done]. apply lookup_lt_Some in E. lia.
    - rewrite length_insert in *. apply list_lookup_singleton_Some in E as [E <-]. right; right. split; [lia|done]. }
  assert (Hnl : forall j, (j <= m)%nat -> is_last s' j = false) by (intros j Hj; unfold is_last, s'; cbn [procs]; rewrite HlenP; apply bool_decide_false; lia).
  pose proof (iv_two _ Hi) as Htwo. fold m in Htwo. split.
  - change (length P = S (length (links s ++ [mk_link [] 0 true]))). rewrite HlenP, length_app. cbn. lia.
  - cbn. rewrite length_app. cbn. lia.
  - intros l x E. cbn in E. apply lookup_app_Some in E as [E|[_ E]]; [exact (iv_taken _ Hi _ _ E)|].
    apply list_lookup_singleton_Some in E as [_ <-]. done.
  - intros j q [[Hj E]|[[-> ->]|[-> ->]]]%Hget; cbn.
    + destruct (iv_wired _ Hi _ _ E) as [H1 H2]. split; [done|]. intros _. apply H2. unfold is_last. apply bool_decide_false. lia.
    + split; [apply (iv_wired _ Hi _ _ Hp)|]. intros _. split; [done|lia].
    + split; [done|]. unfold is_last, s'. cbn [procs]. rewrite HlenP, bool_decide_true by lia. done.
  - intros j q [[Hj E]|[[-> ->]|[-> ->]]]%Hget.
    + rewrite (Hnl j), (Hlk j), (Hlk (pred j)) by lia. pose proof (iv_stage _ Hi _ _ E) as H.
      unfold is_last in H. rewrite bool_decide_false in H by lia. exact H.
    + rewrite (Hnl m), HlkM, (Hlk (pred m)) by lia. cbn. split; [done|]. split; [done|]. split; [done|]. exists [].
      split; [|done]. rewrite Ht. destruct (sent (lk s (pred m))); [done|]. now injection Hh as ->.
    + unfold is_last, s'. cbn [procs]. rewrite HlenP, bool_decide_true by lia. fold s'. cbn [pred at_pc stage_ok]. rewrite HlkM. done.
  - intros q E. cbn [links s' output] in *. rewrite length_app in *. cbn [length] in *. fold m in E. replace (m + 1)%nat with (S m) in * by lia.
    destruct (Hget _ _ E) as [[Hj _]|[[Hj _]|[_ ->]]]; [lia|lia|]. cbn [pred at_pc partly]. rewrite app_nil_r, (iv_out _ Hi _ Hp), Hpc. cbn [partly]. fold m.
    assert (Eq : printed (S (pred m)) = printed (pred m) ++ prime_line n) by (rewrite printed_S; now rewrite (head_first s (pred m) n Hi ltac:(fold m; lia) Hh)).
    rewrite <- Eq. f_equal. lia.
Qed.

Lemma take_S_receive (l : list Z) n t : l !! n = Some t -> take (S n) l = take n l ++ [t].
Proof. apply take_S_r. Qed.

Lemma out_last s i p : inv s -> procs s !! i = Some p -> is_last s i = true ->
  i = length (links s) /\ output s = printed (pred (length (links s))) ++ partly (at_pc p).
Proof.
  intros Hi Hp H. unfold is_last in H. apply bool_decide_eq_true in H. rewrite (iv_len _ Hi) in H. injection H as ->. split; [done|].
  exact (iv_out _ Hi _ Hp).
Qed.

Lemma out_lk s i p x : inv s -> procs s !! i = Some p -> is_last s i = false -> links s !! out_link p = Some x -> lk s i = x.
Proof. intros Hi Hp Hl Hx. destruct (iv_wired _ Hi _ _ Hp) as [_ Hw]. destruct (Hw Hl) as [E _]. rewrite E in Hx. now apply lk_some. Qed.

Lemma in_lk s i p x : inv s -> procs s !! i = Some p -> i <> 0%nat -> links s !! in_link p = Some x -> lk s (pred i) = x.
Proof. intros Hi Hp Hl Hx. destruct (iv_wired _ Hi _ _ Hp) as [Hw _]. rewrite (Hw Hl) in Hx. now apply lk_some. Qed.

Lemma not_full s i p x : inv s -> procs s !! i = Some p -> is_last s i = false -> links s !! out_link p = Some x -> full x = true -> False.
Proof.
  intros Hi Hp Hl Hx Hf. pose proof (out_lk _ _ _ _ Hi Hp Hl Hx) as El. destruct (iv_wired _ Hi _ _ Hp) as [_ Hw]. destruct (Hw Hl) as [E _].
  pose proof (never_full s i Hi) as Hnf. rewrite El, Hf in Hnf. rewrite E in Hx. apply lookup_lt_Some in Hx. now apply Hnf in Hx.
Qed.

Lemma seqZ_snoc a n : 0 <= n -> seqZ a (n + 1) = seqZ a n ++ [a + n].
Proof. intros H. rewrite seqZ_app by lia. done. Qed.

Lemma inv_feed s i p n x :
  inv s -> procs s !! i = Some p -> at_pc p = Feeding n -> n <= 35 -> links s !! out_link p = Some x ->
  inv (set_link (out_link p) (mk_link (sent x ++ [n]) (taken x) (wopen x)) (at_proc i (Feeding (n + 1)) p s)).
Proof.
  intros Hi Hp Hc Hn Hx. pose proof (iv_stage _ Hi _ _ Hp) as Hst. rewrite Hc in Hst. destruct Hst as (Hl & Hi0 & Hr & Hs & Hw).
  rewrite (out_lk _ _ _ _ Hi Hp Hl Hx) in *. apply inv_send; try done. cbn. split; [done|]. split; [done|]. split; [lia|]. split; [|done].
  rewrite Hs. replace (n + 1 - 2) with (n - 2 + 1) by lia. rewrite seqZ_snoc by lia. do 2 f_equal. lia.
Qed.

Lemma inv_print s i p n b rest :
  inv s -> procs s !! i = Some p -> at_pc p = Printing n (b :: rest) ->
  inv (mk_state (<[i := set_pc (Printing n rest) p]> (procs s)) (links s) (output s ++ [b])).
Proof.
  intros Hi Hp Hc. pose proof (iv_stage _ Hi _ _ Hp) as Hst. rewrite Hc in Hst. destruct Hst as (Hl & Hi0 & Ht & Hh & Hsuf).
  destruct (out_last _ _ _ Hi Hp Hl) as [_ Eo]. rewrite Hc in Eo. destruct Hsuf as [pre Epre].
  apply inv_move_pc; [done|done| |].
  - split; [done|]. split; [done|]. split; [done|]. split; [done|]. exists (pre ++ [b]). now rewrite <- app_assoc.
  - rewrite Hl, Eo, <- app_assoc. f_equal. cbn [partly]. rewrite Epre, !length_app. cbn [length].
    replace (length pre + S (length rest) - S (length rest))%nat with (length pre) by lia.
    replace (length pre + S (length rest) - length rest)%nat with (length (pre ++ [b])) by (rewrite length_app; cbn; lia).
    rewrite take_app_length. replace (pre ++ b :: rest) with ((pre ++ [b]) ++ rest) by now rewrite <- app_assoc. now rewrite take_app_length.
Qed.

Lemma inv_read s i p n x t :
  inv s -> procs s !! i = Some p -> at_pc p = Copying n -> links s !! in_link p = Some x -> sent x !! taken x = Some t ->
  inv (set_link (in_link p) (mk_link (sent x) (S (taken x)) (wopen x)) (at_proc i (Passing n t) p s)).
Proof.
  intros Hi Hp Hc Hx Ht. pose proof (iv_stage _ Hi _ _ Hp) as Hst. rewrite Hc in Hst. destruct Hst as (Hl & Hi0 & Hw & xs & E & Es).
  rewrite (in_lk _ _ _ _ Hi Hp Hi0 Hx) in *. apply (inv_receive _ _ _ _ _ t); try done; [|now rewrite Hl].
  split; [done|]. split; [done|]. split; [done|]. exists xs. cbn [sent taken]. split; [|done]. now rewrite (take_S_r _ _ t), E.
Qed.

Lemma inv_passing s i p n t x :
  inv s -> procs s !! i = Some p -> at_pc p = Passing n t -> links s !! out_link p = Some x ->
  let t' := if decide (Z.rem t n = 0) then [] else [t] in
  stage_ok false i (Copying n) (lk s (pred i)) (mk_link (sent x ++ t') (taken x) (wopen x)) /\ is_last s i = false /\ wopen x = true /\ lk s i = x.
Proof.
  intros Hi Hp Hc Hx t'. pose proof (iv_stage _ Hi _ _ Hp) as Hst. rewrite Hc in Hst. destruct Hst as (Hl & Hi0 & Hw & xs & E & Es).
  pose proof (out_lk _ _ _ _ Hi Hp Hl Hx) as El. rewrite El in *. split; [|done].
  split; [done|]. split; [done|]. split; [done|]. exists (xs ++ [t]). split; [done|]. cbn [sent]. rewrite sieve_app, Es. f_equal.
  unfold t', sieve. cbn. case_decide; [now rewrite (proj2 (Z.eqb_eq _ _))|now rewrite (proj2 (Z.eqb_neq _ _))].
Qed.

Lemma chain_kept s s' : inv s -> step s s' -> inv s'.
Proof.
  intros Hi Hstep. destruct Hstep as [i p n x Hp Hc Hn Hx Hf|i p n x Hp Hc Hn Hx|i p n x Hp Hc Hn Hx Hf Hr|i p Hp Hc|i p x n Hp Hc Hx Ht|i p x Hp Hc Hx He Hw|i p n b rest Hp Hc|i p n Hp Hc|i p n Hp Hc|i p n x t Hp Hc Hx Ht|i p n x Hp Hc Hx He Hw|i p n t Hp Hc Hr|i p n t x Hp Hc Hr Hx Hf|i p n t x Hp Hc Hr Hx Hf Ho|i p x Hp Hc Hx|i p q st Hp Hc Hq Hqc];
    pose proof (iv_stage _ Hi _ _ Hp) as Hst; rewrite Hc in Hst; cbn in Hst.
  - now apply (inv_feed _ _ _ _ x).
  - destruct Hst as (Hl & -> & Hr & Hs & Hw). rewrite (out_lk _ _ _ _ Hi Hp Hl Hx) in *. apply inv_shut; try done.
    split; [done|]. split; [done|]. cbn. rewrite Hs. f_equal. lia.
  - destruct Hst as (Hl & _). exfalso. now apply (not_full s i p x).
  - destruct Hst as (Hl & Hi0 & Ht). destruct (out_last _ _ _ Hi Hp Hl) as [_ Eo]. apply inv_move_pc; [done|done|done|]. now rewrite Hl, Eo, Hc.
  - destruct Hst as (Hl & Hi0 & Ht0). destruct (out_last _ _ _ Hi Hp Hl) as [_ Eo]. rewrite (in_lk _ _ _ _ Hi Hp Hi0 Hx) in *.
    apply (inv_receive _ _ _ _ _ n); try done.
    + rewrite Hl. split; [done|]. split; [done|]. cbn [taken sent]. split; [now rewrite Ht0|]. split; [rewrite Ht0 in Ht; now destruct (sent x)|done].
    + rewrite Hl, Eo, Hc. cbn [partly]. now rewrite Nat.sub_diag.
  - destruct Hst as (Hl & Hi0 & Ht). destruct (out_last _ _ _ Hi Hp Hl) as [_ Eo]. pose proof (in_lk _ _ _ _ Hi Hp Hi0 Hx) as El. apply inv_move_pc; [done|done| |now rewrite Hl, Eo, Hc].
    rewrite El, Hl in *. split; [done|]. split; [done|]. apply bool_decide_eq_true in He. rewrite Ht in He. now destruct (sent x).
  - now apply (inv_print _ _ _ _ b).
  - destruct Hst as (Hl & Hi0 & Ht & Hh & Hs). destruct (out_last _ _ _ Hi Hp Hl) as [_ Eo]. apply inv_move_pc; [done|done|done|].
    rewrite Hl, Eo, Hc. cbn [partly length]. now rewrite Nat.sub_0_r, firstn_all.
  - exact (inv_fork s i p n Hi Hp Hc).
  - now apply inv_read.
  - destruct Hst as (Hl & Hi0 & Hwo & xs & E & Es). pose proof (in_lk _ _ _ _ Hi Hp Hi0 Hx) as El. apply inv_move_pc; [done|done| |now rewrite Hl].
    rewrite El, Hl in *. split; [done|]. split; [done|]. split; [done|]. apply bool_decide_eq_true in He. rewrite <- He, firstn_all in E. exists n, xs. done.
  - destruct Hst as (Hl & Hi0 & Hwo & xs & E & Es). apply inv_move_pc; [done|done| |now rewrite Hl]. rewrite Hl. split; [done|]. split; [done|].
    split; [done|]. exists (xs ++ [t]). split; [done|]. rewrite sieve_app, Es. unfold sieve at 3. cbn. rewrite (proj2 (Z.eqb_eq _ _)) by done. now rewrite app_nil_r.
  - destruct (inv_passing _ _ _ _ _ _ Hi Hp Hc Hx) as (H1 & H2 & H3 & _). rewrite decide_False in H1 by done. now apply inv_send.
  - destruct (inv_passing _ _ _ _ _ _ Hi Hp Hc Hx) as (_ & Hl & _). exfalso. now apply (not_full s i p x).
  - destruct Hst as (Hl & Hi0 & Hw & Hs). rewrite (out_lk _ _ _ _ Hi Hp Hl Hx) in *. apply inv_shut; try done.
    split; [done|]. split; [done|]. now rewrite decide_False.
  - destruct Hst as (Hl & Hs). apply inv_move_pc; [done|done| |now rewrite Hl]. rewrite Hl. done.
Qed.

(** ** No deadlock *)

Definition exited (p : proc) : Prop := at_pc p = Exited_with 0.

Lemma link_at s i : inv s -> (i < length (links s))%nat -> links s !! i = Some (lk s i).
Proof. intros Hi Hl. destruct (lookup_lt_is_Some_2 (links s) i Hl) as [x E]. now rewrite (proj1 (lk_some _ _ _ E)). Qed.

Lemma in_at s i p : inv s -> procs s !! i = Some p -> i <> 0%nat -> links s !! in_link p = Some (lk s (pred i)).
Proof.
  intros Hi Hp Hi0. destruct (iv_wired _ Hi _ _ Hp) as [Hw _]. rewrite (Hw Hi0). apply link_at; [done|].
  apply lookup_lt_Some in Hp. rewrite (iv_len _ Hi) in Hp. lia.
Qed.

Lemma out_at s i p : inv s -> procs s !! i = Some p -> is_last s i = false ->
  links s !! out_link p = Some (lk s i) /\ full (lk s i) = false.
Proof.
  intros Hi Hp Hl. destruct (iv_wired _ Hi _ _ Hp) as [_ Hw]. destruct (Hw Hl) as [-> _].
  assert (i < length (links s))%nat.
  { apply lookup_lt_Some in Hp. unfold is_last in Hl. apply bool_decide_eq_false in Hl. rewrite (iv_len _ Hi) in *. lia. }
  split; [now apply link_at|now apply never_full].
Qed.

(** A queue has a next number, is at its end, or its writer is not done. *)
Lemma queue_cases s l : inv s -> (l < length (links s))%nat ->
  (exists t, sent (lk s l) !! taken (lk s l) = Some t) \/ (empty (lk s l) = true /\ wopen (lk s l) = false) \/ wopen (lk s l) = true.
Proof.
  intros Hi Hl. pose proof (iv_taken _ Hi _ _ (link_at _ _ Hi Hl)) as Ht. destruct (sent (lk s l) !! taken (lk s l)) eqn:E; [left; eauto|right].
  apply lookup_ge_None in E. destruct (wopen (lk s l)); [now right|left]. split; [|done]. apply bool_decide_true. lia.
Qed.

(** A process that has not closed its pipe can do something, or one before it can. *)
Lemma writer_steps s l : inv s -> (l < length (links s))%nat -> wopen (lk s l) = true -> exists s', step s s'.
Proof.
  intros Hi. induction l as [l IH] using lt_wf_ind. intros Hl Hw. destruct (proc_of s l Hi ltac:(lia)) as [p Hp].
  pose proof (iv_stage _ Hi _ _ Hp) as Hst.
  assert (Hlast : is_last s l = false) by (unfold is_last; rewrite (iv_len _ Hi); apply bool_decide_false; lia).
  rewrite Hlast in Hst. destruct (out_at _ _ _ Hi Hp Hlast) as [Ho Hf].
  destruct (at_pc p) eqn:Hc; cbn in Hst; try (destruct Hst as (? & _); done).
  - destruct (decide (i <= 35)); eexists; [eapply step_feed|eapply step_fed]; eauto; lia.
  - destruct Hst as (_ & Hl0 & _). pose proof (in_at _ _ _ Hi Hp Hl0) as Hin.
    destruct (queue_cases s (pred l) Hi ltac:(lia)) as [[t E]|[[E1 E2]|E]].
    + eexists. eapply step_read; eauto.
    + eexists. eapply step_eof; eauto.
    + apply (IH (pred l)); [lia|lia|done].
  - destruct (decide (Z.rem temp prime = 0)); eexists; [eapply step_drop|eapply step_pass]; eauto.
  - eexists. eapply step_close; eauto.
  - destruct Hst as (_ & Hw' & _). congruence.
  - destruct Hst as (_ & Hw' & _). congruence.
Qed.

Lemma step_or_exited s j p : inv s -> procs s !! j = Some p ->
  (forall q, procs s !! S j = Some q -> exited q) -> exited p \/ exists s', step s s'.
Proof.
  intros Hi Hp Hnext. pose proof (iv_stage _ Hi _ _ Hp) as Hst. destruct (is_last s j) eqn:Hlast.
  - pose proof (out_last _ _ _ Hi Hp Hlast) as [Ej _]. pose proof (iv_two _ Hi). pose proof (in_at _ _ _ Hi Hp ltac:(lia)) as Hin.
    destruct (at_pc p) eqn:Hc; cbn in Hst; try (destruct Hst as (? & _); done).
    + right. eexists. eapply step_born; eauto.
    + destruct (queue_cases s (pred j) Hi ltac:(lia)) as [[t E]|[[E1 E2]|E]].
      * right. eexists. eapply step_first; eauto.
      * right. eexists. eapply step_none; eauto.
      * right. apply (writer_steps s (pred j)); [done|lia|done].
    + right. destruct rest; eexists; [eapply step_printed|eapply step_print]; eauto.
    + right. eexists. eapply step_fork; eauto.
    + left. unfold exited. rewrite Hc. now destruct Hst as (-> & _).
  - assert (j < length (links s))%nat.
    { apply lookup_lt_Some in Hp. unfold is_last in Hlast. apply bool_decide_eq_false in Hlast. rewrite (iv_len _ Hi) in *. lia. }
    destruct (wopen (lk s j)) eqn:Hw; [right; now apply (writer_steps s j)|].
    destruct (at_pc p) eqn:Hc; cbn in Hst; try (destruct Hst as (? & _); done); try (destruct Hst as (_ & _ & Hw' & _); congruence).
    + destruct Hst as (_ & _ & _ & _ & Hw'). congruence.
    + right. destruct (iv_wired _ Hi _ _ Hp) as [_ Hwr]. destruct (Hwr Hlast) as [_ Ech].
      destruct (proc_of s (S j) Hi ltac:(lia)) as [q Hq]. eexists. eapply (step_wait s j p q); [done|done|now rewrite Ech|exact (Hnext _ Hq)].
    + left. unfold exited. rewrite Hc. now destruct Hst as (-> & _).
Qed.

Lemma progress s : inv s -> Forall exited (procs s) \/ exists s', step s s'.
Proof.
  intros Hi.
  assert (H : forall k j, (length (procs s) <= j + k)%nat -> (forall i p, (j <= i)%nat -> procs s !! i = Some p -> exited p) \/ exists s', step s s').
  { induction k as [|k IH]; intros j Hj.
    - left. intros i p Hi' Hp. apply lookup_lt_Some in Hp. lia.
    - destruct (IH (S j) ltac:(lia)) as [Hex|?]; [|now right]. destruct (procs s !! j) as [p|] eqn:Hp.
      + destruct (step_or_exited s j p Hi Hp) as [He|?]; [intros q; now apply Hex| |now right]. left. intros i q Hij Hq.
        destruct (decide (i = j)) as [->|]; [congruence|]. apply (Hex i); [lia|done].
      + left. intros i q Hij Hq. apply lookup_lt_Some in Hq. apply lookup_ge_None in Hp. lia. }
  destruct (H (length (procs s)) 0%nat ltac:(lia)) as [Hex|?]; [left|now right]. apply Forall_lookup. intros i p Hp. apply (Hex i); [lia|done].
Qed.

(** ** Every run ends *)

(** The steps a process may still take, where [t] numbers of its input are taken. *)
Definition work (c : pc) (t : nat) : nat :=
  match c with
  | Feeding i => Z.to_nat (40 - i)
  | Born => 102
  | Reading => 101
  | Printing _ rest => 80 + length rest
  | Forking _ => 79
  | Copying _ => 4 + 2 * (34 - t)
  | Passing _ _ => 5 + 2 * (34 - t)
  | Closing => 3
  | Waiting => 2
  | Exited_with _ => 1
  end.
Definition input_taken (s : state) (i : nat) : nat := if decide (i = 0)%nat then 0%nat else taken (lk s (pred i)).
Definition work_of (s : state) (i : nat) (p : proc) : nat := work (at_pc p) (input_taken s i).
Definition measure (s : state) : nat :=
  sum_list (imap (work_of s) (procs s)) + 103 * (13 - length (procs s)).

Lemma sum_list_insert (l : list nat) i x y : l !! i = Some x -> (sum_list (<[i := y]> l) + x = sum_list l + y)%nat.
Proof.
  revert i. induction l as [|z l IH]; intros [|i] E; [done|done|injection E as ->; simpl; lia|]. specialize (IH i E). unfold id in *. simpl in *. lia.
Qed.

(** Which streams are empty. *)
Lemma stream_ends l : (stream l = [] <-> (11 <= l)%nat).
Proof.
  assert (H11 : stream 11 = []) by (vm_compute; reflexivity).
  assert (Hs : forall k, stream (11 + k) = []) by (induction k as [|k IH]; [done|]; rewrite Nat.add_succ_r; cbn [stream]; now rewrite IH).
  split.
  - intros E. destruct (decide (11 <= l)%nat); [done|]. exfalso.
    do 11 (destruct l as [|l]; [vm_compute in E; discriminate|]). lia.
  - intros Hl. replace l with (11 + (l - 11))%nat by lia. apply Hs.
Qed.

Lemma stage_first i c L O : stage_ok false i c L O -> i <> 0%nat -> sent L <> [].
Proof.
  intros Hst Hi0 E.
  assert (Htk : forall q xs, take (taken L) (sent L) <> q :: xs) by (intros q xs; now rewrite E, take_nil).
  assert (Hsv : ~ sieved L O) by (intros (q & xs & E' & _); congruence).
  destruct c; cbn in Hst; unfold passed in Hst; rewrite ?decide_False in Hst by done; try (destruct Hst as (? & ? & _); done).
  - destruct Hst as (_ & _ & _ & xs & E' & _). now apply Htk in E'.
  - destruct Hst as (_ & _ & _ & xs & E' & _). now apply Htk in E'.
  - destruct Hst as (_ & _ & _ & H). done.
  - destruct Hst as (_ & _ & H). done.
  - destruct Hst as (_ & _ & H). done.
Qed.

Lemma chain_length s : inv s -> (length (links s) <= 12)%nat.
Proof.
  intros Hi. destruct (decide (length (links s) <= 1)%nat); [lia|]. pose (i := pred (length (links s))).
  destruct (proc_of s i Hi ltac:(lia)) as [p Hp]. pose proof (iv_stage _ Hi _ _ Hp) as Hst.
  assert (Hlast : is_last s i = false) by (unfold is_last; rewrite (iv_len _ Hi); apply bool_decide_false; lia). rewrite Hlast in Hst.
  destruct (sent_stream s Hi (pred i) ltac:(lia)) as [[zs Hpre] _].
  pose proof (stage_first _ _ _ _ Hst ltac:(lia)) as Hne.
  assert (Hs : stream (pred i) <> []) by (rewrite Hpre; intros [E _]%app_eq_nil; done). rewrite stream_ends in Hs. lia.
Qed.

Lemma works_insert s s' i p' :
  (forall j, j <> i -> input_taken s' j = input_taken s j) ->
  imap (work_of s') (<[i := p']> (procs s)) = <[i := work_of s' i p']> (imap (work_of s) (procs s)).
Proof.
  intros Hin. apply list_eq. intros j. rewrite list_lookup_imap. destruct (decide (j = i)) as [->|Hne].
  - destruct (decide (i < length (procs s))%nat).
    + rewrite !list_lookup_insert_eq; [done|now rewrite length_imap|done].
    + rewrite !lookup_ge_None_2; [done|rewrite length_insert, length_imap; lia|rewrite length_insert; lia].
  - rewrite !list_lookup_insert_ne, list_lookup_imap by done. destruct (procs s !! j); [|done]. cbn. unfold work_of. now rewrite Hin.
Qed.

Lemma measure_move s i p c ls out :
  procs s !! i = Some p ->
  (forall j, j <> i -> input_taken (mk_state (<[i := set_pc c p]> (procs s)) ls out) j = input_taken s j) ->
  (work c (input_taken (mk_state (<[i := set_pc c p]> (procs s)) ls out) i) < work (at_pc p) (input_taken s i))%nat ->
  (measure (mk_state (<[i := set_pc c p]> (procs s)) ls out) < measure s)%nat.
Proof.
  intros Hp Hin Hlt. set (s' := mk_state _ ls out) in *. unfold measure. change (procs s') with (<[i := set_pc c p]> (procs s)).
  rewrite length_insert, works_insert by done.
  assert (Hlt' : (work_of s' i (set_pc c p) < work_of s i p)%nat) by exact Hlt.
  assert (E : imap (work_of s) (procs s) !! i = Some (work_of s i p)) by now rewrite list_lookup_imap, Hp.
  pose proof (sum_list_insert _ i _ (work_of s' i (set_pc c p)) E). lia.
Qed.

Lemma measure_pc s i p c out :
  procs s !! i = Some p -> (forall t, work c t < work (at_pc p) t)%nat ->
  (measure (mk_state (<[i := set_pc c p]> (procs s)) (links s) out) < measure s)%nat.
Proof. intros Hp Hlt. apply measure_move; [done|done|]. apply Hlt. Qed.

Lemma measure_out s i p c l x x' :
  procs s !! i = Some p -> links s !! l = Some x -> taken x' = taken x -> (forall t, work c t < work (at_pc p) t)%nat ->
  (measure (set_link l x' (at_proc i c p s)) < measure s)%nat.
Proof.
  intros Hp Hx Ht Hlt. change (set_link l x' (at_proc i c p s)) with (mk_state (<[i := set_pc c p]> (procs s)) (<[l := x']> (links s)) (output s)).
  set (s' := mk_state _ _ _). assert (Hin : forall j, input_taken s' j = input_taken s j).
  { intros j. unfold input_taken, lk. cbn. case_decide; [done|]. destruct (decide (l = pred j)) as [->|Hne]; [|now rewrite list_lookup_total_insert_ne].
    rewrite list_lookup_total_insert_eq by now apply lookup_lt_Some in Hx. now rewrite (list_lookup_total_correct _ _ _ Hx). }
  apply measure_move; [done|intros j _; exact (Hin j)|]. fold s'. rewrite Hin. apply Hlt.
Qed.

Lemma measure_in s i p c x x' :
  inv s -> procs s !! i = Some p -> i <> 0%nat -> links s !! in_link p = Some x ->
  (work c (taken x') < work (at_pc p) (taken x))%nat ->
  (measure (set_link (in_link p) x' (at_proc i c p s)) < measure s)%nat.
Proof.
  intros Hi Hp Hi0 Hx Hlt. destruct (iv_wired _ Hi _ _ Hp) as [Hw _]. rewrite (Hw Hi0) in *. pose proof (lookup_lt_Some _ _ _ Hx) as Hl.
  apply measure_move; [done| |].
  - intros j Hj. unfold input_taken, lk. cbn. case_decide; [done|]. rewrite list_lookup_total_insert_ne by lia. done.
  - unfold input_taken, lk. cbn. rewrite !decide_False by done. rewrite list_lookup_total_insert_eq by done.
    now rewrite (list_lookup_total_correct _ _ _ Hx).
Qed.

Lemma measure_fork s i p n :
  inv s -> procs s !! i = Some p -> at_pc p = Forking n ->
  (measure (mk_state
      (<[i := mk_proc (Copying n) (in_link p) (length (links s)) (length (procs s))]> (procs s) ++ [mk_proc Born (length (links s)) 0 0])
      (links s ++ [mk_link [] 0 true]) (output s)) < measure s)%nat.
Proof.
  intros Hi Hp Hc. pose proof (iv_stage _ Hi _ _ Hp) as Hst. rewrite Hc in Hst. destruct Hst as (Hlast & Hi0 & Ht & Hh).
  destruct (out_last _ _ _ Hi Hp Hlast) as [Ei _]. pose proof (chain_length _ (inv_fork _ _ _ _ Hi Hp Hc)) as Hlen. cbn [links] in Hlen. rewrite length_app in Hlen. cbn [length] in Hlen.
  set (s' := mk_state _ _ _). set (p' := mk_proc (Copying n) _ _ _) in *.
  assert (Hin : forall j, input_taken s' j = input_taken s j).
  { intros j. unfold input_taken, lk. case_decide; [done|]. cbn [links s']. destruct (decide (pred j < length (links s))%nat).
    - now rewrite lookup_total_app_l.
    - rewrite (list_lookup_total_alt (links s)), (lookup_ge_None_2 (links s)) by lia. rewrite lookup_total_app_r by lia.
      now destruct (pred j - length (links s))%nat as [|[|k]]. }
  unfold measure. change (procs s') with (<[i := p']> (procs s) ++ [mk_proc Born (length (links s)) 0 0]).
  rewrite imap_app, sum_list_with_app, works_insert, length_app, length_insert by auto.
  assert (E : imap (work_of s) (procs s) !! i = Some (work_of s i p)) by now rewrite list_lookup_imap, Hp.
  pose proof (sum_list_insert _ i _ (work_of s' i p') E) as Hsum.
  assert (Hw1 : work_of s i p = 79%nat) by (unfold work_of; now rewrite Hc).
  assert (Hw2 : (work_of s' i p' <= 72)%nat) by (unfold work_of; cbn [at_pc p' work]; lia).
  change (sum_list_with id (imap _ [_])) with (102 + 0)%nat. cbn [length]. rewrite (iv_len _ Hi) in *. lia.
Qed.

Lemma prime_line_length l : (l < 11)%nat -> (length (prime_line (first_of l)) <= 20)%nat.
Proof. intros H. do 11 (destruct l as [|l]; [vm_compute; lia|]). lia. Qed.

Lemma step_measure s s' : inv s -> step s s' -> (measure s' < measure s)%nat.
Proof.
  intros Hi Hstep. destruct Hstep as [i p n x Hp Hc Hn Hx Hf|i p n x Hp Hc Hn Hx|i p n x Hp Hc Hn Hx Hf Hr|i p Hp Hc|i p x n Hp Hc Hx Ht|i p x Hp Hc Hx He Hw|i p n b rest Hp Hc|i p n Hp Hc|i p n Hp Hc|i p n x t Hp Hc Hx Ht|i p n x Hp Hc Hx He Hw|i p n t Hp Hc Hr|i p n t x Hp Hc Hr Hx Hf|i p n t x Hp Hc Hr Hx Hf Ho|i p x Hp Hc Hx|i p q st Hp Hc Hq Hqc];
    pose proof (iv_stage _ Hi _ _ Hp) as Hst; rewrite Hc in Hst; cbn in Hst.
  all: try (apply measure_pc; [done|rewrite Hc; cbn; lia]).
  all: try (eapply measure_out; [done|exact Hx|done|rewrite Hc; cbn; lia]).
  - destruct Hst as (Hl & Hi0 & Ht0). pose proof (in_lk _ _ _ _ Hi Hp Hi0 Hx) as El. apply measure_in with x; try done. rewrite Hc. cbn [work].
    assert (Hl' : (pred i < length (links s))%nat) by (apply lookup_lt_Some in Hp; rewrite (iv_len _ Hi) in Hp; lia).
    assert (Hh : head (sent (lk s (pred i))) = Some n) by (rewrite El in *; rewrite Ht0 in Ht; now destruct (sent x)).
    assert (Hlt : (pred i < 11)%nat).
    { enough (stream (pred i) <> []) by (destruct (decide (pred i < 11)%nat); [done|]; rewrite stream_ends in *; lia).
      destruct (sent_stream s Hi (pred i) Hl') as [[zs ->] _]. now destruct (sent (lk s (pred i))). }
    pose proof (prime_line_length _ Hlt) as Hlen. rewrite (head_first s (pred i) n Hi Hl' Hh) in Hlen. lia.
  - now apply measure_fork.
  - destruct Hst as (Hl & Hi0 & _). pose proof (in_lk _ _ _ _ Hi Hp Hi0 Hx) as El. apply measure_in with x; try done. rewrite Hc. cbn [work taken].
    assert (Hl' : (pred i < length (links s))%nat) by (apply lookup_lt_Some in Hp; rewrite (iv_len _ Hi) in Hp; lia).
    destruct (sent_stream s Hi (pred i) Hl') as [Hpre%prefix_length _]. pose proof (stream_length (pred i)). apply lookup_lt_Some in Ht. rewrite El in *. lia.
Qed.

(** ** The result *)

Definition is_prime (n : Z) : bool := (2 <=? n) && forallb (fun d => negb (n mod d =? 0)) (seqZ 2 (n - 2)).
Definition all_primes : list Z := List.filter is_prime (seqZ 0 36).
Definition all_lines : list Z := concat (map prime_line all_primes).

Lemma printed_all : printed 11 = all_lines.
Proof. vm_compute. reflexivity. Qed.

Lemma printed_prefix a b : (a <= b)%nat -> printed a `prefix_of` printed b.
Proof.
  intros H. induction H as [|b _ IH]; [done|]. rewrite printed_S. etrans; [exact IH|]. now eexists.
Qed.

Lemma output_prefix s : inv s -> output s `prefix_of` all_lines.
Proof.
  intros Hi. destruct (proc_of s (length (links s)) Hi (le_n _)) as [p Hp]. rewrite (iv_out _ Hi _ Hp), <- printed_all.
  pose proof (chain_length s Hi) as Hlen. pose proof (iv_two _ Hi) as Htwo. set (m := length (links s)) in *.
  destruct (decide (partly (at_pc p) = [])) as [E|Hne]; [rewrite E, app_nil_r; apply printed_prefix; lia|].
  assert (Hq : exists q, head (sent (lk s (pred m))) = Some q /\ partly (at_pc p) `prefix_of` prime_line q).
  { pose proof (iv_stage _ Hi _ _ Hp) as Hst. destruct (at_pc p); cbn in Hst; try done.
    - destruct Hst as (_ & _ & _ & Hh & _). exists prime. split; [done|]. apply prefix_take.
    - destruct Hst as (_ & _ & _ & Hh). exists prime. done. }
  destruct Hq as (q & Hh & Hpre). pose proof (head_first s (pred m) q Hi ltac:(fold m; lia) Hh) as Ef.
  assert (Hlt : (pred m < 11)%nat).
  { enough (stream (pred m) <> []) by (destruct (decide (pred m < 11)%nat); [done|]; rewrite stream_ends in *; lia).
    destruct (sent_stream s Hi (pred m) ltac:(fold m; lia)) as [[zs ->] _]. now destruct (sent (lk s (pred m))). }
  etrans; [|apply (printed_prefix (S (pred m))); lia]. rewrite printed_S, Ef. now apply prefix_app.
Qed.

Lemma output_final s : inv s -> Forall exited (procs s) -> output s = all_lines.
Proof.
  intros Hi Hex. destruct (proc_of s (length (links s)) Hi (le_n _)) as [p Hp]. pose proof (Forall_lookup_1 _ _ _ _ Hex Hp) as He. unfold exited in He.
  pose proof (chain_length s Hi) as Hlen. pose proof (iv_two _ Hi) as Htwo. rewrite (iv_out _ Hi _ Hp), He. cbn [partly]. rewrite app_nil_r, <- printed_all.
  pose proof (iv_stage _ Hi _ _ Hp) as Hst. rewrite He in Hst. set (m := length (links s)) in *.
  assert (Hlast : is_last s m = true) by (unfold is_last; rewrite (iv_len _ Hi); now apply bool_decide_true). rewrite Hlast in Hst.
  destruct Hst as (_ & _ & Hs & _ & Hw). destruct (sent_stream s Hi (pred m) ltac:(fold m; lia)) as [_ Hall]. rewrite (Hall Hw) in Hs.
  apply stream_ends in Hs. f_equal. lia.
Qed.

Lemma chain_reachable s : rtc step start s -> inv s.
Proof. apply (rtc_ind_r inv); [exact start_inv|]. intros s1 s2 _ Hs Hi. exact (chain_kept _ _ Hi Hs). Qed.

(** C8: the sieve, in every interleaving of its processes.  At every moment what has been
    printed is a beginning of the lines for the primes up to 35, in order; no process
    takes an error branch; as long as not all processes have exited, one of them can
    run; every run ends; and when it has ended, exactly these lines are printed. *)
Theorem primes_correct s :
  rtc step start s ->
  output s `prefix_of` all_lines /\
  Forall (fun p => forall st, at_pc p = Exited_with st -> st = 0) (procs s) /\
  ((Forall exited (procs s) /\ output s = all_lines) \/ exists s', step s s') /\
  Acc (fun s2 s1 => step s1 s2) s.
Proof.
  intros Hr. pose proof (chain_reachable s Hr) as Hi. split; [now apply output_prefix|]. split; [|split].
  - apply Forall_lookup. intros i p Hp st Hc. pose proof (iv_stage _ Hi _ _ Hp) as Hst. rewrite Hc in Hst. now destruct Hst as (-> & _).
  - destruct (progress s Hi) as [Hex|Hs]; [left|now right]. split; [done|now apply output_final].
  - clear Hr. remember (measure s) as m eqn:Em. revert s Hi Em. induction m as [m IH] using lt_wf_ind. intros s Hi ->.
    constructor. intros s2 Hs. apply (IH (measure s2)); [now apply step_measure|exact (chain_kept _ _ Hi Hs)|done].
Qed.

Example primes_correct_witness :
  rtc step start start /\ all_primes = [2; 3; 5; 7; 11; 13; 17; 19; 23; 29; 31] /\
  ((Forall exited (procs start) /\ output start = all_lines) \/ exists s', step start s').
Proof.
  split; [apply rtc_refl|]. split; [vm_compute; reflexivity|]. exact (proj1 (proj2 (proj2 (primes_correct start (rtc_refl _ _))))).
Defined.
