(* ===== verification/Sh.v ===== *)
(** * The shell (user/sh.c)

    The parser works on pointers into the command line.  A pointer is the text from
    there to the end of the line ([es]), so [*s] is the head of the list (NUL at the
    end), [s++] its tail, and the distance of two pointers the difference of their
    lengths.  [malloc] is taken to succeed. *)

From stdpp Require Import base numbers list gmap strings.
From ITree Require Import Core.ITreeDefinition.
From S2P Require Import Prelude Kstate Kstring Printf User.

(** ** Commands *)

Notation ptr := (list Z).
Inductive cmd :=
| EXEC (argv : list (ptr * ptr))      (* argv[i], eargv[i] *)
| REDIR (c : cmd) (file efile : ptr) (mode fd : Z)
| PIPE (left right : cmd)
| LIST (left right : cmd)
| BACK (c : cmd).
Definition MAXARGS : nat := 10.

(** The parser gives a result, or panics, in the end because of text left over.
    [NoFuel] is not a behaviour of the program. *)
Inductive res (A : Type) := Done (a : A) | Syntax (msg : string) | Leftovers (s : ptr) | NoFuel.
Arguments Done {A}. Arguments Syntax {A}. Arguments Leftovers {A}. Arguments NoFuel {A}.
Definition res_bind {A B} (r : res A) (f : A -> res B) : res B :=
  match r with Done a => f a | Syntax m => Syntax m | Leftovers s => Leftovers s | NoFuel => NoFuel end.
Notation "'let%' x ':=' c 'in' k" := (res_bind c (fun x => k))
  (at level 200, x pattern, c at level 100, k at level 200, right associativity).

(** ** Tokens *)

Definition whitespace : list Z := [32; 9; 13; 10; 11].
Definition symbols : list Z := bytes "<|>&;()".
Definition strchr_in (set : list Z) (c : Z) : bool := if Ulib.strchr set c then true else false.
Definition is_ws (c : Z) : bool := strchr_in whitespace c.
Definition is_sym (c : Z) : bool := strchr_in symbols c.
Definition in_word (c : Z) : bool := negb (is_ws c) && negb (is_sym c).

(** [while(s < es && f( *s)) s++] *)
Fixpoint skip (f : Z -> bool) (s : ptr) : ptr :=
  match s with
  | [] => []
  | c :: t => if f c then skip f t else s
  end.

(** The token, [q], [eq] and the new [*ps]. *)
Definition gettoken (ps : ptr) : Z * ptr * ptr * ptr :=
  let q := skip is_ws ps in
  let '(ret, eq) :=
    match q with
    | [] => (0, q)
    | c :: t =>
        if (c =? 124) || (c =? 40) || (c =? 41) || (c =? 59) || (c =? 38) || (c =? 60) then (c, t)
        else if c =? 62 then
          match t with
          | c' :: t' => if c' =? 62 then (43, t') else (c, t)
          | [] => (c, t)
          end
        else (97, skip in_word q)
    end in
  (ret, q, eq, skip is_ws eq).

(** [peek]: its answer and the new [*ps]. *)
Definition peek (ps : ptr) (toks : string) : bool * ptr :=
  let s := skip is_ws ps in
  (match s with c :: _ => strchr_in (bytes toks) c | [] => false end, s).

(** ** The parser *)

Definition redir := (ptr * ptr * Z * Z)%type.
Definition redircmd (c : cmd) (r : redir) : cmd := let '(file, efile, mode, fd) := r in REDIR c file efile mode fd.

(** The redirections of [parseredirs], in order; the caller wraps the command. *)
Fixpoint parseredirs (fuel : nat) (ps : ptr) : res (list redir * ptr) :=
  match fuel with
  | O => NoFuel
  | S fuel' =>
      let '(more, ps) := peek ps "<>" in
      if negb more then Done ([], ps) else
      let '(tok, _, _, ps) := gettoken ps in
      let '(tok2, q, eq, ps) := gettoken ps in
      if negb (tok2 =? 97) then Syntax "missing file for redirection" else
      let% (rs, ps) := parseredirs fuel' ps in
      Done ((if tok =? 60 then [(q, eq, O_RDONLY, 0)]
             else if tok =? 62 then [(q, eq, Z.lor O_WRONLY (Z.lor O_CREATE O_TRUNC), 1)]
             else if tok =? 43 then [(q, eq, Z.lor O_WRONLY O_CREATE, 1)]
             else []) ++ rs, ps)
  end.

(** The loop of [parseexec]: the arguments and redirections after [argc] arguments. *)
Fixpoint parseargs (fuel : nat) (argc : nat) (ps : ptr) : res (list (ptr * ptr) * list redir * ptr) :=
  match fuel with
  | O => NoFuel
  | S fuel' =>
      let '(stop, ps) := peek ps "|)&;" in
      if stop then Done ([], [], ps) else
      let '(tok, q, eq, ps) := gettoken ps in
      if tok =? 0 then Done ([], [], ps) else
      if negb (tok =? 97) then Syntax "syntax" else
      if (MAXARGS <=? S argc)%nat then Syntax "too many args" else
      let% (rs, ps) := parseredirs (S (length ps)) ps in
      let% (args, rs', ps) := parseargs fuel' (S argc) ps in
      Done ((q, eq) :: args, rs ++ rs', ps)
  end.

(** [while(peek(ps, es, "&"))] in [parseline]. *)
Fixpoint parseback (fuel : nat) (c : cmd) (ps : ptr) : res (cmd * ptr) :=
  match fuel with
  | O => NoFuel
  | S fuel' =>
      let '(more, ps) := peek ps "&" in
      if negb more then Done (c, ps) else
      let '(_, _, _, ps) := gettoken ps in
      parseback fuel' (BACK c) ps
  end.

Fixpoint parseline (fuel : nat) (ps : ptr) : res (cmd * ptr) :=
  match fuel with
  | O => NoFuel
  | S fuel' =>
      let% (c, ps) := parsepipe fuel' ps in
      let% (c, ps) := parseback (S (length ps)) c ps in
      let '(more, ps) := peek ps ";" in
      if negb more then Done (c, ps) else
      let '(_, _, _, ps) := gettoken ps in
      let% (c', ps) := parseline fuel' ps in
      Done (LIST c c', ps)
  end
with parsepipe (fuel : nat) (ps : ptr) : res (cmd * ptr) :=
  match fuel with
  | O => NoFuel
  | S fuel' =>
      let% (c, ps) := parseexec fuel' ps in
      let '(more, ps) := peek ps "|" in
      if negb more then Done (c, ps) else
      let '(_, _, _, ps) := gettoken ps in
      let% (c', ps) := parsepipe fuel' ps in
      Done (PIPE c c', ps)
  end
with parseexec (fuel : nat) (ps : ptr) : res (cmd * ptr) :=
  match fuel with
  | O => NoFuel
  | S fuel' =>
      let '(block, ps) := peek ps "(" in
      if block then parseblock fuel' ps else
      let% (rs, ps) := parseredirs (S (length ps)) ps in
      let% (args, rs', ps) := parseargs (S (length ps)) 0 ps in
      Done (foldl redircmd (EXEC args) (rs ++ rs'), ps)
  end
with parseblock (fuel : nat) (ps : ptr) : res (cmd * ptr) :=
  match fuel with
  | O => NoFuel
  | S fuel' =>
      let '(open, ps) := peek ps "(" in
      if negb open then Syntax "parseblock" else
      let '(_, _, _, ps) := gettoken ps in
      let% (c, ps) := parseline fuel' ps in
      let '(close, ps) := peek ps ")" in
      if negb close then Syntax "syntax - missing )" else
      let '(_, _, _, ps) := gettoken ps in
      let% (rs, ps) := parseredirs (S (length ps)) ps in
      Done (foldl redircmd c rs, ps)
  end.

(** [parsecmd] up to [nulterminate]; the fuel is enough for every line. *)
Definition parse (s : ptr) : res cmd :=
  let% (c, ps) := parseline (4 * length s + 4) s in
  let '(_, ps) := peek ps "" in
  if bool_decide (ps = []) then Done c else Leftovers ps.

(** ** NUL-termination

    [buf] is the array the line is in, with its final NUL; [store0 s buf p] is [*p = 0]
    for a pointer into the line [s]. *)
Definition offset (s p : ptr) : nat := length s - length p.
Definition store0 (s : ptr) (buf : list Z) (p : ptr) : list Z := <[offset s p := 0]> buf.
Fixpoint nulterminate (s : ptr) (c : cmd) (buf : list Z) : list Z :=
  match c with
  | EXEC argv => foldl (fun b a => store0 s b a.2) buf argv
  | REDIR c' _ efile _ _ => store0 s (nulterminate s c' buf) efile
  | PIPE l r | LIST l r => nulterminate s r (nulterminate s l buf)
  | BACK c' => nulterminate s c' buf
  end.
(** The C string at a pointer. *)
Definition string_at (s : ptr) (buf : list Z) (p : ptr) : list Z := cstr (list_bytes (drop (offset s p) buf)) (length buf).

(** ** Running commands *)

Definition panic_ {A} (s : string) : uprog A := fprintf 2 (s ++ "
") [] ;! exit 1.
Definition fork1 : uprog Z :=
  let! pid := sys Fork in
  if pid =? -1 then panic_ "fork" else uret pid.

(** [runcmd] of a command whose strings are [str p].  It never returns. *)
Fixpoint runcmd {A} (str : ptr -> list Z) (c : cmd) : uprog A :=
  match c with
  | EXEC argv =>
      match argv with
      | [] => exit 1
      | a0 :: _ =>
          sys (Exec (str a0.1) (map (fun a => str a.1) argv)) ;!
          fprintf 2 "exec %s failed
" [VStr (Some (str a0.1))] ;! exit 0
      end
  | REDIR c' file _ mode fd =>
      sys (Close fd) ;!
      let! r := sys (Open (str file) mode) in
      if r <? 0 then fprintf 2 "open %s failed
" [VStr (Some (str file))] ;! exit 1
      else runcmd str c'
  | LIST l r =>
      let! pid := fork1 in
      if pid =? 0 then runcmd str l else sys Wait ;! runcmd str r
  | PIPE l r =>
      let! (e, p) := sys Pipe in
      if e <? 0 then panic_ "pipe" else
      let! pid := fork1 in
      if pid =? 0 then
        sys (Close 1) ;! sys (Dup p.2) ;! sys (Close p.1) ;! sys (Close p.2) ;! runcmd str l
      else
        let! pid := fork1 in
        if pid =? 0 then
          sys (Close 0) ;! sys (Dup p.1) ;! sys (Close p.1) ;! sys (Close p.2) ;! runcmd str r
        else
          sys (Close p.1) ;! sys (Close p.2) ;! sys Wait ;! sys Wait ;! exit 0
  | BACK c' =>
      let! pid := fork1 in
      if pid =? 0 then runcmd str c' else exit 0
  end.

(** [getcmd]: the line, [None] at the end of the input. *)
Definition getcmd (nbuf : Z) : uprog (option (list Z)) :=
  fprintf 2 "$ " [] ;!
  let! buf := gets nbuf in
  uret (if bool_decide (buf = []) || (buf !!! 0%nat =? 0) then None else Some (cstr (list_bytes buf) (length buf))).

(** The child's [runcmd(parsecmd(buf))]. *)
Definition run_line {A} (s : list Z) : uprog A :=
  match parse s with
  | Done c => runcmd (string_at s (nulterminate s c (s ++ [0]))) c
  | Syntax m => panic_ m
  | Leftovers l => fprintf 2 "leftovers: %s
" [VStr (Some l)] ;! panic_ "syntax"
  | NoFuel => crash
  end.

Definition main_loop : uprog unit :=
  loop (fun _ : unit =>
    let! line := getcmd 100 in
    match line with
    | None => break tt
    | Some s =>
        match s with
        | 99 :: 100 :: 32 :: path =>
            let path := take (length path - 1) path in
            let! r := sys (Chdir path) in
            (if r <? 0 then fprintf 2 "cannot cd %s
" [VStr (Some path)] else uret tt) ;! continue tt
        | _ =>
            let! pid := fork1 in
            if pid =? 0 then run_line s else sys Wait ;! continue tt
        end
    end) tt.
Definition sh_main : uprog unit :=
  loop (fun _ : unit =>
    let! fd := sys (Open (bytes "console") O_RDWR) in
    if fd <? 0 then break tt
    else if 3 <=? fd then sys (Close fd) ;! break tt
    else continue tt) tt ;!
  main_loop ;! exit 0.

(** ** The parser always comes to an end *)

Lemma skip_length f s : (length (skip f s) <= length s)%nat.
Proof. induction s as [|c s IH]; cbn; [done|]. destruct (f c); cbn; lia. Qed.

Lemma skip_head f s c t : skip f s = c :: t -> f c = false.
Proof. induction s as [|x s IH]; cbn; [done|]. destruct (f x) eqn:E; [done|]. now intros [= -> _]. Qed.

(** The first byte of a default token belongs to it. *)
Lemma default_in_word c :
  is_ws c = false ->
  (c =? 124) || (c =? 40) || (c =? 41) || (c =? 59) || (c =? 38) || (c =? 60) = false -> c =? 62 = false -> in_word c = true.
Proof.
  intros Hws H1 H2. unfold in_word. rewrite Hws. cbn [negb andb]. apply negb_true_iff. unfold is_sym, strchr_in, symbols. cbn.
  rewrite !orb_false_iff, !Z.eqb_neq in H1. apply Z.eqb_neq in H2.
  repeat match goal with |- context [?a =? c] => rewrite (proj2 (Z.eqb_neq a c)) by lia end. done.
Qed.

Lemma gettoken_length ps : let '(tok, q, eq, ps') := gettoken ps in
  (length ps' <= length eq)%nat /\ (length eq <= length q)%nat /\ (length q <= length ps)%nat /\ (tok <> 0 -> (length eq < length q)%nat) /\ (q <> [] -> (length eq < length q)%nat).
Proof.
  unfold gettoken. pose proof (skip_length is_ws ps) as Hq. destruct (skip is_ws ps) as [|c t] eqn:E; [now cbn in *|].
  pose proof (skip_head _ _ _ _ E) as Hws.
  destruct ((c =? 124) || _ || _ || _ || _ || _) eqn:E1; [pose proof (skip_length is_ws t); cbn in *; lia|].
  destruct (c =? 62) eqn:E2.
  - destruct t as [|c' t]; [cbn in *; lia|]. destruct (c' =? 62); [pose proof (skip_length is_ws t)|pose proof (skip_length is_ws (c' :: t))]; cbn [length] in *; lia.
  - pose proof (default_in_word c Hws E1 E2) as Hw. cbn [skip]. rewrite Hw. pose proof (skip_length in_word t).
    pose proof (skip_length is_ws (skip in_word t)). cbn [length] in *. lia.
Qed.

Lemma skip_skip f s : skip f (skip f s) = skip f s.
Proof. induction s as [|c s IH]; cbn; [done|]. destruct (f c) eqn:E; [done|]. cbn. now rewrite E. Qed.

Lemma peek_length ps toks : let '(b, ps') := peek ps toks in
  (length ps' <= length ps)%nat /\ (b = true -> let '(_, _, _, ps2) := gettoken ps' in (length ps2 < length ps')%nat).
Proof.
  unfold peek. split; [apply skip_length|]. pose proof (gettoken_length (skip is_ws ps)) as H.
  assert (Eq : let '(_, q, _, _) := gettoken (skip is_ws ps) in q = skip is_ws ps).
  { unfold gettoken. rewrite skip_skip. now destruct (match skip is_ws ps with [] => _ | _ => _ end). }
  destruct (gettoken (skip is_ws ps)) as [[[tok q] e] ps2]. subst q. intros Hb.
  destruct (skip is_ws ps); [done|]. destruct H as (H1 & _ & _ & _ & H5). specialize (H5 ltac:(done)). lia.
Qed.

(** A parser that ends, having moved forward. *)
Definition ends_by {A} (r : res (A * ptr)) (n : nat) : Prop :=
  match r with Done (_, ps) => (length ps <= n)%nat | Syntax _ => True | Leftovers _ => False | NoFuel => False end.

Lemma ends_bind {A B} (r : res (A * ptr)) (f : A * ptr -> res (B * ptr)) n m :
  ends_by r n -> (forall a ps, (length ps <= n)%nat -> ends_by (f (a, ps)) m) -> ends_by (res_bind r f) m.
Proof. destruct r as [[a ps]| | |]; cbn; auto; done. Qed.

Lemma ends_mono {A} (r : res (A * ptr)) n m : ends_by r n -> (n <= m)%nat -> ends_by r m.
Proof. destruct r as [[a ps]| | |]; cbn; auto; lia. Qed.

(** [peek] and then [gettoken]. *)
Ltac peek_token ps toks ps' :=
  let Hp := fresh "Hp" in let Hg := fresh "Hg" in
  pose proof (peek_length ps toks) as Hp; destruct (peek ps toks) as [[] ps']; destruct Hp as [Hp Hg]; cbn [negb];
  [specialize (Hg eq_refl)|clear Hg].

Lemma parseredirs_ends fuel : forall ps, (length ps < fuel)%nat -> ends_by (parseredirs fuel ps) (length ps).
Proof.
  induction fuel as [|fuel IH]; intros ps Hf; [lia|]. cbn [parseredirs].
  peek_token ps "<>"%string ps1; [|exact Hp]. destruct (gettoken ps1) as [[[tok q1] e1] ps2].
  pose proof (gettoken_length ps2) as H2. destruct (gettoken ps2) as [[[tok2 q2] e2] ps3].
  destruct (negb (tok2 =? 97)); [done|]. eapply ends_bind; [apply (IH ps3); lia|]. intros rs ps4 H4. cbn. lia.
Qed.

Lemma parseargs_ends fuel : forall argc ps, (length ps < fuel)%nat -> ends_by (parseargs fuel argc ps) (length ps).
Proof.
  induction fuel as [|fuel IH]; intros argc ps Hf; [lia|]. cbn [parseargs].
  pose proof (peek_length ps "|)&;") as Hp. destruct (peek ps "|)&;") as [[] ps1]; destruct Hp as [Hp _]; [exact Hp|].
  pose proof (gettoken_length ps1) as H1. destruct (gettoken ps1) as [[[tok q] e] ps2].
  destruct (Z.eqb_spec tok 0); [cbn; lia|]. destruct (negb (tok =? 97)); [done|]. destruct (_ <=? _)%nat; [done|].
  eapply ends_bind; [apply (parseredirs_ends _ ps2); lia|]. intros rs ps3 H3.
  eapply ends_bind; [apply (IH (S argc) ps3); lia|]. intros [args rs'] ps4 H4. cbn. lia.
Qed.

Lemma parseback_ends fuel : forall c ps, (length ps < fuel)%nat -> ends_by (parseback fuel c ps) (length ps).
Proof.
  induction fuel as [|fuel IH]; intros c ps Hf; [lia|]. cbn [parseback]. peek_token ps "&"%string ps1; [|exact Hp].
  destruct (gettoken ps1) as [[[tok q] e] ps2]. eapply ends_mono; [apply IH; lia|lia].
Qed.

Lemma parser_ends fuel :
  (forall ps, (4 * length ps + 4 <= fuel)%nat -> ends_by (parseline fuel ps) (length ps)) /\
  (forall ps, (4 * length ps + 3 <= fuel)%nat -> ends_by (parsepipe fuel ps) (length ps)) /\
  (forall ps, (4 * length ps + 2 <= fuel)%nat -> ends_by (parseexec fuel ps) (length ps)) /\
  (forall ps, (4 * length ps + 1 <= fuel)%nat -> ends_by (parseblock fuel ps) (length ps)).
Proof.
  induction fuel as [|fuel (IH1 & IH2 & IH3 & IH4)]; [split_and!; intros; lia|]. split_and!; intros ps Hf.
  - cbn [parseline]. eapply ends_bind; [apply (IH2 ps); lia|]. intros c ps1 H1.
    eapply ends_bind; [apply (parseback_ends _ c ps1); lia|]. intros c1 ps2 H2. peek_token ps2 ";"%string ps3; [|cbn; lia].
    destruct (gettoken ps3) as [[[tok q] e] ps4]. eapply ends_bind; [apply (IH1 ps4); lia|]. intros c2 ps5 H5. cbn. lia.
  - cbn [parsepipe]. eapply ends_bind; [apply (IH3 ps); lia|]. intros c ps1 H1. peek_token ps1 "|"%string ps2; [|cbn; lia].
    destruct (gettoken ps2) as [[[tok q] e] ps3]. eapply ends_bind; [apply (IH2 ps3); lia|]. intros c2 ps4 H4. cbn. lia.
  - cbn [parseexec]. pose proof (peek_length ps "(") as Hp. destruct (peek ps "(") as [[] ps1]; destruct Hp as [Hp _].
    + eapply ends_mono; [apply (IH4 ps1); lia|lia].
    + eapply ends_bind; [apply (parseredirs_ends _ ps1); lia|]. intros rs ps2 H2.
      eapply ends_bind; [apply (parseargs_ends _ 0 ps2); lia|]. intros [args rs'] ps3 H3. cbn. lia.
  - cbn [parseblock]. peek_token ps "("%string ps1; [|done]. destruct (gettoken ps1) as [[[tok q] e] ps2].
    eapply ends_bind; [apply (IH1 ps2); lia|]. intros c ps3 H3. peek_token ps3 ")"%string ps4; [|done].
    destruct (gettoken ps4) as [[[tok' q'] e'] ps5]. eapply ends_bind; [apply (parseredirs_ends _ ps5); lia|]. intros rs ps6 H6. cbn. lia.
Qed.

(** C40: the parser of the shell terminates on every line: the fuel given is never used up. *)
Theorem parse_terminates s : parse s <> NoFuel.
Proof.
  unfold parse. destruct (parser_ends (4 * length s + 4)) as [H _]. specialize (H s (le_n _)).
  destruct (parseline _ s) as [[c ps]| | |]; cbn in *; try done. now case_bool_decide.
Qed.

(** ** The strings of a parsed command *)

(** The words of a command, as pointers to their beginning and end. *)
Fixpoint tokens (c : cmd) : list (ptr * ptr) :=
  match c with
  | EXEC argv => argv
  | REDIR c' file efile _ _ => tokens c' ++ [(file, efile)]
  | PIPE l r | LIST l r => tokens l ++ tokens r
  | BACK c' => tokens c'
  end.

Section line.
Context (s : ptr).

(** A token of the line [s]: a maximal run of bytes that are neither white space nor
    symbols. *)
Definition tok_ok (t : ptr * ptr) : Prop :=
  t.1 `suffix_of` s /\ t.2 = skip in_word t.1 /\ exists c r, t.1 = c :: r /\ in_word c = true.
Definition cmd_ok (c : cmd) : Prop := Forall tok_ok (tokens c).
Definition redir_ok (r : redir) : Prop := let '(file, efile, _, _) := r in tok_ok (file, efile).

Definition good {A} (P : A -> Prop) (r : res (A * ptr)) : Prop :=
  match r with Done (a, ps) => P a /\ ps `suffix_of` s | _ => True end.

Lemma good_bind {A B} (P : A -> Prop) (P' : B -> Prop) (r : res (A * ptr)) (f : A * ptr -> res (B * ptr)) :
  good P r -> (forall a ps, P a -> ps `suffix_of` s -> good P' (f (a, ps))) -> good P' (res_bind r f).
Proof. destruct r as [[a ps]| | |]; cbn; auto. intros [? ?]; auto. Qed.

Lemma skip_suffix f (p : ptr) : skip f p `suffix_of` p.
Proof. induction p as [|c p IH]; cbn; [done|]. destruct (f c); [|done]. etrans; [exact IH|]. now exists [c]. Qed.

Lemma gettoken_good ps : ps `suffix_of` s -> let '(tok, q, eq, ps') := gettoken ps in
  ps' `suffix_of` s /\ (tok = 97 -> tok_ok (q, eq)).
Proof.
  intros Hs. unfold gettoken. pose proof (skip_suffix is_ws ps) as Hq. destruct (skip is_ws ps) as [|c t] eqn:E; [split; [apply suffix_nil|done]|].
  assert (Hqs : c :: t `suffix_of` s) by exact (transitivity Hq Hs).
  assert (Hts : t `suffix_of` s) by (etrans; [|exact Hqs]; now exists [c]).
  assert (Hskip : forall p, p `suffix_of` s -> skip is_ws p `suffix_of` s) by (intros p Hp; etrans; [apply skip_suffix|done]).
  pose proof (skip_head _ _ _ _ E) as Hws.
  destruct ((c =? 124) || _ || _ || _ || _ || _) eqn:E1; [split; [auto|intros ->; vm_compute in E1; discriminate]|]. destruct (c =? 62) eqn:E2.
  - assert (c <> 97) by (apply Z.eqb_eq in E2; lia). destruct t as [|c' t]; [split; [apply suffix_nil|done]|].
    destruct (c' =? 62); [|split; [auto|done]]. split; [|done]. apply Hskip. etrans; [|exact Hts]. now exists [c'].
  - pose proof (default_in_word c Hws E1 E2) as Hw. split.
    + apply Hskip. etrans; [apply skip_suffix|done].
    + intros _. split; [done|]. split; [done|]. now exists c, t.
Qed.

Lemma peek_good ps toks : ps `suffix_of` s -> (peek ps toks).2 `suffix_of` s.
Proof. intros H. cbn. etrans; [apply skip_suffix|done]. Qed.

Lemma parseredirs_good fuel : forall ps, ps `suffix_of` s -> good (Forall redir_ok) (parseredirs fuel ps).
Proof.
  induction fuel as [|fuel IH]; intros ps Hs; [done|]. cbn [parseredirs]. pose proof (peek_good ps "<>" Hs) as Hp.
  destruct (peek ps "<>") as [[] ps1]; cbn [negb snd] in *; [|split; [constructor|done]].
  pose proof (gettoken_good ps1 Hp) as H1. destruct (gettoken ps1) as [[[tok q1] e1] ps2]. destruct H1 as [H1 _].
  pose proof (gettoken_good ps2 H1) as H2. destruct (gettoken ps2) as [[[tok2 q2] e2] ps3]. destruct H2 as [H2 H2'].
  destruct (Z.eqb_spec tok2 97) as [->|]; [|done]. cbn [negb].
  eapply good_bind; [apply (IH ps3 H2)|]. intros rs ps4 Hrs H4. split; [|done]. specialize (H2' eq_refl).
  apply Forall_app. split; [|done]. destruct (tok =? 60); [now constructor|]. destruct (tok =? 62); [now constructor|]. destruct (tok =? 43); now constructor.
Qed.

Lemma parseargs_good fuel : forall argc ps, ps `suffix_of` s ->
  good (fun '(args, rs) => Forall tok_ok args /\ Forall redir_ok rs) (parseargs fuel argc ps).
Proof.
  induction fuel as [|fuel IH]; intros argc ps Hs; [done|]. cbn [parseargs]. pose proof (peek_good ps "|)&;" Hs) as Hp.
  destruct (peek ps "|)&;") as [[] ps1]; cbn [snd] in *; [now split|].
  pose proof (gettoken_good ps1 Hp) as H1. destruct (gettoken ps1) as [[[tok q1] e1] ps2]. destruct H1 as [H1 H1'].
  destruct (tok =? 0); [now split|]. destruct (Z.eqb_spec tok 97) as [->|]; [|done]. cbn [negb]. destruct (_ <=? _)%nat; [done|].
  eapply good_bind; [apply (parseredirs_good _ ps2 H1)|]. intros rs ps3 Hrs H3.
  eapply good_bind; [apply (IH (S argc) ps3 H3)|]. intros [args rs'] ps4 [Ha Hrs'] H4. split; [|done].
  split; [constructor; auto|now apply Forall_app].
Qed.

Lemma parseback_good fuel : forall c ps, cmd_ok c -> ps `suffix_of` s -> good cmd_ok (parseback fuel c ps).
Proof.
  induction fuel as [|fuel IH]; intros c ps Hc Hs; [done|]. cbn [parseback]. pose proof (peek_good ps "&" Hs) as Hp.
  destruct (peek ps "&") as [[] ps1]; cbn [negb snd] in *; [|now split].
  pose proof (gettoken_good ps1 Hp) as H1. destruct (gettoken ps1) as [[[tok q1] e1] ps2]. now apply IH.
Qed.

Lemma redirs_ok rs : forall c, cmd_ok c -> Forall redir_ok rs -> cmd_ok (foldl redircmd c rs).
Proof.
  induction rs as [|[[[f e] m] fd] rs IH]; intros c Hc Hrs; [done|]. apply Forall_cons_1 in Hrs as [Hr Hrs]. cbn [foldl redircmd]. apply IH; [|done].
  unfold cmd_ok in *. cbn [tokens]. apply Forall_app. split; [done|now constructor].
Qed.

Lemma parser_good fuel :
  (forall ps, ps `suffix_of` s -> good cmd_ok (parseline fuel ps)) /\ (forall ps, ps `suffix_of` s -> good cmd_ok (parsepipe fuel ps)) /\
  (forall ps, ps `suffix_of` s -> good cmd_ok (parseexec fuel ps)) /\ (forall ps, ps `suffix_of` s -> good cmd_ok (parseblock fuel ps)).
Proof.
  assert (Hpk : forall ps toks b ps', ps `suffix_of` s -> peek ps toks = (b, ps') -> ps' `suffix_of` s).
  { intros ps toks b ps' Hs E. pose proof (peek_good ps toks Hs) as H. now rewrite E in H. }
  assert (Hgt : forall ps tok q e ps', ps `suffix_of` s -> gettoken ps = (tok, q, e, ps') -> ps' `suffix_of` s).
  { intros ps tok q e ps' Hs E. pose proof (gettoken_good ps Hs) as H. rewrite E in H. apply H. }
  assert (H2 : forall l r, cmd_ok l -> cmd_ok r -> Forall tok_ok (tokens l ++ tokens r)) by (intros; now apply Forall_app).
  induction fuel as [|fuel (IH1 & IH2 & IH3 & IH4)]; [done|]. split_and!; intros ps Hs.
  - cbn [parseline]. eapply good_bind; [apply (IH2 ps Hs)|]. intros c ps1 Hc S1. eapply good_bind; [apply (parseback_good _ c ps1 Hc S1)|]. intros c1 ps2 Hc1 S2.
    destruct (peek ps2 ";") as [[] ps3] eqn:E3; cbn [negb]; [|split; eauto]. destruct (gettoken ps3) as [[[tok q] e] ps4] eqn:E4.
    eapply good_bind; [apply (IH1 ps4); eauto|]. intros c2 ps5 Hc2 S5. split; [now apply H2|done].
  - cbn [parsepipe]. eapply good_bind; [apply (IH3 ps Hs)|]. intros c ps1 Hc S1.
    destruct (peek ps1 "|") as [[] ps3] eqn:E3; cbn [negb]; [|split; eauto]. destruct (gettoken ps3) as [[[tok q] e] ps4] eqn:E4.
    eapply good_bind; [apply (IH2 ps4); eauto|]. intros c2 ps5 Hc2 S5. split; [now apply H2|done].
  - cbn [parseexec]. destruct (peek ps "(") as [[] ps1] eqn:E1; [apply IH4; eauto|].
    eapply good_bind; [apply (parseredirs_good _ ps1); eauto|]. intros rs ps2 Hrs S2. eapply good_bind; [apply (parseargs_good _ 0 ps2 S2)|].
    intros [args rs'] ps3 [Ha Hrs'] S3. split; [|done]. apply redirs_ok; [done|now apply Forall_app].
  - cbn [parseblock]. destruct (peek ps "(") as [[] ps1] eqn:E1; cbn [negb]; [|done]. destruct (gettoken ps1) as [[[tok q] e] ps2] eqn:E2.
    eapply good_bind; [apply (IH1 ps2); eauto|]. intros c ps3 Hc S3. destruct (peek ps3 ")") as [[] ps4] eqn:E4; cbn [negb]; [|done].
    destruct (gettoken ps4) as [[[tok' q'] e'] ps5] eqn:E5. eapply good_bind; [apply (parseredirs_good _ ps5); eauto|]. intros rs ps6 Hrs S6.
    split; [now apply redirs_ok|done].
Qed.
End line.

(** The stores of [nulterminate] go to the ends of the tokens. *)
Lemma nulterminate_tokens s c : forall buf, nulterminate s c buf = foldl (fun b t => store0 s b t.2) buf (tokens c).
Proof.
  induction c as [argv|c IH f e m fd|l IHl r IHr|l IHl r IHr|c IH]; intros buf; cbn [nulterminate tokens]; rewrite ?foldl_app; cbn [foldl]; try done.
  - now rewrite IH.
  - now rewrite IHl, IHr.
  - now rewrite IHl, IHr.
Qed.

Lemma stores_length s (ts : list (ptr * ptr)) : forall buf, length (foldl (fun b t => store0 s b t.2) buf ts) = length buf.
Proof. induction ts as [|t ts IH]; intros buf; [done|]. cbn [foldl]. rewrite IH. apply length_insert. Qed.

Lemma stores_lookup s (ts : list (ptr * ptr)) i : forall buf,
  (i < length buf)%nat ->
  foldl (fun b t => store0 s b t.2) buf ts !! i = if decide (i ∈ map (fun t => offset s t.2) ts) then Some 0 else buf !! i.
Proof.
  induction ts as [|t ts IH]; intros buf Hi; cbn [foldl map]; [rewrite decide_False; [done|apply not_elem_of_nil]|].
  rewrite IH by (unfold store0; now rewrite length_insert). unfold store0. destruct (decide (i ∈ map _ ts)) as [H|H].
  - rewrite decide_True; [done|now right].
  - destruct (decide (offset s t.2 = i)) as [<-|Hne].
    + rewrite decide_True by now left. now rewrite list_lookup_insert_eq.
    + rewrite list_lookup_insert_ne by done. rewrite decide_False; [done|]. intros [->|?]%elem_of_cons; done.
Qed.

Lemma skip_split f s : exists w, s = w ++ skip f s /\ Forall (fun c => f c = true) w.
Proof.
  induction s as [|c s (w & E & Hw)]; cbn; [now exists []|]. destruct (f c) eqn:Ec; [|now exists []]. exists (c :: w). split; [now rewrite E at 1|now constructor].
Qed.

Lemma offset_suffix pre (p : ptr) : offset (pre ++ p) p = length pre.
Proof. unfold offset. rewrite length_app. lia. Qed.

(** A token ends at the end of the line or at a byte that is not part of a word. *)
Lemma tok_end s t : tok_ok s t -> offset s t.2 = length s \/ exists x, s !! offset s t.2 = Some x /\ in_word x = false.
Proof.
  destruct t as [q e]. cbn [snd]. intros ([pre E] & Eq & c & r & Eq1 & Hc). cbn [fst snd] in *. destruct (skip_split in_word q) as (w & Ew & _).
  assert (Es : s = (pre ++ w) ++ e) by (rewrite E; rewrite Ew at 1; rewrite <- Eq; apply app_assoc).
  assert (Eo : offset s e = length (pre ++ w)) by (rewrite Es; apply offset_suffix). rewrite Eo.
  destruct e as [|x e]; [left; rewrite Es; now rewrite app_nil_r|right]. exists x. split; [|exact (skip_head _ _ _ _ (eq_sym Eq))].
  rewrite Es, lookup_app_r, Nat.sub_diag by lia. done.
Qed.

Lemma cstr_prefix w rest n : Forall (fun c => c <> 0) w -> (length w < n)%nat -> cstr (list_bytes (w ++ 0 :: rest)) n = w.
Proof.
  intros Hw. revert n. induction Hw as [|c w Hc Hw IH]; intros n Hn; (destruct n as [|n]; [cbn in Hn; lia|]); cbn [app cstr].
  - done.
  - change (list_bytes (c :: w ++ 0 :: rest) O) with c. rewrite (proj2 (nz_true c) Hc). f_equal. apply IH. cbn in Hn. lia.
Qed.

(** A word survives the stores, and one of them ends it. *)
Lemma stored_word s pre w e (ts : list (ptr * ptr)) :
  (forall t, t ∈ ts -> tok_ok s t) -> s = pre ++ w ++ e -> Forall (fun x => in_word x = true) w -> e ∈ ts.*2 ->
  exists rest, drop (length pre) (foldl (fun b t => store0 s b t.2) (s ++ [0]) ts) = w ++ 0 :: rest.
Proof.
  intros Hok Es Hw He. set (B := foldl _ _ _).
  assert (HlenB : length B = S (length s)) by (unfold B; rewrite stores_length, length_app; cbn; lia).
  assert (Hlens : length s = (length pre + length w + length e)%nat) by (rewrite Es, !length_app; lia).
  assert (Hoe : offset s e = (length pre + length w)%nat) by (rewrite Es, app_assoc, <- length_app; apply offset_suffix).
  exists (drop (S (length w)) (drop (length pre) B)). apply list_eq. intros i. rewrite lookup_drop.
  destruct (lt_eq_lt_dec i (length w)) as [[Hi| ->]|Hi].
  - rewrite lookup_app_l by done. unfold B. rewrite stores_lookup by (rewrite length_app; cbn; lia). rewrite decide_False.
    + rewrite Es, <- !app_assoc, lookup_app_r by lia. replace (length pre + i - length pre)%nat with i by lia. now rewrite lookup_app_l.
    + intros (t & Et & Ht)%list_elem_of_fmap. destruct (tok_end s t (Hok t Ht)) as [E|(x & E & Hx)]; [lia|].
      rewrite <- Et in E. rewrite Es, lookup_app_r in E by lia. replace (length pre + i - length pre)%nat with i in E by lia.
      rewrite lookup_app_l in E by done. rewrite Forall_lookup in Hw. rewrite (Hw _ _ E) in Hx. done.
  - rewrite lookup_app_r, Nat.sub_diag by lia. cbn [lookup list_lookup]. unfold B. rewrite stores_lookup by (rewrite length_app; cbn; lia).
    rewrite decide_True; [done|]. apply list_elem_of_fmap in He as (t & -> & Ht). apply list_elem_of_fmap. exists t. now rewrite Hoe.
  - rewrite lookup_app_r by lia. destruct (i - length w)%nat as [|k] eqn:Ek; [lia|].
    change ((0 :: ?l) !! S k) with (l !! k). rewrite !lookup_drop. f_equal. lia.
Qed.

(** C27: after [nulterminate] the strings of a command are its words.  For every line
    without a NUL that parses, each argument and each file name of the command is the
    run of bytes from its first byte up to the next white space, symbol or end of
    the line, and it is not empty: no terminating NUL is stored into another word. *)
Theorem nulterminate_correct s c q e :
  Forall (fun x => x <> 0) s -> parse s = Done c -> (q, e) ∈ tokens c ->
  exists w, q = w ++ e /\ w <> [] /\ Forall (fun x => in_word x = true) w /\
    string_at s (nulterminate s c (s ++ [0])) q = w.
Proof.
  intros Hnz Hparse Hin.
  assert (Hok : cmd_ok s c).
  { unfold parse in Hparse. destruct (parser_good s (4 * length s + 4)) as [H _]. specialize (H s ltac:(done)).
    destruct (parseline _ s) as [[c' ps]| | |]; try done. cbn in Hparse. case_bool_decide; [|done]. injection Hparse as <-. apply H. }
  unfold cmd_ok in Hok. rewrite Forall_forall in Hok. pose proof (Hok _ Hin) as ([pre Es] & Eq & x & r & Eq1 & Hx). cbn [fst snd] in *.
  destruct (skip_split in_word q) as (w & Ew & Hw). rewrite <- Eq in Ew. exists w. split; [done|].
  assert (Hwne : w <> []).
  { intros ->. rewrite Eq1 in Eq. cbn [skip] in Eq. rewrite Hx in Eq. pose proof (skip_length in_word r) as Hl. rewrite <- Eq in Hl.
    apply (f_equal length) in Ew. rewrite Eq1 in Ew. cbn in *. lia. }
  split; [done|]. split; [done|]. unfold string_at. rewrite nulterminate_tokens.
  assert (Es' : s = pre ++ w ++ e) by now rewrite Es, <- Ew.
  assert (Hoq : offset s q = length pre) by (rewrite Es; apply offset_suffix). rewrite Hoq.
  destruct (stored_word s pre w e (tokens c) Hok Es' Hw) as [rest ->]; [apply list_elem_of_fmap; now exists (q, e)|].
  apply cstr_prefix.
  - rewrite Es', !Forall_app in Hnz. apply Hnz.
  - rewrite stores_length, length_app, Es', !length_app. cbn [length]. lia.
Qed.

(** ** Printing and parsing *)

(** A command by its words. *)
Inductive scmd :=
| SExec (argv : list (list Z))
| SRedir (c : scmd) (file : list Z) (mode fd : Z)
| SPipe (l r : scmd)
| SList (l r : scmd)
| SBack (c : scmd).

Definition word (t : ptr * ptr) : list Z := take (length t.1 - length t.2) t.1.
Fixpoint words (c : cmd) : scmd :=
  match c with
  | EXEC argv => SExec (map word argv)
  | REDIR c' f e m fd => SRedir (words c') (word (f, e)) m fd
  | PIPE l r => SPipe (words l) (words r)
  | LIST l r => SList (words l) (words r)
  | BACK c' => SBack (words c')
  end.

Definition MODE_OUT : Z := Z.lor O_WRONLY (Z.lor O_CREATE O_TRUNC).
Definition MODE_APPEND : Z := Z.lor O_WRONLY O_CREATE.
Definition redir_op (mode fd : Z) : list Z :=
  if fd =? 0 then [60] else if mode =? MODE_OUT then [62] else [62; 62].

(** A line for a command, with parentheses around every part. *)
Definition paren (l : list Z) : list Z := 40 :: l ++ [41].
Fixpoint print_cmd (c : scmd) : list Z :=
  match c with
  | SExec argv => concat (map (fun w => w ++ [32]) argv)
  | SRedir c' f m fd => paren (print_cmd c') ++ redir_op m fd ++ f ++ [32]
  | SPipe l r => paren (print_cmd l) ++ [124] ++ paren (print_cmd r)
  | SList l r => paren (print_cmd l) ++ [59] ++ paren (print_cmd r)
  | SBack c' => paren (print_cmd c') ++ [38]
  end.

Definition word_ok (w : list Z) : Prop := w <> [] /\ Forall (fun x => in_word x = true) w.
Fixpoint scmd_ok (c : scmd) : Prop :=
  match c with
  | SExec argv => (length argv < MAXARGS)%nat /\ Forall word_ok argv
  | SRedir c' f m fd =>
      scmd_ok c' /\ word_ok f /\ ((m = O_RDONLY /\ fd = 0) \/ (m = MODE_OUT /\ fd = 1) \/ (m = MODE_APPEND /\ fd = 1))
  | SPipe l r | SList l r => scmd_ok l /\ scmd_ok r
  | SBack c' => scmd_ok c'
  end.

(** What may follow a line: a closing parenthesis or nothing. *)
Definition follow (post : list Z) : Prop := match skip is_ws post with [] => True | x :: _ => x = 41 end.

Lemma peek_cons c t toks : is_ws c = false -> peek (c :: t) toks = (strchr_in (bytes toks) c, c :: t).
Proof. intros H. unfold peek. cbn [skip]. now rewrite H. Qed.

Lemma peek_skip ps toks : peek (skip is_ws ps) toks = peek ps toks.
Proof. unfold peek. now rewrite skip_skip. Qed.

Lemma peek_follow post toks : follow post -> strchr_in (bytes toks) 41 = false -> peek post toks = (false, skip is_ws post).
Proof. unfold follow, peek. destruct (skip is_ws post); [done|]. now intros -> ->. Qed.

Lemma gettoken_sym c t : c ∈ [124; 40; 41; 59; 38; 60] -> gettoken (c :: t) = (c, c :: t, t, skip is_ws t).
Proof. intros H. repeat (apply elem_of_cons in H as [->|H]; [reflexivity|]). now apply not_elem_of_nil in H. Qed.

Lemma in_word_head c : in_word c = true -> is_ws c = false /\ is_sym c = false.
Proof. unfold in_word. rewrite andb_true_iff, !negb_true_iff. done. Qed.

Lemma skip_word w rest : Forall (fun x => in_word x = true) w -> skip in_word (w ++ 32 :: rest) = 32 :: rest.
Proof. induction 1 as [|c w Hc _ IH]; [done|]. cbn [app skip]. now rewrite Hc. Qed.

Lemma gettoken_word w rest : word_ok w -> gettoken (w ++ 32 :: rest) = (97, w ++ 32 :: rest, 32 :: rest, skip is_ws rest).
Proof.
  intros [Hne Hw]. pose proof (skip_word w rest Hw) as Hs. destruct w as [|c w]; [done|]. apply Forall_cons_1 in Hw as [Hc Hw].
  destruct (in_word_head c Hc) as [H1 H2]. unfold gettoken. cbn [app] in *. cbn [skip] in Hs |- *. rewrite H1.
  assert (E : forall x, x ∈ [124; 40; 41; 59; 38; 60; 62] -> c =? x = false).
  { intros x Hx. apply Z.eqb_neq. intros ->. repeat (apply elem_of_cons in Hx as [->|Hx]; [vm_compute in H2; discriminate|]). now apply not_elem_of_nil in Hx. }
  rewrite !E by set_solver. cbn [orb skip]. rewrite Hc in Hs |- *. now rewrite Hs.
Qed.

Lemma word_of w rest : word (w ++ 32 :: rest, 32 :: rest) = w.
Proof. unfold word. cbn [fst snd]. rewrite length_app. replace (_ - _)%nat with (length w) by lia. apply take_app_length. Qed.

(** [parseline] reads a printed command back, up to what follows it. *)
Definition parses (c : scmd) : Prop := forall post fuel,
  follow post -> (4 * length (print_cmd c ++ post) + 4 <= fuel)%nat ->
  exists c', parseline fuel (print_cmd c ++ post) = Done (c', skip is_ws post) /\ words c' = c.

Lemma print_head c rest : scmd_ok c -> skip is_ws (print_cmd c ++ 41 :: rest) = print_cmd c ++ 41 :: rest.
Proof.
  destruct c as [argv|c f m fd|l r|l r|c]; [|done..]. intros [_ Hw]. destruct argv as [|w argv]; [done|]. apply Forall_cons_1 in Hw as [[Hne Hw] _].
  destruct w as [|x w]; [done|]. apply Forall_cons_1 in Hw as [Hx _]. cbn. now rewrite (proj1 (in_word_head x Hx)).
Qed.

Lemma parseredirs_none fuel ps ps' : peek ps "<>" = (false, ps') -> parseredirs (S fuel) ps = Done ([], ps').
Proof. intros E. cbn [parseredirs]. now rewrite E. Qed.

Lemma exec_block c rest fuel :
  scmd_ok c -> parses c -> (4 * length (paren (print_cmd c) ++ rest) + 2 <= fuel)%nat ->
  exists c', words c' = c /\ parseexec fuel (paren (print_cmd c) ++ rest) =
    (let% (rs, ps) := parseredirs (S (length (skip is_ws rest))) (skip is_ws rest) in Done (foldl redircmd c' rs, ps)).
Proof.
  intros Hok Hc Hf. unfold paren in *. cbn [app] in *. rewrite <- app_assoc in *. cbn [app length] in *.
  destruct fuel as [|[|fuel]]; [lia|lia|]. destruct (Hc (41 :: rest) fuel ltac:(done)) as (c' & E & Hw); [lia|].
  exists c'. split; [done|]. cbn [parseexec]. rewrite peek_cons by done. change (strchr_in (bytes "(") 40) with true. cbn iota.
  cbn [parseblock]. rewrite peek_cons by done. change (strchr_in (bytes "(") 40) with true. cbn [negb]. rewrite gettoken_sym by set_solver.
  rewrite print_head by done. rewrite E. cbn [res_bind]. change (skip is_ws (41 :: rest)) with (41 :: rest). rewrite peek_cons by done.
  change (strchr_in (bytes ")") 41) with true. cbn [negb]. rewrite gettoken_sym by set_solver. done.
Qed.

Lemma parsepipe_S fuel ps : parsepipe (S fuel) ps =
  (let% (c, ps) := parseexec fuel ps in
   let '(more, ps) := peek ps "|" in
   if negb more then Done (c, ps) else
   let '(_, _, _, ps) := gettoken ps in
   let% (c', ps) := parsepipe fuel ps in Done (PIPE c c', ps)).
Proof. reflexivity. Qed.

Lemma pipe_block c post fuel :
  scmd_ok c -> parses c -> follow post -> (4 * length (paren (print_cmd c) ++ post) + 3 <= fuel)%nat ->
  exists c', words c' = c /\ parsepipe fuel (paren (print_cmd c) ++ post) = Done (c', skip is_ws post).
Proof.
  intros Hok Hc Hp Hf. destruct fuel as [|fuel]; [lia|]. destruct (exec_block c post fuel Hok Hc ltac:(lia)) as (c' & Hw & E).
  exists c'. split; [done|]. rewrite parsepipe_S, E, (parseredirs_none _ _ (skip is_ws post)) by (rewrite peek_skip; now apply peek_follow).
  cbn [res_bind foldl]. rewrite peek_skip, (peek_follow _ _ Hp) by done. done.
Qed.

(** The rest of [parseline] after its [parsepipe]. *)
Definition line_rest (fuel : nat) (c : cmd) (ps : ptr) : res (cmd * ptr) :=
  let% (c, ps) := parseback (S (length ps)) c ps in
  let '(more, ps) := peek ps ";" in
  if negb more then Done (c, ps) else
  let '(_, _, _, ps) := gettoken ps in
  let% (c', ps) := parseline fuel ps in Done (LIST c c', ps).

Lemma parseline_S fuel ps : parseline (S fuel) ps = (let% (c, ps) := parsepipe fuel ps in line_rest fuel c ps).
Proof. reflexivity. Qed.

Lemma line_end c post fuel : follow post -> line_rest fuel c (skip is_ws post) = Done (c, skip is_ws post).
Proof.
  intros Hp. unfold line_rest. cbn [parseback]. rewrite peek_skip, (peek_follow _ _ Hp) by done. cbn [negb res_bind].
  rewrite peek_skip, (peek_follow _ _ Hp) by done. done.
Qed.

Lemma line_block c post fuel :
  scmd_ok c -> parses c -> follow post -> (4 * length (paren (print_cmd c) ++ post) + 4 <= fuel)%nat ->
  exists c', words c' = c /\ parseline fuel (paren (print_cmd c) ++ post) = Done (c', skip is_ws post).
Proof.
  intros Hok Hc Hp Hf. destruct fuel as [|fuel]; [lia|]. destruct (pipe_block c post fuel Hok Hc Hp ltac:(lia)) as (c' & Hw & E).
  exists c'. split; [done|]. rewrite parseline_S, E. cbn [res_bind]. now apply line_end.
Qed.

(** A symbol after a block is where [parseredirs] stops. *)
Lemma block_sym c x rest fuel :
  scmd_ok c -> parses c -> x ∈ [124; 59; 38] -> (4 * length (paren (print_cmd c) ++ x :: rest) + 2 <= fuel)%nat ->
  exists c', words c' = c /\ parseexec fuel (paren (print_cmd c) ++ x :: rest) = Done (c', x :: rest).
Proof.
  intros Hok Hc Hx Hf. destruct (exec_block c (x :: rest) fuel Hok Hc Hf) as (c' & Hw & E). exists c'. split; [done|]. rewrite E.
  repeat (apply elem_of_cons in Hx as [->|Hx]; [reflexivity|]). now apply not_elem_of_nil in Hx.
Qed.

Lemma parses_pipe l r : scmd_ok l -> scmd_ok r -> parses l -> parses r -> parses (SPipe l r).
Proof.
  intros Hl Hr Pl Pr post fuel Hp Hf. cbn [print_cmd] in *. rewrite <- !app_assoc in *. cbn [app] in *.
  destruct fuel as [|[|fuel]]; [lia|lia|]. destruct (block_sym l 124 (paren (print_cmd r) ++ post) fuel Hl Pl ltac:(set_solver)) as (l' & El & E); [lia|].
  rewrite length_app in Hf. cbn [length] in Hf.
  destruct (pipe_block r post fuel Hr Pr Hp ltac:(lia)) as (r' & Er & E').
  exists (PIPE l' r'). split; [|cbn; congruence]. rewrite parseline_S, parsepipe_S, E. cbn [res_bind].
  rewrite peek_cons by done. change (strchr_in (bytes "|") 124) with true. cbn [negb]. rewrite gettoken_sym by set_solver.
  change (skip is_ws (paren (print_cmd r) ++ post)) with (paren (print_cmd r) ++ post). rewrite E'. cbn [res_bind]. now apply line_end.
Qed.

Lemma parses_list l r : scmd_ok l -> scmd_ok r -> parses l -> parses r -> parses (SList l r).
Proof.
  intros Hl Hr Pl Pr post fuel Hp Hf. cbn [print_cmd] in *. rewrite <- !app_assoc in *. cbn [app] in *.
  destruct fuel as [|[|fuel]]; [lia|lia|]. destruct (block_sym l 59 (paren (print_cmd r) ++ post) fuel Hl Pl ltac:(set_solver)) as (l' & El & E); [lia|].
  rewrite length_app in Hf. cbn [length] in Hf.
  destruct (line_block r post (S fuel) Hr Pr Hp ltac:(lia)) as (r' & Er & E').
  exists (LIST l' r'). split; [|cbn; congruence]. rewrite parseline_S, parsepipe_S, E. cbn [res_bind].
  rewrite peek_cons by done. change (strchr_in (bytes "|") 59) with false. cbn [negb res_bind]. unfold line_rest. cbn [parseback].
  rewrite peek_cons by done. change (strchr_in (bytes "&") 59) with false. cbn [negb res_bind].
  rewrite peek_cons by done. change (strchr_in (bytes ";") 59) with true. cbn [negb]. rewrite gettoken_sym by set_solver.
  change (skip is_ws (paren (print_cmd r) ++ post)) with (paren (print_cmd r) ++ post). now rewrite E'.
Qed.

Lemma parses_back c : scmd_ok c -> parses c -> parses (SBack c).
Proof.
  intros Hc Pc post fuel Hp Hf. cbn [print_cmd] in *. rewrite <- !app_assoc in *. cbn [app] in *. destruct fuel as [|[|fuel]]; [lia|lia|].
  destruct (block_sym c 38 post fuel Hc Pc ltac:(set_solver)) as (c' & Ec & E); [lia|].
  exists (BACK c'). split; [|cbn; congruence]. rewrite parseline_S, parsepipe_S, E. cbn [res_bind].
  rewrite peek_cons by done. change (strchr_in (bytes "|") 38) with false. cbn [negb res_bind]. unfold line_rest. cbn [parseback length].
  rewrite peek_cons by done. change (strchr_in (bytes "&") 38) with true. cbn [negb]. rewrite gettoken_sym by set_solver.
  rewrite peek_skip, (peek_follow _ _ Hp) by done. cbn [negb res_bind]. rewrite peek_skip, (peek_follow _ _ Hp) by done. done.
Qed.

Lemma strchr_sym toks c : is_sym c = false -> Forall (fun x => is_sym x = true) (bytes toks) -> strchr_in (bytes toks) c = false.
Proof.
  intros Hc. unfold strchr_in. induction 1 as [|x l Hx _ IH]; [done|]. cbn [Ulib.strchr]. destruct (nz x); [|done].
  destruct (Z.eqb_spec x c) as [->|]; [congruence|done].
Qed.

Lemma peek_word w rest toks : word_ok w -> Forall (fun x => is_sym x = true) (bytes toks) ->
  peek (w ++ rest) toks = (false, w ++ rest) /\ skip is_ws (w ++ rest) = w ++ rest.
Proof.
  intros [Hne Hw] Ht. destruct w as [|c w]; [done|]. apply Forall_cons_1 in Hw as [Hc _]. destruct (in_word_head c Hc) as [H1 H2].
  cbn [app]. rewrite peek_cons, (strchr_sym toks c H2 Ht) by done. split; [done|]. cbn. now rewrite H1.
Qed.

Definition redir_mode (m fd : Z) : Prop := (m = O_RDONLY /\ fd = 0) \/ (m = MODE_OUT /\ fd = 1) \/ (m = MODE_APPEND /\ fd = 1).

Lemma gettoken_gt x t : gettoken (62 :: x :: t) =
  if x =? 62 then (43, 62 :: x :: t, t, skip is_ws t) else (62, 62 :: x :: t, x :: t, skip is_ws (x :: t)).
Proof. unfold gettoken. change (skip is_ws (62 :: x :: t)) with (62 :: x :: t). cbn iota. now destruct (x =? 62). Qed.

Lemma gettoken_op m fd f rest : redir_mode m fd -> word_ok f ->
  exists q e, gettoken (redir_op m fd ++ f ++ rest) =
    ((if fd =? 0 then 60 else if m =? MODE_OUT then 62 else 43), q, e, f ++ rest) /\
  peek (redir_op m fd ++ f ++ rest) "<>" = (true, redir_op m fd ++ f ++ rest).
Proof.
  intros Hm Hf. destruct (peek_word f rest "" Hf ltac:(constructor)) as [_ Hs]. destruct Hf as [Hne Hw]. destruct f as [|x f]; [done|].
  apply Forall_cons_1 in Hw as [Hx _]. destruct (in_word_head x Hx) as [_ Hsym].
  assert (Hx62 : x =? 62 = false) by (apply Z.eqb_neq; intros ->; vm_compute in Hsym; discriminate).
  change ((x :: f) ++ rest) with (x :: f ++ rest) in *.
  destruct Hm as [[-> ->]|[[-> ->]|[-> ->]]]; do 2 eexists; (split; [|reflexivity]).
  - change (redir_op O_RDONLY 0) with [60]. cbn [app]. rewrite gettoken_sym by set_solver. now rewrite Hs.
  - change (redir_op MODE_OUT 1) with [62]. cbn [app]. now rewrite gettoken_gt, Hx62, Hs.
  - change (redir_op MODE_APPEND 1) with [62; 62]. cbn [app]. rewrite gettoken_gt. change (62 =? 62) with true. cbn iota. now rewrite Hs.
Qed.

Lemma parseredirs_one m fd f post fuel :
  redir_mode m fd -> word_ok f -> follow post ->
  parseredirs (S (S fuel)) (redir_op m fd ++ f ++ 32 :: post) = Done ([(f ++ 32 :: post, 32 :: post, m, fd)], skip is_ws post).
Proof.
  intros Hm Hf Hp.
  assert (Hnone : parseredirs (S fuel) (skip is_ws post) = Done ([], skip is_ws post)) by (apply parseredirs_none; rewrite peek_skip; now apply peek_follow).
  destruct (gettoken_op m fd f (32 :: post) Hm Hf) as (q & e & Eg & Ep). remember (S fuel) as fuel' eqn:Ef. cbn [parseredirs]. rewrite Ep. cbn [negb].
  rewrite Eg, (gettoken_word f post Hf). change (negb (97 =? 97)) with false. cbn iota. rewrite Hnone. cbn [res_bind].
  now destruct Hm as [[-> ->]|[[-> ->]|[-> ->]]].
Qed.

Lemma parses_redir c f m fd : scmd_ok c -> word_ok f -> redir_mode m fd -> parses c -> parses (SRedir c f m fd).
Proof.
  intros Hc Hf Hm Pc post fuel Hp Hfu. cbn [print_cmd] in *. rewrite <- !app_assoc in *. cbn [app] in *. destruct fuel as [|[|fuel]]; [lia|lia|].
  destruct (exec_block c (redir_op m fd ++ f ++ 32 :: post) fuel Hc Pc ltac:(lia)) as (c' & Ec & E).
  assert (Hs : skip is_ws (redir_op m fd ++ f ++ 32 :: post) = redir_op m fd ++ f ++ 32 :: post) by (now destruct Hm as [[-> ->]|[[-> ->]|[-> ->]]]).
  rewrite Hs in E. assert (Hlen : exists k, length (redir_op m fd ++ f ++ 32 :: post) = S k).
  { destruct (redir_op m fd ++ f ++ 32 :: post) eqn:El; [|now eexists]. apply (f_equal length) in El. rewrite !length_app in El. cbn in El. lia. }
  destruct Hlen as [k Ek]. rewrite Ek, parseredirs_one in E by done. cbn [res_bind foldl redircmd] in E.
  exists (REDIR c' (f ++ 32 :: post) (32 :: post) m fd). split; [|cbn [words]; rewrite word_of; congruence].
  rewrite parseline_S, parsepipe_S, E. cbn [res_bind]. rewrite peek_skip, (peek_follow _ _ Hp) by done. cbn [negb res_bind]. now apply line_end.
Qed.

(** The arguments, with what follows them. *)
Definition args_text (argv : list (list Z)) (post : list Z) : list Z := concat (map (fun w => w ++ [32]) argv) ++ post.

Lemma args_text_cons w argv post : args_text (w :: argv) post = w ++ 32 :: args_text argv post.
Proof. unfold args_text. cbn [map concat]. now rewrite <- !app_assoc. Qed.

Lemma args_peek argv post toks : Forall word_ok argv -> follow post -> Forall (fun x => is_sym x = true) (bytes toks) ->
  strchr_in (bytes toks) 41 = false -> peek (args_text argv post) toks = (false, skip is_ws (args_text argv post)).
Proof.
  intros Hw Hp Ht H41. destruct argv as [|w argv]; [now apply peek_follow|]. rewrite args_text_cons. apply Forall_cons_1 in Hw as [Hw _].
  destruct (peek_word w (32 :: args_text argv post) toks Hw Ht) as [E ->]. exact E.
Qed.

Lemma syms toks : forallb is_sym (bytes toks) = true -> Forall (fun x => is_sym x = true) (bytes toks).
Proof. intros H. apply Forall_forall. intros x Hx. rewrite forallb_forall in H. apply H. now apply list_elem_of_In. Qed.

Lemma parseargs_run post : follow post -> forall argv argc fuel,
  Forall word_ok argv -> (length argv + argc < MAXARGS)%nat -> (length argv < fuel)%nat ->
  exists toks, parseargs fuel argc (skip is_ws (args_text argv post)) = Done (toks, [], skip is_ws post) /\ map word toks = argv.
Proof.
  intros Hp. induction argv as [|w argv IH]; intros argc fuel Hw Hmax Hf; (destruct fuel as [|fuel]; [cbn in Hf; lia|]); cbn [parseargs]; rewrite peek_skip.
  - exists []. split; [|done]. change (args_text [] post) with post. unfold peek. unfold follow in Hp. destruct (skip is_ws post) as [|x t]; [done|]. now subst x.
  - rewrite args_text_cons. apply Forall_cons_1 in Hw as [Hw Hws].
    assert (Epk : peek (w ++ 32 :: args_text argv post) "|)&;" = (false, w ++ 32 :: args_text argv post)) by (apply peek_word; [done|now apply syms]).
    rewrite Epk, (gettoken_word w _ Hw). change (97 =? 0) with false. change (negb (97 =? 97)) with false. cbn iota.
    cbn [length] in *. rewrite (proj2 (Nat.leb_gt _ _)) by lia.
    rewrite (parseredirs_none _ _ (skip is_ws (args_text argv post))); [|rewrite peek_skip; apply args_peek; [done|done|now apply syms|done]].
    cbn [res_bind]. destruct (IH (S argc) fuel Hws ltac:(lia) ltac:(lia)) as (toks & E & Em). rewrite E. cbn [res_bind].
    eexists. split; [reflexivity|]. cbn [map]. now rewrite word_of, Em.
Qed.

Lemma parses_exec argv : (length argv < MAXARGS)%nat -> Forall word_ok argv -> parses (SExec argv).
Proof.
  intros Hmax Hw post fuel Hp Hf. change (print_cmd (SExec argv) ++ post) with (args_text argv post) in *.
  destruct fuel as [|[|[|fuel]]]; [lia|lia|lia|].
  assert (Hlen : (length argv <= length (skip is_ws (args_text argv post)))%nat).
  { destruct argv as [|w argv]; [cbn; lia|]. clear Hf Hmax. 
    assert (Hs : skip is_ws (args_text (w :: argv) post) = args_text (w :: argv) post).
    { rewrite args_text_cons. apply (peek_word w _ ""); [now apply Forall_cons_1 in Hw|constructor]. }
    rewrite Hs. clear Hs Hw. induction (w :: argv) as [|x l IH]; [cbn; lia|]. rewrite args_text_cons, length_app. cbn [length]. lia. }
  destruct (parseargs_run post Hp argv 0 (S (length (skip is_ws (args_text argv post)))) Hw ltac:(lia) ltac:(lia)) as (toks & E & Em).
  exists (EXEC toks). split; [|cbn; now rewrite Em]. rewrite parseline_S, parsepipe_S. cbn [parseexec].
  rewrite (args_peek argv post "(" Hw Hp) by (now apply syms || done).
  rewrite (parseredirs_none _ _ (skip is_ws (args_text argv post))); [|rewrite peek_skip; apply args_peek; [done|done|now apply syms|done]].
  cbn [res_bind]. rewrite E. cbn [res_bind app foldl]. rewrite peek_skip, (peek_follow _ _ Hp) by done. cbn [negb res_bind]. now apply line_end.
Qed.

Lemma all_parse c : scmd_ok c -> parses c.
Proof.
  induction c as [argv|c IH f m fd|l IHl r IHr|l IHl r IHr|c IH]; cbn [scmd_ok].
  - intros [? ?]. now apply parses_exec.
  - intros (? & ? & ?). apply parses_redir; auto.
  - intros [? ?]. apply parses_pipe; auto.
  - intros [? ?]. apply parses_list; auto.
  - intros ?. apply parses_back; auto.
Qed.

(** C24: parsing inverts printing.  Every command of words without white space or symbols,
    with at most nine arguments to a program, any nesting of pipes, lists,
    background commands and redirections, is what the parser makes of a line printed
    for it; in particular the parser reaches every such command. *)
Theorem parse_print c : scmd_ok c -> exists c', parse (print_cmd c) = Done c' /\ words c' = c.
Proof.
  intros Hok. destruct (all_parse c Hok [] (4 * length (print_cmd c) + 4)%nat ltac:(done)) as (c' & E & Hw); [rewrite app_nil_r; lia|].
  rewrite app_nil_r in E. exists c'. split; [|done]. unfold parse. now rewrite E.
Qed.

(** [(ls | grep x y) > out; sleep &] *)
Definition sample : scmd :=
  SList (SRedir (SPipe (SExec [bytes "ls"]) (SExec [bytes "grep"; bytes "x"; bytes "y"])) (bytes "out") MODE_OUT 1) (SBack (SExec [bytes "sleep"])).

Lemma words_ok (ws : list (list Z)) : forallb (fun w => negb (bool_decide (w = [])) && forallb in_word w) ws = true -> Forall word_ok ws.
Proof.
  intros H. apply Forall_forall. intros w Hw. rewrite forallb_forall in H. apply list_elem_of_In in Hw. specialize (H w Hw).
  apply andb_true_iff in H as [H1 H2]. apply negb_true_iff, bool_decide_eq_false in H1. split; [done|].
  apply Forall_forall. intros x Hx. rewrite forallb_forall in H2. apply H2. now apply list_elem_of_In.
Qed.

Lemma sample_ok : scmd_ok sample.
Proof.
  cbn [scmd_ok sample]. split; [split; [split|split]|].
  - split; [cbv; lia|now apply words_ok].
  - split; [cbv; lia|now apply words_ok].
  - exact (proj1 (Forall_cons_1 _ _ _ (words_ok [bytes "out"] eq_refl))).
  - right; left. done.
  - split; [cbv; lia|now apply words_ok].
Qed.

Example parse_print_witness :
  print_cmd sample = bytes "(((ls )|(grep x y ))>out );((sleep )&)" /\ exists c', parse (print_cmd sample) = Done c' /\ words c' = sample.
Proof. split; [vm_compute; reflexivity|]. exact (parse_print sample sample_ok). Defined.

Example nulterminate_correct_witness :
  exists c q e w, parse (bytes "echo hi>f;wc") = Done c /\ (q, e) ∈ tokens c /\
    string_at (bytes "echo hi>f;wc") (nulterminate (bytes "echo hi>f;wc") c (bytes "echo hi>f;wc" ++ [0])) q = w /\ w <> [].
Proof.
  destruct (parse (bytes "echo hi>f;wc")) as [c| | |] eqn:E; [|vm_compute in E; discriminate..].
  assert (Hin : (bytes "hi>f;wc", bytes ">f;wc") ∈ tokens c) by (vm_compute in E; injection E as <-; vm_compute; set_solver).
  destruct (nulterminate_correct (bytes "echo hi>f;wc") c _ _ ltac:(repeat constructor; done) E Hin) as (w & _ & Hne & _ & Hs).
  exists c, (bytes "hi>f;wc"), (bytes ">f;wc"), w. split; [done|]. split; [exact Hin|]. split; [exact Hs|exact Hne].
Defined.
