(* ===== verification/Grind.v ===== *)
(** * Random system calls (user/grind.c)

    The pseudo-random generator, and the processes that make system calls in the order
    it says. *)

From stdpp Require Import base numbers list gmap strings.
From ITree Require Import Core.ITreeDefinition.
From S2P Require Import Prelude Kstate Kstring Printf User Grep Utils.

(** ** The generator *)

(** [do_rand(ctx)]: the new [*ctx] and the result, with C's division and remainder on
    [long]. *)
Definition do_rand (ctx : Z) : Z * Z :=
  let x := i64 (u64 (ctx mod 0x7ffffffe + 1)) in
  let hi := Z.quot x 127773 in
  let lo := Z.rem x 127773 in
  let x := i64 (16807 * lo - 2836 * hi) in
  let x := if x <? 0 then i64 (x + 0x7fffffff) else x in
  let x := i64 (x - 1) in
  (u64 x, i32 x).

(** ** The system calls

    The variables of [go] that the loop carries: [fd], the static [buf], [iters] and
    [rand_next]. *)
Record grinder := mk_grinder { g_fd : Z; g_buf : list Z; g_iters : Z; g_rand : Z }.

Definition O_CRW : Z := Z.lor O_CREATE O_RDWR.

(** [close(open(path, O_CREATE|O_RDWR))] *)
Definition touch (path : string) : uprog unit :=
  let! fd := sys (Open (bytes path) O_CRW) in sys (Close fd) ;! uret tt.

(** [pid = fork()] with the child's code, and the test for an error after it. *)
Definition fork_or (child : uprog unit) (failed : uprog unit) : uprog Z :=
  let! pid := sys Fork in
  if pid =? 0 then child ;! exit 0 else
  if pid <? 0 then failed ;! uret pid else uret pid.
Definition fork_failed (msg : string) : uprog unit := uprintf (msg ++ LF) [] ;! exit 1.

Definition chdir_or_exit (path msg : string) : uprog unit :=
  let! r := sys (Chdir (bytes path)) in
  if negb (r =? 0) then uprintf (msg ++ LF) [] ;! exit 1 else uret tt.

(** The branch [what == 19]. *)
Definition go_pipe : uprog unit :=
  let! (r, fds) := sys Pipe in
  if r <? 0 then uprintf ("grind: pipe failed" ++ LF) [] ;! exit 1 else
  fork_or
    (sys Fork ;! sys Fork ;!
     let! r := sys (Write fds.2 (bytes "x")) in
     (if negb (r =? 1) then uprintf ("grind: pipe write failed" ++ LF) [] else uret tt) ;!
     let! (r, _) := sys (Read fds.1 1) in
     if negb (r =? 1) then uprintf ("grind: pipe read failed" ++ LF) [] else uret tt)
    (fork_failed "grind: fork failed") ;!
  sys (Close fds.1) ;! sys (Close fds.2) ;! sys Wait ;! uret tt.

(** The branch [what == 21]. *)
Definition go_create : uprog unit :=
  sys (Unlink (bytes "c")) ;!
  let! fd1 := sys (Open (bytes "c") O_CRW) in
  if fd1 <? 0 then uprintf ("create c failed" ++ LF) [] ;! exit 1 else
  let! r := sys (Write fd1 (bytes "x")) in
  if negb (r =? 1) then uprintf ("write c failed" ++ LF) [] ;! exit 1 else
  let! (r, st) := sys (Fstat fd1) in
  if negb (r =? 0) then uprintf ("fstat failed" ++ LF) [] ;! exit 1 else
  if negb (st_size st =? 1) then uprintf ("fstat reports wrong size %d" ++ LF) [VInt (i32 (st_size st))] ;! exit 1 else
  if 200 <? st_ino st then uprintf ("fstat reports crazy i-number %d" ++ LF) [VInt (st_ino st)] ;! exit 1 else
  sys (Close fd1) ;! sys (Unlink (bytes "c")) ;! uret tt.

(** [if(dup(from) != to){ fprintf(2, "dup failed\n"); exit(status); }] *)
Definition dup_to (from to status : Z) : uprog unit :=
  let! r := sys (Dup from) in
  if negb (r =? to) then fprintf 2 ("dup failed" ++ LF) [] ;! exit status else uret tt.

(** The branch [what == 22]: [echo hi | cat]. *)
Definition go_pipeline : uprog unit :=
  let! (r, aa) := sys Pipe in
  if r <? 0 then fprintf 2 ("pipe failed" ++ LF) [] ;! exit 1 else
  let! (r, bb) := sys Pipe in
  if r <? 0 then fprintf 2 ("pipe failed" ++ LF) [] ;! exit 1 else
  let! pid1 := sys Fork in
  if pid1 =? 0 then
    sys (Close bb.1) ;! sys (Close bb.2) ;! sys (Close aa.1) ;! sys (Close 1) ;!
    dup_to aa.2 1 1 ;!
    sys (Close aa.2) ;!
    sys (Exec (bytes "grindir/../echo") [bytes "echo"; bytes "hi"]) ;!
    fprintf 2 ("echo: not found" ++ LF) [] ;! exit 2
  else if pid1 <? 0 then fprintf 2 ("fork failed" ++ LF) [] ;! exit 3 else
  let! pid2 := sys Fork in
  if pid2 =? 0 then
    sys (Close aa.2) ;! sys (Close bb.1) ;! sys (Close 0) ;!
    dup_to aa.1 0 4 ;!
    sys (Close aa.1) ;! sys (Close 1) ;!
    dup_to bb.2 1 5 ;!
    sys (Close bb.2) ;!
    sys (Exec (bytes "/cat") [bytes "cat"]) ;!
    fprintf 2 ("cat: not found" ++ LF) [] ;! exit 6
  else if pid2 <? 0 then fprintf 2 ("fork failed" ++ LF) [] ;! exit 7 else
  sys (Close aa.1) ;! sys (Close aa.2) ;! sys (Close bb.2) ;!
  let! (n0, b0) := sys (Read bb.1 1) in
  let! (n1, b1) := sys (Read bb.1 1) in
  let buf := [nth 0 b0 0; nth 0 b1 0; 0] in
  sys (Close bb.1) ;!
  let! x1 := wait_status in
  let! x2 := wait_status in
  let! st1 := the x1 in
  let! st2 := the x2 in
  if negb (st1 =? 0) || negb (st2 =? 0) || negb (Ulib.strcmp buf (bytes "hi" ++ [0]) =? 0) then
    vprintf 1 (bytes "exec pipeline failed %d %d " ++ [34] ++ bytes "%s" ++ [34; 10])
      [VInt st1; VInt st2; VStr (Some (cstr (list_bytes buf) 3))] ;!
    exit 1
  else uret tt.

(** What the loop of [go] does for one number. *)
Definition go_step (break0 what : Z) (g : grinder) : uprog grinder :=
  let set_fd fd := mk_grinder fd (g_buf g) (g_iters g) (g_rand g) in
  let done (t : uprog unit) := t ;! uret g in
  let call (e : sysE Z) := sys e ;! uret tt in
  let reap := sys Wait ;! uret tt in
  if what =? 1 then done (touch "grindir/../a")
  else if what =? 2 then done (touch "grindir/../grindir/../b")
  else if what =? 3 then done (call (Unlink (bytes "grindir/../a")))
  else if what =? 4 then
    done (chdir_or_exit "grindir" "chdir grindir failed" ;! call (Unlink (bytes "../b")) ;! call (Chdir (bytes "/")))
  else if what =? 5 then
    sys (Close (g_fd g)) ;! let! fd := sys (Open (bytes "/grindir/../a") O_CRW) in uret (set_fd fd)
  else if what =? 6 then
    sys (Close (g_fd g)) ;! let! fd := sys (Open (bytes "/./grindir/./../b") O_CRW) in uret (set_fd fd)
  else if what =? 7 then done (call (Write (g_fd g) (g_buf g)))
  else if what =? 8 then
    let! (_, bs) := sys (Read (g_fd g) 999) in
    uret (mk_grinder (g_fd g) (bs ++ drop (length bs) (g_buf g)) (g_iters g) (g_rand g))
  else if what =? 9 then done (call (Mkdir (bytes "grindir/../a")) ;! touch "a/../a/./a" ;! call (Unlink (bytes "a/a")))
  else if what =? 10 then done (call (Mkdir (bytes "/../b")) ;! touch "grindir/../b/b" ;! call (Unlink (bytes "b/b")))
  else if what =? 11 then done (call (Unlink (bytes "b")) ;! call (Link (bytes "../grindir/./../a") (bytes "../b")))
  else if what =? 12 then done (call (Unlink (bytes "../grindir/../a")) ;! call (Link (bytes ".././b") (bytes "/grindir/../a")))
  else if what =? 13 then done (fork_or (uret tt) (fork_failed "grind: fork failed") ;! reap)
  else if what =? 14 then done (fork_or (call Fork ;! call Fork) (fork_failed "grind: fork failed") ;! reap)
  else if what =? 15 then done (call (Sbrk 6011))
  else if what =? 16 then
    done (let! top := sys (Sbrk 0) in
          if break0 <? top then let! top := sys (Sbrk 0) in call (Sbrk (i32 (- (top - break0)))) else uret tt)
  else if what =? 17 then
    done (let! pid := fork_or (touch "a") (fork_failed "grind: fork failed") in
          chdir_or_exit "../grindir/.." "chdir failed" ;! call (Kill pid) ;! reap)
  else if what =? 18 then
    done (fork_or (let! pid := sys Getpid in call (Kill pid)) (fork_failed "grind: fork failed") ;! reap)
  else if what =? 19 then done go_pipe
  else if what =? 20 then
    done (fork_or
      (call (Unlink (bytes "a")) ;! call (Mkdir (bytes "a")) ;! call (Chdir (bytes "a")) ;!
       call (Unlink (bytes "../a")) ;! call (Open (bytes "x") O_CRW) ;! call (Unlink (bytes "x")))
      (fork_failed "fork failed") ;! reap)
  else if what =? 21 then done go_create
  else if what =? 22 then done go_pipeline
  else uret g.

(** One turn of [while(1)]. *)
Definition go_turn (which_child : bool) (break0 : Z) (g : grinder) : uprog grinder :=
  let iters := u64 (g_iters g + 1) in
  (if iters mod 500 =? 0 then sys (Write 1 (bytes (if which_child then "B" else "A"))) ;! uret tt else uret tt) ;!
  let '(next, r) := do_rand (g_rand g) in
  go_step break0 (Z.rem r 23) (mk_grinder (g_fd g) (g_buf g) iters next).

(** [go(which_child)], with [rand_next] as the caller has set it. *)
Definition go (which_child : bool) (rand_next : Z) : uprog Empty_set :=
  let! break0 := sys (Sbrk 0) in
  sys (Mkdir (bytes "grindir")) ;!
  chdir_or_exit "grindir" "chdir grindir failed" ;!
  sys (Chdir (bytes "/")) ;!
  loop (fun g => let! g := go_turn which_child break0 g in continue g) (mk_grinder (-1) (replicate 999 0) 0 rand_next).

Definition iter : uprog unit :=
  sys (Unlink (bytes "a")) ;! sys (Unlink (bytes "b")) ;!
  let! pid1 := sys Fork in
  if pid1 <? 0 then uprintf ("grind: fork failed" ++ LF) [] ;! exit 1 else
  if pid1 =? 0 then go false 31 ;! exit 0 else
  let! pid2 := sys Fork in
  if pid2 <? 0 then uprintf ("grind: fork failed" ++ LF) [] ;! exit 1 else
  if pid2 =? 0 then go true 7177 ;! exit 0 else
  let! (r1, x1) := sys Wait in
  let st1 := if r1 <? 0 then -1 else x1 in
  (if negb (st1 =? 0) then sys (Kill pid1) ;! sys (Kill pid2) ;! uret tt else uret tt) ;!
  sys Wait ;! exit 0.

Definition grind_main : uprog Empty_set :=
  loop (fun _ : unit =>
    let! pid := sys Fork in
    if pid =? 0 then iter ;! exit 0 else
    (if 0 <? pid then sys Wait ;! uret tt else uret tt) ;!
    sys (Sleep 20) ;! continue tt) tt.

(** ** The generator is what its comment says *)

Lemma i64_small x : - 2 ^ 63 <= x < 2 ^ 63 -> i64 x = x.
Proof.
  intros H. unfold i64, sgn. change (2 ^ (64 - 1)) with (2 ^ 63). destruct (Z.leb_spec 0 x) as [H0|H0].
  - rewrite Z.mod_small by lia. destruct (Z.ltb_spec x (2 ^ 63)); lia.
  - assert (E : x mod 2 ^ 64 = x + 2 ^ 64) by (symmetry; apply (Z.mod_unique _ _ (-1)); lia). rewrite E. destruct (Z.ltb_spec (x + 2 ^ 64) (2 ^ 63)); lia.
Qed.

Section park_miller.
Context (x : Z).
Hypothesis Hx : 1 <= x <= 0x7ffffffe.
Notation hi := (x / 127773).
Notation lo := (x mod 127773).

(** The two products, and their difference, stay below [2^31]. *)
Lemma schrage_bounds : 0 <= 16807 * lo < 2 ^ 31 /\ 0 <= 2836 * hi < 2 ^ 31 /\ - (2 ^ 31 - 1) < 16807 * lo - 2836 * hi < 2 ^ 31 - 1.
Proof.
  assert (H1 : 0 <= lo < 127773) by (apply Z.mod_pos_bound; lia). assert (H2 : 0 <= hi <= 16807) by zdiv. change (2 ^ 31) with 2147483648. lia.
Qed.

(** Schrage's method: the difference is the product modulo [2^31 - 1]. *)
Lemma schrage : (if 16807 * lo - 2836 * hi <? 0 then 16807 * lo - 2836 * hi + 0x7fffffff else 16807 * lo - 2836 * hi) = (16807 * x) mod 0x7fffffff.
Proof.
  pose proof schrage_bounds as (_ & _ & Hb). change (2 ^ 31 - 1) with 0x7fffffff in Hb. assert (E : x = 127773 * hi + lo) by (apply Z.div_mod; lia).
  destruct (Z.ltb_spec (16807 * lo - 2836 * hi) 0).
  - apply (Z.mod_unique _ _ (hi - 1)); lia.
  - apply (Z.mod_unique _ _ hi); lia.
Qed.

(** The product is not zero: multiplying by the inverse of 16807 gives [x] back. *)
Lemma schrage_inverse : x = (1407677000 * ((16807 * x) mod 0x7fffffff)) mod 0x7fffffff.
Proof.
  rewrite Zmult_mod_idemp_r, Z.mul_assoc, Zmult_mod. change (1407677000 * 16807 mod 0x7fffffff) with 1. rewrite Z.mul_1_l, Zmod_mod. symmetry. apply Z.mod_small. lia.
Qed.
End park_miller.

(** [do_rand] is the Park and Miller generator, computed without overflow.  For every
    state, with [x] the state brought into the range 1 to [0x7ffffffe]: the products and
    sums it computes fit in 32 bits, the result (and the new state) is
    [7^5 * x mod (2^31 - 1)] less one, in the range 0 to [0x7ffffffd], so that [go] picks
    one of its 23 cases; and no two of the [2^31 - 2] states have the same successor. *)
Theorem do_rand_correct ctx : 0 <= ctx < 2 ^ 64 ->
  let x := ctx mod 0x7ffffffe + 1 in let r := (7 ^ 5 * x) mod (2 ^ 31 - 1) - 1 in
  do_rand ctx = (r, r) /\ 0 <= r <= 0x7ffffffd /\ 0 <= Z.rem r 23 <= 22 /\
  (0 <= 16807 * Z.rem x 127773 < 2 ^ 31 /\ 0 <= 2836 * Z.quot x 127773 < 2 ^ 31 /\
   - (2 ^ 31 - 1) < 16807 * Z.rem x 127773 - 2836 * Z.quot x 127773 < 2 ^ 31 - 1) /\
  x = (1407677000 * (r + 1)) mod (2 ^ 31 - 1).
Proof.
  intros Hc x r. assert (Hx : 1 <= x <= 0x7ffffffe) by (unfold x; pose proof (Z.mod_pos_bound ctx 0x7ffffffe ltac:(lia)); lia).
  change (7 ^ 5) with 16807 in r. change (2 ^ 31 - 1) with 0x7fffffff in r |- *.
  pose proof (schrage_inverse x Hx) as Hi. pose proof (schrage x Hx) as Hs. pose proof (schrage_bounds x Hx) as (B1 & B2 & B3).
  change (2 ^ 31 - 1) with 0x7fffffff in B3.
  assert (Hm : 0 <= (16807 * x) mod 0x7fffffff < 0x7fffffff) by (apply Z.mod_pos_bound; lia).
  assert (Hr : 0 <= r <= 0x7ffffffd).
  { unfold r. destruct (decide ((16807 * x) mod 0x7fffffff = 0)) as [E|E]; [rewrite E, Z.mul_0_r, Z.mod_0_l in Hi by lia; lia|lia]. }
  rewrite (Z.quot_div_nonneg x 127773), (Z.rem_mod_nonneg x 127773), (Z.rem_mod_nonneg r 23) by lia. split; [|split; [done|split; [|split; [|]]]].
  - unfold do_rand. fold x. rewrite (u64_small x), (i64_small x) by lia. rewrite Z.quot_div_nonneg, Z.rem_mod_nonneg by lia. rewrite (i64_small (16807 * (x mod 127773) - 2836 * (x / 127773))) by lia.
    assert (E : (if 16807 * (x mod 127773) - 2836 * (x / 127773) <? 0 then i64 (16807 * (x mod 127773) - 2836 * (x / 127773) + 0x7fffffff)
      else 16807 * (x mod 127773) - 2836 * (x / 127773)) = r + 1).
    { unfold r. rewrite Z.sub_add, <- Hs. destruct (Z.ltb_spec (16807 * (x mod 127773) - 2836 * (x / 127773)) 0); [|done]. apply i64_small. lia. }
    rewrite E, i64_small by lia. replace (r + 1 - 1) with r by lia. rewrite u64_small, i32_small by lia. done.
  - pose proof (Z.mod_pos_bound r 23 ltac:(lia)). lia.
  - done.
  - unfold r. rewrite Z.sub_add. exact Hi.
Qed.

Example do_rand_correct_witness : do_rand 31 = (537823, 537823) /\ 32 = (1407677000 * 537824) mod (2 ^ 31 - 1).
Proof.
  destruct (do_rand_correct 31) as (H1 & _ & _ & _ & H2); [lia|]. split; [exact H1|exact H2].
Defined.
