(* ===== verification/UtBase.v ===== *)
(** * Tests of the system calls (user/usertests.c): common parts

    A test is a program that gets its name; [buf] is the global array, zero when the
    process of a test starts.  A [printf] whose arguments do not fit its format is
    undefined behaviour of the test, as [vprintf] has it. *)

From stdpp Require Import base numbers list gmap strings.
From ITree Require Import Core.ITreeDefinition.
From S2P Require Import Prelude Kstate Kstring Printf User Grep Utils.

Definition BUFSZ : Z := (MAXOPBLOCKS + 2) * BSIZE.
Definition zero_buf : list Z := replicate (Z.to_nat BUFSZ) 0.

(** The bytes a [read] has stored at the start of a buffer. *)
Definition fill (bs buf : list Z) : list Z := bs ++ drop (length bs) buf.

(** Modes of [open]. *)
Definition O_CW : Z := Z.lor O_CREATE O_WRONLY.
Definition O_CR : Z := Z.lor O_CREATE O_RDWR.
Definition O_WT : Z := Z.lor O_WRONLY O_TRUNC.
Definition O_CWT : Z := Z.lor O_CREATE (Z.lor O_WRONLY O_TRUNC).

(** [printf(fmt, args); exit(1);] *)
Definition die {A} (fmt : string) (args : list va) : uprog A := uprintf fmt args ;! exit 1.

(** [if(bad){ printf("msg\n", args); exit(1); }] *)
Definition unless (bad : bool) (msg : string) (args : list va) : uprog unit :=
  if bad then die (msg ++ LF) args else uret tt.

(** [if(bad){ printf("%s: msg\n", s); exit(1); }] *)
Definition check (s : list Z) (bad : bool) (msg : string) : uprog unit := unless bad ("%s: " ++ msg) [VStr (Some s)].

(** The same, where the condition is on the result of a call. *)
Definition check_call (s : list Z) (e : sysE Z) (bad : Z -> bool) (msg : string) : uprog unit :=
  let! r := sys e in check s (bad r) msg.
Definition negative (r : Z) : bool := r <? 0.
Definition nonnegative (r : Z) : bool := 0 <=? r.
Definition nonzero (r : Z) : bool := negb (r =? 0).
Definition zero (r : Z) : bool := r =? 0.
Definition not_eq (v r : Z) : bool := negb (r =? v).

Definition call (e : sysE Z) : uprog unit := sys e ;! uret tt.
(** [close(open(path, mode))] *)
Definition reopen (path : list Z) (mode : Z) : uprog unit := let! fd := sys (Open path mode) in call (Close fd).
(** [wait(0)] *)
Definition reap : uprog unit := sys Wait ;! uret tt.

(** [exit(x)] and [if(x != 0) exit(x);] *)
Definition exit_with {A} (x : option Z) : uprog A := let! st := the x in exit st.
Definition exit_unless_zero (x : option Z) : uprog unit := let! st := the x in if negb (st =? 0) then exit st else uret tt.

(** [for(i = 0; i < n; i++)], and [for(x = lo; x < hi; x += step)]. *)
Definition loop_for (n : Z) (body : Z -> uprog unit) : uprog unit := each (seqZ 0 n) body.
Definition range (lo hi step : Z) : list Z := map (fun i => lo + step * i) (seqZ 0 ((hi - lo + step - 1) / step)).
(** The same with variables that the body changes. *)
Fixpoint each_with {B V} (l : list B) (body : B -> V -> uprog V) (v : V) : uprog V :=
  match l with
  | [] => uret v
  | x :: l' => let! v' := body x v in each_with l' body v'
  end.
(** [for(;;);] *)
Definition spin {A} : uprog A := loop (fun _ : unit => continue tt) tt.

(** [(char* )-1] *)
Definition no_mem : Z := 2 ^ 64 - 1.

(** The string at [a], up to its NUL. *)
Definition load_str (a : Z) : uprog (list Z) :=
  loop (fun '(a, acc) => let! c := sys (Load a) in if c =? 0 then break acc else continue (u64 (a + 1), acc ++ [c])) (a, []).
