(* ===== verification/UtFiles.v ===== *)
(** * Tests of the system calls (user/usertests.c): files and directories *)

From stdpp Require Import base numbers list gmap strings.
From ITree Require Import Core.ITreeDefinition.
From S2P Require Import Prelude Kstate Kstring Printf User Grep Utils UtBase.

(** ** Addresses and strings the kernel must refuse *)

Definition bad_addrs : list Z := [0x80000000; 0xffffffffffffffff].

Definition copyin (s : list Z) : uprog unit :=
  each bad_addrs (fun addr =>
    let! fd := sys (Open (bytes "copyin1") O_CW) in
    unless (fd <? 0) "open(copyin1) failed" [] ;!
    let! n := sys (WriteAt fd addr 8192) in
    unless (0 <=? n) "write(fd, %p, 8192) returned %d, not -1" [VPtr addr; VInt n] ;!
    call (Close fd) ;! call (Unlink (bytes "copyin1")) ;!
    let! n := sys (WriteAt 1 addr 8192) in
    unless (0 <? n) "write(1, %p, 8192) returned %d, not -1 or 0" [VPtr addr; VInt n] ;!
    let! (r, fds) := sys Pipe in
    unless (r <? 0) "pipe() failed" [] ;!
    let! n := sys (WriteAt fds.2 addr 8192) in
    unless (0 <? n) "write(pipe, %p, 8192) returned %d, not -1 or 0" [VPtr addr; VInt n] ;!
    call (Close fds.1) ;! call (Close fds.2)).

Definition copyout (s : list Z) : uprog unit :=
  each bad_addrs (fun addr =>
    let! fd := sys (Open (bytes "README") 0) in
    unless (fd <? 0) "open(README) failed" [] ;!
    let! n := sys (ReadAt fd addr 8192) in
    unless (0 <? n) "read(fd, %p, 8192) returned %d, not -1 or 0" [VPtr addr; VInt n] ;!
    call (Close fd) ;!
    let! (r, fds) := sys Pipe in
    unless (r <? 0) "pipe() failed" [] ;!
    let! n := sys (Write fds.2 (bytes "x")) in
    unless (negb (n =? 1)) "pipe write failed" [] ;!
    let! n := sys (ReadAt fds.1 addr 8192) in
    unless (0 <? n) "read(pipe, %p, 8192) returned %d, not -1 or 0" [VPtr addr; VInt n] ;!
    call (Close fds.1) ;! call (Close fds.2)).

Definition copyinstr1 (s : list Z) : uprog unit :=
  each bad_addrs (fun addr =>
    let! fd := sys (OpenAt (At addr) O_CW) in
    unless (0 <=? fd) "open(%p) returned %d, not -1" [VPtr addr; VInt fd]).

Definition copyinstr2 (s : list Z) : uprog unit :=
  let b := replicate (Z.to_nat MAXPATH) 120 in
  let! ret := sys (Unlink b) in
  unless (negb (ret =? -1)) "unlink(%s) returned %d, not -1" [VStr (Some b); VInt ret] ;!
  let! fd := sys (Open b O_CW) in
  unless (negb (fd =? -1)) "open(%s) returned %d, not -1" [VStr (Some b); VInt fd] ;!
  let! ret := sys (Link b b) in
  unless (negb (ret =? -1)) "link(%s, %s) returned %d, not -1" [VStr (Some b); VStr (Some b); VInt ret] ;!
  let! ret := sys (Exec b [bytes "xx"]) in
  unless (negb (ret =? -1)) "exec(%s) returned %d, not -1" [VStr (Some b); VInt fd] ;!
  let! pid := sys Fork in
  unless (pid <? 0) "fork failed" [] ;!
  if pid =? 0 then
    let big := replicate (Z.to_nat PGSIZE) 120 in
    let! ret := sys (Exec (bytes "echo") [big; big; big]) in
    unless (negb (ret =? -1)) "exec(echo, BIG) returned %d, not -1" [VInt fd] ;!
    exit 747
  else
  let! (r, x) := sys Wait in
  let st := if r <? 0 then 0 else x in
  unless (negb (st =? 747)) "exec(echo, BIG) succeeded, should have failed" [].

(** The messages print the string at [b]; it is read before the message is printed. *)
Definition copyinstr3 (s : list Z) : uprog unit :=
  call (Sbrk 8192) ;!
  let! top := sys (Sbrk 0) in
  (if negb (top mod PGSIZE =? 0) then call (Sbrk (PGSIZE - top mod PGSIZE)) else uret tt) ;!
  let! top := sys (Sbrk 0) in
  unless (negb (top mod PGSIZE =? 0)) "oops" [] ;!
  let b := u64 (top - 1) in
  sys (Store b 120) ;!
  let! ret := sys (UnlinkAt (At b)) in
  (if negb (ret =? -1) then let! bs := load_str b in die ("unlink(%s) returned %d, not -1" ++ LF) [VStr (Some bs); VInt ret] else uret tt) ;!
  let! fd := sys (OpenAt (At b) O_CW) in
  (if negb (fd =? -1) then let! bs := load_str b in die ("open(%s) returned %d, not -1" ++ LF) [VStr (Some bs); VInt fd] else uret tt) ;!
  let! ret := sys (LinkAt (At b) (At b)) in
  (if negb (ret =? -1) then
     let! bs := load_str b in die ("link(%s, %s) returned %d, not -1" ++ LF) [VStr (Some bs); VStr (Some bs); VInt ret]
   else uret tt) ;!
  let! ret := sys (ExecAt (At b) [Str (bytes "xx")]) in
  if negb (ret =? -1) then let! bs := load_str b in die ("exec(%s) returned %d, not -1" ++ LF) [VStr (Some bs); VInt fd] else uret tt.

(** ** Truncation *)

Definition truncate1 (s : list Z) : uprog unit :=
  let name := bytes "truncfile" in
  let wanted n := String.append "%s: read %d bytes, wanted " n in
  call (Unlink name) ;!
  let! fd1 := sys (Open name O_CWT) in
  call (Write fd1 (bytes "abcd")) ;! call (Close fd1) ;!
  let! fd2 := sys (Open name O_RDONLY) in
  let! (n, _) := sys (Read fd2 32) in
  unless (negb (n =? 4)) (wanted "4") [VStr (Some s); VInt n] ;!
  let! fd1 := sys (Open name O_WT) in
  let! fd3 := sys (Open name O_RDONLY) in
  let! (n, _) := sys (Read fd3 32) in
  (if negb (n =? 0) then uprintf ("aaa fd3=%d" ++ LF) [VInt fd3] ;! die (wanted "0" ++ LF) [VStr (Some s); VInt n] else uret tt) ;!
  let! (n, _) := sys (Read fd2 32) in
  (if negb (n =? 0) then uprintf ("bbb fd2=%d" ++ LF) [VInt fd2] ;! die (wanted "0" ++ LF) [VStr (Some s); VInt n] else uret tt) ;!
  call (Write fd1 (bytes "abcdef")) ;!
  let! (n, _) := sys (Read fd3 32) in
  unless (negb (n =? 6)) (wanted "6") [VStr (Some s); VInt n] ;!
  let! (n, _) := sys (Read fd2 32) in
  unless (negb (n =? 2)) (wanted "2") [VStr (Some s); VInt n] ;!
  call (Unlink name) ;!
  call (Close fd1) ;! call (Close fd2) ;! call (Close fd3).

Definition truncate2 (s : list Z) : uprog unit :=
  let name := bytes "truncfile" in
  call (Unlink name) ;!
  let! fd1 := sys (Open name O_CWT) in
  call (Write fd1 (bytes "abcd")) ;!
  let! fd2 := sys (Open name O_WT) in
  let! n := sys (Write fd1 (bytes "x")) in
  unless (negb (n =? -1)) "%s: write returned %d, expected -1" [VStr (Some s); VInt n] ;!
  call (Unlink name) ;! call (Close fd1) ;! call (Close fd2).

Definition truncate3 (s : list Z) : uprog unit :=
  let name := bytes "truncfile" in
  reopen name O_CWT ;!
  let! pid := sys Fork in
  check s (pid <? 0) "fork failed" ;!
  if pid =? 0 then
    loop_for 100 (fun _ =>
      let! fd := sys (Open name O_WRONLY) in
      check s (fd <? 0) "open failed" ;!
      let! n := sys (Write fd (bytes "1234567890")) in
      unless (negb (n =? 10)) "%s: write got %d, expected 10" [VStr (Some s); VInt n] ;!
      call (Close fd) ;!
      let! fd := sys (Open name O_RDONLY) in
      sys (Read fd 32) ;! call (Close fd)) ;!
    exit 0
  else
  loop_for 150 (fun _ =>
    let! fd := sys (Open name O_CWT) in
    check s (fd <? 0) "open failed" ;!
    let! n := sys (Write fd (bytes "xxx")) in
    unless (negb (n =? 3)) "%s: write got %d, expected 3" [VStr (Some s); VInt n] ;!
    call (Close fd)) ;!
  let! xstatus := wait_status in
  call (Unlink name) ;! exit_with xstatus.

(** ** Directories that go away while in use *)

Definition iputtest (s : list Z) : uprog unit :=
  check_call s (Mkdir (bytes "iputdir")) negative "mkdir failed" ;!
  check_call s (Chdir (bytes "iputdir")) negative "chdir iputdir failed" ;!
  check_call s (Unlink (bytes "../iputdir")) negative "unlink ../iputdir failed" ;!
  check_call s (Chdir (bytes "/")) negative "chdir / failed".

Definition exitiputtest (s : list Z) : uprog unit :=
  let! pid := sys Fork in
  check s (pid <? 0) "fork failed" ;!
  if pid =? 0 then
    check_call s (Mkdir (bytes "iputdir")) negative "mkdir failed" ;!
    check_call s (Chdir (bytes "iputdir")) negative "child chdir failed" ;!
    check_call s (Unlink (bytes "../iputdir")) negative "unlink ../iputdir failed" ;!
    exit 0
  else
  let! xstatus := wait_status in exit_with xstatus.

Definition openiputtest (s : list Z) : uprog unit :=
  check_call s (Mkdir (bytes "oidir")) negative "mkdir oidir failed" ;!
  let! pid := sys Fork in
  check s (pid <? 0) "fork failed" ;!
  if pid =? 0 then
    check_call s (Open (bytes "oidir") O_RDWR) nonnegative "open directory for write succeeded" ;!
    exit 0
  else
  call (Sleep 1) ;!
  check_call s (Unlink (bytes "oidir")) nonzero "unlink failed" ;!
  let! xstatus := wait_status in exit_with xstatus.

(** ** Simple file system tests *)

Definition opentest (s : list Z) : uprog unit :=
  let! fd := sys (Open (bytes "echo") 0) in
  check s (fd <? 0) "open echo failed!" ;!
  call (Close fd) ;!
  let! fd := sys (Open (bytes "doesnotexist") 0) in
  check s (0 <=? fd) "open doesnotexist succeeded!".

Definition writetest (s : list Z) : uprog unit :=
  let N := 100 in let SZ := 10 in
  let! fd := sys (Open (bytes "small") O_CR) in
  check s (fd <? 0) "error: creat small failed!" ;!
  loop_for N (fun i =>
    let! r := sys (Write fd (bytes "aaaaaaaaaa")) in
    unless (negb (r =? SZ)) "%s: error: write aa %d new file failed" [VInt i] ;!
    let! r := sys (Write fd (bytes "bbbbbbbbbb")) in
    unless (negb (r =? SZ)) "%s: error: write bb %d new file failed" [VInt i]) ;!
  call (Close fd) ;!
  let! fd := sys (Open (bytes "small") O_RDONLY) in
  check s (fd <? 0) "error: open small failed!" ;!
  let! (i, _) := sys (Read fd (N * SZ * 2)) in
  check s (negb (i =? N * SZ * 2)) "read failed" ;!
  call (Close fd) ;!
  check_call s (Unlink (bytes "small")) negative "unlink small failed".

(** [((int* )buf)[0]] *)
Definition int_at_0 (buf : list Z) : Z := i32 (le_val (take 4 buf)).

(** The loop that reads the file back: [n] blocks so far. *)
Definition writebig_read (fd : Z) : Z * list Z -> uprog unit :=
  loop (fun '(n, buf) =>
    let! (i, bs) := sys (Read fd BSIZE) in
    let buf := fill bs buf in
    if i =? 0 then
      (if n =? MAXFILE - 1 then die "%s: read only %d blocks from big" [VInt n] else break tt)
    else if negb (i =? BSIZE) then die ("%s: read failed %d" ++ LF) [VInt i]
    else if negb (int_at_0 buf =? n) then die ("%s: read content of block %d is %d" ++ LF) [VInt n; VInt (int_at_0 buf)]
    else continue (n + 1, buf)).

Definition writebig (s : list Z) : uprog unit :=
  let! fd := sys (Open (bytes "big") O_CR) in
  check s (fd <? 0) "error: creat big failed!" ;!
  let! buf := each_with (seqZ 0 MAXFILE) (fun i buf =>
    let buf := fill (le_bytes 4 i) buf in
    let! r := sys (Write fd (take (Z.to_nat BSIZE) buf)) in
    unless (negb (r =? BSIZE)) "%s: error: write big file failed" [VInt i] ;! uret buf) zero_buf in
  call (Close fd) ;!
  let! fd := sys (Open (bytes "big") O_RDONLY) in
  check s (fd <? 0) "error: open big failed!" ;!
  writebig_read fd (0, buf) ;!
  call (Close fd) ;!
  check_call s (Unlink (bytes "big")) negative "unlink big failed".

Definition createtest (s : list Z) : uprog unit :=
  let N := 52 in
  loop_for N (fun i => reopen [97; 48 + i] O_CR) ;!
  loop_for N (fun i => call (Unlink [97; 48 + i])).

Definition dirtest (s : list Z) : uprog unit :=
  uprintf ("mkdir test" ++ LF) [] ;!
  check_call s (Mkdir (bytes "dir0")) negative "mkdir failed" ;!
  check_call s (Chdir (bytes "dir0")) negative "chdir dir0 failed" ;!
  check_call s (Chdir (bytes "..")) negative "chdir .. failed" ;!
  check_call s (Unlink (bytes "dir0")) negative "unlink dir0 failed" ;!
  uprintf ("%s: mkdir test ok" ++ LF) [].

(** ** More file system tests *)

(** How many of the bytes are [c]. *)
Definition count_of (c : Z) (buf : list Z) : Z := Z.of_nat (length (filter (fun b => b = c) buf)).

(** The loop that reads the file back; it looks at the whole buffer each time. *)
Definition sharedfd_count (fd SZ : Z) : list Z * (Z * Z) -> uprog (Z * Z) :=
  loop (fun '(buf, (nc, np)) =>
    let! (n, bs) := sys (Read fd SZ) in
    let buf := fill bs buf in
    if 0 <? n then continue (buf, (nc + count_of 99 buf, np + count_of 112 buf)) else break (nc, np)).

Definition sharedfd (s : list Z) : uprog unit :=
  let N := 1000 in let SZ := 10 in
  call (Unlink (bytes "sharedfd")) ;!
  let! fd := sys (Open (bytes "sharedfd") O_CR) in
  (if fd <? 0 then die "%s: cannot open sharedfd for writing" [VStr (Some s)] else uret tt) ;!
  let! pid := sys Fork in
  let buf := replicate (Z.to_nat SZ) (if pid =? 0 then 99 else 112) in
  loop_for N (fun _ => check_call s (Write fd buf) (not_eq SZ) "write sharedfd failed") ;!
  (if pid =? 0 then exit 0 else let! xstatus := wait_status in exit_unless_zero xstatus) ;!
  call (Close fd) ;!
  let! fd := sys (Open (bytes "sharedfd") 0) in
  check s (fd <? 0) "cannot open sharedfd for reading" ;!
  let! (nc, np) := sharedfd_count fd SZ (buf, (0, 0)) in
  call (Close fd) ;! call (Unlink (bytes "sharedfd")) ;!
  if (nc =? N * SZ) && (np =? N * SZ) then exit 0 else die ("%s: nc/np test fails" ++ LF) [VStr (Some s)].

Definition fourfiles_names : list (list Z) := [bytes "f0"; bytes "f1"; bytes "f2"; bytes "f3"].

(** The child [pi] of [fourfiles]. *)
Definition fourfiles_child (s : list Z) (pi : Z) (fname : list Z) : uprog unit :=
  let N := 12 in let SZ := 500 in
  let! fd := sys (Open fname O_CR) in
  unless (fd <? 0) "create failed" [VStr (Some s)] ;!
  loop_for N (fun _ =>
    let! n := sys (Write fd (replicate (Z.to_nat SZ) (48 + pi))) in
    unless (negb (n =? SZ)) "write failed %d" [VInt n]) ;!
  exit 0.

(** [while((n = read(fd, buf, sizeof(buf))) > 0)] with its check of each byte. *)
Definition fourfiles_total (s : list Z) (fd c : Z) : list Z * Z -> uprog (list Z * Z) :=
  loop (fun '(buf, total) =>
    let! (n, bs) := sys (Read fd BUFSZ) in
    let buf := fill bs buf in
    if 0 <? n then
      unless (existsb (fun b => negb (b =? c)) (take (Z.to_nat n) buf)) "wrong char" [VStr (Some s)] ;!
      continue (buf, total + n)
    else break (buf, total)).

Definition fourfiles (s : list Z) : uprog unit :=
  let N := 12 in let SZ := 500 in
  each (zip (seqZ 0 4) fourfiles_names) (fun '(pi, fname) =>
    call (Unlink fname) ;!
    let! pid := sys Fork in
    unless (pid <? 0) "fork failed" [VStr (Some s)] ;!
    if pid =? 0 then fourfiles_child s pi fname else uret tt) ;!
  each_with (seqZ 0 4) (fun _ x => let! (_, x) := wait_in x in exit_unless_zero x ;! uret x) None ;!
  each_with (zip (seqZ 0 4) fourfiles_names) (fun '(i, fname) buf =>
    let! fd := sys (Open fname 0) in
    let! (buf, total) := fourfiles_total s fd (48 + i) (buf, 0) in
    call (Close fd) ;!
    unless (negb (total =? N * SZ)) "wrong length %d" [VInt total] ;!
    call (Unlink fname) ;! uret buf) zero_buf ;!
  uret tt.

(** The child [pi] of [createdelete]. *)
Definition createdelete_child (s : list Z) (pi : Z) : uprog unit :=
  loop_for 20 (fun i =>
    let! fd := sys (Open [112 + pi; 48 + i] O_CR) in
    check s (fd <? 0) "create failed" ;!
    call (Close fd) ;!
    if (0 <? i) && (i mod 2 =? 0) then
      check_call s (Unlink [112 + pi; 48 + i / 2]) negative "unlink failed"
    else uret tt) ;!
  exit 0.

Definition createdelete (s : list Z) : uprog unit :=
  let N := 20 in let NCHILD := 4 in
  loop_for NCHILD (fun pi =>
    let! pid := sys Fork in
    unless (pid <? 0) "fork failed" [VStr (Some s)] ;!
    if pid =? 0 then createdelete_child s pi else uret tt) ;!
  each_with (seqZ 0 NCHILD) (fun _ x =>
    let! (_, x) := wait_in x in
    let! st := the x in
    if negb (st =? 0) then exit 1 else uret x) None ;!
  loop_for N (fun i => loop_for NCHILD (fun pi =>
    let name := [112 + pi; 48 + i] in
    let! fd := sys (Open name 0) in
    (if ((i =? 0) || (N / 2 <=? i)) && (fd <? 0) then
       die ("%s: oops createdelete %s didn't exist" ++ LF) [VStr (Some s); VStr (Some name)]
     else if ((1 <=? i) && (i <? N / 2)) && (0 <=? fd) then
       die ("%s: oops createdelete %s did exist" ++ LF) [VStr (Some s); VStr (Some name)]
     else uret tt) ;!
    if 0 <=? fd then call (Close fd) else uret tt)) ;!
  loop_for N (fun i => loop_for NCHILD (fun pi => call (Unlink [112 + i; 48 + i]))).

Definition unlinkread (s : list Z) : uprog unit :=
  let SZ := 5 in let name := bytes "unlinkread" in
  let! fd := sys (Open name O_CR) in
  check s (fd <? 0) "create unlinkread failed" ;!
  call (Write fd (bytes "hello")) ;! call (Close fd) ;!
  let! fd := sys (Open name O_RDWR) in
  check s (fd <? 0) "open unlinkread failed" ;!
  check_call s (Unlink name) nonzero "unlink unlinkread failed" ;!
  let! fd1 := sys (Open name O_CR) in
  call (Write fd1 (bytes "yyy")) ;! call (Close fd1) ;!
  let! (r, bs) := sys (Read fd BUFSZ) in
  let buf := fill bs zero_buf in
  (if negb (r =? SZ) then die "%s: unlinkread read failed" [VStr (Some s)] else uret tt) ;!
  check s (negb (buf !!! 0%nat =? 104)) "unlinkread wrong data" ;!
  check_call s (Write fd (take 10 buf)) (not_eq 10) "unlinkread write failed" ;!
  call (Close fd) ;! call (Unlink name).

Definition linktest (s : list Z) : uprog unit :=
  let SZ := 5 in
  call (Unlink (bytes "lf1")) ;! call (Unlink (bytes "lf2")) ;!
  let! fd := sys (Open (bytes "lf1") O_CR) in
  check s (fd <? 0) "create lf1 failed" ;!
  check_call s (Write fd (bytes "hello")) (not_eq SZ) "write lf1 failed" ;!
  call (Close fd) ;!
  check_call s (Link (bytes "lf1") (bytes "lf2")) negative "link lf1 lf2 failed" ;!
  call (Unlink (bytes "lf1")) ;!
  check_call s (Open (bytes "lf1") 0) nonnegative "unlinked lf1 but it is still there!" ;!
  let! fd := sys (Open (bytes "lf2") 0) in
  check s (fd <? 0) "open lf2 failed" ;!
  let! (r, _) := sys (Read fd BUFSZ) in
  check s (negb (r =? SZ)) "read lf2 failed" ;!
  call (Close fd) ;!
  check_call s (Link (bytes "lf2") (bytes "lf2")) nonnegative "link lf2 lf2 succeeded! oops" ;!
  call (Unlink (bytes "lf2")) ;!
  check_call s (Link (bytes "lf2") (bytes "lf1")) nonnegative "link non-existant succeeded! oops" ;!
  check_call s (Link (bytes ".") (bytes "lf1")) nonnegative "link . lf1 succeeded! oops".

(** [de], of which the reads so far have set a beginning. *)
Definition de_byte (de : list Z) (i : nat) : uprog Z := the (de !! i).
(** The string in [de.name]. *)
Definition de_name (de : list Z) : list Z := cstr (list_bytes (drop 2 de)) DIRSIZ.

(** The loop of [concreate] over the directory: [n] and which files were seen. *)
Definition concreate_list (s : list Z) (fd N : Z) : list Z * (Z * gset Z) -> uprog Z :=
  loop (fun '(de, (n, fa)) =>
    let! (r, bs) := sys (Read fd 16) in
    let de := fill bs de in
    if negb (0 <? r) then break n else
    let! b0 := de_byte de 0 in
    let! b1 := de_byte de 1 in
    if (b0 =? 0) && (b1 =? 0) then continue (de, (n, fa)) else
    let! c0 := de_byte de 2 in
    if negb (c0 =? 67) then continue (de, (n, fa)) else
    let! c2 := de_byte de 4 in
    if negb (c2 =? 0) then continue (de, (n, fa)) else
    let! c1 := de_byte de 3 in
    let i := c1 - 48 in
    unless ((i <? 0) || (N <=? i)) "%s: concreate weird file %s" [VStr (Some s); VStr (Some (de_name de))] ;!
    unless (bool_decide (i ∈ fa)) "%s: concreate duplicate file %s" [VStr (Some s); VStr (Some (de_name de))] ;!
    continue (de, (n + 1, {[i]} ∪ fa))).

Definition concreate (s : list Z) : uprog unit :=
  let N := 40 in
  let C0 := bytes "C0" in
  let six (t : uprog unit) := loop_for 6 (fun _ => t) in
  loop_for N (fun i =>
    let file := [67; 48 + i] in
    call (Unlink file) ;!
    let! pid := sys Fork in
    (if negb (pid =? 0) && (i mod 3 =? 1) then call (Link C0 file)
     else if (pid =? 0) && (i mod 5 =? 1) then call (Link C0 file)
     else
       let! fd := sys (Open file O_CR) in
       unless (fd <? 0) "concreate create %s failed" [VStr (Some file)] ;!
       call (Close fd)) ;!
    if pid =? 0 then exit 0 else
    let! xstatus := wait_status in
    let! st := the xstatus in
    if negb (st =? 0) then exit 1 else uret tt) ;!
  let! fd := sys (Open (bytes ".") 0) in
  let! n := concreate_list s fd N ([], (0, ∅)) in
  call (Close fd) ;!
  check s (negb (n =? N)) "concreate not enough files in directory listing" ;!
  loop_for N (fun i =>
    let file := [67; 48 + i] in
    let! pid := sys Fork in
    check s (pid <? 0) "fork failed" ;!
    (if ((i mod 3 =? 0) && (pid =? 0)) || ((i mod 3 =? 1) && negb (pid =? 0)) then six (reopen file 0)
     else six (call (Unlink file))) ;!
    if pid =? 0 then exit 0 else reap).

Definition linkunlink (s : list Z) : uprog unit :=
  call (Unlink (bytes "x")) ;!
  let! pid := sys Fork in
  check s (pid <? 0) "fork failed" ;!
  each_with (seqZ 0 100) (fun _ x =>
    let x := u32 (x * 1103515245 + 12345) in
    (if x mod 3 =? 0 then reopen (bytes "x") O_CR
     else if x mod 3 =? 1 then call (Link (bytes "cat") (bytes "x"))
     else call (Unlink (bytes "x"))) ;!
    uret x) (if pid =? 0 then 97 else 1) ;!
  if negb (pid =? 0) then reap else exit 0.

Definition bigdir_name (i : Z) : list Z := [120; 48 + i / 64; 48 + i mod 64].
Definition bigdir (s : list Z) : uprog unit :=
  let N := 500 in
  call (Unlink (bytes "bd")) ;!
  let! fd := sys (Open (bytes "bd") O_CREATE) in
  check s (fd <? 0) "bigdir create failed" ;!
  call (Close fd) ;!
  loop_for N (fun i =>
    let! r := sys (Link (bytes "bd") (bigdir_name i)) in
    unless (negb (r =? 0)) "%s: bigdir link(bd, %s) failed" [VStr (Some s); VStr (Some (bigdir_name i))]) ;!
  call (Unlink (bytes "bd")) ;!
  loop_for N (fun i =>
    let! r := sys (Unlink (bigdir_name i)) in
    if negb (r =? 0) then die "%s: bigdir unlink failed" [VStr (Some s)] else uret tt).

(** ** Paths through directories *)

(** The first part of [subdir], up to the second read. *)
Definition subdir_make (s : list Z) : uprog unit :=
  let plain (e : sysE Z) (msg : string) := let! r := sys e in unless (negb (r =? 0)) msg [VStr (Some s)] in
  call (Unlink (bytes "ff")) ;!
  check_call s (Mkdir (bytes "dd")) nonzero "mkdir dd failed" ;!
  let! fd := sys (Open (bytes "dd/ff") O_CR) in
  check s (fd <? 0) "create dd/ff failed" ;!
  call (Write fd (bytes "ff")) ;! call (Close fd) ;!
  check_call s (Unlink (bytes "dd")) nonnegative "unlink dd (non-empty dir) succeeded!" ;!
  plain (Mkdir (bytes "/dd/dd")) "subdir mkdir dd/dd failed" ;!
  let! fd := sys (Open (bytes "dd/dd/ff") O_CR) in
  check s (fd <? 0) "create dd/dd/ff failed" ;!
  call (Write fd (bytes "FF")) ;! call (Close fd) ;!
  let! fd := sys (Open (bytes "dd/dd/../ff") 0) in
  check s (fd <? 0) "open dd/dd/../ff failed" ;!
  let! (cc, bs) := sys (Read fd BUFSZ) in
  check s (negb (cc =? 2) || negb (fill bs zero_buf !!! 0%nat =? 102)) "dd/dd/../ff wrong content" ;!
  call (Close fd) ;!
  plain (Link (bytes "dd/dd/ff") (bytes "dd/dd/ffff")) "link dd/dd/ff dd/dd/ffff failed" ;!
  check_call s (Unlink (bytes "dd/dd/ff")) nonzero "unlink dd/dd/ff failed" ;!
  check_call s (Open (bytes "dd/dd/ff") O_RDONLY) nonnegative "open (unlinked) dd/dd/ff succeeded" ;!
  check_call s (Chdir (bytes "dd")) nonzero "chdir dd failed" ;!
  check_call s (Chdir (bytes "dd/../../dd")) nonzero "chdir dd/../../dd failed" ;!
  plain (Chdir (bytes "dd/../../../dd")) "chdir dd/../../dd failed" ;!
  check_call s (Chdir (bytes "./..")) nonzero "chdir ./.. failed" ;!
  let! fd := sys (Open (bytes "dd/dd/ffff") 0) in
  check s (fd <? 0) "open dd/dd/ffff failed" ;!
  let! (r, _) := sys (Read fd BUFSZ) in
  check s (negb (r =? 2)) "read dd/dd/ffff wrong len" ;!
  call (Close fd).

Definition subdir (s : list Z) : uprog unit :=
  subdir_make s ;!
  check_call s (Open (bytes "dd/dd/ff") O_RDONLY) nonnegative "open (unlinked) dd/dd/ff succeeded!" ;!
  check_call s (Open (bytes "dd/ff/ff") O_CR) nonnegative "create dd/ff/ff succeeded!" ;!
  check_call s (Open (bytes "dd/xx/ff") O_CR) nonnegative "create dd/xx/ff succeeded!" ;!
  check_call s (Open (bytes "dd") O_CREATE) nonnegative "create dd succeeded!" ;!
  check_call s (Open (bytes "dd") O_RDWR) nonnegative "open dd rdwr succeeded!" ;!
  check_call s (Open (bytes "dd") O_WRONLY) nonnegative "open dd wronly succeeded!" ;!
  check_call s (Link (bytes "dd/ff/ff") (bytes "dd/dd/xx")) zero "link dd/ff/ff dd/dd/xx succeeded!" ;!
  check_call s (Link (bytes "dd/xx/ff") (bytes "dd/dd/xx")) zero "link dd/xx/ff dd/dd/xx succeeded!" ;!
  check_call s (Link (bytes "dd/ff") (bytes "dd/dd/ffff")) zero "link dd/ff dd/dd/ffff succeeded!" ;!
  check_call s (Mkdir (bytes "dd/ff/ff")) zero "mkdir dd/ff/ff succeeded!" ;!
  check_call s (Mkdir (bytes "dd/xx/ff")) zero "mkdir dd/xx/ff succeeded!" ;!
  check_call s (Mkdir (bytes "dd/dd/ffff")) zero "mkdir dd/dd/ffff succeeded!" ;!
  check_call s (Unlink (bytes "dd/xx/ff")) zero "unlink dd/xx/ff succeeded!" ;!
  check_call s (Unlink (bytes "dd/ff/ff")) zero "unlink dd/ff/ff succeeded!" ;!
  check_call s (Chdir (bytes "dd/ff")) zero "chdir dd/ff succeeded!" ;!
  check_call s (Chdir (bytes "dd/xx")) zero "chdir dd/xx succeeded!" ;!
  check_call s (Unlink (bytes "dd/dd/ffff")) nonzero "unlink dd/dd/ff failed" ;!
  check_call s (Unlink (bytes "dd/ff")) nonzero "unlink dd/ff failed" ;!
  check_call s (Unlink (bytes "dd")) zero "unlink non-empty dd succeeded!" ;!
  check_call s (Unlink (bytes "dd/dd")) negative "unlink dd/dd failed" ;!
  check_call s (Unlink (bytes "dd")) negative "unlink dd failed".

(** ** Big files *)

Definition bigwrite (s : list Z) : uprog unit :=
  let name := bytes "bigwrite" in
  call (Unlink name) ;!
  each (range 499 ((MAXOPBLOCKS + 2) * BSIZE) 471) (fun sz =>
    let! fd := sys (Open name O_CR) in
    check s (fd <? 0) "cannot create bigwrite" ;!
    loop_for 2 (fun _ =>
      let! cc := sys (Write fd (take (Z.to_nat sz) zero_buf)) in
      unless (negb (cc =? sz)) "%s: write(%d) ret %d" [VStr (Some s); VInt sz; VInt cc]) ;!
    call (Close fd) ;! call (Unlink name)).

(** The loop that reads the file back in halves of what was written. *)
Definition bigfile_read (s : list Z) (fd SZ : Z) : Z * (Z * list Z) -> uprog Z :=
  loop (fun '(i, (total, buf)) =>
    let! (cc, bs) := sys (Read fd (SZ / 2)) in
    let buf := fill bs buf in
    check s (cc <? 0) "read bigfile failed" ;!
    if cc =? 0 then break total else
    check s (negb (cc =? SZ / 2)) "short read bigfile" ;!
    check s (negb (buf !!! 0%nat =? i / 2) || negb (buf !!! Z.to_nat (SZ / 2 - 1) =? i / 2)) "read bigfile wrong data" ;!
    continue (i + 1, (total + cc, buf))).

Definition bigfile (s : list Z) : uprog unit :=
  let N := 20 in let SZ := 600 in let name := bytes "bigfile.dat" in
  call (Unlink name) ;!
  let! fd := sys (Open name O_CR) in
  (if fd <? 0 then die "%s: cannot create bigfile" [VStr (Some s)] else uret tt) ;!
  let! buf := each_with (seqZ 0 N) (fun i buf =>
    let buf := fill (replicate (Z.to_nat SZ) i) buf in
    check_call s (Write fd (take (Z.to_nat SZ) buf)) (not_eq SZ) "write bigfile failed" ;! uret buf) zero_buf in
  call (Close fd) ;!
  let! fd := sys (Open name 0) in
  check s (fd <? 0) "cannot open bigfile" ;!
  let! total := bigfile_read s fd SZ (0, (0, buf)) in
  call (Close fd) ;!
  check s (negb (total =? N * SZ)) "read bigfile wrong total" ;!
  call (Unlink name).

(** ** Names *)

Definition fourteen (s : list Z) : uprog unit :=
  check_call s (Mkdir (bytes "12345678901234")) nonzero "mkdir 12345678901234 failed" ;!
  check_call s (Mkdir (bytes "12345678901234/123456789012345")) nonzero "mkdir 12345678901234/123456789012345 failed" ;!
  let! fd := sys (Open (bytes "123456789012345/123456789012345/123456789012345") O_CREATE) in
  check s (fd <? 0) "create 123456789012345/123456789012345/123456789012345 failed" ;!
  call (Close fd) ;!
  let! fd := sys (Open (bytes "12345678901234/12345678901234/12345678901234") 0) in
  check s (fd <? 0) "open 12345678901234/12345678901234/12345678901234 failed" ;!
  call (Close fd) ;!
  check_call s (Mkdir (bytes "12345678901234/12345678901234")) zero "mkdir 12345678901234/12345678901234 succeeded!" ;!
  check_call s (Mkdir (bytes "123456789012345/12345678901234")) zero "mkdir 12345678901234/123456789012345 succeeded!" ;!
  call (Unlink (bytes "123456789012345/12345678901234")) ;!
  call (Unlink (bytes "12345678901234/12345678901234")) ;!
  call (Unlink (bytes "12345678901234/12345678901234/12345678901234")) ;!
  call (Unlink (bytes "123456789012345/123456789012345/123456789012345")) ;!
  call (Unlink (bytes "12345678901234/123456789012345")) ;!
  call (Unlink (bytes "12345678901234")).

Definition rmdot (s : list Z) : uprog unit :=
  check_call s (Mkdir (bytes "dots")) nonzero "mkdir dots failed" ;!
  check_call s (Chdir (bytes "dots")) nonzero "chdir dots failed" ;!
  check_call s (Unlink (bytes ".")) zero "rm . worked!" ;!
  check_call s (Unlink (bytes "..")) zero "rm .. worked!" ;!
  check_call s (Chdir (bytes "/")) nonzero "chdir / failed" ;!
  check_call s (Unlink (bytes "dots/.")) zero "unlink dots/. worked!" ;!
  check_call s (Unlink (bytes "dots/..")) zero "unlink dots/.. worked!" ;!
  check_call s (Unlink (bytes "dots")) nonzero "unlink dots failed!".

Definition dirfile (s : list Z) : uprog unit :=
  let! fd := sys (Open (bytes "dirfile") O_CREATE) in
  check s (fd <? 0) "create dirfile failed" ;!
  call (Close fd) ;!
  check_call s (Chdir (bytes "dirfile")) zero "chdir dirfile succeeded!" ;!
  check_call s (Open (bytes "dirfile/xx") 0) nonnegative "create dirfile/xx succeeded!" ;!
  check_call s (Open (bytes "dirfile/xx") O_CREATE) nonnegative "create dirfile/xx succeeded!" ;!
  check_call s (Mkdir (bytes "dirfile/xx")) zero "mkdir dirfile/xx succeeded!" ;!
  check_call s (Unlink (bytes "dirfile/xx")) zero "unlink dirfile/xx succeeded!" ;!
  check_call s (Link (bytes "README") (bytes "dirfile/xx")) zero "link to dirfile/xx succeeded!" ;!
  check_call s (Unlink (bytes "dirfile")) nonzero "unlink dirfile failed!" ;!
  check_call s (Open (bytes ".") O_RDWR) nonnegative "open . for writing succeeded!" ;!
  let! fd := sys (Open (bytes ".") 0) in
  check_call s (Write fd (bytes "x")) (fun r => 0 <? r) "write . succeeded!" ;!
  call (Close fd).

Definition iref (s : list Z) : uprog unit :=
  let close_open path := let! fd := sys (Open path O_CREATE) in if 0 <=? fd then call (Close fd) else uret tt in
  loop_for (Z.of_nat NINODE + 1) (fun _ =>
    check_call s (Mkdir (bytes "irefd")) nonzero "mkdir irefd failed" ;!
    check_call s (Chdir (bytes "irefd")) nonzero "chdir irefd failed" ;!
    call (Mkdir []) ;! call (Link (bytes "README") []) ;!
    close_open [] ;! close_open (bytes "xx") ;!
    call (Unlink (bytes "xx"))) ;!
  loop_for (Z.of_nat NINODE + 1) (fun _ => call (Chdir (bytes "..")) ;! call (Unlink (bytes "irefd"))) ;!
  call (Chdir (bytes "/")).

(** [fsfull]'s name of a file, and its loop that fills one file. *)
Definition fsfull_name (n : Z) : list Z :=
  [102; 48 + n / 1000; 48 + (n mod 1000) / 100; 48 + (n mod 100) / 10; 48 + n mod 10].
Definition fsfull_fill (fd : Z) : Z -> uprog Z :=
  loop (fun total =>
    let! cc := sys (Write fd (take (Z.to_nat BSIZE) zero_buf)) in
    if cc <? BSIZE then break total else continue (total + cc)).

Definition fsfull : uprog unit :=
  uprintf ("fsfull test" ++ LF) [] ;!
  let! nfiles := loop (fun nfiles =>
    let name := fsfull_name nfiles in
    uprintf ("%s: writing %s" ++ LF) [VStr (Some name)] ;!
    let! fd := sys (Open name O_CR) in
    if fd <? 0 then uprintf ("%s: open %s failed" ++ LF) [VStr (Some name)] ;! break nfiles else
    let! total := fsfull_fill fd 0 in
    uprintf ("%s: wrote %d bytes" ++ LF) [VInt total] ;!
    call (Close fd) ;!
    if total =? 0 then break nfiles else continue (nfiles + 1)) 0 in
  each (rev (seqZ 0 (nfiles + 1))) (fun n => call (Unlink (fsfull_name n))) ;!
  uprintf ("fsfull test finished" ++ LF) [].

Definition badwrite (s : list Z) : uprog unit :=
  let assumed_free := 600 in let junk := bytes "junk" in
  call (Unlink junk) ;!
  loop_for assumed_free (fun _ =>
    let! fd := sys (Open junk O_CW) in
    unless (fd <? 0) "open junk failed" [] ;!
    call (WriteAt fd 0xffffffffff 1) ;!
    call (Close fd) ;! call (Unlink junk)) ;!
  let! fd := sys (Open junk O_CW) in
  unless (fd <? 0) "open junk failed" [] ;!
  let! r := sys (Write fd (bytes "x")) in
  unless (negb (r =? 1)) "write failed" [] ;!
  call (Close fd) ;! call (Unlink junk) ;!
  exit 0.

Definition argptest (s : list Z) : uprog unit :=
  let! fd := sys (Open (bytes "init") O_RDONLY) in
  check s (fd <? 0) "open failed" ;!
  let! top := sys (Sbrk 0) in
  call (ReadAt fd (u64 (top - 1)) (-1)) ;!
  call (Close fd).
