(* ===== verification/UtProcs.v ===== *)
(** * Tests of the system calls (user/usertests.c): processes and pipes *)

From stdpp Require Import base numbers list gmap strings.
From ITree Require Import Core.ITreeDefinition.
From S2P Require Import Prelude Kstate Kstring Printf User Grep Utils UtBase.

Definition exectest (s : list Z) : uprog unit :=
  let echo_ok := bytes "echo-ok" in
  call (Unlink echo_ok) ;!
  let! pid := sys Fork in
  check s (pid <? 0) "fork failed" ;!
  (if pid =? 0 then
     call (Close 1) ;!
     let! fd := sys (Open echo_ok O_CW) in
     check s (fd <? 0) "create failed" ;!
     check s (negb (fd =? 1)) "wrong fd" ;!
     check_call s (Exec (bytes "echo") [bytes "echo"; bytes "OK"]) negative "exec echo failed"
   else uret tt) ;!
  let! (r, xstatus) := wait_in None in
  (if negb (r =? pid) then uprintf ("%s: wait failed!" ++ LF) [VStr (Some s)] else uret tt) ;!
  exit_unless_zero xstatus ;!
  let! fd := sys (Open echo_ok O_RDONLY) in
  check s (fd <? 0) "open failed" ;!
  let! (r, buf) := sys (Read fd 2) in
  check s (negb (r =? 2)) "read failed" ;!
  call (Unlink echo_ok) ;!
  let! b0 := the (buf !! 0%nat) in
  if b0 =? 79 then
    let! b1 := the (buf !! 1%nat) in
    if b1 =? 75 then exit 0 else die ("%s: wrong output" ++ LF) [VStr (Some s)]
  else die ("%s: wrong output" ++ LF) [VStr (Some s)].

(** ** Pipes *)

(** [N] and [SZ] of [pipe1]. *)
Definition pipe1_N : Z := 5.
Definition pipe1_SZ : Z := 1033.

Definition pipe1_child (s : list Z) (fds : Z * Z) : uprog unit :=
  call (Close fds.1) ;!
  each_with (seqZ 0 pipe1_N) (fun _ seq =>
    check_call s (Write fds.2 (map u8 (seqZ seq pipe1_SZ))) (not_eq pipe1_SZ) "pipe1 oops 1" ;!
    uret (seq + pipe1_SZ)) 0 ;!
  exit 0.

(** The bytes are the next ones of the sequence. *)
Fixpoint in_sequence (seq : Z) (bs : list Z) : bool :=
  match bs with
  | [] => true
  | b :: bs' => (Z.land b 0xff =? Z.land seq 0xff) && in_sequence (seq + 1) bs'
  end.

(** The loop of the parent: how much was read, or nothing when a byte was wrong. *)
Definition pipe1_read (fd : Z) : list Z * (Z * (Z * Z)) -> uprog (option Z) :=
  loop (fun '(buf, (seq, (total, cc))) =>
    let! (n, bs) := sys (Read fd cc) in
    let buf := fill bs buf in
    if negb (0 <? n) then break (Some total) else
    if negb (in_sequence seq (take (Z.to_nat n) buf)) then break None else
    let cc := cc * 2 in
    continue (buf, (seq + n, (total + n, if BUFSZ <? cc then BUFSZ else cc)))).

Definition pipe1 (s : list Z) : uprog unit :=
  let! (r, fds) := sys Pipe in
  check s (negb (r =? 0)) "pipe() failed" ;!
  let! pid := sys Fork in
  if pid =? 0 then pipe1_child s fds
  else if 0 <? pid then
    call (Close fds.2) ;!
    let! total := pipe1_read fds.1 (zero_buf, (0, (0, 1))) in
    match total with
    | None => uprintf ("%s: pipe1 oops 2" ++ LF) [VStr (Some s)]
    | Some total =>
        unless (negb (total =? pipe1_N * pipe1_SZ)) "%s: pipe1 oops 3 total %d" [VInt total] ;!
        call (Close fds.1) ;!
        let! xstatus := wait_status in exit_with xstatus
    end
  else die ("%s: fork() failed" ++ LF) [VStr (Some s)].

Definition preempt (s : list Z) : uprog unit :=
  let! pid1 := sys Fork in
  (if pid1 <? 0 then die "%s: fork failed" [] else uret tt) ;!
  if pid1 =? 0 then spin else
  let! pid2 := sys Fork in
  check s (pid2 <? 0) "fork failed" ;!
  if pid2 =? 0 then spin else
  let! (r, p) := sys Pipe in
  let pfds := if r <? 0 then None else Some p in
  let! pid3 := sys Fork in
  check s (pid3 <? 0) "fork failed" ;!
  let! pfds := the pfds in
  if pid3 =? 0 then
    call (Close pfds.1) ;!
    let! r := sys (Write pfds.2 (bytes "x")) in
    (if negb (r =? 1) then uprintf "%s: preempt write error" [] else uret tt) ;!
    call (Close pfds.2) ;!
    spin
  else
  call (Close pfds.2) ;!
  let! (r, _) := sys (Read pfds.1 BUFSZ) in
  if negb (r =? 1) then uprintf "%s: preempt read error" [] else
  call (Close pfds.1) ;!
  uprintf "kill... " [] ;!
  call (Kill pid1) ;! call (Kill pid2) ;! call (Kill pid3) ;!
  uprintf "wait... " [] ;!
  reap ;! reap ;! reap.

(** ** Fork, exit and wait *)

Definition exitwait (s : list Z) : uprog unit :=
  loop_for 100 (fun i =>
    let! pid := sys Fork in
    check s (pid <? 0) "fork failed" ;!
    if negb (pid =? 0) then
      let! (r, xstate) := wait_in None in
      check s (negb (r =? pid)) "wait wrong pid" ;!
      let! st := the xstate in
      check s (negb (i =? st)) "wait wrong exit status"
    else exit i).

Definition reparent (s : list Z) : uprog unit :=
  let! master_pid := sys Getpid in
  loop_for 200 (fun _ =>
    let! pid := sys Fork in
    check s (pid <? 0) "fork failed" ;!
    if negb (pid =? 0) then
      let! (r, _) := sys Wait in check s (negb (r =? pid)) "wait wrong pid"
    else
      let! pid2 := sys Fork in
      (if pid2 <? 0 then call (Kill master_pid) ;! exit 1 else uret tt) ;!
      exit 0) ;!
  exit 0.

Definition twochildren (s : list Z) : uprog unit :=
  loop_for 1000 (fun _ =>
    let! pid1 := sys Fork in
    check s (pid1 <? 0) "fork failed" ;!
    if pid1 =? 0 then exit 0 else
    let! pid2 := sys Fork in
    check s (pid2 <? 0) "fork failed" ;!
    if pid2 =? 0 then exit 0 else reap ;! reap).

Definition forkfork (s : list Z) : uprog unit :=
  let N := 2 in
  loop_for N (fun _ =>
    let! pid := sys Fork in
    (if pid <? 0 then die "%s: fork failed" [VStr (Some s)] else uret tt) ;!
    if pid =? 0 then
      loop_for 200 (fun _ =>
        let! pid1 := sys Fork in
        if pid1 <? 0 then exit 1 else if pid1 =? 0 then exit 0 else reap) ;!
      exit 0
    else uret tt) ;!
  each_with (seqZ 0 N) (fun _ x =>
    let! (_, x) := wait_in x in
    let! st := the x in
    (if negb (st =? 0) then die "%s: fork in child failed" [VStr (Some s)] else uret tt) ;! uret x) None ;!
  uret tt.

(** The child's loop: it forks until it sees the file. *)
Definition forkforkfork_child : uprog unit :=
  loop (fun _ : unit =>
    let! fd := sys (Open (bytes "stopforking") 0) in
    if 0 <=? fd then exit 0 else
    let! pid := sys Fork in
    (if pid <? 0 then reopen (bytes "stopforking") O_CR else uret tt) ;!
    continue tt) tt.

Definition forkforkfork (s : list Z) : uprog unit :=
  call (Unlink (bytes "stopforking")) ;!
  let! pid := sys Fork in
  (if pid <? 0 then die "%s: fork failed" [VStr (Some s)] else uret tt) ;!
  if pid =? 0 then forkforkfork_child else
  call (Sleep 20) ;!
  reopen (bytes "stopforking") O_CR ;!
  reap ;!
  call (Sleep 10).

Definition reparent2 (s : list Z) : uprog unit :=
  loop_for 800 (fun _ =>
    let! pid1 := sys Fork in
    unless (pid1 <? 0) "fork failed" [] ;!
    if pid1 =? 0 then call Fork ;! call Fork ;! exit 0 else reap) ;!
  exit 0.

(** The loop that forks is the one of forktest.c, with its limit of 1000. *)
Definition forktest (s : list Z) : uprog unit :=
  let N := 1000 in
  let! n := fork_all (Z.to_nat N) 0 in
  check s (n =? 0) "no fork at all!" ;!
  check s (n =? N) "fork claimed to work 1000 times!" ;!
  loop_for n (fun _ => let! (r, _) := sys Wait in check s (r <? 0) "wait stopped early") ;!
  let! (r, _) := sys Wait in
  check s (negb (r =? -1)) "wait got too many".

(** ** Exec *)

Definition bigarg : list Z := bytes ("bigargs test: failed" ++ LF) ++ replicate 199 32.

Definition bigargtest (s : list Z) : uprog unit :=
  let ok := bytes "bigarg-ok" in
  call (Unlink ok) ;!
  let! pid := sys Fork in
  if pid =? 0 then
    call (Exec (bytes "echo") (replicate (MAXARG - 1) bigarg)) ;!
    reopen ok O_CREATE ;!
    exit 0
  else
  check s (pid <? 0) "bigargtest: fork failed" ;!
  let! xstatus := wait_status in
  exit_unless_zero xstatus ;!
  let! fd := sys (Open ok 0) in
  check s (fd <? 0) "bigarg test failed!" ;!
  call (Close fd).

Definition pgbug (s : list Z) : uprog unit :=
  call (ExecAt (At 0xeaeb0b5b00002f5e) []) ;!
  call (PipeAt 0xeaeb0b5b00002f5e) ;!
  exit 0.

Definition badarg (s : list Z) : uprog unit :=
  loop_for 50000 (fun _ => call (ExecAt (Str (bytes "echo")) [At 0xffffffff])) ;!
  exit 0.

(** All of memory, a page at a time. *)
Definition execout_fill : uprog unit :=
  loop (fun _ : unit =>
    let! a := sys (Sbrk 4096) in
    if a =? no_mem then break tt else sys (Store (u64 (a + 4096 - 1)) 1) ;! continue tt) tt.

Definition execout (s : list Z) : uprog unit :=
  loop_for 15 (fun avail =>
    let! pid := sys Fork in
    if pid <? 0 then die ("fork failed" ++ LF) []
    else if pid =? 0 then
      execout_fill ;!
      loop_for avail (fun _ => call (Sbrk (-4096))) ;!
      call (Close 1) ;!
      call (Exec (bytes "echo") [bytes "echo"; bytes "x"]) ;!
      exit 0
    else reap) ;!
  exit 0.

(** ** What the parent of [pipe1] accepts *)

Lemma in_sequence_app a : forall seq b, in_sequence seq (a ++ b) = in_sequence seq a && in_sequence (seq + Z.of_nat (length a)) b.
Proof.
  induction a as [|x a IH]; intros seq b; cbn [app in_sequence length]; [now rewrite Z.add_0_r|].
  rewrite IH, andb_assoc. do 2 f_equal. lia.
Qed.

(** Whatever pieces the reads give, the loop accepts exactly the bytes of the sequence,
    and then its total is their number. *)
Theorem pipe1_read_correct fd d seq total cc buf w :
  w_in w !! fd = Some d -> 0 < cc ->
  must streams (fun r w' => w_fault w' = true \/
    r = Returned (if in_sequence seq d then Some (total + Z.of_nat (length d)) else None))
    (pipe1_read fd (buf, (seq, (total, cc)))) w.
Proof.
  revert seq total cc buf w. induction d as [d IH] using (induction_ltof1 _ (@length Z)).
  intros seq total cc buf w Hd Hc. apply must_loop, must_bind, (must_read _ _ d); [done|done|..]; cbn [then_end].
  - intros bs rest -> Hne _. destruct bs as [|b bs]; [done|]. set (l := b :: bs) in *.
    rewrite (proj2 (Z.ltb_lt 0 _)) by (cbn; lia). cbn [negb]. unfold fill. rewrite Nat2Z.id, take_app_length, in_sequence_app.
    destruct (in_sequence seq l); cbn [negb andb]; apply must_uret; cbn [then_end]; [|now right].
    eapply must_mono; [apply (IH rest)|].
    + unfold ltof. rewrite length_app. cbn. lia.
    + cbn. now rewrite lookup_insert_eq.
    + destruct (Z.ltb_spec BUFSZ (cc * 2)); [done|lia].
    + intros r w' [H|H]; [now left|right]. rewrite H, length_app. do 2 f_equal. destruct (in_sequence _ rest); f_equal. lia.
  - intros ->. apply must_uret. right. cbn. do 2 f_equal. lia.
  - apply must_uret. now left.
Qed.
