(* ===== verification/UtMem.v ===== *)
(** * Tests of the system calls (user/usertests.c): memory

    [sbrk] answers a pointer, [no_mem] when it fails; its argument is an [int].  The
    accesses a test makes to memory of its choice are events. *)

From stdpp Require Import base numbers list gmap strings.
From ITree Require Import Core.ITreeDefinition.
From S2P Require Import Prelude Kstate Kstring Umalloc Printf User Grep Utils UtBase.

(** ** The allocator *)

(** An operation of the allocator in a program, whose heap is [h]. *)
Definition heap_op {A} (m : H A) (h : heap) : uprog (A * heap) :=
  match m h with
  | Ok a h' => uret (a, h')
  | Panic _ _ => crash
  | Susp _ _ => spin
  end.

Section mem.
Context (base : Z) (can_grow : Z -> Z -> bool) (h0 : heap).

(** Blocks until there are no more, each with the address of the one before. *)
Definition mem_take : Z * heap -> uprog (Z * heap) :=
  loop (fun '(m1, h) =>
    let! (m2, h) := heap_op (malloc base can_grow 10001) h in
    if m2 =? 0 then break (m1, h) else
    let! (_, h) := heap_op (set_ptr m2 m1) h in
    continue (m2, h)).

Definition mem_give : Z * heap -> uprog heap :=
  loop (fun '(m1, h) =>
    if m1 =? 0 then break h else
    let! (m2, h) := heap_op (ptr_of m1) h in
    let! (_, h) := heap_op (free m1) h in
    continue (m2, h)).

Definition mem (s : list Z) : uprog unit :=
  let! pid := sys Fork in
  if pid =? 0 then
    let! (m1, h) := mem_take (0, h0) in
    let! h := mem_give (m1, h) in
    let! (m1, h) := heap_op (malloc base can_grow (1024 * 20)) h in
    unless (m1 =? 0) "couldn't allocate mem?!!" [VStr (Some s)] ;!
    heap_op (free m1) h ;!
    exit 0
  else
    let! xstatus := wait_status in
    let! st := the xstatus in
    if st =? -1 then exit 0 else exit st.
End mem.

(** ** Sbrk *)

(** [for(b = a; b < a+n; b += 4096) *b = v;] *)
Definition touch_pages (a b v : Z) : uprog unit := each (range a b 4096) (fun p => sys (Store (u64 p) v)).

Definition sbrkbasic (s : list Z) : uprog unit :=
  let TOOMUCH := 1024 * 1024 * 1024 in
  let! pid := sys Fork in
  unless (pid <? 0) "fork failed in sbrkbasic" [] ;!
  if pid =? 0 then
    let! a := sys (Sbrk TOOMUCH) in
    if a =? no_mem then exit 0 else
    touch_pages a (a + TOOMUCH) 99 ;!
    exit 1
  else
  let! xstatus := wait_status in
  let! st := the xstatus in
  check s (st =? 1) "too much memory allocated!" ;!
  let! a := sys (Sbrk 0) in
  let! a := each_with (seqZ 0 5000) (fun i a =>
    let! b := sys (Sbrk 1) in
    unless (negb (b =? a)) "%s: sbrk test failed %d %x %x" [VInt i; VPtr a; VPtr b] ;!
    sys (Store b 1) ;!
    uret (u64 (b + 1))) a in
  let! pid := sys Fork in
  check s (pid <? 0) "sbrk test fork failed" ;!
  call (Sbrk 1) ;!
  let! c := sys (Sbrk 1) in
  check s (negb (c =? u64 (a + 1))) "sbrk test failed post-fork" ;!
  if pid =? 0 then exit 0 else
  (* a [wait] that fails leaves the status of the first child *)
  let! (_, xstatus) := wait_in xstatus in exit_with xstatus.

Definition BIG : Z := 100 * 1024 * 1024.

Definition sbrkmuch (s : list Z) : uprog unit :=
  let! oldbrk := sys (Sbrk 0) in
  let! a := sys (Sbrk 0) in
  let! p := sys (Sbrk (i32 (u64 (BIG - a)))) in
  check s (negb (p =? a)) "sbrk test failed to grow big address space; enough phys mem?" ;!
  let! eee := sys (Sbrk 0) in
  touch_pages a eee 1 ;!
  let lastaddr := BIG - 1 in
  sys (Store lastaddr 99) ;!
  let! a := sys (Sbrk 0) in
  let! c := sys (Sbrk (- PGSIZE)) in
  check s (c =? no_mem) "sbrk could not deallocate" ;!
  let! c := sys (Sbrk 0) in
  unless (negb (c =? u64 (a - PGSIZE))) "%s: sbrk deallocation produced wrong address, a %x c %x" [VPtr a; VPtr c] ;!
  let! a := sys (Sbrk 0) in
  let! c := sys (Sbrk PGSIZE) in
  let! moved := (if negb (c =? a) then uret true else let! d := sys (Sbrk 0) in uret (negb (d =? u64 (a + PGSIZE)))) in
  unless moved "%s: sbrk re-allocation failed, a %x c %x" [VPtr a; VPtr c] ;!
  let! v := sys (Load lastaddr) in
  check s (v =? 99) "sbrk de-allocation didn't really deallocate" ;!
  let! a := sys (Sbrk 0) in
  let! d := sys (Sbrk 0) in
  let! c := sys (Sbrk (i32 (- (d - oldbrk)))) in
  unless (negb (c =? a)) "%s: sbrk downsize failed, a %x c %x" [VPtr a; VPtr c].

(** The children of [sbrkfail] that take memory and wait to be killed. *)
Definition sbrkfail_child (fds : Z * Z) : uprog Z :=
  let! top := sys (Sbrk 0) in
  call (Sbrk (i32 (u64 (BIG - top)))) ;!
  call (Write fds.2 (bytes "x")) ;!
  loop (fun _ : unit => call (Sleep 1000) ;! continue tt) tt.

Definition sbrkfail (s : list Z) : uprog unit :=
  let! (r, fds) := sys Pipe in
  check s (negb (r =? 0)) "pipe() failed" ;!
  let! pids := each_with (seqZ 0 10) (fun _ pids =>
    let! pid := sys Fork in
    let! pid := (if pid =? 0 then sbrkfail_child fds else uret pid) in
    (if negb (pid =? -1) then sys (Read fds.1 1) ;! uret tt else uret tt) ;!
    uret (pids ++ [pid])) [] in
  let! c := sys (Sbrk PGSIZE) in
  each pids (fun pid => if pid =? -1 then uret tt else call (Kill pid) ;! reap) ;!
  check s (c =? no_mem) "failed sbrk leaked memory" ;!
  let! pid := sys Fork in
  check s (pid <? 0) "fork failed" ;!
  if pid =? 0 then
    let! a := sys (Sbrk 0) in
    call (Sbrk (10 * BIG)) ;!
    let! n := each_with (range 0 (10 * BIG) PGSIZE) (fun i n => let! v := sys (Load (u64 (a + i))) in uret (n + v)) 0 in
    die ("%s: allocate a lot of memory succeeded %d" ++ LF) [VInt n]
  else
  let! xstatus := wait_status in
  let! st := the xstatus in
  if negb (st =? -1) && negb (st =? 2) then exit 1 else uret tt.

Definition sbrkarg (s : list Z) : uprog unit :=
  let! a := sys (Sbrk PGSIZE) in
  let! fd := sys (Open (bytes "sbrk") O_CW) in
  call (Unlink (bytes "sbrk")) ;!
  check s (fd <? 0) "open sbrk failed" ;!
  check_call s (WriteAt fd a PGSIZE) negative "write sbrk failed" ;!
  call (Close fd) ;!
  let! a := sys (Sbrk PGSIZE) in
  check_call s (PipeAt a) nonzero "pipe() failed".

(** After [sbrk(-sz)] the program has no memory left, its code included: the call that
    follows is what the program would do next. *)
Definition sbrkbugs (s : list Z) : uprog unit :=
  let in_child (t : uprog unit) :=
    let! pid := sys Fork in
    unless (pid <? 0) "fork failed" [] ;!
    if pid =? 0 then t ;! exit 0 else reap in
  in_child (let! top := sys (Sbrk 0) in let sz := i32 top in call (Sbrk (i32 (- sz)))) ;!
  in_child (let! top := sys (Sbrk 0) in let sz := i32 top in call (Sbrk (i32 (- (sz - 3500))))) ;!
  in_child (let! top := sys (Sbrk 0) in call (Sbrk (i32 (u64 (10 * 4096 + 2048 - top)))) ;! call (Sbrk (-10))) ;!
  exit 0.

(** ** Memory that is not the program's *)

(** A message whose arguments are the address and the byte there, which do not fit it. *)
Definition kernmem (s : list Z) : uprog unit :=
  each (range KERNBASE (KERNBASE + 2000000) 50000) (fun a =>
    let! pid := sys Fork in
    check s (pid <? 0) "fork failed" ;!
    if pid =? 0 then
      let! v := sys (Load a) in die ("%s: oops could read %x = %x" ++ LF) [VPtr a; VInt v]
    else
    let! xstatus := wait_status in
    let! st := the xstatus in
    if negb (st =? -1) then exit 1 else uret tt).

Definition validatetest (s : list Z) : uprog unit :=
  let hi := 1100 * 1024 in
  each (range 0 (u32 hi + 1) PGSIZE) (fun p =>
    check_call s (LinkAt (Str (bytes "nosuchfile")) (At p)) (not_eq (-1)) "link should not succeed").

Definition stacktest (s : list Z) : uprog unit :=
  let! pid := sys Fork in
  if pid =? 0 then
    let! sp := sys GetSp in
    let! v := sys (Load (u64 (sp - PGSIZE))) in
    die ("%s: stacktest: read below stack %p" ++ LF) [VInt v]
  else
  check s (pid <? 0) "fork failed" ;!
  let! xstatus := wait_status in
  let! st := the xstatus in
  if st =? -1 then exit 0 else exit st.

(** [uninit] is the address of the array. *)
Definition bsstest (uninit : Z) (s : list Z) : uprog unit :=
  loop_for 10000 (fun i => let! v := sys (Load (uninit + i)) in check s (negb (v =? 0)) "bss test failed").

(** The tests' generator: [randstate] and the result. *)
Definition rand (randstate : Z) : Z * Z :=
  let x := u64 (randstate * 1664525 + 1013904223) in (x, u32 x).
