(* ===== verification/Usertests.v ===== *)
(** * Tests of the system calls (user/usertests.c): the runner

    [countfree], [run] and [main]; the verdict [main] gives, for any behaviour of the
    processes it starts. *)

From stdpp Require Import base numbers list gmap strings.
From ITree Require Import Core.ITreeDefinition.
From S2P Require Import Prelude Kstate Kstring Umalloc Printf User Grep Utils UtBase UtFiles UtProcs UtMem.

(** ** The number of free pages *)

(** The child: a byte for each page it gets. *)
Definition countfree_child (fds : Z * Z) : uprog Z :=
  call (Close fds.1) ;!
  loop (fun _ : unit =>
    let! a := sys (Sbrk 4096) in
    if a =? no_mem then break tt else
    sys (Store (u64 (a + 4096 - 1)) 1) ;!
    let! r := sys (Write fds.2 (bytes "x")) in
    unless (negb (r =? 1)) "write() failed in countfree()" [] ;!
    continue tt) tt ;!
  exit 0.

Definition countfree_read (fd : Z) : Z -> uprog Z :=
  loop (fun n =>
    let! (cc, _) := sys (Read fd 1) in
    unless (cc <? 0) "read() failed in countfree()" [] ;!
    if cc =? 0 then break n else continue (n + 1)).

Definition countfree : uprog Z :=
  let! (r, fds) := sys Pipe in
  unless (r <? 0) "pipe() failed in countfree()" [] ;!
  let! pid := sys Fork in
  unless (pid <? 0) "fork failed in countfree()" [] ;!
  if pid =? 0 then countfree_child fds else
  call (Close fds.2) ;!
  let! n := countfree_read fds.1 0 in
  call (Close fds.1) ;!
  reap ;!
  uret n.

(** ** The tests *)

Definition run (f : list Z -> uprog unit) (s : list Z) : uprog bool :=
  uprintf "test %s: " [VStr (Some s)] ;!
  let! pid := sys Fork in
  unless (pid <? 0) "runtest: fork error" [] ;!
  if pid =? 0 then f s ;! exit 0 else
  let! xstatus := wait_status in
  let! st := the xstatus in
  (if negb (st =? 0) then uprintf ("FAILED" ++ LF) [] else uprintf ("OK" ++ LF) []) ;!
  uret (st =? 0).

Definition test : Type := (list Z -> uprog unit) * list Z.

(** The program's [uninit] and [base], and its heap when it starts. *)
Section usertests.
Context (uninit base : Z) (can_grow : Z -> Z -> bool) (h0 : heap).

Definition tests : list test :=
  [(execout, bytes "execout"); (copyin, bytes "copyin"); (copyout, bytes "copyout");
   (copyinstr1, bytes "copyinstr1"); (copyinstr2, bytes "copyinstr2"); (copyinstr3, bytes "copyinstr3");
   (truncate1, bytes "truncate1"); (truncate2, bytes "truncate2"); (truncate3, bytes "truncate3");
   (reparent2, bytes "reparent2"); (pgbug, bytes "pgbug"); (sbrkbugs, bytes "sbrkbugs"); (badarg, bytes "badarg");
   (reparent, bytes "reparent"); (twochildren, bytes "twochildren"); (forkfork, bytes "forkfork");
   (forkforkfork, bytes "forkforkfork"); (argptest, bytes "argptest"); (createdelete, bytes "createdelete");
   (linkunlink, bytes "linkunlink"); (linktest, bytes "linktest"); (unlinkread, bytes "unlinkread");
   (concreate, bytes "concreate"); (subdir, bytes "subdir"); (fourfiles, bytes "fourfiles");
   (sharedfd, bytes "sharedfd"); (exectest, bytes "exectest"); (bigargtest, bytes "bigargtest");
   (bigwrite, bytes "bigwrite"); (bsstest uninit, bytes "bsstest"); (sbrkbasic, bytes "sbrkbasic");
   (sbrkmuch, bytes "sbrkmuch"); (kernmem, bytes "kernmem"); (sbrkfail, bytes "sbrkfail");
   (sbrkarg, bytes "sbrkarg"); (validatetest, bytes "validatetest"); (stacktest, bytes "stacktest");
   (opentest, bytes "opentest"); (writetest, bytes "writetest"); (writebig, bytes "writebig");
   (createtest, bytes "createtest"); (openiputtest, bytes "openiput"); (exitiputtest, bytes "exitiput");
   (iputtest, bytes "iput"); (mem base can_grow h0, bytes "mem"); (pipe1, bytes "pipe1");
   (preempt, bytes "preempt"); (exitwait, bytes "exitwait"); (rmdot, bytes "rmdot");
   (fourteen, bytes "fourteen"); (bigfile, bytes "bigfile"); (dirfile, bytes "dirfile"); (iref, bytes "iref");
   (forktest, bytes "forktest"); (bigdir, bytes "bigdir")].

(** The loop of the continuous mode over the tests: whether one failed. *)
Fixpoint run_until_failure (ts : list test) : uprog bool :=
  match ts with
  | [] => uret false
  | t :: ts' => let! ok := run t.1 t.2 in if ok then run_until_failure ts' else uret true
  end.

Definition continuously (continuous : Z) : uprog unit :=
  uprintf ("continuous usertests starting" ++ LF) [] ;!
  loop (fun _ : unit =>
    let! free0 := countfree in
    let! failed := run_until_failure tests in
    (if failed then uprintf ("SOME TESTS FAILED" ++ LF) [] ;! (if negb (continuous =? 2) then exit 1 else uret tt)
     else uret tt) ;!
    let! free1 := countfree in
    (if free1 <? free0 then
       uprintf ("FAILED -- lost %d free pages" ++ LF) [VInt (free0 - free1)] ;!
       (if negb (continuous =? 2) then exit 1 else uret tt)
     else uret tt) ;!
    continue tt) tt.

(** [(justone == 0) || strcmp(t->s, justone) == 0] *)
Definition wanted (justone : option (list Z)) (t : test) : bool :=
  match justone with None => true | Some name => Ulib.strcmp t.2 name =? 0 end.

(** The part of [main] that runs the tests once. *)
Definition run_once (justone : option (list Z)) : uprog unit :=
  uprintf ("usertests starting" ++ LF) [] ;!
  let! free0 := countfree in
  let! failed := each_with tests (fun t failed =>
    if wanted justone t then let! ok := run t.1 t.2 in uret (if ok then failed else true) else uret failed) false in
  if failed then die ("SOME TESTS FAILED" ++ LF) [] else
  let! free1 := countfree in
  if free1 <? free0 then die ("FAILED -- lost some free pages %d (out of %d)" ++ LF) [VInt free1; VInt free0]
  else uprintf ("ALL TESTS PASSED" ++ LF) [] ;! exit 0.

Definition usertests_main (argv : list (list Z)) : uprog unit :=
  match argv with
  | [_; a] =>
      if Ulib.strcmp a (bytes "-c") =? 0 then continuously 1
      else if Ulib.strcmp a (bytes "-C") =? 0 then continuously 2
      else if negb (nth 0 a 0 =? 45) then run_once (Some a)
      else die ("Usage: usertests [-c] [testname]" ++ LF) []
  | _ => if (1 <? length argv)%nat then die ("Usage: usertests [-c] [testname]" ++ LF) [] else run_once None
  end.
End usertests.

(** ** The processes the runner starts, as it sees them

    Each child has a number of bytes it will write to the runner's pipe and a status
    with which it will end, in any way: by [exit] or killed.  The runner's own [pipe],
    [fork] and [read] can fail, which [b_fault] records; what it writes is taken, and
    [wait] finds the child. *)

Record bench := mk_bench {
  b_kids : list (nat * Z);
  b_pipe : nat;
  b_child : option Z;
  b_out : list Z;
  b_fault : bool }.

Definition failed_call (w : bench) : bench := mk_bench (b_kids w) (b_pipe w) (b_child w) (b_out w) true.
Definition say (bs : list Z) (w : bench) : bench := mk_bench (b_kids w) (b_pipe w) (b_child w) (b_out w ++ bs) (b_fault w).

Definition runner (X : Type) (e : sysE X) : bench -> X -> bench -> Prop :=
  match e with
  | Write _ bs => fun w x w' => x = Z.of_nat (length bs) /\ w' = say bs w
  | Fork => fun w x w' =>
      (exists n st rest, b_kids w = (n, st) :: rest /\ 0 < x /\ w' = mk_bench rest n (Some st) (b_out w) (b_fault w)) \/
      (x = -1 /\ w' = failed_call w)
  | Pipe => fun w x w' => (x.1 = 0 /\ w' = w) \/ (x.1 = -1 /\ w' = failed_call w)
  | Read _ _ => fun w x w' =>
      (exists n b, b_pipe w = S n /\ x = (1, [b]) /\ w' = mk_bench (b_kids w) n (b_child w) (b_out w) (b_fault w)) \/
      (b_pipe w = 0%nat /\ x = (0, []) /\ w' = w) \/
      (x = (-1, []) /\ w' = failed_call w)
  | Close _ => fun w x w' => x = 0 /\ w' = w
  | Wait => fun w x w' =>
      exists st, b_child w = Some st /\ 0 < x.1 /\ x.2 = st /\
      w' = mk_bench (b_kids w) (b_pipe w) None (b_out w) (b_fault w)
  | _ => fun _ _ _ => False
  end.

#[export] Instance runner_console fd : Console runner fd (fun bs w w' => w' = say bs w).
Proof.
  split.
  - intros []. unfold say. cbn. now rewrite app_nil_r.
  - intros b1 b2 [] w2 w3 -> ->. unfold say. cbn. now rewrite app_assoc.
  - intros bs Q w HQ. apply must_call; [done|now do 2 eexists|]. intros x w' [_ ->]. now apply HQ.
Qed.

Lemma must_say fmt ap bs (Q : uend unit -> bench -> Prop) w :
  format (bytes fmt) ap = Some bs -> Q (Returned tt) (say bs w) -> must runner Q (uprintf fmt ap) w.
Proof. intros E HQ. apply (must_print runner 1 _ _ _ bs); [done|]. now intros w' ->. Qed.

Lemma must_die {A} fmt ap bs (Q : uend A -> bench -> Prop) w :
  format (bytes fmt) ap = Some bs -> Q (Exited 1) (say bs w) -> must runner Q (die fmt ap) w.
Proof. intros E HQ. apply must_bind. apply (must_say _ _ _ _ _ E). now apply must_exit. Qed.

(** After [n] free pages are counted, with the children that are left. *)
Definition counted_pages (rest : list (nat * Z)) (w : bench) : bench := mk_bench rest 0 None (b_out w) (b_fault w).

Lemma must_countfree_read fd (Q : uend Z -> bench -> Prop) : forall n acc w,
  b_pipe w = n ->
  Q (Returned (acc + Z.of_nat n)) (mk_bench (b_kids w) 0 (b_child w) (b_out w) (b_fault w)) ->
  (forall w', b_fault w' = true -> Q (Exited 1) w') ->
  must runner Q (countfree_read fd acc) w.
Proof.
  induction n as [|n IH]; intros acc w Hn HQ Hf; apply must_loop, must_bind; (apply must_call; [done|..]).
  1, 3: do 2 eexists; right; right; done.
  all: intros x w' [(m & b & E & -> & ->)|[(E & -> & ->)|(-> & ->)]]; try congruence; cbn; apply must_bind.
  all: try (eapply must_die; [reflexivity|]; now apply Hf).
  - apply must_uret. apply must_uret. cbn. rewrite Z.add_0_r in HQ. destruct w; cbn in *; now subst.
  - rewrite Hn in E. injection E as <-. apply must_uret. apply must_uret. apply IH; cbn; [done| |done].
    replace (acc + 1 + Z.of_nat n) with (acc + Z.of_nat (S n)) by lia. done.
Qed.

Lemma must_fork {A} (k : Z -> uprog A) (Q : uend A -> bench -> Prop) w n st rest :
  b_kids w = (n, st) :: rest ->
  (forall pid, 0 < pid -> must runner Q (k pid) (mk_bench rest n (Some st) (b_out w) (b_fault w))) ->
  must runner Q (k (-1)) (failed_call w) ->
  must runner Q (let! pid := sys Fork in k pid) w.
Proof.
  intros Hk Ho Hf. apply must_bind, must_call; [done|do 2 eexists; right; done|].
  intros x w' [(m & s & r & E & Hx & ->)|[-> ->]]; [|done]. rewrite Hk in E. injection E as <- <- <-. now apply Ho.
Qed.

Lemma must_close {A} fd (k : uprog A) (Q : uend A -> bench -> Prop) w :
  must runner Q k w -> must runner Q (call (Close fd) ;! k) w.
Proof.
  intros H. apply must_bind, must_bind, must_call; [done|now do 2 eexists|]. intros x w' [_ ->]. now apply must_uret.
Qed.

Lemma must_countfree (Q : uend Z -> bench -> Prop) w n st rest :
  b_kids w = (n, st) :: rest -> Q (Returned (Z.of_nat n)) (counted_pages rest w) ->
  (forall w', b_fault w' = true -> Q (Exited 1) w') -> must runner Q countfree w.
Proof.
  intros Hk HQ Hf. apply must_bind, must_call; [done|exists (0, (0, 0)), w; now left|].
  intros [r fds] w' [[E ->]|[E ->]]; cbn in E; subst; cbn; apply must_bind;
    [|eapply must_die; [reflexivity|]; now apply Hf].
  apply must_uret. cbn. apply (must_fork _ _ _ _ _ _ Hk).
  - intros pid Hp. rewrite (proj2 (Z.ltb_ge _ _)), (proj2 (Z.eqb_neq _ _)) by lia. apply must_bind, must_uret. cbn.
    apply must_close, must_bind, (must_countfree_read _ _ n); [done| |exact Hf]. cbn.
    apply must_close, must_bind, must_bind, must_call; [done|exists (1, st); eexists; now eexists|].
    intros x w' (s & [= <-] & _ & _ & ->). apply must_uret, must_uret. exact HQ.
  - apply must_bind. eapply must_die; [reflexivity|]. now apply Hf.
Qed.

(** ** The verdict *)

(** What [run] prints of a test whose process ended with [st]. *)
Definition report (t : test) (st : Z) : list Z :=
  bytes "test " ++ map u8 t.2 ++ bytes ": " ++ bytes ((if st =? 0 then "OK" else "FAILED") ++ LF).

Definition reports (ts : list test) (kids : list (nat * Z)) : list Z := concat (zip_with (fun t k => report t k.2) ts kids).

Definition all_passed (kids : list (nat * Z)) : bool := forallb (fun k => k.2 =? 0) kids.

(** The last line. *)
Definition summary (kids : list (nat * Z)) (free0 free1 : Z) : list Z :=
  if negb (all_passed kids) then bytes ("SOME TESTS FAILED" ++ LF)
  else if free1 <? free0 then
    bytes "FAILED -- lost some free pages " ++ map u8 (uprintint free1 10 true) ++
    bytes " (out of " ++ map u8 (uprintint free0 10 true) ++ bytes (")" ++ LF)
  else bytes ("ALL TESTS PASSED" ++ LF).

Definition ran (bs : list Z) (rest : list (nat * Z)) (w : bench) (n : nat) : bench :=
  mk_bench rest n None (b_out w ++ bs) (b_fault w).

Lemma must_run t (Q : uend bool -> bench -> Prop) w n st rest :
  b_kids w = (n, st) :: rest -> Q (Returned (st =? 0)) (ran (report t st) rest w n) ->
  (forall w', b_fault w' = true -> Q (Exited 1) w') -> must runner Q (run t.1 t.2) w.
Proof.
  intros Hk HQ Hf. apply must_bind.
  apply (must_say _ _ (bytes "test " ++ map u8 t.2 ++ bytes ": ")); [reflexivity|]. cbn [then_end].
  eapply must_fork; [exact Hk| |].
  - intros pid Hp. rewrite (proj2 (Z.ltb_ge _ _)), (proj2 (Z.eqb_neq pid 0)) by lia. apply must_bind, must_uret. cbn [then_end].
    apply must_bind, must_bind, must_bind, must_call; [done|exists (1, st); eexists; now eexists|].
    intros [r x] w' (s & [= <-] & Hr & E & ->). cbn in Hr, E. subst x. cbn [then_end].
    rewrite (proj2 (Z.ltb_ge r 0)) by lia. do 2 apply must_uret. cbn [then_end the]. apply must_bind, must_uret. cbn [then_end].
    unfold ran, report in HQ. apply must_bind.
    destruct (st =? 0); cbn [negb]; (eapply must_say; [reflexivity|]); apply must_uret; unfold say; cbn [b_kids b_pipe b_child b_out b_fault];
      rewrite <- app_assoc; refine (eq_ind _ (fun l => Q _ (mk_bench rest n None (b_out w ++ l) _)) HQ _ _);
      rewrite <- !app_assoc; reflexivity.
  - apply must_bind. eapply must_die; [reflexivity|]. now apply Hf.
Qed.

Lemma must_run_all justone (Q : uend bool -> bench -> Prop) tail : forall ts kids bad w,
  length kids = length (List.filter (wanted justone) ts) -> b_kids w = kids ++ tail ->
  (forall n, Q (Returned (bad || negb (all_passed kids)))
     (mk_bench tail n (match kids with [] => b_child w | _ => None end)
        (b_out w ++ reports (List.filter (wanted justone) ts) kids) (b_fault w))) ->
  (forall w', b_fault w' = true -> Q (Exited 1) w') ->
  must runner Q (each_with ts (fun t failed =>
    if wanted justone t then let! ok := run t.1 t.2 in uret (if ok then failed else true) else uret failed) bad) w.
Proof.
  induction ts as [|t ts IH]; intros kids bad w Hl Hk HQ Hf; cbn [each_with List.filter] in *.
  - destruct kids; [|done]. apply must_uret. specialize (HQ (b_pipe w)). cbn in HQ, Hk. rewrite app_nil_r, orb_false_r in HQ.
    destruct w; cbn in *; now subst.
  - apply must_bind. destruct (wanted justone t).
    + destruct kids as [|[n st] kids]; [done|]. apply must_bind. apply (must_run t _ w n st (kids ++ tail)); [done| |done].
      cbn [then_end]. apply must_uret. cbn [then_end]. apply (IH kids); [now injection Hl|done| |done].
      intros m. specialize (HQ m). cbn [ran b_child b_out b_fault] in *. destruct bad, (st =? 0) eqn:E, kids;
        cbn [all_passed forallb negb orb andb] in *; unfold reports in *; cbn [zip_with concat snd] in *;
        rewrite ?E in HQ; cbn [andb orb negb] in HQ; rewrite <- ?app_assoc; exact HQ.
    + apply must_uret. cbn [then_end]. now apply (IH kids).
Qed.

(** The command lines that run the tests once: all of them, or those of a name. *)
Inductive asks : list (list Z) -> option (list Z) -> Prop :=
| asks_all prog : asks [prog] None
| asks_one prog a : nth 0 a 0 <> 45 -> asks [prog; a] (Some a).

Lemma strcmp_dash a r : nth 0 a 0 <> 45 -> Ulib.strcmp a (45 :: r) =? 0 = false.
Proof.
  intros H. apply Z.eqb_neq. destruct a as [|c a]; cbn [Ulib.strcmp nth] in *; [lia|].
  rewrite (proj2 (Z.eqb_neq c 45)), andb_false_r by done. lia.
Qed.

Section verdict.
Context (uninit base : Z) (can_grow : Z -> Z -> bool) (h0 : heap).
Notation main := (usertests_main uninit base can_grow h0).
Notation all_tests := (tests uninit base can_grow h0).

Lemma asks_main argv justone : asks argv justone -> main argv = run_once uninit base can_grow h0 justone.
Proof.
  intros []; [done|]. unfold usertests_main. change (bytes "-c") with [45; 99]. change (bytes "-C") with [45; 67].
  rewrite !strcmp_dash by done. now rewrite (proj2 (Z.eqb_neq _ _)) by done.
Qed.

(** C21: The verdict of usertests.  Let the processes for the tests that were asked for
    end with any statuses, and let the two counts of free pages be [f0] and [f1].  Then
    [main] ends.  If its own [pipe], [fork] or [read] fails it exits with 1.  Otherwise it prints a
    line for each test, in the order of the table, that says OK exactly when the
    process exited with 0, and a last line; it exits with 0 when every process did and
    no page was lost, and with 1 otherwise. *)
Theorem usertests_verdict argv justone f0 s0 kids f1 s1 w :
  asks argv justone ->
  length kids = length (List.filter (wanted justone) all_tests) ->
  b_kids w = (f0, s0) :: kids ++ [(f1, s1)] -> b_fault w = false ->
  must runner (fun r w' =>
    if b_fault w' then r = Exited 1 else
    r = Exited (if all_passed kids && (f0 <=? f1)%nat then 0 else 1) /\
    b_out w' = b_out w ++ bytes ("usertests starting" ++ LF) ++
      reports (List.filter (wanted justone) all_tests) kids ++ summary kids (Z.of_nat f0) (Z.of_nat f1)) (main argv) w.
Proof.
  intros Ha Hl Hk Hf. rewrite (asks_main _ _ Ha). unfold run_once.
  set (ts := all_tests) in *. clearbody ts. apply must_bind. eapply must_say; [reflexivity|]. cbn [then_end].
  apply must_bind. eapply must_countfree; [exact Hk| |now intros w' ->]. cbn [then_end].
  apply must_bind. eapply must_run_all; [exact Hl|reflexivity| |now intros w' ->]. intros n. cbn [then_end orb].
  unfold summary. destruct (all_passed kids); cbn [negb andb].
  - apply must_bind. eapply must_countfree; [reflexivity| |now intros w' ->]. cbn [then_end].
    destruct (Z.ltb_spec (Z.of_nat f1) (Z.of_nat f0)) as [H|H].
    + rewrite (proj2 (Nat.leb_gt _ _)) by lia. eapply must_die; [reflexivity|]. cbn. rewrite Hf. split; [done|].
      rewrite <- !app_assoc. cbn. now rewrite <- ?app_assoc.
    + rewrite (proj2 (Nat.leb_le _ _)) by lia. apply must_bind. eapply must_say; [reflexivity|]. apply must_exit. cbn. rewrite Hf.
      split; [done|]. now rewrite <- !app_assoc.
  - eapply must_die; [reflexivity|]. cbn. rewrite Hf. split; [done|]. now rewrite <- !app_assoc.
Qed.
End verdict.

(** [usertests pipe1], where the test fails. *)
Lemma usertests_verdict_witness :
  must runner (fun r w' => b_fault w' = false -> r = Exited 1 /\ b_out w' = bytes
    ("usertests starting" ++ LF ++ "test pipe1: FAILED" ++ LF ++ "SOME TESTS FAILED" ++ LF))
    (usertests_main 0 0 (fun _ _ => true) (mk_heap (fun _ => 0) 0 16384) [bytes "usertests"; bytes "pipe1"])
    (mk_bench [(9%nat, 0); (0%nat, 1); (9%nat, 0)] 0 None [] false).
Proof.
  eapply must_mono.
  - apply (usertests_verdict 0 0 (fun _ _ => true) (mk_heap (fun _ => 0) 0 16384) [bytes "usertests"; bytes "pipe1"]
      (Some (bytes "pipe1")) 9 0 [(0%nat, 1)] 9 0); [now apply asks_one|reflexivity|reflexivity|reflexivity].
  - cbv beta. intros r w' H E. rewrite E in H. destruct H as [-> ->]. split; vm_compute; reflexivity.
Defined.


(** The process of a test, to which [fork] answers 0: it ends as the test does, and with
    0 when the test returns. *)
Theorem run_child {W} (handle : forall X, sysE X -> W -> X -> W -> Prop) out `{!Console handle 1 out} f s
    (Q : uend bool -> W -> Prop) w :
  (forall w, handle Z Fork w 0 w) -> (forall w x w', handle Z Fork w x w' -> x = 0 /\ w' = w) ->
  (forall w', out (bytes "test " ++ map u8 s ++ bytes ": ") w w' ->
     must handle (fun r w'' => Q (match r with Returned _ => Exited 0 | Exited n => Exited n | Replaced p a => Replaced p a end) w'')
       (f s) w') ->
  must handle Q (run f s) w.
Proof.
  intros Hf Hf' H. apply must_bind, (must_print handle 1 out _ _ (bytes "test " ++ map u8 s ++ bytes ": ")); [reflexivity|].
  intros w' Hw. apply must_bind, must_call; [done|eauto|]. intros x w'' [-> ->]%Hf'. cbn [then_end Z.ltb Z.eqb Z.compare].
  apply must_bind, must_uret. cbn [then_end]. apply must_bind. eapply must_mono; [exact (H _ Hw)|].
  intros [[]|n|p a] w'' HQ; cbn [then_end]; [now apply must_exit|exact HQ|exact HQ].
Qed.
